(* ===== verification/_CoqProject ===== *)
-Q . S2P
Prelude.v
Text.v
Perm.v
Nostr.v
GroupEvent.v
Replace.v
Zap.v
GroupState.v
Fold.v
FoldOrder.v
Authority.v
Safety.v
Invariant.v
Machine.v
Escalation.v
Answers.v
Compaction.v
Binding.v
Dm.v
Groups.v
ZapSpec.v
EventStore.v
StoreSpec.v
Jitter.v
Proto.v
Person.v
Node.v
StoreEffect.v
NodeSpec.v
Accept.v
Overlap.v
OverlapSpec.v
NodeOps.v
Doors.v
Reading.v
NodeGroups.v
Session.v
Relay.v
RelaySpec.v
Sync.v
SyncSpec.v
NodeRight.v
SyncLoop.v
SyncLoopSpec.v
Blobs.v
BlobsSpec.v
Audio.v
Voice.v
VoiceSpec.v
Lightning.v
Wallet.v
WalletSpec.v
App.v
Views.v
Chat.v
Publish.v
AppSpec.v
PublishSpec.v
Cli.v
CliSpec.v
Anchor.v
AnchorSpec.v
Shown.v
ShownSpec.v
Core.v
Window.v
WindowSpec.v
Timeline.v
Render.v
RenderSpec.v
AppRight.v
Dialog.v
DialogSpec.v
Witnesses.v
NodeWitnesses.v
WireWitnesses.v
SyncWitnesses.v
AppWitnesses.v
AnchorWitnesses.v
WindowWitnesses.v
