(* ===== verification/Prelude.v ===== *)
(** * HIT_ENTER: a verification development

    HIT_ENTER is a peer-to-peer group chat: every peer keeps signed Nostr
    events, and computes from them, on its own, what a group is, who may do
    what in it, what to store and whom to show it to.  This library models the
    Rust sources (under [src/crates/]) as executable definitions, from the
    events of a group up to the rows of the window, and proves what makes them
    correct.  It is a shallow embedding: a Rust function is a Rocq function of
    the same name, a [Result] a [result], an [Option] an [option], a [BTreeMap]
    or [HashMap] a [gmap] read in key order where the code iterates over it, an
    integer a [Z] with its width written out where it matters, a string a
    [string] of bytes.  What changes a shared state is a function to the state
    it leaves: the monads [Node.M] (one node), [Session.Ses] (a session over
    it), [App.AppM] (the app), [Publish.PubM] (a round of the publisher),
    [Anchor.Br] (a bridge client), [Window.WinM] (the window's cache) and
    [Cli.CliM] (one command line).

    ** The parts, and the code they model

    Foundations.
    - [Prelude]: results and their early returns, stable sorting, ordered
      iteration, the best of a list under a total order, tactics.
    - [Text]: the string functions of Rust's standard library the code uses
      (UTF-8, trimming, splitting, printing and parsing integers).
    - [Nostr]: the interface of the [nostr] crate.  Keys, ids, signatures are
      abstract ([NostrTypes]), the crate's functions are fields ([NostrOps])
      and what the program relies on are laws ([NostrLaws]).  [Nostr.Sample] is
      an instance that computes and satisfies the laws.

    A group (hit-event, hit-group).
    - [Perm] (hit-group/src/perm.rs): permission bits, their masks and names.
    - [GroupEvent] (hit-event/src/group.rs): the events of a group, their
      builders and parsers, snapshots, attachments.
    - [Replace] (hit-event/src/replace.rs): which event replaces which.
    - [Zap] (hit-event/src/zap.rs): bech32, BOLT 11 invoices, zap receipts and
      their carriers; [ZapSpec] proves them.
    - [GroupState] (hit-group/src/state.rs): a group's state and every question
      asked of it; [Fold] (the same file): [apply], [edit], [apply_second] and
      [fold], which compute the state from events, one handler per action.
      [FoldOrder], [Authority], [Safety], [Invariant], [Machine], [Escalation],
      [Answers] and [Compaction] prove them.
    - [Binding] (hit-event/src/binding.rs): "this person speaks from this
      device", and the book of bindings; device keys are the class
      [DeviceTypes], with [SampleDevice].
    - [Dm] (hit-event/src/dm.rs): direct messages, their files, inbox lists;
      the cryptography is the class [DmCrypto].
    - [Person] (hit-event/src/person.rs, profile.rs, announce.rs, store.rs):
      keys over the interface [SecretStore], profiles, announcements.
    - [Groups] (hit-group/src/lib.rs): the groups a node carries, and the one
      place that judges, shows, gossips and orders every event.

    A node (hit-store, hit-proto, hit-node).
    - [EventStore] (hit-store/src/lib.rs): the SQLite tables and the effect of
      every statement on them; [StoreSpec] and [StoreEffect] prove them.
    - [Proto] (hit-proto): frames, the hello, protocol names, links.
    - [Node] (hit-node/src/lib.rs): [accept_event], the one way in, as a call
      nothing interrupts; [NodeSpec] and [Accept] prove it, [Reading] is for what
      only reads.  [Overlap] is the same call cut at every access to what calls
      share, with [fold_lock] and calls dropped half way; [OverlapSpec].
    - [NodeOps], [NodeGroups] (lib.rs): starting, housekeeping, signing, answers,
      new groups, compaction, links, files.
    - [Doors] (accept.rs, device.rs): which protocol a connection is handed to,
      and the device's key file.
    - [Session], [Relay] (relay.rs): the served half of [hit/nostr/1];
      [RelaySpec].  [Sync] (sync.rs, lib.rs): the dialling half; [SyncSpec].
    - [Blobs] (blobs.rs, lib.rs): files; [BlobsSpec].
    - [SyncLoop] (lib.rs, [spawn_sync_loop]): the node's own rhythm, a round of
      housekeeping and the syncs it starts; [SyncLoopSpec].

    Calls and money (hit-voice, hit-zap).
    - [Jitter] (jitter.rs, wire.rs), [Audio] (codec.rs, drift.rs, device.rs),
      [Voice] (call.rs): packets, buffers, the call; [VoiceSpec].
    - [Lightning] (address.rs, fee.rs, lnurl.rs, zap.rs), [Wallet] (relay.rs,
      public.rs, nwc.rs, zap.rs): addresses, quotes, paying; [WalletSpec].

    The programs over it (hit-cli, hit-app-core, hit-anchor, hit-desktop).
    - [Cli] (hit-cli/src/main.rs): the directory and every command; [CliSpec].
    - [App], [Views], [Chat], [Publish] (state.rs, events.rs, browse.rs):
      onboarding, what the window is given, its buttons, the wallet, the
      publisher and browsing; [AppSpec], [PublishSpec].
    - [Anchor] (hit-anchor): credentials, NIP-29, the WebSocket bridge, the
      commands; [AnchorSpec].
    - [Core]: what the window asks of the app, as a class; the app is its
      instance.  [Window] (chat.rs, chat/): the cache and every click and event;
      [Shown] (pictures.rs, chat.rs, instance.rs): pictures, patched lists,
      words; [Render] (chat.rs, chat/): the rows drawn.  [ShownSpec],
      [WindowSpec], [RenderSpec], [Timeline].
    - [Dialog] (chat/zaps.rs, main.rs, ui/dialogs.slint): what the profile and zap
      dialogs ask and say, and the zap dialog as a form with its tasks;
      [DialogSpec].
    - [NodeRight], [AppRight]: every operation of a node, and every button of the
      app over it, keeps the node right, and so the app answers as [Timeline] asks of it.

    [Witnesses], [NodeWitnesses], [WireWitnesses], [SyncWitnesses],
    [AppWitnesses], [AnchorWitnesses] and [WindowWitnesses] hold a sample world - a group, people,
    devices, a store, a node, a line, a call, a wallet, an app, a bridge, a
    window, a directory, a dialog - in which every theorem that has hypotheses is
    applied.

    A node verifies an arriving event, asks [Groups.judge] whether to take it,
    stores it ([EventStore.insert]), folds the group again ([Fold.fold]) when it
    is state or an action, and answers reads by [Groups_may_read]; a connection
    is a person by [Binding.authenticate].  Sessions, syncs, files, calls, the
    bridge and the app all go through these: their theorems rest on
    [NodeSpec.node_ok], which [accept_event] keeps when calls run one after
    another.  Calls that overlap keep less ([OverlapSpec]): a message may be
    stored after the withdrawal that names it was applied, and a call dropped
    between its insert and what follows leaves that undone.

    ** What the theorems show

    - Agreement.  Peers with the same events compute the same state
      ([FoldOrder]), the same book ([Binding]) and the same stored events
      ([StoreSpec]); [replaces] is a strict total order on a kind ([Replace]);
      a compacted state folds back to itself ([Compaction]).
    - The state machine.  The fold is a run of steps in time order
      ([Machine.step], [Machine.steps]); every step keeps the invariant
      [Safety.wf] ([Invariant], [Machine]); what every step keeps, every fold
      keeps.
    - Authority ([Authority], [Escalation]): the meaning of permissions in a
      channel; no action gives what its signer lacks, reaches the owner, or
      touches someone its signer does not outrank; authority comes only from
      the owner.
    - What is accepted and shown ([Answers], [Groups]): exactly which messages a
      group takes; removals, bans and newcomers' waits hold over any run; who
      may read what, what gossip carries, who syncs with whom.
    - Identity and messages ([Binding], [Dm]): authentication is sound,
      revocation holds until renewed, messages and files open for their
      recipient alone.
    - Storage ([StoreSpec]): consistency of the tables and their indexes,
      convergence, queries against NIP-01's meaning, the inbox cap.
    - The node ([NodeSpec], [Accept]): handed one event after another it never
      fails and stays right; refusals leave no trace.  However its calls overlap
      ([OverlapSpec]) none fails, each settled group's state is the fold of what is
      held with nothing silenced (by a silence whose end an i64 holds), and what
      was taken down does not come back.
    - Its peers ([RelaySpec], [SyncSpec], [BlobsSpec], [AnchorSpec]): a peer is
      told, pushed and served only what the person it proved to be may read;
      sessions and syncs end; a file is found if one asked has it, and those that
      answer first do answer.
    - Its rhythm ([SyncLoopSpec]): nobody is synced with twice at a time, and
      everyone within the longest wait.
    - The command line ([CliSpec]): what a command says is done is signed by the
      person of the directory, stored, and what any node of theirs applies.
    - Calls ([VoiceSpec], [Jitter], [Audio]): who may join, ring and be heard,
      whatever interleaves; order and bounds of playback.
    - Money ([ZapSpec], [WalletSpec]): a counted zap rests on signed receipts; a
      zap pays what was quoted; what the dialog says is what its button pays
      ([DialogSpec]).
    - The app ([AppSpec], [PublishSpec], [AppRight]): no node before the key is
      backed up, honest buttons, exact counts, nothing private published, a
      right node through every button.
    - The window ([ShownSpec], [WindowSpec], [Timeline], [RenderSpec]): the cap
      on pictures, rows patched, messages shown and counted once and in order,
      an honest composer, exact chips.

    ** Bounds and fuel

    Recursion in the code that is not structural here takes fuel, always
    enough: [Fold.apply_loop] one pass more than there are actions (each pass
    but the last applies one: [apply_second_exhausts]); [Zap.decode_fields] a
    step per word (each field takes three or more); [Zap.emit_words] three
    rounds (a byte on top of four bits is at most two words); the digits printed
    for a [u64] twenty; [Jitter.trim_held] one round per packet held;
    [Chat.free_name] one try more than there are names taken.  A loop over what
    a peer sends is recursion on the frames still to come ([Relay.turns],
    [Sync.neg_rounds], [Wallet.next_event]): [SyncSpec.sync_ends] shows the fuel of a
    sync, the frames left, is never out.
    Arithmetic that wraps in a release build is written with its modulus
    ([Groups.u64_add], [Zap.format_amount], [Jitter.add32], [Lightning.mul64],
    [Lightning.add_u64]); a
    cast is written out ([EventStore.as_i64], [Render.to_i32]); floating point is
    the Standard Library's [SpecFloat] at the code's precision.

    ** Not modelled

    What other crates do is a parameter: iroh's QUIC, relays, gossip swarm and
    blob store; SQLite's own engine (the store is its tables after each
    statement; a database error is not); HTTP and WebSocket transport; the
    keychain; cryptography, key formats, JSON, Opus, image decoding, the local
    clock's formats; Slint's models and rendering.  A task's scheduling is an
    explicit sequence of steps ([Overlap.overlaps], [Voice.act], [Anchor.inputs],
    [Window.on_event], [SyncLoopSpec.turns], [DialogSpec.dialogs]); which step comes
    next is anything.  A call that is never answered is an answer that never comes
    ([Blobs.Fetching]).
    Of the program's own code these are left out: cpal's devices, the echo
    canceller and the Linear resampler (device.rs); the fakes used in tests
    (hit-zap/src/fake.rs); how a command line is parsed and what is logged
    (hit-cli); the window's start and the wiring of the other dialogs, desktop
    integration and twemoji art (most of hit-desktop main.rs and instance.rs,
    art.rs, twemoji.rs). *)
From stdpp Require Export gmap strings list fin_maps sorting.
From Stdlib Require Export ZArith Lia Ascii.

(** ** Notation scope and result type *)

Declare Scope hit_scope.
Delimit Scope hit_scope with hit.
#[global] Open Scope Z_scope.
#[global] Open Scope hit_scope.

(** Rust's [Result<A, E>]. *)
Inductive result (E A : Type) : Type :=
| Ok (a : A)
| Err (e : E).
Arguments Ok {E A} a.
Arguments Err {E A} e.

#[export] Instance result_eq_dec {E A} `{EqDecision E, EqDecision A} :
  EqDecision (result E A).
Proof. solve_decision. Defined.

Definition is_ok {E A} (r : result E A) : bool :=
  match r with Ok _ => true | Err _ => false end.

(** Rust's [?] on a [Result] and on an [Option]. *)
Notation "'let?' x ':=' e 'in' k" :=
  (match e with Ok x => k | Err err => Err err end)
  (at level 200, x pattern, e at level 200, k at level 200, right associativity)
  : hit_scope.
Notation "'let!' x ':=' e 'in' k" :=
  (match e with Some x => k | None => None end)
  (at level 200, x pattern, e at level 200, k at level 200, right associativity)
  : hit_scope.
(** An early [return Err(e)] behind a condition. *)
Notation "'guard' b 'else' e 'in' k" :=
  (if b then k else Err e)
  (at level 200, b at level 100, e at level 100, k at level 200, right associativity)
  : hit_scope.

(** [Option::ok_or]. *)
Definition ok_or {E A} (o : option A) (e : E) : result E A :=
  match o with Some a => Ok a | None => Err e end.
Definition opt_get {A} (d : A) (o : option A) : A :=
  match o with Some a => a | None => d end.
(** [Option::is_some_and] and [Option::is_none_or]. *)
Definition is_some_and {A} (o : option A) (p : A -> bool) : bool :=
  match o with Some a => p a | None => false end.
Definition is_none_or {A} (o : option A) (p : A -> bool) : bool :=
  match o with Some a => p a | None => true end.
Definition opt_bool {A} (o : option A) : bool :=
  match o with Some _ => true | None => false end.

(** ** Machine integers: the value as [Z], its width as a bound *)
Definition U16_MAX : Z := 65535.
Definition U32_MAX : Z := 4294967295.
Definition U64_MAX : Z := 18446744073709551615.
Definition I64_MIN : Z := -9223372036854775808.
Definition I64_MAX : Z := 9223372036854775807.

Definition is_u32 (z : Z) : Prop := 0 <= z <= U32_MAX.
Definition is_u64 (z : Z) : Prop := 0 <= z <= U64_MAX.
Definition is_i64 (z : Z) : Prop := I64_MIN <= z <= I64_MAX.

(** [u64::saturating_sub]. *)
Definition sat_sub (a b : Z) : Z := Z.max 0 (a - b).

(** ** Stable sorting ([slice::sort_by_key]) and ordered maps ([BTreeMap]) *)
Section Sorting.
Context {A : Type} (leb : A -> A -> bool).

Fixpoint insert_sorted (x : A) (l : list A) : list A :=
  match l with
  | [] => [x]
  | y :: t => if leb x y then x :: y :: t else y :: insert_sorted x t
  end.
Definition isort (l : list A) : list A := foldr insert_sorted [] l.

Lemma insert_sorted_perm x l : insert_sorted x l ≡ₚ x :: l.
Proof.
  induction l as [|y t IH]; simpl; [done|].
  destruct (leb x y); [done|]. rewrite IH. apply Permutation_swap.
Qed.
Lemma isort_perm l : isort l ≡ₚ l.
Proof.
  induction l as [|x t IH]; simpl; [done|]. by rewrite insert_sorted_perm, IH.
Qed.
Lemma isort_elem l x : x ∈ isort l <-> x ∈ l.
Proof. by rewrite (isort_perm l). Qed.

Context (leb_total : forall x y, leb x y = true \/ leb y x = true).
Context (leb_trans : forall x y z, leb x y = true -> leb y z = true -> leb x z = true).
Let R x y := Is_true (leb x y).

Lemma insert_sorted_sorted x l :
  StronglySorted R l -> StronglySorted R (insert_sorted x l).
Proof.
  induction l as [|y t IH]; intros Hs; simpl.
  - repeat constructor.
  - apply StronglySorted_inv in Hs as [Hs Hall].
    destruct (leb x y) eqn:E.
    + constructor; [by constructor|]. constructor; [by apply Is_true_true|].
      eapply Forall_impl; [exact Hall|]. intros z Hz. unfold R in *.
      apply Is_true_true in Hz. apply Is_true_true. eauto.
    + constructor; [by apply IH|]. apply Forall_forall. intros z Hz.
      rewrite insert_sorted_perm in Hz. apply elem_of_cons in Hz as [->|Hz].
      * apply Is_true_true. destruct (leb_total x y); congruence.
      * rewrite Forall_forall in Hall. auto.
Qed.
Lemma isort_sorted l : StronglySorted R (isort l).
Proof. induction l; simpl; [constructor|]. by apply insert_sorted_sorted. Qed.

(** Sorting forgets the order the input came in, where the key separates
    the elements: what makes a fold independent of delivery order. *)
Lemma isort_unique l1 l2 :
  (forall x y, x ∈ l1 -> y ∈ l1 -> leb x y = true -> leb y x = true -> x = y) ->
  l1 ≡ₚ l2 -> isort l1 = isort l2.
Proof.
  intros Hanti Hp. apply (StronglySorted_unique_strong R).
  - intros x y Hx Hy Hxy Hyx. rewrite isort_elem in Hx, Hy.
    rewrite <- Hp in Hy. apply Hanti; by try apply Is_true_true.
  - apply isort_sorted.
  - apply isort_sorted.
  - by rewrite !isort_perm.
Qed.
(** A sorted list is left as it is. *)
Lemma isort_sorted_id l : StronglySorted R l -> isort l = l.
Proof.
  induction l as [|x t IH]; intros Hs; [done|].
  apply StronglySorted_inv in Hs as [Hs Hall]. simpl. rewrite IH by done.
  destruct t as [|y u]; [done|]. simpl.
  apply Forall_cons in Hall as [Hxy _]. apply Is_true_true in Hxy. by rewrite Hxy.
Qed.
End Sorting.

(** ** Generic list lemmas *)

(** [iter().find_map(f)]. *)
Fixpoint find_map {A B} (f : A -> option B) (l : list A) : option B :=
  match l with
  | [] => None
  | x :: t => match f x with Some b => Some b | None => find_map f t end
  end.
(** [iter().filter_map(f)]. *)
Definition filter_map {A B} (f : A -> option B) (l : list A) : list B := omap f l.

Lemma find_map_some {A B} (f : A -> option B) l b :
  find_map f l = Some b -> exists x, x ∈ l /\ f x = Some b.
Proof.
  induction l as [|x t IH]; simpl; [done|].
  destruct (f x) eqn:E.
  - intros [= ->]. exists x. split; [left|done].
  - intros H. destruct (IH H) as (y & ? & ?). exists y. split; [by right|done].
Qed.
Lemma find_map_app {A B} (f : A -> option B) l1 l2 :
  find_map f (l1 ++ l2) =
  match find_map f l1 with Some b => Some b | None => find_map f l2 end.
Proof. induction l1 as [|x t IH]; simpl; [done|]. by destruct (f x). Qed.

Lemma existsb_elem {A} (p : A -> bool) l :
  existsb p l = true <-> exists x, x ∈ l /\ p x = true.
Proof.
  rewrite existsb_exists. by setoid_rewrite list_elem_of_In.
Qed.
Lemma forallb_elem {A} (p : A -> bool) l :
  forallb p l = true <-> forall x, x ∈ l -> p x = true.
Proof. rewrite forallb_forall. by setoid_rewrite list_elem_of_In. Qed.
Lemma find_elem {A} (p : A -> bool) l x :
  List.find p l = Some x -> x ∈ l /\ p x = true.
Proof. intros H. apply List.find_some in H as [? ?]. by rewrite list_elem_of_In. Qed.
Lemma find_none_elem {A} (p : A -> bool) l x :
  List.find p l = None -> x ∈ l -> p x = false.
Proof. rewrite list_elem_of_In. intros. by eapply List.find_none. Qed.
Lemma filter_elem {A} (p : A -> bool) l x :
  x ∈ List.filter p l <-> x ∈ l /\ p x = true.
Proof. by rewrite !list_elem_of_In, List.filter_In. Qed.
Lemma filter_perm {A} (p : A -> bool) l1 l2 :
  l1 ≡ₚ l2 -> List.filter p l1 ≡ₚ List.filter p l2.
Proof.
  induction 1 as [|x l1 l2 _ IH|x y l|l1 l2 l3 _ IH1 _ IH2]; simpl.
  - done.
  - destruct (p x); by rewrite ?IH.
  - destruct (p x), (p y); try done. apply Permutation_swap.
  - by rewrite IH1.
Qed.

(** A loop over rows that may [return None] part-way ([?] in a [for]). *)
Fixpoint fold_opt {A B} (f : A -> B -> option A) (a : A) (l : list B) : option A :=
  match l with
  | [] => Some a
  | x :: t => match f a x with Some a' => fold_opt f a' t | None => None end
  end.
Lemma fold_opt_app {A B} (f : A -> B -> option A) a l1 l2 :
  fold_opt f a (l1 ++ l2) =
  match fold_opt f a l1 with Some a' => fold_opt f a' l2 | None => None end.
Proof. revert a. induction l1 as [|x t IH]; intros a; simpl; [done|]. by destruct (f a x). Qed.
(** A loop that adds one thing per row. *)
Lemma fold_opt_map {A B C} (f : A -> B -> option A) (g : A -> C -> A) (h : C -> B) a l :
  (forall a c, c ∈ l -> f a (h c) = Some (g a c)) ->
  fold_opt f a (map h l) = Some (foldl g a l).
Proof.
  revert a. induction l as [|c t IH]; intros a Hf; [done|].
  cbn. rewrite Hf by left. apply IH. intros a' c' Hc. apply Hf. by right.
Qed.

(** ** Ordered iteration of a [BTreeMap] and a [BTreeSet] *)
Section Ordered.
Context {K : Type} `{Countable K} (leb : K -> K -> bool).
Definition map_entries {V} (m : gmap K V) : list (K * V) :=
  isort (fun a b => leb (fst a) (fst b)) (map_to_list m).
Definition set_entries (s : gset K) : list K := isort leb (elements s).

Lemma map_entries_elem {V} (m : gmap K V) k v : (k, v) ∈ map_entries m <-> m !! k = Some v.
Proof. unfold map_entries. by rewrite isort_elem, elem_of_map_to_list. Qed.
Lemma map_entries_nodup {V} (m : gmap K V) : NoDup (map_entries m).*1.
Proof. unfold map_entries. rewrite isort_perm. apply NoDup_fst_map_to_list. Qed.
Lemma set_entries_elem s k : k ∈ set_entries s <-> k ∈ s.
Proof. unfold set_entries. by rewrite isort_elem, elem_of_elements. Qed.
(** Collecting the entries gives the map, and the set, back. *)
Lemma map_entries_collect {V} (m : gmap K V) : list_to_map (map_entries m) = m.
Proof.
  unfold map_entries. rewrite <- (list_to_map_to_list m) at 2.
  apply list_to_map_proper; [apply map_entries_nodup|apply isort_perm].
Qed.
Lemma set_entries_collect (s : gset K) : list_to_set (set_entries s) = s.
Proof. apply set_eq. intros x. by rewrite elem_of_list_to_set, set_entries_elem. Qed.
Lemma foldl_insert_entries {V} (m0 : gmap K V) (l : list (K * V)) :
  NoDup l.*1 ->
  foldl (fun m kv => <[fst kv := snd kv]> m) m0 l = list_to_map l ∪ m0.
Proof.
  revert m0. induction l as [|[k v] l IH]; intros m0 Hnd; simpl.
  - by rewrite (left_id_L ∅ (∪)).
  - apply NoDup_cons in Hnd as [Hk Hnd]. rewrite IH by done.
    apply not_elem_of_list_to_map in Hk.
    rewrite <- insert_union_l. symmetry. apply insert_union_r. exact Hk.
Qed.
Lemma foldl_insert_set (s0 : gset K) (l : list K) :
  foldl (fun s k => {[k]} ∪ s) s0 l = list_to_set l ∪ s0.
Proof.
  revert s0. induction l as [|k l IH]; intros s0; simpl; [set_solver|].
  rewrite IH. set_solver.
Qed.
End Ordered.

(** ** The best of a list, kept one element at a time

[better x y]: [x] takes the place of [y].  Under a strict total order what is
left after all of a list has come in does not depend on the order it came in. *)
Section Best.
Context {A : Type} `{EqDecision A} (better : A -> A -> bool).

Definition keep_best (acc : option A) (x : A) : option A :=
  match acc with
  | None => Some x
  | Some c => if better x c then Some x else Some c
  end.
Definition best (l : list A) : option A := foldl keep_best None l.

(** A strict total order on the elements of [l]. *)
Record strict_total (l : list A) : Prop := {
  st_irrefl x : x ∈ l -> better x x = false;
  st_trans x y z : x ∈ l -> y ∈ l -> z ∈ l ->
    better x y = true -> better y z = true -> better x z = true;
  st_total x y : x ∈ l -> y ∈ l -> x <> y -> better x y = true \/ better y x = true;
}.

Definition is_best (l : list A) (m : A) : Prop :=
  m ∈ l /\ forall x, x ∈ l -> x <> m -> better m x = true.

Lemma strict_total_sub l1 l2 :
  (forall x, x ∈ l2 -> x ∈ l1) -> strict_total l1 -> strict_total l2.
Proof. intros Hs [Hi Ht Hto]. split; eauto. Qed.
Lemma is_best_unique l m n : strict_total l -> is_best l m -> is_best l n -> m = n.
Proof.
  intros Hs [Hm Hmb] [Hn Hnb]. destruct (decide (m = n)) as [|Hne]; [done|].
  assert (better m m = true) by (eapply st_trans; eauto).
  by rewrite (st_irrefl _ Hs m Hm) in H.
Qed.
Lemma keep_best_spec c l : strict_total (c :: l) ->
  exists m, foldl keep_best (Some c) l = Some m /\ is_best (c :: l) m.
Proof.
  revert c. induction l as [|x l IH]; intros c Hs.
  - exists c. split; [done|]. split; [left|]. intros x Hx Hne.
    apply elem_of_cons in Hx as [->|Hx]; [done|]. by apply not_elem_of_nil in Hx.
  - cbn. destruct (better x c) eqn:E.
    + destruct (IH x) as (m & Hf & Hm & Hb).
      { eapply strict_total_sub; [|exact Hs]. set_solver. }
      exists m. split; [done|]. split; [set_solver|]. intros y Hy Hne.
      apply elem_of_cons in Hy as [->|Hy]; [|auto].
      destruct (decide (x = m)) as [->|Hxm]; [done|].
      apply (st_trans _ Hs m x c); set_solver.
    + destruct (IH c) as (m & Hf & Hm & Hb).
      { eapply strict_total_sub; [|exact Hs]. set_solver. }
      exists m. split; [done|]. split; [set_solver|]. intros y Hy Hne.
      apply elem_of_cons in Hy as [->|Hy]; [apply Hb; set_solver|].
      apply elem_of_cons in Hy as [->|Hy]; [|apply Hb; set_solver].
      destruct (decide (x = c)) as [->|Hxc]; [apply Hb; set_solver|].
      assert (better c x = true) as Hcx.
      { destruct (st_total _ Hs x c); [set_solver..|congruence|done]. }
      destruct (decide (c = m)) as [->|Hcm]; [done|].
      apply (st_trans _ Hs m c x); set_solver.
Qed.
Lemma best_spec l : strict_total l -> l <> [] -> exists m, best l = Some m /\ is_best l m.
Proof. destruct l as [|c l]; [done|]. intros Hs _. by apply keep_best_spec. Qed.
Lemma best_perm l1 l2 : strict_total l1 -> l1 ≡ₚ l2 -> best l1 = best l2.
Proof.
  intros Hs Hp. destruct l1 as [|c l].
  - by apply Permutation_nil in Hp as ->.
  - assert (Hs2 : strict_total l2) by (eapply strict_total_sub; [|exact Hs]; intros x; by rewrite Hp).
    assert (Hne : l2 <> []) by (intros ->; by apply Permutation_sym, Permutation_nil_cons in Hp).
    destruct (best_spec _ Hs ltac:(done)) as (m & -> & Hm).
    destruct (best_spec _ Hs2 Hne) as (n & -> & Hn). f_equal.
    apply (is_best_unique _ _ _ Hs Hm). destruct Hn as [Hn Hb].
    split; [by rewrite Hp|]. intros x. rewrite Hp. apply Hb.
Qed.
End Best.

(** ** Automation *)

(** Splits the hypothesis that a guarded, fallible definition returned
    [Ok] (or [Some]) into the branch it took. *)
Ltac inv_result :=
  repeat match goal with
  | H : Ok _ = Ok _ |- _ => injection H as H; try subst
  | H : Some _ = Some _ |- _ => injection H as H; try subst
  | H : Err _ = Ok _ |- _ => discriminate H
  | H : Ok _ = Err _ |- _ => discriminate H
  | H : None = Some _ |- _ => discriminate H
  | H : Some _ = None |- _ => discriminate H
  | H : context [match ?x with _ => _ end] |- _ =>
      let E := fresh "E" in destruct x eqn:E; simpl in H; try discriminate H
  end.
(** One step of the same on the goal. *)
Ltac case_goal :=
  match goal with
  | |- context [match ?x with _ => _ end] =>
      let E := fresh "E" in destruct x eqn:E
  end.
(** Boolean connectives to propositional ones. *)
Ltac bools :=
  repeat match goal with
  | H : (_ && _)%bool = true |- _ => apply andb_prop in H as [? ?]
  | H : (_ || _)%bool = false |- _ => apply orb_false_elim in H as [? ?]
  | H : negb _ = true |- _ => apply negb_true_iff in H
  | H : negb _ = false |- _ => apply negb_false_iff in H
  | H : bool_decide _ = true |- _ => apply bool_decide_eq_true in H
  | H : bool_decide _ = false |- _ => apply bool_decide_eq_false in H
  | H : (_ =? _) = true |- _ => apply Z.eqb_eq in H
  | H : (_ =? _) = false |- _ => apply Z.eqb_neq in H
  | H : (_ <=? _) = true |- _ => apply Z.leb_le in H
  | H : (_ <=? _) = false |- _ => apply Z.leb_gt in H
  | H : (_ <? _) = true |- _ => apply Z.ltb_lt in H
  | H : (_ <? _) = false |- _ => apply Z.ltb_ge in H
  end.

Create HintDb hit discriminated.
#[export] Hint Constants Opaque : hit.
#[export] Hint Resolve isort_perm insert_sorted_perm : hit.
