(* ===== verification/Text.v ===== *)
(** Strings, characters and decimal integers as Rust's standard library has
    them: a [String] is its UTF-8 bytes, [chars] splits it into characters,
    [trim] drops Unicode white space, and [parse]/[to_string] read and write
    machine-width integers.  The parsers of every other file are built on
    these; the round trips proved here carry theirs. *)
From S2P Require Import Prelude.

#[local] Arguments String.append !_ _ / : simpl nomatch.
#[local] Open Scope string_scope.
#[local] Open Scope Z_scope.
#[local] Open Scope list_scope.

Definition byte_of (c : ascii) : Z := Z.of_N (N_of_ascii c).
Definition ascii_of_Z (z : Z) : ascii := ascii_of_N (Z.to_N z).

Fixpoint bytes_of (s : string) : list Z :=
  match s with
  | EmptyString => []
  | String c t => byte_of c :: bytes_of t
  end.
Definition str_len (s : string) : Z := Z.of_nat (String.length s).

(** [str::is_empty]. *)
Definition str_is_empty (s : string) : bool :=
  match s with EmptyString => true | _ => false end.

(** ** Characters *)

(** A UTF-8 continuation byte, [0b10xxxxxx]. *)
Definition is_cont (c : ascii) : bool := Z.land (byte_of c) 192 =? 128.

(** [str::chars], each character as its UTF-8 bytes. *)
Fixpoint chars (s : string) : list string :=
  match s with
  | EmptyString => []
  | String c t =>
      match chars t with
      | String d h' :: rest =>
          if is_cont d then String c (String d h') :: rest
          else String c "" :: String d h' :: rest
      | l => String c "" :: l
      end
  end.
Definition concat_str (l : list string) : string := foldr String.append "" l.
Definition chars_count (s : string) : Z := Z.of_nat (length (chars s)).

Definition str_of_bytes (l : list Z) : string :=
  foldr (fun b acc => String (ascii_of_Z b) acc) "" l.
Definition char_bytes_in (l : list (list Z)) (ch : string) : bool :=
  bool_decide (bytes_of ch ∈ l).

(** [char::is_whitespace]: Unicode's [White_Space]. *)
Definition is_whitespace (ch : string) : bool :=
  char_bytes_in
    [[9]; [10]; [11]; [12]; [13]; [32]; [194; 133]; [194; 160]; [225; 154; 128];
     [226; 128; 128]; [226; 128; 129]; [226; 128; 130]; [226; 128; 131];
     [226; 128; 132]; [226; 128; 133]; [226; 128; 134]; [226; 128; 135];
     [226; 128; 136]; [226; 128; 137]; [226; 128; 138]; [226; 128; 168];
     [226; 128; 169]; [226; 128; 175]; [226; 129; 159]; [227; 128; 128]] ch.
(** [char::is_control]: Unicode's [Cc]. *)
Definition is_control (ch : string) : bool :=
  match bytes_of ch with
  | [b] => (b <? 32) || (b =? 127)
  | [c; b] => (c =? 194) && (b <? 160)
  | _ => false
  end.

Fixpoint drop_while {A} (p : A -> bool) (l : list A) : list A :=
  match l with
  | [] => []
  | x :: t => if p x then drop_while p t else l
  end.
(** [str::trim]. *)
Definition trim (s : string) : string :=
  concat_str (rev (drop_while is_whitespace (rev (drop_while is_whitespace (chars s))))).

Definition is_cont_byte (b : Z) : bool := (128 <=? b) && (b <=? 191).
(** What [String::from_utf8] accepts: well-formed UTF-8. *)
Fixpoint utf8_valid (l : list Z) : bool :=
  match l with
  | [] => true
  | b :: t =>
      if b <? 128 then utf8_valid t
      else match t with
      | c :: t1 =>
          if (194 <=? b) && (b <=? 223) then is_cont_byte c && utf8_valid t1
          else match t1 with
          | d :: t2 =>
              if (224 <=? b) && (b <=? 239) then
                is_cont_byte c && is_cont_byte d
                && ((negb (b =? 224)) || (160 <=? c)) && ((negb (b =? 237)) || (c <=? 159))
                && utf8_valid t2
              else match t2 with
              | e :: t3 =>
                  (240 <=? b) && (b <=? 244)
                  && is_cont_byte c && is_cont_byte d && is_cont_byte e
                  && ((negb (b =? 240)) || (144 <=? c)) && ((negb (b =? 244)) || (c <=? 143))
                  && utf8_valid t3
              | [] => false
              end
          | [] => false
          end
      | [] => false
      end
  end.
Definition from_utf8 (l : list Z) : option string :=
  if utf8_valid l then Some (str_of_bytes l) else None.

(** ** ASCII *)
Definition is_digit (c : ascii) : bool := (48 <=? byte_of c) && (byte_of c <=? 57).
Definition is_lower (c : ascii) : bool := (97 <=? byte_of c) && (byte_of c <=? 122).
Definition is_upper (c : ascii) : bool := (65 <=? byte_of c) && (byte_of c <=? 90).
Definition is_alphanumeric (c : ascii) : bool := is_digit c || is_lower c || is_upper c.
Fixpoint all_bytes (p : ascii -> bool) (s : string) : bool :=
  match s with EmptyString => true | String c t => p c && all_bytes p t end.
Fixpoint any_byte (p : ascii -> bool) (s : string) : bool :=
  match s with EmptyString => false | String c t => p c || any_byte p t end.
Fixpoint map_bytes (f : ascii -> ascii) (s : string) : string :=
  match s with EmptyString => "" | String c t => String (f c) (map_bytes f t) end.
(** [str::to_ascii_lowercase]. *)
Definition to_ascii_lowercase : string -> string :=
  map_bytes (fun c => if is_upper c then ascii_of_Z (byte_of c + 32) else c).

Definition to_ascii_uppercase : string -> string :=
  map_bytes (fun c => if is_lower c then ascii_of_Z (byte_of c - 32) else c).

(** ** Prefixes and separators *)

(** [str::strip_prefix]. *)
Fixpoint strip_prefix (p s : string) : option string :=
  match p, s with
  | EmptyString, _ => Some s
  | String a p', String b s' => if bool_decide (a = b) then strip_prefix p' s' else None
  | _, _ => None
  end.

(** [str::split(c)] on one ASCII character: never empty. *)
Fixpoint split_on (c : ascii) (s : string) : list string :=
  match s with
  | EmptyString => [""]
  | String d t =>
      if bool_decide (c = d) then "" :: split_on c t
      else match split_on c t with
           | h :: rest => String d h :: rest
           | [] => [String d ""]
           end
  end.
(** [[str]::join(",")]. *)
Fixpoint join_on (c : ascii) (l : list string) : string :=
  match l with
  | [] => ""
  | [w] => w
  | w :: rest => w +:+ String c (join_on c rest)
  end.

(** ** Decimal integers *)
Definition digit_char (d : Z) : ascii := ascii_of_Z (48 + d).

Fixpoint digits (fuel : nat) (n : Z) (acc : string) : string :=
  match fuel with
  | O => acc
  | S f =>
      let acc' := String (digit_char (n mod 10)) acc in
      if n / 10 =? 0 then acc' else digits f (n / 10) acc'
  end.
(** [to_string] of an unsigned integer: at most 20 digits, [u64::MAX]'s. *)
Definition show_u (n : Z) : string := digits 20 n "".
(** [to_string] of an [i64]. *)
Definition show_i (n : Z) : string := if n <? 0 then "-" +:+ show_u (- n) else show_u n.

Fixpoint parse_digits (max v : Z) (s : string) : option Z :=
  match s with
  | EmptyString => Some v
  | String c t =>
      if is_digit c then
        let v' := v * 10 + (byte_of c - 48) in
        if v' <=? max then parse_digits max v' t else None
      else None
  end.
(** [str::parse] to an unsigned integer of at most [max]: an optional ["+"],
    then at least one digit, and no overflow. *)
Definition parse_u (max : Z) (s : string) : option Z :=
  match s with
  | EmptyString => None
  | String "+" EmptyString => None
  | String "+" t => parse_digits max 0 t
  | _ => parse_digits max 0 s
  end.
(** [str::parse::<i64>]. *)
Definition parse_i64 (s : string) : option Z :=
  match s with
  | String "-" EmptyString => None
  | String "-" t => option_map Z.opp (parse_digits (- I64_MIN) 0 t)
  | _ => parse_u I64_MAX s
  end.
Notation parse_u64 := (parse_u U64_MAX).
Notation parse_u32 := (parse_u U32_MAX).

(** ** Lemmas *)

Lemma byte_of_bound c : 0 <= byte_of c < 256.
Proof. unfold byte_of. destruct c as [[] [] [] [] [] [] [] []]; vm_compute; split; congruence. Qed.

Lemma byte_of_ascii z : 0 <= z < 256 -> byte_of (ascii_of_Z z) = z.
Proof.
  intros H. unfold byte_of, ascii_of_Z. rewrite N_ascii_embedding by lia. lia.
Qed.

Lemma digit_char_spec d : 0 <= d < 10 ->
  is_digit (digit_char d) = true /\ byte_of (digit_char d) - 48 = d.
Proof.
  intros H. unfold is_digit, digit_char. rewrite byte_of_ascii by lia. split; [|lia].
  apply andb_true_iff; split; apply Z.leb_le; lia.
Qed.

Lemma parse_digits_digits f n acc max :
  0 <= n <= max -> n < 10 ^ Z.of_nat f ->
  parse_digits max 0 (digits f n acc) = parse_digits max n acc.
Proof.
  revert n acc. induction f as [|f IH]; intros n acc Hn Hf.
  - replace n with 0 by (simpl in Hf; lia). done.
  - assert (Hd : 0 <= n mod 10 < 10) by (apply Z.mod_pos_bound; lia).
    pose proof (Z.div_mod n 10 ltac:(lia)) as Hdm.
    destruct (digit_char_spec _ Hd) as [Hdig Hval].
    cbn [digits]. destruct (n / 10 =? 0) eqn:E.
    + apply Z.eqb_eq in E. cbn [parse_digits]. rewrite Hdig, Hval.
      replace (0 * 10 + n mod 10) with n by lia.
      destruct (n <=? max) eqn:F; [done|]. apply Z.leb_gt in F. lia.
    + rewrite IH.
      * cbn [parse_digits]. rewrite Hdig, Hval.
        replace (n / 10 * 10 + n mod 10) with n by lia.
        destruct (n <=? max) eqn:F; [done|]. apply Z.leb_gt in F. lia.
      * split; [apply Z.div_pos; lia|]. apply Z.div_le_upper_bound; lia.
      * apply Z.div_lt_upper_bound; [lia|].
        rewrite Nat2Z.inj_succ, Z.pow_succ_r in Hf by lia. lia.
Qed.

Lemma digits_head f n acc : exists d t,
  (0 <= d < 10 /\ digits (S f) n acc = String (digit_char d) t)%Z.
Proof.
  revert n acc. induction f as [|f IH]; intros n acc.
  - exists (n mod 10). cbn [digits]. destruct (n / 10 =? 0); eexists;
      (split; [apply Z.mod_pos_bound; lia|done]).
  - cbn [digits]. destruct (n / 10 =? 0).
    + exists (n mod 10). eexists. split; [apply Z.mod_pos_bound; lia|done].
    + apply IH.
Qed.

Lemma show_u_head n : exists d t, 0 <= d < 10 /\ show_u n = String (digit_char d) t.
Proof. apply digits_head. Qed.

Lemma show_u_nonempty n : str_is_empty (show_u n) = false.
Proof. destruct (show_u_head n) as (d & t & _ & ->). done. Qed.

Lemma digit_char_cases d : 0 <= d < 10 ->
  digit_char d <> "+"%char /\ digit_char d <> "-"%char.
Proof.
  intros H. split; intros E; apply (f_equal byte_of) in E;
    unfold digit_char in E; rewrite byte_of_ascii in E by lia;
    [change (byte_of "+") with 43 in E | change (byte_of "-") with 45 in E]; lia.
Qed.

Lemma parse_u_digit max d t : 0 <= d < 10 ->
  parse_u max (String (digit_char d) t) = parse_digits max 0 (String (digit_char d) t).
Proof.
  intros H. destruct (digit_char_cases d H) as [Hp _].
  destruct (digit_char d) as [[] [] [] [] [] [] [] []]; try done; by destruct Hp.
Qed.

(** An unsigned integer survives [to_string] and [parse], up to [u64::MAX]. *)
Lemma parse_show_u max n : 0 <= n <= max -> max <= U64_MAX -> parse_u max (show_u n) = Some n.
Proof.
  intros Hn Hm. destruct (show_u_head n) as (d & t & Hd & E).
  rewrite E, parse_u_digit, <- E by done. unfold show_u.
  rewrite parse_digits_digits; [done|done|]. unfold U64_MAX in Hm.
  transitivity 18446744073709551616; [lia|]. vm_compute. done.
Qed.

Lemma parse_show_i n : is_i64 n -> parse_i64 (show_i n) = Some n.
Proof.
  unfold is_i64, show_i. intros Hn. destruct (n <? 0) eqn:E.
  - apply Z.ltb_lt in E. destruct (show_u_head (- n)) as (d & t & Hd & F).
    change ("-" +:+ show_u (- n)) with (String "-" (show_u (- n))). rewrite F.
    change (option_map Z.opp (parse_digits (- I64_MIN) 0 (String (digit_char d) t)) = Some n).
    rewrite <- F. unfold show_u.
    rewrite parse_digits_digits.
    + simpl. f_equal. lia.
    + unfold I64_MIN in *. lia.
    + unfold I64_MIN in *. transitivity 9223372036854775809; [lia|]. vm_compute. done.
  - apply Z.ltb_ge in E. destruct (show_u_head n) as (d & t & Hd & F).
    assert (parse_i64 (show_u n) = parse_u I64_MAX (show_u n)) as ->.
    { rewrite F. destruct (digit_char_cases d Hd) as [_ Hm].
      unfold parse_i64. destruct (digit_char d) as [[] [] [] [] [] [] [] []]; try done; by destruct Hm. }
    apply parse_show_u; unfold I64_MAX, U64_MAX in *; lia.
Qed.

Lemma parse_digits_bound max v s n :
  v <= max -> 0 <= v -> parse_digits max v s = Some n -> 0 <= n <= max.
Proof.
  revert v. induction s as [|c t IH]; intros v Hv H0; cbn [parse_digits].
  - intros [= ->]. lia.
  - destruct (is_digit c) eqn:D; [|done]. destruct (_ <=? max) eqn:E; [|done].
    apply Z.leb_le in E. apply IH; [done|].
    unfold is_digit in D. bools. lia.
Qed.
Lemma parse_u_bound max s n : 0 <= max -> parse_u max s = Some n -> 0 <= n <= max.
Proof.
  intros Hm. unfold parse_u.
  destruct s as [|c t]; [done|]. intros H.
  assert (parse_digits max 0 (String c t) = Some n \/ parse_digits max 0 t = Some n) as [Hd|Hd].
  { destruct c as [[] [] [] [] [] [] [] []]; destruct t; auto; discriminate. }
  all: by eapply parse_digits_bound in Hd.
Qed.

Lemma strip_prefix_app p s : strip_prefix p (p +:+ s) = Some s.
Proof. induction p as [|c p IH]; cbn; [done|]. by rewrite bool_decide_true. Qed.

Lemma strip_prefix_some p s t : strip_prefix p s = Some t -> s = p +:+ t.
Proof.
  revert s. induction p as [|c p IH]; intros s H; cbn in *; [congruence|].
  destruct s as [|d s]; [done|].
  destruct (bool_decide (c = d)) eqn:E; [|done]. apply bool_decide_eq_true in E.
  subst d. f_equal. by apply IH.
Qed.

Lemma concat_chars s : concat_str (chars s) = s.
Proof.
  induction s as [|c t IH]; [done|]. cbn [chars].
  destruct (chars t) as [|[|d h] rest].
  - cbn in *. by rewrite <- IH.
  - cbn in *. by rewrite <- IH.
  - destruct (is_cont d); cbn in *; by rewrite <- IH.
Qed.

Lemma split_join c l :
  l <> [] -> (forall w, w ∈ l -> all_bytes (fun d => negb (bool_decide (c = d))) w = true) ->
  split_on c (join_on c l) = l.
Proof.
  assert (Hw : forall w s, all_bytes (fun d => negb (bool_decide (c = d))) w = true ->
    split_on c (w +:+ String c s) = w :: split_on c s).
  { induction w as [|d w IH]; intros s Hs; cbn in *.
    - by rewrite bool_decide_true.
    - apply andb_prop in Hs as [Hd Hs]. apply negb_true_iff in Hd. rewrite Hd, IH; done. }
  assert (H1 : forall w, all_bytes (fun d => negb (bool_decide (c = d))) w = true -> split_on c w = [w]).
  { induction w as [|d w IH]; intros Hs; cbn in *; [done|].
    apply andb_prop in Hs as [Hd Hs]. apply negb_true_iff in Hd. rewrite Hd, IH; done. }
  induction l as [|w rest IH]; intros Hne Hall; [done|].
  destruct rest as [|w' rest].
  - cbn. apply H1, Hall. left.
  - cbn [join_on]. rewrite Hw by (apply Hall; left). f_equal. apply IH; [done|].
    intros x Hx. apply Hall. by right.
Qed.

#[export] Hint Rewrite strip_prefix_app concat_chars : hit.
#[export] Hint Resolve show_u_nonempty byte_of_bound : hit.

Lemma parse_i64_bound s n : parse_i64 s = Some n -> is_i64 n.
Proof.
  unfold parse_i64. intros H.
  assert (parse_u I64_MAX s = Some n \/
          exists t m, parse_digits (- I64_MIN) 0 t = Some m /\ n = - m) as [Hu|(t & m & Hm & ->)].
  { destruct s as [|c t]; [by left|].
    destruct c as [[] [] [] [] [] [] [] []]; try (by left).
    destruct t as [|c t]; [done|]. right.
    destruct (parse_digits (- I64_MIN) 0 (String c t)) as [m|] eqn:E; [|done].
    injection H as <-. by exists (String c t), m. }
  - apply parse_u_bound in Hu; [|done]. unfold is_i64, I64_MIN in *. lia.
  - apply parse_digits_bound in Hm; [|done|done]. unfold is_i64, I64_MIN, I64_MAX in *. lia.
Qed.

(** ** Predicates of bytes *)
Lemma all_bytes_app p s t : all_bytes p (s +:+ t) = all_bytes p s && all_bytes p t.
Proof.
  induction s as [|c s IH]; [done|]. change (String c s +:+ t) with (String c (s +:+ t)).
  cbn [all_bytes]. by rewrite IH, andb_assoc.
Qed.
Lemma all_bytes_impl (p q : ascii -> bool) s :
  (forall c, p c = true -> q c = true) -> all_bytes p s = true -> all_bytes q s = true.
Proof. intros Hpq. induction s as [|c s IH]; [done|]. cbn. intros H. bools. by rewrite Hpq, IH. Qed.
