(* ===== verification/Perm.v ===== *)
(** The permission bitset ([crates/hit-group/src/perm.rs]): the bits, the
    set operations the fold is written with, and the names a person types.
    A [Permissions(u64)] is its bits, as [Z]. *)
From S2P Require Import Prelude Text.

#[local] Open Scope Z_scope.

Module Perm.

(** ** Bits *)
Definition VIEW_CHANNEL : Z := Z.shiftl 1 0.
Definition SEND_MESSAGES : Z := Z.shiftl 1 1.
Definition MANAGE_MESSAGES : Z := Z.shiftl 1 2.
Definition MANAGE_CHANNELS : Z := Z.shiftl 1 3.
Definition CREATE_INVITE : Z := Z.shiftl 1 4.
Definition MANAGE_INVITES : Z := Z.shiftl 1 5.
Definition KICK_MEMBERS : Z := Z.shiftl 1 6.
Definition BAN_MEMBERS : Z := Z.shiftl 1 7.
Definition MUTE_MEMBERS : Z := Z.shiftl 1 8.
Definition MANAGE_ROLES : Z := Z.shiftl 1 9.
Definition MANAGE_GROUP : Z := Z.shiftl 1 10.
Definition ATTACH_FILES : Z := Z.shiftl 1 11.
Definition MAX_BIT : Z := 11.
Definition ALL : Z := Z.shiftl 1 (MAX_BIT + 1) - 1.
Definition NONE : Z := 0.
Definition CHANNEL_SCOPED : Z :=
  Z.lor (Z.lor (Z.lor VIEW_CHANNEL SEND_MESSAGES) MANAGE_MESSAGES) ATTACH_FILES.
Definition DEFAULT_MEMBER : Z :=
  Z.lor (Z.lor (Z.lor VIEW_CHANNEL SEND_MESSAGES) CREATE_INVITE) ATTACH_FILES.
Definition DEFAULT_MODERATOR : Z :=
  Z.lor (Z.lor (Z.lor (Z.lor DEFAULT_MEMBER MANAGE_MESSAGES) KICK_MEMBERS) BAN_MEMBERS)
    MUTE_MEMBERS.
Definition DEFAULT_ADMIN : Z :=
  Z.lor (Z.lor (Z.lor DEFAULT_MODERATOR MANAGE_CHANNELS) MANAGE_INVITES) MANAGE_ROLES.

(** ** Set operations; [!b] on a [u64] is [u64_not]. *)
Definition u64_not (b : Z) : Z := Z.lxor b U64_MAX.
Definition sanitized (p : Z) : Z := Z.land p ALL.
Definition contains (p needed : Z) : bool := Z.land p needed =? needed.
Definition union (p q : Z) : Z := Z.lor p q.
Definition without (p q : Z) : Z := Z.land p (u64_not q).
Definition intersection (p q : Z) : Z := Z.land p q.
Definition is_empty (p : Z) : bool := p =? 0.
Definition beyond (p q : Z) : Z := Z.land p (u64_not q).

(** ** Names *)
#[local] Open Scope string_scope.
Definition NAMED : list (string * Z) :=
  [("view", VIEW_CHANNEL); ("send", SEND_MESSAGES); ("manage-messages", MANAGE_MESSAGES);
   ("manage-channels", MANAGE_CHANNELS); ("invite", CREATE_INVITE);
   ("manage-invites", MANAGE_INVITES); ("kick", KICK_MEMBERS); ("ban", BAN_MEMBERS);
   ("mute", MUTE_MEMBERS); ("manage-roles", MANAGE_ROLES); ("manage-group", MANAGE_GROUP);
   ("attach", ATTACH_FILES)].

Definition names (p : Z) : list string :=
  map fst (List.filter (fun '(_, perm) => contains p perm) NAMED).

(** The error is the offending word ([UnknownPermission]). *)
Fixpoint parse_words (out : Z) (words : list string) : result string Z :=
  match words with
  | [] => Ok out
  | word :: rest =>
      let word := trim word in
      if bool_decide (word = "") then parse_words out rest
      else if bool_decide (word = "all") then parse_words (union out ALL) rest
      else if bool_decide (word = "none") then parse_words out rest
      else match List.find (fun '(name, _) => bool_decide (name = word)) NAMED with
           | Some (_, perm) => parse_words (union out perm) rest
           | None => Err word
           end
  end.
Definition parse_list (s : string) : result string Z :=
  parse_words NONE (split_on ","%char s).

(** [Display]. *)
Definition to_string (p : Z) : string :=
  match names p with [] => "none" | ns => join_on ","%char ns end.
#[local] Close Scope string_scope.

(** ** Lemmas *)

(** "Every bit of [p] is a bit of [q]": what a grant is checked against. *)
Definition subset (p q : Z) : Prop := forall i, 0 <= i -> Z.testbit p i = true -> Z.testbit q i = true.

Lemma subset_refl p : subset p p.
Proof. by intros i. Qed.
Lemma subset_trans p q r : subset p q -> subset q r -> subset p r.
Proof. intros H1 H2 i Hi Hp. auto. Qed.
Lemma subset_union_l p q : subset p (union p q).
Proof. intros i Hi Hp. unfold union. rewrite Z.lor_spec, Hp. done. Qed.
Lemma subset_union_r p q : subset q (union p q).
Proof. intros i Hi Hp. unfold union. rewrite Z.lor_spec, Hp. apply orb_true_r. Qed.
Lemma union_subset p q r : subset p r -> subset q r -> subset (union p q) r.
Proof.
  intros H1 H2 i Hi. unfold union. rewrite Z.lor_spec. intros [H|H]%orb_prop; auto.
Qed.
Lemma subset_none q : subset NONE q.
Proof. intros i _. unfold NONE. by rewrite Z.bits_0. Qed.
Lemma sanitized_subset p : subset (sanitized p) p.
Proof. intros i _. unfold sanitized. rewrite Z.land_spec. by intros [H _]%andb_prop. Qed.
Lemma sanitized_mono p q : subset p q -> subset (sanitized p) (sanitized q).
Proof.
  intros H i Hi. unfold sanitized. rewrite !Z.land_spec. intros [Hp ->]%andb_prop.
  by rewrite H.
Qed.
Lemma sanitized_idemp p : sanitized (sanitized p) = sanitized p.
Proof. unfold sanitized. by rewrite <- Z.land_assoc, Z.land_diag. Qed.
Lemma sanitized_union p q : sanitized (union p q) = union (sanitized p) (sanitized q).
Proof. apply Z.land_lor_distr_l. Qed.
Lemma sanitized_all p : subset (sanitized p) ALL.
Proof. intros i _. unfold sanitized. rewrite Z.land_spec. by intros [_ H]%andb_prop. Qed.
Lemma sanitized_id p : subset p ALL -> 0 <= p -> sanitized p = p.
Proof.
  intros H Hp. unfold sanitized. apply Z.bits_inj_iff'. intros i Hi.
  rewrite Z.land_spec. destruct (Z.testbit p i) eqn:E; [|done]. simpl. auto.
Qed.
Lemma sanitized_bound p : 0 <= sanitized p <= ALL.
Proof.
  unfold sanitized. assert (E : ALL = Z.ones 12) by reflexivity.
  rewrite E, Z.land_ones by lia. pose proof (Z.mod_pos_bound p (2 ^ 12) ltac:(lia)).
  change (Z.ones 12) with 4095. change (2 ^ 12) with 4096 in *. lia.
Qed.

Lemma contains_subset p q : contains p q = true <-> subset q p.
Proof.
  unfold contains. rewrite Z.eqb_eq. split.
  - intros H i Hi Hq. rewrite <- H, Z.land_spec in Hq. by apply andb_prop in Hq as [? _].
  - intros H. apply Z.bits_inj_iff'. intros i Hi. rewrite Z.land_spec.
    destruct (Z.testbit q i) eqn:E; [by rewrite H|apply andb_false_r].
Qed.
Lemma contains_union p a b :
  contains p (union a b) = contains p a && contains p b.
Proof.
  apply eq_true_iff_eq. rewrite andb_true_iff, !contains_subset. split.
  - intros H. split; eapply subset_trans; [apply subset_union_l|done|apply subset_union_r|done].
  - intros [H1 H2]. by apply union_subset.
Qed.
Lemma contains_mono p q needed : subset p q -> contains p needed = true -> contains q needed = true.
Proof. rewrite !contains_subset. intros H1 H2. by eapply subset_trans. Qed.
Lemma contains_sanitized p needed :
  subset needed ALL -> contains (sanitized p) needed = contains p needed.
Proof.
  intros Hn. apply eq_true_iff_eq. rewrite !contains_subset. split; intros H.
  - eapply subset_trans; [exact H|apply sanitized_subset].
  - intros i Hi Hb. unfold sanitized. rewrite Z.land_spec, H, Hn; done.
Qed.

Lemma u64_max_ones : U64_MAX = Z.ones 64.
Proof. reflexivity. Qed.
Lemma beyond_spec p q i : is_u64 p -> 0 <= i ->
  Z.testbit (beyond p q) i = Z.testbit p i && negb (Z.testbit q i).
Proof.
  intros Hp Hi. unfold beyond, u64_not. rewrite Z.land_spec, Z.lxor_spec, u64_max_ones.
  destruct (decide (i < 64)) as [H|H].
  - rewrite Z.ones_spec_low by lia. by destruct (Z.testbit p i), (Z.testbit q i).
  - assert (Z.testbit p i = false) as ->; [|done].
    destruct (decide (p = 0)) as [->|Hz]; [apply Z.bits_0|].
    apply Z.bits_above_log2; [unfold is_u64 in Hp; lia|].
    apply Z.lt_le_trans with 64; [|lia]. apply Z.log2_lt_pow2.
    + unfold is_u64 in Hp. lia.
    + unfold is_u64, U64_MAX in Hp. change (2 ^ 64) with 18446744073709551616. lia.
Qed.
(** [beyond] is exactly the escalation check: empty when nothing new is handed out. *)
Lemma beyond_empty p q : is_u64 p -> is_empty (beyond p q) = true <-> subset p q.
Proof.
  intros Hp. unfold is_empty. rewrite Z.eqb_eq. split.
  - intros H i Hi Hpi. assert (Hb := beyond_spec p q i Hp Hi).
    rewrite H, Z.bits_0, Hpi in Hb. by destruct (Z.testbit q i).
  - intros H. apply Z.bits_inj_iff'. intros i Hi. rewrite beyond_spec, Z.bits_0 by done.
    destruct (Z.testbit p i) eqn:E; [|done]. by rewrite H.
Qed.

Lemma union_u64 p q : is_u64 p -> is_u64 q -> is_u64 (union p q).
Proof.
  unfold is_u64, union. intros [Hp1 Hp2] [Hq1 Hq2]. split; [by apply Z.lor_nonneg|].
  assert (Z.lor p q < 2 ^ 64); [|unfold U64_MAX; lia].
  destruct (decide (Z.lor p q = 0)) as [->|Hz]; [lia|].
  apply Z.log2_lt_pow2; [pose proof (proj2 (Z.lor_nonneg p q) (conj Hp1 Hq1)); lia|].
  rewrite Z.log2_lor by done.
  assert (forall x, 0 <= x -> x <= U64_MAX -> Z.log2 x < 64) as L.
  { intros x Hx1 Hx2. destruct (decide (x = 0)) as [->|]; [done|].
    apply Z.log2_lt_pow2; [lia|]. unfold U64_MAX in Hx2. lia. }
  apply Z.max_lub_lt; auto.
Qed.
Lemma sanitized_u64 p : is_u64 (sanitized p).
Proof. pose proof (sanitized_bound p). unfold is_u64. change ALL with 4095 in *. unfold U64_MAX. lia. Qed.

Lemma names_sanitized p : names (sanitized p) = names p.
Proof.
  unfold names. f_equal. apply List.filter_ext_in. intros [n q] Hin.
  apply contains_sanitized. apply list_elem_of_In in Hin.
  rewrite <- contains_subset. clear -Hin. unfold NAMED in Hin.
  repeat (apply elem_of_cons in Hin as [[= -> ->]|Hin]; [done|]).
  by apply not_elem_of_nil in Hin.
Qed.

(** *** Names print and parse *)

(** Each canonical name is accepted where it stands, for its own bit. *)
Definition name_ok (np : string * Z) : bool :=
  let '(name, perm) := np in
  bool_decide (trim name = name) &&
  negb (bool_decide (name = "")) && negb (bool_decide (name = "all")) &&
  negb (bool_decide (name = "none")) &&
  bool_decide (List.find (fun '(n, _) => bool_decide (n = name)) NAMED = Some np) &&
  all_bytes (fun d => negb (bool_decide (","%char = d))) name &&
  bool_decide (perm = Z.shiftl 1 (Z.log2 perm)).
Lemma named_ok : forallb name_ok NAMED = true.
Proof. vm_compute. reflexivity. Qed.

Lemma named_ok_elem n q : (n, q) ∈ NAMED -> name_ok (n, q) = true.
Proof. intros H. pose proof named_ok as Hall. rewrite forallb_elem in Hall. auto. Qed.

Lemma parse_words_named out l rest :
  (forall np, np ∈ l -> np ∈ NAMED) ->
  parse_words out (map fst l ++ rest) = parse_words (foldl union out (map snd l)) rest.
Proof.
  revert out. induction l as [|[n q] l IH]; intros out Hl; [done|].
  assert (Hok := named_ok_elem n q (Hl _ (list_elem_of_here _ _))).
  unfold name_ok in Hok. bools. cbn [map fst app parse_words snd foldl].
  match goal with H : trim n = n |- _ => rewrite H end.
  rewrite !bool_decide_false by done.
  match goal with H : List.find _ _ = Some _ |- _ => rewrite H end.
  apply IH. intros np Hnp. apply Hl. by right.
Qed.

Lemma land_single p k : 0 <= k -> Z.land p (Z.shiftl 1 k) = if contains p (Z.shiftl 1 k) then Z.shiftl 1 k else 0.
Proof.
  intros Hk. unfold contains. destruct (_ =? _) eqn:E; [by apply Z.eqb_eq in E|].
  apply Z.eqb_neq in E. apply Z.bits_inj_iff'. intros i Hi.
  rewrite Z.land_spec, Z.bits_0, Z.shiftl_1_l, Z.pow2_bits_eqb by lia.
  destruct (k =? i) eqn:F; [|apply andb_false_r]. apply Z.eqb_eq in F as <-.
  destruct (Z.testbit p k) eqn:G; [|done]. exfalso. apply E.
  apply Z.bits_inj_iff'. intros j Hj. rewrite Z.land_spec, Z.shiftl_1_l, Z.pow2_bits_eqb by lia.
  destruct (k =? j) eqn:F; [|apply andb_false_r]. apply Z.eqb_eq in F as <-. by rewrite G.
Qed.

Lemma union_names p l out :
  (forall np, np ∈ l -> np ∈ NAMED) ->
  foldl union out (map snd (List.filter (fun '(_, perm) => contains p perm) l)) =
  Z.lor out (Z.land p (foldr union NONE (map snd l))).
Proof.
  revert out. induction l as [|[n q] l IH]; intros out Hl.
  - cbn. by rewrite Z.land_0_r, Z.lor_0_r.
  - assert (Hok := named_ok_elem n q (Hl _ (list_elem_of_here _ _))).
    unfold name_ok in Hok. bools.
    assert (Hq : Z.land p q = if contains p q then q else 0).
    { match goal with H : q = Z.shiftl 1 _ |- _ => rewrite H end.
      apply land_single, Z.log2_nonneg. }
    cbn [List.filter map snd foldr]. unfold union at 2. rewrite Z.land_lor_distr_r, Hq.
    destruct (contains p q); cbn [map snd foldl]; rewrite IH;
      try (intros np Hnp; apply Hl; by right).
    + unfold union at 1. by rewrite Z.lor_assoc.
    + by rewrite Z.lor_0_l.
Qed.

Lemma parse_list_names p l :
  l = List.filter (fun '(_, perm) => contains p perm) NAMED -> l <> [] ->
  parse_list (join_on ","%char (map fst l)) = Ok (sanitized p).
Proof.
  intros Hl Hne.
  assert (Hin : forall np, np ∈ l -> np ∈ NAMED).
  { intros np Hnp. subst l. by apply filter_elem in Hnp as [? _]. }
  unfold parse_list. rewrite split_join.
  - rewrite <- (app_nil_r (map fst l)), parse_words_named by done.
    cbn [parse_words]. f_equal. rewrite Hl, union_names by done. reflexivity.
  - by destruct l.
  - intros w Hw. apply list_elem_of_fmap in Hw as ([n q] & -> & Hnq).
    assert (Hok := named_ok_elem n q (Hin _ Hnq)). unfold name_ok in Hok. by bools.
Qed.

(** A permission set printed for a command line or a UI parses back to
    itself, less the bits this build does not define. *)
Theorem names_round_trip p : parse_list (to_string p) = Ok (sanitized p).
Proof.
  unfold to_string, names.
  remember (List.filter (fun '(_, perm) => contains p perm) NAMED) as l eqn:El.
  destruct l as [|np l].
  - assert (H := union_names p NAMED NONE (fun _ H => H)). rewrite <- El in H.
    cbn [map foldl] in H. change (parse_list (String.append "none" "") = Ok (sanitized p)).
    change (Z.lor NONE (Z.land p (foldr union NONE (map snd NAMED)))) with (sanitized p) in H.
    rewrite <- H. reflexivity.
  - cbn [map]. change (fst np :: map fst l) with (map fst (np :: l)).
    by apply parse_list_names.
Qed.

#[export] Hint Resolve subset_refl subset_union_l subset_union_r subset_none
  sanitized_subset sanitized_all union_u64 sanitized_u64 : hit.

End Perm.
