(* ===== verification/Nostr.v ===== *)
(** The interface of the [nostr] crate, as far as the program uses it.  Keys,
    ids and signatures are abstract types; what the crate computes on them is
    a field of a class, and what the program relies on is a law of
    [NostrLaws].  [Sample] is a concrete instance that satisfies the laws and
    computes: the witnesses of every file run on it. *)
From S2P Require Import Prelude Text.

#[local] Open Scope Z_scope.

(** Kinds are their number ([Kind::as_u16]), timestamps their seconds. *)
Abbreviation Kind := Z (only parsing).
Abbreviation Timestamp := Z (only parsing).
Abbreviation Tag := (list string) (only parsing).

(** Keys and ids. *)
Class NostrTypes := {
  PublicKey : Type;
  EventId : Type;
  Signature : Type;
  Keys : Type;
  #[global] pk_eq_dec :: EqDecision PublicKey;
  #[global] pk_countable :: Countable PublicKey;
  #[global] id_eq_dec :: EqDecision EventId;
  #[global] id_countable :: Countable EventId;
  #[global] sig_eq_dec :: EqDecision Signature;
  (** [Ord] on [PublicKey] and [EventId]. *)
  pk_leb : PublicKey -> PublicKey -> bool;
  id_leb : EventId -> EventId -> bool;
  pk_from_hex : string -> option PublicKey;
  pk_to_hex : PublicKey -> string;
  id_from_hex : string -> option EventId;
  id_to_hex : EventId -> string;
  keys_public_key : Keys -> PublicKey;
}.

Section Event.
Context {N : NostrTypes}.

(** A signed event: its fields, and nothing derived from them. *)
Record Event := mkEvent {
  ev_id : EventId;
  ev_pubkey : PublicKey;
  ev_created_at : Timestamp;
  ev_kind : Kind;
  ev_tags : list Tag;
  ev_content : string;
  ev_sig : Signature;
}.

#[global] Instance event_eq_dec : EqDecision Event.
Proof. solve_decision. Defined.

(** What an [EventBuilder] was given. *)
Record EventBuilder := mkBuilder {
  b_kind : Kind;
  b_content : string;
  b_tags : list Tag;
  b_created_at : option Timestamp;
}.
Definition builder_new (kind : Kind) (content : string) : EventBuilder :=
  mkBuilder kind content [] None.
Definition b_tag (b : EventBuilder) (t : Tag) : EventBuilder :=
  mkBuilder (b_kind b) (b_content b) (b_tags b ++ [t]) (b_created_at b).
Definition b_at (b : EventBuilder) (at_ : Timestamp) : EventBuilder :=
  mkBuilder (b_kind b) (b_content b) (b_tags b) (Some at_).

(** An event that says what a builder was given, by author [p]. *)
Definition carries (b : EventBuilder) (p : PublicKey) (e : Event) : Prop :=
  ev_kind e = b_kind b /\ ev_content e = b_content b /\ ev_tags e = b_tags b /\
  (forall t, b_created_at b = Some t -> ev_created_at e = t) /\ ev_pubkey e = p.

Definition id_ltb (a b : EventId) : bool := negb (id_leb b a).
End Event.

(** What the crate computes on events and tags. *)
Class NostrOps {N : NostrTypes} := {
  ev_verify : Event -> bool;
  ev_from_json : string -> option Event;
  ev_as_json : Event -> string;
  finalize : Keys -> EventBuilder -> option Event;
  tag_custom : string -> list string -> Tag;
  tag_identifier : string -> Tag;
  tag_kind : Tag -> string;
  tag_content : Tag -> option string;
  tags_identifier : list Tag -> option string;
  tags_expiration : list Tag -> option Timestamp;
  tags_public_keys : list Tag -> list PublicKey;
  (** [Timestamp + u64] and [Timestamp + Duration]. *)
  ts_add : Timestamp -> Z -> Timestamp;
}.

(** What the program relies on. *)
Class NostrLaws {N : NostrTypes} {O : NostrOps} : Prop := {
  pk_hex p : pk_from_hex (pk_to_hex p) = Some p;
  id_hex i : id_from_hex (id_to_hex i) = Some i;
  pk_leb_total p q : pk_leb p q = true \/ pk_leb q p = true;
  pk_leb_trans p q r : pk_leb p q = true -> pk_leb q r = true -> pk_leb p r = true;
  pk_leb_antisym p q : pk_leb p q = true -> pk_leb q p = true -> p = q;
  id_leb_total i j : id_leb i j = true \/ id_leb j i = true;
  id_leb_trans i j k : id_leb i j = true -> id_leb j k = true -> id_leb i k = true;
  id_leb_antisym i j : id_leb i j = true -> id_leb j i = true -> i = j;
  (** A tag is its name and its values. *)
  tag_custom_spec n vs : tag_custom n vs = n :: vs;
  tag_identifier_spec v : tag_identifier v = ["d"%string; v];
  (** The identifier is the first [d] tag's value. *)
  tags_identifier_first v rest : tags_identifier (["d"%string; v] :: rest) = Some v;
  ts_add_exact t s : 0 <= t -> 0 <= s -> t + s <= U64_MAX -> ts_add t s = t + s;
  (** A [Timestamp] is a [u64]. *)
  verified_time e : ev_verify e = true -> 0 <= ev_created_at e;
  (** Signing keeps what the builder was given (a [p] tag naming the signer
      apart, which the crate may discard), and the result verifies. *)
  finalize_spec k b e :
    finalize k b = Some e ->
    (forall t, t ∈ b_tags b -> t !! 0%nat = Some "p"%string ->
       t !! 1%nat <> Some (pk_to_hex (keys_public_key k))) ->
    carries b (keys_public_key k) e /\ ev_verify e = true;
  (** With such a tag, all but it is kept. *)
  finalize_tags k b e :
    finalize k b = Some e ->
    ev_kind e = b_kind b /\ ev_content e = b_content b /\ ev_pubkey e = keys_public_key k /\
    (forall t, b_created_at b = Some t -> ev_created_at e = t) /\ ev_verify e = true /\
    forall t, (t ∈ ev_tags e -> t ∈ b_tags b) /\
      (t ∈ b_tags b -> t ∈ ev_tags e \/ (t !! 0%nat = Some "p"%string /\ t !! 1%nat = Some (pk_to_hex (keys_public_key k))));
}.

Section Laws.
Context {N : NostrTypes} {O : NostrOps} {L : NostrLaws}.

Lemma id_leb_refl i : id_leb i i = true.
Proof. by destruct (id_leb_total i i). Qed.
Lemma id_ltb_irrefl i : id_ltb i i = false.
Proof. unfold id_ltb. by rewrite id_leb_refl. Qed.
Lemma id_ltb_total i j : i <> j -> id_ltb i j = negb (id_ltb j i).
Proof.
  intros Hne. unfold id_ltb. rewrite negb_involutive.
  destruct (id_leb j i) eqn:E, (id_leb i j) eqn:F; try done.
  - exfalso. apply Hne. by apply id_leb_antisym.
  - destruct (id_leb_total i j); congruence.
Qed.
Lemma id_ltb_trans i j k : id_ltb i j = true -> id_ltb j k = true -> id_ltb i k = true.
Proof.
  unfold id_ltb. rewrite !negb_true_iff. intros Hij Hjk.
  destruct (id_leb k i) eqn:E; [|done].
  assert (id_leb i j = true) by (destruct (id_leb_total i j); congruence).
  rewrite (id_leb_trans k i j) in Hjk by done. done.
Qed.
End Laws.

(** ** A concrete instance *)
Module Sample.
#[local] Open Scope string_scope.

(** Bytes in lowercase hex, and back. *)
Definition nibble (n : nat) : ascii :=
  opt_get zero (String.list_ascii_of_string "0123456789abcdef" !! n).
Definition read_nibble (c : ascii) : option nat :=
  fst <$> list_find (eq c) (String.list_ascii_of_string "0123456789abcdef").
Fixpoint hex (b : string) : string :=
  match b with
  | EmptyString => ""
  | String c t => String (nibble (nat_of_ascii c / 16)) (String (nibble (nat_of_ascii c mod 16)) (hex t))
  end.
Fixpoint read_hex (s : string) : option string :=
  match s with
  | EmptyString => Some ""
  | String a (String b t) =>
      let! x := read_nibble a in
      let! y := read_nibble b in
      let! r := read_hex t in
      Some (String (ascii_of_nat (16 * x + y)) r)
  | _ => None
  end.
Lemma read_nibbles c :
  read_nibble (nibble (nat_of_ascii c / 16)) = Some (nat_of_ascii c / 16)%nat /\
  read_nibble (nibble (nat_of_ascii c mod 16)) = Some (nat_of_ascii c mod 16)%nat.
Proof. by destruct c as [[] [] [] [] [] [] [] []]. Qed.
Lemma read_hex_inv b : read_hex (hex b) = Some b.
Proof.
  induction b as [|c b IH]; [done|]. cbn [hex read_hex].
  destruct (read_nibbles c) as [-> ->]. rewrite IH.
  rewrite <- (Nat.div_mod_eq (nat_of_ascii c) 16). by rewrite ascii_nat_embedding.
Qed.

#[export] Instance types : NostrTypes := {|
  PublicKey := string; EventId := string; Signature := string; Keys := string;
  pk_leb := String.leb; id_leb := String.leb;
  pk_from_hex := read_hex; pk_to_hex := hex;
  id_from_hex := strip_prefix "id:"; id_to_hex i := "id:" +:+ i;
  keys_public_key k := k;
|}.

Definition identifier (tags : list (list string)) : option string :=
  find_map (fun t => match t with n :: v :: _ => if bool_decide (n = "d") then Some v else None
                                | _ => None end) tags.
Definition expiration (tags : list (list string)) : option Z :=
  find_map (fun t => match t with
                     | n :: v :: _ => if bool_decide (n = "expiration") then parse_u64 v else None
                     | _ => None end) tags.
Definition public_keys (tags : list (list string)) : list string :=
  filter_map (fun t => match t with
                       | n :: v :: _ => if bool_decide (n = "p") then read_hex v else None
                       | _ => None end) tags.
(** Every event but one marked as forged verifies. *)
Definition verify (e : Event) : bool :=
  negb (bool_decide (ev_sig e = "forged")) && (0 <=? ev_created_at e)%Z.
Definition sign (k : string) (b : EventBuilder) : option Event :=
  let at_ := opt_get 0%Z (b_created_at b) in
  if (0 <=? at_)%Z then
    Some (mkEvent ("signed by " +:+ k) k at_ (b_kind b) (b_tags b) (b_content b) "signed")
  else None.

(** A text form of an event that reads back: its fields and tags as rows of
    strings, a row behind [;], a string behind [,] and each of its characters
    behind [x]; a number is the binary digits of its code. *)
Fixpoint digits (p : positive) : string :=
  match p with
  | xH => ""
  | xO q => String "0" (digits q)
  | xI q => String "1" (digits q)
  end.
Fixpoint read_digits (s : string) : positive :=
  match s with
  | EmptyString => xH
  | String c t => (if Ascii.eqb c "0" then xO else xI) (read_digits t)
  end.
Fixpoint write_string (s rest : string) : string :=
  match s with
  | EmptyString => rest
  | String c t => String "x" (String c (write_string t rest))
  end.
Definition write_row (row : list string) (rest : string) : string :=
  String ";" (foldr (fun s rest => String "," (write_string s rest)) rest row).
Definition write_rows (rows : list (list string)) : string := foldr write_row "" rows.
Fixpoint read_rows (s : string) : string * list string * list (list string) :=
  match s with
  | EmptyString => ("", [], [])
  | String c t =>
      if Ascii.eqb c "x" then
        match t with
        | EmptyString => ("", [], [])
        | String d u => let '(cur, row, rows) := read_rows u in (String d cur, row, rows)
        end
      else
        let '(cur, row, rows) := read_rows t in
        if Ascii.eqb c "," then ("", cur :: row, rows) else ("", [], row :: rows)
  end.
Definition as_json (e : Event) : string :=
  write_rows ([ev_id e; ev_pubkey e; digits (encode (ev_created_at e));
               digits (encode (ev_kind e)); ev_content e; ev_sig e] :: ev_tags e).
Definition from_json (s : string) : option Event :=
  match (read_rows s).2 with
  | [i; p; t; k; c; z] :: tags =>
      let! at_ := decode (A := Z) (read_digits t) in
      let! kind := decode (A := Z) (read_digits k) in
      Some (mkEvent i p at_ kind tags c z)
  | _ => None
  end.
Lemma read_digits_inv p : read_digits (digits p) = p.
Proof. induction p as [p IH|p IH|]; cbn; by rewrite ?IH. Qed.
Lemma read_write_string s rest row rows :
  read_rows rest = ("", row, rows) -> read_rows (write_string s rest) = (s, row, rows).
Proof. intros Hr. induction s as [|c s IH]; [done|]. cbn. by rewrite IH. Qed.
Lemma read_write_row row rest rows :
  read_rows rest = ("", [], rows) -> read_rows (write_row row rest) = ("", [], row :: rows).
Proof.
  intros Hr. unfold write_row. cbn.
  enough (read_rows (foldr (fun s rest => String "," (write_string s rest)) rest row)
          = ("", row, rows)) as -> by done.
  induction row as [|s row IH]; [done|]. cbn. by rewrite (read_write_string s _ _ _ IH).
Qed.
Lemma read_write_rows rows : read_rows (write_rows rows) = ("", [], rows).
Proof. induction rows as [|row rows IH]; [done|]. cbn -[read_rows]. by apply read_write_row. Qed.
Lemma json_round_trip e : from_json (as_json e) = Some e.
Proof.
  unfold from_json, as_json. rewrite read_write_rows. cbn.
  rewrite !read_digits_inv, !decode_encode. by destruct e.
Qed.

#[export] Instance ops : NostrOps := {|
  ev_verify := verify; ev_from_json := from_json; ev_as_json := as_json;
  finalize := sign;
  tag_custom n vs := n :: vs; tag_identifier v := ["d"; v];
  tag_kind t := opt_get "" (head t); tag_content t := t !! 1%nat;
  tags_identifier := identifier; tags_expiration := expiration;
  tags_public_keys := public_keys;
  ts_add t s := Z.min (t + s) U64_MAX;
|}.

Lemma string_leb_spec s t : String.leb s t = true <-> String.le s t.
Proof. unfold String.le. by destruct (String.leb s t). Qed.

#[export] Instance laws : NostrLaws.
Proof.
  split; cbn [pk_from_hex pk_to_hex id_from_hex id_to_hex pk_leb id_leb types ops tag_custom
              tag_identifier tags_identifier ts_add finalize keys_public_key].
  - apply read_hex_inv.
  - intros p. apply strip_prefix_app.
  - intros p q. rewrite !string_leb_spec. apply (total String.le).
  - intros p q r. rewrite !string_leb_spec. apply transitivity.
  - intros p q. rewrite !string_leb_spec. apply (anti_symm String.le).
  - intros p q. rewrite !string_leb_spec. apply (total String.le).
  - intros p q r. rewrite !string_leb_spec. apply transitivity.
  - intros p q. rewrite !string_leb_spec. apply (anti_symm String.le).
  - done.
  - done.
  - done.
  - intros t s Ht Hs Hb. lia.
  - cbn. unfold verify. intros e [_ H]%andb_prop. by apply Z.leb_le.
  - intros k b e H _. unfold sign in H. destruct (0 <=? _)%Z eqn:E; [|done]. injection H as <-.
    split; [|by unfold ops, ev_verify, verify; cbn; rewrite E]. repeat split; cbn; try done.
    intros t Ht. by rewrite Ht.
  - intros k b e H. unfold sign in H. destruct (0 <=? _)%Z eqn:E; [|done]. injection H as <-.
    do 3 (split; [done|]). split; [intros t Ht; cbn; by rewrite Ht|]. split; [by unfold ops, ev_verify, verify; cbn; rewrite E|].
    intros t. cbn. auto.
Qed.
End Sample.
