(* ===== verification/GroupEvent.v ===== *)
(** Group events ([crates/hit-event/src/group.rs]): their kinds, the tags they
    are read from, the group key's four state events, the actions people sign,
    and the files a message carries.  Every builder and every parser of the
    module is here; the round trips say that what a builder writes is what a
    peer reads. *)
From S2P Require Import Prelude Text Nostr.

#[local] Open Scope Z_scope.

(** ** Kinds and limits *)
Definition CHAT_MESSAGE : Kind := 9.
Definition REACTION : Kind := 7.
Definition DELETION : Kind := 5.
Definition PRESENCE : Kind := 20436.
Definition VOICE_PRESENCE : Kind := 20437.
Definition PUT_USER : Kind := 9000.
Definition REMOVE_USER : Kind := 9001.
Definition EDIT_METADATA : Kind := 9002.
Definition DELETE_EVENT : Kind := 9005.
Definition MUTE_USER : Kind := 9030.
Definition CREATE_GROUP : Kind := 9007.
Definition CREATE_INVITE : Kind := 9009.
Definition JOIN : Kind := 9021.
Definition LEAVE : Kind := 9022.
Definition GROUP_METADATA : Kind := 39000.
Definition GROUP_ADMINS : Kind := 39001.
Definition GROUP_MEMBERS : Kind := 39002.
Definition GROUP_ROLES : Kind := 39003.
(** [hit_event::zap::ZAP_CARRIER]. *)
Definition ZAP_CARRIER : Kind := 9436.

Definition CHANNEL_KINDS : list Kind :=
  [CHAT_MESSAGE; REACTION; DELETION; DELETE_EVENT; ZAP_CARRIER].
Definition STATE_KINDS : list Kind :=
  [GROUP_METADATA; GROUP_ADMINS; GROUP_MEMBERS; GROUP_ROLES].
Definition ACTION_KINDS : list Kind :=
  [PUT_USER; REMOVE_USER; EDIT_METADATA; MUTE_USER; CREATE_INVITE; JOIN; LEAVE].

Definition MAX_SLOWMODE : Z := 6 * 60 * 60.
Definition MAX_NEWCOMER_WAIT : Z := 24 * 60 * 60.
Definition MAX_ABOUT : Z := 280.
Definition PUBLIC_NEWCOMER_FLOOR : Z := 5 * 60.
Definition MAX_REACTION : Z := 32.
Definition DEFAULT_ROLE : string := "member".
Definition OWNER_MARK : string := "owner".

(** [[Kind]::contains]. *)
Definition kind_in (k : Kind) (l : list Kind) : bool := existsb (Z.eqb k) l.

Definition is_group_kind (kind : Kind) : bool :=
  kind_in kind CHANNEL_KINDS || (kind =? PRESENCE) || (kind =? VOICE_PRESENCE)
  || (kind =? CREATE_GROUP) || kind_in kind STATE_KINDS || kind_in kind ACTION_KINDS.

(** ** The data of the group key's state *)
Inductive ChannelKind := Text | Voice.
#[export] Instance channel_kind_eq_dec : EqDecision ChannelKind.
Proof. solve_decision. Defined.

Definition ChannelKind_as_str (k : ChannelKind) : string :=
  match k with Text => "text" | Voice => "voice" end.
Definition ChannelKind_parse (s : string) : option ChannelKind :=
  if bool_decide (s = "text"%string) then Some Text
  else if bool_decide (s = "voice"%string) then Some Voice else None.

Record Channel := mkChannel {
  ch_id : string; ch_name : string; ch_kind : ChannelKind; ch_slowmode : Z }.
Record Override := mkOverride {
  ov_channel : string; ov_role : string; ov_allow : Z; ov_deny : Z }.
Record RoleDef := mkRole { r_id : string; r_name : string; r_perms : Z; r_position : Z }.

#[export] Instance channel_eq_dec : EqDecision Channel.
Proof. solve_decision. Defined.
#[export] Instance override_eq_dec : EqDecision Override.
Proof. solve_decision. Defined.
#[export] Instance role_eq_dec : EqDecision RoleDef.
Proof. solve_decision. Defined.

(** The ranges of the fields' Rust types. *)
Definition channel_wf (c : Channel) : Prop := is_u32 (ch_slowmode c).
Definition override_wf (o : Override) : Prop := is_u64 (ov_allow o) /\ is_u64 (ov_deny o).
Definition role_wf (r : RoleDef) : Prop := is_u64 (r_perms r) /\ is_i64 (r_position r).

(** One change a [9002] makes. *)
Inductive Edit :=
| EName (n : string)
| EPublic (p : bool)
| ENewcomerWait (secs : Z)
| EAbout (a : string)
| EChannel (c : Channel)
| EChannelDelete (id : string)
| EOverride (o : Override)
| ERole (r : RoleDef)
| ERoleDelete (id : string).

Definition edit_wf (e : Edit) : Prop :=
  match e with
  | ENewcomerWait s => is_u32 s
  | EChannel c => channel_wf c
  | EOverride o => override_wf o
  | ERole r => role_wf r
  | _ => True
  end.

Section Types.
Context {N : NostrTypes}.

(** Everything the group key states about a group at one [seq]. *)
Record Snapshot := mkSnapshot {
  sn_seq : Z;
  sn_name : string;
  sn_public : bool;
  sn_newcomer_wait : Z;
  sn_about : string;
  sn_channels : list Channel;
  sn_overrides : list Override;
  sn_roles : list RoleDef;
  sn_owner : option PublicKey;
  sn_members : gmap PublicKey (gset string);
  sn_bans : gset PublicKey;
  sn_mutes : gmap PublicKey Timestamp;
}.

Inductive StatePiece :=
| PMetadata (name : string) (public : bool) (newcomer_wait : Z) (about : string)
    (channels : list Channel) (overrides : list Override)
| PAdmins (owner : option PublicKey) (assignments : gmap PublicKey (gset string))
| PMembers (members bans : gset PublicKey) (mutes : gmap PublicKey Timestamp)
| PRoles (roles : list RoleDef).

Inductive Action :=
| Put (target : PublicKey) (roles : gset string)
| Remove (target : PublicKey) (ban : bool)
| Unban (target : PublicKey)
| Mute (target : PublicKey) (until : option Timestamp)
| AEdit (edits : list Edit)
| Invite (code : string) (expires : option Timestamp)
| Join (code : option String.string)
| Leave.
End Types.

(** ** Reading tags *)
Section Read.
Context {N : NostrTypes} {O : NostrOps}.

Definition first_value (e : Event) (name : string) : option string :=
  find_map (fun t => match t with
                     | n :: v :: _ => if bool_decide (n = name) then Some v else None
                     | _ => None
                     end) (ev_tags e).

Definition group_of (e : Event) : option PublicKey :=
  if kind_in (ev_kind e) STATE_KINDS then
    let! d := tags_identifier (ev_tags e) in pk_from_hex d
  else if negb (is_group_kind (ev_kind e)) then None
  else let! v := first_value e "h" in pk_from_hex v.

Definition channel_of (e : Event) : option string :=
  if negb (kind_in (ev_kind e) CHANNEL_KINDS) && negb (ev_kind e =? VOICE_PRESENCE)
  then None else first_value e "channel".

Definition targets_of (e : Event) : list EventId :=
  filter_map (fun t => match t with
                       | n :: v :: _ => if bool_decide (n = "e"%string) then id_from_hex v else None
                       | _ => None
                       end) (ev_tags e).

Definition seq_of (e : Event) : option Z :=
  let! v := first_value e "seq" in parse_u64 v.
End Read.

(** ** The group key's state events: parsing *)

(** [[id, name, kind, slowmode?]]. *)
Definition parse_channel (rest : list string) : option Channel :=
  match rest with
  | id :: name :: kind :: more =>
      let! k := ChannelKind_parse kind in
      let! slow := match more with s :: _ => parse_u32 s | [] => Some 0 end in
      Some (mkChannel id name k slow)
  | _ => None
  end.

(** The variables of [parse_state]'s loop over a [39000]'s rows. *)
Record MetaAcc := mkMeta {
  ma_name : string; ma_public : bool; ma_private : bool; ma_wait : Z; ma_about : string;
  ma_channels : list Channel; ma_overrides : list Override }.
Definition meta0 : MetaAcc := mkMeta "" false false 0 "" [] [].

#[local] Open Scope string_scope.
Definition meta_row (m : MetaAcc) (row : list string) : option MetaAcc :=
  let '(mkMeta name pub priv wait about chans ovs) := m in
  match row with
  | [] => Some m
  | n :: args =>
      if bool_decide (n = "name") then
        match args with
        | v :: _ => Some (mkMeta v pub priv wait about chans ovs)
        | [] => Some m
        end
      else if bool_decide (n = "public") then Some (mkMeta name true priv wait about chans ovs)
      else if bool_decide (n = "private") then Some (mkMeta name pub true wait about chans ovs)
      else if bool_decide (n = "newcomer_wait") then
        match args with
        | v :: _ => let! w := parse_u32 v in Some (mkMeta name pub priv w about chans ovs)
        | [] => Some m
        end
      else if bool_decide (n = "about") then
        match args with
        | v :: _ => Some (mkMeta name pub priv wait v chans ovs)
        | [] => Some m
        end
      else if bool_decide (n = "channel") then
        let! c := parse_channel args in
        Some (mkMeta name pub priv wait about (chans ++ [c])%list ovs)
      else if bool_decide (n = "override") then
        match args with
        | channel :: role :: allow :: deny :: _ =>
            let! a := parse_u64 allow in
            let! d := parse_u64 deny in
            Some (mkMeta name pub priv wait about chans (ovs ++ [mkOverride channel role a d])%list)
        | _ => None
        end
      else Some m
  end.

(** [["role", id, name, perms, position]]. *)
Definition roles_row (acc : list RoleDef) (row : list string) : option (list RoleDef) :=
  match row with
  | n :: args =>
      if bool_decide (n = "role") then
        match args with
        | id :: rname :: perms :: position :: _ =>
            let! p := parse_u64 perms in
            let! pos := parse_i64 position in
            Some (acc ++ [mkRole id rname p pos])%list
        | _ => None
        end
      else Some acc
  | [] => Some acc
  end.

(** ** Edits *)
Definition Edit_parse (row : list string) : option (option Edit) :=
  match row with
  | [] => Some None
  | n :: args =>
      if bool_decide (n = "name") then
        match args with v :: _ => Some (Some (EName v)) | [] => None end
      else if bool_decide (n = "public") then Some (Some (EPublic true))
      else if bool_decide (n = "private") then Some (Some (EPublic false))
      else if bool_decide (n = "newcomer_wait") then
        match args with
        | v :: _ => let! w := parse_u32 v in Some (Some (ENewcomerWait w))
        | [] => None
        end
      else if bool_decide (n = "about") then
        match args with v :: _ => Some (Some (EAbout v)) | [] => None end
      else if bool_decide (n = "channel") then
        let! c := parse_channel args in Some (Some (EChannel c))
      else if bool_decide (n = "channel-delete") then
        match args with id :: _ => Some (Some (EChannelDelete id)) | [] => None end
      else if bool_decide (n = "override") then
        match args with
        | channel :: role :: allow :: deny :: _ =>
            let! a := parse_u64 allow in
            let! d := parse_u64 deny in
            Some (Some (EOverride (mkOverride channel role a d)))
        | _ => None
        end
      else if bool_decide (n = "role") then
        match args with
        | id :: name :: perms :: position :: _ =>
            let! p := parse_u64 perms in
            let! pos := parse_i64 position in
            Some (Some (ERole (mkRole id name p pos)))
        | _ => None
        end
      else if bool_decide (n = "role-delete") then
        match args with id :: _ => Some (Some (ERoleDelete id)) | [] => None end
      else Some None
  end.
#[local] Close Scope string_scope.

(** The loop of [parse_action] over a [9002]'s tags. *)
Fixpoint parse_edits (rows : list (list string)) : option (list Edit) :=
  match rows with
  | [] => Some []
  | row :: rest =>
      let! e := Edit_parse row in
      let! es := parse_edits rest in
      Some (match e with Some e => e :: es | None => es end)
  end.

(** ** Files a message carries *)
Record Attachment := mkAttachment {
  at_hash : string; at_sha256 : string; at_size : Z; at_mime : string; at_name : string }.
#[export] Instance attachment_eq_dec : EqDecision Attachment.
Proof. solve_decision. Defined.

Definition MAX_ATTACHMENT_BYTES : Z := 50 * 1000 * 1000.
Definition MAX_ATTACHMENTS : Z := 10.
Definition MAX_ATTACHMENT_NAME : Z := 255.
Definition MAX_ATTACHMENT_MIME : Z := 128.
Definition BLOB_URL : string := "hit-blob:".

Definition hex64 (s : string) : bool :=
  (str_len s =? 64) &&
  all_bytes (fun b => is_digit b || ((97 <=? byte_of b) && (byte_of b <=? 102))) s.
Definition Attachment_is_valid (a : Attachment) : bool :=
  hex64 (at_hash a) && hex64 (at_sha256 a) && (0 <? at_size a)
  && (at_size a <=? MAX_ATTACHMENT_BYTES) && negb (str_is_empty (at_name a))
  && (chars_count (at_name a) <=? MAX_ATTACHMENT_NAME)
  && negb (any_byte (fun b => bool_decide (b = "/"%char) || bool_decide (b = "\"%char)
                              || bool_decide (b = "000"%char)) (at_name a))
  && (chars_count (at_mime a) <=? MAX_ATTACHMENT_MIME).

(** An [imeta] field: ["k v"]. *)
Definition imeta_field (fields : list string) (k : string) : option string :=
  find_map (fun f => let! v := strip_prefix k f in strip_prefix " " v) fields.

Definition parse_imeta (fields : list string) : result unit Attachment :=
  let? hash := ok_or (let! u := imeta_field fields "url" in strip_prefix BLOB_URL u) tt in
  let? sha := ok_or (imeta_field fields "x") tt in
  let? size := ok_or (let! v := imeta_field fields "size" in parse_u64 v) tt in
  let a := mkAttachment hash sha size
             (opt_get "application/octet-stream"%string (imeta_field fields "m"))
             (opt_get "file"%string (imeta_field fields "name")) in
  guard Attachment_is_valid a else tt in Ok a.

Fixpoint collect_imeta (tags : list (list string)) : result unit (list Attachment) :=
  match tags with
  | [] => Ok []
  | t :: rest =>
      match t with
      | n :: fields =>
          if bool_decide (n = "imeta"%string) then
            let? a := parse_imeta fields in
            let? l := collect_imeta rest in Ok (a :: l)
          else collect_imeta rest
      | [] => collect_imeta rest
      end
  end.

Section Group.
Context {N : NostrTypes} {O : NostrOps}.

Definition attachments_of (e : Event) : result unit (list Attachment) :=
  let? out := collect_imeta (ev_tags e) in
  guard Z.of_nat (length out) <=? MAX_ATTACHMENTS else tt in Ok out.

(** ** [parse_state] *)
Definition admins_row (acc : option PublicKey * gmap PublicKey (gset string))
    (row : list string) : option (option PublicKey * gmap PublicKey (gset string)) :=
  match row with
  | n :: p :: rest =>
      if bool_decide (n = "p"%string) then
        let! p := pk_from_hex p in
        if existsb (fun r => bool_decide (r = OWNER_MARK)) rest then Some (Some p, snd acc)
        else Some (fst acc, <[p := list_to_set rest]> (snd acc))
      else Some acc
  | _ => Some acc
  end.

Definition members_row
    (acc : gset PublicKey * gset PublicKey * gmap PublicKey Timestamp) (row : list string)
    : option (gset PublicKey * gset PublicKey * gmap PublicKey Timestamp) :=
  let '(members, bans, mutes) := acc in
  match row with
  | n :: p :: rest =>
      if bool_decide (n = "p"%string) then
        let! p := pk_from_hex p in Some ({[p]} ∪ members, bans, mutes)
      else if bool_decide (n = "ban"%string) then
        let! p := pk_from_hex p in Some (members, {[p]} ∪ bans, mutes)
      else if bool_decide (n = "mute"%string) then
        match rest with
        | until :: _ =>
            let! p := pk_from_hex p in
            let! u := parse_u64 until in Some (members, bans, <[p := u]> mutes)
        | [] => Some acc
        end
      else Some acc
  | _ => Some acc
  end.

Definition parse_state (e : Event) : option (PublicKey * Z * StatePiece) :=
  let! group := group_of e in
  if negb (kind_in (ev_kind e) STATE_KINDS) || negb (bool_decide (ev_pubkey e = group))
  then None
  else
    let! seq := seq_of e in
    let rows := ev_tags e in
    let! piece :=
      if ev_kind e =? GROUP_METADATA then
        let! m := fold_opt meta_row meta0 rows in
        Some (PMetadata (ma_name m) (ma_public m && negb (ma_private m)) (ma_wait m)
                (ma_about m) (ma_channels m) (ma_overrides m))
      else if ev_kind e =? GROUP_ADMINS then
        let! a := fold_opt admins_row (None, ∅) rows in Some (PAdmins (fst a) (snd a))
      else if ev_kind e =? GROUP_MEMBERS then
        let! m := fold_opt members_row (∅, ∅, ∅) rows in
        let '(members, bans, mutes) := m in Some (PMembers members bans mutes)
      else
        let! r := fold_opt roles_row [] rows in Some (PRoles r) in
    Some (group, seq, piece).

(** ** [parse_action] *)
Definition has_flag (e : Event) (f : string) : bool :=
  existsb (fun t => match t with n :: _ => bool_decide (n = f) | [] => false end) (ev_tags e).
Definition target_of (e : Event) : option PublicKey :=
  let! v := first_value e "p" in pk_from_hex v.
Definition put_roles (e : Event) : gset string :=
  opt_get ∅ (find_map (fun t => match t with
                                | n :: _ :: rest =>
                                    if bool_decide (n = "p"%string)
                                    then Some (list_to_set rest) else None
                                | _ => None
                                end) (ev_tags e)).
Definition mute_until (e : Event) : option Z :=
  find_map (fun t => match t with
                     | n :: _ :: until :: _ =>
                         if bool_decide (n = "p"%string) then parse_u64 until else None
                     | _ => None
                     end) (ev_tags e).

Definition parse_action (e : Event) : option (PublicKey * Action) :=
  let! group := group_of e in
  let! action :=
    if ev_kind e =? PUT_USER then
      let! t := target_of e in Some (Put t (put_roles e))
    else if ev_kind e =? REMOVE_USER then
      if has_flag e "unban" then let! t := target_of e in Some (Unban t)
      else let! t := target_of e in Some (Remove t (has_flag e "ban"))
    else if ev_kind e =? MUTE_USER then
      let! until := mute_until e in
      let! t := target_of e in
      Some (Mute t (if 0 <? until then Some until else None))
    else if ev_kind e =? EDIT_METADATA then
      let! edits := parse_edits (ev_tags e) in
      match edits with [] => None | _ => Some (AEdit edits) end
    else if ev_kind e =? CREATE_INVITE then
      let! code := first_value e "code" in
      let! expires := match first_value e "expiration" with
                      | Some t => let! t := parse_u64 t in Some (Some t)
                      | None => Some None
                      end in
      Some (Invite code expires)
    else if ev_kind e =? JOIN then Some (Join (first_value e "code"))
    else if ev_kind e =? LEAVE then Some Leave
    else None in
  Some (group, action).

(** ** Writing *)
Definition h (group : PublicKey) : Tag := tag_custom "h" [pk_to_hex group].
Definition visibility_tags (public : bool) : list Tag :=
  if public then [tag_custom "public" []; tag_custom "open" []]
  else [tag_custom "private" []; tag_custom "closed" []].
Definition channel_tag (c : Channel) : Tag :=
  tag_custom "channel"
    [ch_id c; ch_name c; ChannelKind_as_str (ch_kind c); show_u (ch_slowmode c)].
Definition override_tag (o : Override) : Tag :=
  tag_custom "override" [ov_channel o; ov_role o; show_u (ov_allow o); show_u (ov_deny o)].
Definition role_tag (r : RoleDef) : Tag :=
  tag_custom "role" [r_id r; r_name r; show_u (r_perms r); show_i (r_position r)].

Definition Edit_to_tag (e : Edit) : Tag :=
  match e with
  | EName n => tag_custom "name" [n]
  | EPublic true => tag_custom "public" []
  | EPublic false => tag_custom "private" []
  | ENewcomerWait s => tag_custom "newcomer_wait" [show_u s]
  | EAbout a => tag_custom "about" [a]
  | EChannel c => channel_tag c
  | EChannelDelete id => tag_custom "channel-delete" [id]
  | EOverride o => override_tag o
  | ERole r => role_tag r
  | ERoleDelete id => tag_custom "role-delete" [id]
  end.

Definition b_tags_add (b : EventBuilder) (ts : list Tag) : EventBuilder := foldl b_tag b ts.

(** The four builders [Snapshot::sign] finalizes, and the signing. *)
Definition state_base (g : PublicKey) (seq : Z) (at_ : Timestamp) (kind : Kind) : EventBuilder :=
  b_tag (b_tag (b_at (builder_new kind "") at_) (tag_identifier (pk_to_hex g)))
    (tag_custom "seq" [show_u seq]).
Definition meta_builder (s : Snapshot) (g : PublicKey) (at_ : Timestamp) : EventBuilder :=
  let b := b_tag (state_base g (sn_seq s) at_ GROUP_METADATA) (tag_custom "name" [sn_name s]) in
  let b := b_tags_add b (visibility_tags (sn_public s)) in
  let b := if 0 <? sn_newcomer_wait s
           then b_tag b (tag_custom "newcomer_wait" [show_u (sn_newcomer_wait s)]) else b in
  let b := if negb (str_is_empty (sn_about s))
           then b_tag b (tag_custom "about" [sn_about s]) else b in
  let b := b_tags_add b (map channel_tag (sn_channels s)) in
  b_tags_add b (map override_tag (sn_overrides s)).
Definition role_list (roles : gset string) : list string := set_entries String.leb roles.
Definition admin_rows (m : gmap PublicKey (gset string)) : list (PublicKey * gset string) :=
  List.filter (fun '(_, roles) => negb (bool_decide (roles = ∅))) (map_entries pk_leb m).
Definition admins_builder (s : Snapshot) (g : PublicKey) (at_ : Timestamp) : EventBuilder :=
  let b := state_base g (sn_seq s) at_ GROUP_ADMINS in
  let b := match sn_owner s with
           | Some owner => b_tag b (tag_custom "p" [pk_to_hex owner; OWNER_MARK])
           | None => b
           end in
  b_tags_add b (map (fun '(p, roles) => tag_custom "p" (pk_to_hex p :: role_list roles))
                  (admin_rows (sn_members s))).
Definition members_builder (s : Snapshot) (g : PublicKey) (at_ : Timestamp) : EventBuilder :=
  let b := state_base g (sn_seq s) at_ GROUP_MEMBERS in
  let b := b_tags_add b (map (fun '(p, _) => tag_custom "p" [pk_to_hex p])
                           (map_entries pk_leb (sn_members s))) in
  let b := b_tags_add b (map (fun p => tag_custom "ban" [pk_to_hex p])
                           (set_entries pk_leb (sn_bans s))) in
  b_tags_add b (map (fun '(p, until) => tag_custom "mute" [pk_to_hex p; show_u until])
                  (map_entries pk_leb (sn_mutes s))).
Definition roles_builder (s : Snapshot) (g : PublicKey) (at_ : Timestamp) : EventBuilder :=
  b_tags_add (state_base g (sn_seq s) at_ GROUP_ROLES) (map role_tag (sn_roles s)).

Definition Snapshot_sign (s : Snapshot) (key : Keys) (at_ : Timestamp)
    : option (Event * Event * Event * Event) :=
  let g := keys_public_key key in
  let! meta := finalize key (meta_builder s g at_) in
  let! admins := finalize key (admins_builder s g at_) in
  let! members := finalize key (members_builder s g at_) in
  let! roles := finalize key (roles_builder s g at_) in
  Some (meta, admins, members, roles).

Definition Attachment_to_tag (a : Attachment) : Tag :=
  tag_custom "imeta"
    ["url " +:+ BLOB_URL +:+ at_hash a; "m " +:+ at_mime a; "x " +:+ at_sha256 a;
     "size " +:+ show_u (at_size a); "name " +:+ at_name a].

(** Builders of what people sign. *)
Definition in_channel (b : EventBuilder) (group : PublicKey) (channel : string) : EventBuilder :=
  b_tag (b_tag b (h group)) (tag_custom "channel" [channel]).
Definition message (group : PublicKey) (channel text : string) : EventBuilder :=
  in_channel (builder_new CHAT_MESSAGE text) group channel.
Definition message_with (group : PublicKey) (channel text : string) (l : list Attachment) :=
  b_tags_add (message group channel text) (map Attachment_to_tag l).
Definition e_tags (targets : list EventId) : list Tag :=
  map (fun t => tag_custom "e" [id_to_hex t]) targets.
Definition reaction (group : PublicKey) (channel : string) (target : EventId)
    (author : PublicKey) (emoji : string) : EventBuilder :=
  b_tags_add (in_channel (builder_new REACTION emoji) group channel)
    [tag_custom "e" [id_to_hex target]; tag_custom "p" [pk_to_hex author];
     tag_custom "k" [show_u CHAT_MESSAGE]].
Definition deletion (group : PublicKey) (channel : string) (targets : list EventId) :=
  b_tags_add (in_channel (builder_new DELETION "") group channel) (e_tags targets).
Definition delete_event (group : PublicKey) (channel : string) (targets : list EventId) :=
  b_tags_add (in_channel (builder_new DELETE_EVENT "") group channel) (e_tags targets).
Definition voice_presence (group : PublicKey) (channel : string) (inside : bool) :=
  b_tag (in_channel (builder_new VOICE_PRESENCE "") group channel)
    (tag_custom "state" [if inside then "in" else "out"]%string).
Definition voice_inside (e : Event) : bool :=
  bool_decide (first_value e "state" = Some "in"%string).
Definition presence (group : PublicKey) := b_tag (builder_new PRESENCE "") (h group).
Definition create_group (group : PublicKey) := b_tag (builder_new CREATE_GROUP "") (h group).
Definition put_user (group target : PublicKey) (roles : list string) :=
  b_tag (b_tag (builder_new PUT_USER "") (h group)) (tag_custom "p" (pk_to_hex target :: roles)).
Definition remove_user (group target : PublicKey) :=
  b_tag (b_tag (builder_new REMOVE_USER "") (h group)) (tag_custom "p" [pk_to_hex target]).
Definition ban_user (group target : PublicKey) :=
  b_tag (remove_user group target) (tag_custom "ban" []).
Definition unban_user (group target : PublicKey) :=
  b_tag (remove_user group target) (tag_custom "unban" []).
Definition mute_user (group target : PublicKey) (until : option Timestamp) :=
  b_tag (b_tag (builder_new MUTE_USER "") (h group))
    (tag_custom "p" [pk_to_hex target; show_u (opt_get 0 until)]).
Definition edit_metadata (group : PublicKey) (edits : list Edit) :=
  b_tags_add (b_tag (builder_new EDIT_METADATA "") (h group)) (map Edit_to_tag edits).
Definition create_invite (group : PublicKey) (code : string) (expires : option Timestamp) :=
  let b := b_tag (b_tag (builder_new CREATE_INVITE "") (h group)) (tag_custom "code" [code]) in
  match expires with Some t => b_tag b (tag_custom "expiration" [show_u t]) | None => b end.
Definition join (group : PublicKey) (code : string) :=
  b_tag (b_tag (builder_new JOIN "") (h group)) (tag_custom "code" [code]).
Definition join_public (group : PublicKey) := b_tag (builder_new JOIN "") (h group).
Definition leave (group : PublicKey) := b_tag (builder_new LEAVE "") (h group).
End Group.

(** ** Lemmas *)

(** Decides an equality of two string literals under [bool_decide]. *)
Ltac str_dec :=
  repeat match goal with
  | |- context [bool_decide (@eq string ?a ?b)] =>
      first [ rewrite (bool_decide_true (a = b)) by reflexivity
            | rewrite (bool_decide_false (a = b)) by discriminate ]
  end.

Lemma channel_kind_round_trip k : ChannelKind_parse (ChannelKind_as_str k) = Some k.
Proof. by destruct k. Qed.

Section Facts.
Context {N : NostrTypes} {O : NostrOps} {L : NostrLaws}.

Lemma b_tags_add_tags b ts : b_tags (b_tags_add b ts) = b_tags b ++ ts.
Proof.
  unfold b_tags_add. revert b. induction ts as [|t ts IH]; intros b; simpl.
  - by rewrite app_nil_r.
  - rewrite IH. cbn. by rewrite <- app_assoc.
Qed.
Lemma b_tags_add_kind b ts : b_kind (b_tags_add b ts) = b_kind b.
Proof. unfold b_tags_add. revert b. induction ts as [|t ts IH]; intros b; simpl; [done|]. by rewrite IH. Qed.
Lemma b_tags_add_at b ts : b_created_at (b_tags_add b ts) = b_created_at b.
Proof. unfold b_tags_add. revert b. induction ts as [|t ts IH]; intros b; simpl; [done|]. by rewrite IH. Qed.

Lemma parse_channel_round_trip c : channel_wf c ->
  parse_channel [ch_id c; ch_name c; ChannelKind_as_str (ch_kind c); show_u (ch_slowmode c)]
  = Some c.
Proof.
  intros Hwf. cbn [parse_channel]. rewrite channel_kind_round_trip, parse_show_u;
    [by destruct c|exact Hwf|done].
Qed.

Lemma Edit_parse_round_trip e : edit_wf e -> Edit_parse (Edit_to_tag e) = Some (Some e).
Proof.
  destruct e as [n|[]|s|a|c|id|o|r|id]; cbn [edit_wf Edit_to_tag]; intros Hwf;
    unfold channel_tag, override_tag, role_tag; rewrite tag_custom_spec;
    unfold Edit_parse; str_dec; try done.
  - by rewrite parse_show_u.
  - by rewrite parse_channel_round_trip.
  - destruct Hwf as [Ha Hd]. rewrite !parse_show_u by done. by destruct o.
  - destruct Hwf as [Hp Hpos]. rewrite parse_show_u, parse_show_i by done. by destruct r.
Qed.

Lemma parse_edits_round_trip es :
  Forall edit_wf es -> parse_edits (map Edit_to_tag es) = Some es.
Proof.
  induction 1 as [|e es He _ IH]; [done|]. cbn [map parse_edits].
  by rewrite Edit_parse_round_trip, IH.
Qed.

Lemma first_value_cons e t ts name :
  ev_tags e = t :: ts ->
  first_value e name =
  match t with
  | n :: v :: _ => if bool_decide (n = name) then Some v
                   else find_map (fun t => match t with
                     | n :: v :: _ => if bool_decide (n = name) then Some v else None
                     | _ => None end) ts
  | _ => find_map (fun t => match t with
                     | n :: v :: _ => if bool_decide (n = name) then Some v else None
                     | _ => None end) ts
  end.
Proof.
  intros E. unfold first_value. rewrite E. cbn. destruct t as [|n [|v r]]; try done.
  by destruct (bool_decide (n = name)).
Qed.

(** An event of a group kind that starts with our [h] tag is that group's. *)
Lemma group_of_h e g ts :
  kind_in (ev_kind e) STATE_KINDS = false -> is_group_kind (ev_kind e) = true ->
  ev_tags e = h g :: ts -> group_of e = Some g.
Proof.
  intros Hs Hk Ht. unfold group_of. rewrite Hs, Hk. cbn [negb].
  rewrite (first_value_cons _ _ _ _ Ht). unfold h. rewrite tag_custom_spec. str_dec.
  apply pk_hex.
Qed.

(** Reads back an event that carries a builder of this file. *)
Ltac read_action H :=
  let Hk := fresh "Hk" in let Ht := fresh "Ht" in
  unfold put_user, ban_user, unban_user, remove_user, mute_user, create_invite, join,
    join_public, leave in H;
  destruct H as (Hk & _ & Ht & _ & _);
  cbn [b_kind b_tags b_tag builder_new app] in Hk, Ht;
  unfold parse_action;
  rewrite (group_of_h _ _ _ ltac:(rewrite Hk; reflexivity) ltac:(rewrite Hk; reflexivity) Ht);
  rewrite Hk; cbn -[U64_MAX show_u parse_u bool_decide];
  unfold target_of, put_roles, mute_until, has_flag, first_value; rewrite ?Ht;
  unfold h; rewrite ?tag_custom_spec; cbn -[U64_MAX show_u parse_u bool_decide tag_custom];
  str_dec; cbn -[U64_MAX show_u parse_u bool_decide tag_custom]; rewrite ?pk_hex.

Lemma put_user_parses g t roles p e :
  carries (put_user g t roles) p e -> parse_action e = Some (g, Put t (list_to_set roles)).
Proof. intros H. by read_action H. Qed.
Lemma remove_user_parses g t p e :
  carries (remove_user g t) p e -> parse_action e = Some (g, Remove t false).
Proof. intros H. by read_action H. Qed.
Lemma ban_user_parses g t p e :
  carries (ban_user g t) p e -> parse_action e = Some (g, Remove t true).
Proof. intros H. by read_action H. Qed.
Lemma unban_user_parses g t p e :
  carries (unban_user g t) p e -> parse_action e = Some (g, Unban t).
Proof. intros H. by read_action H. Qed.
Lemma mute_user_parses g t until p e :
  is_u64 (opt_get 0 until) -> until <> Some 0 ->
  carries (mute_user g t until) p e -> parse_action e = Some (g, Mute t until).
Proof.
  intros Hu H0 H. read_action H. rewrite parse_show_u by done.
  cbn. destruct until as [u|]; [|done]. cbn in *.
  destruct (0 <? u) eqn:E; [done|]. apply Z.ltb_ge in E.
  exfalso. apply H0. f_equal. unfold is_u64 in Hu. lia.
Qed.
Lemma edit_metadata_parses g es p e :
  Forall edit_wf es -> es <> [] ->
  carries (edit_metadata g es) p e -> parse_action e = Some (g, AEdit es).
Proof.
  intros Hwf Hne H. unfold edit_metadata in H.
  destruct H as (Hk & _ & Ht & _ & _). rewrite b_tags_add_kind in Hk.
  rewrite b_tags_add_tags in Ht. cbn in Hk, Ht. unfold parse_action.
  rewrite (group_of_h _ _ _ ltac:(rewrite Hk; reflexivity) ltac:(rewrite Hk; reflexivity) Ht).
  rewrite Hk. cbn -[parse_edits]. rewrite Ht. cbn [parse_edits].
  assert (Edit_parse (h g) = Some None) as ->.
  { unfold h. rewrite tag_custom_spec. unfold Edit_parse. by str_dec. }
  rewrite parse_edits_round_trip by done. by destruct es.
Qed.
Lemma create_invite_parses g code expires p e :
  is_u64 (opt_get 0 expires) ->
  carries (create_invite g code expires) p e ->
  parse_action e = Some (g, Invite code expires).
Proof.
  intros Hu H. destruct expires as [u|]; read_action H.
  - by rewrite parse_show_u.
  - done.
Qed.
Lemma join_parses g code p e :
  carries (join g code) p e -> parse_action e = Some (g, Join (Some code)).
Proof. intros H. by read_action H. Qed.
Lemma join_public_parses g p e :
  carries (join_public g) p e -> parse_action e = Some (g, Join None).
Proof. intros H. by read_action H. Qed.
Lemma leave_parses g p e : carries (leave g) p e -> parse_action e = Some (g, Leave).
Proof. intros H. by read_action H. Qed.

(** *** The four state events read back *)

(** The ranges of a snapshot's fields. *)
Record snapshot_wf (s : Snapshot) : Prop := {
  swf_seq : is_u64 (sn_seq s);
  swf_wait : is_u32 (sn_newcomer_wait s);
  swf_channels : Forall channel_wf (sn_channels s);
  swf_overrides : Forall override_wf (sn_overrides s);
  swf_roles : Forall role_wf (sn_roles s);
  swf_mutes : map_Forall (fun _ u => is_u64 u) (sn_mutes s);
  (** No member's role is the owner mark. *)
  swf_marks : map_Forall (fun _ rs => OWNER_MARK ∉ rs) (sn_members s);
}.

(** The parts of [parse_state] the four kinds share. *)
Lemma parse_state_base e g seq at_ kind rows :
  kind_in kind STATE_KINDS = true -> is_u64 seq ->
  ev_kind e = kind -> ev_pubkey e = g ->
  ev_tags e = b_tags (state_base g seq at_ kind) ++ rows ->
  group_of e = Some g /\ seq_of e = Some seq.
Proof.
  intros Hk Hs He Hp Ht. cbn in Ht. rewrite tag_identifier_spec in Ht. split.
  - unfold group_of. rewrite He, Hk, Ht. rewrite tags_identifier_first. apply pk_hex.
  - unfold seq_of. rewrite (first_value_cons _ _ _ _ Ht). str_dec. cbn [find_map].
    rewrite tag_custom_spec. str_dec. by apply parse_show_u.
Qed.

Lemma meta_rows_channels m l :
  Forall channel_wf l ->
  fold_opt meta_row m (map channel_tag l) =
  Some (mkMeta (ma_name m) (ma_public m) (ma_private m) (ma_wait m) (ma_about m)
          (ma_channels m ++ l) (ma_overrides m)).
Proof.
  intros Hl. revert m. induction Hl as [|c l Hc Hl IH]; intros [n pu pr w a cs os].
  - cbn. by rewrite app_nil_r.
  - cbn [map fold_opt]. unfold channel_tag at 1. rewrite tag_custom_spec.
    unfold meta_row at 1. str_dec. rewrite parse_channel_round_trip by done.
    rewrite IH. cbn. by rewrite <- app_assoc.
Qed.
Lemma meta_rows_overrides m l :
  Forall override_wf l ->
  fold_opt meta_row m (map override_tag l) =
  Some (mkMeta (ma_name m) (ma_public m) (ma_private m) (ma_wait m) (ma_about m)
          (ma_channels m) (ma_overrides m ++ l)).
Proof.
  intros Hl. revert m. induction Hl as [|c l [Ha Hd] Hl IH]; intros [n pu pr w a cs os].
  - cbn. by rewrite app_nil_r.
  - cbn [map fold_opt]. unfold override_tag at 1. rewrite tag_custom_spec.
    unfold meta_row at 1. str_dec. rewrite !parse_show_u by done.
    rewrite IH. cbn. destruct c. by rewrite <- app_assoc.
Qed.

(** The rows before the channels and overrides. *)
Definition meta_head_rows (s : Snapshot) (g : PublicKey) (at_ : Timestamp) : list Tag :=
  b_tags (state_base g (sn_seq s) at_ GROUP_METADATA) ++
  tag_custom "name" [sn_name s] :: visibility_tags (sn_public s) ++
  (if 0 <? sn_newcomer_wait s
   then [tag_custom "newcomer_wait" [show_u (sn_newcomer_wait s)]] else []) ++
  (if negb (str_is_empty (sn_about s)) then [tag_custom "about" [sn_about s]] else []).

Lemma meta_builder_tags s g at_ :
  b_tags (meta_builder s g at_) =
  meta_head_rows s g at_ ++ map channel_tag (sn_channels s) ++ map override_tag (sn_overrides s).
Proof.
  unfold meta_builder, meta_head_rows. rewrite !b_tags_add_tags.
  destruct (0 <? sn_newcomer_wait s), (negb (str_is_empty (sn_about s)));
    cbn [b_tags b_tag]; rewrite ?b_tags_add_tags; cbn [b_tags b_tag];
    rewrite <- ?app_assoc; cbn [app]; rewrite <- ?app_assoc; done.
Qed.
Lemma meta_builder_kind s g at_ : b_kind (meta_builder s g at_) = GROUP_METADATA.
Proof.
  unfold meta_builder. rewrite !b_tags_add_kind.
  destruct (0 <? sn_newcomer_wait s), (negb (str_is_empty (sn_about s)));
    cbn [b_kind b_tag]; by rewrite b_tags_add_kind.
Qed.

Lemma meta_head_fold s g at_ :
  is_u32 (sn_newcomer_wait s) ->
  fold_opt meta_row meta0 (meta_head_rows s g at_) =
  Some (mkMeta (sn_name s) (sn_public s) (negb (sn_public s)) (sn_newcomer_wait s)
          (sn_about s) [] []).
Proof.
  intros Hw. unfold meta_head_rows.
  assert (Hw0 : (0 <? sn_newcomer_wait s) = false -> sn_newcomer_wait s = 0)
    by (intros H; bools; unfold is_u32 in Hw; lia).
  assert (Ha0 : negb (str_is_empty (sn_about s)) = false -> sn_about s = ""%string)
    by (by destruct (sn_about s)).
  unfold visibility_tags.
  destruct (sn_public s), (0 <? sn_newcomer_wait s), (negb (str_is_empty (sn_about s)));
    cbn [app b_tags state_base b_tag builder_new b_at fold_opt];
    rewrite ?tag_custom_spec, tag_identifier_spec; unfold meta_row, meta0; cbn [fold_opt]; str_dec;
    rewrite ?parse_show_u by done; rewrite ?Hw0, ?Ha0 by done; done.
Qed.

Lemma meta_parses s g at_ e :
  snapshot_wf s -> carries (meta_builder s g at_) g e ->
  parse_state e = Some (g, sn_seq s,
    PMetadata (sn_name s) (sn_public s) (sn_newcomer_wait s) (sn_about s)
      (sn_channels s) (sn_overrides s)).
Proof.
  intros Hwf (Hk & _ & Ht & _ & Hp). rewrite meta_builder_kind in Hk.
  rewrite meta_builder_tags in Ht.
  assert (Hb := Ht). unfold meta_head_rows in Hb. rewrite <- !app_assoc in Hb.
  destruct (parse_state_base e g (sn_seq s) at_ GROUP_METADATA _ eq_refl (swf_seq _ Hwf) Hk Hp Hb)
    as [Hg Hs].
  unfold parse_state. rewrite Hg, Hs, Hk, Hp. rewrite bool_decide_true by done.
  cbn -[fold_opt]. rewrite Ht, fold_opt_app, meta_head_fold by apply Hwf.
  rewrite fold_opt_app, meta_rows_channels by apply Hwf.
  rewrite meta_rows_overrides by apply Hwf. cbn. by destruct (sn_public s).
Qed.

Lemma roles_parses s g at_ e :
  snapshot_wf s -> carries (roles_builder s g at_) g e ->
  parse_state e = Some (g, sn_seq s, PRoles (sn_roles s)).
Proof.
  intros Hwf (Hk & _ & Ht & _ & Hp). unfold roles_builder in *.
  rewrite b_tags_add_kind in Hk. rewrite b_tags_add_tags in Ht.
  destruct (parse_state_base e g (sn_seq s) at_ GROUP_ROLES _ eq_refl (swf_seq _ Hwf) Hk Hp Ht)
    as [Hg Hs].
  unfold parse_state. rewrite Hg, Hs, Hk, Hp. rewrite bool_decide_true by done.
  cbn -[fold_opt]. rewrite Ht. cbn [app b_tags state_base b_tag builder_new b_at].
  rewrite tag_identifier_spec, tag_custom_spec. cbn [fold_opt]. unfold roles_row at 1 2. str_dec.
  assert (Hr : forall acc l, Forall role_wf l ->
    fold_opt roles_row acc (map role_tag l) = Some (acc ++ l)).
  { intros acc l Hl. revert acc. induction Hl as [|r l [Hpe Hpo] Hl IH]; intros acc.
    - cbn. by rewrite app_nil_r.
    - cbn [map fold_opt]. unfold role_tag at 1. rewrite tag_custom_spec.
      unfold roles_row at 1. str_dec. rewrite parse_show_u, parse_show_i by done.
      rewrite IH. destruct r. by rewrite <- app_assoc. }
  by rewrite Hr by apply Hwf.
Qed.

Lemma admin_rows_nodup m : NoDup (admin_rows m).*1.
Proof.
  unfold admin_rows. pose proof (map_entries_nodup pk_leb m) as H.
  induction (map_entries pk_leb m) as [|[q r] l IH]; [done|].
  apply NoDup_cons in H as [Hq H]. cbn. destruct (negb _); [|auto].
  cbn. apply NoDup_cons. split; [|auto]. intros Hin. apply Hq.
  apply list_elem_of_fmap in Hin as ([a b] & -> & Hin). apply filter_elem in Hin as [Hin _].
  apply list_elem_of_fmap. by exists (a, b).
Qed.
Lemma admin_rows_elem m p rs : (p, rs) ∈ admin_rows m <-> m !! p = Some rs /\ rs <> ∅.
Proof.
  unfold admin_rows.
  by rewrite filter_elem, map_entries_elem, negb_true_iff, bool_decide_eq_false.
Qed.
Lemma admin_rows_map m : list_to_map (admin_rows m) = filter (fun '(_, rs) => rs <> ∅) m.
Proof.
  apply map_eq. intros p. apply option_eq. intros rs.
  rewrite <- elem_of_list_to_map by apply admin_rows_nodup.
  by rewrite map_lookup_filter_Some, admin_rows_elem.
Qed.

(** The loop over the admin rows: each person gets the roles written. *)
Definition assign (acc : option PublicKey * gmap PublicKey (gset string))
    (row : PublicKey * gset string) : option PublicKey * gmap PublicKey (gset string) :=
  (fst acc, <[fst row := snd row]> (snd acc)).
Lemma foldl_assign l acc : NoDup l.*1 ->
  foldl assign acc l = (fst acc, list_to_map l ∪ snd acc).
Proof.
  intros Hnd. rewrite <- foldl_insert_entries by done. revert acc.
  induction l as [|[p r] l IH]; intros [a b]; [done|]. cbn. apply NoDup_cons in Hnd as [_ Hnd].
  by rewrite IH.
Qed.
Lemma admin_row_reads acc p rs :
  OWNER_MARK ∉ rs ->
  admins_row acc (tag_custom "p" (pk_to_hex p :: role_list rs)) = Some (assign acc (p, rs)).
Proof.
  intros Hm. rewrite tag_custom_spec. unfold admins_row. str_dec. rewrite pk_hex.
  destruct (existsb _ _) eqn:E.
  - apply existsb_elem in E as (x & Hx & Hb). apply bool_decide_eq_true in Hb as ->.
    unfold role_list in Hx. by apply set_entries_elem in Hx.
  - unfold role_list. by rewrite set_entries_collect.
Qed.

Lemma admins_parses s g at_ e :
  snapshot_wf s -> carries (admins_builder s g at_) g e ->
  parse_state e = Some (g, sn_seq s,
    PAdmins (sn_owner s) (filter (fun '(_, rs) => rs <> ∅) (sn_members s))).
Proof.
  intros Hwf (Hk & _ & Ht & _ & Hp). unfold admins_builder in *.
  rewrite b_tags_add_kind in Hk. rewrite b_tags_add_tags in Ht.
  set (own := match sn_owner s with Some o => [tag_custom "p" [pk_to_hex o; OWNER_MARK]]
                                | None => [] end).
  assert (Hb : ev_tags e = b_tags (state_base g (sn_seq s) at_ GROUP_ADMINS) ++ own ++
    map (fun '(p, roles) => tag_custom "p" (pk_to_hex p :: role_list roles))
      (admin_rows (sn_members s))).
  { rewrite Ht. unfold own. destruct (sn_owner s); cbn [b_tags b_tag]; by rewrite <- ?app_assoc. }
  assert (Hk' : ev_kind e = GROUP_ADMINS) by (rewrite Hk; by destruct (sn_owner s)).
  destruct (parse_state_base e g (sn_seq s) at_ GROUP_ADMINS _ eq_refl (swf_seq _ Hwf) Hk' Hp Hb)
    as [Hg Hs].
  unfold parse_state. rewrite Hg, Hs, Hk', Hp. rewrite bool_decide_true by done.
  cbn -[fold_opt]. rewrite Hb, fold_opt_app.
  assert (fold_opt admins_row (None, ∅) (b_tags (state_base g (sn_seq s) at_ GROUP_ADMINS))
          = Some (None, ∅)) as ->.
  { cbn [b_tags state_base b_tag builder_new b_at app].
    rewrite tag_identifier_spec, tag_custom_spec. cbn [fold_opt]. unfold admins_row. by str_dec. }
  rewrite fold_opt_app.
  assert (fold_opt admins_row (None, ∅) own = Some (sn_owner s, ∅)) as ->.
  { unfold own. destruct (sn_owner s) as [o|]; [|done]. cbn [fold_opt].
    rewrite tag_custom_spec. unfold admins_row. str_dec. rewrite pk_hex.
    cbn [existsb]. unfold OWNER_MARK. by str_dec. }
  rewrite (fold_opt_map _ assign).
  - rewrite foldl_assign, admin_rows_map by apply admin_rows_nodup. cbn.
    by rewrite (right_id_L ∅ (∪)).
  - intros acc [p rs] Hin. apply admin_rows_elem in Hin as [Hin _].
    apply admin_row_reads. exact (swf_marks _ Hwf _ _ Hin).
Qed.

(** The loop over a [39002]'s rows, one kind of row at a time. *)
Lemma members_rows_p acc (l : list (PublicKey * gset string)) :
  fold_opt members_row acc (map (fun '(p, _) => tag_custom "p" [pk_to_hex p]) l) =
  Some (list_to_set l.*1 ∪ fst (fst acc), snd (fst acc), snd acc).
Proof.
  revert acc. induction l as [|[p r] l IH]; intros [[a b] c]; cbn [map fold_opt].
  - cbn. by rewrite (left_id_L ∅ (∪)).
  - rewrite tag_custom_spec. unfold members_row at 1. str_dec. rewrite pk_hex, IH. cbn.
    f_equal. f_equal. f_equal. set_solver.
Qed.
Lemma members_rows_ban acc (l : list PublicKey) :
  fold_opt members_row acc (map (fun p => tag_custom "ban" [pk_to_hex p]) l) =
  Some (fst (fst acc), list_to_set l ∪ snd (fst acc), snd acc).
Proof.
  revert acc. induction l as [|p l IH]; intros [[a b] c]; cbn [map fold_opt].
  - cbn. by rewrite (left_id_L ∅ (∪)).
  - rewrite tag_custom_spec. unfold members_row at 1. str_dec. rewrite pk_hex, IH. cbn.
    f_equal. f_equal. f_equal. set_solver.
Qed.
Lemma members_rows_mute acc (l : list (PublicKey * Timestamp)) :
  Forall (fun pu => is_u64 (snd pu)) l ->
  fold_opt members_row acc (map (fun '(p, u) => tag_custom "mute" [pk_to_hex p; show_u u]) l) =
  Some (fst acc, foldl (fun m kv => <[fst kv := snd kv]> m) (snd acc) l).
Proof.
  intros Hl. revert acc.
  induction Hl as [|[p u] l Hu Hl IH]; intros [[a b] c]; cbn [map fold_opt]; [done|].
  rewrite tag_custom_spec. unfold members_row at 1. str_dec.
  rewrite pk_hex, parse_show_u, IH by done. done.
Qed.

Lemma members_parses s g at_ e :
  snapshot_wf s -> carries (members_builder s g at_) g e ->
  parse_state e = Some (g, sn_seq s, PMembers (dom (sn_members s)) (sn_bans s) (sn_mutes s)).
Proof.
  intros Hwf (Hk & _ & Ht & _ & Hp). unfold members_builder in *.
  rewrite !b_tags_add_kind in Hk. rewrite !b_tags_add_tags, <- !app_assoc in Ht.
  destruct (parse_state_base e g (sn_seq s) at_ GROUP_MEMBERS _ eq_refl (swf_seq _ Hwf) Hk Hp Ht)
    as [Hg Hs].
  unfold parse_state. rewrite Hg, Hs, Hk, Hp. rewrite bool_decide_true by done.
  cbn -[fold_opt]. rewrite Ht, fold_opt_app.
  assert (fold_opt members_row (∅, ∅, ∅) (b_tags (state_base g (sn_seq s) at_ GROUP_MEMBERS))
          = Some (∅, ∅, ∅)) as ->.
  { cbn [b_tags state_base b_tag builder_new b_at app].
    rewrite tag_identifier_spec, tag_custom_spec. cbn [fold_opt]. unfold members_row. by str_dec. }
  rewrite fold_opt_app, members_rows_p, fold_opt_app, members_rows_ban, members_rows_mute.
  - cbn. rewrite foldl_insert_entries by apply map_entries_nodup.
    rewrite map_entries_collect, set_entries_collect, !(right_id_L ∅ (∪)).
    f_equal. f_equal. f_equal. apply set_eq. intros p.
    rewrite elem_of_list_to_set, list_elem_of_fmap, elem_of_dom. split.
    + intros ([q r] & -> & Hin). apply map_entries_elem in Hin. by exists r.
    + intros [r Hr]. exists (p, r). by rewrite map_entries_elem.
  - apply Forall_forall. intros [p u] Hin. apply map_entries_elem in Hin.
    exact (swf_mutes _ Hwf _ _ Hin).
Qed.
End Facts.
