(* ===== verification/Replace.v ===== *)
(** Which event replaces which ([crates/hit-event/src/replace.rs]): the slot
    an event lives in, and the order that decides a slot.  The theorem here is
    that [replaces] is a strict total order on the events of a kind, so "the
    newest" is one event whatever order events arrive in. *)
From S2P Require Import Prelude Text Nostr GroupEvent.

#[local] Open Scope Z_scope.

(** [binding::DEVICE_BINDING] and [binding::is_revoked]. *)
Definition DEVICE_BINDING : Kind := 30436.

Inductive Slot :=
| Regular
| Replaceable
| Addressable (d : string)
| Ephemeral.
#[export] Instance slot_eq_dec : EqDecision Slot.
Proof. solve_decision. Defined.

Section Replace.
Context {N : NostrTypes} {O : NostrOps}.

Definition is_revoked (e : Event) : bool :=
  existsb (fun t => bool_decide (tag_kind t = "revoked"%string)) (ev_tags e).

Definition slot (e : Event) : Slot :=
  let k := ev_kind e in
  if (k =? 0) || (k =? 3) || ((10000 <=? k) && (k <? 20000)) then Replaceable
  else if (20000 <=? k) && (k <? 30000) then Ephemeral
  else if (30000 <=? k) && (k <? 40000) then
    Addressable (opt_get ""%string (tags_identifier (ev_tags e)))
  else Regular.

(** [Option<u64>]'s [>]: [None] is below every number. *)
Definition opt_gt (a b : option Z) : bool :=
  match a, b with
  | Some x, Some y => y <? x
  | Some _, None => true
  | None, _ => false
  end.

(** The comparison of [replaces] once [seq] does not decide. *)
Definition replaces_by_time (new current : Event) : bool :=
  if negb (ev_created_at new =? ev_created_at current)
  then ev_created_at current <? ev_created_at new
  else if (ev_kind new =? DEVICE_BINDING) && (ev_kind current =? DEVICE_BINDING) then
    match is_revoked new, is_revoked current with
    | true, false => true
    | false, true => false
    | _, _ => id_ltb (ev_id new) (ev_id current)
    end
  else id_ltb (ev_id new) (ev_id current).

Definition replaces (new current : Event) : bool :=
  if kind_in (ev_kind new) STATE_KINDS && (ev_kind new =? ev_kind current) then
    if negb (bool_decide (seq_of new = seq_of current)) then opt_gt (seq_of new) (seq_of current)
    else replaces_by_time new current
  else replaces_by_time new current.

(** ** [replaces] is a strict total order on the events of a kind *)

Lemma opt_gt_total a b : a <> b -> opt_gt a b = negb (opt_gt b a).
Proof.
  destruct a as [x|], b as [y|]; cbn; try done. intros H.
  destruct (y <? x) eqn:E, (x <? y) eqn:F; bools; try lia; try done.
  destruct H. f_equal. lia.
Qed.
Lemma opt_gt_trans a b c : opt_gt a b = true -> opt_gt b c = true -> opt_gt a c = true.
Proof.
  destruct a as [x|], b as [y|], c as [z|]; cbn; try done. intros. bools.
  apply Z.ltb_lt. lia.
Qed.
Lemma opt_gt_irrefl a : opt_gt a a = false.
Proof. destruct a; [apply Z.ltb_irrefl|done]. Qed.

Context {L : NostrLaws}.

Lemma by_time_irrefl e : replaces_by_time e e = false.
Proof.
  unfold replaces_by_time. rewrite Z.eqb_refl, id_ltb_irrefl. cbn.
  destruct (_ && _), (is_revoked e); done.
Qed.
Lemma by_time_total a b :
  ev_kind a = ev_kind b -> ev_id a <> ev_id b ->
  replaces_by_time a b = negb (replaces_by_time b a).
Proof.
  intros Hk Hi. unfold replaces_by_time. rewrite Hk, (Z.eqb_sym (ev_created_at b)).
  pose proof (id_ltb_total _ _ Hi) as Ht.
  destruct (negb (ev_created_at a =? ev_created_at b)) eqn:E; bools.
  - destruct (ev_created_at b <? ev_created_at a) eqn:F,
      (ev_created_at a <? ev_created_at b) eqn:G; bools; try done; lia.
  - destruct (_ && _); [|done]. destruct (is_revoked a), (is_revoked b); done.
Qed.
Lemma by_time_trans a b c :
  ev_kind a = ev_kind b -> ev_kind b = ev_kind c ->
  replaces_by_time a b = true -> replaces_by_time b c = true -> replaces_by_time a c = true.
Proof.
  intros Hk1 Hk2. unfold replaces_by_time. rewrite Hk1, Hk2. intros H1 H2.
  destruct (negb (ev_created_at a =? ev_created_at b)) eqn:E1,
    (negb (ev_created_at b =? ev_created_at c)) eqn:E2,
    (negb (ev_created_at a =? ev_created_at c)) eqn:E3; bools;
    try (apply Z.ltb_lt; lia); try lia.
  destruct (_ && _).
  - destruct (is_revoked a), (is_revoked b), (is_revoked c); try done; by eapply id_ltb_trans.
  - by eapply id_ltb_trans.
Qed.

Lemma replaces_irrefl e : replaces e e = false.
Proof.
  unfold replaces. rewrite bool_decide_true by done. cbn. by destruct (_ && _); apply by_time_irrefl.
Qed.
Lemma replaces_total a b :
  ev_kind a = ev_kind b -> ev_id a <> ev_id b -> replaces a b = negb (replaces b a).
Proof.
  intros Hk Hi. unfold replaces. rewrite Hk, Z.eqb_refl. destruct (kind_in _ _); cbn [andb].
  - destruct (decide (seq_of a = seq_of b)) as [->|Hs].
    + rewrite bool_decide_true by done. cbn. by apply by_time_total.
    + rewrite !bool_decide_false by congruence. cbn. by apply opt_gt_total.
  - by apply by_time_total.
Qed.
Lemma replaces_trans a b c :
  ev_kind a = ev_kind b -> ev_kind b = ev_kind c ->
  replaces a b = true -> replaces b c = true -> replaces a c = true.
Proof.
  intros Hk1 Hk2. unfold replaces. rewrite Hk1, Hk2, !Z.eqb_refl.
  destruct (kind_in _ _); cbn [andb]; [|by apply by_time_trans].
  destruct (decide (seq_of a = seq_of b)) as [E1|E1];
    [rewrite (bool_decide_true (seq_of a = _)) by done
    |rewrite (bool_decide_false (seq_of a = seq_of b)) by done];
    (destruct (decide (seq_of b = seq_of c)) as [E2|E2];
    [rewrite (bool_decide_true (seq_of b = _)) by done
    |rewrite (bool_decide_false (seq_of b = _)) by done]); cbn [negb]; intros H1 H2.
  - rewrite bool_decide_true by congruence. by eapply by_time_trans.
  - rewrite bool_decide_false by congruence. cbn. by rewrite E1.
  - rewrite bool_decide_false by congruence. cbn. by rewrite <- E2.
  - assert (H := opt_gt_trans _ _ _ H1 H2).
    rewrite bool_decide_false; [done|]. intros E. rewrite E, opt_gt_irrefl in H. done.
Qed.

(** An id is one event's: what a content hash gives. *)
Definition ids_identify (l : list Event) : Prop :=
  forall a b, a ∈ l -> b ∈ l -> ev_id a = ev_id b -> a = b.

Lemma replaces_strict_total l kind :
  ids_identify l -> (forall e, e ∈ l -> ev_kind e = kind) -> strict_total replaces l.
Proof.
  intros Hid Hk. split.
  - intros. apply replaces_irrefl.
  - intros a b c Ha Hb Hc. apply replaces_trans; rewrite !Hk; done.
  - intros a b Ha Hb Hne. rewrite (replaces_total a b).
    + destruct (replaces b a); auto.
    + by rewrite !Hk.
    + intros E. apply Hne. by apply Hid.
Qed.

(** Among the events of one kind, [replaces] picks one newest event, and
    the same one whatever order they are taken in: the node's store, its
    binding book and the fold agree. *)
Theorem replaces_decides kind l1 l2 :
  ids_identify l1 -> (forall e, e ∈ l1 -> ev_kind e = kind) -> l1 ≡ₚ l2 ->
  best replaces l1 = best replaces l2 /\
  (l1 <> [] -> exists m, best replaces l1 = Some m /\ m ∈ l1 /\
     forall e, e ∈ l1 -> e <> m -> replaces m e = true /\ replaces e m = false).
Proof.
  intros Hid Hk Hp. pose proof (replaces_strict_total _ _ Hid Hk) as Hs. split.
  - by apply best_perm.
  - intros Hne. destruct (best_spec _ _ Hs Hne) as (m & Hm & Hin & Hb).
    exists m. repeat split; try done; [by apply Hb|].
    rewrite replaces_total.
    + by rewrite Hb.
    + by rewrite !Hk.
    + intros E. destruct (Hid e m); done.
Qed.
End Replace.
