(* ===== verification/Zap.v ===== *)
(** Zaps ([crates/hit-event/src/zap.rs]): bech32 and the bolt11 fields a
    receipt is checked against, NIP-57's checks of a receipt, and the carrier
    that brings one into a group. *)
From S2P Require Import Prelude Text Nostr GroupEvent.

#[local] Open Scope Z_scope.

Definition ZAP_REQUEST : Kind := 9734.
Definition ZAP_RECEIPT : Kind := 9735.
Definition MAX_RECEIPT_BYTES : Z := 16 * 1024.
Definition MAX_COMMENT : Z := 280.
Definition SIGNATURE_WORDS : nat := 104.

Inductive ZapError :=
| NotAReceipt | BadSignature | BadRequest | BadInvoiceE | WrongAmount | Mismatch | ZTooLarge.
#[export] Instance zap_error_eq_dec : EqDecision ZapError.
Proof. solve_decision. Defined.

(** ** Bech32 without the length limit *)
Module Bech32.
Definition CHARSET : list Z := bytes_of "qpzry9x8gf2tvdw0s3jn54khce6mua7l".
Definition GEN : list Z := [0x3b6a57b2; 0x26508e6d; 0x1ea119fa; 0x3d4233dd; 0x2a1462b3].

Fixpoint xor_gens (b : Z) (i : Z) (gens : list Z) (chk : Z) : Z :=
  match gens with
  | [] => chk
  | g :: rest =>
      xor_gens b (i + 1) rest
        (if Z.land (Z.shiftr b i) 1 =? 1 then Z.lxor chk g else chk)
  end.
Definition polymod_step (chk v : Z) : Z :=
  let b := Z.shiftr chk 25 in
  xor_gens b 0 GEN (Z.lxor (Z.shiftl (Z.land chk 0x01ffffff) 5) v).
Definition polymod (values : list Z) : Z := foldl polymod_step 1 values.

Definition hrp_expand (hrp : string) : list Z :=
  map (fun b => Z.shiftr b 5) (bytes_of hrp) ++ 0 :: map (fun b => Z.land b 31) (bytes_of hrp).

(** [[u8]::iter().position]. *)
Fixpoint position (l : list Z) (c : Z) : option Z :=
  match l with
  | [] => None
  | x :: t => if x =? c then Some 0 else option_map Z.succ (position t c)
  end.
Definition all_some {A} (l : list (option A)) : option (list A) :=
  foldr (fun o acc => let! x := o in let! xs := acc in Some (x :: xs)) (Some []) l.

(** [str::rfind('1')], as what stands before and after it. *)
Fixpoint rsplit_one (l : list Z) : option (list Z * list Z) :=
  match l with
  | [] => None
  | b :: t =>
      match rsplit_one t with
      | Some (x, y) => Some (b :: x, y)
      | None => if b =? 49 then Some ([], t) else None
      end
  end.

Definition decode (s : string) : option (string * list Z) :=
  let! hd := rsplit_one (bytes_of s) in
  let '(hrp, data) := hd in
  if (match hrp with [] => true | _ => false end) || (Z.of_nat (length data) <? 6)
     || negb (forallb (fun b => (33 <=? b) && (b <=? 126)) hrp)
  then None
  else
    let! words := all_some (map (position CHARSET) data) in
    if negb (polymod (hrp_expand (str_of_bytes hrp) ++ words) =? 1) then None
    else Some (str_of_bytes hrp, take (length words - 6) words).

Definition checksum (chk : Z) : list Z :=
  map (fun i => Z.land (Z.shiftr chk (5 * (5 - i))) 31) [0; 1; 2; 3; 4; 5].
Definition char_of (w : Z) : Z := opt_get 0 (CHARSET !! Z.to_nat w).
Definition encode (hrp : string) (words : list Z) : string :=
  let chk := Z.lxor (polymod (hrp_expand hrp ++ words ++ [0; 0; 0; 0; 0; 0])) 1 in
  hrp +:+ "1" +:+ str_of_bytes (map char_of (words ++ checksum chk)).
End Bech32.

(** ** 5-bit words and bytes *)
Fixpoint to_bytes_go (acc bits : Z) (words : list Z) : list Z :=
  match words with
  | [] => []
  | w :: rest =>
      let acc := Z.lor (Z.shiftl acc 5) w in
      let bits := bits + 5 in
      if 8 <=? bits then
        let bits := bits - 8 in
        Z.land (Z.shiftr acc bits) 255
        :: to_bytes_go (Z.land acc (Z.shiftl 1 bits - 1)) bits rest
      else to_bytes_go acc bits rest
  end.
Definition to_bytes (words : list Z) : list Z := to_bytes_go 0 0 words.

(** The inner [while bits >= 5]: at most two rounds, a byte in under 5 bits. *)
Fixpoint emit_words (fuel : nat) (acc bits : Z) : list Z * Z :=
  match fuel with
  | O => ([], bits)
  | S f =>
      if 5 <=? bits then
        let bits := bits - 5 in
        let '(out, b) := emit_words f acc bits in
        (Z.land (Z.shiftr acc bits) 31 :: out, b)
      else ([], bits)
  end.
Fixpoint to_words_go (acc bits : Z) (bytes : list Z) : list Z :=
  match bytes with
  | [] => if 0 <? bits then [Z.land (Z.shiftl acc (5 - bits)) 31] else []
  | b :: rest =>
      let acc := Z.lor (Z.shiftl acc 8) b in
      let '(out, bits) := emit_words 3 acc (bits + 8) in
      out ++ to_words_go (Z.land acc (Z.shiftl 1 bits - 1)) bits rest
  end.
Definition to_words (bytes : list Z) : list Z := to_words_go 0 0 bytes.

Definition lnurl_encode (url : string) : string :=
  to_ascii_uppercase (Bech32.encode "lnurl" (to_words (bytes_of url))).
Definition lnurl_decode (lnurl : string) : option string :=
  let! hw := Bech32.decode (to_ascii_lowercase (trim lnurl)) in
  let '(hrp, words) := hw in
  if bool_decide (hrp = "lnurl"%string) then from_utf8 (to_bytes words) else None.

(** ** Amounts *)
Definition checked_mul (n m : Z) : option Z := if n * m <=? U64_MAX then Some (n * m) else None.

Fixpoint split_last (s : string) : option (string * ascii) :=
  match s with
  | EmptyString => None
  | String c t => match split_last t with
                  | Some (i, l) => Some (String c i, l)
                  | None => Some (EmptyString, c)
                  end
  end.
Definition is_mult (c : ascii) : bool :=
  existsb (fun m => bool_decide (m = c)) ["m"%char; "u"%char; "n"%char; "p"%char].
Definition starts_with_zero (s : string) : bool :=
  match s with String c _ => bool_decide (c = "0"%char) | _ => false end.

(** [None] is [Err(BadInvoice)], the one error there is. *)
Definition parse_amount (a : string) : option Z :=
  let '(ds, mult) :=
    match split_last a with
    | Some (i, c) => if is_mult c then (i, Some c) else (a, None)
    | None => (a, None)
    end in
  if str_is_empty ds || starts_with_zero ds || negb (all_bytes is_digit ds) then None
  else
    let! n := parse_u64 ds in
    match mult with
    | None => checked_mul n 100000000000
    | Some c =>
        if bool_decide (c = "m"%char) then checked_mul n 100000000
        else if bool_decide (c = "u"%char) then checked_mul n 100000
        else if bool_decide (c = "n"%char) then checked_mul n 100
        else if n mod 10 =? 0 then Some (n / 10) else None
    end.

(** [msat * 10] in a [u64] (a debug build panics where this wraps). *)
Definition format_amount (msat : Z) : string :=
  if msat mod 100000000 =? 0 then show_u (msat / 100000000) +:+ "m"
  else if msat mod 100000 =? 0 then show_u (msat / 100000) +:+ "u"
  else if msat mod 100 =? 0 then show_u (msat / 100) +:+ "n"
  else show_u ((msat * 10) mod (U64_MAX + 1)) +:+ "p".

(** ** Invoices *)
Record Invoice := mkInvoice {
  inv_currency : string;
  inv_amount_msat : option Z;
  inv_timestamp : Z;
  inv_payment_hash : option (list Z);
  inv_description_hash : option (list Z);
  inv_description : option string;
  inv_expiry : Z;
}.

(** [fold(0u64, |a, w| (a << 5) | w)]: the shift drops what leaves 64 bits. *)
Definition be_words (ws : list Z) : Z :=
  foldl (fun a w => Z.lor (Z.land (Z.shiftl a 5) U64_MAX) w) 0 ws.

Definition hash32 (field : list Z) : option (list Z) :=
  let b := to_bytes field in if Nat.eqb (length b) 32 then Some b else None.

Definition set_field (inv : Invoice) (kind : Z) (field : list Z) : Invoice :=
  let '(mkInvoice cur amt ts ph dh desc exp) := inv in
  if (kind =? 1) && (Nat.eqb (length field) 52)
  then mkInvoice cur amt ts (hash32 field) dh desc exp
  else if (kind =? 23) && (Nat.eqb (length field) 52)
  then mkInvoice cur amt ts ph (hash32 field) desc exp
  else if kind =? 13 then mkInvoice cur amt ts ph dh (from_utf8 (to_bytes field)) exp
  else if kind =? 6 then mkInvoice cur amt ts ph dh desc (be_words field)
  else inv.

(** The tagged fields: a kind, two words of length, the field. *)
Fixpoint decode_fields (fuel : nat) (data : list Z) (inv : Invoice) : option Invoice :=
  match data with
  | [] => Some inv
  | kind :: a :: b :: rest =>
      match fuel with
      | O => None
      | S f =>
          let len := Z.to_nat (Z.lor (Z.shiftl a 5) b) in
          if Nat.ltb (length rest) len then None
          else decode_fields f (drop len rest) (set_field inv kind (take len rest))
      end
  | _ => None
  end.

Fixpoint split_first_digit (s : string) : string * string :=
  match s with
  | EmptyString => (EmptyString, EmptyString)
  | String c t => if is_digit c then (EmptyString, s)
                  else let '(x, y) := split_first_digit t in (String c x, y)
  end.

Definition Invoice_decode (s : string) : option Invoice :=
  let lower := to_ascii_lowercase (trim s) in
  let lower := opt_get lower (strip_prefix "lightning:" lower) in
  let! hw := Bech32.decode lower in
  let '(hrp, words) := hw in
  let! rest := strip_prefix "ln" hrp in
  let '(currency, amount) := split_first_digit rest in
  if str_is_empty currency then None
  else
    let! amount_msat :=
      if str_is_empty amount then Some None
      else let! a := parse_amount amount in Some (Some a) in
    if Nat.ltb (length words) (7 + SIGNATURE_WORDS) then None
    else
      let data := take (length words - SIGNATURE_WORDS) words in
      let inv := mkInvoice currency amount_msat (be_words (take 7 data)) None None None 3600 in
      decode_fields (length data) (drop 7 data) inv.

(** ** Receipts *)
Section Zap.
Context {N : NostrTypes} {O : NostrOps}.

Record Zap := mkZap {
  z_receipt : EventId;
  z_request : EventId;
  z_provider : PublicKey;
  z_recipient : PublicKey;
  z_target : EventId;
  z_sender : option PublicKey;
  z_amount_msat : Z;
  z_comment : string;
  z_paid_at : Timestamp;
}.

(** [zap::single]: the first value of a tag. *)
Definition single (e : Event) (name : string) : option string := first_value e name.
Definition single_pk (e : Event) (name : string) : option PublicKey :=
  let! v := single e name in pk_from_hex v.
Definition single_id (e : Event) (name : string) : option EventId :=
  let! v := single e name in id_from_hex v.

(** [chars().take(n).collect()]. *)
Definition take_chars (n : Z) (s : string) : string := concat_str (take (Z.to_nat n) (chars s)).

Definition check_receipt (receipt : Event) : result ZapError Zap :=
  guard ev_kind receipt =? ZAP_RECEIPT else NotAReceipt in
  guard ev_verify receipt else BadSignature in
  let? description := ok_or (single receipt "description") BadRequest in
  let? request := ok_or (ev_from_json description) BadRequest in
  guard (ev_kind request =? ZAP_REQUEST) && ev_verify request else BadRequest in
  let? invoice := ok_or (let! b := single receipt "bolt11" in Invoice_decode b) BadInvoiceE in
  let? asked := ok_or (let! a := single request "amount" in parse_u64 a) BadRequest in
  guard bool_decide (inv_amount_msat invoice = Some asked) else WrongAmount in
  let? recipient := ok_or (single_pk request "p") BadRequest in
  let? target := ok_or (single_id request "e") BadRequest in
  guard bool_decide (single_pk receipt "p" = Some recipient)
        && bool_decide (single_id receipt "e" = Some target) else Mismatch in
  let anon := existsb (fun t => match t with n :: _ => bool_decide (n = "anon"%string)
                                        | [] => false end) (ev_tags request) in
  Ok (mkZap (ev_id receipt) (ev_id request) (ev_pubkey receipt) recipient target
        (if anon then None else Some (ev_pubkey request)) asked
        (take_chars MAX_COMMENT (ev_content request)) (ev_created_at receipt)).

Definition carried (e : Event) : result ZapError Zap :=
  guard ev_kind e =? ZAP_CARRIER else NotAReceipt in
  guard str_len (ev_content e) <=? MAX_RECEIPT_BYTES else ZTooLarge in
  let? receipt := ok_or (ev_from_json (ev_content e)) NotAReceipt in
  let? zap := check_receipt receipt in
  guard bool_decide (single_id e "e" = Some (z_target zap))
        && bool_decide (single_pk e "p" = Some (z_recipient zap)) else Mismatch in
  Ok zap.

(** The caller signs the request; [anon] with a throwaway key. *)
Definition request (tag_pk : PublicKey -> Tag) (tag_ev : EventId -> Tag) (recipient : PublicKey)
    (target : EventId) (amount_msat : Z) (relays : list string) (lnurl comment : string)
    (anon : bool) : EventBuilder :=
  let b := b_tags_add (builder_new ZAP_REQUEST (take_chars MAX_COMMENT comment))
    [tag_custom "relays" relays; tag_custom "amount" [show_u amount_msat];
     tag_custom "lnurl" [lnurl]; tag_pk recipient; tag_ev target] in
  if anon then b_tag b (tag_custom "anon" []) else b.
Definition carrier (tag_pk : PublicKey -> Tag) (tag_ev : EventId -> Tag) (group : PublicKey)
    (channel : string) (receipt : Event) (zap : Zap) : EventBuilder :=
  b_tags_add (builder_new ZAP_CARRIER (ev_as_json receipt))
    [tag_custom "h" [pk_to_hex group]; tag_custom "channel" [channel];
     tag_ev (z_target zap); tag_pk (z_recipient zap); tag_custom "k" [show_u ZAP_RECEIPT]].
End Zap.

(** BOLT 11's own test vector. *)
Definition coffee : string :=
  "lnbc2500u1pvjluezsp5zyg3zyg3zyg3zyg3zyg3zyg3zyg3zyg3zyg3zyg3zyg3zyg3zygspp5qqqsyqcyq5rqwzqfqqqsyqcyq5rqwzqfqqqsyqcyq5rqwzqfqypqdq5xysxxatsyp3k7enxv4jsxqzpu9qrsgquk0rl77nj30yxdy8j9vdx85fkpmdla2087ne0xh8nhedh8w27kyke0lp53ut353s06fv3qfegext0eh0ymjpf39tuven09sam30g4vgpfna3rh".
