(* ===== verification/GroupState.v ===== *)
(** One group's state ([GroupState] of [crates/hit-group/src/state.rs]) and
    every question asked of it: permissions, ranks, silences, and what a
    message, a reaction, a reader may do.  [Fold] is how the state comes to be. *)
From S2P Require Import Prelude Text Nostr GroupEvent Replace Perm Zap.

#[local] Open Scope Z_scope.

(** Why a peer or an event was refused ([hit_group::Refusal]). *)
Inductive Refusal :=
| NotAMember | AlreadyAMember | KindNotCarried (kind : Z) | GroupNotCarried | NoState
| NotSignedByGroup | Malformed | NoSuchChannel | Lacks (needed : Z) | TheOwner | NotTheOwner
| Outranked | CannotGrant | UnknownRole | NoSuchInvite | Folded | NotApplied | FromTheFuture
| Stale | Banned | NotBanned | Muted | NotMuted | BadEdit | TooSoon (secs : Z)
| Newcomer (secs : Z) | NotOurs | TooLarge.
#[export] Instance refusal_eq_dec : EqDecision Refusal.
Proof. solve_decision. Defined.

(** [Rank::FLOOR]. *)
Definition RANK_FLOOR : Z := I64_MIN.
Definition MAX_LABEL : Z := 64.

Section GroupState.
Context {N : NostrTypes} {O : NostrOps}.

(** ** State *)
Record Silence := mkSilence {
  s_who : PublicKey;
  s_from : Timestamp;
  s_until : option Timestamp;
  s_mute : bool;
}.
#[global] Instance silence_eq_dec : EqDecision Silence.
Proof. solve_decision. Defined.

Definition covers (s : Silence) (t : Timestamp) : bool :=
  (s_from s <=? t) && is_none_or (s_until s) (fun u => t <? u).

Record InviteCred := mkInvite {
  i_author : PublicKey;
  i_created_at : Timestamp;
  i_expires : option Timestamp;
}.

Record GroupState := mkState {
  gs_id : PublicKey;
  gs_seq : Z;
  gs_cutoff : Timestamp;
  gs_name : string;
  gs_public : bool;
  gs_newcomer_wait : Z;
  gs_about : string;
  gs_joined : gmap PublicKey Timestamp;
  gs_owner : option PublicKey;
  gs_named_owner : option PublicKey;
  gs_channels : list Channel;
  gs_overrides : list Override;
  gs_roles : gmap string RoleDef;
  gs_members : gmap PublicKey (gset string);
  gs_invites : gmap string (list InviteCred);
  gs_applied : gset EventId;
  gs_bans : gset PublicKey;
  gs_mutes : gmap PublicKey Timestamp;
  gs_silences : list Silence;
}.

(** Assignment to one field. *)
Definition set_name (v : string) (s : GroupState) : GroupState :=
  mkState (gs_id s) (gs_seq s) (gs_cutoff s) v (gs_public s) (gs_newcomer_wait s) (gs_about s)
    (gs_joined s) (gs_owner s) (gs_named_owner s) (gs_channels s) (gs_overrides s) (gs_roles
    s) (gs_members s) (gs_invites s) (gs_applied s) (gs_bans s) (gs_mutes s) (gs_silences s).
Definition set_public (v : bool) (s : GroupState) : GroupState :=
  mkState (gs_id s) (gs_seq s) (gs_cutoff s) (gs_name s) v (gs_newcomer_wait s) (gs_about s)
    (gs_joined s) (gs_owner s) (gs_named_owner s) (gs_channels s) (gs_overrides s) (gs_roles
    s) (gs_members s) (gs_invites s) (gs_applied s) (gs_bans s) (gs_mutes s) (gs_silences s).
Definition set_newcomer_wait (v : Z) (s : GroupState) : GroupState :=
  mkState (gs_id s) (gs_seq s) (gs_cutoff s) (gs_name s) (gs_public s) v (gs_about s)
    (gs_joined s) (gs_owner s) (gs_named_owner s) (gs_channels s) (gs_overrides s) (gs_roles
    s) (gs_members s) (gs_invites s) (gs_applied s) (gs_bans s) (gs_mutes s) (gs_silences s).
Definition set_about (v : string) (s : GroupState) : GroupState :=
  mkState (gs_id s) (gs_seq s) (gs_cutoff s) (gs_name s) (gs_public s) (gs_newcomer_wait s) v
    (gs_joined s) (gs_owner s) (gs_named_owner s) (gs_channels s) (gs_overrides s) (gs_roles
    s) (gs_members s) (gs_invites s) (gs_applied s) (gs_bans s) (gs_mutes s) (gs_silences s).
Definition set_joined (v : gmap PublicKey Timestamp) (s : GroupState) : GroupState :=
  mkState (gs_id s) (gs_seq s) (gs_cutoff s) (gs_name s) (gs_public s) (gs_newcomer_wait s)
    (gs_about s) v (gs_owner s) (gs_named_owner s) (gs_channels s) (gs_overrides s) (gs_roles
    s) (gs_members s) (gs_invites s) (gs_applied s) (gs_bans s) (gs_mutes s) (gs_silences s).
Definition set_owner (v : option PublicKey) (s : GroupState) : GroupState :=
  mkState (gs_id s) (gs_seq s) (gs_cutoff s) (gs_name s) (gs_public s) (gs_newcomer_wait s)
    (gs_about s) (gs_joined s) v (gs_named_owner s) (gs_channels s) (gs_overrides s) (gs_roles
    s) (gs_members s) (gs_invites s) (gs_applied s) (gs_bans s) (gs_mutes s) (gs_silences s).
Definition set_channels (v : list Channel) (s : GroupState) : GroupState :=
  mkState (gs_id s) (gs_seq s) (gs_cutoff s) (gs_name s) (gs_public s) (gs_newcomer_wait s)
    (gs_about s) (gs_joined s) (gs_owner s) (gs_named_owner s) v (gs_overrides s) (gs_roles s)
    (gs_members s) (gs_invites s) (gs_applied s) (gs_bans s) (gs_mutes s) (gs_silences s).
Definition set_overrides (v : list Override) (s : GroupState) : GroupState :=
  mkState (gs_id s) (gs_seq s) (gs_cutoff s) (gs_name s) (gs_public s) (gs_newcomer_wait s)
    (gs_about s) (gs_joined s) (gs_owner s) (gs_named_owner s) (gs_channels s) v (gs_roles s)
    (gs_members s) (gs_invites s) (gs_applied s) (gs_bans s) (gs_mutes s) (gs_silences s).
Definition set_roles (v : gmap string RoleDef) (s : GroupState) : GroupState :=
  mkState (gs_id s) (gs_seq s) (gs_cutoff s) (gs_name s) (gs_public s) (gs_newcomer_wait s)
    (gs_about s) (gs_joined s) (gs_owner s) (gs_named_owner s) (gs_channels s) (gs_overrides
    s) v (gs_members s) (gs_invites s) (gs_applied s) (gs_bans s) (gs_mutes s) (gs_silences s).
Definition set_members (v : gmap PublicKey (gset string)) (s : GroupState) : GroupState :=
  mkState (gs_id s) (gs_seq s) (gs_cutoff s) (gs_name s) (gs_public s) (gs_newcomer_wait s)
    (gs_about s) (gs_joined s) (gs_owner s) (gs_named_owner s) (gs_channels s) (gs_overrides
    s) (gs_roles s) v (gs_invites s) (gs_applied s) (gs_bans s) (gs_mutes s) (gs_silences s).
Definition set_invites (v : gmap string (list InviteCred)) (s : GroupState) : GroupState :=
  mkState (gs_id s) (gs_seq s) (gs_cutoff s) (gs_name s) (gs_public s) (gs_newcomer_wait s)
    (gs_about s) (gs_joined s) (gs_owner s) (gs_named_owner s) (gs_channels s) (gs_overrides
    s) (gs_roles s) (gs_members s) v (gs_applied s) (gs_bans s) (gs_mutes s) (gs_silences s).
Definition set_applied (v : gset EventId) (s : GroupState) : GroupState :=
  mkState (gs_id s) (gs_seq s) (gs_cutoff s) (gs_name s) (gs_public s) (gs_newcomer_wait s)
    (gs_about s) (gs_joined s) (gs_owner s) (gs_named_owner s) (gs_channels s) (gs_overrides
    s) (gs_roles s) (gs_members s) (gs_invites s) v (gs_bans s) (gs_mutes s) (gs_silences s).
Definition set_bans (v : gset PublicKey) (s : GroupState) : GroupState :=
  mkState (gs_id s) (gs_seq s) (gs_cutoff s) (gs_name s) (gs_public s) (gs_newcomer_wait s)
    (gs_about s) (gs_joined s) (gs_owner s) (gs_named_owner s) (gs_channels s) (gs_overrides
    s) (gs_roles s) (gs_members s) (gs_invites s) (gs_applied s) v (gs_mutes s) (gs_silences
    s).
Definition set_mutes (v : gmap PublicKey Timestamp) (s : GroupState) : GroupState :=
  mkState (gs_id s) (gs_seq s) (gs_cutoff s) (gs_name s) (gs_public s) (gs_newcomer_wait s)
    (gs_about s) (gs_joined s) (gs_owner s) (gs_named_owner s) (gs_channels s) (gs_overrides
    s) (gs_roles s) (gs_members s) (gs_invites s) (gs_applied s) (gs_bans s) v (gs_silences s).
Definition set_silences (v : list Silence) (s : GroupState) : GroupState :=
  mkState (gs_id s) (gs_seq s) (gs_cutoff s) (gs_name s) (gs_public s) (gs_newcomer_wait s)
    (gs_about s) (gs_joined s) (gs_owner s) (gs_named_owner s) (gs_channels s) (gs_overrides
    s) (gs_roles s) (gs_members s) (gs_invites s) (gs_applied s) (gs_bans s) (gs_mutes s) v.

(** ** Who may do what *)

Definition is_owner (s : GroupState) (p : PublicKey) : bool :=
  bool_decide (gs_owner s = Some p).
Definition is_member (s : GroupState) (p : PublicKey) : bool := opt_bool (gs_members s !! p).

(** What holding [held] (and the default role) grants, group-wide. *)
Definition base_of (s : GroupState) (held : gset string) : Z :=
  Perm.sanitized
    (foldl (fun perms r => match gs_roles s !! r with
                           | Some role => Perm.union perms (r_perms role)
                           | None => perms
                           end)
       Perm.NONE (DEFAULT_ROLE :: set_entries String.leb held)).

Definition base (s : GroupState) (p : PublicKey) : Z :=
  if is_owner s p then Perm.ALL
  else match gs_members s !! p with
       | Some held => base_of s held
       | None => Perm.NONE
       end.

(** What holding [held] (and the default role) grants in [channel]. *)
Definition effective_of (s : GroupState) (held : gset string) (channel : string) : Z :=
  let b := base_of s held in
  let '(allow, deny) :=
    foldl (fun '(allow, deny) o =>
             if bool_decide (ov_role o = DEFAULT_ROLE) || bool_decide (ov_role o ∈ held)
             then (Perm.union allow (ov_allow o), Perm.union deny (ov_deny o))
             else (allow, deny))
      (Perm.NONE, Perm.NONE)
      (List.filter (fun o => bool_decide (ov_channel o = channel)) (gs_overrides s)) in
  let allow := Perm.intersection allow Perm.CHANNEL_SCOPED in
  let deny := Perm.intersection deny Perm.CHANNEL_SCOPED in
  Perm.sanitized (Perm.union (Perm.without b deny) allow).

Definition effective (s : GroupState) (p : PublicKey) (channel : string) : Z :=
  if is_owner s p then Perm.ALL
  else match gs_members s !! p with
       | Some held => effective_of s held channel
       | None => Perm.NONE
       end.

(** [Iterator::max]. *)
Definition max_of (l : list Z) : option Z :=
  match l with [] => None | x :: t => Some (foldl Z.max x t) end.

Definition rank (s : GroupState) (p : PublicKey) : Z :=
  opt_get RANK_FLOOR
    (let! held := gs_members s !! p in
     max_of (map r_position
               (filter_map (fun r => gs_roles s !! r) (set_entries String.leb held)))).

Definition outranks (s : GroupState) (actor target : PublicKey) : bool :=
  if is_owner s target then false
  else if is_owner s actor then true
  else rank s target <? rank s actor.

Definition outranks_role (s : GroupState) (actor : PublicKey) (role : RoleDef) : bool :=
  is_owner s actor || (r_position role <? rank s actor).

Definition can_grant (s : GroupState) (actor : PublicKey) (granting : Z) : bool :=
  Perm.is_empty (Perm.beyond granting (base s actor)).

Definition may_assign (s : GroupState) (actor : PublicKey) (id : string) : bool :=
  is_some_and (gs_roles s !! id) (fun r =>
    negb (bool_decide (id = DEFAULT_ROLE))
    && Perm.contains (base s actor) Perm.MANAGE_ROLES
    && outranks_role s actor r && can_grant s actor (r_perms r)).

Definition require_member (s : GroupState) (p : PublicKey) : result Refusal unit :=
  if is_member s p then Ok tt else Err NotAMember.
Definition require (s : GroupState) (p : PublicKey) (needed : Z) : result Refusal unit :=
  if Perm.contains (base s p) needed then Ok tt else Err (Lacks needed).

Definition known_roles (s : GroupState) (roles : gset string) : gset string :=
  filter (fun r => r <> DEFAULT_ROLE /\ is_Some (gs_roles s !! r)) roles.

(** ** The answers *)

Definition newcomer_wait (s : GroupState) : Z :=
  if gs_public s then Z.max (gs_newcomer_wait s) PUBLIC_NEWCOMER_FLOOR else gs_newcomer_wait s.

Definition posts_from (s : GroupState) (p : PublicKey) (now : Timestamp) : option Timestamp :=
  let wait := newcomer_wait s in
  if wait =? 0 then None
  else
    let! joined := gs_joined s !! p in
    let from := ts_add joined wait in
    if now <? from then Some from else None.

Definition channel (s : GroupState) (id : string) : option Channel :=
  List.find (fun c => bool_decide (ch_id c = id)) (gs_channels s).
Definition slowmode (s : GroupState) (id : string) : Z :=
  match channel s id with Some c => ch_slowmode c | None => 0 end.

Definition silence_at (s : GroupState) (who : PublicKey) (t : Timestamp) : option Silence :=
  List.find (fun x => bool_decide (s_who x = who) && covers x t) (gs_silences s).
Definition is_banned (s : GroupState) (p : PublicKey) : bool := bool_decide (p ∈ gs_bans s).
Definition muted_until (s : GroupState) (p : PublicKey) (now : Timestamp) : option Timestamp :=
  let! u := gs_mutes s !! p in if now <? u then Some u else None.
Definition holders_of (s : GroupState) (role : string) : list PublicKey :=
  map fst (List.filter (fun '(_, held) => bool_decide (role ∈ held))
             (map_entries pk_leb (gs_members s))).
Definition live_actions (s : GroupState) : Z := Z.of_nat (size (gs_applied s)).

Definition judge_in_channel (s : GroupState) (e : Event) (needed : Z) : result Refusal unit :=
  let? ch := ok_or (channel_of e) Malformed in
  let? _ := ok_or (channel s ch) NoSuchChannel in
  let? _ := require_member s (ev_pubkey e) in
  if Perm.contains (effective s (ev_pubkey e) ch) needed then Ok tt else Err (Lacks needed).

Definition judge_message (s : GroupState) (msg : Event) : result Refusal unit :=
  if (ev_kind msg =? CHAT_MESSAGE) && negb (is_ok (attachments_of msg)) then Err Malformed
  else
    let? _ := judge_in_channel s msg (Perm.union Perm.VIEW_CHANNEL Perm.SEND_MESSAGES) in
    match silence_at s (ev_pubkey msg) (ev_created_at msg) with
    | Some x => Err (if s_mute x then Muted else NotAMember)
    | None =>
        match posts_from s (ev_pubkey msg) (ev_created_at msg) with
        | Some from => Err (Newcomer (Z.min (sat_sub from (ev_created_at msg)) U32_MAX))
        | None => Ok tt
        end
    end.

Definition judge_voice (s : GroupState) (e : Event) : result Refusal unit :=
  let? ch := ok_or (channel_of e) Malformed in
  let? c := ok_or (channel s ch) NoSuchChannel in
  guard bool_decide (ch_kind c = Voice) else NoSuchChannel in
  let? _ := require_member s (ev_pubkey e) in
  if Perm.contains (effective s (ev_pubkey e) ch) Perm.VIEW_CHANNEL
  then Ok tt else Err (Lacks Perm.VIEW_CHANNEL).

Definition no_targets (e : Event) : bool :=
  match targets_of e with [] => true | _ => false end.
Definition judge_removal (s : GroupState) (e : Event) : result Refusal unit :=
  if no_targets e then Err Malformed
  else judge_in_channel s e (Perm.union Perm.VIEW_CHANNEL Perm.MANAGE_MESSAGES).
Definition judge_deletion (s : GroupState) (e : Event) : result Refusal unit :=
  if no_targets e then Err Malformed else judge_in_channel s e Perm.VIEW_CHANNEL.
Definition judge_reaction (s : GroupState) (e : Event) : result Refusal unit :=
  let len := chars_count (ev_content e) in
  if negb (Nat.eqb (length (targets_of e)) 1) || (len =? 0) || (MAX_REACTION <? len)
  then Err Malformed else judge_message s e.
Definition judge_zap (s : GroupState) (e : Event) : result Refusal unit :=
  match carried e with
  | Ok _ => judge_in_channel s e Perm.VIEW_CHANNEL
  | Err ZTooLarge => Err TooLarge
  | Err _ => Err Malformed
  end.

Definition is_folded (s : GroupState) (e : Event) (now : Timestamp) : bool :=
  if ev_kind e =? CREATE_INVITE then
    match parse_action e with
    | Some (_, Invite _ (Some x)) => (x <? now) && (x <? gs_cutoff s)
    | _ => false
    end
  else kind_in (ev_kind e) ACTION_KINDS && (ev_created_at e <? gs_cutoff s).

Definition open_to_readers (s : GroupState) (ch : string) : bool :=
  gs_public s && opt_bool (channel s ch)
  && Perm.contains (effective_of s ∅ ch) Perm.VIEW_CHANNEL.

Definition everyone_can_view (s : GroupState) (ch : string) : bool :=
  forallb (fun '(p, _) => Perm.contains (effective s p ch) Perm.VIEW_CHANNEL)
    (map_entries pk_leb (gs_members s)).

(** Kinds whose readers are those who can view the channel. *)
Definition in_a_channel (e : Event) : bool :=
  kind_in (ev_kind e) CHANNEL_KINDS || (ev_kind e =? VOICE_PRESENCE).
Definition removes (e : Event) (reader : PublicKey) : bool :=
  match parse_action e with
  | Some (_, Remove target _) => bool_decide (target = reader)
  | _ => false
  end.
Definition may_read (s : GroupState) (reader : PublicKey) (e : Event) (now : Timestamp) : bool :=
  if negb (is_member s reader) then
    if removes e reader then true
    else if negb (gs_public s) || is_folded s e now then false
    else if in_a_channel e then is_some_and (channel_of e) (open_to_readers s)
    else true
  else if is_folded s e now then false
  else if in_a_channel e then
    is_some_and (channel_of e) (fun c => Perm.contains (effective s reader c) Perm.VIEW_CHANNEL)
  else true.

Definition to_snapshot (s : GroupState) : Snapshot :=
  mkSnapshot (gs_seq s + 1) (gs_name s) (gs_public s) (gs_newcomer_wait s) (gs_about s)
    (gs_channels s) (gs_overrides s) (map snd (map_entries String.leb (gs_roles s)))
    (gs_owner s) (gs_members s) (gs_bans s) (gs_mutes s).
End GroupState.
