(* ===== verification/Fold.v ===== *)
(** The fold ([GroupState::fold], [apply], [edit] of
    [crates/hit-group/src/state.rs]): the snapshot's four events, then every
    later action in time order, each applied only if it is valid against the
    state the ones before it produced.

    An action is judged and applied by one handler per variant.  Every handler
    but [apply_mute] fails before it changes anything, and returns the new
    state or the refusal; [apply_mute] changes the silences first, so it
    returns a state with its refusal too, and [apply] threads that state. *)
From S2P Require Import Prelude Text Nostr GroupEvent Replace Perm Zap GroupState.

#[local] Open Scope Z_scope.

Section Fold.
Context {N : NostrTypes} {O : NostrOps}.

(** ** Edits *)

(** The closure [label]. *)
Definition label (s : string) : result Refusal unit :=
  let n := chars_count (trim s) in
  if (n =? 0) || (MAX_LABEL <? n) then Err BadEdit else Ok tt.

Definition edit_name (before next : GroupState) (actor : PublicKey) (n : string)
    : result Refusal GroupState :=
  let? _ := require before actor Perm.MANAGE_GROUP in
  let? _ := label n in
  Ok (set_name (trim n) next).

Definition edit_public (before next : GroupState) (actor : PublicKey) (public : bool)
    : result Refusal GroupState :=
  guard is_owner before actor else NotTheOwner in Ok (set_public public next).

Definition edit_newcomer_wait (before next : GroupState) (actor : PublicKey) (secs : Z)
    : result Refusal GroupState :=
  let? _ := require before actor Perm.MANAGE_CHANNELS in
  guard secs <=? MAX_NEWCOMER_WAIT else BadEdit in
  Ok (set_newcomer_wait secs next).

Definition edit_about (before next : GroupState) (actor : PublicKey) (a : string)
    : result Refusal GroupState :=
  let? _ := require before actor Perm.MANAGE_GROUP in
  guard chars_count (trim a) <=? MAX_ABOUT else BadEdit in
  Ok (set_about (trim a) next).

(** [match find(..) { Some(x) => *x = c, None => push(c) }]. *)
Fixpoint put_channel (c : Channel) (l : list Channel) : list Channel :=
  match l with
  | [] => [c]
  | x :: t => if bool_decide (ch_id x = ch_id c) then c :: t else x :: put_channel c t
  end.
Definition has_channel (s : GroupState) (id : string) : bool :=
  existsb (fun c => bool_decide (ch_id c = id)) (gs_channels s).

Definition edit_channel (before next : GroupState) (actor : PublicKey) (c : Channel)
    : result Refusal GroupState :=
  let? _ := require before actor Perm.MANAGE_CHANNELS in
  let? _ := label (ch_id c) in
  let? _ := label (ch_name c) in
  guard ch_slowmode c <=? MAX_SLOWMODE else BadEdit in
  Ok (set_channels (put_channel c (gs_channels next)) next).

Definition edit_channel_delete (before next : GroupState) (actor : PublicKey) (id : string)
    : result Refusal GroupState :=
  let? _ := require before actor Perm.MANAGE_CHANNELS in
  guard has_channel next id else NoSuchChannel in
  let next := set_channels
    (List.filter (fun c => negb (bool_decide (ch_id c = id))) (gs_channels next)) next in
  Ok (set_overrides
    (List.filter (fun o => negb (bool_decide (ov_channel o = id))) (gs_overrides next)) next).

(** The closure [scoped]. *)
Definition scoped (bits : Z) : Z := Perm.intersection (Perm.sanitized bits) Perm.CHANNEL_SCOPED.

Definition edit_override (before next : GroupState) (actor : PublicKey) (o : Override)
    : result Refusal GroupState :=
  let? _ := require before actor Perm.MANAGE_ROLES in
  guard has_channel next (ov_channel o) else NoSuchChannel in
  let? role := ok_or (gs_roles before !! ov_role o) UnknownRole in
  guard outranks_role before actor role else Outranked in
  let o := mkOverride (ov_channel o) (ov_role o) (scoped (ov_allow o)) (scoped (ov_deny o)) in
  guard Perm.is_empty (Perm.beyond (ov_allow o) (effective before actor (ov_channel o)))
    else CannotGrant in
  let kept := List.filter
    (fun x => negb (bool_decide (ov_channel x = ov_channel o) && bool_decide (ov_role x = ov_role o)))
    (gs_overrides next) in
  Ok (set_overrides
    (if negb (ov_allow o =? 0) || negb (ov_deny o =? 0) then kept ++ [o] else kept) next).

Definition edit_role (before next : GroupState) (actor : PublicKey) (r : RoleDef)
    : result Refusal GroupState :=
  let? _ := require before actor Perm.MANAGE_ROLES in
  let? _ := label (r_id r) in
  let? _ := label (r_name r) in
  guard negb (bool_decide (r_id r = OWNER_MARK)) else BadEdit in
  let r := mkRole (r_id r) (r_name r) (Perm.sanitized (r_perms r)) (r_position r) in
  let? _ :=
    (if bool_decide (r_id r = DEFAULT_ROLE) then
       guard is_owner before actor else NotTheOwner in
       guard r_position r =? 0 else BadEdit in Ok tt
     else
       guard 0 <? r_position r else BadEdit in
       guard is_none_or (gs_roles before !! r_id r) (outranks_role before actor)
         else Outranked in
       guard outranks_role before actor r else Outranked in Ok tt) in
  guard can_grant before actor (r_perms r) else CannotGrant in
  Ok (set_roles (<[r_id r := r]> (gs_roles next)) next).

Definition edit_role_delete (before next : GroupState) (actor : PublicKey) (id : string)
    : result Refusal GroupState :=
  let? _ := require before actor Perm.MANAGE_ROLES in
  guard negb (bool_decide (id = DEFAULT_ROLE)) else BadEdit in
  let? role := ok_or (gs_roles before !! id) UnknownRole in
  guard outranks_role before actor role else Outranked in
  let next := set_roles (delete id (gs_roles next)) next in
  let next := set_members ((fun held : gset string => held ∖ {[id]}) <$> gs_members next) next in
  Ok (set_overrides
    (List.filter (fun o => negb (bool_decide (ov_role o = id))) (gs_overrides next)) next).

Definition edit (before next : GroupState) (actor : PublicKey) (e : Edit)
    : result Refusal GroupState :=
  match e with
  | EName n => edit_name before next actor n
  | EPublic public => edit_public before next actor public
  | ENewcomerWait secs => edit_newcomer_wait before next actor secs
  | EAbout a => edit_about before next actor a
  | EChannel c => edit_channel before next actor c
  | EChannelDelete id => edit_channel_delete before next actor id
  | EOverride o => edit_override before next actor o
  | ERole r => edit_role before next actor r
  | ERoleDelete id => edit_role_delete before next actor id
  end.

(** [for e in edits { next.edit(&before, &actor, e)?; }]. *)
Fixpoint edit_all (before next : GroupState) (actor : PublicKey) (es : list Edit)
    : result Refusal GroupState :=
  match es with
  | [] => Ok next
  | e :: rest => let? next := edit before next actor e in edit_all before next actor rest
  end.

(** ** Actions *)
Definition silence (s : GroupState) (who : PublicKey) (from : Timestamp)
    (until : option Timestamp) (mute : bool) : GroupState :=
  set_silences (gs_silences s ++ [mkSilence who from until mute]) s.

Definition close_removal (who : PublicKey) (at_ : Timestamp) (x : Silence) : Silence :=
  if bool_decide (s_who x = who) && negb (s_mute x) && negb (opt_bool (s_until x))
  then mkSilence (s_who x) (s_from x) (Some at_) (s_mute x) else x.
Definition let_back_in (s : GroupState) (who : PublicKey) (at_ : Timestamp) : GroupState :=
  set_silences (map (close_removal who at_) (gs_silences s)) s.

(** The loop over the roles a [Put] gives or takes away. *)
Fixpoint granted (s : GroupState) (actor : PublicKey) (wanted : gset string) (granting : Z)
    (rs : list string) : result Refusal Z :=
  match rs with
  | [] => Ok granting
  | r :: rest =>
      let? role := ok_or (gs_roles s !! r) UnknownRole in
      guard outranks_role s actor role else Outranked in
      granted s actor wanted
        (if bool_decide (r ∈ wanted) then Perm.union granting (r_perms role) else granting) rest
  end.

Definition apply_put (s : GroupState) (actor : PublicKey) (at_ : Timestamp) (target : PublicKey)
    (roles : gset string) : result Refusal GroupState :=
  let? _ := require_member s actor in
  guard negb (is_owner s target) else TheOwner in
  let wanted : gset string := filter (fun r => r <> DEFAULT_ROLE) roles in
  guard negb (existsb (fun r => bool_decide (r = OWNER_MARK) || negb (opt_bool (gs_roles s !! r)))
                (set_entries String.leb wanted)) else UnknownRole in
  let current := gs_members s !! target in
  let? _ := (if negb (opt_bool current) then
               guard negb (bool_decide (target ∈ gs_bans s)) else Banned in
               require s actor Perm.CREATE_INVITE
             else Ok tt) in
  let held : gset string := opt_get ∅ current in
  let? _ := (if negb (bool_decide (wanted = held)) then
               let? _ := require s actor Perm.MANAGE_ROLES in
               guard negb (opt_bool current && negb (outranks s actor target)) else Outranked in
               let? granting := granted s actor wanted Perm.NONE
                                  (set_entries String.leb ((wanted ∖ held) ∪ (held ∖ wanted))) in
               guard can_grant s actor granting else CannotGrant in Ok tt
             else Ok tt) in
  let s := if opt_bool current then s else let_back_in s target at_ in
  Ok (set_members (<[target := wanted]> (gs_members s)) s).

Definition apply_remove (s : GroupState) (actor : PublicKey) (at_ : Timestamp)
    (target : PublicKey) (ban : bool) : result Refusal GroupState :=
  let? _ := require_member s actor in
  guard negb (is_owner s target) else TheOwner in
  let member := is_member s target in
  guard member || ban else NotAMember in
  let? _ := require s actor (if ban then Perm.BAN_MEMBERS else Perm.KICK_MEMBERS) in
  guard outranks s actor target else Outranked in
  let s := if member then
             set_joined (delete target (gs_joined s))
               (set_mutes (delete target (gs_mutes s))
                 (set_members (delete target (gs_members s)) s))
           else s in
  let s := if member || ban then silence s target at_ None false else s in
  Ok (if ban then set_bans ({[target]} ∪ gs_bans s) s else s).

Definition apply_unban (s : GroupState) (actor : PublicKey) (target : PublicKey)
    : result Refusal GroupState :=
  let? _ := require_member s actor in
  let? _ := require s actor Perm.BAN_MEMBERS in
  guard bool_decide (target ∈ gs_bans s) else NotBanned in
  Ok (set_bans (gs_bans s ∖ {[target]}) s).

Definition end_mute (target : PublicKey) (at_ : Timestamp) (x : Silence) : Silence :=
  if bool_decide (s_who x = target) && s_mute x && covers x at_
  then mkSilence (s_who x) (s_from x) (Some at_) (s_mute x) else x.

(** The guards of a mute, before its first assignment. *)
Definition mute_guards (s : GroupState) (actor target : PublicKey) : result Refusal unit :=
  let? _ := require_member s actor in
  guard negb (is_owner s target) else TheOwner in
  guard is_member s target else NotAMember in
  let? _ := require s actor Perm.MUTE_MEMBERS in
  guard outranks s actor target else Outranked in Ok tt.

(** Ends the open mute spans first; only then may it still refuse. *)
Definition apply_mute (s : GroupState) (actor : PublicKey) (at_ : Timestamp)
    (target : PublicKey) (until : option Timestamp) : GroupState * result Refusal unit :=
  match mute_guards s actor target with
  | Err e => (s, Err e)
  | Ok _ =>
      let s := set_silences (map (end_mute target at_) (gs_silences s)) s in
      match until with
      | Some u =>
          if at_ <? u then
            let s := set_mutes (<[target := u]> (gs_mutes s)) s in
            (silence s target at_ (Some u) true, Ok tt)
          else (s, Err Malformed)
      | None =>
          match gs_mutes s !! target with
          | None => (s, Err NotMuted)
          | Some _ => (set_mutes (delete target (gs_mutes s)) s, Ok tt)
          end
      end
  end.

Definition apply_edit (s : GroupState) (actor : PublicKey) (edits : list Edit)
    : result Refusal GroupState :=
  let? _ := require_member s actor in edit_all s s actor edits.

Definition invite_honoured (s : GroupState) (at_ : Timestamp) (i : InviteCred) : bool :=
  (i_created_at i <=? at_) && is_none_or (i_expires i) (fun e => at_ <=? e)
  && Perm.contains (base s (i_author i)) Perm.CREATE_INVITE.

Definition apply_join (s : GroupState) (actor : PublicKey) (at_ : Timestamp)
    (code : option string) : result Refusal GroupState :=
  guard negb (is_member s actor) else AlreadyAMember in
  let honoured := match code with
                  | None => gs_public s
                  | Some code => is_some_and (gs_invites s !! code)
                                   (existsb (invite_honoured s at_))
                  end in
  guard honoured else NoSuchInvite in
  guard negb (bool_decide (actor ∈ gs_bans s)) else Banned in
  let s := let_back_in s actor at_ in
  let s := set_members (<[actor := ∅]> (gs_members s)) s in
  Ok (set_joined (<[actor := at_]> (gs_joined s)) s).

Definition apply_leave (s : GroupState) (actor : PublicKey) (at_ : Timestamp)
    : result Refusal GroupState :=
  guard negb (is_owner s actor) else TheOwner in
  guard is_member s actor else NotAMember in
  let s := set_members (delete actor (gs_members s)) s in
  let s := set_mutes (delete actor (gs_mutes s)) s in
  let s := set_joined (delete actor (gs_joined s)) s in
  Ok (silence s actor at_ None false).

(** A handler that changes nothing when it refuses. *)
Definition settle (s : GroupState) (r : result Refusal GroupState)
    : GroupState * result Refusal unit :=
  match r with Ok s' => (s', Ok tt) | Err e => (s, Err e) end.

Definition apply (s : GroupState) (e : Event) : GroupState * result Refusal unit :=
  match parse_action e with
  | None => (s, Err Malformed)
  | Some (_, action) =>
      let actor := ev_pubkey e in
      let at_ := ev_created_at e in
      match action with
      | Put target roles => settle s (apply_put s actor at_ target roles)
      | Remove target ban => settle s (apply_remove s actor at_ target ban)
      | Unban target => settle s (apply_unban s actor target)
      | Mute target until => apply_mute s actor at_ target until
      | AEdit edits => settle s (apply_edit s actor edits)
      | Join code => settle s (apply_join s actor at_ code)
      | Leave => settle s (apply_leave s actor at_)
      | Invite _ _ => (s, Err Malformed)
      end
  end.

(** ** One second's actions *)

(** [pending.retain(..)]: one pass, in order, over one mutable state. *)
Fixpoint retain_pass (s : GroupState) (pending : list Event) : GroupState * list Event :=
  match pending with
  | [] => (s, [])
  | e :: rest =>
      let '(s1, r) := apply s e in
      match r with
      | Ok _ => retain_pass (set_applied ({[ev_id e]} ∪ gs_applied s1) s1) rest
      | Err _ => let '(s2, kept) := retain_pass s1 rest in (s2, e :: kept)
      end
  end.

(** The [loop]: [fuel] bounds its passes; [apply_second] gives one more than
    there are actions, which is always enough ([apply_loop_fuel]). *)
Fixpoint apply_loop (fuel : nat) (s : GroupState) (pending : list Event)
    : GroupState * list Event :=
  match fuel with
  | 0%nat => (s, pending)
  | S f =>
      let '(s', kept) := retain_pass s pending in
      if Nat.eqb (length kept) (length pending) || (match kept with [] => true | _ => false end)
      then (s', kept) else apply_loop f s' kept
  end.
Definition apply_second (s : GroupState) (pending : list Event) : GroupState :=
  fst (apply_loop (S (length pending)) s pending).

(** ** The fold *)

(** What the first loop over the events collects. *)
Record Collected := mkCollected {
  c_pieces : gmap Z Event;
  c_creators : gset PublicKey;
  c_actions : list Event;
}.
Definition collect (group : PublicKey) (c : Collected) (e : Event) : Collected :=
  if negb (bool_decide (group_of e = Some group)) then c
  else if kind_in (ev_kind e) STATE_KINDS then
    match parse_state e with
    | None => c
    | Some _ =>
        let slot := opt_get e (c_pieces c !! ev_kind e) in
        mkCollected (<[ev_kind e := if replaces e slot then e else slot]> (c_pieces c))
          (c_creators c) (c_actions c)
    end
  else if ev_kind e =? CREATE_GROUP then
    mkCollected (c_pieces c) ({[ev_pubkey e]} ∪ c_creators c) (c_actions c)
  else if kind_in (ev_kind e) ACTION_KINDS then
    mkCollected (c_pieces c) (c_creators c) (c_actions c ++ [e])
  else c.
Definition collect_all (group : PublicKey) (events : list Event) : Collected :=
  foldl (collect group) (mkCollected ∅ ∅ []) events.

Definition empty_state (group : PublicKey) : GroupState :=
  mkState group 0 0 "" false 0 "" ∅ None None [] [] ∅ ∅ ∅ ∅ ∅ ∅ [].

(** One turn of [for mut r in roles]. *)
Definition load_role (roles : gmap string RoleDef) (r : RoleDef) : gmap string RoleDef :=
  if bool_decide (r_id r = OWNER_MARK) then roles
  else <[r_id r := mkRole (r_id r) (r_name r) (Perm.sanitized (r_perms r)) (r_position r)]> roles.

(** The snapshot as loaded so far: the state, the assignments, the named owner. *)
Definition Loading : Type :=
  GroupState * gmap PublicKey (gset string) * option PublicKey.
Definition load_piece (s : GroupState) (asg : gmap PublicKey (gset string))
    (named : option PublicKey) (piece : StatePiece) : Loading :=
  match piece with
  | PMetadata name public wait about channels overrides =>
      (set_overrides overrides (set_channels channels (set_about about
        (set_newcomer_wait wait (set_public public (set_name name s))))), asg, named)
  | PAdmins owner a => (s, a, owner)
  | PMembers members bans mutes =>
      (set_mutes mutes (set_bans bans (set_members (gset_to_gmap ∅ members) s)), asg, named)
  | PRoles roles => (set_roles (foldl load_role (gs_roles s) roles) s, asg, named)
  end.

Definition with_seq (s : GroupState) (seq : Z) (cutoff : Timestamp) : GroupState :=
  mkState (gs_id s) seq cutoff (gs_name s) (gs_public s) (gs_newcomer_wait s) (gs_about s)
    (gs_joined s) (gs_owner s) (gs_named_owner s) (gs_channels s) (gs_overrides s) (gs_roles s)
    (gs_members s) (gs_invites s) (gs_applied s) (gs_bans s) (gs_mutes s) (gs_silences s).
Definition with_named (s : GroupState) (named : option PublicKey) : GroupState :=
  mkState (gs_id s) (gs_seq s) (gs_cutoff s) (gs_name s) (gs_public s) (gs_newcomer_wait s)
    (gs_about s) (gs_joined s) (gs_owner s) named (gs_channels s) (gs_overrides s) (gs_roles s)
    (gs_members s) (gs_invites s) (gs_applied s) (gs_bans s) (gs_mutes s) (gs_silences s).

Definition load_kind (pieces : gmap Z Event) (l : Loading) (kind : Kind) : option Loading :=
  let '(s, asg, named) := l in
  let! e := pieces !! kind in
  let! p := parse_state e in
  let '(_, seq, piece) := p in
  Some (load_piece (with_seq s (Z.max (gs_seq s) seq) (Z.max (gs_cutoff s) (ev_created_at e)))
          asg named piece).

Definition default_role : RoleDef := mkRole DEFAULT_ROLE DEFAULT_ROLE 0 0.
Definition assign_roles (s : GroupState) (row : PublicKey * gset string) : GroupState :=
  match gs_members s !! fst row with
  | Some _ => set_members (<[fst row := known_roles s (snd row)]> (gs_members s)) s
  | None => s
  end.

(** The snapshot a group's events carry, before any action. *)
Definition load_snapshot (group : PublicKey) (c : Collected) : option GroupState :=
  let! l := fold_opt (load_kind (c_pieces c)) (empty_state group, ∅, None) STATE_KINDS in
  let '(s, asg, named) := l in
  let s := set_roles (match gs_roles s !! DEFAULT_ROLE with
                      | Some _ => gs_roles s
                      | None => <[DEFAULT_ROLE := default_role]> (gs_roles s)
                      end) s in
  let s := foldl assign_roles s (map_entries pk_leb asg) in
  let owner := let! o := named in if bool_decide (o ∈ c_creators c) then Some o else None in
  let s := set_owner owner (with_named s named) in
  let s := match owner with
           | Some o => set_members (<[o := ∅]> (gs_members s)) s
           | None => s
           end in
  Some (set_silences
    (map (fun '(p, u) => mkSilence p (gs_cutoff s) (Some u) true)
       (List.filter (fun '(_, u) => gs_cutoff s <? u) (map_entries pk_leb (gs_mutes s)))) s).

(** [sort_by_key(|ev| (ev.created_at, ev.id))]. *)
Definition action_leb (a b : Event) : bool :=
  (ev_created_at a <? ev_created_at b)
  || ((ev_created_at a =? ev_created_at b) && id_leb (ev_id a) (ev_id b)).

Definition record_invite (s : GroupState) (e : Event) : GroupState :=
  if ev_kind e =? CREATE_INVITE then
    match parse_action e with
    | Some (_, Invite code expires) =>
        set_invites (<[code := opt_get [] (gs_invites s !! code)
                       ++ [mkInvite (ev_pubkey e) (ev_created_at e) expires]]> (gs_invites s)) s
    | _ => s
    end
  else s.

Fixpoint by_second (s : GroupState) (second : list Event) (live : list Event) : GroupState :=
  match live with
  | [] => apply_second s second
  | e :: rest =>
      match second with
      | f :: _ =>
          if negb (ev_created_at f =? ev_created_at e)
          then by_second (apply_second s second) [e] rest
          else by_second s (second ++ [e]) rest
      | [] => by_second s [e] rest
      end
  end.

Definition is_live (cutoff : Timestamp) (e : Event) : bool :=
  negb (ev_kind e =? CREATE_INVITE) && (cutoff <=? ev_created_at e).

Definition fold (group : PublicKey) (events : list Event) : option GroupState :=
  let c := collect_all group events in
  let! s := load_snapshot group c in
  let actions := isort action_leb (c_actions c) in
  let s := foldl record_invite s actions in
  Some (by_second s [] (List.filter (is_live (gs_cutoff s)) actions)).
End Fold.
