(* ===== verification/FoldOrder.v ===== *)
(** Convergence: the fold is a function of the set of events a peer holds, not
    of the order they reached it, and the loop within a second always ends in
    a state where none of the rest applies. *)
From S2P Require Import Prelude Text Nostr GroupEvent Replace Perm Zap GroupState Fold.

#[local] Open Scope Z_scope.

Section FoldOrder.
Context {N : NostrTypes} {O : NostrOps}.

(** ** What the first loop collects, as filters *)
Definition is_piece (g : PublicKey) (k : Kind) (e : Event) : bool :=
  bool_decide (group_of e = Some g) && kind_in (ev_kind e) STATE_KINDS
  && opt_bool (parse_state e) && (ev_kind e =? k).
Definition is_creator (g : PublicKey) (e : Event) : bool :=
  bool_decide (group_of e = Some g) && negb (kind_in (ev_kind e) STATE_KINDS)
  && (ev_kind e =? CREATE_GROUP).
Definition is_act (g : PublicKey) (e : Event) : bool :=
  bool_decide (group_of e = Some g) && negb (kind_in (ev_kind e) STATE_KINDS)
  && negb (ev_kind e =? CREATE_GROUP) && kind_in (ev_kind e) ACTION_KINDS.

Lemma collect_pieces g l c k :
  c_pieces (foldl (collect g) c l) !! k =
  foldl (keep_best replaces) (c_pieces c !! k) (List.filter (is_piece g k) l).
Proof.
  revert c. induction l as [|e l IH]; intros c; [done|]. cbn [foldl List.filter]. rewrite IH.
  unfold collect, is_piece.
  destruct (bool_decide (group_of e = Some g)); cbn [negb andb]; [|done].
  destruct (kind_in (ev_kind e) STATE_KINDS); cbn [andb].
  - destruct (parse_state e); cbn [opt_bool andb]; [|done].
    cbn [c_pieces]. destruct (ev_kind e =? k) eqn:E.
    + apply Z.eqb_eq in E. subst k. rewrite lookup_insert_eq. cbn [foldl].
      destruct (c_pieces c !! ev_kind e) as [cur|]; cbn; [by destruct (replaces e cur)|].
      by destruct (replaces e e).
    + apply Z.eqb_neq in E. by rewrite lookup_insert_ne.
  - destruct (ev_kind e =? CREATE_GROUP); [done|]. by destruct (kind_in _ _).
Qed.
Lemma collect_creators g l c :
  c_creators (foldl (collect g) c l) =
  list_to_set (map ev_pubkey (List.filter (is_creator g) l)) ∪ c_creators c.
Proof.
  revert c. induction l as [|e l IH]; intros c; [cbn; set_solver|].
  cbn [foldl List.filter]. rewrite IH. unfold collect, is_creator.
  destruct (bool_decide (group_of e = Some g)); cbn [negb andb]; [|done].
  destruct (kind_in (ev_kind e) STATE_KINDS); cbn [negb andb]; [by destruct (parse_state e)|].
  destruct (ev_kind e =? CREATE_GROUP); cbn [map list_to_set foldr c_creators]; [set_solver|].
  by destruct (kind_in _ _).
Qed.
Lemma collect_actions g l c :
  c_actions (foldl (collect g) c l) = c_actions c ++ List.filter (is_act g) l.
Proof.
  revert c. induction l as [|e l IH]; intros c; [cbn; by rewrite app_nil_r|].
  cbn [foldl List.filter]. rewrite IH. unfold collect, is_act.
  destruct (bool_decide (group_of e = Some g)); cbn [negb andb]; [|done].
  destruct (kind_in (ev_kind e) STATE_KINDS); cbn [negb andb]; [by destruct (parse_state e)|].
  destruct (ev_kind e =? CREATE_GROUP); cbn [negb andb]; [done|].
  destruct (kind_in _ _); [|done]. cbn [c_actions]. by rewrite <- app_assoc.
Qed.

Lemma collect_all_pieces g l k :
  c_pieces (collect_all g l) !! k = best replaces (List.filter (is_piece g k) l).
Proof. unfold collect_all. by rewrite collect_pieces. Qed.

(** ** Sorting by time and id *)
Context {L : NostrLaws}.

Lemma action_leb_total a b : action_leb a b = true \/ action_leb b a = true.
Proof.
  unfold action_leb. destruct (Z.lt_total (ev_created_at a) (ev_created_at b)) as [H|[H|H]].
  - left. apply orb_true_iff. left. by apply Z.ltb_lt.
  - rewrite H, Z.eqb_refl, Z.ltb_irrefl. cbn. apply id_leb_total.
  - right. apply orb_true_iff. left. by apply Z.ltb_lt.
Qed.
Lemma action_leb_cases a b : action_leb a b = true ->
  ev_created_at a < ev_created_at b \/
  (ev_created_at a = ev_created_at b /\ id_leb (ev_id a) (ev_id b) = true).
Proof.
  unfold action_leb. intros [H|H]%orb_prop; bools; [by left|]. by right.
Qed.
Lemma action_leb_trans a b c :
  action_leb a b = true -> action_leb b c = true -> action_leb a c = true.
Proof.
  intros H1%action_leb_cases H2%action_leb_cases. unfold action_leb. apply orb_true_iff.
  destruct H1 as [H1|[H1 I1]], H2 as [H2|[H2 I2]];
    try (left; apply Z.ltb_lt; lia).
  right. apply andb_true_iff. split; [apply Z.eqb_eq; lia|]. by eapply id_leb_trans.
Qed.
Lemma action_leb_antisym a b :
  action_leb a b = true -> action_leb b a = true -> ev_id a = ev_id b.
Proof.
  intros H1%action_leb_cases H2%action_leb_cases.
  destruct H1 as [H1|[H1 I1]], H2 as [H2|[H2 I2]]; try lia. by apply id_leb_antisym.
Qed.

Lemma sorted_actions_perm l1 l2 :
  ids_identify l1 -> l1 ≡ₚ l2 -> isort action_leb l1 = isort action_leb l2.
Proof.
  intros Hid. apply isort_unique; [apply action_leb_total|apply action_leb_trans|].
  intros a b Ha Hb H1 H2. apply Hid; [done..|]. by apply action_leb_antisym.
Qed.

Lemma ids_identify_filter l p : ids_identify l -> ids_identify (List.filter p l).
Proof. intros H a b [Ha _]%filter_elem [Hb _]%filter_elem. by apply H. Qed.

Lemma collect_all_perm g l1 l2 :
  ids_identify l1 -> l1 ≡ₚ l2 ->
  c_pieces (collect_all g l1) = c_pieces (collect_all g l2) /\
  c_creators (collect_all g l1) = c_creators (collect_all g l2) /\
  isort action_leb (c_actions (collect_all g l1)) = isort action_leb (c_actions (collect_all g l2)).
Proof.
  intros Hid Hp. split_and!.
  - apply map_eq. intros k. rewrite !collect_all_pieces. apply best_perm.
    + apply replaces_strict_total with k; [by apply ids_identify_filter|].
      intros e [_ He]%filter_elem. unfold is_piece in He. by bools.
    + by apply filter_perm.
  - unfold collect_all. rewrite !collect_creators. cbn. f_equal. apply set_eq. intros p.
    rewrite !elem_of_list_to_set. by rewrite (filter_perm (is_creator g) _ _ Hp).
  - unfold collect_all. rewrite !collect_actions. cbn [c_actions app]. apply sorted_actions_perm.
    + by apply ids_identify_filter.
    + by apply filter_perm.
Qed.

Lemma fold_perm g events1 events2 :
  ids_identify events1 -> events1 ≡ₚ events2 -> fold g events1 = fold g events2.
Proof.
  intros Hid Hp. destruct (collect_all_perm g _ _ Hid Hp) as (Hpc & Hc & Ha).
  unfold fold, load_snapshot. by rewrite Hpc, Hc, Ha.
Qed.

(** The fold reads its own group's state, creations and actions only. *)
Definition fold_event (g : PublicKey) (e : Event) : bool :=
  bool_decide (group_of e = Some g)
  && (kind_in (ev_kind e) STATE_KINDS || (ev_kind e =? CREATE_GROUP) || kind_in (ev_kind e) ACTION_KINDS).
Lemma collect_skip g c e : fold_event g e = false -> collect g c e = c.
Proof.
  unfold fold_event, collect. case_bool_decide; [|done]. cbn [negb andb].
  destruct (kind_in (ev_kind e) STATE_KINDS); [done|]. destruct (_ =? _); [done|].
  by destruct (kind_in (ev_kind e) ACTION_KINDS).
Qed.
Lemma fold_relevant g l : fold g l = fold g (List.filter (fold_event g) l).
Proof.
  unfold fold. enough (collect_all g l = collect_all g (List.filter (fold_event g) l)) as <- by done.
  unfold collect_all. generalize (mkCollected ∅ ∅ []). induction l as [|e l IH]; intros c; [done|].
  cbn. destruct (fold_event g e) eqn:E; [apply IH|]. by rewrite (collect_skip g c e E).
Qed.

(** C1. Convergence: two peers holding the same events compute the same group
    state, whatever order the events reached them in. *)
Theorem fold_converges g events1 events2 :
  ids_identify events1 -> events1 ≡ₚ events2 -> fold g events1 = fold g events2.
Proof. apply fold_perm. Qed.
End FoldOrder.

Section Loop.
Context {N : NostrTypes} {O : NostrOps}.

(** ** The loop within a second *)

Lemma retain_pass_length s l : (length (snd (retain_pass s l)) <= length l)%nat.
Proof.
  revert s. induction l as [|e l IH]; intros s; [done|]. cbn [retain_pass].
  destruct (apply s e) as [s1 [u|r]].
  - specialize (IH (set_applied ({[ev_id e]} ∪ gs_applied s1) s1)). cbn. lia.
  - specialize (IH s1). destruct (retain_pass s1 l) as [s2 kept]. cbn in *. lia.
Qed.

(** Any fuel above the number of actions gives the same end. *)
Lemma apply_loop_fuel f1 f2 s l :
  (length l < f1)%nat -> (length l < f2)%nat -> apply_loop f1 s l = apply_loop f2 s l.
Proof.
  revert f2 s l. induction f1 as [|f1 IH]; intros f2 s l H1 H2; [lia|].
  destruct f2 as [|f2]; [lia|]. cbn [apply_loop].
  pose proof (retain_pass_length s l) as Hlen. destruct (retain_pass s l) as [s' kept].
  cbn in Hlen. destruct (Nat.eqb (length kept) (length l)) eqn:E; [done|].
  apply Nat.eqb_neq in E. destruct kept as [|e kept]; [done|].
  cbn [orb]. apply IH; lia.
Qed.

(** A pass that keeps everything applied nothing. *)
Lemma retain_pass_kept_all s l :
  length (snd (retain_pass s l)) = length l -> snd (retain_pass s l) = l.
Proof.
  revert s. induction l as [|e l IH]; intros s; [done|]. cbn [retain_pass].
  destruct (apply s e) as [s1 [u|r]].
  - pose proof (retain_pass_length (set_applied ({[ev_id e]} ∪ gs_applied s1) s1) l). cbn. lia.
  - specialize (IH s1). destruct (retain_pass s1 l) as [s2 kept]. cbn in *.
    intros [= H]. by rewrite IH.
Qed.
(** *** Whether an action applies does not depend on the silences *)

Definition same_but_silences (s1 s2 : GroupState) : Prop :=
  set_silences [] s1 = set_silences [] s2.

Lemma same_silences_intro s x : same_but_silences s (set_silences x s).
Proof. by destruct s. Qed.
Lemma same_silences_elim s1 s2 : same_but_silences s1 s2 ->
  s2 = set_silences (gs_silences s2) s1.
Proof. destruct s1, s2. unfold same_but_silences. cbn. by intros [= -> -> -> -> -> -> -> -> -> -> -> -> -> -> -> -> -> ->]. Qed.
#[local] Instance same_silences_equiv : Equivalence same_but_silences.
Proof. unfold same_but_silences. split; red; congruence. Qed.

Lemma is_ok_edit before next actor e x :
  is_ok (edit before (set_silences x next) actor e) = is_ok (edit before next actor e) /\
  forall s1 s2, edit before (set_silences x next) actor e = Ok s1 ->
    edit before next actor e = Ok s2 -> same_but_silences s2 s1.
Proof.
  destruct next. destruct e; cbn [edit]; split.
  all: unfold edit_name, edit_public, edit_newcomer_wait, edit_about, edit_channel,
    edit_channel_delete, edit_override, edit_role, edit_role_delete, has_channel, same_but_silences; cbn.
  all: repeat case_goal; try done; intros ?? [= <-] [= <-]; done.
Qed.
Lemma is_ok_edit_all before n1 n2 actor es :
  same_but_silences n1 n2 ->
  is_ok (edit_all before n1 actor es) = is_ok (edit_all before n2 actor es).
Proof.
  revert n1 n2. induction es as [|e es IH]; intros n1 n2 H; [done|]. cbn [edit_all].
  apply same_silences_elim in H. rewrite H. set (x := gs_silences n2). clearbody x. clear H n2.
  destruct (is_ok_edit before n1 actor e x) as [Hok Hs].
  destruct (edit before (set_silences x n1) actor e) as [m2|], (edit before n1 actor e) as [m1|];
    try done. by apply IH, Hs.
Qed.

Lemma edit_all_before before x next actor es :
  edit_all (set_silences x before) next actor es = edit_all before next actor es.
Proof.
  revert next. induction es as [|e es IH]; intros next; [done|]. cbn [edit_all].
  change (edit (set_silences x before)) with (edit before).
  destruct (edit before next actor e); [apply IH|done].
Qed.

(** What the guards read is not the silences. *)
Lemma granted_silences s x actor wanted acc rs :
  granted (set_silences x s) actor wanted acc rs = granted s actor wanted acc rs.
Proof.
  revert acc. induction rs as [|r rs IH]; intros acc; [done|]. cbn [granted].
  change (gs_roles (set_silences x s)) with (gs_roles s).
  destruct (gs_roles s !! r); cbn; [|done].
  change (outranks_role (set_silences x s)) with (outranks_role s).
  destruct (outranks_role s actor r0); [apply IH|done].
Qed.
Lemma is_ok_put s x actor at_ t roles :
  is_ok (apply_put (set_silences x s) actor at_ t roles) = is_ok (apply_put s actor at_ t roles).
Proof.
  unfold apply_put. rewrite granted_silences.
  change (require_member (set_silences x s)) with (require_member s).
  change (is_owner (set_silences x s)) with (is_owner s).
  change (gs_roles (set_silences x s)) with (gs_roles s).
  change (gs_members (set_silences x s)) with (gs_members s).
  change (gs_bans (set_silences x s)) with (gs_bans s).
  change (require (set_silences x s)) with (require s).
  change (outranks (set_silences x s)) with (outranks s).
  change (can_grant (set_silences x s)) with (can_grant s).
  repeat case_goal; done.
Qed.
Lemma is_ok_settle s r : is_ok (snd (settle s r)) = is_ok r.
Proof. by destruct r. Qed.
Lemma is_ok_mute s actor at_ t u :
  is_ok (snd (apply_mute s actor at_ t u)) =
  is_ok (mute_guards s actor t) &&
  match u with Some u => at_ <? u | None => opt_bool (gs_mutes s !! t) end.
Proof.
  unfold apply_mute. destruct (mute_guards s actor t); cbn; [|done].
  destruct u as [u|]; [by destruct (at_ <? u)|]. by destruct (gs_mutes s !! t).
Qed.

Lemma is_ok_apply s x e : is_ok (snd (apply (set_silences x s) e)) = is_ok (snd (apply s e)).
Proof.
  unfold apply. destruct (parse_action e) as [[g a]|]; [|done].
  destruct a as [t roles|t ban|t|t u|es|c ex|c|]; rewrite ?is_ok_settle, ?is_ok_mute; try done.
  - apply is_ok_put.
  - unfold apply_remove.
    change (require_member (set_silences x s)) with (require_member s).
    change (require (set_silences x s)) with (require s).
    change (outranks (set_silences x s)) with (outranks s).
    change (is_owner (set_silences x s)) with (is_owner s).
    change (is_member (set_silences x s)) with (is_member s).
    repeat case_goal; done.
  - unfold apply_unban.
    change (require_member (set_silences x s)) with (require_member s).
    change (require (set_silences x s)) with (require s).
    change (gs_bans (set_silences x s)) with (gs_bans s). repeat case_goal; done.
  - unfold apply_edit. change (require_member (set_silences x s)) with (require_member s).
    destruct (require_member s (ev_pubkey e)); [|done].
    rewrite edit_all_before. symmetry. apply is_ok_edit_all, same_silences_intro.
  - unfold apply_join. change (is_member (set_silences x s)) with (is_member s).
    change (invite_honoured (set_silences x s)) with (invite_honoured s).
    change (gs_invites (set_silences x s)) with (gs_invites s).
    change (gs_public (set_silences x s)) with (gs_public s).
    change (gs_bans (set_silences x s)) with (gs_bans s).
    destruct c; repeat case_goal; done.
  - unfold apply_leave. change (is_owner (set_silences x s)) with (is_owner s).
    change (is_member (set_silences x s)) with (is_member s). repeat case_goal; done.
Qed.

(** A refused action changes at most the silences. *)
Lemma apply_err_same s e :
  is_ok (snd (apply s e)) = false -> same_but_silences s (fst (apply s e)).
Proof.
  unfold apply. destruct (parse_action e) as [[g a]|]; [|done].
  destruct a as [t roles|t ban|t|t u|es|c ex|c|]; try done;
    try (unfold settle; case_goal; done).
  unfold apply_mute. destruct (mute_guards s (ev_pubkey e) t); [|done].
  destruct u as [u|]; cbn [gs_mutes set_silences]; case_goal; cbn; try done;
    intros _; apply same_silences_intro.
Qed.

Lemma is_ok_apply_same s1 s2 e :
  same_but_silences s1 s2 -> is_ok (snd (apply s2 e)) = is_ok (snd (apply s1 e)).
Proof. intros H. rewrite (same_silences_elim _ _ H). apply is_ok_apply. Qed.

(** A pass that keeps everything leaves a state where nothing kept applies. *)
Lemma retain_pass_stuck s l :
  length (snd (retain_pass s l)) = length l ->
  same_but_silences s (fst (retain_pass s l)) /\
  forall e, e ∈ l -> is_ok (snd (apply (fst (retain_pass s l)) e)) = false.
Proof.
  revert s. induction l as [|e l IH]; intros s Hk.
  - split; [done|]. intros x Hx. by apply not_elem_of_nil in Hx.
  - cbn [retain_pass] in *. pose proof (apply_err_same s e) as Herr.
    destruct (apply s e) as [s1 [u|r]] eqn:E.
    + pose proof (retain_pass_length (set_applied ({[ev_id e]} ∪ gs_applied s1) s1) l) as Hl.
      cbn in *. lia.
    + specialize (IH s1). destruct (retain_pass s1 l) as [s2 kept]. cbn in *.
      injection Hk as Hk. destruct (IH Hk) as [Hs Hno]. specialize (Herr eq_refl).
      assert (Hs2 : same_but_silences s s2) by (by transitivity s1).
      split; [done|]. intros x Hx. apply elem_of_cons in Hx as [->|Hx]; [|auto].
      rewrite (is_ok_apply_same _ _ _ Hs2), E. done.
Qed.

Lemma retain_pass_sub s l e : e ∈ snd (retain_pass s l) -> e ∈ l.
Proof.
  revert s. induction l as [|x l IH]; intros s; [done|]. cbn [retain_pass].
  destruct (apply s x) as [s1 [u|r]].
  - intros H%IH. by right.
  - destruct (retain_pass s1 l) as [s2 kept] eqn:E2. cbn. rewrite !elem_of_cons.
    intros [->|H]; [by left|]. right. apply (IH s1). by rewrite E2.
Qed.

Lemma apply_loop_stuck f s l :
  (length l < f)%nat ->
  forall e, e ∈ snd (apply_loop f s l) ->
    e ∈ l /\ is_ok (snd (apply (fst (apply_loop f s l)) e)) = false.
Proof.
  revert s l. induction f as [|f IH]; intros s l Hf e; [lia|]. cbn [apply_loop].
  pose proof (retain_pass_length s l) as Hlen. pose proof (retain_pass_stuck s l) as Hst.
  pose proof (retain_pass_sub s l) as Hsub. destruct (retain_pass s l) as [s' kept].
  cbn in Hlen, Hst, Hsub. destruct (Nat.eqb (length kept) (length l)) eqn:E; cbn [orb].
  - apply Nat.eqb_eq in E. cbn. intros He. split; [by apply Hsub|].
    apply (Hst E). by apply Hsub.
  - apply Nat.eqb_neq in E. destruct kept as [|k kept]; [cbn; by intros ?%not_elem_of_nil|].
    intros He. destruct (IH s' (k :: kept) ltac:(cbn in *; lia) e He) as [Hin Hno].
    split; [by apply Hsub|done].
Qed.

(** Within one second, actions are applied until nothing more applies:
    the loop ends whatever it is given (any larger fuel gives the same state),
    and no action it leaves over is valid in the state it ends in. *)
Theorem apply_second_exhausts s pending f :
  (length pending < f)%nat ->
  let '(s', rest) := apply_loop f s pending in
  apply_second s pending = s' /\
  forall e, e ∈ rest -> e ∈ pending /\ is_ok (snd (apply s' e)) = false.
Proof.
  intros Hf. pose proof (apply_loop_stuck f s pending Hf) as H.
  destruct (apply_loop f s pending) as [s' rest] eqn:E. split; [|exact H].
  unfold apply_second. rewrite (apply_loop_fuel _ f) by lia. by rewrite E.
Qed.
End Loop.
