(* ===== verification/Authority.v ===== *)
(** What the answers of [GroupState] mean: permissions bit by bit, ranks, and
    the channel overrides, against the rules they are documented by; then what
    it takes for a message to be accepted and an event to be read. *)
From S2P Require Import Prelude Text Nostr GroupEvent Replace Perm Zap GroupState.

#[local] Open Scope Z_scope.

Section Authority.
Context {N : NostrTypes} {O : NostrOps}.

(** The roles a member answers for: the default one and those held. *)
Definition counts (held : gset string) (r : string) : Prop := r = DEFAULT_ROLE \/ r ∈ held.
#[global] Instance counts_dec held r : Decision (counts held r).
Proof. unfold counts. apply _. Defined.

Lemma counts_entries held r :
  r ∈ DEFAULT_ROLE :: set_entries String.leb held <-> counts held r.
Proof. rewrite elem_of_cons, set_entries_elem. done. Qed.

(** ** Permissions bit by bit *)
Lemma union_roles_bit (roles : gmap string RoleDef) l acc i : 0 <= i ->
  Z.testbit (foldl (fun perms r => match roles !! r with
                                   | Some role => Perm.union perms (r_perms role)
                                   | None => perms
                                   end) acc l) i = true <->
  Z.testbit acc i = true \/
  exists r role, r ∈ l /\ roles !! r = Some role /\ Z.testbit (r_perms role) i = true.
Proof.
  intros Hi. revert acc. induction l as [|r l IH]; intros acc; cbn [foldl].
  - split; [auto|]. intros [H|(r & ? & Hr & _)]; [done|by apply not_elem_of_nil in Hr].
  - rewrite IH. destruct (roles !! r) as [role|] eqn:E.
    + unfold Perm.union. rewrite Z.lor_spec, orb_true_iff. split.
      * intros [[H|H]|(r' & role' & Hr & H)]; [by left|right|right].
        -- exists r, role. split; [left|done].
        -- exists r', role'. split; [by right|done].
      * intros [H|(r' & role' & Hr & H1 & H2)]; [auto|].
        apply elem_of_cons in Hr as [->|Hr]; [|right; eauto].
        rewrite E in H1. injection H1 as ->. auto.
    + split.
      * intros [H|(r' & role' & Hr & H)]; [by left|right]. exists r', role'. split; [by right|done].
      * intros [H|(r' & role' & Hr & H1 & H2)]; [auto|].
        apply elem_of_cons in Hr as [->|Hr]; [congruence|right; eauto].
Qed.

Lemma base_of_bit s held i : 0 <= i ->
  Z.testbit (base_of s held) i = true <->
  Z.testbit Perm.ALL i = true /\
  exists r role, counts held r /\ gs_roles s !! r = Some role /\ Z.testbit (r_perms role) i = true.
Proof.
  intros Hi. unfold base_of, Perm.sanitized. rewrite Z.land_spec, andb_true_iff, union_roles_bit by done.
  unfold Perm.NONE. rewrite Z.bits_0. setoid_rewrite counts_entries.
  split; [intros [[H|H] HA]; [done|auto]|intros [HA H]; auto].
Qed.

Lemma base_of_all s held : Perm.subset (base_of s held) Perm.ALL.
Proof. apply Perm.sanitized_all. Qed.
Lemma base_of_u64 s held : is_u64 (base_of s held).
Proof. apply Perm.sanitized_u64. Qed.
Lemma base_u64 s p : is_u64 (base s p).
Proof.
  unfold base. destruct (is_owner s p); [done|].
  destruct (gs_members s !! p); [apply base_of_u64|done].
Qed.
Lemma base_owner s p : is_owner s p = true -> base s p = Perm.ALL.
Proof. unfold base. by intros ->. Qed.
Lemma base_member s p held :
  is_owner s p = false -> gs_members s !! p = Some held -> base s p = base_of s held.
Proof. unfold base. by intros -> ->. Qed.
Lemma base_outsider s p :
  is_owner s p = false -> gs_members s !! p = None -> base s p = Perm.NONE.
Proof. unfold base. by intros -> ->. Qed.
Lemma is_owner_eq s p : is_owner s p = true <-> gs_owner s = Some p.
Proof. unfold is_owner. apply bool_decide_eq_true. Qed.
Lemma is_member_some s p : is_member s p = true <-> exists held, gs_members s !! p = Some held.
Proof. unfold is_member. destruct (gs_members s !! p); cbn; naive_solver. Qed.

Lemma can_grant_subset s actor granting : is_u64 granting ->
  can_grant s actor granting = true <-> Perm.subset granting (base s actor).
Proof. intros H. by apply Perm.beyond_empty. Qed.

(** ** Ranks *)
Lemma foldl_max_spec l x :
  x <= foldl Z.max x l /\ (forall y, y ∈ l -> y <= foldl Z.max x l) /\
  (foldl Z.max x l = x \/ foldl Z.max x l ∈ l).
Proof.
  revert x. induction l as [|z l IH]; intros x; cbn [foldl].
  - repeat split; [lia|intros y Hy; by apply not_elem_of_nil in Hy|by left].
  - destruct (IH (Z.max x z)) as (H1 & H2 & H3). repeat split; [lia| |].
    + intros y Hy. apply elem_of_cons in Hy as [->|Hy]; [lia|auto].
    + destruct H3 as [H3|H3]; [|right; by right]. rewrite H3.
      destruct (Z.max_spec x z) as [[_ ->]|[_ ->]]; [right; left|by left].
Qed.

(** [n] is the rank: some held role's position, or the floor with none. *)
Definition held_role (s : GroupState) (p : PublicKey) (role : RoleDef) : Prop :=
  exists held r, gs_members s !! p = Some held /\ r ∈ held /\ gs_roles s !! r = Some role.
Lemma rank_spec s p :
  (forall role, held_role s p role -> r_position role <= rank s p) /\
  (rank s p = RANK_FLOOR \/ exists role, held_role s p role /\ r_position role = rank s p).
Proof.
  unfold rank, held_role. destruct (gs_members s !! p) as [held|]; cbn; [|split; [naive_solver|by left]].
  set (ps := map r_position (filter_map (fun r => gs_roles s !! r) (set_entries String.leb held))).
  assert (Hps : forall n, n ∈ ps <-> exists role r, r ∈ held /\ gs_roles s !! r = Some role
    /\ r_position role = n).
  { intros n. unfold ps, filter_map. rewrite list_elem_of_fmap. setoid_rewrite list_elem_of_omap.
    setoid_rewrite set_entries_elem. naive_solver. }
  destruct ps as [|x l]; cbn [max_of opt_get].
  - split; [|by left]. intros role (h & r & [= <-] & Hr & E).
    assert (r_position role ∈ []) by (apply Hps; eauto). by apply not_elem_of_nil in H.
  - destruct (foldl_max_spec l x) as (H1 & H2 & H3). split.
    + intros role (h & r & [= <-] & Hr & E).
      assert (r_position role ∈ x :: l) as Hin by (apply Hps; eauto).
      apply elem_of_cons in Hin as [->|Hin]; [done|auto].
    + right. assert (foldl Z.max x l ∈ x :: l) as Hin.
      { destruct H3 as [->|H3]; [left|by right]. }
      apply Hps in Hin as (role & r & Hr & E & Hp). eauto 10.
Qed.
Lemma rank_le s p n :
  RANK_FLOOR <= n -> (forall role, held_role s p role -> r_position role <= n) -> rank s p <= n.
Proof.
  intros Hf H. destruct (rank_spec s p) as [_ [->|(role & Hr & <-)]]; auto.
Qed.

(** ** Channel overrides *)

(** The bits an applicable override of [channel] gives ([f := ov_allow]) or
    takes ([f := ov_deny]). *)
Definition overridden (s : GroupState) (f : Override -> Z) (held : gset string)
    (ch : string) (i : Z) : bool :=
  existsb (fun o => bool_decide (ov_channel o = ch) && bool_decide (counts held (ov_role o))
                    && Z.testbit (f o) i) (gs_overrides s).

Lemma overrides_bits s held ch acc i : 0 <= i ->
  let '(a, d) :=
    foldl (fun '(allow, deny) o =>
             if bool_decide (ov_role o = DEFAULT_ROLE) || bool_decide (ov_role o ∈ held)
             then (Perm.union allow (ov_allow o), Perm.union deny (ov_deny o))
             else (allow, deny)) acc
      (List.filter (fun o => bool_decide (ov_channel o = ch)) (gs_overrides s)) in
  Z.testbit a i = Z.testbit (fst acc) i || overridden s ov_allow held ch i /\
  Z.testbit d i = Z.testbit (snd acc) i || overridden s ov_deny held ch i.
Proof.
  intros Hi. unfold overridden. revert acc.
  induction (gs_overrides s) as [|o l IH]; intros [a d]; cbn [List.filter existsb].
  - cbn. by rewrite !orb_false_r.
  - assert (Hc : bool_decide (ov_role o = DEFAULT_ROLE) || bool_decide (ov_role o ∈ held)
      = bool_decide (counts held (ov_role o))).
    { apply eq_true_iff_eq. rewrite orb_true_iff, !bool_decide_eq_true. done. }
    destruct (bool_decide (ov_channel o = ch)); cbn [foldl andb]; [|by apply IH].
    rewrite Hc. destruct (bool_decide (counts held (ov_role o))); cbn [andb orb]; [|by apply IH].
    specialize (IH (Perm.union a (ov_allow o), Perm.union d (ov_deny o))).
    destruct (foldl _ _ _) as [a' d']. cbn in *. destruct IH as [-> ->].
    unfold Perm.union. by rewrite !Z.lor_spec, !orb_assoc.
Qed.

(** A member's permissions in a channel, bit by bit: what an applicable
    override allows there wins, what one denies is taken from the group-wide
    permissions, only channel-scoped bits can be overridden, and no bit this
    build does not define is ever granted. *)
Theorem effective_spec s p held ch i :
  is_owner s p = false -> gs_members s !! p = Some held -> 0 <= i ->
  Z.testbit (effective s p ch) i =
  Z.testbit Perm.ALL i &&
  (if Z.testbit Perm.CHANNEL_SCOPED i
   then overridden s ov_allow held ch i
        || (Z.testbit (base s p) i && negb (overridden s ov_deny held ch i))
   else Z.testbit (base s p) i).
Proof.
  intros Ho Hm Hi. rewrite (base_member s p held Ho Hm). unfold effective. rewrite Ho, Hm.
  unfold effective_of. pose proof (overrides_bits s held ch (Perm.NONE, Perm.NONE) i Hi) as H.
  destruct (foldl _ _ _) as [a d]. cbn [fst snd] in H. unfold Perm.NONE in H.
  rewrite Z.bits_0 in H. cbn [orb] in H. destruct H as [<- <-].
  unfold Perm.sanitized at 1, Perm.union, Perm.intersection.
  change (Perm.without (base_of s held) (Z.land d Perm.CHANNEL_SCOPED))
    with (Perm.beyond (base_of s held) (Z.land d Perm.CHANNEL_SCOPED)).
  rewrite Z.land_spec, Z.lor_spec, Perm.beyond_spec, !Z.land_spec by (done || apply base_of_u64).
  destruct (Z.testbit Perm.ALL i), (Z.testbit Perm.CHANNEL_SCOPED i), (Z.testbit a i),
    (Z.testbit d i), (Z.testbit (base_of s held) i); done.
Qed.

Lemma effective_all s p ch : Perm.subset (effective s p ch) Perm.ALL.
Proof.
  unfold effective. destruct (is_owner s p); [apply Perm.subset_refl|].
  destruct (gs_members s !! p); [|by apply Perm.subset_none].
  unfold effective_of. destruct (foldl _ _ _). apply Perm.sanitized_all.
Qed.
Lemma effective_outsider s p ch :
  is_owner s p = false -> gs_members s !! p = None -> effective s p ch = Perm.NONE.
Proof. unfold effective. by intros -> ->. Qed.
End Authority.
