(* ===== verification/Safety.v ===== *)
(** What no action can do: the well-formedness every fold keeps, the owner
    nobody acts on, and the escalation rule - nobody hands out a permission
    they do not hold, touches a role at or above their rank, or acts on a
    person who outranks them. *)
From S2P Require Import Prelude Text Nostr GroupEvent Replace Perm Zap GroupState Fold.
From S2P Require Import Authority.

#[local] Open Scope Z_scope.

Section Safety.
Context {N : NostrTypes} {O : NostrOps}.

(** ** Well-formed states *)
Record roles_wf (roles : gmap string RoleDef) : Prop := {
  rw_default : is_Some (roles !! DEFAULT_ROLE);
  rw_mark : roles !! OWNER_MARK = None;
  rw_ids id r : roles !! id = Some r -> r_id r = id;
  rw_perms id r : roles !! id = Some r -> Perm.sanitized (r_perms r) = r_perms r;
  rw_positions id r : roles !! id = Some r -> is_i64 (r_position r);
}.
Record wf (s : GroupState) : Prop := {
  wf_roles : roles_wf (gs_roles s);
  wf_held p held r : gs_members s !! p = Some held -> r ∈ held ->
    r <> DEFAULT_ROLE /\ is_Some (gs_roles s !! r);
  wf_owner o : gs_owner s = Some o -> gs_members s !! o = Some ∅;
  wf_named o : gs_owner s = Some o -> gs_named_owner s = Some o;
  wf_joined p : is_Some (gs_joined s !! p) -> is_Some (gs_members s !! p);
  wf_wait : is_u32 (gs_newcomer_wait s);
  wf_channels : Forall channel_wf (gs_channels s);
  wf_overrides : Forall override_wf (gs_overrides s);
  wf_mutes : map_Forall (fun _ u => is_u64 u) (gs_mutes s);
}.

Lemma role_sanitized_u64 roles id r : roles_wf roles -> roles !! id = Some r -> is_u64 (r_perms r).
Proof. intros Hw H. rewrite <- (rw_perms _ Hw id r H). apply Perm.sanitized_u64. Qed.
Lemma role_below_all roles id r :
  roles_wf roles -> roles !! id = Some r -> Perm.subset (r_perms r) Perm.ALL.
Proof. intros Hw H. rewrite <- (rw_perms _ Hw id r H). apply Perm.sanitized_all. Qed.
Lemma held_not_mark s p held : wf s -> gs_members s !! p = Some held -> OWNER_MARK ∉ held.
Proof.
  intros Hw Hm Hin. destruct (wf_held s Hw p held OWNER_MARK Hm Hin) as [_ [r Hr]].
  by rewrite (rw_mark _ (wf_roles s Hw)) in Hr.
Qed.

(** In a well-formed state, a role's bits are in its holders' base. *)
Lemma role_in_base s p held r role :
  wf s -> is_owner s p = false -> gs_members s !! p = Some held -> counts held r ->
  gs_roles s !! r = Some role -> Perm.subset (r_perms role) (base s p).
Proof.
  intros Hw Ho Hm Hc Hr i Hi Hb. rewrite (base_member s p held Ho Hm). apply base_of_bit; [done|].
  split; [by eapply role_below_all; eauto; apply Hw|eauto].
Qed.

(** ** What an edit can do

An edit is judged against [before]; [next] is what the batch has made so far.
[edited] is what holds of [next] whoever the actor is, [bounded] what holds
when the actor is not the owner. *)
Record edited (before next : GroupState) : Prop := {
  ed_owner : gs_owner next = gs_owner before;
  ed_named : gs_named_owner next = gs_named_owner before;
  ed_id : gs_id next = gs_id before;
  ed_seq : gs_seq next = gs_seq before;
  ed_cutoff : gs_cutoff next = gs_cutoff before;
  ed_joined : gs_joined next = gs_joined before;
  ed_bans : gs_bans next = gs_bans before;
  ed_mutes : gs_mutes next = gs_mutes before;
  ed_silences : gs_silences next = gs_silences before;
  ed_invites : gs_invites next = gs_invites before;
  ed_applied : gs_applied next = gs_applied before;
  ed_members p : match gs_members before !! p with
                 | None => gs_members next !! p = None
                 | Some held => exists held', gs_members next !! p = Some held' /\ held' ⊆ held
                 end;
}.
Record bounded (before next : GroupState) (actor : PublicKey) : Prop := {
  bd_public : gs_public next = gs_public before;
  bd_default : gs_roles next !! DEFAULT_ROLE = gs_roles before !! DEFAULT_ROLE;
  bd_roles id r : gs_roles next !! id = Some r ->
    gs_roles before !! id = Some r \/
    (Perm.subset (r_perms r) (base before actor) /\ r_position r < rank before actor);
  bd_above id r : gs_roles before !! id = Some r -> rank before actor <= r_position r ->
    gs_roles next !! id = Some r;
  bd_held p held r role : gs_members before !! p = Some held -> r ∈ held ->
    gs_roles before !! r = Some role -> rank before actor <= r_position role ->
    exists held', gs_members next !! p = Some held' /\ r ∈ held';
}.

Lemma edited_refl s : edited s s.
Proof. split; try done. intros p. destruct (gs_members s !! p); eauto. Qed.
Lemma bounded_refl s a : bounded s s a.
Proof. split; eauto. Qed.

Lemma edited_members_same before next next' :
  edited before next -> gs_members next' = gs_members next ->
  gs_owner next' = gs_owner next -> gs_named_owner next' = gs_named_owner next ->
  gs_id next' = gs_id next -> gs_seq next' = gs_seq next -> gs_cutoff next' = gs_cutoff next ->
  gs_joined next' = gs_joined next -> gs_bans next' = gs_bans next ->
  gs_mutes next' = gs_mutes next -> gs_silences next' = gs_silences next ->
  gs_invites next' = gs_invites next -> gs_applied next' = gs_applied next ->
  edited before next'.
Proof.
  intros [] Hm. intros. split; try congruence. intros p. rewrite Hm. apply ed_members0.
Qed.

Lemma set_overrides_edited before next v : edited before next -> edited before (set_overrides v next).
Proof. intros []. by split. Qed.

Lemma edit_edited before next next' actor e :
  edited before next -> edit before next actor e = Ok next' -> edited before next'.
Proof.
  intros He. destruct e; cbn [edit].
  all: unfold edit_name, edit_public, edit_newcomer_wait, edit_about, edit_channel,
    edit_channel_delete, edit_override, edit_role, edit_role_delete; intros H.
  1-8: inv_result; apply (edited_members_same before next); try exact He; reflexivity.
  inv_result. destruct He. split; try done. intros p. cbn. rewrite lookup_fmap.
  specialize (ed_members0 p). destruct (gs_members before !! p) as [held|].
  - destruct ed_members0 as (held' & -> & Hs). cbn. eexists. split; [done|]. set_solver.
  - by rewrite ed_members0.
Qed.

(** A role edit or deletion that went through, by an actor who is not the owner. *)
Lemma edit_role_bounded before next next' actor r :
  is_owner before actor = false -> bounded before next actor ->
  edit_role before next actor r = Ok next' -> bounded before next' actor.
Proof.
  intros Ho [Hpub Hd Hr Ha Hh]. unfold edit_role. rewrite Ho. cbn [r_id r_perms r_position].
  intros H. inv_result. bools.
  assert (Hne : r_id r <> DEFAULT_ROLE) by done.
  assert (Hsub : Perm.subset (Perm.sanitized (r_perms r)) (base before actor)).
  { apply can_grant_subset; [apply Perm.sanitized_u64|done]. }
  assert (Hrk : r_position r < rank before actor).
  { unfold outranks_role in *. rewrite Ho in *. cbn in *. by bools. }
  split; cbn.
  - done.
  - by rewrite lookup_insert_ne.
  - intros id r'. rewrite lookup_insert. case_decide; [|apply Hr].
    intros [= <-]. by right.
  - intros id r' Hb Hp. rewrite lookup_insert_ne; [by apply Ha|]. intros <-.
    match goal with H : is_none_or _ _ = true |- _ => rewrite Hb in H; cbn in H;
      unfold outranks_role in H; rewrite Ho in H; cbn in H end.
    bools. lia.
  - done.
Qed.
Lemma edit_role_delete_bounded before next next' actor id :
  is_owner before actor = false -> bounded before next actor ->
  edit_role_delete before next actor id = Ok next' -> bounded before next' actor.
Proof.
  intros Ho [Hpub Hd Hr Ha Hh]. unfold edit_role_delete. intros H. inv_result. bools.
  match goal with H : outranks_role _ _ _ = true |- _ =>
    unfold outranks_role in H; rewrite Ho in H; cbn in H end. bools.
  destruct (gs_roles before !! id) as [role|] eqn:Er; cbn in *; [|discriminate].
  inv_result. split; cbn.
  - done.
  - by rewrite lookup_delete_ne.
  - intros id' r' [_ Hl]%lookup_delete_Some. by apply Hr.
  - intros id' r' Hb Hp. rewrite lookup_delete_ne; [by apply Ha|]. intros <-.
    rewrite Er in Hb. injection Hb as <-. lia.
  - intros p held r x Hm Hin Hx Hp. destruct (Hh p held r x Hm Hin Hx Hp) as (held' & Hm' & Hin').
    rewrite lookup_fmap, Hm'. eexists. split; [done|].
    apply elem_of_difference. split; [done|]. rewrite elem_of_singleton. intros ->.
    rewrite Er in Hx. injection Hx as <-. lia.
Qed.

Lemma edit_bounded before next next' actor e :
  is_owner before actor = false -> bounded before next actor ->
  edit before next actor e = Ok next' -> bounded before next' actor.
Proof.
  intros Ho Hb H. destruct e; cbn [edit] in H;
    [..|by eapply edit_role_bounded|by eapply edit_role_delete_bounded].
  all: unfold edit_name, edit_public, edit_newcomer_wait, edit_about, edit_channel,
    edit_channel_delete, edit_override in H; rewrite ?Ho in H; inv_result; by destruct Hb; split.
Qed.

Lemma edit_all_edited before next next' actor es :
  edited before next -> edit_all before next actor es = Ok next' -> edited before next'.
Proof.
  revert next. induction es as [|e es IH]; intros next He; cbn [edit_all].
  - by intros [= <-].
  - destruct (edit before next actor e) eqn:E; [|done]. apply IH. by eapply edit_edited.
Qed.
Lemma edit_all_bounded before next next' actor es :
  is_owner before actor = false -> bounded before next actor ->
  edit_all before next actor es = Ok next' -> bounded before next' actor.
Proof.
  intros Ho. revert next. induction es as [|e es IH]; intros next He; cbn [edit_all].
  - by intros [= <-].
  - destruct (edit before next actor e) eqn:E; [|done]. apply IH. by eapply edit_bounded.
Qed.
End Safety.
