(* ===== verification/Invariant.v ===== *)
(** The invariant of a group's state: what the parsers let in is in range,
    every action keeps a state well formed ([wf]), and so does the whole fold,
    whatever events it is given. *)
From S2P Require Import Prelude Text Nostr GroupEvent Replace Perm Zap GroupState Fold.
From S2P Require Import Authority Safety.

#[local] Open Scope Z_scope.

(** ** What a parser returns is in range *)
Lemma parse_u32_wf s n : parse_u U32_MAX s = Some n -> is_u32 n.
Proof. by apply parse_u_bound. Qed.
Lemma parse_u64_wf s n : parse_u64 s = Some n -> is_u64 n.
Proof. by apply parse_u_bound. Qed.
#[export] Hint Resolve parse_u32_wf parse_u64_wf parse_i64_bound : hit.

Lemma parse_channel_wf l c : parse_channel l = Some c -> channel_wf c.
Proof.
  unfold parse_channel. intros H. inv_result; unfold channel_wf; cbn; [done|eauto with hit].
Qed.

Lemma Edit_parse_wf row e : Edit_parse row = Some (Some e) -> edit_wf e.
Proof.
  unfold Edit_parse. destruct row as [|n args]; [done|]. intros H.
  repeat (case_bool_decide; [inv_result; cbn; unfold override_wf, role_wf; cbn;
    eauto using parse_channel_wf with hit|]). done.
Qed.
Lemma parse_edits_wf rows es : parse_edits rows = Some es -> Forall edit_wf es.
Proof.
  revert es. induction rows as [|row rows IH]; intros es; cbn [parse_edits].
  - by intros [= <-].
  - destruct (Edit_parse row) as [[e|]|] eqn:E; [| |done].
    all: destruct (parse_edits rows) as [es'|]; [|done]; intros [= <-].
    + constructor; [by eapply Edit_parse_wf|auto].
    + auto.
Qed.

(** A row loop keeps what each row keeps. *)
Lemma fold_opt_inv {A B} (P : A -> Prop) (f : A -> B -> option A) l a a' :
  (forall a b a', P a -> f a b = Some a' -> P a') -> P a -> fold_opt f a l = Some a' -> P a'.
Proof.
  intros Hf. revert a. induction l as [|b l IH]; intros a Ha; cbn.
  - by intros [= <-].
  - destruct (f a b) eqn:E; [|done]. eauto.
Qed.

Definition meta_wf (m : MetaAcc) : Prop :=
  is_u32 (ma_wait m) /\ Forall channel_wf (ma_channels m) /\ Forall override_wf (ma_overrides m).
Lemma meta_row_wf m row m' : meta_wf m -> meta_row m row = Some m' -> meta_wf m'.
Proof.
  unfold meta_wf, meta_row. destruct m as [n p pr w a cs os]. cbn. intros (Hw & Hc & Ho).
  destruct row as [|k args]; [by intros [= <-]|]. intros H.
  repeat (case_bool_decide; [inv_result; cbn;
    rewrite ?Forall_app, ?Forall_singleton; unfold override_wf; cbn;
    intuition eauto using parse_channel_wf with hit|]).
  by injection H as <-.
Qed.
Lemma roles_row_wf acc row acc' :
  Forall role_wf acc -> roles_row acc row = Some acc' -> Forall role_wf acc'.
Proof.
  unfold roles_row. intros Ha H. destruct row as [|k args]; [by injection H as <-|].
  case_bool_decide; [|by injection H as <-]. inv_result.
  apply Forall_app; split; [done|]. apply Forall_singleton. split; cbn; eauto with hit.
Qed.

Section Invariant.
Context {N : NostrTypes} {O : NostrOps}.

Definition piece_wf (p : StatePiece) : Prop :=
  match p with
  | PMetadata _ _ wait _ chans ovs =>
      is_u32 wait /\ Forall channel_wf chans /\ Forall override_wf ovs
  | PMembers _ _ mutes => map_Forall (fun _ u => is_u64 u) mutes
  | PRoles roles => Forall role_wf roles
  | PAdmins _ _ => True
  end.
Definition mutes_wf (m : gmap PublicKey Timestamp) : Prop := map_Forall (fun _ u => is_u64 u) m.
Lemma members_row_wf acc row acc' :
  mutes_wf (snd acc) -> members_row acc row = Some acc' -> mutes_wf (snd acc').
Proof.
  destruct acc as [[a b] m]. cbn. intros Hm H.
  destruct row as [|n [|p rest]]; [by injection H as <-..|].
  unfold members_row in H.
  repeat (case_bool_decide; [inv_result; cbn; try done|]).
  - apply map_Forall_insert_2; eauto with hit.
  - by injection H as <-.
Qed.
Lemma parse_state_wf e g seq piece : parse_state e = Some (g, seq, piece) ->
  is_u64 seq /\ ev_pubkey e = g /\ group_of e = Some g /\ piece_wf piece.
Proof.
  unfold parse_state. destruct (group_of e) as [g'|]; [|done].
  destruct (negb _ || negb _) eqn:Eg; [done|].
  unfold seq_of. destruct (first_value e "seq") as [v|]; [|done].
  destruct (parse_u64 v) as [sq|] eqn:Es; [|done]. bools. intros Hq.
  assert (Hp : forall p, Some (g', sq, p) = Some (g, seq, piece) -> piece_wf p ->
    is_u64 seq /\ ev_pubkey e = g /\ Some g' = Some g /\ piece_wf piece).
  { intros p [= -> -> ->] Hw. split; [by eapply parse_u64_wf|done]. }
  destruct (ev_kind e =? GROUP_METADATA); [|destruct (ev_kind e =? GROUP_ADMINS);
    [|destruct (ev_kind e =? GROUP_MEMBERS)]].
  - destruct (fold_opt meta_row meta0 (ev_tags e)) as [m|] eqn:E; [|done]. apply Hp in Hq; [exact Hq|].
    apply (fold_opt_inv meta_wf) in E; [exact E|apply meta_row_wf|by repeat split].
  - destruct (fold_opt admins_row _ (ev_tags e)) as [m|] eqn:E; [|done]. by apply Hp in Hq.
  - destruct (fold_opt members_row _ (ev_tags e)) as [[[a b] m]|] eqn:E; [|done].
    apply Hp in Hq; [exact Hq|].
    apply (fold_opt_inv (fun x => mutes_wf (snd x))) in E; [exact E|apply members_row_wf|].
    apply map_Forall_empty.
  - destruct (fold_opt roles_row [] (ev_tags e)) as [m|] eqn:E; [|done]. apply Hp in Hq; [exact Hq|].
    apply (fold_opt_inv (Forall role_wf)) in E; [exact E|apply roles_row_wf|by constructor].
Qed.

Definition action_wf (a : Action) : Prop :=
  match a with
  | Mute _ (Some u) => is_u64 u /\ 0 < u
  | AEdit es => Forall edit_wf es /\ es <> []
  | Invite _ (Some x) => is_u64 x
  | _ => True
  end.
Lemma mute_until_wf e u : mute_until e = Some u -> is_u64 u.
Proof.
  intros (row & _ & H)%find_map_some.
  destruct row as [|n [|p [|v rest]]]; try done. case_bool_decide; [by eapply parse_u64_wf|done].
Qed.
Lemma parse_action_wf e g a : parse_action e = Some (g, a) -> group_of e = Some g /\ action_wf a.
Proof.
  unfold parse_action. destruct (group_of e) as [g'|]; [|done]. intros H.
  destruct (ev_kind e =? PUT_USER); [by inv_result|].
  destruct (ev_kind e =? REMOVE_USER); [by inv_result|].
  destruct (ev_kind e =? MUTE_USER).
  { destruct (mute_until e) as [u|] eqn:Eu; [|done]. destruct (target_of e); [|done].
    injection H as -> <-. split; [done|]. destruct (0 <? u) eqn:E0; [|done]. bools.
    split; [by eapply mute_until_wf|done]. }
  destruct (ev_kind e =? EDIT_METADATA).
  { destruct (parse_edits (ev_tags e)) as [[|ed es]|] eqn:Ee; [done| |done].
    injection H as -> <-. split; [done|]. split; [by eapply parse_edits_wf|done]. }
  destruct (ev_kind e =? CREATE_INVITE).
  { destruct (first_value e "code"); [|done].
    destruct (first_value e "expiration") as [t|].
    - destruct (parse_u64 t) eqn:Et; [|done]. injection H as -> <-. split; [done|by eapply parse_u64_wf].
    - by injection H as -> <-. }
  destruct (ev_kind e =? JOIN); [by inv_result|].
  destruct (ev_kind e =? LEAVE); by inv_result.
Qed.

(** ** Every action keeps a state well formed *)
Lemma scoped_u64 b : is_u64 (scoped b).
Proof.
  unfold scoped, Perm.intersection, Perm.sanitized.
  rewrite <- Z.land_assoc, (Z.land_comm Perm.ALL), Z.land_assoc. apply Perm.sanitized_u64.
Qed.
Lemma put_channel_wf c l : channel_wf c -> Forall channel_wf l -> Forall channel_wf (put_channel c l).
Proof.
  intros Hc. induction 1 as [|x l Hx Hl IH]; cbn; [by constructor|].
  case_bool_decide; by constructor.
Qed.
Lemma forall_filter {A} (P : A -> Prop) f l : Forall P l -> Forall P (List.filter f l).
Proof.
  rewrite !Forall_forall. intros H x Hx. apply filter_elem in Hx as [Hx _]. auto.
Qed.

(** [wf] reads no more than these fields. *)
Lemma wf_same s s' : wf s ->
  gs_roles s' = gs_roles s -> gs_members s' = gs_members s -> gs_owner s' = gs_owner s ->
  gs_named_owner s' = gs_named_owner s -> gs_joined s' = gs_joined s ->
  is_u32 (gs_newcomer_wait s') -> Forall channel_wf (gs_channels s') ->
  Forall override_wf (gs_overrides s') -> mutes_wf (gs_mutes s') -> wf s'.
Proof.
  intros [] Hr Hm Ho Hn Hj. intros. split; rewrite ?Hr, ?Hm, ?Ho, ?Hn, ?Hj; auto.
Qed.

Lemma edit_role_wf before next actor r next' :
  wf next -> role_wf r -> edit_role before next actor r = Ok next' -> wf next'.
Proof.
  intros Hw [_ Hpos] H. unfold edit_role in H. cbn [r_id r_perms r_position] in H.
  assert (Hm : r_id r <> OWNER_MARK).
  { intros E. rewrite (bool_decide_true _ E) in H. cbn in H. by inv_result. }
  assert (next' = set_roles (<[r_id r :=
    mkRole (r_id r) (r_name r) (Perm.sanitized (r_perms r)) (r_position r)]> (gs_roles next)) next)
    as -> by by inv_result.
  clear H. destruct Hw as [[Hd Hmk Hids Hp Hps] Hh Hown ? ? ? ? ? ?]. split; try done.
  - split; cbn.
    + rewrite lookup_insert. case_decide; eauto.
    + by rewrite lookup_insert_ne.
    + intros id x. rewrite lookup_insert. case_decide; [by intros [= <-]|auto].
    + intros id x. rewrite lookup_insert. case_decide; [|eauto].
      intros [= <-]. apply Perm.sanitized_idemp.
    + intros id x. rewrite lookup_insert. case_decide; [by intros [= <-]|eauto].
  - intros p held id Hl Hin. cbn in *. destruct (Hh p held id Hl Hin) as [H1 H2].
    split; [done|]. rewrite lookup_insert. case_decide; eauto.
Qed.

Lemma edit_role_delete_wf before next actor id next' :
  wf next -> edit_role_delete before next actor id = Ok next' -> wf next'.
Proof.
  intros Hw H. unfold edit_role_delete in H. inv_result. bools.
  destruct Hw as [[Hd Hmk Hids Hp Hps] Hh Hown ? Hj ? ? ? ?]. split; try done; cbn.
  - split.
    + by rewrite lookup_delete_ne.
    + by rewrite lookup_delete_None; right.
    + intros x y [_ Hl]%lookup_delete_Some. auto.
    + intros x y [_ Hl]%lookup_delete_Some. eauto.
    + intros x y [_ Hl]%lookup_delete_Some. eauto.
  - intros p held x. rewrite lookup_fmap. destruct (gs_members next !! p) as [h|] eqn:El; [|done].
    cbn. intros [= <-] Hin. apply elem_of_difference in Hin as [Hin Hne].
    destruct (Hh p h x El Hin) as [H1 H2]. split; [done|].
    rewrite lookup_delete_ne; [done|]. set_solver.
  - intros o Ho. rewrite lookup_fmap, (Hown o Ho). cbn. f_equal. set_solver.
  - intros p Hp'. rewrite lookup_fmap. destruct (Hj p Hp') as [h ->]. by eexists.
  - by apply forall_filter.
Qed.

Lemma edit_keeps_wf before next actor e next' :
  wf next -> edit_wf e -> edit before next actor e = Ok next' -> wf next'.
Proof.
  intros Hw He H. destruct e; cbn [edit edit_wf] in *;
    [..|by eapply edit_role_wf|by eapply edit_role_delete_wf].
  all: unfold edit_name, edit_public, edit_newcomer_wait, edit_about, edit_channel,
    edit_channel_delete, edit_override in H; inv_result.
  all: apply (wf_same next); try done; try apply Hw; cbn.
  - by apply put_channel_wf; [|apply Hw].
  - apply forall_filter, Hw.
  - apply forall_filter, Hw.
  - destruct (_ || _); [|apply forall_filter, Hw].
    apply Forall_app; split; [apply forall_filter, Hw|].
    apply Forall_singleton. split; cbn; apply scoped_u64.
Qed.
Lemma edit_all_keeps_wf before next actor es next' :
  wf next -> Forall edit_wf es -> edit_all before next actor es = Ok next' -> wf next'.
Proof.
  intros Hw Hes. revert next Hw. induction Hes as [|e es He _ IH]; intros next Hw; cbn [edit_all].
  - by intros [= <-].
  - destruct (edit before next actor e) eqn:E; [|done]. apply IH. by eapply edit_keeps_wf.
Qed.

(** One field of a well-formed state replaced: what each replacement must keep. *)
Lemma wf_members s m : wf s ->
  (forall p held r, m !! p = Some held -> r ∈ held -> r <> DEFAULT_ROLE /\ is_Some (gs_roles s !! r)) ->
  (forall o, gs_owner s = Some o -> m !! o = Some ∅) ->
  (forall p, is_Some (gs_joined s !! p) -> is_Some (m !! p)) -> wf (set_members m s).
Proof. intros [] ???. by split. Qed.
Lemma wf_silences s x : wf s -> wf (set_silences x s).
Proof. intros []. by split. Qed.
Lemma wf_bans s x : wf s -> wf (set_bans x s).
Proof. intros []. by split. Qed.
Lemma wf_invites s x : wf s -> wf (set_invites x s).
Proof. intros []. by split. Qed.
Lemma wf_applied s x : wf s -> wf (set_applied x s).
Proof. intros []. by split. Qed.
Lemma wf_mutes_set s x : wf s -> mutes_wf x -> wf (set_mutes x s).
Proof. intros [] ?. by split. Qed.
Lemma mutes_wf_delete p m : mutes_wf m -> mutes_wf (delete p m).
Proof. apply map_Forall_delete. Qed.

(** Someone is added with the roles [held], or is removed. *)
Lemma wf_add_member s p held : wf s -> is_owner s p = false ->
  (forall r, r ∈ held -> r <> DEFAULT_ROLE /\ is_Some (gs_roles s !! r)) ->
  wf (set_members (<[p := held]> (gs_members s)) s).
Proof.
  intros Hw Ho Hh. unfold is_owner in Ho. bools. apply wf_members; [done|..].
  - intros q h r. rewrite lookup_insert. case_decide; [|by apply wf_held].
    intros [= <-]. apply Hh.
  - intros o Heq. rewrite lookup_insert_ne by congruence. by apply wf_owner.
  - intros q Hq. rewrite lookup_insert. case_decide; [by eexists|by apply wf_joined].
Qed.
Lemma wf_drop_member s p : wf s -> is_owner s p = false ->
  wf (set_joined (delete p (gs_joined s))
       (set_mutes (delete p (gs_mutes s)) (set_members (delete p (gs_members s)) s))).
Proof.
  intros [] Ho. unfold is_owner in Ho. bools. split; try done; cbn.
  - intros q h r [_ Hl]%lookup_delete_Some. eauto.
  - intros o Heq. rewrite lookup_delete_ne by congruence. auto.
  - intros q [t [Hne Ht]%lookup_delete_Some]. rewrite lookup_delete_ne by done. eauto.
  - by apply mutes_wf_delete.
Qed.

Lemma apply_put_wf s actor at_ t roles s' :
  wf s -> apply_put s actor at_ t roles = Ok s' -> wf s'.
Proof.
  intros Hw H. unfold apply_put in H.
  set (wanted := filter (fun r : string => r <> DEFAULT_ROLE) roles) in *.
  destruct (require_member s actor); [|done]. destruct (is_owner s t) eqn:Ho; [done|].
  cbn [negb] in H. destruct (existsb _ _) eqn:Ex; [done|]. cbn [negb] in H.
  assert (Hk : forall r, r ∈ wanted -> r <> DEFAULT_ROLE /\ is_Some (gs_roles s !! r)).
  { intros r Hr. pose proof Hr as [Hne _]%elem_of_filter. split; [done|].
    destruct (gs_roles s !! r) eqn:El; [by eexists|].
    assert (existsb (fun r => bool_decide (r = OWNER_MARK) || negb (opt_bool (gs_roles s !! r)))
      (set_entries String.leb wanted) = true) as Hx; [|congruence].
    apply existsb_elem. exists r. rewrite set_entries_elem, El. cbn. by rewrite orb_true_r. }
  destruct (if negb (opt_bool _) then _ else _); [|done].
  destruct (if negb (bool_decide _) then _ else _); [|done].
  injection H as <-. destruct (gs_members s !! t); cbn [opt_bool].
  - by apply wf_add_member.
  - apply (wf_add_member (let_back_in s t at_)); [by apply wf_silences|done..].
Qed.

Lemma wf_join s p at_ : wf s -> is_member s p = false ->
  wf (set_joined (<[p := at_]> (gs_joined s))
       (set_members (<[p := ∅]> (gs_members s)) (let_back_in s p at_))).
Proof.
  intros Hw Em.
  assert (Ho : is_owner s p = false).
  { destruct (is_owner s p) eqn:Ho; [|done]. apply is_owner_eq in Ho.
    apply wf_owner in Ho; [|done]. unfold is_member in Em. by rewrite Ho in Em. }
  assert (Hw' : wf (set_members (<[p := ∅]> (gs_members s)) s)).
  { apply wf_add_member; [done..|]. intros r Hr. by apply not_elem_of_empty in Hr. }
  pose proof (wf_joined s Hw) as Hj. destruct Hw'. split; try done; cbn.
  intros q. destruct (decide (p = q)) as [<-|Hne].
  - rewrite !lookup_insert_eq. intros _. by eexists.
  - rewrite !lookup_insert_ne by done. apply Hj.
Qed.

Lemma apply_keeps_wf s e : wf s -> wf (fst (apply s e)).
Proof.
  intros Hw. unfold apply. destruct (parse_action e) as [[g a]|] eqn:Ea; [|done].
  apply parse_action_wf in Ea as [_ Hwf].
  assert (Hset : forall r, (forall s', r = Ok s' -> wf s') -> wf (fst (settle s r))).
  { intros [s'|] Hr; cbn; auto. }
  destruct a; try done; try (apply Hset; intros s' H).
  - by eapply apply_put_wf.
  - unfold apply_remove in H. destruct (require_member _ _); [|done].
    destruct (is_owner s target) eqn:Ho; [done|]. cbn [negb] in H.
    destruct (is_member s target || ban); [|done]. destruct (require _ _ _); [|done].
    destruct (outranks _ _ _); [|done]. injection H as <-. pose proof (wf_drop_member s target Hw Ho).
    destruct (is_member s target), ban; repeat first [apply wf_bans|apply wf_silences]; done.
  - unfold apply_unban in H. inv_result. by apply wf_bans.
  - unfold apply_mute. destruct (mute_guards _ _ _); [|done].
    destruct until as [u|]; [destruct (_ <? u)|destruct (gs_mutes _ !! target)]; cbn [fst].
    + apply wf_silences. apply (wf_mutes_set (set_silences _ s)); [by apply wf_silences|].
      apply map_Forall_insert_2; [by destruct Hwf|apply Hw].
    + by apply wf_silences.
    + apply (wf_mutes_set (set_silences _ s)); [by apply wf_silences|].
      apply mutes_wf_delete, Hw.
    + by apply wf_silences.
  - unfold apply_edit in H. destruct (require_member _ _); [|done].
    eapply edit_all_keeps_wf; [exact Hw|apply Hwf|exact H].
  - unfold apply_join in H. destruct (is_member s (ev_pubkey e)) eqn:Em; [done|].
    cbn [negb] in H. inv_result; by apply wf_join.
  - unfold apply_leave in H. destruct (is_owner s (ev_pubkey e)) eqn:Ho; [done|]. cbn [negb] in H.
    inv_result. apply wf_silences. by apply (wf_drop_member s (ev_pubkey e) Hw).
Qed.
End Invariant.
