(* ===== verification/Machine.v ===== *)
(** The group as a state machine.  [step] is what one event does to a state
    when its turn comes, accepted or refused; [steps] is a run.  The fold is a
    run, in time order, from the state its snapshot carries ([fold_runs]), so
    whatever every step keeps, every fold keeps. *)
From S2P Require Import Prelude Text Nostr GroupEvent Replace Perm Zap GroupState Fold.
From S2P Require Import FoldOrder Authority Safety Invariant.

#[local] Open Scope Z_scope.

Section Machine.
Context {N : NostrTypes} {O : NostrOps}.

Inductive step (s : GroupState) (e : Event) : GroupState -> Prop :=
| step_accept s' : apply s e = (s', Ok tt) ->
    step s e (set_applied ({[ev_id e]} ∪ gs_applied s') s')
| step_refuse s' err : apply s e = (s', Err err) -> step s e s'.

Inductive steps : GroupState -> list Event -> GroupState -> Prop :=
| steps_nil s : steps s [] s
| steps_cons s e s1 es s2 : step s e s1 -> steps s1 es s2 -> steps s (e :: es) s2.

Lemma steps_app s1 es1 s2 es2 s3 :
  steps s1 es1 s2 -> steps s2 es2 s3 -> steps s1 (es1 ++ es2) s3.
Proof. induction 1; [done|]. intros. econstructor; eauto. Qed.
Lemma steps_split s1 es1 es2 s3 :
  steps s1 (es1 ++ es2) s3 -> exists s2, steps s1 es1 s2 /\ steps s2 es2 s3.
Proof.
  revert s1. induction es1 as [|e es1 IH]; intros s1 H; cbn in H.
  - exists s1. split; [constructor|done].
  - inversion H as [|? ? s' ? ? Hs Hr]; subst. destruct (IH _ Hr) as (s2 & H1 & H2).
    exists s2. split; [by econstructor|done].
Qed.

(** What every step keeps, a run keeps. *)
Lemma steps_inv (P : GroupState -> Prop) s es s' :
  (forall s e s', P s -> step s e s' -> P s') -> P s -> steps s es s' -> P s'.
Proof. intros Hp H0 H. induction H; eauto. Qed.
(** The same where the invariant asks something of the events. *)
Lemma steps_inv_events (P : GroupState -> Prop) (Q : Event -> Prop) s es s' :
  (forall s e s', P s -> Q e -> step s e s' -> P s') ->
  P s -> Forall Q es -> steps s es s' -> P s'.
Proof.
  intros Hp H0 Hq H. induction H; [done|]. apply Forall_cons in Hq as [Hq Hqs]. eauto.
Qed.

Lemma retain_pass_steps s l : exists es,
  steps s es (fst (retain_pass s l)) /\ forall e, e ∈ es -> e ∈ l.
Proof.
  revert s. induction l as [|e l IH]; intros s; cbn [retain_pass].
  - exists []. split; [constructor|done].
  - destruct (apply s e) as [s1 [[]|err]] eqn:Ea.
    + destruct (IH (set_applied ({[ev_id e]} ∪ gs_applied s1) s1)) as (es & Hs & Hin).
      exists (e :: es). split; [econstructor; [by constructor|done]|set_solver].
    + destruct (IH s1) as (es & Hs & Hin). destruct (retain_pass s1 l) as [s2 kept]. cbn in *.
      exists (e :: es). split; [econstructor; [by eapply step_refuse|done]|set_solver].
Qed.
Lemma apply_loop_steps f s l : exists es,
  steps s es (fst (apply_loop f s l)) /\ forall e, e ∈ es -> e ∈ l.
Proof.
  revert s l. induction f as [|f IH]; intros s l; cbn [apply_loop].
  - exists []. split; [constructor|set_solver].
  - destruct (retain_pass_steps s l) as (es & Hs & Hin).
    pose proof (retain_pass_sub s l) as Hk. destruct (retain_pass s l) as [s1 kept]. cbn in *.
    destruct (_ || _); [by exists es|].
    destruct (IH s1 kept) as (es2 & Hs2 & Hin2). exists (es ++ es2).
    split; [by eapply steps_app|]. intros e [He|He]%elem_of_app; auto.
Qed.

(** ** Time order *)
Definition no_later (a b : Event) : Prop := ev_created_at a <= ev_created_at b.

Lemma sorted_app l1 l2 :
  StronglySorted no_later l1 -> StronglySorted no_later l2 ->
  (forall a b, a ∈ l1 -> b ∈ l2 -> no_later a b) -> StronglySorted no_later (l1 ++ l2).
Proof.
  intros H1 H2 H. induction H1 as [|a l Hl IH Ha]; [done|]. cbn. constructor.
  - apply IH. intros x y Hx. apply H. by right.
  - apply Forall_app; split; [done|]. apply Forall_forall. intros b Hb. apply H; [left|done].
Qed.
Lemma same_time_sorted t l :
  (forall e, e ∈ l -> ev_created_at e = t) -> StronglySorted no_later l.
Proof.
  induction l as [|e l IH]; intros H; [constructor|]. constructor.
  - apply IH. intros x Hx. apply H. by right.
  - apply Forall_forall. intros x Hx. unfold no_later.
    rewrite (H e), (H x); [done|by right|left].
Qed.

Lemma by_second_steps s second live t :
  (forall e, e ∈ second -> ev_created_at e = t) ->
  (forall e, e ∈ live -> second <> [] -> t <= ev_created_at e) ->
  StronglySorted no_later live ->
  exists es, steps s es (by_second s second live) /\
    (forall e, e ∈ es -> e ∈ second ++ live) /\ StronglySorted no_later es.
Proof.
  revert s second t. induction live as [|e live IH]; intros s second t Ht Hge Hs; cbn [by_second].
  - destruct (apply_loop_steps (S (length second)) s second) as (es & Hr & Hin).
    exists es. rewrite app_nil_r. repeat split; try done.
    apply (same_time_sorted t). eauto.
  - apply StronglySorted_inv in Hs as [Hs He]. rewrite Forall_forall in He.
    destruct second as [|f second].
    + destruct (IH s [e] (ev_created_at e)) as (es & Hr & Hin & Hso);
        [set_solver|by intros x Hx _; apply He|done|]. by exists es.
    + destruct (ev_created_at f =? ev_created_at e) eqn:E; cbn [negb]; bools.
      * destruct (IH s ((f :: second) ++ [e]) t) as (es & Hr & Hin & Hso).
        { intros x [Hx|Hx]%elem_of_app; [auto|]. apply list_elem_of_singleton in Hx as ->.
          rewrite <- E. apply Ht. left. }
        { intros x Hx _. rewrite <- (Ht f) by left. rewrite E. by apply He. }
        { done. }
        exists es. split; [done|]. split; [|done]. intros x Hx. apply Hin in Hx. set_solver.
      * destruct (apply_loop_steps (S (length (f :: second))) s (f :: second)) as (es1 & Hr1 & Hin1).
        destruct (IH (apply_second s (f :: second)) [e] (ev_created_at e)) as (es2 & Hr2 & Hin2 & Hso);
          [set_solver|by intros x Hx _; apply He|done|].
        exists (es1 ++ es2). split; [by eapply steps_app|]. split; [set_solver|].
        apply sorted_app; [|done|].
        { apply (same_time_sorted t). auto. }
        intros a b Ha Hb. unfold no_later. rewrite (Ht a) by auto.
        apply Hin2 in Hb. etransitivity; [apply (Hge e); [left|done]|].
        apply elem_of_app in Hb as [Hb|Hb]; [|by apply He].
        apply list_elem_of_singleton in Hb as ->. done.
Qed.

(** ** The snapshot's state is well formed *)

(** What holds of the state while the four pieces are being loaded. *)
Record loading (s : GroupState) : Prop := {
  ld_mark : gs_roles s !! OWNER_MARK = None;
  ld_roles id r : gs_roles s !! id = Some r ->
    r_id r = id /\ Perm.sanitized (r_perms r) = r_perms r /\ is_i64 (r_position r);
  ld_members p held : gs_members s !! p = Some held -> held = ∅;
  ld_owner : gs_owner s = None;
  ld_joined : gs_joined s = ∅;
  ld_wait : is_u32 (gs_newcomer_wait s);
  ld_channels : Forall channel_wf (gs_channels s);
  ld_overrides : Forall override_wf (gs_overrides s);
  ld_mutes : mutes_wf (gs_mutes s);
}.
Lemma loading_empty g : loading (empty_state g).
Proof. by split. Qed.

Lemma load_role_wf roles r : role_wf r ->
  (roles !! OWNER_MARK = None /\ forall id x, roles !! id = Some x ->
     r_id x = id /\ Perm.sanitized (r_perms x) = r_perms x /\ is_i64 (r_position x)) ->
  load_role roles r !! OWNER_MARK = None /\ forall id x, load_role roles r !! id = Some x ->
     r_id x = id /\ Perm.sanitized (r_perms x) = r_perms x /\ is_i64 (r_position x).
Proof.
  intros [_ Hpos] [Hm Hr]. unfold load_role. case_bool_decide as Hne; [done|]. split.
  - by rewrite lookup_insert_ne.
  - intros id x. rewrite lookup_insert. case_decide as Heq; [|auto]. intros [= <-]. cbn.
    split; [done|]. split; [apply Perm.sanitized_idemp|done].
Qed.

Lemma load_piece_loading s asg named piece : loading s -> piece_wf piece ->
  loading (fst (fst (load_piece s asg named piece))).
Proof.
  intros [] Hp. destruct piece as [n pub w a cs os|o asg'|ms bs mu|rs]; cbn in *.
  - destruct Hp as (?&?&?). by split.
  - by split.
  - split; try done. cbn. intros p held [_ Hl]%lookup_gset_to_gmap_Some. done.
  - assert (H : foldl load_role (gs_roles s) rs !! OWNER_MARK = None /\
      forall id x, foldl load_role (gs_roles s) rs !! id = Some x ->
      r_id x = id /\ Perm.sanitized (r_perms x) = r_perms x /\ is_i64 (r_position x)).
    { assert (H0 := conj ld_mark0 ld_roles0). revert H0. generalize (gs_roles s).
      induction Hp as [|r rs Hr _ IH]; intros roles H0; [done|]. cbn. apply IH.
      by apply load_role_wf. }
    destruct H. by split.
Qed.

Lemma load_kinds_loading pieces l0 kinds l : loading (fst (fst l0)) ->
  fold_opt (load_kind pieces) l0 kinds = Some l -> loading (fst (fst l)).
Proof.
  intros H0. apply (fold_opt_inv (fun l => loading (fst (fst l)))); [|done].
  intros [[s asg] named] k l' Hs H. unfold load_kind in H.
  destruct (pieces !! k) as [e|]; [|done].
  destruct (parse_state e) as [[[g seq] piece]|] eqn:Ep; [|done]. injection H as <-.
  apply parse_state_wf in Ep as (_ & _ & _ & Hp). apply load_piece_loading; [|done].
  cbn in Hs. destruct Hs. by split.
Qed.

Lemma default_role_wf roles :
  roles !! OWNER_MARK = None ->
  (forall id r, roles !! id = Some r ->
     r_id r = id /\ Perm.sanitized (r_perms r) = r_perms r /\ is_i64 (r_position r)) ->
  roles_wf (match roles !! DEFAULT_ROLE with
            | Some _ => roles
            | None => <[DEFAULT_ROLE := default_role]> roles
            end).
Proof.
  intros Hm Hr. destruct (roles !! DEFAULT_ROLE) as [d|] eqn:Ed.
  - split; [by eexists|done|intros id r H; by destruct (Hr id r H) as (?&?&?)..].
  - split; [rewrite lookup_insert_eq; by eexists|by rewrite lookup_insert_ne|..];
      intros id r; rewrite lookup_insert; (case_decide; [by intros [= <-]|]);
      intros Hl; by destruct (Hr id r Hl) as (?&?&?).
Qed.

(** The state once the roles are in, while the assignments are: [wf] with no
    owner yet. *)
Lemma assign_roles_wf s row : wf s -> gs_owner s = None -> gs_joined s = ∅ ->
  wf (assign_roles s row) /\ gs_owner (assign_roles s row) = None
  /\ gs_joined (assign_roles s row) = ∅.
Proof.
  intros Hw Ho Hj. unfold assign_roles. destruct (gs_members s !! row.1); [|done].
  split; [|done]. apply wf_add_member; [done|by unfold is_owner; rewrite Ho|].
  intros r [[Hne Hr] _]%elem_of_filter. done.
Qed.
Lemma assign_all_wf s rows : wf s -> gs_owner s = None -> gs_joined s = ∅ ->
  wf (foldl assign_roles s rows) /\ gs_owner (foldl assign_roles s rows) = None
  /\ gs_joined (foldl assign_roles s rows) = ∅.
Proof.
  revert s. induction rows as [|row rows IH]; intros s Hw Ho Hj; [done|]. cbn.
  destruct (assign_roles_wf s row Hw Ho Hj) as (?&?&?). by apply IH.
Qed.

Lemma load_snapshot_wf g c s : load_snapshot g c = Some s -> wf s.
Proof.
  unfold load_snapshot. destruct (fold_opt _ _ _) as [[[s0 asg] named]|] eqn:E; [|done].
  apply load_kinds_loading in E; [|apply loading_empty]. cbn in E. intros H. injection H as <-.
  apply wf_silences.
  set (s1 := set_roles _ s0).
  assert (H1 : wf s1).
  { destruct E. split; try done; cbn.
    - by apply default_role_wf.
    - intros p held r Hp Hr. apply ld_members0 in Hp as ->. by apply not_elem_of_empty in Hr.
    - congruence.
    - congruence.
    - rewrite ld_joined0. intros p [t Ht]. by rewrite lookup_empty in Ht. }
  destruct (assign_all_wf s1 (map_entries pk_leb asg) H1 (ld_owner _ E) (ld_joined _ E))
    as (H2 & _ & Hj).
  set (s2 := foldl assign_roles s1 _) in *. clearbody s2.
  destruct named as [o|]; [|destruct H2; by split].
  case_bool_decide; [|destruct H2; by split].
  destruct H2. split; try done; cbn.
  - intros p held r. rewrite lookup_insert. case_decide; [|by apply wf_held].
    intros [= <-] Hr. by apply not_elem_of_empty in Hr.
  - intros o' [= <-]. by rewrite lookup_insert_eq.
  - rewrite Hj. intros p [t Ht]. by rewrite lookup_empty in Ht.
Qed.

Lemma step_wf s e s' : wf s -> step s e s' -> wf s'.
Proof.
  intros Hw Hs. pose proof (apply_keeps_wf s e Hw) as H.
  destruct Hs as [s' E|s' err E]; rewrite E in H; [by apply wf_applied|done].
Qed.
Lemma steps_wf s es s' : wf s -> steps s es s' -> wf s'.
Proof. apply steps_inv. apply step_wf. Qed.

Lemma record_invite_wf s e : wf s -> wf (record_invite s e).
Proof.
  intros Hw. unfold record_invite. destruct (_ =? _); [|done].
  destruct (parse_action e) as [[? []]|]; try done. by apply wf_invites.
Qed.
Lemma record_invites_wf s l : wf s -> wf (foldl record_invite s l).
Proof. revert s. induction l as [|e l IH]; intros s Hw; [done|]. cbn. by apply IH, record_invite_wf. Qed.
Lemma record_invites_cutoff s l : gs_cutoff (foldl record_invite s l) = gs_cutoff s.
Proof.
  revert s. induction l as [|e l IH]; intros s; [done|]. cbn. rewrite IH. unfold record_invite.
  destruct (_ =? _); [|done]. by destruct (parse_action e) as [[? []]|].
Qed.

(** The state a fold starts its actions from. *)
Definition start (group : PublicKey) (events : list Event) : option GroupState :=
  let c := collect_all group events in
  let! s := load_snapshot group c in
  Some (foldl record_invite s (isort action_leb (c_actions c))).

Lemma start_wf g events s : start g events = Some s -> wf s.
Proof.
  unfold start. destruct (load_snapshot _ _) as [s0|] eqn:E; [|done]. intros [= <-].
  apply record_invites_wf. by eapply load_snapshot_wf.
Qed.

Lemma sorted_no_later l :
  StronglySorted (fun x y => Is_true (action_leb x y)) l -> StronglySorted no_later l.
Proof.
  induction 1 as [|e l Hl IH He]; constructor; [done|]. eapply Forall_impl; [exact He|].
  intros x Hx. apply Is_true_true, action_leb_cases in Hx. unfold no_later. lia.
Qed.
Lemma filter_no_later p l :
  StronglySorted no_later l -> StronglySorted no_later (List.filter p l).
Proof.
  induction 1 as [|e l Hl IH He]; cbn; [constructor|]. destruct (p e); [|done].
  constructor; [done|]. by apply forall_filter.
Qed.

Context {L : NostrLaws}.

Lemma fold_is_run g events s :
  fold g events = Some s ->
  exists s0 es, start g events = Some s0 /\ steps s0 es s /\
    StronglySorted no_later es /\
    forall e, e ∈ es -> e ∈ events /\ group_of e = Some g /\
      kind_in (ev_kind e) ACTION_KINDS = true /\ ev_kind e <> CREATE_INVITE /\
      gs_cutoff s0 <= ev_created_at e.
Proof.
  unfold fold, start. destruct (load_snapshot _ _) as [sn|] eqn:E; [|done]. intros [= <-].
  set (acts := isort action_leb _). set (s0 := foldl record_invite sn acts).
  destruct (by_second_steps s0 [] (List.filter (is_live (gs_cutoff s0)) acts) 0) as (es & Hr & Hin & Hs).
  - intros e He. by apply not_elem_of_nil in He.
  - done.
  - apply filter_no_later, sorted_no_later, isort_sorted; [apply action_leb_total|].
    apply action_leb_trans.
  - exists s0, es. split_and!; [done..|]. intros e He. apply Hin in He. cbn in He.
    apply filter_elem in He as [He Hl]. unfold acts in He. rewrite isort_elem in He.
    unfold collect_all in He. rewrite collect_actions in He. cbn in He.
    apply filter_elem in He as [He Ha]. unfold is_act, is_live in *. bools. done.
Qed.

(** C6. The fold refines the state machine: it is a run of steps, in time
    order, from the state the snapshot and the invites give, and every step is
    an action of the group it was given, other than an invite, no older than
    the snapshot. *)
Theorem fold_runs g events s :
  fold g events = Some s ->
  exists s0 es, start g events = Some s0 /\ steps s0 es s /\
    StronglySorted no_later es /\
    forall e, e ∈ es -> e ∈ events /\ group_of e = Some g /\
      kind_in (ev_kind e) ACTION_KINDS = true /\ ev_kind e <> CREATE_INVITE /\
      gs_cutoff s0 <= ev_created_at e.
Proof. apply fold_is_run. Qed.

(** C34. Whatever events a peer is given, the state it folds them into is well
    formed: there is a default role, no role has the owner's mark, every role
    grants only permissions this build defines, members hold only roles that
    exist, the owner is a member holding none, whoever joined is a member, and
    waits, permissions, positions and times are in their types' ranges. *)
Theorem fold_well_formed g events s : fold g events = Some s -> wf s.
Proof.
  intros H. destruct (fold_is_run g events s H) as (s0 & es & Hs & Hr & _).
  eapply steps_wf; [|exact Hr]. by eapply start_wf.
Qed.
End Machine.
