(* ===== verification/Escalation.v ===== *)
(** Authority over steps and runs: what an action by someone who is not the
    owner cannot do - hand out a permission its signer does not hold, lift
    anyone to the signer's rank, touch someone who outranks them - and what
    no action at all can do to the owner. *)
From S2P Require Import Prelude Text Nostr GroupEvent Replace Perm Zap GroupState Fold.
From S2P Require Import FoldOrder Authority Safety Invariant Machine.

#[local] Open Scope Z_scope.

Section Escalation.
Context {N : NostrTypes} {O : NostrOps}.

(** ** The handlers, inverted *)

(** What the loop over the roles of a [Put] established. *)
Lemma granted_spec s actor wanted acc rs g :
  roles_wf (gs_roles s) -> is_u64 acc -> granted s actor wanted acc rs = Ok g ->
  is_u64 g /\ Perm.subset acc g /\
  forall r, r ∈ rs -> exists role, gs_roles s !! r = Some role /\
    outranks_role s actor role = true /\ (r ∈ wanted -> Perm.subset (r_perms role) g).
Proof.
  intros Hw. revert acc. induction rs as [|r rs IH]; intros acc Hacc; cbn [granted].
  - intros [= <-]. split; [done|]. split; [apply Perm.subset_refl|].
    intros r Hr. by apply not_elem_of_nil in Hr.
  - destruct (gs_roles s !! r) as [role|] eqn:Er; cbn [ok_or]; [|done].
    destruct (outranks_role s actor role) eqn:Eo; [|done]. intros H.
    assert (Hacc' : is_u64 (if bool_decide (r ∈ wanted) then Perm.union acc (r_perms role) else acc)).
    { case_bool_decide; [|done]. apply Perm.union_u64; [done|]. by eapply role_sanitized_u64. }
    destruct (IH _ Hacc' H) as (Hg & Hs & Hall). split; [done|]. split.
    + case_bool_decide; [|done]. eapply Perm.subset_trans; [apply Perm.subset_union_l|done].
    + intros x Hx. apply elem_of_cons in Hx as [->|Hx]; [|by apply Hall].
      exists role. split; [done|]. split; [done|]. intros Hin. rewrite bool_decide_true in Hs by done.
      eapply Perm.subset_trans; [apply Perm.subset_union_r|done].
Qed.

(** A [Put] by a non-owner that went through. *)
Record put_ok (s : GroupState) (actor : PublicKey) (at_ : Timestamp) (t : PublicKey)
    (s' : GroupState) : Prop := {
  pu_owner : is_owner s t = false;
  pu_new : gs_members s !! t = None -> t ∉ gs_bans s;
  pu_state : exists wanted held,
    held = opt_get ∅ (gs_members s !! t) /\
    s' = set_members (<[t := wanted]> (gs_members s))
           (if opt_bool (gs_members s !! t) then s else let_back_in s t at_) /\
    (wanted = held \/
     ((is_Some (gs_members s !! t) -> outranks s actor t = true) /\
      (forall r, r ∈ wanted -> r ∉ held -> exists role, gs_roles s !! r = Some role /\
         outranks_role s actor role = true /\ Perm.subset (r_perms role) (base s actor))));
}.
Lemma apply_put_ok s actor at_ t roles s' :
  wf s -> apply_put s actor at_ t roles = Ok s' -> put_ok s actor at_ t s'.
Proof.
  intros Hw H. unfold apply_put in H.
  set (wanted := filter (fun r : string => r <> DEFAULT_ROLE) roles) in *.
  destruct (require_member s actor); [|done]. destruct (is_owner s t) eqn:Ho; [done|].
  cbn [negb] in H. destruct (existsb _ _); [done|]. cbn [negb] in H.
  set (held := opt_get ∅ (gs_members s !! t)) in *.
  destruct (if negb (opt_bool _) then _ else _) eqn:Enew; [|done].
  destruct (if negb (bool_decide (wanted = held)) then _ else _) eqn:Eroles; [|done]. injection H as <-.
  split; [done| |].
  { intros Hn. rewrite Hn in Enew. cbn in Enew. clear Eroles. inv_result. by bools. }
  clear Enew. exists wanted, held. split; [done|]. split; [by destruct (opt_bool _)|]. case_bool_decide as Hwh; [by left|right].
  cbn [negb] in Eroles. destruct (require _ _ _); [|done].
  destruct (opt_bool (gs_members s !! t) && negb (outranks s actor t)) eqn:Eout; [done|].
  cbn [negb] in Eroles. split.
  { intros [h Eh]. rewrite Eh in Eout. cbn in Eout. by bools. }
  destruct (granted _ _ _ _ _) as [g|] eqn:Eg; [|done].
  destruct (can_grant s actor g) eqn:Ecan; [|done].
  apply granted_spec in Eg as (Hg & _ & Hall); [|apply Hw|done].
  apply can_grant_subset in Ecan; [|done]. intros r Hr Hh.
  destruct (Hall r) as (role & Hrole & Hout & Hsub).
  { apply set_entries_elem. set_solver. }
  exists role. split; [done|]. split; [done|]. eapply Perm.subset_trans; [by apply Hsub|done].
Qed.

(** ** The base of a person, across states *)
Lemma base_same s1 s2 p :
  gs_owner s1 = gs_owner s2 -> gs_roles s1 = gs_roles s2 ->
  gs_members s1 !! p = gs_members s2 !! p -> base s1 p = base s2 p.
Proof. intros Ho Hr Hm. unfold base, is_owner, base_of. by rewrite Ho, Hr, Hm. Qed.
Lemma rank_same s1 s2 p :
  gs_roles s1 = gs_roles s2 -> gs_members s1 !! p = gs_members s2 !! p -> rank s1 p = rank s2 p.
Proof. intros Hr Hm. unfold rank. by rewrite Hr, Hm. Qed.
Lemma rank_floor s p : wf s -> RANK_FLOOR <= rank s p.
Proof.
  intros Hw. destruct (rank_spec s p) as [_ [->|(role & (held & r & _ & _ & Hr) & <-)]]; [done|].
  apply (rw_positions _ (wf_roles s Hw)) in Hr. unfold is_i64, RANK_FLOOR in *. lia.
Qed.

(** The bound of the escalation rule for one person. *)
Definition no_more (s s' : GroupState) (actor p : PublicKey) : Prop :=
  Perm.subset (base s' p) (Perm.union (Perm.union (base s p) (base s actor)) (base_of s ∅)) /\
  (rank s' p <= rank s p \/ rank s' p < rank s actor).

Lemma no_more_same s s' actor p :
  gs_owner s' = gs_owner s -> gs_roles s' = gs_roles s -> gs_members s' !! p = gs_members s !! p ->
  no_more s s' actor p.
Proof.
  intros Ho Hr Hm. split.
  - rewrite (base_same s' s) by done. eapply Perm.subset_trans; [|apply Perm.subset_union_l].
    apply Perm.subset_union_l.
  - left. by rewrite (rank_same s' s).
Qed.
(** Someone out of the group holds nothing. *)
Lemma no_more_gone s s' actor p :
  wf s -> is_owner s' p = false -> gs_members s' !! p = None -> no_more s s' actor p.
Proof.
  intros Hw Ho Hm. split.
  - rewrite base_outsider by done. apply Perm.subset_none.
  - left. unfold rank at 1. rewrite Hm. cbn. by apply rank_floor.
Qed.
(** Someone whose roles each were held, or are below the actor. *)
Lemma no_more_roles s s' actor p held' :
  wf s -> gs_owner s' = gs_owner s -> is_owner s p = false -> gs_members s' !! p = Some held' ->
  (forall r role, counts held' r -> gs_roles s' !! r = Some role ->
     (gs_roles s !! r = Some role /\ counts (opt_get ∅ (gs_members s !! p)) r) \/
     (Perm.subset (r_perms role) (base s actor) /\ r_position role < rank s actor)) ->
  (forall r, r ∈ held' -> r <> DEFAULT_ROLE) ->
  no_more s s' actor p.
Proof.
  intros Hw Ho Hno Hm H Hd.
  assert (Ho' : is_owner s' p = false) by (unfold is_owner in *; by rewrite Ho).
  split.
  - rewrite (base_member s' p held') by done. intros i Hi Hb.
    apply base_of_bit in Hb as [Hall (r & role & Hc & Hr & Hb)]; [|done].
    unfold Perm.union. rewrite !Z.lor_spec, !orb_true_iff.
    destruct (H r role Hc Hr) as [[Hr0 Hc0]|[Hs _]]; [|left; right; by apply Hs].
    destruct (gs_members s !! p) as [held|] eqn:Em; cbn in Hc0.
    + left; left. rewrite (base_member s p held) by done. apply base_of_bit; [done|]. eauto 10.
    + right. apply base_of_bit; [done|]. eauto 10.
  - destruct (rank_spec s' p) as [_ [Hf|(role & Hh & Hp)]].
    + left. rewrite Hf. by apply rank_floor.
    + destruct Hh as (held & r & Hm2 & Hin & Hr). rewrite Hm in Hm2. injection Hm2 as <-.
      destruct (H r role (or_intror Hin) Hr) as [[Hr0 [Hc0|Hc0]]|[_ Hlt]].
      * by apply Hd in Hin.
      * left. rewrite <- Hp. apply (proj1 (rank_spec s p)). unfold held_role.
        destruct (gs_members s !! p) as [h|]; [|by apply not_elem_of_empty in Hc0]. eauto 10.
      * right. lia.
Qed.

(** ** What an action may have done *)

(** [s'] is [s] with no more than [t]'s silences changed. *)
Definition silenced_only (t : PublicKey) (before after : list Silence) : Prop :=
  forall p at_, p <> t -> List.find (fun x => bool_decide (s_who x = p) && covers x at_) after =
                          List.find (fun x => bool_decide (s_who x = p) && covers x at_) before.

Inductive changes (s : GroupState) (actor : PublicKey) (at_ : Timestamp) : GroupState -> Prop :=
| ch_same : changes s actor at_ s
| ch_put t s' : put_ok s actor at_ t s' -> changes s actor at_ s'
| ch_remove t (ban : bool) : is_owner s t = false -> outranks s actor t = true ->
    changes s actor at_
      ((if ban then fun x => set_bans ({[t]} ∪ gs_bans x) x else id)
        ((if is_member s t || ban then fun x => silence x t at_ None false else id)
          (if is_member s t then
             set_joined (delete t (gs_joined s))
               (set_mutes (delete t (gs_mutes s)) (set_members (delete t (gs_members s)) s))
           else s)))
| ch_unban t : changes s actor at_ (set_bans (gs_bans s ∖ {[t]}) s)
| ch_mute t sil mutes : is_owner s t = false -> outranks s actor t = true ->
    silenced_only t (gs_silences s) sil ->
    (forall p, p <> t -> mutes !! p = gs_mutes s !! p) ->
    changes s actor at_ (set_mutes mutes (set_silences sil s))
| ch_edit es s' : edit_all s s actor es = Ok s' -> changes s actor at_ s'
| ch_join : is_member s actor = false -> actor ∉ gs_bans s ->
    changes s actor at_
      (set_joined (<[actor := at_]> (gs_joined s))
        (set_members (<[actor := ∅]> (gs_members s)) (let_back_in s actor at_)))
| ch_leave : is_owner s actor = false ->
    changes s actor at_
      (silence (set_joined (delete actor (gs_joined s))
        (set_mutes (delete actor (gs_mutes s)) (set_members (delete actor (gs_members s)) s)))
        actor at_ None false).

Lemma silenced_only_refl t l : silenced_only t l l.
Proof. done. Qed.
Lemma silenced_only_map t f l :
  (forall x, s_who (f x) = s_who x) -> (forall x, s_who x <> t -> f x = x) ->
  silenced_only t l (map f l).
Proof.
  intros Hw Hf p at_ Hp. induction l as [|x l IH]; [done|]. cbn [map List.find]. rewrite Hw.
  case_bool_decide as Hx; [|done]. rewrite Hf by congruence. cbn [andb].
  by destruct (covers x at_).
Qed.
Lemma silenced_only_app t l x : s_who x = t -> silenced_only t l (l ++ [x]).
Proof.
  intros Hx p at_ Hp. induction l as [|y l IH]; cbn.
  - by rewrite bool_decide_false by congruence.
  - by destruct (_ && _).
Qed.
Lemma silenced_only_trans t l1 l2 l3 :
  silenced_only t l1 l2 -> silenced_only t l2 l3 -> silenced_only t l1 l3.
Proof. intros H1 H2 p at_ Hp. by rewrite H2, H1. Qed.
Lemma end_mute_silenced t at_ l : silenced_only t l (map (end_mute t at_) l).
Proof.
  apply silenced_only_map; intros x; unfold end_mute; [by destruct (_ && _)|].
  intros Hx. by rewrite bool_decide_false.
Qed.
Lemma close_removal_silenced t at_ l : silenced_only t l (map (close_removal t at_) l).
Proof.
  apply silenced_only_map; intros x; unfold close_removal; [by destruct (_ && _)|].
  intros Hx. by rewrite bool_decide_false.
Qed.

Lemma apply_changes s e : wf s -> changes s (ev_pubkey e) (ev_created_at e) (fst (apply s e)).
Proof.
  intros Hw. unfold apply. destruct (parse_action e) as [[g a]|] eqn:Ea; [|constructor].
  set (actor := ev_pubkey e). set (at_ := ev_created_at e).
  assert (Hset : forall r, (forall s', r = Ok s' -> changes s actor at_ s') ->
    changes s actor at_ (fst (settle s r))).
  { intros [s'|] Hr; cbn; [auto|constructor]. }
  destruct a; try (apply Hset; intros s' H); try constructor.
  - eapply ch_put. by eapply apply_put_ok.
  - unfold apply_remove in H. destruct (require_member _ _); [|done].
    destruct (is_owner s target) eqn:Ho; [done|]. cbn [negb] in H.
    destruct (is_member s target || ban) eqn:Em; [|done]. destruct (require _ _ _); [|done].
    destruct (outranks _ _ _) eqn:Eo; [|done]. injection H as <-.
    pose proof (ch_remove s actor at_ target ban Ho Eo) as Hc. rewrite Em in Hc.
    by destruct ban.
  - unfold apply_unban in H. inv_result. constructor.
  - unfold apply_mute. destruct (mute_guards _ _ _) eqn:Eg; [|constructor].
    unfold mute_guards in Eg. destruct (require_member _ _); [|done].
    destruct (is_owner s target) eqn:Ho; [done|]. cbn [negb] in Eg.
    destruct (is_member s target); [|done]. destruct (require _ _ _); [|done].
    destruct (outranks _ _ _) eqn:Eo; [|done].
    pose proof (end_mute_silenced target at_ (gs_silences s)) as Hs.
    pose proof (ch_mute s actor at_ target _ (gs_mutes s) Ho Eo Hs (fun p _ => eq_refl)) as Href.
    replace (set_mutes (gs_mutes s) _) with
      (set_silences (map (end_mute target at_) (gs_silences s)) s) in Href by by destruct s.
    destruct until as [u|]; [destruct (at_ <? u)|destruct (gs_mutes _ !! target)]; try exact Href.
    + apply (ch_mute s actor at_ target _ (<[target := u]> (gs_mutes s)) Ho Eo).
      * eapply silenced_only_trans; [exact Hs|]. by apply silenced_only_app.
      * intros p Hp. by apply lookup_insert_ne.
    + apply (ch_mute s actor at_ target _ (delete target (gs_mutes s)) Ho Eo Hs).
      intros p Hp. by apply lookup_delete_ne.
  - unfold apply_edit in H. destruct (require_member _ _); [|done]. by eapply ch_edit.
  - unfold apply_join in H. destruct (is_member s actor) eqn:Em; [done|]. cbn [negb] in H.
    destruct (match code with Some _ => _ | None => _ end); [|done].
    case_bool_decide as Hb; [done|]. injection H as <-. by constructor.
  - unfold apply_leave in H. destruct (is_owner s actor) eqn:Ho; [done|]. cbn [negb] in H.
    destruct (is_member s actor); [|done]. injection H as <-. by constructor.
Qed.

(** ** No escalation *)
Lemma put_no_more s actor at_ t s' p :
  wf s -> wf s' -> is_owner s actor = false -> put_ok s actor at_ t s' -> no_more s s' actor p.
Proof.
  intros Hw Hw' Ho [Hto _ (wanted & held & Hheld & -> & Hr)].
  destruct (decide (p = t)) as [->|Hp].
  - apply (no_more_roles s _ actor t wanted); [done| |done| | |].
    + by destruct (opt_bool _).
    + cbn. by rewrite lookup_insert_eq.
    + intros r role Hc Hrole. assert (Hr0 : gs_roles s !! r = Some role).
      { by destruct (opt_bool (gs_members s !! t)). }
      destruct Hc as [->|Hin]; [left; split; [done|by left]|].
      destruct (decide (r ∈ held)) as [Hh|Hh]; [left; split; [done|right; by subst held]|].
      destruct Hr as [->|[_ Hr]]; [done|]. right.
      destruct (Hr r Hin Hh) as (role' & Hrole' & Hout & Hsub). rewrite Hr0 in Hrole'.
      injection Hrole' as <-. split; [done|]. unfold outranks_role in Hout.
      rewrite Ho in Hout. cbn in Hout. by bools.
    + intros r Hin. apply (wf_held _ Hw' t wanted r); [|done]. cbn. by rewrite lookup_insert_eq.
  - apply no_more_same; cbn; [by destruct (opt_bool _)..|by rewrite lookup_insert_ne].
Qed.

Lemma edit_no_more s actor es s' p :
  wf s -> wf s' -> is_owner s actor = false -> edit_all s s actor es = Ok s' -> no_more s s' actor p.
Proof.
  intros Hw Hw' Ho H. pose proof (edit_all_edited _ _ _ _ _ (edited_refl s) H) as He.
  pose proof (edit_all_bounded _ _ _ _ _ Ho (bounded_refl s actor) H) as Hb.
  destruct (is_owner s p) eqn:Hop.
  - split.
    + rewrite (base_owner s p) by done. eapply Perm.subset_trans; [|apply Perm.subset_union_l].
      eapply Perm.subset_trans; [|apply Perm.subset_union_l]. unfold base, is_owner.
      rewrite (ed_owner _ _ He). unfold is_owner in Hop. rewrite Hop. apply Perm.subset_refl.
    + left. apply is_owner_eq in Hop as Hop'. rewrite <- (ed_owner _ _ He) in Hop'.
      pose proof (wf_owner _ Hw' _ Hop') as Hm. apply rank_le; [by apply rank_floor|].
      intros role (h & r & Hh & Hr & _). rewrite Hm in Hh. injection Hh as <-.
      by apply not_elem_of_empty in Hr.
  - pose proof (ed_members _ _ He p) as Hm. destruct (gs_members s !! p) as [held|] eqn:Em.
    + destruct Hm as (held' & Hm & Hsub).
      apply (no_more_roles s s' actor p held'); [done|apply He|done|done| |].
      * intros r role Hc Hr. rewrite Em. cbn.
        destruct (bd_roles _ _ _ Hb r role Hr) as [Hr0|Hlow]; [left|by right].
        split; [done|]. destruct Hc as [->|Hin]; [by left|right; set_solver].
      * intros r Hin. by apply (wf_held _ Hw' p held' r).
    + apply no_more_gone; [done| |done]. unfold is_owner in *. by rewrite (ed_owner _ _ He).
Qed.

(** Nobody comes out of a step with more than the step may give. *)
Lemma step_no_more s e s' p :
  wf s -> is_owner s (ev_pubkey e) = false -> step s e s' -> no_more s s' (ev_pubkey e) p.
Proof.
  intros Hw Ho Hs.
  assert (H : no_more s (fst (apply s e)) (ev_pubkey e) p).
  { pose proof (apply_keeps_wf s e Hw) as Hw'.
    destruct (apply_changes s e Hw) as
      [|t s1 Hput|t ban Hto Hout|t|t sil mutes _ _ _ _|es s1 He|Hm Hb|Hl].
    - by apply no_more_same.
    - by eapply put_no_more.
    - destruct (is_member s t) eqn:Em, ban; cbn [orb];
        (destruct (decide (p = t)) as [->|Hp];
         [try (apply no_more_gone; [done|done|cbn; by rewrite lookup_delete_eq])|]);
        apply no_more_same; cbn; try done; by rewrite lookup_delete_ne.
    - by apply no_more_same.
    - by apply no_more_same.
    - by eapply edit_no_more.
    - destruct (decide (p = ev_pubkey e)) as [->|Hp].
      + apply (no_more_roles s _ _ _ ∅); [done..| | |].
        * cbn. by rewrite lookup_insert_eq.
        * intros r role [->|Hin] Hr; [|by apply not_elem_of_empty in Hin]. left.
          split; [done|by left].
        * intros r Hin. by apply not_elem_of_empty in Hin.
      + apply no_more_same; cbn; try done. by rewrite lookup_insert_ne.
    - destruct (decide (p = ev_pubkey e)) as [->|Hp].
      + apply no_more_gone; [done..|]. cbn. by rewrite lookup_delete_eq.
      + apply no_more_same; cbn; try done. by rewrite lookup_delete_ne. }
  destruct Hs as [s1 E|s1 err E]; rewrite E in H; exact H.
Qed.

(** C2. No escalation: an action signed by anyone but the owner leaves every
    person with no group-wide permission beyond the ones they had, the signer's,
    and the default role's; and nobody comes out of it at or above the signer's rank
    who was below it. *)
Theorem no_escalation s e s' p :
  wf s -> is_owner s (ev_pubkey e) = false -> step s e s' ->
  Perm.subset (base s' p)
    (Perm.union (Perm.union (base s p) (base s (ev_pubkey e))) (base_of s ∅)) /\
  (rank s' p <= rank s p \/ rank s' p < rank s (ev_pubkey e)).
Proof. apply step_no_more. Qed.

(** ** The owner *)

Lemma changes_owner s actor at_ s' : changes s actor at_ s' ->
  gs_owner s' = gs_owner s /\ gs_named_owner s' = gs_named_owner s /\ gs_id s' = gs_id s /\
  gs_seq s' = gs_seq s /\ gs_cutoff s' = gs_cutoff s.
Proof.
  intros [|t s1 [_ _ (w & h & _ & -> & _)]|t ban _ _|t|t sil m _ _ _ _|es s1 He|_ _|_]; try done.
  - by destruct (opt_bool _).
  - by destruct (is_member s t), ban.
  - pose proof (edit_all_edited _ _ _ _ _ (edited_refl s) He) as []. done.
Qed.
Lemma step_changes s e s' : wf s -> step s e s' ->
  exists s1, changes s (ev_pubkey e) (ev_created_at e) s1 /\
    (s' = s1 \/ s' = set_applied ({[ev_id e]} ∪ gs_applied s1) s1).
Proof.
  intros Hw Hs. pose proof (apply_changes s e Hw) as H.
  destruct Hs as [s1 E|s1 err E]; rewrite E in H; exists s1; auto.
Qed.
Lemma step_owner s e s' : wf s -> step s e s' -> gs_owner s' = gs_owner s.
Proof.
  intros Hw Hs. destruct (step_changes s e s' Hw Hs) as (s1 & Hc & Heq).
  destruct (changes_owner _ _ _ _ Hc) as (Ho & _). by destruct Heq as [->| ->].
Qed.

(** The owner is out of everyone's reach, their own included: no action
    takes the group from them, makes them leave it, bans or mutes them, or
    makes a message of theirs refused that was not. *)
Theorem owner_inviolable s e s' o :
  wf s -> gs_owner s = Some o -> step s e s' ->
  gs_owner s' = Some o /\ gs_members s' !! o = Some ∅ /\
  (o ∈ gs_bans s' -> o ∈ gs_bans s) /\ gs_mutes s' !! o = gs_mutes s !! o /\
  (forall at_, silence_at s o at_ = None -> silence_at s' o at_ = None).
Proof.
  intros Hw Ho Hs. split; [by rewrite (step_owner s e s')|]. split.
  { apply (wf_owner s'); [by eapply step_wf|]. by rewrite (step_owner s e s'). }
  pose proof (wf_owner s Hw o Ho) as Hmem.
  assert (Hne : forall t, is_owner s t = false -> o <> t).
  { intros t Ht ->. unfold is_owner in Ht. bools. congruence. }
  destruct (step_changes s e s' Hw Hs) as (s1 & Hc & Heq).
  assert (H : (o ∈ gs_bans s1 -> o ∈ gs_bans s) /\ gs_mutes s1 !! o = gs_mutes s !! o /\
    (forall at_, silence_at s o at_ = None -> silence_at s1 o at_ = None)).
  { assert (Hsil : forall t l, is_owner s t = false -> silenced_only t (gs_silences s) l ->
      forall at_, silence_at s o at_ = None ->
      List.find (fun x => bool_decide (s_who x = o) && covers x at_) l = None).
    { intros t l Ht Hl at_ Hn. rewrite Hl by by apply Hne. exact Hn. }
    destruct Hc as [|t s2 [Ht _ (w & h & _ & -> & _)]|t ban Ht _|t|t sil m Ht _ Hsi Hm|es s2 He|Hm _|Hl].
    - done.
    - destruct (gs_members s !! t); cbn; [done|]. split; [done|]. split; [done|].
      apply (Hsil t); [done|]. apply close_removal_silenced.
    - pose proof (Hne t Ht). destruct (is_member s t), ban; cbn [orb id]; (split; [|split]);
        cbn; rewrite ?lookup_delete_ne, ?elem_of_union, ?elem_of_singleton by done;
        try done; try (by intros [|]);
        apply (Hsil t); try done; by apply silenced_only_app.
    - split; [|done]. cbn. set_solver.
    - split; [done|]. split; [by apply Hm, Hne|]. by apply (Hsil t).
    - pose proof (edit_all_edited _ _ _ _ _ (edited_refl s) He) as [].
      unfold silence_at. by rewrite ed_bans, ed_mutes, ed_silences.
    - split; [done|]. split; [done|]. intros at_. apply (Hsil (ev_pubkey e)).
      + destruct (is_owner s (ev_pubkey e)) eqn:E; [|done]. apply is_owner_eq in E.
        apply (wf_owner s Hw) in E. unfold is_member in Hm. by rewrite E in Hm.
      + apply close_removal_silenced.
    - split; [done|]. split; [cbn; rewrite lookup_delete_ne; [done|by apply not_eq_sym, Hne]|].
      apply (Hsil (ev_pubkey e)); [done|]. by apply silenced_only_app. }
  by destruct Heq as [->| ->].
Qed.

(** ** Rank *)

(** What a step leaves of a person [p] who is not outranked by its signer. *)
Record untouched (s s' : GroupState) (actor p : PublicKey) : Prop := {
  un_held held : gs_members s !! p = Some held ->
    exists held', gs_members s' !! p = Some held' /\ held' ⊆ held /\
    forall r role, r ∈ held -> gs_roles s !! r = Some role -> rank s actor <= r_position role ->
      r ∈ held' /\ gs_roles s' !! r = Some role;
  un_bans : p ∈ gs_bans s' -> p ∈ gs_bans s;
  un_mutes : gs_mutes s' !! p = gs_mutes s !! p;
  un_silences at_ : silence_at s p at_ = None -> silence_at s' p at_ = None;
}.
Lemma untouched_same s s' actor p t : p <> t ->
  gs_members s' !! p = gs_members s !! p -> gs_roles s' = gs_roles s ->
  (p ∈ gs_bans s' -> p ∈ gs_bans s) -> gs_mutes s' !! p = gs_mutes s !! p ->
  silenced_only t (gs_silences s) (gs_silences s') -> untouched s s' actor p.
Proof.
  intros Hp Hm Hr Hb Hmu Hs. split; [|done..|].
  - intros held Hh. rewrite Hm, Hr. eauto.
  - intros at_. unfold silence_at. by rewrite (Hs p at_).
Qed.
Lemma edit_untouched s actor es s' p :
  is_owner s actor = false -> edit_all s s actor es = Ok s' -> untouched s s' actor p.
Proof.
  intros Ho H. pose proof (edit_all_edited _ _ _ _ _ (edited_refl s) H) as He.
  pose proof (edit_all_bounded _ _ _ _ _ Ho (bounded_refl s actor) H) as Hb. split.
  - intros held Hh. pose proof (ed_members _ _ He p) as Hm. rewrite Hh in Hm.
    destruct Hm as (held' & Hm & Hsub). exists held'. split; [done|]. split; [done|].
    intros r role Hin Hr Hrk. split; [|by apply (bd_above _ _ _ Hb)].
    destruct (bd_held _ _ _ Hb p held r role Hh Hin Hr Hrk) as (h & Hm' & Hin').
    rewrite Hm in Hm'. by injection Hm' as <-.
  - by rewrite (ed_bans _ _ He).
  - by rewrite (ed_mutes _ _ He).
  - intros at_. unfold silence_at. by rewrite (ed_silences _ _ He).
Qed.

Lemma changes_untouched s actor at_ s' p :
  changes s actor at_ s' -> is_owner s actor = false -> p <> actor -> is_member s p = true ->
  outranks s actor p = false -> untouched s s' actor p.
Proof.
  intros Hc Ho Hpa Hm Hout.
  assert (Hne : forall t, outranks s actor t = true -> p <> t) by (intros t Ht ->; congruence).
  destruct Hc as [|t s2 [Ht Hnew (w & h & Hh & -> & Hr)]|t ban Ht Ho'|t|t sil m Ht Ho' Hsi Hmu|
    es s2 He|Hj _|Hl].
  - by apply (untouched_same _ _ _ _ actor).
  - destruct (decide (p = t)) as [->|Hp].
    + apply is_member_some in Hm as [held Em]. rewrite Em in *. cbn in *. subst h.
      destruct Hr as [->|[Hr _]]; [|rewrite Hr in Hout; [done|by eexists]].
      apply (untouched_same _ _ _ _ actor); try done. cbn. by rewrite lookup_insert_eq.
    + apply (untouched_same _ _ _ _ t); [done|..].
      * cbn. by rewrite lookup_insert_ne.
      * by destruct (opt_bool _).
      * by destruct (opt_bool _).
      * by destruct (opt_bool _).
      * destruct (opt_bool _); [done|]. apply close_removal_silenced.
  - pose proof (Hne t Ho'). apply (untouched_same _ _ _ _ t); [done|..];
      destruct (is_member s t), ban; cbn [orb id]; cbn;
      rewrite ?lookup_delete_ne, ?elem_of_union, ?elem_of_singleton by done;
      try done; try (by intros [|]); by apply silenced_only_app.
  - apply (untouched_same _ _ _ _ actor); try done. cbn. by intros [? _]%elem_of_difference.
  - pose proof (Hne t Ho'). apply (untouched_same _ _ _ _ t); try done. cbn. by apply Hmu.
  - by eapply edit_untouched.
  - apply (untouched_same _ _ _ _ actor); try done; cbn; [by rewrite lookup_insert_ne|].
    apply close_removal_silenced.
  - apply (untouched_same _ _ _ _ actor); try done; cbn; [by rewrite lookup_delete_ne..|].
    by apply silenced_only_app.
Qed.

(** Rank protects: an action by someone who is not the owner does not
    touch a member they do not outrank.  The member stays in the group, is not
    banned, muted or silenced by it, and keeps every role at or above the
    signer's rank, those roles being left as they were. *)
Theorem rank_protects s e s' p :
  wf s -> step s e s' -> is_owner s (ev_pubkey e) = false -> p <> ev_pubkey e ->
  is_member s p = true -> outranks s (ev_pubkey e) p = false ->
  untouched s s' (ev_pubkey e) p.
Proof.
  intros Hw Hs Ho Hp Hm Hout. destruct (step_changes s e s' Hw Hs) as (s1 & Hc & Heq).
  pose proof (changes_untouched _ _ _ _ p Hc Ho Hp Hm Hout) as H.
  destruct Heq as [->| ->]; [done|]. by destruct H.
Qed.

(** ** A whole run *)
Lemma default_bits s e s' i : wf s -> is_owner s (ev_pubkey e) = false -> step s e s' ->
  0 <= i -> Z.testbit (base_of s' ∅) i = true -> Z.testbit (base_of s ∅) i = true.
Proof.
  intros Hw Ho Hs Hi Hb.
  apply base_of_bit in Hb as [Hall (r & role & [->|Hin] & Hr & Hb)]; [| |done].
  2: by apply not_elem_of_empty in Hin.
  apply base_of_bit; [done|]. split; [done|]. exists DEFAULT_ROLE, role. split; [by left|].
  split; [|done]. destruct (step_changes s e s' Hw Hs) as (s1 & Hc & Heq).
  assert (Hr1 : gs_roles s1 !! DEFAULT_ROLE = Some role) by by destruct Heq as [->| ->].
  destruct Hc as [|t s2 [_ _ (w & h & _ & -> & _)]|t ban _ _|t|t sil m _ _ _ _|es s2 He|_ _|_];
    try done.
  - by destruct (opt_bool _).
  - by destruct (is_member s t), ban.
  - pose proof (edit_all_bounded _ _ _ _ _ Ho (bounded_refl s _) He) as Hb'.
    by rewrite <- (bd_default _ _ _ Hb').
Qed.

(** Authority has one source: over any run in which the owner signs
    nothing, a permission that nobody but the owner held at the start is held
    by nobody but the owner at the end. *)
Theorem authority_from_owner s0 es s i :
  wf s0 -> steps s0 es s -> Forall (fun e => is_owner s0 (ev_pubkey e) = false) es -> 0 <= i ->
  Z.testbit (base_of s0 ∅) i = false ->
  (forall q, is_owner s0 q = false -> Z.testbit (base s0 q) i = false) ->
  forall q, is_owner s q = false -> Z.testbit (base s q) i = false.
Proof.
  intros Hw Hr Hq Hi Hd Hb.
  set (P := fun s => wf s /\ gs_owner s = gs_owner s0 /\ Z.testbit (base_of s ∅) i = false /\
    forall q, is_owner s q = false -> Z.testbit (base s q) i = false).
  assert (HP : P s); [|by destruct HP as (_ & _ & _ & HP)].
  eapply (steps_inv_events P); [|by unfold P|exact Hq|exact Hr].
  clear s es Hr Hq. intros s e s' (Hws & Hos & Hds & Hbs) Ho Hs.
  assert (Hoe : is_owner s (ev_pubkey e) = false) by (unfold is_owner in *; by rewrite Hos).
  split; [by eapply step_wf|]. pose proof (step_owner s e s' Hws Hs) as Ho'.
  split; [congruence|]. split.
  - destruct (Z.testbit (base_of s' ∅) i) eqn:E; [|done].
    eapply default_bits in E; [|done..]. congruence.
  - intros q Hq. destruct (Z.testbit (base s' q) i) eqn:E; [|done].
    destruct (step_no_more s e s' q Hws Hoe Hs) as [Hsub _].
    apply Hsub in E; [|done]. unfold Perm.union in E. rewrite !Z.lor_spec, Hds, (Hbs _ Hoe) in E.
    rewrite Hbs in E; [done|]. unfold is_owner in *. by rewrite <- Ho'.
Qed.
End Escalation.
