(* ===== verification/Answers.v ===== *)
(** What a group's answers promise: when a message is accepted, who may read
    an event, and how removal, bans, mutes and the wait of a newcomer hold
    over a whole run. *)
From S2P Require Import Prelude Text Nostr GroupEvent Replace Perm Zap GroupState Fold.
From S2P Require Import FoldOrder Authority Safety Invariant Machine Escalation.

#[local] Open Scope Z_scope.

Section Answers.
Context {N : NostrTypes} {O : NostrOps}.

(** ** Posting *)
Lemma judge_in_channel_ok s e needed :
  judge_in_channel s e needed = Ok tt <->
  exists ch, channel_of e = Some ch /\ is_Some (channel s ch) /\
    is_member s (ev_pubkey e) = true /\
    Perm.contains (effective s (ev_pubkey e) ch) needed = true.
Proof.
  unfold judge_in_channel, require_member. split.
  - destruct (channel_of e) as [ch|]; cbn [ok_or]; [|done].
    destruct (channel s ch) eqn:Ec; cbn [ok_or]; [|done].
    destruct (is_member s (ev_pubkey e)) eqn:Em; [|done].
    destruct (Perm.contains _ _) eqn:Ep; [|done]. intros _. exists ch. eauto.
  - intros (ch & Hc & [c Hs] & Hm & Hp). rewrite Hc. cbn [ok_or]. by rewrite Hs, Hm, Hp.
Qed.

Lemma judge_message_inv s m : judge_message s m = Ok tt ->
  judge_in_channel s m (Perm.union Perm.VIEW_CHANNEL Perm.SEND_MESSAGES) = Ok tt /\
  silence_at s (ev_pubkey m) (ev_created_at m) = None /\
  posts_from s (ev_pubkey m) (ev_created_at m) = None.
Proof.
  unfold judge_message. destruct (_ && _); [done|].
  destruct (judge_in_channel _ _ _) as [[]|]; [|done].
  destruct (silence_at _ _ _); [done|]. by destruct (posts_from _ _ _).
Qed.

(** A message is accepted exactly when its files are well formed, it
    names a channel the group has, its author is a member who may view that
    channel and send in it, no removal or mute of the author covers the time
    it was signed at, and the author's wait as a newcomer was over then. *)
Theorem judge_message_ok s m :
  judge_message s m = Ok tt <->
  (ev_kind m = CHAT_MESSAGE -> exists l, attachments_of m = Ok l) /\
  (exists ch, channel_of m = Some ch /\ is_Some (channel s ch) /\
     is_member s (ev_pubkey m) = true /\
     Perm.contains (effective s (ev_pubkey m) ch) Perm.VIEW_CHANNEL = true /\
     Perm.contains (effective s (ev_pubkey m) ch) Perm.SEND_MESSAGES = true) /\
  (forall x, x ∈ gs_silences s -> s_who x = ev_pubkey m -> covers x (ev_created_at m) = false) /\
  (newcomer_wait s <> 0 -> forall joined, gs_joined s !! ev_pubkey m = Some joined ->
     ts_add joined (newcomer_wait s) <= ev_created_at m).
Proof.
  assert (Hatt : ((ev_kind m =? CHAT_MESSAGE) && negb (is_ok (attachments_of m))) = false <->
    (ev_kind m = CHAT_MESSAGE -> exists l, attachments_of m = Ok l)).
  { destruct (Z.eqb_spec (ev_kind m) CHAT_MESSAGE); cbn; [|naive_solver].
    destruct (attachments_of m); cbn; naive_solver. }
  assert (Hsil : silence_at s (ev_pubkey m) (ev_created_at m) = None <->
    forall x, x ∈ gs_silences s -> s_who x = ev_pubkey m -> covers x (ev_created_at m) = false).
  { unfold silence_at. split.
    - intros Hn x Hx Hw. apply (find_none_elem _ _ x Hn) in Hx.
      rewrite bool_decide_true in Hx by done. done.
    - intros Hx. destruct (List.find _ _) as [x|] eqn:E; [|done].
      apply find_elem in E as [Hin Hp]. bools. rewrite Hx in H0; done. }
  assert (Hpost : posts_from s (ev_pubkey m) (ev_created_at m) = None <->
    (newcomer_wait s <> 0 -> forall joined, gs_joined s !! ev_pubkey m = Some joined ->
       ts_add joined (newcomer_wait s) <= ev_created_at m)).
  { unfold posts_from. destruct (Z.eqb_spec (newcomer_wait s) 0); [naive_solver|].
    destruct (gs_joined s !! ev_pubkey m) as [j|]; [|naive_solver].
    destruct (ev_created_at m <? ts_add j (newcomer_wait s)) eqn:E; bools.
    - split; [done|]. intros H. specialize (H n j eq_refl). lia.
    - split; [|done]. intros _ _ j' [= <-]. done. }
  rewrite <- Hatt, <- Hsil, <- Hpost. unfold judge_message.
  destruct (_ && _); [naive_solver|].
  assert (Hch : judge_in_channel s m (Perm.union Perm.VIEW_CHANNEL Perm.SEND_MESSAGES) = Ok tt <->
    exists ch, channel_of m = Some ch /\ is_Some (channel s ch) /\
     is_member s (ev_pubkey m) = true /\
     Perm.contains (effective s (ev_pubkey m) ch) Perm.VIEW_CHANNEL = true /\
     Perm.contains (effective s (ev_pubkey m) ch) Perm.SEND_MESSAGES = true).
  { rewrite judge_in_channel_ok. setoid_rewrite Perm.contains_union.
    by setoid_rewrite andb_true_iff. }
  rewrite <- Hch. destruct (judge_in_channel _ _ _) as [[]|]; [|naive_solver].
  destruct (silence_at _ _ _); [naive_solver|]. destruct (posts_from _ _ _); naive_solver.
Qed.

(** ** Removal *)

(** The actions that let [t] (back) into the group. *)
Definition lets_in (t : PublicKey) (e : Event) : bool :=
  match parse_action e with
  | Some (_, Put t' _) => bool_decide (t' = t)
  | Some (_, Join _) => bool_decide (ev_pubkey e = t)
  | _ => false
  end.

(** A removal of [t] covers the time [at_]. *)
Definition removed_at (t : PublicKey) (at_ : Timestamp) (s : GroupState) : Prop :=
  exists x, x ∈ gs_silences s /\ s_who x = t /\ s_mute x = false /\ covers x at_ = true.

Lemma removed_at_mono t at_ s s' :
  (forall x, x ∈ gs_silences s -> x ∈ gs_silences s') -> removed_at t at_ s -> removed_at t at_ s'.
Proof. intros H (x & Hx & Hr). exists x. auto. Qed.
Lemma removed_at_end_mute t at_ t' at' s :
  removed_at t at_ s -> removed_at t at_ (set_silences (map (end_mute t' at') (gs_silences s)) s).
Proof.
  intros (x & Hx & Hw & Hm & Hc). exists x. split; [|done]. cbn. apply list_elem_of_fmap.
  exists x. split; [|done]. unfold end_mute. by rewrite Hm, andb_false_r.
Qed.
(** Letting someone in later does not reach back. *)
Lemma removed_at_let_back t at_ t' at' s : t' <> t \/ at_ < at' ->
  removed_at t at_ s -> removed_at t at_ (let_back_in s t' at').
Proof.
  intros Ht (x & Hx & Hw & Hm & Hc). exists (close_removal t' at' x). split.
  { cbn. apply list_elem_of_fmap. eauto. }
  unfold close_removal. case_bool_decide as Hwho; [|done]. rewrite Hm. cbn [negb andb].
  destruct (s_until x) as [u|] eqn:Eu; [done|]. cbn [opt_bool negb s_who s_mute].
  split; [done|]. split; [done|]. unfold covers in *. rewrite Eu in Hc. cbn in *.
  destruct Ht as [Ht|Ht]; [congruence|]. bools. apply andb_true_iff. split; [by apply Z.leb_le|].
  by apply Z.ltb_lt.
Qed.

Lemma apply_put_silences s actor at_ t roles s' : apply_put s actor at_ t roles = Ok s' ->
  gs_silences s' = gs_silences (if opt_bool (gs_members s !! t) then s else let_back_in s t at_).
Proof. unfold apply_put. intros H. inv_result; destruct (gs_members s !! t); done. Qed.

Lemma apply_removed_at t at_ s e :
  (lets_in t e = true -> at_ < ev_created_at e) ->
  removed_at t at_ s -> removed_at t at_ (fst (apply s e)).
Proof.
  intros Hl Hr. unfold lets_in in Hl. unfold apply.
  destruct (parse_action e) as [[g a]|]; [|done].
  assert (Hset : forall r, (forall s', r = Ok s' -> removed_at t at_ s') ->
    removed_at t at_ (fst (settle s r))) by (intros [s'|] H; cbn; auto).
  destruct a; try done; try (apply Hset; intros s' H).
  - apply apply_put_silences in H. unfold removed_at. rewrite H.
    destruct (opt_bool _); [exact Hr|]. revert Hr. apply removed_at_let_back.
    destruct (decide (target = t)) as [->|]; [right; apply Hl; by rewrite bool_decide_true|by left].
  - unfold apply_remove in H. destruct (require_member _ _); [|done]. destruct (negb _); [|done].
    destruct (_ || ban); [|done]. destruct (require _ _ _); [|done].
    destruct (outranks _ _ _); [|done]. injection H as <-.
    revert Hr. apply removed_at_mono. intros x Hx.
    destruct ban, (is_member s target); cbn; try done; apply elem_of_app; by left.
  - unfold apply_unban in H. inv_result. exact Hr.
  - unfold apply_mute. destruct (mute_guards _ _ _); [|done].
    apply (removed_at_end_mute t at_ target (ev_created_at e)) in Hr.
    destruct until as [u|]; [destruct (_ <? u)|destruct (gs_mutes _ !! target)]; try exact Hr.
    revert Hr. apply removed_at_mono. cbn. intros x Hx. apply elem_of_app. by left.
  - unfold apply_edit in H. destruct (require_member _ _); [|done].
    pose proof (edit_all_edited _ _ _ _ _ (edited_refl s) H) as He. revert Hr.
    apply removed_at_mono. intros x. by rewrite (ed_silences _ _ He).
  - unfold apply_join in H. destruct (negb _); [|done].
    destruct (match code with Some _ => _ | None => _ end); [|done].
    destruct (negb _); [|done]. injection H as <-.
    apply (removed_at_let_back t at_ (ev_pubkey e) (ev_created_at e) s) in Hr; [exact Hr|].
    destruct (decide (ev_pubkey e = t)) as [E|]; [right; apply Hl; by rewrite bool_decide_true|by left].
  - unfold apply_leave in H. inv_result. revert Hr. apply removed_at_mono. cbn.
    intros x Hx. apply elem_of_app. by left.
Qed.
Lemma step_removed_at t at_ s e s' :
  (lets_in t e = true -> at_ < ev_created_at e) -> step s e s' ->
  removed_at t at_ s -> removed_at t at_ s'.
Proof.
  intros Hl Hs Hr. pose proof (apply_removed_at t at_ s e Hl Hr) as H.
  destruct Hs as [s1 E|s1 err E]; rewrite E in H; exact H.
Qed.

(** What a removal or a leave that went through did to its target. *)
Lemma remove_removed s e s1 g t ban at_ : parse_action e = Some (g, Remove t ban) ->
  apply s e = (s1, Ok tt) -> ev_created_at e <= at_ ->
  gs_members s1 !! t = None /\ removed_at t at_ s1 /\ (ban = true -> t ∈ gs_bans s1).
Proof.
  intros Ha H Hat. unfold apply in H. rewrite Ha in H.
  destruct (apply_remove _ _ _ _ _) as [s1'|] eqn:E; [|done]. injection H as ->.
  unfold apply_remove in E. destruct (require_member _ _); [|done]. destruct (negb _); [|done].
  destruct (is_member s t || ban) eqn:Em; [|done]. destruct (require _ _ _); [|done].
  destruct (outranks _ _ _); [|done]. injection E as <-.
  assert (Hx : covers (mkSilence t (ev_created_at e) None false) at_ = true).
  { unfold covers. cbn. rewrite andb_true_r. by apply Z.leb_le. }
  assert (Hn : is_member s t = false -> gs_members s !! t = None).
  { unfold is_member. by destruct (gs_members s !! t). }
  split; [|split].
  - destruct (is_member s t), ban; cbn; try done; auto; by rewrite lookup_delete_eq.
  - exists (mkSilence t (ev_created_at e) None false). split; [|done].
    destruct (is_member s t), ban; try done; cbn; apply elem_of_app; right; by left.
  - intros ->. cbn. apply elem_of_union. left. by apply elem_of_singleton.
Qed.

(** C27. A removal sticks: after a kick or a ban has been applied, whatever
    actions follow, a message its target signed at [at_] - the removal's own
    time or later - stays refused, unless something let them back in no later
    than that; and reactions with it. *)
Theorem removed_stay_silent s e s1 es s2 g t ban m :
  parse_action e = Some (g, Remove t ban) -> apply s e = (s1, Ok tt) -> steps s1 es s2 ->
  ev_pubkey m = t -> ev_created_at e <= ev_created_at m ->
  (forall e', e' ∈ es -> lets_in t e' = true -> ev_created_at m < ev_created_at e') ->
  is_ok (judge_message s2 m) = false /\ is_ok (judge_reaction s2 m) = false.
Proof.
  intros Ha Hap Hr <- Hat Hl.
  destruct (remove_removed s e s1 g _ ban (ev_created_at m) Ha Hap Hat) as (_ & Hrem & _).
  assert (H2 : removed_at (ev_pubkey m) (ev_created_at m) s2).
  { refine (steps_inv_events _ (fun e' => lets_in (ev_pubkey m) e' = true ->
      ev_created_at m < ev_created_at e') s1 es s2 _ Hrem _ Hr).
    - intros sa ea sb Hsa Hea Hst. by eapply step_removed_at.
    - by apply Forall_forall. }
  assert (Hj : is_ok (judge_message s2 m) = false).
  { destruct (judge_message s2 m) as [[]|] eqn:E; [|done]. exfalso.
    apply judge_message_inv in E as (_ & Hs & _). destruct H2 as (x & Hx & Hw & _ & Hc).
    apply (find_none_elem _ _ x Hs) in Hx. by rewrite Hw, Hc, bool_decide_true in Hx. }
  split; [done|]. unfold judge_reaction. by destruct (_ || _).
Qed.

(** ** Reading *)

(** Confidentiality: whoever may read an event is the person its removal
    names, or the event is not folded away and they are a member - or the group
    is public -, and if the event is in a channel, it is one they may view: by
    their own permissions as a member, by the default role's as anyone. *)
Theorem may_read_sound s reader e now :
  may_read s reader e now = true ->
  removes e reader = true \/
  (is_folded s e now = false /\
   (is_member s reader = true \/ gs_public s = true) /\
   (in_a_channel e = true -> exists ch, channel_of e = Some ch /\
      if is_member s reader then Perm.contains (effective s reader ch) Perm.VIEW_CHANNEL = true
      else is_Some (channel s ch) /\
           Perm.contains (effective_of s ∅ ch) Perm.VIEW_CHANNEL = true)).
Proof.
  unfold may_read. destruct (is_member s reader); cbn [negb]; intros H.
  - right. destruct (is_folded s e now); [done|]. split; [done|]. split; [by left|].
    intros Hc. rewrite Hc in H. destruct (channel_of e) as [ch|]; [|done]. by exists ch.
  - destruct (removes e reader); [by left|right].
    destruct (gs_public s) eqn:Ep, (is_folded s e now); try done.
    split; [done|]. split; [by right|]. intros Hc. rewrite Hc in H. cbn in H.
    destruct (channel_of e) as [ch|]; [|done]. exists ch. split; [done|].
    cbn in H. unfold open_to_readers in H. bools. split; [|done].
    destruct (channel s ch); [by eexists|done].
Qed.

(** In a channel's kinds nothing is folded away. *)
Lemma channel_kind_unfolded s e now : in_a_channel e = true -> is_folded s e now = false.
Proof.
  unfold in_a_channel, is_folded. intros [H|H]%orb_prop.
  - unfold kind_in in *. cbn in H. repeat (apply orb_prop in H as [H|H]; [by bools; rewrite H|]).
    done.
  - bools. by rewrite H.
Qed.
Lemma judged_in_channel_read s e needed now reader :
  in_a_channel e = true -> judge_in_channel s e needed = Ok tt ->
  Perm.contains needed Perm.VIEW_CHANNEL = true -> ev_pubkey e = reader ->
  may_read s reader e now = true.
Proof.
  intros Hc (ch & Hch & _ & Hm & Hp)%judge_in_channel_ok Hn <-. unfold may_read.
  rewrite Hm. cbn [negb]. rewrite channel_kind_unfolded, Hc, Hch by done. cbn.
  apply Perm.contains_subset in Hp, Hn. apply Perm.contains_subset.
  by eapply Perm.subset_trans.
Qed.

(** Whoever may write may read: the author of a message, a reaction, a
    deletion, a moderator's removal or a zap that is accepted may read it back,
    at any time. *)
Lemma writers_read s e now :
  in_a_channel e = true ->
  is_ok (judge_message s e) || is_ok (judge_reaction s e) || is_ok (judge_deletion s e)
  || is_ok (judge_removal s e) || is_ok (judge_zap s e) || is_ok (judge_voice s e) = true ->
  may_read s (ev_pubkey e) e now = true.
Proof.
  intros Hc H.
  assert (Hmsg : is_ok (judge_message s e) = true -> may_read s (ev_pubkey e) e now = true).
  { destruct (judge_message s e) as [[]|] eqn:E; [|done]. intros _.
    apply judge_message_inv in E as [E _]. by eapply judged_in_channel_read. }
  assert (Hch : forall needed, Perm.contains needed Perm.VIEW_CHANNEL = true ->
    is_ok (judge_in_channel s e needed) = true -> may_read s (ev_pubkey e) e now = true).
  { intros needed Hn. destruct (judge_in_channel s e needed) as [[]|] eqn:E; [|done].
    intros _. by eapply judged_in_channel_read. }
  repeat (apply orb_prop in H as [H|H]); [by apply Hmsg|..].
  - apply Hmsg. unfold judge_reaction in H. by destruct (_ || _).
  - apply (Hch Perm.VIEW_CHANNEL); [done|]. unfold judge_deletion in H. by destruct (no_targets e).
  - apply (Hch (Perm.union Perm.VIEW_CHANNEL Perm.MANAGE_MESSAGES)); [done|].
    unfold judge_removal in H. by destruct (no_targets e).
  - apply (Hch Perm.VIEW_CHANNEL); [done|]. unfold judge_zap in H.
    by destruct (carried e) as [|[]].
  - apply (Hch Perm.VIEW_CHANNEL); [done|]. unfold judge_voice in H. unfold judge_in_channel.
    destruct (channel_of e) as [ch|]; cbn [ok_or] in *; [|done].
    destruct (channel s ch) as [c|]; cbn [ok_or] in *; [|done]. by destruct (bool_decide _).
Qed.

(** ** Bans *)
Definition unbans (p : PublicKey) (e : Event) : bool :=
  match parse_action e with Some (_, Unban t) => bool_decide (t = p) | _ => false end.

Lemma apply_bans p s e : p ∈ gs_bans s -> unbans p e = false -> p ∈ gs_bans (fst (apply s e)).
Proof.
  intros Hp Hu. unfold unbans in Hu. unfold apply.
  destruct (parse_action e) as [[g a]|]; [|done].
  assert (Hset : forall r, (forall s', r = Ok s' -> p ∈ gs_bans s') ->
    p ∈ gs_bans (fst (settle s r))) by (intros [s'|] H; cbn; auto).
  destruct a; try done; try (apply Hset; intros s' H).
  - unfold apply_put in H. inv_result; by destruct (gs_members s !! target).
  - unfold apply_remove in H. destruct (require_member _ _); [|done]. destruct (negb _); [|done].
    destruct (_ || ban); [|done]. destruct (require _ _ _); [|done].
    destruct (outranks _ _ _); [|done]. injection H as <-.
    destruct ban, (is_member s target); cbn; try done; apply elem_of_union; by right.
  - unfold apply_unban in H. inv_result. cbn. bools. apply elem_of_difference. split; [done|].
    rewrite elem_of_singleton. congruence.
  - unfold apply_mute. destruct (mute_guards _ _ _); [|done].
    destruct until as [u|]; [by destruct (_ <? u)|by destruct (gs_mutes _ !! target)].
  - unfold apply_edit in H. destruct (require_member _ _); [|done].
    pose proof (edit_all_edited _ _ _ _ _ (edited_refl s) H) as He. by rewrite (ed_bans _ _ He).
  - unfold apply_join in H. inv_result; done.
  - unfold apply_leave in H. inv_result. done.
Qed.
Lemma apply_banned_out p s e : wf s -> p ∈ gs_bans s -> gs_members s !! p = None ->
  gs_members (fst (apply s e)) !! p = None.
Proof.
  intros Hw Hp Hm.
  destruct (apply_changes s e Hw) as
    [|t s1 [_ Hnew (w & h & _ & -> & _)]|t ban _ _|t|t sil mutes _ _ _ _|es s1 He|_ Hb|_]; try done.
  - destruct (decide (t = p)) as [->|Hne]; [by apply Hnew in Hm|]. cbn. by rewrite lookup_insert_ne.
  - destruct (is_member s t), ban; cbn; try done; by apply lookup_delete_None; right.
  - pose proof (ed_members _ _ (edit_all_edited _ _ _ _ _ (edited_refl s) He) p) as H.
    by rewrite Hm in H.
  - cbn. rewrite lookup_insert_ne; [done|]. intros E. by rewrite E in Hb.
  - cbn. by apply lookup_delete_None; right.
Qed.

(** A ban holds until it is lifted: over any run without an unban of
    [p], someone banned and out stays banned and out, however they try to join
    and whoever puts them in. *)
Theorem banned_stay_out s es s' p :
  wf s -> steps s es s' -> p ∈ gs_bans s -> gs_members s !! p = None ->
  Forall (fun e => unbans p e = false) es ->
  p ∈ gs_bans s' /\ gs_members s' !! p = None.
Proof.
  intros Hw Hr Hb Hm Hu.
  set (P := fun s => wf s /\ p ∈ gs_bans s /\ gs_members s !! p = None).
  assert (HP : P s'); [|by destruct HP].
  eapply (steps_inv_events P); [|by split|exact Hu|exact Hr].
  clear. intros s e s' (Hw & Hb & Hm) Hu Hs. split; [by eapply step_wf|].
  pose proof (apply_bans p s e Hb Hu) as Hb'. pose proof (apply_banned_out p s e Hw Hb Hm) as Hm'.
  destruct Hs as [s1 E|s1 err E]; rewrite E in Hb', Hm'; done.
Qed.

(** ** Refusals *)

(** A refused action leaves the state as it was - but for a mute, which
    by then has ended the spans of the mutes in force on its target. *)
Theorem refusal_changes s e s' err :
  apply s e = (s', Err err) ->
  s' = s \/
  exists g t until, parse_action e = Some (g, Mute t until) /\
    mute_guards s (ev_pubkey e) t = Ok tt /\
    s' = set_silences (map (end_mute t (ev_created_at e)) (gs_silences s)) s.
Proof.
  unfold apply. destruct (parse_action e) as [[g a]|]; [|by intros [= <- _]; left].
  assert (Hset : forall r, settle s r = (s', Err err) -> s' = s).
  { intros [x|x]; cbn; congruence. }
  destruct a; try (intros H; left; by eapply Hset); [|by intros [= <- _]; left].
  unfold apply_mute. destruct (mute_guards _ _ _) as [[]|] eqn:Eg; [|intros [= <- _]; by left].
  intros H. right. exists g, target, until. split; [done|]. split; [done|].
  destruct until as [u|]; [destruct (_ <? u)|destruct (gs_mutes _ !! target)]; congruence.
Qed.

(** ** Public groups *)
Context {L : NostrLaws}.

(** In a public group the wait of a newcomer never drops below five
    minutes, whatever the group set: no message is accepted that its author
    signed within five minutes of joining. *)
Theorem newcomers_wait s m joined :
  gs_public s = true -> gs_joined s !! ev_pubkey m = Some joined ->
  0 <= joined -> joined + newcomer_wait s <= U64_MAX ->
  judge_message s m = Ok tt -> joined + PUBLIC_NEWCOMER_FLOOR <= ev_created_at m.
Proof.
  intros Hpub Hj H0 Hmax (_ & _ & Hp)%judge_message_inv.
  assert (Hge : PUBLIC_NEWCOMER_FLOOR <= newcomer_wait s) by (unfold newcomer_wait; rewrite Hpub; lia).
  unfold posts_from in Hp. destruct (Z.eqb_spec (newcomer_wait s) 0) as [E|E].
  { unfold PUBLIC_NEWCOMER_FLOOR in *. lia. }
  rewrite Hj, ts_add_exact in Hp; [|done|unfold PUBLIC_NEWCOMER_FLOOR in *; lia|done].
  destruct (_ <? _) eqn:Elt; [done|]. bools. lia.
Qed.
End Answers.
