(* ===== verification/Compaction.v ===== *)
(** Compaction: the state a group key signs as four events is the state a peer
    folds from them.  [GroupState::to_snapshot] and [Snapshot::sign] on one
    side, [GroupState::fold] on the other. *)
From S2P Require Import Prelude Text Nostr GroupEvent Replace Perm Zap GroupState Fold.
From S2P Require Import FoldOrder Authority Safety Invariant Machine.

#[local] Open Scope Z_scope.

Section Compaction.
Context {N : NostrTypes} {O : NostrOps} {L : NostrLaws}.

Lemma pk_hex_inj p q : pk_to_hex p = pk_to_hex q -> p = q.
Proof. intros H. apply (f_equal pk_from_hex) in H. rewrite !pk_hex in H. by injection H. Qed.

(** ** Signing *)

(** No [p] row of a builder names the group key itself. *)
Definition never_names (g : PublicKey) (ts : list Tag) : Prop :=
  forall t, t ∈ ts -> t !! 0%nat = Some "p"%string -> t !! 1%nat <> Some (pk_to_hex g).

Lemma never_names_app g l1 l2 : never_names g l1 -> never_names g l2 -> never_names g (l1 ++ l2).
Proof. intros H1 H2 t [Ht|Ht]%elem_of_app; auto. Qed.
Lemma never_names_map {A} g (f : A -> Tag) l :
  (forall x, x ∈ l -> exists n vs, f x = n :: vs /\ (n = "p"%string -> vs !! 0%nat <> Some (pk_to_hex g))) ->
  never_names g (map f l).
Proof.
  intros H t (x & -> & Hx)%list_elem_of_fmap. destruct (H x Hx) as (n & vs & -> & Hn).
  cbn. intros [= ->]. auto.
Qed.
Lemma never_names_cons g n vs l : n <> "p"%string -> never_names g l -> never_names g ((n :: vs) :: l).
Proof.
  intros Hn Hl t Ht. apply elem_of_cons in Ht as [->|Ht]; [|by apply Hl].
  cbn. congruence.
Qed.
Lemma never_names_nil g : never_names g [].
Proof. intros t Ht. by apply not_elem_of_nil in Ht. Qed.

Lemma state_base_names g seq at_ kind : never_names g (b_tags (state_base g seq at_ kind)).
Proof.
  cbn. rewrite tag_identifier_spec, tag_custom_spec.
  do 2 (apply never_names_cons; [done|]). apply never_names_nil.
Qed.
Lemma meta_names s g at_ : never_names g (b_tags (meta_builder s g at_)).
Proof.
  rewrite meta_builder_tags. unfold meta_head_rows, visibility_tags.
  apply never_names_app; [apply never_names_app; [apply state_base_names|]|apply never_names_app].
  - rewrite tag_custom_spec. apply never_names_cons; [done|].
    destruct (sn_public s), (0 <? sn_newcomer_wait s), (negb (str_is_empty (sn_about s)));
      cbn [app]; rewrite ?tag_custom_spec; repeat (apply never_names_cons; [done|]);
      apply never_names_nil.
  - apply never_names_map. intros c _. unfold channel_tag. rewrite tag_custom_spec. by eexists _, _.
  - apply never_names_map. intros c _. unfold override_tag. rewrite tag_custom_spec. by eexists _, _.
Qed.
Lemma roles_names s g at_ : never_names g (b_tags (roles_builder s g at_)).
Proof.
  unfold roles_builder. rewrite b_tags_add_tags. apply never_names_app; [apply state_base_names|].
  apply never_names_map. intros r _. unfold role_tag. rewrite tag_custom_spec. by eexists _, _.
Qed.
Lemma admins_names s g at_ : sn_members s !! g = None -> sn_owner s <> Some g ->
  never_names g (b_tags (admins_builder s g at_)).
Proof.
  intros Hm Ho. unfold admins_builder. rewrite b_tags_add_tags. apply never_names_app.
  - destruct (sn_owner s) as [o|]; [|apply state_base_names].
    cbn [b_tags b_tag]. apply never_names_app; [apply state_base_names|].
    rewrite tag_custom_spec. intros t ->%list_elem_of_singleton. cbn. intros _ [= H].
    apply pk_hex_inj in H. congruence.
  - apply never_names_map. intros [p rs] [Hp _]%admin_rows_elem. rewrite tag_custom_spec.
    eexists _, _. split; [done|]. cbn. intros _ [= H]. apply pk_hex_inj in H. congruence.
Qed.
Lemma members_names s g at_ : sn_members s !! g = None ->
  never_names g (b_tags (members_builder s g at_)).
Proof.
  intros Hm. unfold members_builder. rewrite !b_tags_add_tags.
  apply never_names_app; [apply never_names_app;
    [apply never_names_app; [apply state_base_names|]|]|].
  - apply never_names_map. intros [p rs] Hp%map_entries_elem. rewrite tag_custom_spec.
    eexists _, _. split; [done|]. cbn. intros _ [= H]. apply pk_hex_inj in H. congruence.
  - apply never_names_map. intros p _. rewrite tag_custom_spec. by eexists _, _.
  - apply never_names_map. intros [p u] _. rewrite tag_custom_spec. by eexists _, _.
Qed.

(** The four events say what the four builders were given. *)
Lemma sign_carries sn key at_ meta admins members roles :
  let g := keys_public_key key in
  sn_members sn !! g = None -> sn_owner sn <> Some g ->
  Snapshot_sign sn key at_ = Some (meta, admins, members, roles) ->
  carries (meta_builder sn g at_) g meta /\ carries (admins_builder sn g at_) g admins /\
  carries (members_builder sn g at_) g members /\ carries (roles_builder sn g at_) g roles.
Proof.
  intros g Hm Ho. unfold Snapshot_sign. fold g.
  destruct (finalize key (meta_builder sn g at_)) as [e1|] eqn:E1; [|done].
  destruct (finalize key (admins_builder sn g at_)) as [e2|] eqn:E2; [|done].
  destruct (finalize key (members_builder sn g at_)) as [e3|] eqn:E3; [|done].
  destruct (finalize key (roles_builder sn g at_)) as [e4|] eqn:E4; [|done]. intros [= <- <- <- <-].
  apply finalize_spec in E1 as [? _]; [|apply meta_names].
  apply finalize_spec in E2 as [? _]; [|by apply admins_names].
  apply finalize_spec in E3 as [? _]; [|by apply members_names].
  by apply finalize_spec in E4 as [? _]; [|apply roles_names].
Qed.

(** All four are dated as asked. *)
Lemma builders_at s g at_ :
  b_created_at (meta_builder s g at_) = Some at_ /\ b_created_at (admins_builder s g at_) = Some at_ /\
  b_created_at (members_builder s g at_) = Some at_ /\ b_created_at (roles_builder s g at_) = Some at_.
Proof.
  unfold meta_builder, admins_builder, members_builder, roles_builder.
  rewrite !b_tags_add_at. split_and!; try done; [|by destruct (sn_owner s)].
  destruct (0 <? _), (negb _); cbn [b_created_at b_tag]; by rewrite b_tags_add_at.
Qed.
Lemma builders_kind s g at_ :
  b_kind (meta_builder s g at_) = GROUP_METADATA /\ b_kind (admins_builder s g at_) = GROUP_ADMINS /\
  b_kind (members_builder s g at_) = GROUP_MEMBERS /\ b_kind (roles_builder s g at_) = GROUP_ROLES.
Proof.
  rewrite meta_builder_kind. unfold admins_builder, members_builder, roles_builder.
  rewrite !b_tags_add_kind. split_and!; try done. by destruct (sn_owner s).
Qed.

(** ** Reading back *)

(** The snapshot of a well-formed state can be written. *)
Lemma to_snapshot_wf s : wf s -> 0 <= gs_seq s < U64_MAX -> snapshot_wf (to_snapshot s).
Proof.
  intros Hw Hs. destruct Hw as [Hr Hh Ho Hn Hj Hwait Hc Hov Hm] eqn:E. split; cbn; try done.
  - unfold is_u64. lia.
  - apply Forall_forall. intros r ([id x] & -> & Hx)%list_elem_of_fmap.
    apply map_entries_elem in Hx. cbn. split; [by eapply role_sanitized_u64|].
    by eapply (rw_positions _ Hr).
  - intros p held Hp Hin. by eapply held_not_mark in Hin.
Qed.

Lemma load_roles_back roles : roles_wf roles ->
  foldl load_role ∅ (map snd (map_entries String.leb roles)) = roles.
Proof.
  intros Hw. transitivity (foldl (fun (m : gmap string RoleDef) kv => <[fst kv := snd kv]> m) ∅
    (map_entries String.leb roles)).
  - assert (H : forall id r, (id, r) ∈ map_entries String.leb roles -> roles !! id = Some r).
    { intros id r. apply map_entries_elem. }
    revert H. generalize (map_entries String.leb roles) as l. intros l.
    generalize (∅ : gmap string RoleDef). induction l as [|[id r] l IH]; intros m H; [done|].
    cbn. rewrite IH by (intros; apply H; by right). f_equal.
    assert (Hr : roles !! id = Some r) by (apply H; left).
    pose proof (rw_ids _ Hw id r Hr) as Hid. pose proof (rw_perms _ Hw id r Hr) as Hp.
    unfold load_role. rewrite bool_decide_false.
    + rewrite Hp, Hid. f_equal. destruct r; cbn in *. by subst.
    + rewrite Hid. intros ->. by rewrite (rw_mark _ Hw) in Hr.
  - rewrite foldl_insert_entries by apply map_entries_nodup.
    by rewrite map_entries_collect, (right_id_L ∅ (∪)).
Qed.

(** The roles assigned again: a member who held some holds them again. *)
Lemma assign_back s members :
  gs_members s = gset_to_gmap ∅ (dom members) ->
  (forall p held, members !! p = Some held -> forall r, r ∈ held ->
     r <> DEFAULT_ROLE /\ is_Some (gs_roles s !! r)) ->
  foldl assign_roles s (map_entries pk_leb (filter (fun '(_, rs) => rs <> ∅) members)) =
  set_members members s.
Proof.
  intros Hm Hk.
  set (rows := map_entries pk_leb (filter (fun '(_, rs) => rs <> ∅) members)).
  assert (Hrows : forall p held, (p, held) ∈ rows <-> members !! p = Some held /\ held <> ∅).
  { intros p held. unfold rows. by rewrite map_entries_elem, map_lookup_filter_Some. }
  assert (Hkn : forall p held, (p, held) ∈ rows -> known_roles s held = held).
  { intros p held [Hp _]%Hrows. unfold known_roles. apply set_eq. intros r.
    rewrite elem_of_filter. split; [by intros [_ ?]|]. intros Hr. split; [|done]. by apply (Hk p held). }
  assert (Hnd : NoDup rows.*1) by apply map_entries_nodup.
  assert (Hin : forall p held, (p, held) ∈ rows -> is_Some (gs_members s !! p)).
  { intros p held [Hp _]%Hrows. rewrite Hm. exists ∅.
    apply lookup_gset_to_gmap_Some. split; [|done]. apply elem_of_dom. by eexists. }
  (* The loop, over the members it started from. *)
  assert (Hloop : forall l m, (forall p held, (p, held) ∈ l ->
      known_roles s held = held /\ is_Some (m !! p)) -> NoDup l.*1 ->
    foldl assign_roles (set_members m s) l = set_members (list_to_map l ∪ m) s).
  { clear. intros l. induction l as [|[p held] l IH]; intros m H Hnd.
    - cbn. by rewrite (left_id_L ∅ (∪)).
    - destruct (H p held) as [Hk [x Hx]]; [left|].
      cbn [foldl]. unfold assign_roles at 2. cbn [fst snd gs_members set_members]. rewrite Hx.
      change (known_roles (set_members m s) held) with (known_roles s held). rewrite Hk.
      apply NoDup_cons in Hnd as [Hp Hnd].
      change (set_members (<[p:=held]> m) (set_members m s)) with (set_members (<[p:=held]> m) s).
      rewrite IH; [|intros q h Hq|done].
      + f_equal. cbn [list_to_map foldr fst snd]. rewrite <- insert_union_l. symmetry.
        apply insert_union_r. by apply not_elem_of_list_to_map.
      + destruct (H q h) as [Hk' Hs]; [by right|]. split; [done|].
        rewrite lookup_insert. case_decide; [by eexists|done]. }
  assert (Hs : s = set_members (gs_members s) s) by by destruct s.
  rewrite Hs at 1. rewrite Hloop; [|intros p held Hp; eauto|done]. f_equal.
  apply map_eq. intros p. apply option_eq. intros held.
  unfold rows. rewrite map_entries_collect, lookup_union_Some_raw, Hm.
  rewrite map_lookup_filter_Some, map_lookup_filter_None, lookup_gset_to_gmap_Some, elem_of_dom.
  destruct (members !! p) as [h|] eqn:E.
  - destruct (decide (h = ∅)) as [->|Hne]; naive_solver.
  - split; [|done]. intros [[? _]|[_ [[? ?] _]]]; done.
Qed.

Lemma collect_piece g c e seq piece :
  kind_in (ev_kind e) STATE_KINDS = true -> parse_state e = Some (g, seq, piece) ->
  c_pieces c !! ev_kind e = None ->
  collect g c e = mkCollected (<[ev_kind e := e]> (c_pieces c)) (c_creators c) (c_actions c).
Proof.
  intros Hk Hp Hn. pose proof Hp as (_ & _ & Hg & _)%parse_state_wf.
  unfold collect. rewrite Hg, bool_decide_true, Hk, Hp, Hn by done. cbn.
  by destruct (replaces e e).
Qed.
Lemma collect_created g c e o : carries (create_group g) o e ->
  collect g c e = mkCollected (c_pieces c) ({[o]} ∪ c_creators c) (c_actions c).
Proof.
  intros (Hk & _ & Ht & _ & <-). cbn in Hk, Ht. unfold collect.
  rewrite (group_of_h e g [] ltac:(by rewrite Hk) ltac:(by rewrite Hk) Ht), Hk.
  by rewrite bool_decide_true.
Qed.

(** What the fold of a compacted state is: everything said again at the next
    [seq], the mutes in force written as silences, the rest forgotten. *)
Definition compacted (s : GroupState) (at_ : Timestamp) : GroupState :=
  mkState (gs_id s) (gs_seq s + 1) at_ (gs_name s) (gs_public s) (gs_newcomer_wait s) (gs_about s)
    ∅ (gs_owner s) (gs_owner s) (gs_channels s) (gs_overrides s) (gs_roles s) (gs_members s)
    ∅ ∅ (gs_bans s) (gs_mutes s)
    (map (fun '(p, u) => mkSilence p at_ (Some u) true)
       (List.filter (fun '(_, u) => at_ <? u) (map_entries pk_leb (gs_mutes s)))).

(** The four pieces loaded, before the assignments. *)
Definition pieces_loaded (s : GroupState) (at_ : Timestamp) : GroupState :=
  mkState (gs_id s) (gs_seq s + 1) at_ (gs_name s) (gs_public s) (gs_newcomer_wait s) (gs_about s)
    ∅ None None (gs_channels s) (gs_overrides s) (gs_roles s) (gset_to_gmap ∅ (dom (gs_members s)))
    ∅ ∅ (gs_bans s) (gs_mutes s) [].

Record four (s : GroupState) (at_ : Timestamp) (pieces : gmap Z Event) : Prop := {
  fo_meta : exists e, pieces !! GROUP_METADATA = Some e /\ ev_created_at e = at_ /\
    parse_state e = Some (gs_id s, gs_seq s + 1, PMetadata (gs_name s) (gs_public s)
      (gs_newcomer_wait s) (gs_about s) (gs_channels s) (gs_overrides s));
  fo_admins : exists e, pieces !! GROUP_ADMINS = Some e /\ ev_created_at e = at_ /\
    parse_state e = Some (gs_id s, gs_seq s + 1,
      PAdmins (gs_owner s) (filter (fun '(_, rs) => rs <> ∅) (gs_members s)));
  fo_members : exists e, pieces !! GROUP_MEMBERS = Some e /\ ev_created_at e = at_ /\
    parse_state e = Some (gs_id s, gs_seq s + 1,
      PMembers (dom (gs_members s)) (gs_bans s) (gs_mutes s));
  fo_roles : exists e, pieces !! GROUP_ROLES = Some e /\ ev_created_at e = at_ /\
    parse_state e = Some (gs_id s, gs_seq s + 1,
      PRoles (map snd (map_entries String.leb (gs_roles s))));
}.

Lemma load_kind_some pieces s asg named kind e g seq piece :
  pieces !! kind = Some e -> parse_state e = Some (g, seq, piece) ->
  load_kind pieces (s, asg, named) kind =
  Some (load_piece (with_seq s (Z.max (gs_seq s) seq) (Z.max (gs_cutoff s) (ev_created_at e)))
          asg named piece).
Proof. unfold load_kind. intros -> ->. done. Qed.

Lemma load_four s at_ pieces :
  wf s -> 0 <= gs_seq s -> 0 <= at_ -> four s at_ pieces ->
  fold_opt (load_kind pieces) (empty_state (gs_id s), ∅, None) STATE_KINDS =
  Some (pieces_loaded s at_, filter (fun '(_, rs) => rs <> ∅) (gs_members s), gs_owner s).
Proof.
  intros Hw Hseq Hat [(e1 & L1 & T1 & P1) (e2 & L2 & T2 & P2) (e3 & L3 & T3 & P3) (e4 & L4 & T4 & P4)].
  unfold STATE_KINDS, fold_opt.
  rewrite (load_kind_some _ _ _ _ _ _ _ _ _ L1 P1). unfold load_piece at 1.
  rewrite (load_kind_some _ _ _ _ _ _ _ _ _ L2 P2). unfold load_piece at 1.
  rewrite (load_kind_some _ _ _ _ _ _ _ _ _ L3 P3). unfold load_piece at 1.
  rewrite (load_kind_some _ _ _ _ _ _ _ _ _ L4 P4). unfold load_piece at 1.
  rewrite T1, T2, T3, T4. unfold pieces_loaded.
  f_equal. f_equal. f_equal. pose proof (load_roles_back (gs_roles s) (wf_roles s Hw)) as Hl.
  clear - Hseq Hat Hl.
  destruct s as [i q c n pu w ab j ow no ch ov ro me iv ap ba mu si]. cbn [gs_seq gs_roles] in Hseq, Hl.
  cbv beta iota delta [empty_state with_seq set_roles set_mutes set_bans set_members set_overrides
    set_channels set_about set_newcomer_wait set_public set_name gs_id gs_seq gs_cutoff gs_name
    gs_public gs_newcomer_wait gs_about gs_joined gs_owner gs_named_owner gs_channels gs_overrides
    gs_roles gs_members gs_invites gs_applied gs_bans gs_mutes gs_silences].
  f_equal; [lia|lia|exact Hl].
Qed.

Lemma load_compacted s at_ o c :
  wf s -> 0 <= gs_seq s -> 0 <= at_ -> gs_owner s = Some o ->
  four s at_ (c_pieces c) -> c_creators c = {[o]} ->
  load_snapshot (gs_id s) c = Some (compacted s at_).
Proof.
  intros Hw Hseq Hat Ho H4 Hcr. unfold load_snapshot. rewrite (load_four s at_) by done.
  destruct (rw_default _ (wf_roles s Hw)) as [d Hd].
  assert (set_roles (match gs_roles (pieces_loaded s at_) !! DEFAULT_ROLE with
                     | Some _ => gs_roles (pieces_loaded s at_)
                     | None => <[DEFAULT_ROLE := default_role]> (gs_roles (pieces_loaded s at_))
                     end) (pieces_loaded s at_) = pieces_loaded s at_) as ->.
  { unfold pieces_loaded at 1. cbn [gs_roles]. by rewrite Hd. }
  rewrite assign_back with (members := gs_members s);
    [|done|intros p held Hp r Hr; by apply (wf_held s Hw p held)].
  rewrite Ho, Hcr, bool_decide_true by set_solver. f_equal.
  assert (<[o := ∅]> (gs_members s) = gs_members s) as Hm by by apply insert_id, wf_owner.
  clear - Ho Hm. destruct s as [i q ct n pu w ab j ow no ch ov ro me iv ap ba mu si].
  cbn [gs_owner gs_members] in Ho, Hm.
  cbv beta iota delta [compacted pieces_loaded with_named set_owner set_silences set_members gs_id
    gs_seq gs_cutoff gs_name gs_public gs_newcomer_wait gs_about gs_joined gs_owner gs_named_owner
    gs_channels gs_overrides gs_roles gs_members gs_invites gs_applied gs_bans gs_mutes gs_silences].
  by rewrite Hm, Ho.
Qed.

(** C25. Compaction loses nothing it should keep: a group key that signs the
    state of its group as a snapshot gives, to a peer holding those four events
    and the owner's creation event, that very state: the same name, visibility,
    wait, about, channels, overrides, roles, members, owner, bans and mutes, at
    the next [seq], with the mutes still in force silencing from there on. *)
Theorem compaction_round_trip s key at_ o meta admins members roles created :
  wf s -> keys_public_key key = gs_id s -> 0 <= gs_seq s < U64_MAX -> 0 <= at_ ->
  gs_owner s = Some o -> gs_members s !! gs_id s = None ->
  Snapshot_sign (to_snapshot s) key at_ = Some (meta, admins, members, roles) ->
  carries (create_group (gs_id s)) o created ->
  fold (gs_id s) [meta; admins; members; roles; created] = Some (compacted s at_).
Proof.
  intros Hw Hkey Hseq Hat Ho Hg Hsign Hcr.
  assert (Hog : gs_owner s <> Some (gs_id s)).
  { intros H. apply (wf_owner s Hw) in H. congruence. }
  destruct (sign_carries (to_snapshot s) _ _ _ _ _ _ ltac:(rewrite Hkey; exact Hg) ltac:(rewrite Hkey; exact Hog) Hsign)
    as (Cm & Ca & Cme & Cr). rewrite Hkey in Cm, Ca, Cme, Cr.
  pose proof (to_snapshot_wf s Hw Hseq) as Hsw.
  pose proof (meta_parses _ _ _ _ Hsw Cm) as Pm. pose proof (admins_parses _ _ _ _ Hsw Ca) as Pa.
  pose proof (members_parses _ _ _ _ Hsw Cme) as Pme. pose proof (roles_parses _ _ _ _ Hsw Cr) as Pr.
  destruct (builders_at (to_snapshot s) (gs_id s) at_) as (Bm & Ba & Bme & Br).
  destruct (builders_kind (to_snapshot s) (gs_id s) at_) as (Km & Ka & Kme & Kr).
  destruct Cm as (Km' & _ & _ & Tm & _), Ca as (Ka' & _ & _ & Ta & _),
    Cme as (Kme' & _ & _ & Tme & _), Cr as (Kr' & _ & _ & Tr & _).
  rewrite Km in Km'. rewrite Ka in Ka'. rewrite Kme in Kme'. rewrite Kr in Kr'.
  unfold fold, collect_all. cbn [foldl].
  erewrite (collect_piece _ _ meta); [|by rewrite Km'|exact Pm|done].
  erewrite (collect_piece _ _ admins);
    [|by rewrite Ka'|exact Pa|cbn [c_pieces]; rewrite Km', Ka'; by simplify_map_eq].
  erewrite (collect_piece _ _ members);
    [|by rewrite Kme'|exact Pme|cbn [c_pieces]; rewrite Km', Ka', Kme'; by simplify_map_eq].
  erewrite (collect_piece _ _ roles);
    [|by rewrite Kr'|exact Pr|cbn [c_pieces]; rewrite Km', Ka', Kme', Kr'; by simplify_map_eq].
  rewrite (collect_created _ _ _ _ Hcr). cbn [c_pieces c_creators c_actions].
  rewrite (load_compacted s at_ o); [done|done|lia|done|done| |].
  - cbn [c_pieces]. rewrite Km', Ka', Kme', Kr'. split; eexists; (split; [by simplify_map_eq|auto]).
  - cbn [c_creators]. set_solver.
Qed.
End Compaction.
