(* ===== verification/Binding.v ===== *)
(** Device bindings ([crates/hit-event/src/binding.rs]): "npub P speaks from
    device D", signed by both, and the book every peer keeps of them.  The
    device keys are [iroh]'s: a class of what the program asks of them. *)
From S2P Require Import Prelude Text Nostr Replace.

#[local] Open Scope Z_scope.

(** ** Device keys ([iroh_base]) and hex *)
Class DeviceTypes := {
  EndpointId : Type;
  DeviceKey : Type;
  #[global] ep_eq_dec :: EqDecision EndpointId;
  #[global] ep_countable :: Countable EndpointId;
  (** [Display] and [FromStr]. *)
  ep_to_string : EndpointId -> string;
  ep_parse : string -> option EndpointId;
  device_public : DeviceKey -> EndpointId;
  (** Bytes are strings of them. *)
  device_sign : DeviceKey -> string -> string;
  ep_verify : EndpointId -> string -> string -> bool;
  hex_encode : string -> string;
  hex_decode : string -> option string;
}.
Class DeviceOps {N : NostrTypes} := {
  pk_to_bytes : PublicKey -> string;
  (** [Tag::expiration]. *)
  tag_expiration : Timestamp -> Tag;
}.
Class DeviceLaws {N : NostrTypes} {O : NostrOps} {T : DeviceTypes} {P : DeviceOps} : Prop := {
  ep_round_trip d : ep_parse (ep_to_string d) = Some d;
  device_verifies k m : ep_verify (device_public k) m (device_sign k m) = true;
  device_sign_length k m : str_len (device_sign k m) = 64;
  hex_round_trip b : hex_decode (hex_encode b) = Some b;
  (** What the crate reads of the tags a binding is signed with. *)
  identifier_of_binding d t rest :
    tags_identifier (tag_identifier d :: tag_expiration t :: rest) = Some d;
  expiration_of_binding d t rest : is_u64 t ->
    tags_expiration (tag_identifier d :: tag_expiration t :: rest) = Some t;
  tag_expiration_kind t : tag_kind (tag_expiration t) = "expiration"%string;
  tag_identifier_kind d : tag_kind (tag_identifier d) = "d"%string;
  tag_custom_kind n vs : tag_kind (tag_custom n vs) = n;
  tag_custom_content n v vs : tag_content (tag_custom n (v :: vs)) = Some v;
}.

Definition DEFAULT_TTL : Z := 7 * 24 * 60 * 60.
Definition MAX_TTL : Z := 30 * 24 * 60 * 60.
Definition BINDING_CLOCK_SKEW : Z := 10 * 60.
Definition PROOF_DOMAIN : string := "hit-enter/device-binding/1:".
Definition PROOF_TAG : string := "proof".
Definition REVOKED_TAG : string := "revoked".
Definition ALT : string := "HIT_ENTER device binding".

Inductive BindingError :=
| WrongKind | BadSignature | MissingDevice | NotCanonicalDevice | WrongDevice | MissingProof
| BadProof | MissingExpiry | Expired | TtlTooLong | BindingFromTheFuture | BindingRevoked
| Superseded.
#[export] Instance binding_error_eq_dec : EqDecision BindingError.
Proof. solve_decision. Defined.

Section Binding.
Context {N : NostrTypes} {O : NostrOps} {T : DeviceTypes} {P : DeviceOps}.

Definition proof_message (person : PublicKey) : string := PROOF_DOMAIN +:+ pk_to_bytes person.

(** ** Signing *)
Definition binding_builder (person : PublicKey) (device : DeviceKey) (now : Timestamp) (ttl : Z)
    : EventBuilder :=
  let proof := device_sign device (proof_message person) in
  mkBuilder DEVICE_BINDING ""
    [tag_identifier (ep_to_string (device_public device)); tag_expiration (ts_add now ttl);
     tag_custom PROOF_TAG [hex_encode proof]; tag_custom "alt" [ALT]] (Some now).
Definition sign_binding (person : Keys) (device : DeviceKey) (now : Timestamp) (ttl : Z)
    : option Event :=
  finalize person (binding_builder (keys_public_key person) device now ttl).

Definition revocation_builder (device : EndpointId) (now : Timestamp) : EventBuilder :=
  mkBuilder DEVICE_BINDING ""
    [tag_identifier (ep_to_string device); tag_custom REVOKED_TAG []; tag_custom "alt" [ALT]]
    (Some now).
Definition sign_revocation (person : Keys) (device : EndpointId) (now : Timestamp) : option Event :=
  finalize person (revocation_builder device now).

Definition needs_renewal (binding : Event) (now : Timestamp) : bool :=
  match tags_expiration (ev_tags binding), is_revoked binding with
  | Some exp, false =>
      let left := sat_sub exp now in
      let lifetime := sat_sub exp (ev_created_at binding) in
      left <? lifetime / 2
  | _, _ => false
  end.

Definition expired (e : Event) (now : Timestamp) : bool :=
  is_none_or (tags_expiration (ev_tags e)) (fun exp => exp <=? now).

(** ** Checking *)
Record Parsed := mkParsed { p_device_hex : string; p_revoked : bool }.

Definition proof_of (e : Event) : option string :=
  let! t := List.find (fun t => bool_decide (tag_kind t = PROOF_TAG)) (ev_tags e) in tag_content t.
(** [hex::decode(..)] to an array of 64 bytes. *)
Definition proof_bytes (hex : string) : option string :=
  let! b := hex_decode hex in if str_len b =? 64 then Some b else None.

Definition Parsed_check (e : Event) (now : Timestamp) : result BindingError Parsed :=
  guard ev_kind e =? DEVICE_BINDING else WrongKind in
  guard ev_verify e else BadSignature in
  guard ev_created_at e <=? ts_add now BINDING_CLOCK_SKEW else BindingFromTheFuture in
  let? device_hex := ok_or (tags_identifier (ev_tags e)) MissingDevice in
  let? device := ok_or (ep_parse device_hex) NotCanonicalDevice in
  guard bool_decide (ep_to_string device = device_hex) else NotCanonicalDevice in
  if is_revoked e then Ok (mkParsed device_hex true)
  else
    let? exp := ok_or (tags_expiration (ev_tags e)) MissingExpiry in
    guard now <? exp else Expired in
    guard sat_sub exp (ev_created_at e) <=? MAX_TTL else TtlTooLong in
    let? proof_hex := ok_or (proof_of e) MissingProof in
    let? bytes := ok_or (proof_bytes proof_hex) BadProof in
    guard ep_verify device (proof_message (ev_pubkey e)) bytes else BadProof in
    Ok (mkParsed device_hex false).

Definition verify_binding_at (e : Event) (conn : EndpointId) (now : Timestamp)
    : result BindingError PublicKey :=
  let? parsed := Parsed_check e now in
  guard bool_decide (p_device_hex parsed = ep_to_string conn) else WrongDevice in
  guard negb (p_revoked parsed) else BindingRevoked in
  Ok (ev_pubkey e).

(** ** The book *)
Inductive Inserted := Stored | InsertedStale.

(** [newest]: a [HashMap], whose order of iteration nothing depends on. *)
Abbreviation BindingBook := (gmap (PublicKey * string) Event) (only parsing).

Definition insert_binding (book : BindingBook) (e : Event) (now : Timestamp)
    : result BindingError (BindingBook * Inserted) :=
  let? parsed := Parsed_check e now in
  let key := (ev_pubkey e, p_device_hex parsed) in
  match book !! key with
  | Some current =>
      if negb (replaces e current) then Ok (book, InsertedStale)
      else Ok (<[key := e]> book, Stored)
  | None => Ok (<[key := e]> book, Stored)
  end.

(** The book may have changed when this refuses. *)
Definition authenticate (book : BindingBook) (presented : Event) (conn : EndpointId)
    (now : Timestamp) : BindingBook * result BindingError PublicKey :=
  match verify_binding_at presented conn now with
  | Err e => (book, Err e)
  | Ok person =>
      match insert_binding book presented now with
      | Err e => (book, Err e)
      | Ok (book, _) =>
          match book !! (person, ep_to_string conn) with
          | None => (book, Err Superseded)
          | Some newest =>
              if is_revoked newest then (book, Err BindingRevoked)
              else (book, verify_binding_at newest conn now)
          end
      end
  end.

Definition devices_of (book : BindingBook) (person : PublicKey) (now : Timestamp)
    : list EndpointId :=
  filter_map (fun '((_, d), _) => ep_parse d)
    (List.filter (fun '(_, e) => negb (is_revoked e) && negb (expired e now))
      (List.filter (fun '((p, _), _) => bool_decide (p = person)) (map_to_list book))).
Definition persons_of (book : BindingBook) (device : EndpointId) (now : Timestamp)
    : list PublicKey :=
  map (fun '((p, _), _) => p)
    (List.filter (fun '((_, dev), e) => bool_decide (dev = ep_to_string device)
                    && negb (is_revoked e) && negb (expired e now)) (map_to_list book)).

(** ** What a check establishes *)
Record checked (e : Event) (now : Timestamp) (p : Parsed) : Prop := {
  ck_kind : ev_kind e = DEVICE_BINDING;
  ck_sig : ev_verify e = true;
  ck_time : ev_created_at e <= ts_add now BINDING_CLOCK_SKEW;
  ck_device : tags_identifier (ev_tags e) = Some (p_device_hex p);
  ck_revoked : p_revoked p = is_revoked e;
  ck_canonical : exists d, ep_parse (p_device_hex p) = Some d /\ ep_to_string d = p_device_hex p;
  ck_binding : is_revoked e = false -> expired e now = false /\
    (forall exp, tags_expiration (ev_tags e) = Some exp -> exp - ev_created_at e <= MAX_TTL) /\
    exists d hex sig, ep_parse (p_device_hex p) = Some d /\ proof_of e = Some hex /\
      proof_bytes hex = Some sig /\ ep_verify d (proof_message (ev_pubkey e)) sig = true;
}.
Lemma Parsed_check_ok e now p : Parsed_check e now = Ok p -> checked e now p.
Proof.
  unfold Parsed_check. intros H.
  destruct (ev_kind e =? DEVICE_BINDING) eqn:Ek; [|done]. destruct (ev_verify e) eqn:Ev; [|done].
  destruct (ev_created_at e <=? _) eqn:Et; [|done].
  destruct (tags_identifier (ev_tags e)) as [hex|] eqn:Ed; cbn [ok_or] in H; [|done].
  destruct (ep_parse hex) as [d|] eqn:Ep; cbn [ok_or] in H; [|done].
  case_bool_decide as Ec; [|done]. bools. destruct (is_revoked e) eqn:Er.
  - injection H as <-. split; cbn; eauto; congruence.
  - destruct (tags_expiration (ev_tags e)) as [exp|] eqn:Ex; cbn [ok_or] in H; [|done].
    destruct (now <? exp) eqn:Ee; [|done]. destruct (_ <=? MAX_TTL) eqn:El; [|done].
    destruct (proof_of e) as [ph|] eqn:Eph; cbn [ok_or] in H; [|done].
    destruct (proof_bytes ph) as [sig|] eqn:Es; cbn [ok_or] in H; [|done].
    destruct (ep_verify _ _ _) eqn:Evp; [|done]. injection H as <-. bools.
    split; cbn; eauto. intros _. split.
    + unfold expired. rewrite Ex. cbn. by apply Z.leb_gt.
    + split; [|eauto 10]. intros x Hx. rewrite Ex in Hx. injection Hx as <-. unfold sat_sub in *. lia.
Qed.
Lemma verify_binding_ok e conn now person : verify_binding_at e conn now = Ok person ->
  person = ev_pubkey e /\ is_revoked e = false /\
  tags_identifier (ev_tags e) = Some (ep_to_string conn) /\
  checked e now (mkParsed (ep_to_string conn) false).
Proof.
  unfold verify_binding_at. destruct (Parsed_check e now) as [p|] eqn:Ep; [|done].
  apply Parsed_check_ok in Ep as Hc. case_bool_decide as Hd; [|done].
  destruct (p_revoked p) eqn:Er; [done|]. intros [= <-].
  rewrite (ck_revoked _ _ _ Hc) in Er. split; [done|]. split; [done|].
  split; [by rewrite (ck_device _ _ _ Hc), Hd|].
  destruct Hc as [? ? ? Hdev Hr Hcan Hb]. rewrite Hd in *. split; try done.
Qed.

(** ** The book *)

(** Each entry is under its person and its device. *)
Definition book_wf (book : BindingBook) : Prop :=
  map_Forall (fun k e => ev_pubkey e = k.1 /\ tags_identifier (ev_tags e) = Some k.2
    /\ ev_kind e = DEVICE_BINDING) book.

Lemma insert_binding_ok book e now book' r :
  insert_binding book e now = Ok (book', r) ->
  exists p, Parsed_check e now = Ok p /\
    book' = partial_alter (fun c => keep_best replaces c e) (ev_pubkey e, p_device_hex p) book.
Proof.
  unfold insert_binding. destruct (Parsed_check e now) as [p|]; [|done]. intros H. exists p.
  split; [done|]. apply map_eq. intros k.
  destruct (decide ((ev_pubkey e, p_device_hex p) = k)) as [<-|Hk].
  - rewrite lookup_partial_alter_eq. destruct (book !! _) as [c|] eqn:E; cbn in *.
    + destruct (replaces e c); cbn in H; injection H as <- _; [by rewrite lookup_insert_eq|done].
    + injection H as <- _. by rewrite lookup_insert_eq.
  - rewrite lookup_partial_alter_ne by done.
    destruct (book !! (ev_pubkey e, p_device_hex p)) as [c|]; [destruct (replaces e c)|]; cbn in H;
      injection H as <- _; by rewrite ?lookup_insert_ne.
Qed.
Lemma insert_binding_wf book e now book' r :
  book_wf book -> insert_binding book e now = Ok (book', r) -> book_wf book'.
Proof.
  intros Hw (p & Hp%Parsed_check_ok & ->)%insert_binding_ok k x.
  destruct (decide ((ev_pubkey e, p_device_hex p) = k)) as [<-|Hk].
  - rewrite lookup_partial_alter_eq. intros Hx. destruct (book !! _) as [c|] eqn:E; cbn in Hx.
    + destruct (replaces e c); injection Hx as <-; [|by apply (Hw _ _ E)].
      destruct Hp. done.
    + injection Hx as <-. by destruct Hp.
  - rewrite lookup_partial_alter_ne by done. apply Hw.
Qed.

(** One operation on a book, whatever it answers. *)
Inductive book_step (book : BindingBook) : BindingBook -> Prop :=
| bs_insert e now book' r : insert_binding book e now = Ok (book', r) -> book_step book book'
| bs_authenticate e conn now : book_step book (fst (authenticate book e conn now)).

Lemma authenticate_book book e conn now :
  fst (authenticate book e conn now) = book \/
  exists r, insert_binding book e now = Ok (fst (authenticate book e conn now), r).
Proof.
  unfold authenticate. destruct (verify_binding_at e conn now) as [p|]; [|by left].
  destruct (insert_binding book e now) as [[b r]|]; [|by left]. right. exists r.
  destruct (b !! _) as [n|]; [|done]. by destruct (is_revoked n).
Qed.
Lemma book_step_inv (Q : BindingBook -> Prop) book book' :
  (forall book e now book' r, Q book -> insert_binding book e now = Ok (book', r) -> Q book') ->
  Q book -> book_step book book' -> Q book'.
Proof.
  intros Hi HQ [e now b r H|e conn now]; [by eapply Hi|].
  destruct (authenticate_book book e conn now) as [->|[r H]]; [done|by eapply Hi].
Qed.

(** What authenticating answers about the book it leaves. *)
Lemma authenticate_ok book e conn now book' person :
  book_wf book -> authenticate book e conn now = (book', Ok person) ->
  person = ev_pubkey e /\ checked e now (mkParsed (ep_to_string conn) false) /\
  exists n, book' !! (person, ep_to_string conn) = Some n /\ is_revoked n = false /\
    ev_pubkey n = person /\ checked n now (mkParsed (ep_to_string conn) false).
Proof.
  intros Hw H. assert (Hw' : book_wf book').
  { destruct (authenticate_book book e conn now) as [E|[r E]]; rewrite H in E; cbn in E.
    - by subst.
    - by eapply insert_binding_wf. }
  unfold authenticate in H. destruct (verify_binding_at e conn now) as [p|] eqn:Ev; [|done].
  apply verify_binding_ok in Ev as (-> & Hr & Hid & Hc).
  destruct (insert_binding book e now) as [[b r]|] eqn:Ei; [|done].
  destruct (b !! (ev_pubkey e, ep_to_string conn)) as [n|] eqn:En; [|done].
  destruct (is_revoked n) eqn:Ern; [done|]. injection H as -> Hn.
  apply verify_binding_ok in Hn as (-> & _ & _ & Hcn).
  destruct (Hw' _ _ En) as (Hp & _). cbn in Hp.
  split; [done|]. split; [done|]. exists n. by rewrite Hp.
Qed.

(** C26. Authentication is sound: a connection is taken for a person only if
    the peer presented an event that person signed for the very device the
    connection is with, carrying that device's own proof, unexpired and asking
    for no more than the longest lifetime; and the newest thing the book knows
    of the pair is such a binding too, not a revocation. *)
Theorem authenticate_sound book e conn now book' person :
  book_wf book -> authenticate book e conn now = (book', Ok person) ->
  ep_parse (ep_to_string conn) = Some conn ->
  ev_pubkey e = person /\ ev_verify e = true /\
  tags_identifier (ev_tags e) = Some (ep_to_string conn) /\
  (exists n hex sig, book' !! (person, ep_to_string conn) = Some n /\
     ev_pubkey n = person /\ ev_verify n = true /\ is_revoked n = false /\
     expired n now = false /\
     (forall exp, tags_expiration (ev_tags n) = Some exp -> exp - ev_created_at n <= MAX_TTL) /\
     proof_of n = Some hex /\ proof_bytes hex = Some sig /\
     ep_verify conn (proof_message person) sig = true).
Proof.
  intros Hw H Hconn. apply authenticate_ok in H as (-> & Hc & n & Hn & Hr & Hp & Hcn); [|done].
  split; [done|]. split; [apply Hc|]. split; [apply (ck_device _ _ _ Hc)|].
  destruct (ck_binding _ _ _ Hcn Hr) as (Hexp & Hlife & d & hex & sig & Hd & Hhex & Hsig & Hv).
  cbn in Hd. rewrite Hconn in Hd. injection Hd as <-. rewrite Hp in Hv.
  exists n, hex, sig. split_and!; try done. apply Hcn.
Qed.

Context {L : NostrLaws}.

(** The newest event of a slot only gives way to one that replaces it. *)
Definition at_least (k : PublicKey * string) (r : Event) (book : BindingBook) : Prop :=
  book_wf book /\ ev_kind r = DEVICE_BINDING /\
  exists n, book !! k = Some n /\ (n = r \/ replaces n r = true).

Lemma insert_at_least k r book e now book' i :
  at_least k r book -> insert_binding book e now = Ok (book', i) -> at_least k r book'.
Proof.
  intros (Hw & Hkr & n & Hn & Hr) H. split; [by eapply insert_binding_wf|]. split; [done|].
  apply insert_binding_ok in H as (p & Hp%Parsed_check_ok & ->).
  destruct (decide ((ev_pubkey e, p_device_hex p) = k)) as [<-|Hk].
  - rewrite lookup_partial_alter_eq, Hn. cbn. destruct (replaces e n) eqn:E; [|by eauto].
    exists e. split; [done|right]. destruct Hr as [->|Hr]; [done|].
    destruct (Hw _ _ Hn) as (_ & _ & Hkn). pose proof (ck_kind _ _ _ Hp) as Hke.
    apply (replaces_trans e n r); congruence.
  - rewrite lookup_partial_alter_ne by done. eauto.
Qed.

Lemma run_at_least k r book book' :
  at_least k r book -> rtc book_step book book' -> at_least k r book'.
Proof.
  intros H0 Hrun. induction Hrun as [|b0 b1 b2 Hstep _ IH]; [done|]. apply IH.
  eapply (book_step_inv (at_least k r)); [|exact H0|exact Hstep].
  intros. by eapply insert_at_least.
Qed.
(** What takes the place of a revocation without being one is later. *)
Lemma replaces_revocation n r :
  ev_kind n = DEVICE_BINDING -> ev_kind r = DEVICE_BINDING ->
  is_revoked r = true -> is_revoked n = false -> replaces n r = true ->
  ev_created_at r < ev_created_at n.
Proof.
  intros Hn Hr Hrr Hnr. unfold replaces, replaces_by_time. rewrite Hn, Hr, Hrr, Hnr. cbn.
  destruct (negb _); [|done]. intros. by bools.
Qed.

(** A revocation is final: once a book holds one for a person's device,
    then whatever is inserted or authenticated after, the pair authenticates
    again only once the person has signed a binding dated strictly later than
    the revocation; one of the same second does not do. *)
Theorem revoked_until_renewed book r book1 e conn now book2 person :
  book_wf book -> book !! (person, ep_to_string conn) = Some r -> is_revoked r = true ->
  rtc book_step book book1 -> authenticate book1 e conn now = (book2, Ok person) ->
  exists n, book2 !! (person, ep_to_string conn) = Some n /\ is_revoked n = false /\
    ev_pubkey n = person /\ ev_verify n = true /\ ev_created_at r < ev_created_at n.
Proof.
  intros Hw Hr Hrev Hrun Hauth.
  assert (H1 : at_least (person, ep_to_string conn) r book1).
  { apply (run_at_least _ _ book); [|done]. split; [done|]. split; [by apply (Hw _ _ Hr)|eauto]. }
  assert (H2 : at_least (person, ep_to_string conn) r book2).
  { apply (run_at_least _ _ book1); [done|]. apply rtc_once.
    pose proof (bs_authenticate book1 e conn now) as Hs. by rewrite Hauth in Hs. }
  apply authenticate_ok in Hauth as (-> & _ & n & Hn & Hnr & Hp & Hcn); [|apply H1].
  destruct H2 as (_ & Hkr & n' & Hn' & Hcase). rewrite Hn in Hn'. injection Hn' as <-.
  exists n. split; [done|]. split; [done|]. split; [done|]. split; [apply Hcn|].
  destruct Hcase as [->|Hrep]; [congruence|].
  apply replaces_revocation; try done. apply Hcn.
Qed.

(** Inserting one event after another. *)
Definition insert_all (now : Timestamp) (book : BindingBook) (l : list Event) : BindingBook :=
  foldl (fun b e => match insert_binding b e now with Ok (b', _) => b' | Err _ => b end) book l.

(** The events of a list that check, and their slot. *)
Definition in_slot (now : Timestamp) (k : PublicKey * string) (e : Event) : bool :=
  match Parsed_check e now with
  | Ok p => bool_decide ((ev_pubkey e, p_device_hex p) = k)
  | Err _ => false
  end.
Lemma insert_all_lookup now book l k :
  insert_all now book l !! k =
  foldl (keep_best replaces) (book !! k) (List.filter (in_slot now k) l).
Proof.
  revert book. induction l as [|e l IH]; intros book; [done|]. cbn [insert_all foldl List.filter].
  fold (insert_all now). unfold insert_all in IH. rewrite IH. unfold in_slot.
  destruct (Parsed_check e now) as [p|] eqn:Ep.
  - destruct (insert_binding book e now) as [[b r]|] eqn:Ei.
    + apply insert_binding_ok in Ei as (p' & Hp' & ->). rewrite Ep in Hp'. injection Hp' as <-.
      case_bool_decide as Hk.
      * cbn [foldl]. rewrite <- Hk, lookup_partial_alter_eq. done.
      * by rewrite lookup_partial_alter_ne.
    + exfalso. unfold insert_binding in Ei. rewrite Ep in Ei.
      destruct (book !! _) as [c|]; [by destruct (negb _)|done].
  - unfold insert_binding. by rewrite Ep.
Qed.

(** The book does not depend on the order things arrive in: two peers
    that insert the same bindings and revocations, in whatever order, hold the
    same newest event for every person and device. *)
Theorem book_converges now l1 l2 :
  ids_identify l1 -> l1 ≡ₚ l2 -> insert_all now ∅ l1 = insert_all now ∅ l2.
Proof.
  intros Hid Hp. apply map_eq. intros k. rewrite !insert_all_lookup, lookup_empty.
  change (best replaces (List.filter (in_slot now k) l1) = best replaces (List.filter (in_slot now k) l2)).
  apply best_perm; [|by apply filter_perm].
  apply (replaces_strict_total _ DEVICE_BINDING).
  - intros a b [Ha _]%filter_elem [Hb _]%filter_elem. by apply Hid.
  - intros e [_ He]%filter_elem. unfold in_slot in He.
    destruct (Parsed_check e now) as [p|] eqn:Ep; [|done]. by apply Parsed_check_ok in Ep as [].
Qed.

(** ** Signing and checking *)
Context {DL : DeviceLaws}.

Lemma ep_to_string_inj d1 d2 : ep_to_string d1 = ep_to_string d2 -> d1 = d2.
Proof. intros H. apply (f_equal ep_parse) in H. rewrite !ep_round_trip in H. by injection H. Qed.

Lemma binding_tags_read e person device now ttl : is_u64 (ts_add now ttl) ->
  carries (binding_builder (keys_public_key person) device now ttl) (keys_public_key person) e ->
  tags_identifier (ev_tags e) = Some (ep_to_string (device_public device)) /\
  tags_expiration (ev_tags e) = Some (ts_add now ttl) /\ is_revoked e = false /\
  proof_of e = Some (hex_encode (device_sign device (proof_message (keys_public_key person)))).
Proof.
  intros Hu (_ & _ & Ht & _ & _). cbn in Ht. unfold is_revoked, proof_of. rewrite Ht. split_and!.
  - apply identifier_of_binding.
  - by apply expiration_of_binding.
  - cbn. rewrite tag_identifier_kind, tag_expiration_kind, !tag_custom_kind. done.
  - cbn. rewrite tag_identifier_kind, tag_expiration_kind, !tag_custom_kind. cbn.
    apply tag_custom_content.
Qed.

(** A binding signed for a device lets that device's connections in, and
    no other device's, for as long as it lasts: from its date, or the allowed
    clock skew before, up to its expiry. *)
Theorem sign_then_verify person device t ttl e now conn :
  sign_binding person device t ttl = Some e ->
  0 <= t -> 0 <= ttl <= MAX_TTL -> t + ttl <= U64_MAX -> 0 <= now -> now + BINDING_CLOCK_SKEW <= U64_MAX ->
  t <= now + BINDING_CLOCK_SKEW ->
  (forall tg, tg ∈ b_tags (binding_builder (keys_public_key person) device t ttl) ->
     tg !! 0%nat = Some "p"%string -> tg !! 1%nat <> Some (pk_to_hex (keys_public_key person))) ->
  verify_binding_at e conn now =
  if now <? t + ttl then
    if bool_decide (conn = device_public device) then Ok (keys_public_key person) else Err WrongDevice
  else Err Expired.
Proof.
  intros Hs Ht Httl Hmax Hnow Hnmax Hskew Hp. apply finalize_spec in Hs as [Hc Hv]; [|exact Hp].
  assert (Hu : is_u64 (ts_add t ttl)) by (rewrite ts_add_exact by lia; unfold is_u64; lia).
  pose proof (binding_tags_read _ _ _ _ _ Hu Hc) as (Hid & Hexp & Hrev & Hpr).
  destruct Hc as (Hk & _ & _ & Hat & Hpk). cbn in Hk, Hat. specialize (Hat t eq_refl).
  unfold verify_binding_at, Parsed_check. rewrite Hk, Hv, Hid, Hexp, Hrev, Hpr, Hat, Hpk.
  assert (Hpb : forall m, proof_bytes (hex_encode (device_sign device m)) = Some (device_sign device m))
    by (intros m; unfold proof_bytes; by rewrite hex_round_trip, device_sign_length).
  rewrite !ts_add_exact by (unfold BINDING_CLOCK_SKEW in *; lia).
  rewrite (proj2 (Z.leb_le t (now + BINDING_CLOCK_SKEW)) Hskew). cbn -[MAX_TTL].
  rewrite ep_round_trip. cbn -[MAX_TTL]. rewrite bool_decide_true by done.
  destruct (now <? t + ttl); [|done].
  rewrite (proj2 (Z.leb_le (sat_sub (t + ttl) t) MAX_TTL)) by (unfold sat_sub; lia).
  rewrite Hpb. cbn. rewrite device_verifies. cbn. case_bool_decide as E1; case_bool_decide as E2; try done.
  - by apply ep_to_string_inj in E1.
  - by rewrite E2 in E1.
Qed.
End Binding.

(** ** A concrete instance *)
Module SampleDevice.
#[local] Open Scope string_scope.

#[local] Existing Instance Sample.types.
#[local] Existing Instance Sample.ops.
(** A toy signature, 64 bytes that depend on the key and the message's length. *)
Definition sign (k m : string) : string :=
  String (match k with String c _ => c | EmptyString => zero end)
    (String (ascii_of_nat (String.length m))
      "00000000000000000000000000000000000000000000000000000000000000").

#[export] Instance types : DeviceTypes := {|
  EndpointId := string; DeviceKey := string;
  ep_to_string := Sample.hex; ep_parse := Sample.read_hex;
  device_public k := k; device_sign := sign;
  ep_verify d m s := bool_decide (s = sign d m);
  hex_encode := Sample.hex; hex_decode := Sample.read_hex;
|}.
#[export] Instance ops : DeviceOps := {|
  pk_to_bytes p := p; tag_expiration t := ["expiration"; show_u t];
|}.
#[export] Instance laws : DeviceLaws.
Proof.
  split; cbn [ep_parse ep_to_string ep_verify device_public device_sign hex_decode hex_encode types
              ops tag_expiration Sample.ops tags_identifier tags_expiration tag_identifier tag_kind
              tag_custom tag_content].
  - apply Sample.read_hex_inv.
  - intros k m. by apply bool_decide_eq_true.
  - done.
  - apply Sample.read_hex_inv.
  - done.
  - intros d t rest Ht. unfold Sample.expiration. cbn -[show_u parse_u bool_decide].
    rewrite !bool_decide_false by done. rewrite bool_decide_true by done.
    by rewrite parse_show_u.
  - done.
  - done.
  - done.
  - done.
Qed.
End SampleDevice.
