(* ===== verification/Dm.v ===== *)
(** Direct messages ([crates/hit-event/src/dm.rs]): the rumor a message is,
    the two wraps of it, what opens them, the encrypted file a message may
    carry, and the inbox lists that say which anchors keep a person's wraps.

    NIP-44, NIP-59, AES-GCM and SHA-256 are other crates': [DmCrypto] is what
    the program calls of them and [DmLaws] what it relies on. *)
From S2P Require Import Prelude Text Nostr GroupEvent Binding.

#[local] Open Scope Z_scope.

Definition DM : Kind := 14.
Definition DM_FILE : Kind := 15.
Definition FILE_CIPHER : string := "aes-gcm".
Definition GIFT_WRAP : Kind := 1059.
Definition INBOX_LIST : Kind := 10050.
Definition INBOX_KEEP_SECS : Z := 7 * 24 * 60 * 60.
Definition INBOX_CAP_BYTES : Z := 10 * 1000 * 1000.
Definition DEVICE_TAG : string := "device".
Definition MAX_DM_CHARS : Z := 4000.

(** An [UnsignedEvent]. *)
Record Rumor {N : NostrTypes} := mkRumor {
  ru_pubkey : PublicKey;
  ru_created_at : Timestamp;
  ru_kind : Kind;
  ru_tags : list Tag;
  ru_content : string;
}.

Class DmCrypto {N : NostrTypes} := {
  tag_public_key : PublicKey -> Tag;
  rumor_id : Rumor -> EventId;
  finalize_unsigned : EventBuilder -> PublicKey -> Rumor;
  (** [GiftWrapBuilder::new(to, rumor).finalize(keys)] and
      [UnwrappedGift::from_gift_wrap(keys, wrap)]. *)
  gift_wrap : Keys -> PublicKey -> Rumor -> option Event;
  gift_unwrap : Keys -> Event -> option (PublicKey * Rumor);
  (** AES-256-GCM by key and nonce, SHA-256, and the random bytes a seal draws. *)
  aes_encrypt : string -> string -> string -> option string;
  aes_decrypt : string -> string -> string -> option string;
  sha256 : string -> string;
}.

Section Dm.
Context {N : NostrTypes} {O : NostrOps} {T : DeviceTypes} {C : DmCrypto}.

Class DmLaws : Prop := {
  tag_public_key_spec p : tag_public_key p = ["p"%string; pk_to_hex p];
  public_keys_first p ts :
    (forall t, t ∈ ts -> t !! 0%nat <> Some "p"%string) ->
    forall pre, (forall t, t ∈ pre -> t !! 0%nat <> Some "p"%string) ->
    tags_public_keys (pre ++ ["p"%string; pk_to_hex p] :: ts) = [p];
  (** A rumor is what its builder was given, unless that names its author. *)
  finalize_unsigned_spec b p :
    (forall t, t ∈ b_tags b -> t !! 0%nat = Some "p"%string -> t !! 1%nat <> Some (pk_to_hex p)) ->
    ru_pubkey (finalize_unsigned b p) = p /\ ru_kind (finalize_unsigned b p) = b_kind b /\
    ru_tags (finalize_unsigned b p) = b_tags b /\ ru_content (finalize_unsigned b p) = b_content b;
  (** A wrap names its recipient and opens with their keys, to its sender. *)
  gift_wrap_spec k to r e : gift_wrap k to r = Some e ->
    ev_kind e = GIFT_WRAP /\ tags_public_keys (ev_tags e) = [to] /\
    forall k', gift_unwrap k' e =
      if bool_decide (keys_public_key k' = to) then Some (keys_public_key k, r) else None;
  aes_round_trip k n m c : aes_encrypt k n m = Some c -> aes_decrypt k n c = Some m;
}.

(** ** Files *)
Record DmFile := mkDmFile {
  f_hash : string; f_sha256 : string; f_original_sha256 : string; f_size : Z;
  f_mime : string; f_name : string; f_key : string; f_nonce : string }.

(** [seal_file] with the [key] and [nonce] it drew: the ciphertext, both in
    hex, and the two digests. *)
Definition seal_file (key nonce plain : string)
    : option (string * string * string * string * string) :=
  let! sealed := aes_encrypt key nonce plain in
  Some (sealed, hex_encode key, hex_encode nonce, hex_encode (sha256 plain),
        hex_encode (sha256 sealed)).

Definition open_file (file : DmFile) (sealed : string) : option string :=
  let! key := hex_decode (f_key file) in
  let! nonce := hex_decode (f_nonce file) in
  if negb (str_len key =? 32) || negb (str_len nonce =? 12) then None
  else
    let! plain := aes_decrypt key nonce sealed in
    if bool_decide (hex_encode (sha256 plain) = f_original_sha256 file) then Some plain else None.

(** [size.max(1)]: an empty file is an attachment too. *)
Definition as_attachment (f : DmFile) : Attachment :=
  mkAttachment (f_hash f) (f_sha256 f) (Z.max (f_size f) 1) (f_mime f) (f_name f).

(** The closure [tag]: the first row named [n] that has a value. *)
Definition rumor_tag (tags : list Tag) (n : string) : option string :=
  find_map (fun t => match t with
                     | k :: v :: _ => if bool_decide (k = n) then Some v else None
                     | _ => None
                     end) tags.

#[local] Open Scope string_scope.
Definition parse_file (r : Rumor) : option DmFile :=
  let tag := rumor_tag (ru_tags r) in
  let! cipher := tag "encryption-algorithm" in
  if negb (bool_decide (cipher = FILE_CIPHER)) then None
  else
    let! hash := strip_prefix BLOB_URL (ru_content r) in
    let! x := tag "x" in
    let! ox := tag "ox" in
    let! size := (let! s := tag "size" in parse_u64 s) in
    let! key := tag "decryption-key" in
    let! nonce := tag "decryption-nonce" in
    let f := mkDmFile hash x ox size (opt_get "application/octet-stream" (tag "file-type"))
               (opt_get "file" (tag "name")) key nonce in
    if Attachment_is_valid (as_attachment f) then Some f else None.

(** ** Messages *)
Record Dm := mkDm {
  dm_id : EventId; dm_from : PublicKey; dm_to : PublicKey; dm_text : string;
  dm_at : Timestamp; dm_file : option DmFile; dm_device : option Event }.

Definition with_device (b : EventBuilder) (device : option Event) : EventBuilder :=
  match device with
  | Some d => b_tag b (tag_custom DEVICE_TAG [ev_as_json d])
  | None => b
  end.

Definition wrap_rumor (me : Keys) (to : PublicKey) (r : Rumor) : option (Event * Event) :=
  let! theirs := gift_wrap me to r in
  let! mine := gift_wrap me (keys_public_key me) r in
  Some (theirs, mine).

Definition dm_builder (to : PublicKey) (text : string) (device : option Event) : EventBuilder :=
  b_tag (with_device (builder_new DM text) device) (tag_public_key to).
Definition wrap_dm (me : Keys) (to : PublicKey) (text : string) (device : option Event)
    : option (Event * Event) :=
  wrap_rumor me to (finalize_unsigned (dm_builder to text device) (keys_public_key me)).

Definition file_rows (f : DmFile) : list Tag :=
  [tag_custom "file-type" [f_mime f]; tag_custom "encryption-algorithm" [FILE_CIPHER];
   tag_custom "decryption-key" [f_key f]; tag_custom "decryption-nonce" [f_nonce f];
   tag_custom "x" [f_sha256 f]; tag_custom "ox" [f_original_sha256 f];
   tag_custom "size" [show_u (f_size f)]; tag_custom "name" [f_name f]].
Definition dm_file_builder (to : PublicKey) (f : DmFile) (device : option Event) : EventBuilder :=
  b_tags_add (b_tag (with_device (builder_new DM_FILE (BLOB_URL +:+ f_hash f)) device)
    (tag_public_key to)) (file_rows f).
Definition wrap_dm_file (me : Keys) (to : PublicKey) (f : DmFile) (device : option Event)
    : option (Event * Event) :=
  wrap_rumor me to (finalize_unsigned (dm_file_builder to f device) (keys_public_key me)).

Definition recipient_of (wrap : Event) : option PublicKey :=
  match tags_public_keys (ev_tags wrap) with [p] => Some p | _ => None end.

Definition rumor_device (r : Rumor) : option Event :=
  find_map (fun t => match t with
                     | k :: v :: _ => if bool_decide (k = DEVICE_TAG) then ev_from_json v else None
                     | _ => None
                     end) (ru_tags r).

Definition open_dm (me : Keys) (wrap : Event) : option Dm :=
  if negb (ev_kind wrap =? GIFT_WRAP)%Z
     || negb (bool_decide (recipient_of wrap = Some (keys_public_key me))) then None
  else
    let! opened := gift_unwrap me wrap in
    let '(sender, rumor) := opened in
    let! to := head (tags_public_keys (ru_tags rumor)) in
    let! file := (if (ru_kind rumor =? DM)%Z then Some None
                  else if (ru_kind rumor =? DM_FILE)%Z then
                    let! f := parse_file rumor in Some (Some f)
                  else None) in
    Some (mkDm (rumor_id rumor) sender to
            (if opt_bool file then "" else ru_content rumor)
            (ru_created_at rumor) file
            (let! d := rumor_device rumor in
             if bool_decide (ev_pubkey d = sender) then Some d else None)).

(** ** Inbox lists *)
Definition inbox_list (anchors : list (PublicKey * EndpointId)) : EventBuilder :=
  b_tags_add (builder_new INBOX_LIST "")
    (map (fun '(p, d) => tag_custom "anchor" [pk_to_hex p; ep_to_string d]) anchors).

Definition inboxes_of (l : Event) : list (PublicKey * option EndpointId) :=
  if negb (ev_kind l =? INBOX_LIST)%Z then []
  else filter_map (fun t => match t with
                            | n :: p :: rest =>
                                if bool_decide (n = "anchor") then
                                  let! p := pk_from_hex p in
                                  Some (p, let! d := head rest in ep_parse d)
                                else None
                            | _ => None
                            end) (ev_tags l).
#[local] Close Scope string_scope.

(** ** What a wrap opens to *)
Context {L : NostrLaws} {DL : DmLaws}.

(** No row of a message but the recipient's is a [p]. *)
Definition no_p (ts : list Tag) : Prop := forall t, t ∈ ts -> t !! 0%nat <> Some "p"%string.
Lemma no_p_custom n vs ts : n <> "p"%string -> no_p ts -> no_p (tag_custom n vs :: ts).
Proof.
  intros Hn Ht t Hin. apply elem_of_cons in Hin as [->|Hin]; [|by apply Ht].
  rewrite tag_custom_spec. cbn. congruence.
Qed.
Lemma no_p_nil : no_p [].
Proof. intros t Ht. by apply not_elem_of_nil in Ht. Qed.
Lemma with_device_tags b device :
  b_tags (with_device b device) =
  b_tags b ++ match device with Some d => [tag_custom DEVICE_TAG [ev_as_json d]] | None => [] end.
Proof. destruct device; cbn; [done|by rewrite app_nil_r]. Qed.
Lemma device_rows_no_p device :
  no_p (match device with Some d => [tag_custom DEVICE_TAG [ev_as_json d]] | None => [] end).
Proof. destruct device; [apply no_p_custom; [done|]|]; apply no_p_nil. Qed.
Lemma file_rows_no_p f : no_p (file_rows f).
Proof. unfold file_rows. repeat (apply no_p_custom; [done|]). apply no_p_nil. Qed.

(** The rows of both kinds of message: the device, the recipient, the file. *)
Definition message_rows (device : option Event) (to : PublicKey) (file : list Tag) : list Tag :=
  match device with Some d => [tag_custom DEVICE_TAG [ev_as_json d]] | None => [] end
  ++ ["p"%string; pk_to_hex to] :: file.
Lemma dm_builder_tags to text device : b_tags (dm_builder to text device) = message_rows device to [].
Proof. unfold dm_builder. cbn. by rewrite with_device_tags, tag_public_key_spec. Qed.
Lemma dm_file_builder_tags to f device :
  b_tags (dm_file_builder to f device) = message_rows device to (file_rows f).
Proof.
  unfold dm_file_builder. rewrite b_tags_add_tags. cbn [b_tag b_tags].
  rewrite with_device_tags, tag_public_key_spec. unfold message_rows. by rewrite <- app_assoc.
Qed.

Lemma message_rows_names device to file me t : no_p file -> to <> me ->
  t ∈ message_rows device to file -> t !! 0%nat = Some "p"%string -> t !! 1%nat <> Some (pk_to_hex me).
Proof.
  intros Hf Hto Ht Hp. unfold message_rows in Ht.
  apply elem_of_app in Ht as [Ht|Ht]; [by apply device_rows_no_p in Ht|].
  apply elem_of_cons in Ht as [->|Ht]; [|by apply Hf in Ht]. cbn. intros [= H]. apply Hto.
  apply (f_equal pk_from_hex) in H. rewrite !pk_hex in H. by injection H.
Qed.
Lemma message_rows_to device to file : no_p file ->
  tags_public_keys (message_rows device to file) = [to].
Proof. intros Hf. apply public_keys_first; [apply Hf|apply device_rows_no_p]. Qed.

(** The device a rumor carries. *)
Lemma message_rows_device device to file r :
  ru_tags r = message_rows device to file ->
  (forall t, t ∈ file -> t !! 0%nat <> Some DEVICE_TAG) ->
  (forall d, device = Some d -> ev_from_json (ev_as_json d) = Some d) ->
  rumor_device r = device.
Proof.
  intros Hr Hf Hj. unfold rumor_device. rewrite Hr. unfold message_rows.
  assert (Hrest : find_map (fun t : Tag => match t with
                     | k :: v :: _ => if bool_decide (k = DEVICE_TAG) then ev_from_json v else None
                     | _ => None end) (["p"%string; pk_to_hex to] :: file) = None).
  { cbn [find_map]. rewrite bool_decide_false by done.
    destruct (find_map _ file) as [d|] eqn:E; [|done]. apply find_map_some in E as (t & Ht & E).
    apply Hf in Ht. destruct t as [|k [|v t]]; try done. case_bool_decide; [|done]. by subst. }
  destruct device as [d|]; [|exact Hrest]. cbn [app find_map]. rewrite tag_custom_spec.
  rewrite bool_decide_true by done. by rewrite Hj.
Qed.

(** What opening a wrapped rumor gives, to whoever tries. *)
Lemma open_wrapped me to b theirs mine key (device : option Event) file :
  b_tags b = message_rows device to file -> no_p file -> to <> keys_public_key me ->
  (forall t, t ∈ file -> t !! 0%nat <> Some DEVICE_TAG) ->
  (forall d, device = Some d -> ev_from_json (ev_as_json d) = Some d) ->
  wrap_rumor me to (finalize_unsigned b (keys_public_key me)) = Some (theirs, mine) ->
  let r := finalize_unsigned b (keys_public_key me) in
  open_dm key theirs =
  if bool_decide (keys_public_key key = to) then
    let! file := (if b_kind b =? DM then Some None
                  else if b_kind b =? DM_FILE then let! f := parse_file r in Some (Some f)
                  else None) in
    Some (mkDm (rumor_id r) (keys_public_key me) to
            (if opt_bool file then ""%string else b_content b) (ru_created_at r) file
            (let! d := device in
             if bool_decide (ev_pubkey d = keys_public_key me) then Some d else None))
  else None.
Proof.
  intros Hb Hf Hto Hdf Hj Hw r. unfold wrap_rumor in Hw. fold r in Hw.
  destruct (gift_wrap me to r) as [e|] eqn:Eg; [|done].
  destruct (gift_wrap me (keys_public_key me) r) as [e'|]; [|done]. injection Hw as <- <-.
  destruct (gift_wrap_spec _ _ _ _ Eg) as (Hk & Hps & Hun).
  destruct (finalize_unsigned_spec b (keys_public_key me)) as (Hrp & Hrk & Hrt & Hrc).
  { intros t Ht. rewrite Hb in Ht. by eapply message_rows_names. }
  fold r in Hrp, Hrk, Hrt, Hrc. rewrite Hb in Hrt.
  unfold open_dm, recipient_of. rewrite Hk, Hps, Hun, Z.eqb_refl. cbn [negb orb].
  destruct (decide (keys_public_key key = to)) as [<-|Hne].
  - rewrite !bool_decide_true by done. cbn [negb].
    rewrite Hrt, message_rows_to by done. cbn [head].
    by rewrite (message_rows_device device _ file r Hrt Hdf Hj), Hrk, Hrc.
  - rewrite bool_decide_false by congruence. cbn [negb]. by rewrite bool_decide_false.
Qed.

Lemma file_rows_device f t : t ∈ file_rows f -> t !! 0%nat <> Some DEVICE_TAG.
Proof.
  unfold file_rows. rewrite !tag_custom_spec. intros Ht.
  repeat (apply elem_of_cons in Ht as [->|Ht]; [done|]). by apply not_elem_of_nil in Ht.
Qed.

(** C38. A direct message to somebody else opens for its recipient and for nobody
    else, as what was sent: the sender, the text, and the sender's own device binding if one
    rode along - a binding of anybody else's is dropped. *)
Theorem dm_round_trip me to text device theirs mine key :
  to <> keys_public_key me ->
  (forall d, device = Some d -> ev_from_json (ev_as_json d) = Some d) ->
  wrap_dm me to text device = Some (theirs, mine) ->
  let r := finalize_unsigned (dm_builder to text device) (keys_public_key me) in
  open_dm key theirs =
  if bool_decide (keys_public_key key = to) then
    Some (mkDm (rumor_id r) (keys_public_key me) to text (ru_created_at r) None
            (let! d := device in
             if bool_decide (ev_pubkey d = keys_public_key me) then Some d else None))
  else None.
Proof.
  intros Hto Hj Hw r. unfold wrap_dm in Hw.
  rewrite (open_wrapped me to _ theirs mine key device [] (dm_builder_tags _ _ _) no_p_nil Hto
    ltac:(intros t Ht; by apply not_elem_of_nil in Ht) Hj Hw).
  unfold dm_builder. cbn. by destruct device.
Qed.

(** A row of the file, past the device and the recipient. *)
Lemma message_rows_tag device to file n :
  n <> DEVICE_TAG -> n <> "p"%string -> rumor_tag (message_rows device to file) n = rumor_tag file n.
Proof.
  intros Hd Hp. unfold rumor_tag, message_rows. rewrite find_map_app.
  assert (find_map (fun t : Tag => match t with
    | k :: v :: _ => if bool_decide (k = n) then Some v else None | _ => None end)
    match device with Some d => [tag_custom DEVICE_TAG [ev_as_json d]] | None => [] end = None) as ->.
  { destruct device; [|done]. cbn. rewrite tag_custom_spec. by rewrite bool_decide_false. }
  cbn [find_map]. by rewrite bool_decide_false by congruence.
Qed.
Lemma parse_file_back device to f r :
  ru_tags r = message_rows device to (file_rows f) -> ru_content r = BLOB_URL +:+ f_hash f ->
  is_u64 (f_size f) -> Attachment_is_valid (as_attachment f) = true -> parse_file r = Some f.
Proof.
  intros Ht Hc Hsz Hv. unfold parse_file. rewrite Ht, Hc.
  rewrite !message_rows_tag by done.
  assert (Hrow : forall n,
    rumor_tag (file_rows f) n =
    if bool_decide ("file-type"%string = n) then Some (f_mime f)
    else if bool_decide ("encryption-algorithm"%string = n) then Some FILE_CIPHER
    else if bool_decide ("decryption-key"%string = n) then Some (f_key f)
    else if bool_decide ("decryption-nonce"%string = n) then Some (f_nonce f)
    else if bool_decide ("x"%string = n) then Some (f_sha256 f)
    else if bool_decide ("ox"%string = n) then Some (f_original_sha256 f)
    else if bool_decide ("size"%string = n) then Some (show_u (f_size f))
    else if bool_decide ("name"%string = n) then Some (f_name f) else None).
  { intros n. unfold rumor_tag, file_rows. rewrite !tag_custom_spec. cbn [find_map].
    by repeat case_bool_decide. }
  rewrite !Hrow. str_dec. cbn [negb].
  rewrite strip_prefix_app, parse_show_u by done. cbn [opt_get].
  assert (mkDmFile (f_hash f) (f_sha256 f) (f_original_sha256 f) (f_size f) (f_mime f) (f_name f)
    (f_key f) (f_nonce f) = f) as -> by by destruct f.
  by rewrite Hv.
Qed.

(** A file in a direct message arrives whole: for its recipient alone the
    message opens to the very file that was wrapped, and with the key it
    carries, the ciphertext opens to the bytes that were sealed. *)
Theorem dm_file_round_trip me to f device theirs mine key k n plain sealed :
  to <> keys_public_key me -> is_u64 (f_size f) -> Attachment_is_valid (as_attachment f) = true ->
  (forall d, device = Some d -> ev_from_json (ev_as_json d) = Some d) ->
  (forall b, hex_decode (hex_encode b) = Some b) ->
  wrap_dm_file me to f device = Some (theirs, mine) ->
  str_len k = 32 -> str_len n = 12 ->
  seal_file k n plain = Some (sealed, f_key f, f_nonce f, f_original_sha256 f, f_sha256 f) ->
  (option_map dm_file (open_dm key theirs) =
   if bool_decide (keys_public_key key = to) then Some (Some f) else None) /\
  open_file f sealed = Some plain.
Proof.
  intros Hto Hsz Hv Hj Hhex Hw Hk Hn Hs. split.
  - unfold wrap_dm_file in Hw.
    rewrite (open_wrapped me to _ theirs mine key device (file_rows f)
      (dm_file_builder_tags _ _ _) (file_rows_no_p f) Hto (file_rows_device f) Hj Hw).
    destruct (finalize_unsigned_spec (dm_file_builder to f device) (keys_public_key me))
      as (_ & _ & Hrt & Hrc).
    { intros t Ht. rewrite dm_file_builder_tags in Ht. eapply message_rows_names; [|done|done].
      apply file_rows_no_p. }
    rewrite dm_file_builder_tags in Hrt.
    assert (Hkind : b_kind (dm_file_builder to f device) = DM_FILE).
    { unfold dm_file_builder. rewrite b_tags_add_kind. by destruct device. }
    assert (Hcont : b_content (dm_file_builder to f device) = BLOB_URL +:+ f_hash f).
    { unfold dm_file_builder, b_tags_add. cbn. by destruct device. }
    rewrite Hcont in Hrc. rewrite (parse_file_back device to f _ Hrt Hrc Hsz Hv), Hkind.
    by case_bool_decide.
  - unfold seal_file in Hs. destruct (aes_encrypt k n plain) as [c|] eqn:E; [|done].
    injection Hs as <- Hfk Hfn Hox _. unfold open_file. rewrite <- Hfk, <- Hfn, !Hhex, Hk, Hn.
    cbn [negb orb Z.eqb]. rewrite (aes_round_trip _ _ _ _ E). by rewrite bool_decide_true.
Qed.

(** The anchors an inbox list was built with are the anchors read from it. *)
Lemma inbox_list_reads anchors p e :
  (forall d, ep_parse (ep_to_string d) = Some d) ->
  carries (inbox_list anchors) p e ->
  inboxes_of e = map (fun '(p, d) => (p, Some d)) anchors.
Proof.
  intros Hep (Hk & _ & Ht & _ & _). unfold inbox_list in *.
  rewrite b_tags_add_kind in Hk. rewrite b_tags_add_tags in Ht. cbn in Hk, Ht.
  unfold inboxes_of. rewrite Hk, Ht. cbn [negb app b_tags Z.eqb]. clear Ht Hk e.
  induction anchors as [|[q d] l IH]; [done|]. cbn [negb filter_map map omap list_omap] in *.
  rewrite tag_custom_spec, bool_decide_true, pk_hex by done. cbn [head]. rewrite Hep.
  f_equal. exact IH.
Qed.
End Dm.
