(* ===== verification/Groups.v ===== *)
(** The groups a node carries ([Groups] of [crates/hit-group/src/lib.rs]) and
    the questions it asks of every event: may it be stored, who may read it,
    which group's gossip carries it, in what order a batch is applied. *)
From S2P Require Import Prelude Text Nostr GroupEvent Replace Perm Zap GroupState Fold.
From S2P Require Import FoldOrder Authority Safety Invariant Machine Escalation Answers Binding Dm.

#[local] Open Scope Z_scope.

Definition PROFILE : Kind := 0.
Definition CARRIED_KINDS : list Kind :=
  [DEVICE_BINDING; PROFILE; INBOX_LIST; GIFT_WRAP; VOICE_PRESENCE; CHAT_MESSAGE; REACTION;
   ZAP_CARRIER; DELETION; PRESENCE; CREATE_GROUP] ++ ACTION_KINDS ++ [DELETE_EVENT] ++ STATE_KINDS.
Definition MAX_CLOCK_SKEW : Z := 600.
Definition PRESENCE_MAX_AGE : Z := 120.
Definition MAX_WRAP_BYTES : Z := 64 * 1024.
Definition DELETABLE_KINDS : list Kind := [CHAT_MESSAGE; REACTION].

Definition is_personal (kind : Kind) : bool :=
  (kind =? DEVICE_BINDING) || (kind =? PROFILE) || (kind =? INBOX_LIST).

Section Groups.
Context {N : NostrTypes} {O : NostrOps}.

Inductive Judgement := Store | FoldWith (group : PublicKey).
#[global] Instance judgement_eq_dec : EqDecision Judgement.
Proof. solve_decision. Defined.

(** [Verified::check]: an event whose signature has been checked is the event. *)
Definition Verified_check (e : Event) : result unit Event :=
  guard ev_verify e else tt in Ok e.

(** ** State *)
Record Groups := mkGroups {
  g_me : PublicKey;
  g_inboxes : gmap PublicKey (gset PublicKey);
  (** [None] while carried without state. *)
  g_carried : gmap PublicKey (option GroupState);
}.
Definition Groups_new (me : PublicKey) : Groups := mkGroups me ∅ ∅.

Definition set_inboxes (g : Groups) (person : PublicKey) (anchors : gset PublicKey) : Groups :=
  mkGroups (g_me g)
    (if bool_decide (anchors = ∅) then delete person (g_inboxes g)
     else <[person := anchors]> (g_inboxes g)) (g_carried g).
Definition carry (g : Groups) (group : PublicKey) : Groups :=
  mkGroups (g_me g) (g_inboxes g)
    (match g_carried g !! group with Some _ => g_carried g | None => <[group := None]> (g_carried g) end).
Definition drop_group (g : Groups) (group : PublicKey) : Groups :=
  mkGroups (g_me g) (g_inboxes g) (delete group (g_carried g)).
Definition set_state (g : Groups) (group : PublicKey) (state : option GroupState) : Groups :=
  match g_carried g !! group with
  | Some _ => mkGroups (g_me g) (g_inboxes g) (<[group := state]> (g_carried g))
  | None => g
  end.

(** ** Questions *)
Definition served_by (g : Groups) (anchor : PublicKey) : list PublicKey :=
  map fst (List.filter (fun '(_, a) => bool_decide (anchor ∈ a)) (map_entries pk_leb (g_inboxes g))).
Definition keeps_dms_for (g : Groups) (reader recipient : PublicKey) : bool :=
  bool_decide (reader = recipient)
  || is_some_and (g_inboxes g !! recipient) (fun a => bool_decide (reader ∈ a)).
Definition is_carried (g : Groups) (group : PublicKey) : bool := opt_bool (g_carried g !! group).
Definition state (g : Groups) (group : PublicKey) : option GroupState :=
  let! slot := g_carried g !! group in slot.
(** [carried.values().flatten()]. *)
Definition states (g : Groups) : list GroupState :=
  filter_map snd (map_entries pk_leb (g_carried g)).
Definition groups_of (g : Groups) (p : PublicKey) : list GroupState :=
  List.filter (fun s => is_member s p) (states g).
Definition public_profile (g : Groups) (e : Event) : bool :=
  (ev_kind e =? PROFILE) && existsb (fun s => gs_public s && is_member s (ev_pubkey e)) (states g).
Definition share_a_group (g : Groups) (a b : PublicKey) : bool :=
  existsb (fun s => is_member s b) (groups_of g a).
Definition peers (g : Groups) : gset PublicKey :=
  list_to_set (List.filter (fun p => negb (bool_decide (p = g_me g)))
    (flat_map (fun s => map fst (map_entries pk_leb (gs_members s))) (groups_of g (g_me g)))).

(** [u64]'s [+], which wraps in a release build. *)
Definition u64_add (a b : Z) : Z := (a + b) mod (U64_MAX + 1).

Definition judge_wrap (g : Groups) (e : Event) (now : Timestamp) : result Refusal Judgement :=
  guard str_len (ev_content e) <=? MAX_WRAP_BYTES else TooLarge in
  let? to := ok_or (recipient_of e) Malformed in
  guard negb (negb (bool_decide (to = g_me g))
              && (u64_add (ev_created_at e) INBOX_KEEP_SECS <? now)) else Stale in
  if keeps_dms_for g (g_me g) to then Ok Store else Err NotOurs.

Definition judge_personal (g : Groups) (e : Event) : result Refusal Judgement :=
  if bool_decide (ev_pubkey e = g_me g) || share_a_group g (g_me g) (ev_pubkey e)
     || public_profile g e
  then Ok Store else Err NotAMember.

(** [.map(|()| Judgement::Store)]. *)
Definition stored (r : result Refusal unit) : result Refusal Judgement :=
  match r with Ok _ => Ok Store | Err e => Err e end.

Definition judge_in_group (s : GroupState) (group : PublicKey) (e : Event) (now : Timestamp)
    : result Refusal Judgement :=
  if ev_kind e =? CREATE_GROUP then
    if bool_decide (gs_named_owner s = Some (ev_pubkey e)) then Ok Store else Err NotTheOwner
  else if ev_kind e =? CREATE_INVITE then
    if is_folded s e now then Err Folded
    else if Perm.contains (base s (ev_pubkey e)) Perm.CREATE_INVITE then Ok Store
    else Err (Lacks Perm.CREATE_INVITE)
  else if kind_in (ev_kind e) ACTION_KINDS then
    if is_folded s e now then Err Folded else Ok (FoldWith group)
  else if ev_kind e =? PRESENCE then
    if ts_add (ev_created_at e) PRESENCE_MAX_AGE <? now then Err Stale
    else if negb (is_member s (ev_pubkey e)) then Err NotAMember else Ok Store
  else if ev_kind e =? VOICE_PRESENCE then
    if ts_add (ev_created_at e) PRESENCE_MAX_AGE <? now then Err Stale
    else stored (judge_voice s e)
  else if ev_kind e =? REACTION then stored (judge_reaction s e)
  else if ev_kind e =? ZAP_CARRIER then stored (judge_zap s e)
  else if ev_kind e =? DELETION then stored (judge_deletion s e)
  else if ev_kind e =? DELETE_EVENT then stored (judge_removal s e)
  else stored (judge_message s e).

Definition judge (g : Groups) (e : Event) (now : Timestamp) : result Refusal Judgement :=
  guard kind_in (ev_kind e) CARRIED_KINDS else KindNotCarried (ev_kind e) in
  guard ev_created_at e <=? ts_add now MAX_CLOCK_SKEW else FromTheFuture in
  if ev_kind e =? GIFT_WRAP then judge_wrap g e now
  else if is_personal (ev_kind e) then judge_personal g e
  else
    let? group := ok_or (group_of e) Malformed in
    let? slot := ok_or (g_carried g !! group) GroupNotCarried in
    if kind_in (ev_kind e) STATE_KINDS then
      match parse_state e with Some _ => Ok Store | None => Err NotSignedByGroup end
    else
      let? s := ok_or slot NoState in judge_in_group s group e now.

Definition Groups_may_read (g : Groups) (reader : PublicKey) (e : Event) (now : Timestamp) : bool :=
  if ev_kind e =? GIFT_WRAP then is_some_and (recipient_of e) (keeps_dms_for g reader)
  else if is_personal (ev_kind e) then
    bool_decide (ev_pubkey e = reader) || share_a_group g reader (ev_pubkey e) || public_profile g e
  else is_some_and (let! gr := group_of e in state g gr) (fun s => may_read s reader e now).

Definition gossip_group (g : Groups) (e : Event) : option PublicKey :=
  let! group := group_of e in
  let! s := state g group in
  if kind_in (ev_kind e) CHANNEL_KINDS || (ev_kind e =? VOICE_PRESENCE) then
    if is_some_and (channel_of e) (everyone_can_view s) then Some group else None
  else if kind_in (ev_kind e) STATE_KINDS || (ev_kind e =? PRESENCE)
          || kind_in (ev_kind e) ACTION_KINDS || (ev_kind e =? CREATE_GROUP)
  then Some group else None.

Definition apply_class (e : Event) : Z :=
  if kind_in (ev_kind e) STATE_KINDS then 0
  else if ev_kind e =? CREATE_GROUP then 1
  else if kind_in (ev_kind e) ACTION_KINDS then 2
  else if is_personal (ev_kind e) then 3
  else if (ev_kind e =? DELETION) || (ev_kind e =? DELETE_EVENT) then 5
  else 4.
Definition apply_order (e : Event) : Z * Timestamp := (apply_class e, ev_created_at e).

(** ** The states and who is in them *)
Lemma states_elem g s : s ∈ states g <-> exists gr, state g gr = Some s.
Proof.
  unfold states, filter_map, state. rewrite list_elem_of_omap. split.
  - intros ([gr slot] & Hin & Hs). apply map_entries_elem in Hin. cbn in Hs. subst.
    exists gr. by rewrite Hin.
  - intros (gr & Hs). destruct (g_carried g !! gr) as [slot|] eqn:E; [|done]. exists (gr, slot).
    by rewrite map_entries_elem.
Qed.
Lemma share_a_group_spec g a b :
  share_a_group g a b = true <->
  exists gr s, state g gr = Some s /\ is_member s a = true /\ is_member s b = true.
Proof.
  unfold share_a_group, groups_of. rewrite existsb_elem. setoid_rewrite filter_elem.
  setoid_rewrite states_elem. naive_solver.
Qed.

(** Whom a node syncs with: exactly the other people who are members of a
    group it carries and is a member of itself; and sharing a group is mutual. *)
Theorem peers_spec g p :
  (p ∈ peers g <-> p <> g_me g /\ share_a_group g (g_me g) p = true) /\
  (forall a b, share_a_group g a b = share_a_group g b a).
Proof.
  split.
  - unfold peers. rewrite elem_of_list_to_set, filter_elem, negb_true_iff, bool_decide_eq_false.
    rewrite share_a_group_spec, list_elem_of_In, in_flat_map.
    assert (Hm : forall s : GroupState, List.In p (map fst (map_entries pk_leb (gs_members s))) <->
      is_member s p = true).
    { intros s. rewrite <- list_elem_of_In, list_elem_of_fmap, is_member_some. split.
      - intros ([q h] & -> & Hin). apply map_entries_elem in Hin. eauto.
      - intros [h Hh]. exists (p, h). by rewrite map_entries_elem. }
    setoid_rewrite Hm. setoid_rewrite <- list_elem_of_In. unfold groups_of.
    setoid_rewrite filter_elem. setoid_rewrite states_elem. naive_solver.
  - intros a b. apply eq_true_iff_eq. rewrite !share_a_group_spec. naive_solver.
Qed.

(** ** Reading *)

(** A wrapped direct message may be read, through the node's one rule for
    requests, sync and gossip, by its recipient and by the anchors the
    recipient's inbox list names; by nobody else. *)
Theorem dm_readers g reader e now :
  ev_kind e = GIFT_WRAP ->
  Groups_may_read g reader e now = true <->
  exists to, recipient_of e = Some to /\
    (reader = to \/ exists anchors, g_inboxes g !! to = Some anchors /\ reader ∈ anchors).
Proof.
  intros Hk. unfold Groups_may_read. rewrite Hk, Z.eqb_refl.
  destruct (recipient_of e) as [to|]; cbn; [|naive_solver]. unfold keeps_dms_for.
  rewrite orb_true_iff, bool_decide_eq_true.
  destruct (g_inboxes g !! to) as [a|] eqn:Ea; cbn; rewrite ?bool_decide_eq_true; naive_solver.
Qed.

(** The kinds of a group are read by the group's rule. *)
Lemma group_kind_rule g reader e now gr s :
  group_of e = Some gr -> state g gr = Some s ->
  Groups_may_read g reader e now = may_read s reader e now.
Proof.
  intros Hg Hs. unfold Groups_may_read. rewrite Hg, Hs.
  assert (Hk : kind_in (ev_kind e) STATE_KINDS = true \/ is_group_kind (ev_kind e) = true).
  { unfold group_of in Hg. destruct (kind_in _ _); [by left|]. destruct (is_group_kind _); [by right|done]. }
  destruct (Z.eqb_spec (ev_kind e) GIFT_WRAP) as [E|_]; [rewrite E in Hk; by destruct Hk|].
  destruct (is_personal (ev_kind e)) eqn:Ep; [|done]. unfold is_personal in Ep.
  apply orb_prop in Ep as [Ep|Ep]; [apply orb_prop in Ep as [Ep|Ep]|]; bools; rewrite Ep in Hk;
    by destruct Hk.
Qed.

(** Gossip leaks nothing: whatever event a group's gossip carries, every
    member of the group may read it, unless the snapshot has folded it away;
    and the gossip is the group's own. *)
Theorem gossip_sound g e gr now :
  gossip_group g e = Some gr ->
  group_of e = Some gr /\
  exists s, state g gr = Some s /\
    forall p, is_member s p = true -> is_folded s e now = false ->
      Groups_may_read g p e now = true.
Proof.
  unfold gossip_group. destruct (group_of e) as [gr'|] eqn:Eg; [|done].
  destruct (state g gr') as [s|] eqn:Es; [|done]. fold (in_a_channel e). intros H.
  assert (gr' = gr) as ->.
  { destruct (in_a_channel e); [by destruct (is_some_and _ _); [injection H|]|].
    by destruct (_ || _); [injection H|]. }
  split; [done|]. exists s. split; [done|]. intros p Hp Hf. rewrite (group_kind_rule g p e now gr s) by done.
  unfold may_read. rewrite Hp, Hf. cbn [negb]. destruct (in_a_channel e) eqn:Ec; [|done].
  destruct (channel_of e) as [ch|]; [|done]. cbn [is_some_and] in *.
  destruct (everyone_can_view s ch) eqn:Ev; [|done]. unfold everyone_can_view in Ev.
  apply is_member_some in Hp as [held Hp]. rewrite forallb_elem in Ev.
  by apply (Ev (p, held)), map_entries_elem.
Qed.

(** A stranger sees what is public and no more: someone in none of the
    groups a node carries may read, apart from direct messages, only what they
    signed themselves, profiles of a public group's members, a notice of their
    own removal, and events of public groups - in a channel, only one the
    default role may view. *)
Theorem strangers_read g reader e now :
  groups_of g reader = [] -> Groups_may_read g reader e now = true ->
  ev_kind e = GIFT_WRAP \/
  (is_personal (ev_kind e) = true /\ (ev_pubkey e = reader \/ public_profile g e = true)) \/
  exists gr s, group_of e = Some gr /\ state g gr = Some s /\
    (removes e reader = true \/
     (gs_public s = true /\ (in_a_channel e = true ->
        is_some_and (channel_of e) (open_to_readers s) = true))).
Proof.
  intros Hno. unfold Groups_may_read. destruct (Z.eqb_spec (ev_kind e) GIFT_WRAP); [by left|].
  intros H. right. destruct (is_personal (ev_kind e)).
  - left. split; [done|]. unfold share_a_group in H. rewrite Hno in H. cbn in H.
    rewrite orb_false_r in H. apply orb_prop in H as [H|H]; [left|by right]. by bools.
  - right. destruct (group_of e) as [gr|]; [|done]. destruct (state g gr) as [s|] eqn:Es; [|done].
    exists gr, s. split; [done|]. split; [done|]. cbn in H.
    assert (Hm : is_member s reader = false).
    { destruct (is_member s reader) eqn:Em; [|done].
      assert (s ∈ groups_of g reader) as Hin by (apply filter_elem; rewrite states_elem; eauto).
      rewrite Hno in Hin. by apply not_elem_of_nil in Hin. }
    unfold may_read in H. rewrite Hm in H. cbn [negb] in H.
    destruct (removes e reader); [by left|right]. destruct (gs_public s); [|done]. cbn [negb orb] in H.
    destruct (is_folded s e now); [done|]. split; [done|]. intros Hc. by rewrite Hc in H.
Qed.

(** ** Storing *)

(** The kinds that reach the last branches of [judge]. *)
Lemma carried_rest k : kind_in k CARRIED_KINDS = true ->
  (k =? GIFT_WRAP) = false -> is_personal k = false -> kind_in k STATE_KINDS = false ->
  (k =? CREATE_GROUP) = false -> kind_in k ACTION_KINDS = false -> (k =? PRESENCE) = false ->
  kind_in k CHANNEL_KINDS || (k =? VOICE_PRESENCE) = true.
Proof.
  unfold is_personal. intros Hc H1 H2 H3 H4 H5 H6. unfold CARRIED_KINDS in Hc.
  unfold kind_in in *. rewrite !existsb_app in Hc. unfold CHANNEL_KINDS. cbn [existsb] in Hc |- *.
  apply orb_false_elim in H2 as [H2 H7]. apply orb_false_elim in H2 as [H2 H8].
  rewrite H1, H2, H4, H6, H7, H8, H3, H5 in Hc.
  destruct (k =? CHAT_MESSAGE), (k =? REACTION), (k =? DELETION), (k =? DELETE_EVENT),
    (k =? ZAP_CARRIER), (k =? VOICE_PRESENCE); done.
Qed.
Lemma action_not_state k : kind_in k ACTION_KINDS = true -> kind_in k CHANNEL_KINDS = false.
Proof.
  unfold kind_in. cbn. intros H.
  repeat (apply orb_prop in H as [H|H]; [bools; by subst|]). done.
Qed.
Lemma base_member_of s p needed : wf s -> Perm.contains (base s p) needed = true ->
  needed <> 0 -> is_member s p = true.
Proof.
  intros Hw H Hn. unfold is_member. destruct (gs_members s !! p) eqn:E; [done|].
  destruct (is_owner s p) eqn:Eo; [apply is_owner_eq in Eo; apply (wf_owner s Hw) in Eo; congruence|].
  rewrite base_outsider in H by done. unfold Perm.contains, Perm.NONE in H. cbn in H. by bools.
Qed.
Lemma stored_ok r : stored r = Ok Store -> is_ok r = true.
Proof. by destruct r. Qed.

Lemma judged_in_group_read s gr e now :
  wf s -> judge_in_group s gr e now = Ok Store -> (ev_kind e =? CREATE_GROUP) = false ->
  kind_in (ev_kind e) CARRIED_KINDS = true -> (ev_kind e =? GIFT_WRAP) = false ->
  is_personal (ev_kind e) = false -> kind_in (ev_kind e) STATE_KINDS = false ->
  may_read s (ev_pubkey e) e now = true.
Proof.
  intros Hw H Hcg Hc Hg Hp Hs. unfold judge_in_group in H. rewrite Hcg in H.
  assert (Hplain : is_member s (ev_pubkey e) = true -> is_folded s e now = false ->
    in_a_channel e = false -> may_read s (ev_pubkey e) e now = true).
  { intros Hm Hf Hch. unfold may_read. by rewrite Hm, Hf, Hch. }
  destruct (Z.eqb_spec (ev_kind e) CREATE_INVITE) as [Ek|_].
  { destruct (is_folded s e now) eqn:Ef; [done|].
    destruct (Perm.contains _ _) eqn:Eb; [|done]. apply Hplain; [|done|].
    - by eapply base_member_of.
    - unfold in_a_channel. by rewrite Ek. }
  destruct (kind_in (ev_kind e) ACTION_KINDS) eqn:Ea; [by destruct (is_folded s e now)|].
  destruct (Z.eqb_spec (ev_kind e) PRESENCE) as [Ek|Hnp].
  { destruct (_ <? now); [done|]. destruct (is_member s (ev_pubkey e)) eqn:Em; [|done].
    apply Hplain; [done| |]; unfold is_folded, in_a_channel; by rewrite Ek. }
  apply Z.eqb_neq in Hnp. pose proof (carried_rest _ Hc Hg Hp Hs Hcg Ea Hnp) as Hch.
  fold (in_a_channel e) in Hch. apply writers_read; [done|].
  destruct (ev_kind e =? VOICE_PRESENCE).
  { destruct (_ <? now); [done|]. apply stored_ok in H. rewrite H. by rewrite !orb_true_r. }
  destruct (ev_kind e =? REACTION); [apply stored_ok in H; rewrite H; by rewrite !orb_true_r|].
  destruct (ev_kind e =? ZAP_CARRIER); [apply stored_ok in H; rewrite H; by rewrite !orb_true_r|].
  destruct (ev_kind e =? DELETION); [apply stored_ok in H; rewrite H; by rewrite !orb_true_r|].
  destruct (ev_kind e =? DELETE_EVENT); [apply stored_ok in H; rewrite H; by rewrite !orb_true_r|].
  apply stored_ok in H. by rewrite H.
Qed.

(** What a node stores, its author may read: every event of a person that
    [judge] lets a node keep - a message, a reaction, a deletion, a removal, a
    zap, an invite, a presence, a profile, a binding - is one that same person
    may be handed, now. *)
Theorem stored_then_readable g e now :
  (forall gr s, state g gr = Some s -> wf s) -> judge g e now = Ok Store ->
  ev_kind e <> GIFT_WRAP -> kind_in (ev_kind e) STATE_KINDS = false -> ev_kind e <> CREATE_GROUP ->
  Groups_may_read g (ev_pubkey e) e now = true.
Proof.
  intros Hw H Hg Hs Hcg. unfold judge in H.
  destruct (kind_in (ev_kind e) CARRIED_KINDS) eqn:Ec; [|done].
  destruct (ev_created_at e <=? _); [|done]. apply Z.eqb_neq in Hg, Hcg. rewrite Hg in H.
  destruct (is_personal (ev_kind e)) eqn:Ep.
  - unfold Groups_may_read. rewrite Hg, Ep, bool_decide_true by done. done.
  - destruct (group_of e) as [gr|] eqn:Egr; cbn [ok_or] in H; [|done].
    destruct (g_carried g !! gr) as [slot|] eqn:Esl; cbn [ok_or] in H; [|done]. rewrite Hs in H.
    destruct slot as [s|]; cbn [ok_or] in H; [|done].
    assert (Hst : state g gr = Some s) by (unfold state; by rewrite Esl).
    rewrite (group_kind_rule g _ e now gr s) by done.
    apply (judged_in_group_read s gr); try done. by eapply Hw.
Qed.
End Groups.
