(* ===== verification/ZapSpec.v ===== *)
(** What the codecs of [Zap] promise: a bech32 string decodes to what was
    encoded (its checksum is linear, and the six words appended make it one),
    bytes survive their trip through 5-bit words, an LNURL gives its URL back,
    an amount its millisatoshis, and an invoice its fields; and what a receipt
    that passes has been checked for. *)
From S2P Require Import Prelude Text Nostr GroupEvent Zap.

#[local] Open Scope Z_scope.

(** ** The checksum *)
Section Checksum.
Import Bech32.

(** The generators a state's top bits select. *)
Definition gens_of (b : Z) : Z :=
  fold_right Z.lxor 0
    (map (fun '(i, g) => if Z.testbit b i then g else 0) (combine [0; 1; 2; 3; 4] GEN)).
Lemma bit_of b i : 0 <= i -> (Z.land (Z.shiftr b i) 1 =? 1) = Z.testbit b i.
Proof.
  intros Hi. change 1 with (Z.ones 1). rewrite Z.land_ones by lia.
  rewrite <- Z.bit0_mod, Z.shiftr_spec by lia. rewrite Z.add_0_l.
  by destruct (Z.testbit b i).
Qed.
Lemma lxor_if chk g (c : bool) : (if c then Z.lxor chk g else chk) = Z.lxor chk (if c then g else 0).
Proof. destruct c; [done|]. by rewrite Z.lxor_0_r. Qed.
Lemma polymod_step_spec chk v :
  polymod_step chk v = Z.lxor (Z.lxor (Z.shiftl (Z.land chk 0x01ffffff) 5) v) (gens_of (Z.shiftr chk 25)).
Proof.
  unfold polymod_step, gens_of, GEN. cbn [xor_gens combine map fold_right].
  rewrite !bit_of by lia. rewrite !lxor_if, Z.lxor_0_r, <- !Z.lxor_assoc. done.
Qed.

Lemma gens_of_lxor a b : gens_of (Z.lxor a b) = Z.lxor (gens_of a) (gens_of b).
Proof.
  unfold gens_of, GEN. cbn [combine map fold_right].
  rewrite !Z.lxor_spec.
  destruct (Z.testbit a 0), (Z.testbit b 0), (Z.testbit a 1), (Z.testbit b 1), (Z.testbit a 2),
    (Z.testbit b 2), (Z.testbit a 3), (Z.testbit b 3), (Z.testbit a 4), (Z.testbit b 4); reflexivity.
Qed.

Lemma land_lxor a b m : Z.land (Z.lxor a b) m = Z.lxor (Z.land a m) (Z.land b m).
Proof.
  apply Z.bits_inj'. intros i _. rewrite !Z.land_spec, !Z.lxor_spec, !Z.land_spec.
  by destruct (Z.testbit a i), (Z.testbit b i), (Z.testbit m i).
Qed.

(** One step with nothing coming in: linear. *)
Definition turn (chk : Z) : Z := polymod_step chk 0.
Lemma turn_lxor a b : turn (Z.lxor a b) = Z.lxor (turn a) (turn b).
Proof.
  unfold turn. rewrite !polymod_step_spec, !Z.lxor_0_r, Z.shiftr_lxor, gens_of_lxor.
  rewrite land_lxor, Z.shiftl_lxor.
  set (x := Z.shiftl (Z.land a _) 5). set (y := Z.shiftl (Z.land b _) 5).
  set (g := gens_of (Z.shiftr a 25)). set (h := gens_of (Z.shiftr b 25)).
  rewrite !Z.lxor_assoc. f_equal. rewrite <- !Z.lxor_assoc. f_equal. apply Z.lxor_comm.
Qed.
Lemma step_turn chk v : polymod_step chk v = Z.lxor (turn chk) v.
Proof.
  unfold turn. rewrite !polymod_step_spec, Z.lxor_0_r, !Z.lxor_assoc. f_equal. apply Z.lxor_comm.
Qed.
(** A small state only shifts. *)
Lemma turn_small x : 0 <= x < 2 ^ 25 -> turn x = Z.shiftl x 5.
Proof.
  intros Hx. unfold turn. rewrite polymod_step_spec, Z.lxor_0_r.
  assert (Z.shiftr x 25 = 0) as -> by (rewrite Z.shiftr_div_pow2 by lia; by apply Z.div_small).
  change 0x01ffffff with (Z.ones 25). rewrite Z.land_ones, Z.mod_small by lia.
  change (gens_of 0) with 0. apply Z.lxor_0_r.
Qed.

(** A word pushed below a number. *)
Lemma land_low acc w k : 0 <= k -> 0 <= w < 2 ^ k -> Z.land (Z.shiftl acc k) w = 0.
Proof.
  intros Hk Hw. apply Z.bits_inj_iff'. intros i Hi. rewrite Z.land_spec, Z.bits_0.
  destruct (Z.lt_ge_cases i k); [by rewrite Z.shiftl_spec_low by lia|].
  rewrite <- (Z.mod_small w (2 ^ k)) by lia. rewrite Z.mod_pow2_bits_high by lia.
  apply andb_false_r.
Qed.
Lemma push_word acc w : 0 <= w < 32 -> Z.lxor (Z.shiftl acc 5) w = acc * 32 + w.
Proof.
  intros Hw. rewrite <- Z.add_nocarry_lxor by (by apply land_low).
  by rewrite Z.shiftl_mul_pow2 by lia.
Qed.
Lemma push_low acc w k : 0 <= k -> 0 <= w < 2 ^ k -> Z.lor (Z.shiftl acc k) w = acc * 2 ^ k + w.
Proof.
  intros Hk Hw. rewrite <- Z.add_nocarry_lor by (by apply land_low).
  by rewrite Z.shiftl_mul_pow2 by lia.
Qed.

(** The words a run of values adds to what the state alone becomes. *)
Lemma polymod_words (l : list Z) x : (length l <= 6)%nat -> Forall (fun w => 0 <= w < 32) l ->
  foldl polymod_step x l =
  Z.lxor (foldl polymod_step x (repeat 0 (length l)))
    (foldl (fun acc w => Z.lxor (Z.shiftl acc 5) w) 0 l) /\
  0 <= foldl (fun acc w => Z.lxor (Z.shiftl acc 5) w) 0 l < 2 ^ (5 * Z.of_nat (length l)).
Proof.
  revert x. induction l as [|w l IH] using rev_ind; intros x Hlen Hw; [by rewrite Z.lxor_0_r|].
  rewrite length_app in Hlen. cbn in Hlen. apply Forall_app in Hw as [Hl Hw].
  apply Forall_inv in Hw. destruct (IH x ltac:(lia) Hl) as [IH1 IH2]. clear IH.
  rewrite length_app, repeat_app, !foldl_app. cbn [length repeat foldl].
  set (acc := foldl (fun acc w => Z.lxor (Z.shiftl acc 5) w) 0 l) in *.
  assert (Hb : 2 ^ (5 * Z.of_nat (length l)) <= 2 ^ 25) by (apply Z.pow_le_mono_r; lia).
  split.
  - rewrite IH1, !step_turn, turn_lxor, (turn_small acc) by lia.
    by rewrite Z.lxor_0_r, Z.lxor_assoc.
  - replace (Z.of_nat (length l + 1)) with (Z.of_nat (length l) + 1) by lia.
    rewrite Z.mul_add_distr_l, Z.pow_add_r by lia. change (2 ^ (5 * 1)) with 32.
    rewrite push_word by done. lia.
Qed.

(** The checksum's six words are its thirty bits. *)
Lemma word_of chk k : 0 <= k -> Z.land (Z.shiftr chk k) 31 = (chk / 2 ^ k) mod 32.
Proof.
  intros Hk. change 31 with (Z.ones 5). rewrite Z.land_ones by lia.
  by rewrite Z.shiftr_div_pow2.
Qed.
Lemma checksum_words chk : Forall (fun w => 0 <= w < 32) (checksum chk).
Proof.
  unfold checksum. cbn [map]. repeat constructor; rewrite word_of by lia; apply Z.mod_pos_bound; lia.
Qed.
Lemma push_digit chk k m : 0 <= k -> m = k + 5 ->
  chk / 2 ^ m * 32 + (chk / 2 ^ k) mod 32 = chk / 2 ^ k.
Proof.
  intros Hk ->. rewrite Z.pow_add_r, <- Z.div_div by lia. change (2 ^ 5) with 32.
  rewrite (Z.div_mod (chk / 2 ^ k) 32) at 3 by lia. lia.
Qed.
Lemma checksum_value chk : 0 <= chk < 2 ^ 30 ->
  foldl (fun acc w => Z.lxor (Z.shiftl acc 5) w) 0 (checksum chk) = chk.
Proof.
  intros Hc. pose proof (checksum_words chk) as Hw. unfold checksum in *. cbn [map foldl] in *.
  repeat match goal with H : Forall _ (_ :: _) |- _ =>
    let H1 := fresh "W" in apply Forall_cons in H as [H1 H] end.
  rewrite !push_word by done. rewrite !word_of by lia. cbn [Z.mul Z.sub Z.add Z.opp Z.pos_sub].
  change (5 * (5 - 0)) with 25. change (5 * (5 - 1)) with 20. change (5 * (5 - 2)) with 15.
  change (5 * (5 - 3)) with 10. change (5 * (5 - 4)) with 5. change (5 * (5 - 5)) with 0.
  assert (H0 : 0 = chk / 2 ^ 30) by (symmetry; by apply Z.div_small).
  rewrite H0 at 1. rewrite (push_digit chk 25 30), (push_digit chk 20 25), (push_digit chk 15 20),
    (push_digit chk 10 15), (push_digit chk 5 10), (push_digit chk 0 5) by lia.
  apply Z.div_1_r.
Qed.

Lemma lxor_bound a b n : 0 <= n -> 0 <= a < 2 ^ n -> 0 <= b < 2 ^ n -> 0 <= Z.lxor a b < 2 ^ n.
Proof.
  intros Hn Ha Hb. assert (Z.lxor a b = Z.lxor a b mod 2 ^ n) as ->; [|by apply Z.mod_pos_bound, Z.pow_pos_nonneg].
  apply Z.bits_inj_iff'. intros i Hi. destruct (Z.lt_ge_cases i n).
  - by rewrite Z.mod_pow2_bits_low.
  - rewrite Z.mod_pow2_bits_high by lia. rewrite Z.lxor_spec.
    rewrite <- (Z.mod_small a (2 ^ n)), <- (Z.mod_small b (2 ^ n)) by done.
    by rewrite !Z.mod_pow2_bits_high by lia.
Qed.
Lemma step_bound chk v : 0 <= v < 32 -> 0 <= polymod_step chk v < 2 ^ 30.
Proof.
  intros Hv. rewrite polymod_step_spec. apply lxor_bound; [lia|apply lxor_bound; [lia| |lia]|].
  - change 0x01ffffff with (Z.ones 25). rewrite Z.land_ones, Z.shiftl_mul_pow2 by lia.
    pose proof (Z.mod_pos_bound chk (2 ^ 25) ltac:(lia)). lia.
  - unfold gens_of, GEN. cbn [combine map fold_right].
    repeat (apply lxor_bound; [lia|destruct (Z.testbit _ _); lia|]). lia.
Qed.
Lemma polymod_bound l : Forall (fun v => 0 <= v < 32) l -> 0 <= polymod l < 2 ^ 30.
Proof.
  unfold polymod. destruct l as [|v l _] using rev_ind; [done|].
  rewrite Forall_app, Forall_singleton, foldl_app. intros [_ Hv]. by apply step_bound.
Qed.

(** What [encode] appends makes the checksum one. *)
Lemma checksum_checks l : Forall (fun v => 0 <= v < 32) l ->
  polymod (l ++ checksum (Z.lxor (polymod (l ++ [0; 0; 0; 0; 0; 0])) 1)) = 1.
Proof.
  intros Hl. set (p := polymod (l ++ [0; 0; 0; 0; 0; 0])).
  assert (Hp : 0 <= p < 2 ^ 30).
  { apply polymod_bound. apply Forall_app; split; [done|]. repeat constructor; lia. }
  unfold polymod. rewrite foldl_app.
  destruct (polymod_words (checksum (Z.lxor p 1)) (foldl polymod_step 1 l) ltac:(done)
    (checksum_words _)) as [-> _].
  rewrite checksum_value by (apply lxor_bound; lia).
  replace (foldl polymod_step (foldl polymod_step 1 l) (repeat 0 (length (checksum (Z.lxor p 1)))))
    with p by (unfold p, polymod; by rewrite foldl_app).
  by rewrite <- Z.lxor_assoc, Z.lxor_nilpotent.
Qed.

(** ** Encoding and decoding *)
Lemma bytes_of_app s t : bytes_of (s +:+ t) = bytes_of s ++ bytes_of t.
Proof. induction s as [|c s IH]; [done|]. cbn. by rewrite <- IH. Qed.
Lemma bytes_of_back l : Forall (fun b => 0 <= b < 256) l -> bytes_of (str_of_bytes l) = l.
Proof.
  induction 1 as [|b l Hb _ IH]; [done|]. unfold str_of_bytes in *. cbn. by rewrite byte_of_ascii, IH.
Qed.
Lemma str_of_bytes_of s : str_of_bytes (bytes_of s) = s.
Proof.
  induction s as [|c s IH]; [done|]. unfold str_of_bytes in *. cbn. rewrite IH. f_equal.
  unfold ascii_of_Z, byte_of. by rewrite N2Z.id, ascii_N_embedding.
Qed.
Lemma bytes_of_bound s : Forall (fun b => 0 <= b < 256) (bytes_of s).
Proof. induction s as [|c s IH]; constructor; [apply byte_of_bound|done]. Qed.
Lemma rsplit_one_last h cs : 49 ∉ cs -> rsplit_one (h ++ 49 :: cs) = Some (h, cs).
Proof.
  intros Hn. assert (Hcs : forall l, 49 ∉ l -> rsplit_one l = None).
  { induction l as [|b l IH]; intros Hl; [done|]. apply not_elem_of_cons in Hl as [Hb Hl].
    cbn. rewrite IH by done. by rewrite (proj2 (Z.eqb_neq b 49)) by congruence. }
  induction h as [|b h IH]; cbn; [by rewrite Hcs|by rewrite IH].
Qed.

(** What a charset character is: its word's, and never the separator. *)
Definition char_ok (w : Z) : bool :=
  bool_decide (position CHARSET (char_of w) = Some w) && negb (char_of w =? 49)
  && ((48 <=? char_of w) && (char_of w <=? 57) || (97 <=? char_of w) && (char_of w <=? 122)).
Lemma chars_ok w : 0 <= w < 32 -> char_ok w = true.
Proof.
  intros Hw. assert (Hall : forallb char_ok (map Z.of_nat (seq 0 32)) = true) by by vm_compute.
  rewrite forallb_elem in Hall. apply Hall. apply list_elem_of_fmap. exists (Z.to_nat w).
  split; [lia|]. apply elem_of_seq. lia.
Qed.
Lemma char_position w : 0 <= w < 32 -> position CHARSET (char_of w) = Some w.
Proof. intros Hw%chars_ok. unfold char_ok in Hw. by bools. Qed.
Lemma char_range w : 0 <= w < 32 ->
  char_of w <> 49 /\ (48 <= char_of w <= 57 \/ 97 <= char_of w <= 122).
Proof.
  intros Hw%chars_ok. unfold char_ok in Hw. bools. split; [done|].
  apply orb_prop in H0 as [H0|H0]; bools; lia.
Qed.
Lemma all_some_map {A B} (f : A -> option B) (g : B -> A) l :
  Forall (fun b => f (g b) = Some b) l -> all_some (map f (map g l)) = Some l.
Proof. induction 1 as [|b l Hb _ IH]; [done|]. unfold all_some in *. cbn. by rewrite Hb, IH. Qed.

(** A human-readable part [decode] accepts. *)
Definition hrp_ok (hrp : string) : Prop :=
  hrp <> ""%string /\ Forall (fun b => 33 <= b <= 126) (bytes_of hrp).

Lemma hrp_expand_words hrp : Forall (fun b => 33 <= b <= 126) (bytes_of hrp) ->
  Forall (fun v => 0 <= v < 32) (hrp_expand hrp).
Proof.
  intros Hh. unfold hrp_expand. apply Forall_app; split; [|constructor; [lia|]]; apply Forall_map;
    (eapply Forall_impl; [exact Hh|]); intros b Hb; unfold compose; cbn beta in *.
  - rewrite Z.shiftr_div_pow2 by lia. change (2 ^ 5) with 32.
    split; [apply Z.div_pos; lia|apply Z.div_lt_upper_bound; lia].
  - change 31 with (Z.ones 5). rewrite Z.land_ones by lia. apply Z.mod_pos_bound. lia.
Qed.

Lemma encode_bytes hrp words : Forall (fun w => 0 <= w < 32) words -> exists sum,
  Forall (fun w => 0 <= w < 32) sum /\ length sum = 6%nat /\
  bytes_of (encode hrp words) = bytes_of hrp ++ 49 :: map char_of (words ++ sum) /\
  (Forall (fun b => 33 <= b <= 126) (bytes_of hrp) ->
   polymod (hrp_expand hrp ++ words ++ sum) = 1).
Proof.
  intros Hw. unfold encode.
  set (chk := Z.lxor (polymod (hrp_expand hrp ++ words ++ [0; 0; 0; 0; 0; 0])) 1).
  exists (checksum chk). split; [apply checksum_words|]. split; [done|]. split.
  - rewrite !bytes_of_app. rewrite bytes_of_back; [done|].
    apply Forall_map, Forall_app. split; [|eapply Forall_impl; [apply checksum_words|]];
      [eapply Forall_impl; [exact Hw|]|]; intros w [_ H]%char_range; cbn beta; lia.
  - intros Hh. rewrite app_assoc. unfold chk. rewrite app_assoc. apply checksum_checks.
    apply Forall_app; split; [by apply hrp_expand_words|done].
Qed.

Lemma decode_encode hrp words : hrp_ok hrp -> Forall (fun w => 0 <= w < 32) words ->
  decode (encode hrp words) = Some (hrp, words).
Proof.
  intros [Hne Hh] Hw. destruct (encode_bytes hrp words Hw) as (sum & Hs & Hlen & Hb & Hp).
  assert (Hws : Forall (fun w => 0 <= w < 32) (words ++ sum)) by by apply Forall_app.
  unfold decode. rewrite Hb, rsplit_one_last.
  2: { intros Hin. apply list_elem_of_fmap in Hin as (w & Heq & Hin).
       rewrite Forall_forall in Hws. destruct (char_range w (Hws w Hin)) as [H _]. congruence. }
  rewrite length_map, length_app, Hlen.
  assert ((match bytes_of hrp with [] => true | _ => false end) = false) as ->
    by (destruct hrp; [done|done]).
  rewrite (proj2 (Z.ltb_ge _ 6)) by lia. cbn [orb].
  assert (forallb (fun b => (33 <=? b) && (b <=? 126)) (bytes_of hrp) = true) as ->.
  { apply forallb_elem. intros b Hin. rewrite Forall_forall in Hh. specialize (Hh b Hin).
    apply andb_true_iff. split; apply Z.leb_le; lia. }
  cbn [negb]. rewrite all_some_map.
  2: { eapply Forall_impl; [exact Hws|]. intros w. apply char_position. }
  rewrite str_of_bytes_of, Hp by done. cbn [Z.eqb Pos.eqb negb].
  rewrite length_app, Hlen, Nat.add_sub, take_app_length. done.
Qed.
End Checksum.

(** ** Words and bytes, as numbers *)
Section Digits.

(** The number a list of base-[b] digits writes, most significant first. *)
Definition value (b : Z) (l : list Z) : Z := foldl (fun a d => a * b + d) 0 l.
Definition below (b : Z) (l : list Z) : Prop := Forall (fun d => 0 <= d < b) l.

Lemma value_from b a l : foldl (fun a d => a * b + d) a l = a * b ^ Z.of_nat (length l) + value b l.
Proof.
  unfold value. revert a. induction l as [|d l IH]; intros a; cbn [foldl length]; [lia|].
  rewrite IH, (IH (0 * b + d)). rewrite Nat2Z.inj_succ, Z.pow_succ_r by lia. lia.
Qed.
Lemma value_cons b d l : value b (d :: l) = d * b ^ Z.of_nat (length l) + value b l.
Proof. unfold value at 1. cbn [foldl]. by rewrite value_from. Qed.
Lemma value_app b l1 l2 : value b (l1 ++ l2) = value b l1 * b ^ Z.of_nat (length l2) + value b l2.
Proof. unfold value at 1. rewrite foldl_app. apply value_from. Qed.
Lemma value_bound b l : 0 < b -> below b l -> 0 <= value b l < b ^ Z.of_nat (length l).
Proof.
  intros Hb. induction 1 as [|d l Hd Hl IH]; [done|]. rewrite value_cons. cbn [length].
  rewrite Nat2Z.inj_succ, Z.pow_succ_r by lia. nia.
Qed.
Lemma value_inj b l1 l2 : 0 < b -> below b l1 -> below b l2 -> length l1 = length l2 ->
  value b l1 = value b l2 -> l1 = l2.
Proof.
  intros Hb H1. revert l2. induction H1 as [|d l1 Hd Hl IH]; intros [|e l2] H2 Hlen Hv; try done.
  apply Forall_cons in H2 as [He H2]. injection Hlen as Hlen. rewrite !value_cons, Hlen in Hv.
  pose proof (value_bound b l1 Hb Hl) as B1. pose proof (value_bound b l2 Hb H2) as B2.
  rewrite Hlen in B1. assert (d = e) as -> by nia. f_equal. apply IH; [done..|lia].
Qed.

(** Dropping the top bits of [acc]: what both loops keep between turns. *)
Lemma keep_low acc k : 0 <= k -> Z.land acc (Z.shiftl 1 k - 1) = acc mod 2 ^ k.
Proof.
  intros Hk. rewrite Z.shiftl_mul_pow2, Z.mul_1_l by lia.
  replace (2 ^ k - 1) with (Z.ones k) by (rewrite Z.ones_equiv; lia). by apply Z.land_ones.
Qed.
Lemma top_digit acc k n : 0 <= k -> 0 <= n -> 0 <= acc < 2 ^ (k + n) ->
  Z.land (Z.shiftr acc k) (2 ^ n - 1) = acc / 2 ^ k /\ 0 <= acc / 2 ^ k < 2 ^ n.
Proof.
  intros Hk Hn Ha. assert (Hq : 0 <= acc / 2 ^ k < 2 ^ n).
  { split; [apply Z.div_pos; lia|]. apply Z.div_lt_upper_bound; [lia|].
    rewrite <- Z.pow_add_r by lia. lia. }
  split; [|done]. replace (2 ^ n - 1) with (Z.ones n) by (rewrite Z.ones_equiv; lia).
  rewrite Z.land_ones, Z.shiftr_div_pow2 by lia. by apply Z.mod_small.
Qed.

Lemma pow32 m : 0 <= m -> 32 ^ m = 2 ^ (5 * m).
Proof. intros Hm. by rewrite Z.pow_mul_r. Qed.
Lemma pow256 m : 0 <= m -> 256 ^ m = 2 ^ (8 * m).
Proof. intros Hm. by rewrite Z.pow_mul_r. Qed.

(** [to_bytes]'s loop: the whole bytes of the number it is given. *)
Lemma to_bytes_go_spec words acc bits :
  0 <= bits < 8 -> 0 <= acc < 2 ^ bits -> below 32 words ->
  let total := bits + 5 * Z.of_nat (length words) in
  let out := to_bytes_go acc bits words in
  Z.of_nat (length out) = total / 8 /\ below 256 out /\
  value 256 out = (acc * 2 ^ (5 * Z.of_nat (length words)) + value 32 words) / 2 ^ (total mod 8).
Proof.
  intros Hb Ha Hw. revert acc bits Hb Ha.
  induction Hw as [|w words Hw Hws IH]; intros acc bits Hb Ha; cbn [length to_bytes_go].
  - rewrite Z.mul_0_r, Z.add_0_r. cbn [length]. rewrite Z.div_small, Z.mod_small by lia.
    split; [done|]. split; [constructor|]. change (value 32 []) with 0. change (value 256 []) with 0.
    rewrite Z.div_small; lia.
  - rewrite (push_low acc w 5) by (change (2 ^ 5) with 32; lia). change (2 ^ 5) with 32.
    rewrite Nat2Z.inj_succ. set (m := Z.of_nat (length words)) in *. assert (Hm : 0 <= m) by lia.
    assert (Hacc : 0 <= acc * 32 + w < 2 ^ (bits + 5)).
    { rewrite Z.pow_add_r by lia. change (2 ^ 5) with 32. nia. }
    assert (Hval : acc * 2 ^ (5 * Z.succ m) + value 32 (w :: words)
      = (acc * 32 + w) * 2 ^ (5 * m) + value 32 words).
    { rewrite value_cons. fold m. rewrite pow32 by lia.
      replace (5 * Z.succ m) with (5 + 5 * m) by lia. rewrite Z.pow_add_r by lia.
      change (2 ^ 5) with 32. lia. }
    rewrite Hval. replace (bits + 5 * Z.succ m) with (bits + 5 + 5 * m) by lia.
    set (a := acc * 32 + w) in *. clearbody a. clear Hval.
    destruct (8 <=? bits + 5) eqn:E; bools; [|apply IH; lia].
    set (k := bits + 5 - 8) in *.
    destruct (top_digit a k 8 ltac:(lia) ltac:(lia)) as [Htop Hq].
    { replace (k + 8) with (bits + 5) by lia. done. }
    change (2 ^ 8 - 1) with 255 in Htop. rewrite Htop, keep_low by lia.
    destruct (IH (a mod 2 ^ k) k ltac:(lia)) as (Hl & Hbel & Hv).
    { apply Z.mod_pos_bound. lia. }
    assert (Hdiv : (bits + 5 + 5 * m) / 8 = (k + 5 * m) / 8 + 1).
    { replace (bits + 5 + 5 * m) with (k + 5 * m + 1 * 8) by lia. by rewrite Z.div_add. }
    assert (Hmod : (bits + 5 + 5 * m) mod 8 = (k + 5 * m) mod 8).
    { replace (bits + 5 + 5 * m) with (k + 5 * m + 1 * 8) by lia. by rewrite Z.mod_add. }
    rewrite Hdiv, Hmod. cbn [length]. rewrite Nat2Z.inj_succ, Hl. split; [lia|].
    split; [by constructor|]. rewrite value_cons, Hl, Hv.
    set (r := (k + 5 * m) mod 8). set (q := (k + 5 * m) / 8).
    assert (Hqr : k + 5 * m = 8 * q + r) by (unfold q, r; by apply Z.div_mod).
    assert (Hr : 0 <= r < 8) by (by apply Z.mod_pos_bound).
    assert (H0q : 0 <= q) by (apply Z.div_pos; lia).
    rewrite pow256 by lia. pose proof (Z.div_mod a (2 ^ k) ltac:(lia)) as Ha2.
    assert (Hpow : 2 ^ k * 2 ^ (5 * m) = 2 ^ (8 * q) * 2 ^ r)
      by (rewrite <- !Z.pow_add_r by lia; f_equal; lia).
    assert (Hsplit : a * 2 ^ (5 * m) + value 32 words
      = a mod 2 ^ k * 2 ^ (5 * m) + value 32 words + a / 2 ^ k * 2 ^ (8 * q) * 2 ^ r).
    { rewrite <- !Z.mul_assoc, <- Hpow. rewrite Ha2 at 1. ring. }
    rewrite Hsplit, Z.div_add by lia. lia.
Qed.

(** The inner loop: the words of the low [bits] of [acc]. *)
Lemma emit_words_spec f acc bits : 0 <= bits < 5 * (Z.of_nat f + 1) ->
  let '(out, b) := emit_words f acc bits in
  b = bits mod 5 /\ Z.of_nat (length out) = bits / 5 /\ below 32 out /\
  value 32 out = acc mod 2 ^ bits / 2 ^ (bits mod 5).
Proof.
  revert bits. induction f as [|f IH]; intros bits Hb; cbn [emit_words].
  - rewrite Z.mod_small, Z.div_small by lia. split; [done|]. split; [done|]. split; [constructor|].
    change (value 32 []) with 0. rewrite Z.div_small; [done|]. apply Z.mod_pos_bound. lia.
  - destruct (5 <=? bits) eqn:E; bools.
    + specialize (IH (bits - 5) ltac:(lia)). destruct (emit_words f acc (bits - 5)) as [out b].
      destruct IH as (-> & Hl & Hbel & Hv).
      assert (Hm : bits mod 5 = (bits - 5) mod 5).
      { replace bits with (bits - 5 + 1 * 5) at 1 by lia. by rewrite Z.mod_add. }
      assert (Hd : bits / 5 = (bits - 5) / 5 + 1).
      { replace bits with (bits - 5 + 1 * 5) at 1 by lia. by rewrite Z.div_add. }
      rewrite Hm. split; [done|]. cbn [length]. rewrite Nat2Z.inj_succ, Hl. split; [lia|].
      set (k := bits - 5) in *. rewrite word_of by lia.
      split; [constructor; [apply Z.mod_pos_bound; lia|done]|].
      rewrite value_cons, Hl, Hv, pow32 by (apply Z.div_pos; lia).
      replace bits with (k + 5) by lia. rewrite Z.pow_add_r by lia. change (2 ^ 5) with 32.
      rewrite Z.rem_mul_r by lia. set (q := k / 5). set (r := k mod 5).
      assert (Hqr : k = 5 * q + r) by (unfold q, r; by apply Z.div_mod).
      assert (Hr : 0 <= r < 5) by (by apply Z.mod_pos_bound).
      assert (H0q : 0 <= q) by (apply Z.div_pos; lia).
      assert (Hpow : 2 ^ k = 2 ^ (5 * q) * 2 ^ r) by (rewrite <- Z.pow_add_r by lia; f_equal; lia).
      replace (acc mod 2 ^ k + 2 ^ k * ((acc / 2 ^ k) mod 32))
        with (acc mod 2 ^ k + (acc / 2 ^ k) mod 32 * 2 ^ (5 * q) * 2 ^ r)
        by (rewrite <- (Z.mul_assoc _ (2 ^ (5 * q))), <- Hpow; ring).
      rewrite Z.div_add by lia. lia.
    + rewrite Z.mod_small, Z.div_small by lia. split; [done|]. split; [done|].
      split; [constructor|]. change (value 32 []) with 0. rewrite Z.div_small; [done|].
      apply Z.mod_pos_bound. lia.
Qed.

(** [to_words]'s loop: the number it is given, padded to whole words. *)
Definition padding (total : Z) : Z := (5 - total mod 5) mod 5.
Lemma to_words_go_spec bytes acc bits :
  0 <= bits < 5 -> 0 <= acc < 2 ^ bits -> below 256 bytes ->
  let total := bits + 8 * Z.of_nat (length bytes) in
  let out := to_words_go acc bits bytes in
  5 * Z.of_nat (length out) = total + padding total /\ below 32 out /\
  value 32 out = (acc * 2 ^ (8 * Z.of_nat (length bytes)) + value 256 bytes) * 2 ^ padding total.
Proof.
  intros Hb Ha Hw. revert acc bits Hb Ha.
  induction Hw as [|w bytes Hw Hws IH]; intros acc bits Hb Ha; cbn [length to_words_go].
  - rewrite Z.mul_0_r, Z.add_0_r. change (value 256 []) with 0. unfold padding.
    rewrite (Z.mod_small bits 5) by lia. destruct (0 <? bits) eqn:E; bools.
    + rewrite (Z.mod_small (5 - bits)) by lia. split; [cbn [length]; lia|].
      assert (Hx : Z.land (Z.shiftl acc (5 - bits)) 31 = acc * 2 ^ (5 - bits) /\
        0 <= acc * 2 ^ (5 - bits) < 32).
      { assert (0 <= acc * 2 ^ (5 - bits) < 32).
        { assert (H32 : 2 ^ bits * 2 ^ (5 - bits) = 32).
          { rewrite <- Z.pow_add_r by lia. by replace (bits + (5 - bits)) with 5 by lia. }
          nia. }
        split; [|done]. change 31 with (Z.ones 5). rewrite Z.land_ones, Z.shiftl_mul_pow2 by lia.
        by apply Z.mod_small. }
      destruct Hx as [Hx Hlt]. split; [constructor; [lia|constructor]|].
      unfold value. cbn [foldl]. rewrite Hx. lia.
    + assert (bits = 0) as -> by lia. change (2 ^ 0) with 1 in Ha. assert (acc = 0) as -> by lia.
      split; [done|]. split; [constructor|done].
  - rewrite (push_low acc w 8) by (change (2 ^ 8) with 256; lia). change (2 ^ 8) with 256.
    rewrite Nat2Z.inj_succ. set (m := Z.of_nat (length bytes)) in *. assert (Hm : 0 <= m) by lia.
    assert (Hacc : 0 <= acc * 256 + w < 2 ^ (bits + 8)).
    { rewrite Z.pow_add_r by lia. change (2 ^ 8) with 256. nia. }
    assert (Hval : acc * 2 ^ (8 * Z.succ m) + value 256 (w :: bytes)
      = (acc * 256 + w) * 2 ^ (8 * m) + value 256 bytes).
    { rewrite value_cons. fold m. rewrite pow256 by lia.
      replace (8 * Z.succ m) with (8 + 8 * m) by lia. rewrite Z.pow_add_r by lia.
      change (2 ^ 8) with 256. lia. }
    rewrite Hval. replace (bits + 8 * Z.succ m) with (bits + 8 + 8 * m) by lia.
    set (a := acc * 256 + w) in *. clearbody a. clear Hval.
    pose proof (emit_words_spec 3 a (bits + 8) ltac:(lia)) as He.
    destruct (emit_words 3 a (bits + 8)) as [out b]. destruct He as (-> & Hl & Hbel & Hv).
    rewrite keep_low by (apply Z.mod_pos_bound; lia).
    set (r := (bits + 8) mod 5) in *. assert (Hr : 0 <= r < 5) by (by apply Z.mod_pos_bound).
    destruct (IH (a mod 2 ^ r) r ltac:(lia)) as (Hl2 & Hb2 & Hv2); [apply Z.mod_pos_bound; lia|].
    set (q := (bits + 8) / 5) in *.
    assert (Hqr : bits + 8 = 5 * q + r) by (unfold q, r; by apply Z.div_mod).
    assert (Hpad : padding (bits + 8 + 8 * m) = padding (r + 8 * m)).
    { unfold padding. replace (bits + 8 + 8 * m) with (r + 8 * m + q * 5) by lia.
      by rewrite Z.mod_add. }
    rewrite Hpad. rewrite length_app, Nat2Z.inj_add, Hl. split; [lia|].
    split; [by apply Forall_app|]. rewrite value_app, Hv, Hv2.
    rewrite (Z.mod_small a) by lia. rewrite pow32 by lia. rewrite Hl2.
    rewrite (Z.pow_add_r 2 (r + 8 * m)) by (try lia; apply Z.mod_pos_bound; lia).
    rewrite (Z.pow_add_r 2 r) by lia. pose proof (Z.div_mod a (2 ^ r) ltac:(lia)) as Ha2.
    rewrite Ha2 at 3. ring.
Qed.

(** Bytes survive their trip through words. *)
Lemma to_bytes_to_words bytes : below 256 bytes ->
  to_bytes (to_words bytes) = bytes /\ below 32 (to_words bytes).
Proof.
  intros Hb. unfold to_bytes, to_words.
  destruct (to_words_go_spec bytes 0 0 ltac:(lia) ltac:(lia) Hb) as (Hl & Hw & Hv).
  set (ws := to_words_go 0 0 bytes) in *. split; [|done].
  destruct (to_bytes_go_spec ws 0 0 ltac:(lia) ltac:(lia) Hw) as (Hl2 & Hb2 & Hv2).
  set (n := Z.of_nat (length bytes)) in *. set (p := padding _) in *.
  assert (Hp : 0 <= p < 5) by (apply Z.mod_pos_bound; lia). rewrite Hl in Hl2, Hv2.
  assert (Hd : (0 + (0 + 8 * n + p)) / 8 = n).
  { replace (0 + (0 + 8 * n + p)) with (p + n * 8) by lia. rewrite Z.div_add, Z.div_small by lia. lia. }
  assert (Hm : (0 + (0 + 8 * n + p)) mod 8 = p).
  { replace (0 + (0 + 8 * n + p)) with (p + n * 8) by lia. rewrite Z.mod_add, Z.mod_small; lia. }
  rewrite Hd in Hl2. rewrite Hm, Hv, Z.mul_0_l, Z.add_0_l, Z.mul_0_l, Z.add_0_l in Hv2.
  rewrite Z.div_mul in Hv2 by lia.
  apply (value_inj 256); [lia|done|done| |done]. apply Nat2Z.inj. exact Hl2.
Qed.
End Digits.

(** ** LNURL *)
Section Lnurl.

Lemma all_bytes_map_bytes (p : ascii -> bool) f s :
  all_bytes p (map_bytes f s) = all_bytes (fun c => p (f c)) s.
Proof. induction s as [|c s IH]; [done|]. cbn. by rewrite IH. Qed.

(** Lower-case letters and digits: all a bech32 string of a lower-case prefix
    is made of. *)
Definition plain (c : ascii) : bool := is_lower c || is_digit c.

Lemma plain_chars c : plain c = true ->
  is_whitespace (String c "") = false /\ is_cont c = false /\
  (let u := if is_lower c then ascii_of_Z (byte_of c - 32) else c in
   (if is_upper u then ascii_of_Z (byte_of u + 32) else u) = c) /\
  (let u := if is_lower c then ascii_of_Z (byte_of c - 32) else c in
   is_whitespace (String u "") = false /\ is_cont u = false).
Proof. by destruct c as [[] [] [] [] [] [] [] []]. Qed.

Lemma upper_lower s : all_bytes plain s = true -> to_ascii_lowercase (to_ascii_uppercase s) = s.
Proof.
  induction s as [|c s IH]; intros H; [done|]. cbn in H. bools.
  unfold to_ascii_lowercase, to_ascii_uppercase in *. cbn [map_bytes]. rewrite IH by done. f_equal.
  by apply plain_chars.
Qed.

(** A string of one-byte characters that are not white space. *)
Lemma chars_single s : all_bytes (fun c => negb (is_cont c)) s = true ->
  chars s = map (fun c => String c "") (String.list_ascii_of_string s).
Proof.
  induction s as [|c s IH]; intros H; [done|]. cbn in H. bools. cbn [chars String.list_ascii_of_string map].
  rewrite IH by done. destruct s as [|d s]; [done|]. cbn [String.list_ascii_of_string map].
  cbn in H0. bools. by rewrite H0.
Qed.
Lemma drop_while_none {A} (p : A -> bool) l : forallb (fun x => negb (p x)) l = true -> drop_while p l = l.
Proof. destruct l as [|x l]; [done|]. cbn. intros H. bools. by rewrite H. Qed.
Lemma trim_none s : all_bytes (fun c => negb (is_cont c) && negb (is_whitespace (String c ""))) s = true ->
  trim s = s.
Proof.
  intros H. assert (all_bytes (fun c => negb (is_cont c)) s = true /\
    forallb (fun ch => negb (is_whitespace ch)) (chars s) = true) as [Hc Hw].
  { assert (Hc : all_bytes (fun c => negb (is_cont c)) s = true).
    { eapply all_bytes_impl; [|exact H]. intros c Hc. by apply andb_prop in Hc as [? _]. }
    split; [done|]. rewrite chars_single by done. clear Hc.
    induction s as [|c s IH]; [done|]. cbn [all_bytes map forallb String.list_ascii_of_string] in *.
    apply andb_prop in H as [H Hs]. apply andb_prop in H as [_ H]. rewrite H. by apply IH. }
  unfold trim. rewrite (drop_while_none is_whitespace (chars s)) by done. rewrite drop_while_none.
  - by rewrite rev_involutive, concat_chars.
  - rewrite forallb_elem in *. intros x Hx. apply Hw. by rewrite list_elem_of_In, in_rev, <- list_elem_of_In.
Qed.

Lemma encode_plain hrp words : all_bytes plain hrp = true -> Forall (fun w => 0 <= w < 32) words ->
  all_bytes plain (Bech32.encode hrp words) = true.
Proof.
  intros Hh Hw. unfold Bech32.encode. rewrite !all_bytes_app, Hh. cbn [all_bytes].
  change (plain "1"%char && true) with true. rewrite !andb_true_l.
  set (l := words ++ _). assert (Hl : Forall (fun w => 0 <= w < 32) l).
  { apply Forall_app; split; [done|apply checksum_words]. }
  clearbody l. induction Hl as [|w l Hw' _ IH]; [done|].
  unfold str_of_bytes in *. cbn [map foldr all_bytes]. rewrite IH, andb_true_r.
  destruct (char_range w Hw') as [_ Hr]. unfold plain, is_lower, is_digit.
  rewrite byte_of_ascii by lia. apply orb_true_iff.
  destruct Hr; [right|left]; apply andb_true_iff; split; apply Z.leb_le; lia.
Qed.

(** The codecs a zap goes through lose nothing: bech32 decodes to the
    prefix and words it encoded, bytes come back from 5-bit words, and an LNURL
    decodes to the URL it was made of. *)
Theorem codecs_round_trip hrp words bytes url :
  hrp_ok hrp -> Forall (fun w => 0 <= w < 32) words -> below 256 bytes ->
  utf8_valid (bytes_of url) = true ->
  Bech32.decode (Bech32.encode hrp words) = Some (hrp, words) /\
  to_bytes (to_words bytes) = bytes /\
  lnurl_decode (lnurl_encode url) = Some url.
Proof.
  intros Hh Hw Hb Hu. split; [by apply decode_encode|]. split; [by apply to_bytes_to_words|].
  destruct (to_bytes_to_words (bytes_of url) (bytes_of_bound url)) as [Hback Hwords].
  unfold lnurl_decode, lnurl_encode.
  assert (Hp : all_bytes plain (Bech32.encode "lnurl" (to_words (bytes_of url))) = true)
    by by apply encode_plain.
  rewrite trim_none.
  - rewrite upper_lower, decode_encode; [|split; [done|]|done|done].
    + rewrite bool_decide_true, Hback by done. unfold from_utf8. by rewrite Hu, str_of_bytes_of.
    + repeat constructor; vm_compute; done.
  - unfold to_ascii_uppercase. rewrite all_bytes_map_bytes. eapply all_bytes_impl; [|exact Hp].
    intros c Hc. destruct (plain_chars c Hc) as (_ & _ & _ & Hws & Hct). by rewrite Hws, Hct.
Qed.
End Lnurl.

(** ** Amounts *)
Section Amounts.

Lemma digits_all f n acc : 0 <= n -> all_bytes is_digit acc = true ->
  all_bytes is_digit (digits f n acc) = true.
Proof.
  revert n acc. induction f as [|f IH]; intros n acc Hn Ha; [done|]. cbn [digits].
  assert (Hd : all_bytes is_digit (String (digit_char (n mod 10)) acc) = true).
  { cbn [all_bytes]. destruct (digit_char_spec (n mod 10)) as [-> _]; [apply Z.mod_pos_bound; lia|done]. }
  destruct (n / 10 =? 0); [done|]. apply IH; [apply Z.div_pos; lia|done].
Qed.
Lemma digits_leading f n acc : 0 < n < 10 ^ Z.of_nat f ->
  starts_with_zero (digits f n acc) = false.
Proof.
  revert n acc. induction f as [|f IH]; intros n acc Hn; [change (10 ^ Z.of_nat 0) with 1 in Hn; lia|].
  cbn [digits]. destruct (n / 10 =? 0) eqn:E; bools.
  - assert (Hm : n mod 10 = n) by (pose proof (Z.div_mod n 10 ltac:(lia)); lia).
    pose proof (Z.mod_pos_bound n 10 ltac:(lia)). cbn [starts_with_zero]. apply bool_decide_eq_false.
    intros Hz. destruct (digit_char_spec (n mod 10) ltac:(lia)) as [_ Hb]. rewrite Hz in Hb.
    change (byte_of "0") with 48 in Hb. lia.
  - apply IH. split; [pose proof (Z.div_pos n 10); lia|].
    apply Z.div_lt_upper_bound; [lia|]. rewrite Nat2Z.inj_succ, Z.pow_succ_r in Hn by lia. lia.
Qed.
Lemma split_last_snoc s c : split_last (s +:+ String c "") = Some (s, c).
Proof.
  induction s as [|d s IH]; [done|]. change (String d s +:+ String c "") with (String d (s +:+ String c "")).
  cbn [split_last]. by rewrite IH.
Qed.
Lemma parse_shown n c : 0 < n <= U64_MAX -> is_mult c = true ->
  parse_amount (show_u n +:+ String c "") =
  if bool_decide (c = "m"%char) then checked_mul n 100000000
  else if bool_decide (c = "u"%char) then checked_mul n 100000
  else if bool_decide (c = "n"%char) then checked_mul n 100
  else if n mod 10 =? 0 then Some (n / 10) else None.
Proof.
  intros Hn Hc. unfold parse_amount. rewrite split_last_snoc, Hc, show_u_nonempty.
  unfold show_u at 1 2. rewrite digits_leading, digits_all by (done || unfold U64_MAX in *; lia).
  cbn [orb negb]. by rewrite parse_show_u by lia.
Qed.

(** An amount written as BOLT 11 writes it reads back as the same
    millisatoshis: every positive amount, up to where a tenth of a
    millisatoshi still fits in 64 bits if it is not a round one.  Zero is
    written as ["0m"], which does not read back. *)
Theorem amount_round_trip msat :
  0 < msat <= U64_MAX -> (msat mod 100 <> 0 -> msat * 10 <= U64_MAX) ->
  parse_amount (format_amount msat) = Some msat /\ parse_amount (format_amount 0) = None.
Proof.
  intros Hm Hp. split; [|done]. unfold format_amount.
  assert (Hmul : forall per, 0 < per -> msat mod per = 0 ->
    0 < msat / per <= U64_MAX /\ checked_mul (msat / per) per = Some msat).
  { intros per Hper H0. pose proof (Z.div_mod msat per ltac:(lia)) as Hdm. rewrite H0 in Hdm.
    unfold checked_mul. replace (msat / per * per) with msat by lia.
    rewrite (proj2 (Z.leb_le msat U64_MAX)) by lia. split; [nia|done]. }
  destruct (msat mod 100000000 =? 0) eqn:E1; bools.
  { destruct (Hmul 100000000 ltac:(lia) E1) as [Hr Hc]. by rewrite (parse_shown _ "m"). }
  destruct (msat mod 100000 =? 0) eqn:E2; bools.
  { destruct (Hmul 100000 ltac:(lia) E2) as [Hr Hc]. by rewrite (parse_shown _ "u"). }
  destruct (msat mod 100 =? 0) eqn:E3; bools.
  { destruct (Hmul 100 ltac:(lia) E3) as [Hr Hc]. by rewrite (parse_shown _ "n"). }
  specialize (Hp E3). rewrite Z.mod_small by (unfold U64_MAX in *; lia).
  rewrite (parse_shown _ "p") by (done || lia). cbn [bool_decide decide]. 
  rewrite !bool_decide_false by done. rewrite Z.mod_mul by lia. rewrite Z.eqb_refl.
  by rewrite Z.div_mul.
Qed.
End Amounts.

(** ** Receipts *)
Section Receipts.
Context {N : NostrTypes} {O : NostrOps}.

(** A zap that counts is backed by what it claims: a carrier in a channel
    is read as a zap only if it holds a receipt that verifies, whose own zap
    request verifies, whose invoice reads and asks for exactly the amount the
    request does, and which names the same recipient and the same message as
    its request and as the carrier does. *)
Theorem carried_sound e z :
  carried e = Ok z ->
  ev_kind e = ZAP_CARRIER /\
  exists receipt request invoice bolt11,
    ev_from_json (ev_content e) = Some receipt /\
    ev_kind receipt = ZAP_RECEIPT /\ ev_verify receipt = true /\
    z_receipt z = ev_id receipt /\ z_provider z = ev_pubkey receipt /\
    (exists d, single receipt "description" = Some d /\ ev_from_json d = Some request) /\
    ev_kind request = ZAP_REQUEST /\ ev_verify request = true /\
    (z_sender z = None \/ z_sender z = Some (ev_pubkey request)) /\
    single receipt "bolt11" = Some bolt11 /\ Invoice_decode bolt11 = Some invoice /\
    inv_amount_msat invoice = Some (z_amount_msat z) /\
    (exists a, single request "amount" = Some a /\ parse_u64 a = Some (z_amount_msat z)) /\
    single_pk request "p" = Some (z_recipient z) /\ single_pk receipt "p" = Some (z_recipient z) /\
    single_pk e "p" = Some (z_recipient z) /\
    single_id request "e" = Some (z_target z) /\ single_id receipt "e" = Some (z_target z) /\
    single_id e "e" = Some (z_target z).
Proof.
  unfold carried. intros H.
  destruct (Z.eqb_spec (ev_kind e) ZAP_CARRIER) as [Hk|]; [|done]. split; [done|].
  destruct (_ <=? MAX_RECEIPT_BYTES); [|done].
  destruct (ev_from_json (ev_content e)) as [receipt|] eqn:Er; cbn [ok_or] in H; [|done].
  destruct (check_receipt receipt) as [z'|] eqn:Ec; [|done].
  destruct (bool_decide _ && bool_decide _) eqn:Em; [|done]. injection H as ->. bools.
  unfold check_receipt in Ec.
  destruct (Z.eqb_spec (ev_kind receipt) ZAP_RECEIPT); [|done].
  destruct (ev_verify receipt) eqn:Ev; [|done].
  destruct (single receipt "description") as [d|] eqn:Ed; cbn [ok_or] in Ec; [|done].
  destruct (ev_from_json d) as [request|] eqn:Eq; cbn [ok_or] in Ec; [|done].
  destruct ((ev_kind request =? ZAP_REQUEST) && ev_verify request) eqn:Ek; [|done]. bools.
  destruct (single receipt "bolt11") as [b|] eqn:Eb; cbn [ok_or] in Ec; [|done].
  destruct (Invoice_decode b) as [inv|] eqn:Ei; cbn [ok_or] in Ec; [|done].
  destruct (single request "amount") as [a|] eqn:Ea; cbn [ok_or] in Ec; [|done].
  destruct (parse_u64 a) as [asked|] eqn:Eas; cbn [ok_or] in Ec; [|done].
  case_bool_decide as Eamt; [|done].
  destruct (single_pk request "p") as [p|] eqn:Ep; cbn [ok_or] in Ec; [|done].
  destruct (single_id request "e") as [t|] eqn:Et; cbn [ok_or] in Ec; [|done].
  destruct (bool_decide _ && bool_decide _) eqn:Em; [|done]. injection Ec as <-. bools.
  cbn in *. exists receipt, request, inv, b. split_and!; eauto.
  destruct (existsb _ _); [by left|by right].
Qed.
End Receipts.
