(* ===== verification/EventStore.v ===== *)
(** The event store ([Store] of crates/hit-store/src/lib.rs): the tables of its
    SQLite database, and what each of its statements does to them.

    A table is the list of its rows, oldest first.  A [DELETE] of an event
    cascades to its tags and attachments, as the schema declares; a
    transaction dropped before its commit changes nothing.  Statements without
    an [ORDER BY] answer in table order here; nothing depends on it. *)
From S2P Require Import Prelude Text Nostr GroupEvent Replace Binding Dm.

#[local] Open Scope Z_scope.

(** What [insert] did. *)
Module Stored.
Inductive Stored := New | Duplicate | Stale | Ephemeral.
#[export] Instance eq_dec : EqDecision Stored.
Proof. solve_decision. Defined.
End Stored.

Inductive StoreError := Corrupt.

(** [u64 as i64], and [i64::try_from(u64).unwrap_or(i64::MAX)]. *)
Definition as_i64 (n : Z) : Z := if n <=? I64_MAX then n else n - (U64_MAX + 1).
Definition to_i64 (n : Z) : Z := if n <=? I64_MAX then n else I64_MAX.
(** [u64::try_from(i64).unwrap_or(0)]. *)
Definition to_u64 (n : Z) : Z := if 0 <=? n then n else 0.
Definition sat_add (a b : Z) : Z := Z.min (a + b) U64_MAX.

Section Store.
Context {N : NostrTypes} {O : NostrOps}.

(** ** Tables (migrations/0001 to 0005) *)
Record Row := mkRow {
  w_id : EventId;
  w_pubkey : PublicKey;
  w_created_at : Z;
  w_kind : Kind;
  w_slot_d : option string;
  w_json : string;
  w_received_at : Z;
}.
Record Store := mkStore {
  t_events : list Row;
  t_tags : list (EventId * string * string);
  t_attachments : list (string * EventId * Z);
  t_groups : list (PublicKey * Z);
  (** By hash: last used, and whether it is ours (0 or 1). *)
  t_blob_use : gmap string (Z * Z);
  t_blob_grants : list (string * PublicKey);
}.
Definition empty_store : Store := mkStore [] [] [] [] ∅ [].

Definition parse (json : string) : result StoreError Event := ok_or (ev_from_json json) Corrupt.
(** [.iter().map(|j| parse(j)).collect()]. *)
Fixpoint parse_all (l : list string) : result StoreError (list Event) :=
  match l with
  | [] => Ok []
  | j :: t => let? e := parse j in let? es := parse_all t in Ok (e :: es)
  end.

(** [DELETE FROM events WHERE ..], and its cascade. *)
Definition delete_rows (p : Row -> bool) (s : Store) : Store :=
  let gone := map w_id (List.filter p (t_events s)) in
  mkStore (List.filter (fun r => negb (p r)) (t_events s))
    (List.filter (fun t => negb (bool_decide (t.1.1 ∈ gone))) (t_tags s))
    (List.filter (fun a => negb (bool_decide (a.1.2 ∈ gone))) (t_attachments s))
    (t_groups s) (t_blob_use s) (t_blob_grants s).
Definition delete_id (id : EventId) : Store -> Store :=
  delete_rows (fun r => bool_decide (w_id r = id)).

(** ** [insert] *)
Definition slot_d (e : Event) : option string :=
  match slot e with
  | Replaceable => Some ""%string
  | Addressable d => Some d
  | Regular | Ephemeral => None
  end.
Definition row_of (e : Event) (now : Timestamp) : Row :=
  mkRow (ev_id e) (ev_pubkey e) (as_i64 (ev_created_at e)) (ev_kind e) (slot_d e) (ev_as_json e)
    (as_i64 now).
Definition same_slot (r1 r2 : Row) : bool :=
  opt_bool (w_slot_d r2) && bool_decide (w_kind r1 = w_kind r2)
  && bool_decide (w_pubkey r1 = w_pubkey r2) && bool_decide (w_slot_d r1 = w_slot_d r2).
Definition files_of (e : Event) : list (string * EventId * Z) :=
  if ev_kind e =? CHAT_MESSAGE then
    match attachments_of e with
    | Ok files => map (fun a => (at_hash a, ev_id e, to_i64 (at_size a))) files
    | Err _ => []
    end
  else [].
Definition tags_of (e : Event) : list (EventId * string * string) :=
  filter_map (fun t => match t with
                       | name :: value :: _ =>
                           if str_len name =? 1 then Some (ev_id e, name, value) else None
                       | _ => None
                       end) (ev_tags e).

(** What becomes of the event in the slot: [inl], the store it is gone from
    (or the store, if there was none); [inr], an early answer. *)
Definition make_room (s : Store) (e : Event) (r : Row) : result StoreError (Store + Stored.Stored) :=
  match List.find (fun x => same_slot x r) (t_events s) with
  | None => Ok (inl s)
  | Some row =>
      let? current := parse (w_json row) in
      if bool_decide (ev_id current = ev_id e) then Ok (inr Stored.Duplicate)
      else if negb (replaces e current) then Ok (inr Stored.Stale)
      else Ok (inl (delete_id (ev_id current) s))
  end.
(** [INSERT OR IGNORE]: the primary key, and the slots' unique index. *)
Definition conflicts (s : Store) (r : Row) : bool :=
  existsb (fun x => bool_decide (w_id x = w_id r) || same_slot x r) (t_events s).

Definition insert (s : Store) (e : Event) (now : Timestamp)
    : result StoreError (Store * Stored.Stored) :=
  match slot e with
  | Ephemeral => Ok (s, Stored.Ephemeral)
  | _ =>
      let r := row_of e now in
      let? room := make_room s e r in
      match room with
      | inr answer => Ok (s, answer)
      | inl s1 =>
          if conflicts s1 r then Ok (s, Stored.Duplicate)
          else
            Ok (mkStore (t_events s1 ++ [r]) (t_tags s1 ++ tags_of e)
                  (t_attachments s1 ++ files_of e)
                  (t_groups s1) (t_blob_use s1) (t_blob_grants s1), Stored.New)
      end
  end.

(** ** Wraps kept for other people *)
Definition has_tag (s : Store) (id : EventId) (name value : string) : bool :=
  existsb (fun t => bool_decide (t = (id, name, value))) (t_tags s).

Definition expire_wraps (s : Store) (me : PublicKey) (before : Timestamp) : Store * Z :=
  let gone r := (w_kind r =? GIFT_WRAP) && (w_received_at r <? to_i64 before)
                && negb (has_tag s (w_id r) "p" (pk_to_hex me)) in
  (delete_rows gone s, Z.of_nat (length (List.filter gone (t_events s)))).

(** The [JOIN]: a row of the answer per tag row that matches. *)
Definition joined (s : Store) (name value : string) (r : Row) : list Row :=
  map (fun _ => r) (List.filter (fun t => bool_decide (t = (w_id r, name, value))) (t_tags s)).
(** [ORDER BY received_at DESC, created_at DESC]. *)
Definition later_first (a b : Row) : bool :=
  (w_received_at b <? w_received_at a)
  || ((w_received_at a =? w_received_at b) && (w_created_at b <=? w_created_at a)).
(** SQLite's [length] of a text counts its characters. *)
Definition row_size (r : Row) : Z := chars_count (w_json r).
Fixpoint over_cap (cap held : Z) (rows : list Row) : list EventId :=
  match rows with
  | [] => []
  | r :: t =>
      let held := sat_add held (row_size r) in
      if cap <? held then w_id r :: over_cap cap held t else over_cap cap held t
  end.
Definition wraps_to (s : Store) (to : PublicKey) : list Row :=
  isort later_first
    (flat_map (joined s "p" (pk_to_hex to))
       (List.filter (fun r => w_kind r =? GIFT_WRAP) (t_events s))).
Definition cap_wraps (s : Store) (to : PublicKey) (cap : Z) : Store * Z :=
  let drop := over_cap cap 0 (wraps_to s to) in
  (foldl (fun s id => delete_id id s) s drop, Z.of_nat (length drop)).

Definition count (s : Store) : Z := Z.of_nat (length (t_events s)).

(** ** Queries *)

(** [nostr::Filter]; [None] is a clause not given. *)
Record Filter := mkFilter {
  f_ids : option (gset EventId);
  f_authors : option (gset PublicKey);
  f_kinds : option (list Kind);
  f_search : option string;
  f_since : option Timestamp;
  f_until : option Timestamp;
  f_limit : option Z;
  f_tags : list (string * gset string);
}.
Definition no_filter : Filter := mkFilter None None None None None None None [].

(** [push_filter]: the condition its clauses make. *)
Definition filter_matches (s : Store) (f : Filter) (r : Row) : bool :=
  is_none_or (f_ids f) (fun ids => bool_decide (w_id r ∈ ids))
  && is_none_or (f_authors f) (fun a => bool_decide (w_pubkey r ∈ a))
  && is_none_or (f_kinds f) (kind_in (w_kind r))
  && is_none_or (f_since f) (fun t => as_i64 t <=? w_created_at r)
  && is_none_or (f_until f) (fun t => w_created_at r <=? as_i64 t)
  && forallb (fun '(name, values) =>
       existsb (fun t => bool_decide (t.1 = (w_id r, name)) && bool_decide (t.2 ∈ values))
         (t_tags s)) (f_tags f).
(** [ORDER BY created_at DESC, id]. *)
Definition newest_first (a b : Row) : bool :=
  (w_created_at b <? w_created_at a)
  || ((w_created_at a =? w_created_at b) && id_leb (w_id a) (w_id b)).
Definition limited {A} (limit : option Z) (l : list A) : list A :=
  match limit with Some n => take (Z.to_nat (to_i64 n)) l | None => l end.
Definition query (s : Store) (f : Filter) : result StoreError (list Event) :=
  match f_search f with
  | Some _ => Ok []
  | None =>
      parse_all (map w_json (limited (f_limit f)
        (isort newest_first (List.filter (filter_matches s f) (t_events s)))))
  end.
Definition id_times (s : Store) (f : Filter) : list (Z * EventId) :=
  match f_search f with
  | Some _ => []
  | None => map (fun r => (to_u64 (w_created_at r), w_id r))
              (List.filter (filter_matches s f) (t_events s))
  end.
Definition by_ids (s : Store) (ids : list EventId) : result StoreError (list Event) :=
  match ids with
  | [] => Ok []
  | _ => query s (mkFilter (Some (list_to_set ids)) None None None None None None [])
  end.

(** ** Groups carried *)
Definition carry_group (s : Store) (group : PublicKey) (at_ : Timestamp) : Store :=
  if existsb (fun g => bool_decide (g.1 = group)) (t_groups s) then s
  else mkStore (t_events s) (t_tags s) (t_attachments s) (t_groups s ++ [(group, as_i64 at_)])
         (t_blob_use s) (t_blob_grants s).
Definition carried_groups (s : Store) : list PublicKey :=
  map fst (isort (fun a b => (a.2 <? b.2) || ((a.2 =? b.2) && pk_leb a.1 b.1)) (t_groups s)).

(** ** Withdrawals and removals *)
Definition is_deleted (s : Store) (id : EventId) (author : PublicKey) : bool :=
  existsb (fun r => (w_kind r =? DELETION) && bool_decide (w_pubkey r = author)
                    && has_tag s (w_id r) "e" (id_to_hex id)) (t_events s).
Definition naming (s : Store) (id : EventId) (kind : Kind) : result StoreError (list Event) :=
  parse_all (map w_json (flat_map (joined s "e" (id_to_hex id))
    (List.filter (fun r => w_kind r =? kind) (t_events s)))).
Definition remove (s : Store) (ids : list EventId) : Store := foldl (fun s id => delete_id id s) s ids.
Definition authored_in (s : Store) (group author : PublicKey) (kinds : list Kind)
    (from : Timestamp) (until : option Timestamp) : result StoreError (list EventId) :=
  let f u := mkFilter None (Some {[author]}) (Some kinds) None (Some from) u None
               [("h"%string, {[pk_to_hex group]})] in
  let ids u := let? es := query s (f u) in Ok (map ev_id es) in
  match until with
  | Some u => if u <=? from then Ok [] else ids (Some (u - 1))
  | None => ids None
  end.
(** One target of [apply_deletion]'s loop. *)
Definition withdraw (kinds : list Kind) (author : PublicKey) (acc : Store * list EventId)
    (t : EventId) : Store * list EventId :=
  let '(s, gone) := acc in
  match List.find (fun r => bool_decide (w_id r = t)) (t_events s) with
  | Some r =>
      if bool_decide (w_pubkey r = author) && kind_in (w_kind r) kinds
      then (delete_id t s, gone ++ [t]) else (s, gone)
  | None => (s, gone)
  end.
Definition apply_deletion (s : Store) (deletion : Event) (kinds : list Kind)
    : Store * list EventId :=
  foldl (withdraw kinds (ev_pubkey deletion)) (s, []) (targets_of deletion).

(** ** Files *)
Definition carrying (s : Store) (hash : string) : result StoreError (list Event) :=
  parse_all (flat_map (fun a =>
      if bool_decide (a.1.1 = hash)
      then map w_json (List.filter (fun r => bool_decide (w_id r = a.1.2)) (t_events s)) else [])
    (t_attachments s)).
Definition attached (s : Store) : list (string * Z) :=
  remove_dups (map (fun a => (a.1.1, to_u64 a.2)) (t_attachments s)).
Definition touch_blob (s : Store) (hash : string) (mine : bool) (now : Timestamp) : Store :=
  let m := if mine then 1 else 0 in
  mkStore (t_events s) (t_tags s) (t_attachments s) (t_groups s)
    (<[hash := (as_i64 now, match t_blob_use s !! hash with
                            | Some (_, old) => Z.max old m
                            | None => m
                            end)]> (t_blob_use s)) (t_blob_grants s).

(** A row of [blobs_to_keep]'s [SELECT]. *)
Record Blob := mkBlob { bl_hash : string; bl_size : Z; bl_mine : Z; bl_last_used : Z }.
Definition blob_of (s : Store) (hash : string) : Blob :=
  mkBlob hash
    (opt_get 0 (head (isort (fun a b => b <=? a)
      (map snd (List.filter (fun a => bool_decide (a.1.1 = hash)) (t_attachments s))))))
    (match t_blob_use s !! hash with Some (_, mine) => mine | None => 0 end)
    (match t_blob_use s !! hash with Some (used, _) => used | None => 0 end).
Definition blob_leb (a b : Blob) : bool :=
  (bl_mine b <? bl_mine a)
  || ((bl_mine a =? bl_mine b) && (bl_last_used b <=? bl_last_used a)).
Definition blob_rows (s : Store) : list Blob :=
  isort blob_leb (map (blob_of s) (remove_dups (map (fun a => a.1.1) (t_attachments s)))).
Definition blob_size (b : Blob) : Z := if 0 <=? bl_size b then bl_size b else U64_MAX.
Fixpoint keep_blobs (cap used : Z) (rows : list Blob) : list string :=
  match rows with
  | [] => []
  | r :: t =>
      if negb (bl_mine r =? 0) || (sat_add used (blob_size r) <=? cap)
      then bl_hash r :: keep_blobs cap (sat_add used (blob_size r)) t
      else keep_blobs cap used t
  end.
Definition blobs_to_keep (s : Store) (cap : Z) : list string := keep_blobs cap 0 (blob_rows s).
Definition mine_since (s : Store) (since : Timestamp) : list string :=
  map fst (List.filter (fun '(_, (used, mine)) => (mine =? 1) && (as_i64 since <=? used))
             (map_to_list (t_blob_use s))).
Definition grant_blob (s : Store) (hash : string) (person : PublicKey) : Store :=
  if bool_decide ((hash, person) ∈ t_blob_grants s) then s
  else mkStore (t_events s) (t_tags s) (t_attachments s) (t_groups s) (t_blob_use s)
         (t_blob_grants s ++ [(hash, person)]).
Definition granted (s : Store) (hash : string) : list PublicKey :=
  map snd (List.filter (fun g => bool_decide (g.1 = hash)) (t_blob_grants s)).
Definition granted_hashes (s : Store) : list string := remove_dups (map fst (t_blob_grants s)).

End Store.
