(* ===== verification/StoreSpec.v ===== *)
(** What the event store keeps: its consistency ([store_wf]), one event per
    slot whatever order events arrive in, what a query answers, what the two
    expiries and the blob collector leave. *)
From S2P Require Import Prelude Text Nostr GroupEvent Replace Binding Dm EventStore.

#[local] Open Scope Z_scope.

Section StoreSpec.
Context {N : NostrTypes} {O : NostrOps} {L : NostrLaws}.

(** What [serde_json] does with an event. *)
Class JsonLaws : Prop := { json_round_trip e : ev_from_json (ev_as_json e) = Some e }.
Context {J : JsonLaws}.

(** ** Consistency *)
Definition event_of (r : Row) : option Event := ev_from_json (w_json r).
Definition holds (s : Store) (e : Event) : Prop := exists r, r ∈ t_events s /\ event_of r = Some e.
Definition row_tags (r : Row) : list (EventId * string * string) :=
  match event_of r with Some e => tags_of e | None => [] end.
Definition row_files (r : Row) : list (string * EventId * Z) :=
  match event_of r with Some e => files_of e | None => [] end.

(** Every row is its event's, ids and slots hold one event each, and the tag
    and file indexes are those of the events held. *)
Record store_wf (s : Store) : Prop := {
  sw_rows r : r ∈ t_events s -> exists e now,
    r = row_of e now /\ slot e <> Ephemeral;
  sw_ids : NoDup (map w_id (t_events s));
  sw_slots r1 r2 : r1 ∈ t_events s -> r2 ∈ t_events s -> same_slot r1 r2 = true -> r1 = r2;
  sw_tags : t_tags s = flat_map row_tags (t_events s);
  sw_files : t_attachments s = flat_map row_files (t_events s);
}.

Lemma event_of_row e now : event_of (row_of e now) = Some e.
Proof. apply json_round_trip. Qed.
Lemma row_tags_of e now : row_tags (row_of e now) = tags_of e.
Proof. unfold row_tags. by rewrite event_of_row. Qed.
Lemma row_files_of e now : row_files (row_of e now) = files_of e.
Proof. unfold row_files. by rewrite event_of_row. Qed.
Lemma tags_of_id e t : t ∈ tags_of e -> t.1.1 = ev_id e.
Proof.
  unfold tags_of, filter_map. rewrite list_elem_of_omap. intros ([|n [|v l]] & _ & H); try done.
  destruct (str_len n =? 1); [|done]. by injection H as <-.
Qed.
Lemma files_of_id e a : a ∈ files_of e -> a.1.2 = ev_id e.
Proof.
  unfold files_of. destruct (_ =? _), (attachments_of e); try (intros H; by apply not_elem_of_nil in H).
  intros (x & -> & _)%list_elem_of_fmap. done.
Qed.

Lemma same_slot_key e1 t1 e2 t2 : same_slot (row_of e1 t1) (row_of e2 t2) = true <->
  is_Some (slot_d e2) /\ ev_kind e1 = ev_kind e2 /\ ev_pubkey e1 = ev_pubkey e2 /\
  slot_d e1 = slot_d e2.
Proof.
  unfold same_slot. cbn. rewrite !andb_true_iff, !bool_decide_eq_true.
  destruct (slot_d e2); cbn; [|naive_solver]. naive_solver.
Qed.

(** A filter commutes with the concatenation of what each row gives, if the
    filter decides by row. *)
Lemma flat_map_filter {A B} (f : A -> list B) (p : A -> bool) (q : B -> bool) l :
  (forall a b, a ∈ l -> b ∈ f a -> q b = p a) ->
  List.filter q (flat_map f l) = flat_map f (List.filter p l).
Proof.
  induction l as [|a l IH]; intros H; [done|]. cbn. rewrite List.filter_app, IH.
  - assert (Hq : List.filter q (f a) = if p a then f a else []).
    { assert (Ha : forall b, b ∈ f a -> q b = p a) by (intros b; apply H; left).
      revert Ha. generalize (f a). intros m. induction m as [|b m IHm]; intros Ha; cbn; [by destruct (p a)|].
      rewrite (Ha b) by left. rewrite IHm by (intros; apply Ha; by right). by destruct (p a). }
    rewrite Hq. by destruct (p a).
  - intros x b Hx. apply H. by right.
Qed.

Lemma row_unique s r1 r2 : store_wf s -> r1 ∈ t_events s -> r2 ∈ t_events s ->
  w_id r1 = w_id r2 -> r1 = r2.
Proof.
  intros Hw. pose proof (sw_ids _ Hw) as Hn. generalize dependent (t_events s). intros l.
  induction l as [|x l IH]; intros Hn H1 H2 E; [by apply not_elem_of_nil in H1|].
  cbn in Hn. apply NoDup_cons in Hn as [Hx Hn].
  apply elem_of_cons in H1 as [->|H1]; apply elem_of_cons in H2 as [->|H2]; try done; [| |auto].
  - destruct Hx. rewrite E. by apply list_elem_of_fmap_2.
  - destruct Hx. rewrite <- E. by apply list_elem_of_fmap_2.
Qed.

Lemma filter_nodup_map {A B} (f : A -> B) p l : NoDup (map f l) -> NoDup (map f (List.filter p l)).
Proof.
  induction l as [|x l IH]; cbn; [done|]. intros [Hx Hn]%NoDup_cons. destruct (p x); [|by apply IH].
  cbn. apply NoDup_cons. split; [|by apply IH]. intros Hin. apply Hx.
  apply list_elem_of_fmap in Hin as (y & -> & Hy). apply list_elem_of_fmap_2. by apply filter_elem in Hy as [? _].
Qed.

(** Deleting rows keeps the store consistent: the cascade takes exactly the
    index rows of the events that went. *)
Lemma delete_rows_wf p s : store_wf s -> store_wf (delete_rows p s).
Proof.
  intros Hw. assert (Hgone : forall r, r ∈ t_events s ->
    bool_decide (w_id r ∈ map w_id (List.filter p (t_events s))) = p r).
  { intros r Hr. destruct (p r) eqn:Ep.
    - apply bool_decide_eq_true, list_elem_of_fmap_2. by apply filter_elem.
    - apply bool_decide_eq_false. intros (x & Hx & Hin)%list_elem_of_fmap.
      apply filter_elem in Hin as [Hin Hp].
      assert (r = x) as -> by by apply (row_unique s). congruence. }
  split; cbn.
  - intros r [Hr _]%filter_elem. by apply (sw_rows _ Hw).
  - apply filter_nodup_map, Hw.
  - intros r1 r2 [H1 _]%filter_elem [H2 _]%filter_elem. by apply (sw_slots _ Hw).
  - rewrite (sw_tags _ Hw). apply flat_map_filter. intros r t Hr Ht.
    destruct (sw_rows _ Hw r Hr) as (e & now & -> & _). rewrite row_tags_of in Ht.
    rewrite (tags_of_id _ _ Ht). by rewrite <- (Hgone _ Hr).
  - rewrite (sw_files _ Hw). apply flat_map_filter. intros r t Hr Ht.
    destruct (sw_rows _ Hw r Hr) as (e & now & -> & _). rewrite row_files_of in Ht.
    rewrite (files_of_id _ _ Ht). by rewrite <- (Hgone _ Hr).
Qed.
Lemma delete_rows_elem p s r : r ∈ t_events (delete_rows p s) <-> r ∈ t_events s /\ p r = false.
Proof. cbn. by rewrite filter_elem, negb_true_iff. Qed.

Lemma empty_store_wf : store_wf empty_store.
Proof.
  split; try done; cbn.
  - intros r Hr. by apply not_elem_of_nil in Hr.
  - constructor.
  - intros r1 r2 Hr. by apply not_elem_of_nil in Hr.
Qed.

(** Adding a row with a fresh id and a free slot. *)
Lemma add_row_wf s e now : store_wf s -> slot e <> Ephemeral -> conflicts s (row_of e now) = false ->
  store_wf (mkStore (t_events s ++ [row_of e now]) (t_tags s ++ tags_of e)
    (t_attachments s ++ files_of e) (t_groups s) (t_blob_use s) (t_blob_grants s)).
Proof.
  intros Hw He Hc. assert (Hfree : forall x, x ∈ t_events s ->
    w_id x <> ev_id e /\ same_slot x (row_of e now) = false).
  { intros x Hx. destruct (bool_decide (w_id x = ev_id e) || same_slot x (row_of e now))%bool eqn:E.
    - exfalso. enough (conflicts s (row_of e now) = true) by congruence.
      apply existsb_elem. by exists x.
    - apply orb_false_iff in E as [E1 E2]. by apply bool_decide_eq_false in E1. }
  split; cbn.
  - intros r [Hr|Hr%list_elem_of_singleton]%elem_of_app; [by apply (sw_rows _ Hw)|]. subst. eauto.
  - rewrite map_app. apply NoDup_app. split; [apply Hw|]. split; [|apply NoDup_singleton].
    intros i (x & -> & Hx)%list_elem_of_fmap Hi. apply list_elem_of_singleton in Hi. by apply Hfree in Hx as [? _].
  - intros r1 r2 [H1|H1%list_elem_of_singleton]%elem_of_app [H2|H2%list_elem_of_singleton]%elem_of_app Hs.
    + by apply (sw_slots _ Hw).
    + subst. apply Hfree in H1 as [_ ?]. congruence.
    + subst. exfalso. destruct (Hfree r2 H2) as [_ Hf].
      destruct (sw_rows _ Hw r2 H2) as (e2 & t2 & -> & _).
      apply same_slot_key in Hs as (Hi & Hk & Hp & Hd).
      enough (same_slot (row_of e2 t2) (row_of e now) = true) by congruence.
      apply same_slot_key. rewrite Hd. done.
    + by subst.
  - rewrite flat_map_app, <- (sw_tags _ Hw). cbn. by rewrite row_tags_of, app_nil_r.
  - rewrite flat_map_app, <- (sw_files _ Hw). cbn. by rewrite row_files_of, app_nil_r.
Qed.

Lemma make_room_wf s e r s1 : store_wf s -> make_room s e r = Ok (inl s1) -> store_wf s1.
Proof.
  intros Hw. unfold make_room. destruct (List.find _ _) as [row|]; [|by intros [= <-]].
  destruct (parse _) as [c|]; [|done]. case_bool_decide; [done|]. destruct (negb _); [done|].
  intros [= <-]. by apply delete_rows_wf.
Qed.
Lemma insert_wf s e now s' r : store_wf s -> insert s e now = Ok (s', r) -> store_wf s'.
Proof.
  intros Hw. unfold insert. destruct (slot e) eqn:Es; try (by intros [= <- <-]);
    (destruct (make_room s e (row_of e now)) as [[s1|a]|] eqn:Em; [|by intros [= <- <-]|done]);
    (destruct (conflicts s1 (row_of e now)) eqn:Ec; intros [= <- <-]; [done|]);
    (apply add_row_wf; [by eapply make_room_wf|congruence|done]).
Qed.

(** ** One event per slot, whatever the order *)

Definition slot_key (e : Event) : Kind * PublicKey * option string :=
  (ev_kind e, ev_pubkey e, slot_d e).
Definition rivals (l : list Event) (e : Event) : list Event :=
  List.filter (fun x => bool_decide (slot_key x = slot_key e)) l.
(** Of the events [l], the ones a store keeps. *)
Definition kept (l : list Event) (e : Event) : Prop :=
  e ∈ l /\ slot e <> Ephemeral /\
  (is_Some (slot_d e) -> best replaces (rivals l e) = Some e).

Lemma same_slot_events e1 t1 e2 t2 : same_slot (row_of e1 t1) (row_of e2 t2) = true <->
  is_Some (slot_d e2) /\ slot_key e1 = slot_key e2.
Proof.
  rewrite same_slot_key. unfold slot_key. split; [intros (? & -> & -> & ->); done|].
  intros [? [= -> -> ->]]. done.
Qed.
Lemma holds_row s e : store_wf s -> holds s e -> exists now, row_of e now ∈ t_events s.
Proof.
  intros Hw (r & Hr & He). destruct (sw_rows _ Hw r Hr) as (e' & now & -> & _).
  rewrite event_of_row in He. injection He as <-. by exists now.
Qed.
Lemma row_holds s e now : row_of e now ∈ t_events s -> holds s e.
Proof. intros Hr. exists (row_of e now). split; [done|]. apply event_of_row. Qed.
Lemma find_slot s x now : store_wf s ->
  match List.find (fun r => same_slot r (row_of x now)) (t_events s) with
  | Some r => exists c t, r = row_of c t /\ holds s c /\ is_Some (slot_d x) /\ slot_key c = slot_key x
  | None => is_Some (slot_d x) -> forall c, holds s c -> slot_key c <> slot_key x
  end.
Proof.
  intros Hw. destruct (List.find _ _) as [r|] eqn:Ef.
  - apply find_elem in Ef as [Hr Hs]. destruct (sw_rows _ Hw r Hr) as (c & t & -> & _).
    apply same_slot_events in Hs as [Hx Hk]. exists c, t. split; [done|].
    split; [by eapply row_holds|done].
  - intros Hx c Hc Hk. destruct (holds_row _ _ Hw Hc) as [t Ht].
    assert (same_slot (row_of c t) (row_of x now) = true) by by apply same_slot_events.
    rewrite (find_none_elem _ _ _ Ef Ht) in H. done.
Qed.
Lemma conflicts_spec s x now : store_wf s ->
  conflicts s (row_of x now) = true <->
  exists c, holds s c /\ (ev_id c = ev_id x \/ is_Some (slot_d x) /\ slot_key c = slot_key x).
Proof.
  intros Hw. unfold conflicts. rewrite existsb_elem. split.
  - intros (r & Hr & H). destruct (sw_rows _ Hw r Hr) as (c & t & -> & _). exists c.
    split; [by eapply row_holds|]. apply orb_true_iff in H as [H|H].
    + left. by apply bool_decide_eq_true in H.
    + right. by apply same_slot_events in H.
  - intros (c & Hc & H). destruct (holds_row _ _ Hw Hc) as [t Ht]. exists (row_of c t).
    split; [done|]. apply orb_true_iff. destruct H as [H|H].
    + left. by apply bool_decide_eq_true.
    + right. by apply same_slot_events.
Qed.
Lemma row_event d c t1 t2 : row_of d t1 = row_of c t2 -> d = c.
Proof.
  intros Hrow. apply (f_equal event_of) in Hrow. rewrite !event_of_row in Hrow. by injection Hrow.
Qed.
(** A slot holds one event. *)
Lemma holder_unique s d c : store_wf s -> holds s d -> holds s c -> is_Some (slot_d c) ->
  slot_key d = slot_key c -> d = c.
Proof.
  intros Hw Hd Hc Hs Hk. destruct (holds_row _ _ Hw Hc) as [t1 H1].
  destruct (holds_row _ _ Hw Hd) as [t2 H2]. apply (row_event d c t2 t1).
  apply (sw_slots _ Hw); [done..|]. by apply same_slot_events.
Qed.
Lemma delete_id_holds s c e : store_wf s -> holds s c ->
  holds (delete_id (ev_id c) s) e <-> holds s e /\ e <> c.
Proof.
  intros Hw Hc. split.
  - intros (r & Hr & He). apply delete_rows_elem in Hr as [Hr Hid].
    apply bool_decide_eq_false in Hid. split; [by exists r|]. intros ->.
    destruct (sw_rows _ Hw r Hr) as (e' & t & -> & _). rewrite event_of_row in He.
    injection He as ->. by apply Hid.
  - intros [He Hne]. destruct (holds_row _ _ Hw He) as [t Ht]. exists (row_of e t).
    split; [|apply event_of_row]. apply delete_rows_elem. split; [done|].
    apply bool_decide_eq_false. cbn. intros Hid. apply Hne.
    destruct (holds_row _ _ Hw Hc) as [t' Ht'].
    assert (row_of e t = row_of c t') as Hrow by by apply (row_unique s).
    by eapply row_event.
Qed.

(** What an insert adds and takes away. *)
Definition adds (s : Store) (x : Event) (s' : Store) : Prop :=
  forall e, holds s' e <-> holds s e \/ e = x.
Definition same_events (s s' : Store) : Prop := forall e, holds s' e <-> holds s e.
Lemma add_row_holds s x now tags files :
  adds s x (mkStore (t_events s ++ [row_of x now]) tags files
    (t_groups s) (t_blob_use s) (t_blob_grants s)).
Proof.
  intros e. split.
  - intros (r & [Hr|Hr%list_elem_of_singleton]%elem_of_app & He).
    + left. by exists r.
    + right. subst. rewrite event_of_row in He. by injection He.
  - intros [(r & Hr & He)| ->].
    + exists r. split; [|done]. cbn. apply elem_of_app. by left.
    + exists (row_of x now). split; [|apply event_of_row]. cbn. apply elem_of_app. right. by left.
Qed.

Lemma insert_cases s x now : store_wf s -> slot x <> Ephemeral ->
  (forall e, holds s e -> ev_id e = ev_id x -> e = x) ->
  exists s' r, insert s x now = Ok (s', r) /\
    ((is_Some (slot_d x) /\ exists c, holds s c /\ slot_key c = slot_key x /\
        ((replaces x c = false \/ c = x) /\ same_events s s' \/
         replaces x c = true /\ c <> x /\ forall e, holds s' e <-> (holds s e /\ e <> c) \/ e = x))
     \/ (is_Some (slot_d x) -> forall c, holds s c -> slot_key c <> slot_key x) /\ adds s x s').
Proof.
  intros Hw Hx Hid. assert (Hi : insert s x now =
    let? room := make_room s x (row_of x now) in
    match room with
    | inr answer => Ok (s, answer)
    | inl s1 => if conflicts s1 (row_of x now) then Ok (s, Stored.Duplicate)
                else Ok (mkStore (t_events s1 ++ [row_of x now]) (t_tags s1 ++ tags_of x)
                  (t_attachments s1 ++ files_of x) (t_groups s1) (t_blob_use s1)
                  (t_blob_grants s1), Stored.New)
    end) by (unfold insert; by destruct (slot x)).
  rewrite Hi. unfold make_room. pose proof (find_slot s x now Hw) as Hf.
  destruct (List.find _ _) as [r|].
  - destruct Hf as (c & t & -> & Hc & Hsx & Hk). unfold parse. cbn [w_json row_of].
    rewrite json_round_trip. cbn [ok_or]. case_bool_decide as Ec.
    { apply Hid in Ec as ->; [|done]. eexists _, _. split; [done|]. left. split; [done|].
      exists x. split; [done|]. split; [done|]. left. split; [by right|done]. }
    assert (Hcx : c <> x) by (intros ->; done).
    destruct (replaces x c) eqn:Er; cbn [negb].
    + assert (Hw1 : store_wf (delete_id (ev_id c) s)) by by apply delete_rows_wf.
      destruct (conflicts (delete_id (ev_id c) s) (row_of x now)) eqn:Econ.
      { exfalso. apply conflicts_spec in Econ as (d & Hd & Hcase); [|done].
        apply (delete_id_holds s c) in Hd as [Hd Hdc]; [|done..].
        apply Hdc. apply (holder_unique s); [done..| |].
        - unfold slot_key in Hk. injection Hk as _ _ Hk. by rewrite Hk.
        - destruct Hcase as [Hdx|[_ Hdx]]; [|congruence]. apply Hid in Hdx as ->; [|done]. done. }
      eexists _, _. split; [done|]. left. split; [done|]. exists c. split; [done|]. split; [done|].
      right. split; [done|]. split; [done|]. intros e.
      rewrite (add_row_holds (delete_id (ev_id c) s) x now _ _ e). by rewrite delete_id_holds.
    + eexists _, _. split; [done|]. left. split; [done|]. exists c. split; [done|]. split; [done|].
      left. split; [by left|done].
  - destruct (conflicts s (row_of x now)) eqn:Econ; eexists _, _; (split; [done|]); right; (split; [done|]).
    + apply conflicts_spec in Econ as (d & Hd & [Hdx|[Hsx Hdx]]); [|by apply Hf in Hdx|done].
      apply Hid in Hdx as ->; [|done]. intros e. split; [by left|]. by intros [?| ->].
    + apply add_row_holds.
Qed.

Lemma foldl_best_elem {A} (better : A -> A -> bool) l acc m :
  foldl (keep_best better) acc l = Some m -> acc = Some m \/ m ∈ l.
Proof.
  revert acc. induction l as [|x l IH]; intros acc; cbn; [by left|].
  intros [H|H]%IH; [|right; by right].
  destruct acc as [c|]; cbn in H; [destruct (better x c)|]; injection H as <-; auto; right; left.
Qed.
Lemma slot_d_stored e : is_Some (slot_d e) -> slot e <> Ephemeral.
Proof. intros [d Hd]. unfold slot_d in Hd. by destruct (slot e). Qed.
Lemma rivals_snoc l x e :
  rivals (l ++ [x]) e = rivals l e ++ (if bool_decide (slot_key x = slot_key e) then [x] else []).
Proof. unfold rivals. rewrite List.filter_app. cbn. by destruct (bool_decide _). Qed.
Lemma rivals_key l e1 e2 : slot_key e1 = slot_key e2 -> rivals l e1 = rivals l e2.
Proof. intros H. unfold rivals. by rewrite H. Qed.
Lemma best_snoc l x e : slot_key x = slot_key e ->
  best replaces (rivals (l ++ [x]) e) = keep_best replaces (best replaces (rivals l x)) x.
Proof.
  intros H. rewrite rivals_snoc, bool_decide_true by done. unfold best. rewrite foldl_app. cbn.
  by rewrite (rivals_key l x e).
Qed.

Lemma kept_snoc_other l x e : slot_key x <> slot_key e -> kept (l ++ [x]) e <-> kept l e.
Proof.
  intros Hk. unfold kept. rewrite rivals_snoc, bool_decide_false, app_nil_r, elem_of_app by done.
  rewrite list_elem_of_singleton. split; [|naive_solver]. intros ([?| ->] & ?); [done|].
  by destruct Hk.
Qed.
Lemma kept_snoc_plain l x e : slot_d x = None -> slot x <> Ephemeral ->
  kept (l ++ [x]) e <-> kept l e \/ e = x.
Proof.
  intros Hd Hx. destruct (decide (slot_key x = slot_key e)) as [Hk|Hk].
  - assert (Hde : slot_d e = None) by (unfold slot_key in Hk; congruence).
    unfold kept. rewrite Hde, elem_of_app, list_elem_of_singleton. split.
    + intros ([?| ->] & ? & ?); [left|by right]. split; [done|]. split; [done|]. by intros [].
    + intros [(? & ? & ?)| ->]; (split; [auto|]); (split; [done|]); by intros [].
  - rewrite kept_snoc_other by done. split; [by left|]. intros [?| ->]; [done|]. by destruct Hk.
Qed.
Lemma kept_snoc_slot l x e : is_Some (slot_d x) -> slot_key x = slot_key e ->
  kept (l ++ [x]) e <-> keep_best replaces (best replaces (rivals l x)) x = Some e.
Proof.
  intros Hd Hk. assert (Hde : is_Some (slot_d e)) by (unfold slot_key in Hk; injection Hk as _ _ <-; done).
  unfold kept. rewrite <- (best_snoc l x e Hk). split; [naive_solver|].
  intros Hb. split; [|split; [by apply slot_d_stored|done]].
  apply foldl_best_elem in Hb as [?|Hb]; [done|]. by apply filter_elem in Hb as [? _].
Qed.
Lemma best_rivals_holder l x c : kept l c -> is_Some (slot_d x) -> slot_key c = slot_key x ->
  best replaces (rivals l x) = Some c.
Proof.
  intros (_ & _ & Hb) Hx Hk. rewrite <- (rivals_key l c x Hk). apply Hb.
  unfold slot_key in Hk. injection Hk as _ _ ->. done.
Qed.
Lemma best_rivals_none l x : is_Some (slot_d x) -> (forall c, kept l c -> slot_key c <> slot_key x) ->
  best replaces (rivals l x) = None.
Proof.
  intros Hx Hn. destruct (best replaces (rivals l x)) as [m|] eqn:E; [|done]. exfalso.
  assert (Hm : m ∈ rivals l x) by by apply foldl_best_elem in E as [?|?].
  apply filter_elem in Hm as [Hm Hk]. apply bool_decide_eq_true in Hk. apply (Hn m); [|done].
  split; [done|]. split.
  - apply slot_d_stored. unfold slot_key in Hk. injection Hk as _ _ ->. done.
  - intros _. by rewrite (rivals_key l m x).
Qed.

Lemma insert_kept l s x now : store_wf s -> (forall e, holds s e <-> kept l e) ->
  ids_identify (l ++ [x]) ->
  exists s' r, insert s x now = Ok (s', r) /\ store_wf s' /\
    forall e, holds s' e <-> kept (l ++ [x]) e.
Proof.
  intros Hw Hk Hid. destruct (decide (slot x = Ephemeral)) as [He|He].
  - exists s, Stored.Ephemeral. unfold insert. rewrite He. split; [done|]. split; [done|].
    intros e. rewrite Hk. unfold kept. split.
    + intros (Hin & Hs & Hb). split; [apply elem_of_app; by left|]. split; [done|].
      intros Hd. rewrite rivals_snoc, bool_decide_false, app_nil_r; [by apply Hb|].
      intros Hkey. unfold slot_key in Hkey. injection Hkey as _ _ Hkey.
      rewrite <- Hkey in Hd. by apply slot_d_stored in Hd.
    + intros (Hin & Hs & Hb). apply elem_of_app in Hin as [Hin|Hin%list_elem_of_singleton]; [|by subst].
      split; [done|]. split; [done|]. intros Hd. specialize (Hb Hd).
      rewrite rivals_snoc, bool_decide_false, app_nil_r in Hb; [done|].
      intros Hkey. unfold slot_key in Hkey. injection Hkey as _ _ Hkey.
      rewrite <- Hkey in Hd. by apply slot_d_stored in Hd.
  - destruct (insert_cases s x now Hw He) as (s' & r & Hi & Hcase).
    { intros e Hh Heq. apply Hid; [|apply elem_of_app; right; by left|done].
      apply elem_of_app. left. by apply Hk in Hh as [? _]. }
    exists s', r. split; [done|]. split; [by eapply insert_wf|]. intros e.
    destruct Hcase as [(Hd & c & Hc & Hck & Hrep)|[Hnone Hadd]].
    + destruct (decide (slot_key x = slot_key e)) as [Hxe|Hxe].
      * rewrite kept_snoc_slot, (best_rivals_holder l x c) by (try done; by apply Hk). cbn [keep_best].
        assert (Huniq : forall d, holds s d -> slot_key d = slot_key x -> d = c).
        { intros d Hdh Hdk. apply (holder_unique s); try done; [|congruence].
          unfold slot_key in Hck. injection Hck as _ _ ->. done. }
        destruct Hrep as [[[Hr| ->] Hsame]|(Hr & Hcx & Hsame)].
        -- rewrite Hr, (Hsame e). split; [intros Hh; by rewrite (Huniq e Hh)|by intros [= <-]].
        -- rewrite replaces_irrefl, (Hsame e). split; [intros Hh; by rewrite (Huniq e Hh)|by intros [= <-]].
        -- rewrite Hr, (Hsame e). split; [|intros [= ->]; by right].
           intros [[Hh Hne]| ->]; [|done]. destruct Hne. by apply Huniq.
      * rewrite kept_snoc_other, <- Hk by done.
        destruct Hrep as [[_ Hsame]|(_ & Hcx & Hsame)]; [apply Hsame|]. rewrite (Hsame e). split.
        -- intros [[? _]| ->]; [done|by destruct Hxe].
        -- intros Hh. left. split; [done|]. intros ->. by destruct Hxe.
    + rewrite (Hadd e), Hk. destruct (slot_d x) as [d|] eqn:Hd.
      * destruct (decide (slot_key x = slot_key e)) as [Hxe|Hxe].
        -- assert (Hds : is_Some (slot_d x)) by by rewrite Hd.
           rewrite kept_snoc_slot by done. rewrite best_rivals_none; [|done|].
           2:{ intros c Hc. apply Hnone; [done|by apply Hk]. }
           cbn. split; [|intros [= ->]; by right]. intros [Hc| ->]; [|done].
           exfalso. apply (Hnone ltac:(done) e); [by apply Hk|done].
        -- rewrite kept_snoc_other by done. split; [|by left]. intros [?| ->]; [done|by destruct Hxe].
      * by rewrite kept_snoc_plain.
Qed.

(** Inserting a list of events, each at its time of arrival. *)
Fixpoint store_all (s : Store) (l : list (Event * Timestamp)) : result StoreError Store :=
  match l with
  | [] => Ok s
  | (e, now) :: t => let? p := insert s e now in store_all (fst p) t
  end.

Lemma store_all_kept l0 s l : store_wf s -> (forall e, holds s e <-> kept l0 e) ->
  ids_identify (l0 ++ map fst l) ->
  exists s', store_all s l = Ok s' /\ store_wf s' /\
    forall e, holds s' e <-> kept (l0 ++ map fst l) e.
Proof.
  revert l0 s. induction l as [|[x now] l IH]; intros l0 s Hw Hk Hid; cbn.
  - exists s. by rewrite app_nil_r.
  - cbn in Hid. replace (l0 ++ x :: map fst l) with ((l0 ++ [x]) ++ map fst l) in * by by rewrite <- app_assoc.
    destruct (insert_kept l0 s x now Hw Hk) as (s1 & r & Hi & Hw1 & Hk1).
    { intros a b Ha Hb. apply Hid; apply elem_of_app; by left. }
    rewrite Hi. cbn. by apply IH.
Qed.

Lemma kept_perm l1 l2 e : ids_identify l1 -> l1 ≡ₚ l2 -> kept l2 e <-> kept l1 e.
Proof.
  intros Hid Hp. unfold kept. rewrite (elem_of_Permutation_proper e _ _ Hp).
  assert (Hb : best replaces (rivals l1 e) = best replaces (rivals l2 e)).
  { apply best_perm; [|by apply filter_perm]. apply (replaces_strict_total _ (ev_kind e)).
    - intros a b [Ha _]%filter_elem [Hb _]%filter_elem. by apply Hid.
    - intros a [_ Ha]%filter_elem. apply bool_decide_eq_true in Ha. unfold slot_key in Ha. congruence. }
  by rewrite Hb.
Qed.

(** C36. The store converges: inserting the same events into an empty store, in
    any order and at any times, succeeds and leaves the same events held: every
    event of a regular kind, and of each replaceable slot the one event that
    [replaces] puts above the rest; no ephemeral one. *)
Theorem store_converges l1 l2 : ids_identify (map fst l1) -> map fst l1 ≡ₚ map fst l2 ->
  exists s1 s2, store_all empty_store l1 = Ok s1 /\ store_all empty_store l2 = Ok s2 /\
    forall e, (holds s1 e <-> kept (map fst l1) e) /\ (holds s2 e <-> holds s1 e).
Proof.
  intros Hid Hp.
  assert (Hempty : forall e, holds empty_store e <-> kept [] e).
  { intros e. split; [intros (r & Hr & _)|intros (Hr & _)]; by apply not_elem_of_nil in Hr. }
  assert (Hid2 : ids_identify (map fst l2)).
  { intros a b. rewrite <- Hp. apply Hid. }
  destruct (store_all_kept [] empty_store l1) as (s1 & H1 & _ & Hk1); [apply empty_store_wf|done..|].
  destruct (store_all_kept [] empty_store l2) as (s2 & H2 & _ & Hk2); [apply empty_store_wf|done..|].
  exists s1, s2. split; [done|]. split; [done|]. intros e. rewrite Hk1, Hk2. split; [done|].
  cbn. by rewrite (kept_perm (map fst l1) (map fst l2)).
Qed.

(** ** Every operation keeps the store consistent *)

Inductive store_step (s : Store) : Store -> Prop :=
| ss_insert e now s' r : insert s e now = Ok (s', r) -> store_step s s'
| ss_expire me before : store_step s (fst (expire_wraps s me before))
| ss_cap to cap : store_step s (fst (cap_wraps s to cap))
| ss_remove ids : store_step s (remove s ids)
| ss_deletion d kinds : store_step s (fst (apply_deletion s d kinds))
| ss_carry group at_ : store_step s (carry_group s group at_)
| ss_touch hash mine now : store_step s (touch_blob s hash mine now)
| ss_grant hash person : store_step s (grant_blob s hash person).

Lemma delete_id_wf s id : store_wf s -> store_wf (delete_id id s).
Proof. apply delete_rows_wf. Qed.
Lemma delete_ids_wf s ids : store_wf s -> store_wf (foldl (fun s id => delete_id id s) s ids).
Proof. revert s. induction ids as [|i ids IH]; intros s Hw; [done|]. by apply IH, delete_id_wf. Qed.
Lemma store_wf_tables s groups use grants : store_wf s ->
  store_wf (mkStore (t_events s) (t_tags s) (t_attachments s) groups use grants).
Proof. by intros []. Qed.
Lemma withdraw_wf kinds author acc t : store_wf (fst acc) -> store_wf (fst (withdraw kinds author acc t)).
Proof.
  destruct acc as [s gone]. cbn. intros Hw. destruct (List.find _ _) as [r|]; [|done].
  destruct (_ && _); [by apply delete_id_wf|done].
Qed.
Lemma step_keeps_wf s s' : store_wf s -> store_step s s' -> store_wf s'.
Proof.
  intros Hw [e now s1 r H|me before|to cap|ids|d kinds|group at_|hash mine now|hash person].
  - by eapply insert_wf.
  - by apply delete_rows_wf.
  - by apply delete_ids_wf.
  - by apply delete_ids_wf.
  - unfold apply_deletion. generalize (targets_of d). intros ts.
    enough (H : forall acc, store_wf (fst acc) ->
      store_wf (fst (foldl (withdraw kinds (ev_pubkey d)) acc ts))) by by apply (H (s, [])).
    induction ts as [|t ts IH]; intros acc Ha; [done|]. cbn. by apply IH, withdraw_wf.
  - unfold carry_group. destruct (existsb _ _); [done|]. by apply store_wf_tables.
  - by apply store_wf_tables.
  - unfold grant_blob. case_bool_decide; [done|]. by apply store_wf_tables.
Qed.
(** Whatever is done to a store that began empty, it is consistent. *)
Lemma reachable_wf s : rtc store_step empty_store s -> store_wf s.
Proof.
  intros H. assert (Hw : store_wf empty_store) by apply empty_store_wf.
  induction H as [|a b c Hs _ IH]; [done|]. apply IH. by eapply step_keeps_wf.
Qed.

(** ** Queries *)

(** NIP-01's reading of a filter, on the event itself. *)
Definition names_value (e : Event) (name : string) (values : gset string) : bool :=
  existsb (fun t => match t with
                    | n :: v :: _ => bool_decide (n = name) && bool_decide (v ∈ values)
                    | _ => false
                    end) (ev_tags e).
Definition event_matches (f : Filter) (e : Event) : bool :=
  is_none_or (f_ids f) (fun ids => bool_decide (ev_id e ∈ ids))
  && is_none_or (f_authors f) (fun a => bool_decide (ev_pubkey e ∈ a))
  && is_none_or (f_kinds f) (kind_in (ev_kind e))
  && is_none_or (f_since f) (fun t => t <=? ev_created_at e)
  && is_none_or (f_until f) (fun t => ev_created_at e <=? t)
  && forallb (fun '(name, values) => names_value e name values) (f_tags f).
(** The same with times as SQLite's integers have them: a time past
    [i64::MAX] is below all others. *)
Definition cast_matches (f : Filter) (e : Event) : bool :=
  is_none_or (f_ids f) (fun ids => bool_decide (ev_id e ∈ ids))
  && is_none_or (f_authors f) (fun a => bool_decide (ev_pubkey e ∈ a))
  && is_none_or (f_kinds f) (kind_in (ev_kind e))
  && is_none_or (f_since f) (fun t => as_i64 t <=? as_i64 (ev_created_at e))
  && is_none_or (f_until f) (fun t => as_i64 (ev_created_at e) <=? as_i64 t)
  && forallb (fun '(name, values) => names_value e name values) (f_tags f).
(** What [nostr] has for a tag's name in a filter. *)
Definition single_letters (f : Filter) : Prop := forall nv, nv ∈ f_tags f -> str_len (fst nv) = 1.
(** Times SQLite's integers hold, and single-letter tags. *)
Definition filter_ok (f : Filter) : Prop :=
  (forall t, f_since f = Some t -> 0 <= t <= I64_MAX) /\
  (forall t, f_until f = Some t -> 0 <= t <= I64_MAX) /\
  single_letters f.
Definition dated_ok (s : Store) : Prop := forall e, holds s e -> 0 <= ev_created_at e <= I64_MAX.
Definition newer (a b : Event) : Prop :=
  ev_created_at b < ev_created_at a \/
  (ev_created_at a = ev_created_at b /\ id_leb (ev_id a) (ev_id b) = true).
Definition cast_newer (a b : Event) : Prop :=
  as_i64 (ev_created_at b) < as_i64 (ev_created_at a) \/
  (as_i64 (ev_created_at a) = as_i64 (ev_created_at b) /\ id_leb (ev_id a) (ev_id b) = true).

Lemma flat_map_elem {A B} (f : A -> list B) l b : b ∈ flat_map f l <-> exists a, a ∈ l /\ b ∈ f a.
Proof.
  induction l as [|x l IH]; cbn.
  - split; [intros H; by apply not_elem_of_nil in H|intros (a & H & _); by apply not_elem_of_nil in H].
  - rewrite elem_of_app, IH. setoid_rewrite elem_of_cons. naive_solver.
Qed.
Lemma tags_elem s id name value : store_wf s ->
  (id, name, value) ∈ t_tags s <-> exists e, holds s e /\ (id, name, value) ∈ tags_of e.
Proof.
  intros Hw. rewrite (sw_tags _ Hw), flat_map_elem. split.
  - intros (r & Hr & Ht).
    destruct (sw_rows _ Hw r Hr) as (e & now & -> & _). rewrite row_tags_of in Ht.
    exists e. split; [by eapply row_holds|done].
  - intros (e & He & Ht). destruct (holds_row _ _ Hw He) as [now Hr].
    exists (row_of e now). by rewrite row_tags_of.
Qed.
Lemma tags_of_elem e name value :
  (ev_id e, name, value) ∈ tags_of e <->
  str_len name = 1 /\ exists rest, (name :: value :: rest) ∈ ev_tags e.
Proof.
  unfold tags_of, filter_map. rewrite list_elem_of_omap. split.
  - intros ([|n [|v rest]] & Hin & H); try done. destruct (str_len n =? 1) eqn:E; [|done].
    bools. injection H as <- <-. eauto.
  - intros (Hn & rest & Hin). exists (name :: value :: rest). split; [done|]. by rewrite Hn.
Qed.
Lemma holds_same_id s e1 e2 : store_wf s -> holds s e1 -> holds s e2 -> ev_id e1 = ev_id e2 -> e1 = e2.
Proof.
  intros Hw H1 H2 Hi. destruct (holds_row _ _ Hw H1) as [t1 R1]. destruct (holds_row _ _ Hw H2) as [t2 R2].
  eapply row_event, (row_unique s); [done..|exact Hi].
Qed.
Lemma clause_matches s e now name values : store_wf s -> row_of e now ∈ t_events s -> str_len name = 1 ->
  existsb (fun t => bool_decide (t.1 = (w_id (row_of e now), name)) && bool_decide (t.2 ∈ values))
    (t_tags s) = names_value e name values.
Proof.
  intros Hw Hr Hn. apply eq_bool_prop_intro. rewrite !Is_true_true. unfold names_value.
  rewrite !existsb_elem. split.
  - intros ([[i n] v] & Hin & H). apply andb_true_iff in H as [H1 H2].
    apply bool_decide_eq_true in H1, H2. cbn in H1, H2. injection H1 as -> ->.
    apply tags_elem in Hin as (e' & He' & Ht); [|done].
    assert (e' = e) as ->.
    { apply (holds_same_id s); [done..|by eapply row_holds|]. by apply tags_of_id in Ht. }
    apply tags_of_elem in Ht as (_ & rest & Ht). exists (name :: v :: rest). split; [done|].
    by rewrite !bool_decide_true.
  - intros ([|n [|v rest]] & Hin & H); try done. apply andb_true_iff in H as [H1 H2].
    apply bool_decide_eq_true in H1, H2. subst n. exists (ev_id e, name, v). split.
    + apply tags_elem; [done|]. exists e. split; [by eapply row_holds|]. apply tags_of_elem. eauto.
    + cbn. by rewrite !bool_decide_true.
Qed.
Lemma as_i64_small n : n <= I64_MAX -> as_i64 n = n.
Proof. intros H. unfold as_i64. by rewrite (proj2 (Z.leb_le _ _) H). Qed.

Lemma filter_matches_event s f e now : store_wf s -> single_letters f ->
  row_of e now ∈ t_events s -> filter_matches s f (row_of e now) = cast_matches f e.
Proof.
  intros Hw Ht Hr. unfold filter_matches, cast_matches. f_equal. unfold single_letters in Ht.
  induction (f_tags f) as [|[n vs] l IH]; [done|]. cbn [forallb].
  rewrite (clause_matches s e now n vs) by (try done; apply (Ht (n, vs)); left).
  f_equal. apply IH. intros nv Hnv. apply Ht. by right.
Qed.
(** Below [i64::MAX] the cast is nothing. *)
Lemma cast_plain f e : filter_ok f -> 0 <= ev_created_at e <= I64_MAX -> cast_matches f e = event_matches f e.
Proof.
  intros (Hs & Hu & _) He. unfold cast_matches, event_matches. rewrite (as_i64_small (ev_created_at e)) by lia.
  f_equal. f_equal; [f_equal|].
  - destruct (f_since f) as [x|]; [|done]. cbn. by rewrite as_i64_small by (by apply Hs).
  - destruct (f_until f) as [x|]; [|done]. cbn. by rewrite as_i64_small by (by apply Hu).
Qed.

Lemma parse_all_rows rows : (forall r, r ∈ rows -> exists e now, r = row_of e now) ->
  exists es, parse_all (map w_json rows) = Ok es /\ Forall2 (fun r e => exists now, r = row_of e now) rows es.
Proof.
  induction rows as [|r rows IH]; intros H; [by exists []|].
  destruct (H r ltac:(left)) as (e & now & ->).
  destruct IH as (es & Hes & Hf); [intros x Hx; apply H; by right|].
  exists (e :: es). cbn. unfold parse. rewrite json_round_trip. cbn. rewrite Hes. split; [done|].
  constructor; [by exists now|done].
Qed.
Lemma parse_all_take rows es n : parse_all (map w_json rows) = Ok es ->
  parse_all (map w_json (take n rows)) = Ok (take n es).
Proof.
  revert es n. induction rows as [|r rows IH]; intros es n H; cbn in H.
  - injection H as <-. by rewrite !take_nil.
  - destruct (parse (w_json r)) as [e|] eqn:Er; [|done].
    destruct (parse_all (map w_json rows)) as [es'|]; [|done]. injection H as <-.
    destruct n as [|n]; [done|]. cbn. rewrite Er. by rewrite (IH es' n).
Qed.
Lemma sorted_forall2 {A B} (P : A -> B -> Prop) (R : A -> A -> Prop) (Q : B -> B -> Prop) l m :
  (forall a b c d, P a b -> P c d -> R a c -> Q b d) -> Forall2 P l m ->
  StronglySorted R l -> StronglySorted Q m.
Proof.
  intros H Hf. induction Hf as [|a b l m Hab Hf IH]; intros Hs; [constructor|].
  apply StronglySorted_inv in Hs as [Hs Ha]. constructor; [by apply IH|].
  clear IH Hs. induction Hf as [|c d l m Hcd Hf IH]; [constructor|].
  apply Forall_cons in Ha as [Hac Ha]. constructor; [by eapply H|by apply IH].
Qed.
Lemma forall2_elem {A B} (P : A -> B -> Prop) l m :
  Forall2 P l m -> Forall2 (fun a b => a ∈ l /\ P a b) l m.
Proof.
  induction 1 as [|a b l m Hab Hf IH]; [constructor|]. constructor; [split; [left|done]|].
  eapply Forall2_impl; [exact IH|]. intros x y [Hx Hp]. split; [by right|done].
Qed.
Lemma newest_first_total a b : newest_first a b = true \/ newest_first b a = true.
Proof.
  unfold newest_first. rewrite !orb_true_iff, !andb_true_iff, !Z.ltb_lt, !Z.eqb_eq.
  destruct (Z.lt_total (w_created_at a) (w_created_at b)) as [?|[?|?]]; [right; by left| |left; by left].
  destruct (id_leb_total (w_id a) (w_id b)); [left|right]; right; done.
Qed.
Lemma newest_first_trans a b c :
  newest_first a b = true -> newest_first b c = true -> newest_first a c = true.
Proof.
  unfold newest_first. rewrite !orb_true_iff, !andb_true_iff, !Z.ltb_lt, !Z.eqb_eq.
  intros [?|[? H1]] [?|[? H2]]; [left; lia..|]. right. split; [lia|]. by eapply id_leb_trans.
Qed.

Lemma query_cast s f : store_wf s -> single_letters f -> f_search f = None ->
  exists all, query s f = Ok (limited (f_limit f) all) /\ StronglySorted cast_newer all /\
    forall e, e ∈ all <-> holds s e /\ cast_matches f e = true.
Proof.
  intros Hw Hf Hsearch.
  set (rows := isort newest_first (List.filter (filter_matches s f) (t_events s))).
  assert (Hrows : forall r, r ∈ rows -> exists e now, r = row_of e now).
  { intros r Hr. unfold rows in Hr. rewrite isort_elem in Hr. apply filter_elem in Hr as [Hr _].
    destruct (sw_rows _ Hw r Hr) as (e & now & -> & _). eauto. }
  destruct (parse_all_rows rows Hrows) as (all & Hall & Hrel). exists all. split_and!.
  - unfold query. rewrite Hsearch. fold rows. unfold limited.
    destruct (f_limit f); [by apply parse_all_take|done].
  - apply (sorted_forall2 (fun r e => exists now, r = row_of e now)
      (fun a b => Is_true (newest_first a b)) cast_newer rows all); [|done|].
    + intros a b c d [ta ->] [tc ->] H. apply Is_true_true in H. unfold newest_first in H. cbn in H.
      unfold cast_newer. by rewrite orb_true_iff, andb_true_iff, Z.ltb_lt, Z.eqb_eq in H.
    + apply isort_sorted; [apply newest_first_total|apply newest_first_trans].
  - intros e. rewrite Forall2_lookup in Hrel. rewrite list_elem_of_lookup. split.
    + intros [i Hi]. specialize (Hrel i). rewrite Hi in Hrel. inversion Hrel as [r ? [now ->] Hri|]; subst.
      assert (Hin : row_of e now ∈ rows) by (apply list_elem_of_lookup; eauto).
      unfold rows in Hin. rewrite isort_elem in Hin. apply filter_elem in Hin as [Hin Hm].
      split; [by eapply row_holds|]. by rewrite <- (filter_matches_event s f e now).
    + intros [He Hm]. destruct (holds_row _ _ Hw He) as [now Hr].
      assert (Hin : row_of e now ∈ rows).
      { unfold rows. rewrite isort_elem. apply filter_elem. split; [done|].
        by rewrite filter_matches_event. }
      apply list_elem_of_lookup in Hin as [i Hi]. exists i. specialize (Hrel i). rewrite Hi in Hrel.
      inversion Hrel as [? e' [now' Hrow] He'|]; subst. by apply row_event in Hrow as ->.
Qed.
(** A sorted list whose elements are dated plainly is sorted plainly. *)
Lemma newer_plain l : (forall e, e ∈ l -> 0 <= ev_created_at e <= I64_MAX) -> StronglySorted cast_newer l -> StronglySorted newer l.
Proof.
  intros Hd. apply (sorted_forall2 (fun a b => a ∈ l /\ a = b)); [|apply forall2_elem, Forall_Forall2_diag, Forall_forall; done].
  intros a b c d [Ha <-] [Hc <-] H. unfold cast_newer in H. rewrite !as_i64_small in H by (by apply Hd). exact H.
Qed.
Lemma query_held s f : store_wf s -> dated_ok s -> filter_ok f -> f_search f = None ->
  exists all, query s f = Ok (limited (f_limit f) all) /\ StronglySorted newer all /\
    forall e, e ∈ all <-> holds s e /\ event_matches f e = true.
Proof.
  intros Hw Hd Hf Hs. destruct (query_cast s f Hw (proj2 (proj2 Hf)) Hs) as (all & Hq & Hn & Hall).
  exists all. split; [done|]. split.
  - apply newer_plain; [|done]. intros e He. apply Hd. by apply Hall in He as [He _].
  - intros e. rewrite Hall. split; intros [He Hm]; (split; [done|]).
    + by rewrite <- cast_plain by auto.
    + by rewrite cast_plain by auto.
Qed.

(** C37. A query that searches no text answers exactly the events held that the
    filter describes, read off the events themselves and not off the indexes,
    newest first and ties by id, up to its limit, and never fails on a store the
    program built; one that searches answers nothing.  Times are compared as
    SQLite has them, so one past [i64::MAX] comes before all others; when none is,
    in the filter or on what is held, this is the plain reading of the filter. *)
Theorem query_answers s f : rtc store_step empty_store s -> single_letters f ->
  match f_search f with
  | Some _ => query s f = Ok []
  | None =>
      exists all, query s f = Ok (limited (f_limit f) all) /\ StronglySorted cast_newer all /\
        (forall e, e ∈ all <-> holds s e /\ cast_matches f e = true) /\
        (dated_ok s -> filter_ok f ->
           StronglySorted newer all /\ forall e, e ∈ all <-> holds s e /\ event_matches f e = true)
  end.
Proof.
  intros Hr Hl. pose proof (reachable_wf _ Hr) as Hw. destruct (f_search f) as [w|] eqn:Es; [unfold query; by rewrite Es|].
  destruct (query_cast s f Hw Hl Es) as (all & Hq & Hn & Hall). exists all. split; [done|]. split; [done|]. split; [done|].
  intros Hd Hf. split.
  - apply newer_plain; [|done]. intros e He. apply Hd. by apply Hall in He as [He _].
  - intros e. rewrite Hall. split; intros [He Hm]; (split; [done|]).
    + by rewrite <- cast_plain by auto.
    + by rewrite cast_plain by auto.
Qed.

(** ** The inbox's cap *)

Fixpoint size_of (rows : list Row) : Z :=
  match rows with [] => 0 | r :: t => row_size r + size_of t end.
Definition addressed (s : Store) (to : PublicKey) (r : Row) : bool :=
  (w_kind r =? GIFT_WRAP) && has_tag s (w_id r) "p" (pk_to_hex to).

Lemma row_size_nonneg r : 0 <= row_size r.
Proof. unfold row_size, chars_count. lia. Qed.
Lemma size_of_nonneg l : 0 <= size_of l.
Proof. induction l as [|r l IH]; cbn; [lia|]. pose proof (row_size_nonneg r). lia. Qed.
Lemma size_of_app l m : size_of (l ++ m) = size_of l + size_of m.
Proof. induction l as [|r l IH]; cbn; [done|]. rewrite IH. lia. Qed.
Lemma size_of_perm l m : l ≡ₚ m -> size_of l = size_of m.
Proof. induction 1; cbn; lia. Qed.
Lemma size_of_sub l m : NoDup l -> (forall r, r ∈ l -> r ∈ m) -> size_of l <= size_of m.
Proof.
  intros Hn Hs. destruct (submseteq_Permutation l m) as [k Hk]; [by apply NoDup_submseteq|].
  rewrite (size_of_perm _ _ Hk), size_of_app. pose proof (size_of_nonneg k). lia.
Qed.

Lemma over_cap_all cap held rows : cap < held -> held <= U64_MAX -> over_cap cap held rows = map w_id rows.
Proof.
  revert held. induction rows as [|r rows IH]; intros held Hh Hm; [done|]. cbn.
  pose proof (row_size_nonneg r). assert (cap < sat_add held (row_size r) <= U64_MAX) by (unfold sat_add; lia).
  rewrite (proj2 (Z.ltb_lt _ _)) by lia. f_equal. apply IH; lia.
Qed.
(** The rows that stay are a prefix that fits; the rest go. *)
Lemma over_cap_split cap held rows : 0 <= held <= cap -> cap < U64_MAX ->
  exists stay go, rows = stay ++ go /\ over_cap cap held rows = map w_id go /\ held + size_of stay <= cap.
Proof.
  revert held. induction rows as [|r rows IH]; intros held Hh Hm.
  - exists [], []. cbn. split; [done|]. split; [done|]. lia.
  - cbn [over_cap]. cbv zeta. pose proof (row_size_nonneg r).
    destruct (Z.ltb_spec cap (sat_add held (row_size r))) as [Hlt|Hle].
    + exists [], (r :: rows). cbn. split; [done|]. split; [|lia].
      f_equal. apply over_cap_all; [done|unfold sat_add; lia].
    + assert (Hs : sat_add held (row_size r) = held + row_size r) by (unfold sat_add in *; lia).
      destruct (IH (sat_add held (row_size r))) as (stay & go & -> & Ho & Ht); [lia|done|].
      exists (r :: stay), go. cbn. rewrite Ho. split; [done|]. split; [done|]. lia.
Qed.

Lemma delete_ids_events s ids r :
  r ∈ t_events (foldl (fun s id => delete_id id s) s ids) <-> r ∈ t_events s /\ w_id r ∉ ids.
Proof.
  revert s. induction ids as [|i ids IH]; intros s; cbn [foldl].
  - split; [intros; split; [done|apply not_elem_of_nil]|by intros [? _]].
  - rewrite IH. unfold delete_id. rewrite delete_rows_elem, bool_decide_eq_false, not_elem_of_cons. naive_solver.
Qed.
Lemma joined_elem s name value r r' : r' ∈ joined s name value r <->
  r' = r /\ has_tag s (w_id r) name value = true.
Proof.
  unfold joined, has_tag. rewrite existsb_elem. split.
  - intros (t & -> & Ht)%list_elem_of_fmap. apply filter_elem in Ht as [Ht Heq]. eauto.
  - intros [-> (t & Ht & Heq)]. apply list_elem_of_fmap. exists t. split; [done|]. by apply filter_elem.
Qed.
Lemma wraps_to_elem s to r : r ∈ wraps_to s to <-> r ∈ t_events s /\ addressed s to r = true.
Proof.
  unfold wraps_to, addressed. rewrite isort_elem, flat_map_elem, andb_true_iff. split.
  - intros (r' & Hr & [-> Ht]%joined_elem). apply filter_elem in Hr as [? ?]. done.
  - intros (Hr & Hk & Ht). exists r. split; [by apply filter_elem|]. by apply joined_elem.
Qed.
Lemma later_first_total a b : later_first a b = true \/ later_first b a = true.
Proof. unfold later_first. rewrite !orb_true_iff, !andb_true_iff, !Z.ltb_lt, !Z.eqb_eq, !Z.leb_le. lia. Qed.
Lemma later_first_trans a b c : later_first a b = true -> later_first b c = true -> later_first a c = true.
Proof. unfold later_first. rewrite !orb_true_iff, !andb_true_iff, !Z.ltb_lt, !Z.eqb_eq, !Z.leb_le. lia. Qed.
Lemma sorted_split {A} (R : A -> A -> Prop) l m a b :
  StronglySorted R (l ++ m) -> a ∈ l -> b ∈ m -> R a b.
Proof.
  induction l as [|x l IH]; intros Hs Ha Hb; [by apply not_elem_of_nil in Ha|].
  cbn in Hs. apply StronglySorted_inv in Hs as [Hs Hall]. rewrite Forall_forall in Hall.
  apply elem_of_cons in Ha as [->|Ha]; [|by apply IH]. apply Hall, elem_of_app. by right.
Qed.
Lemma nodup_filter {A} p (l : list A) : NoDup l -> NoDup (List.filter p l).
Proof. rewrite <- (list_fmap_id l) at 1. rewrite <- (list_fmap_id (List.filter p l)). apply filter_nodup_map. Qed.
Lemma rows_nodup s : store_wf s -> NoDup (t_events s).
Proof. intros Hw. eapply NoDup_fmap_1. apply (sw_ids _ Hw). Qed.

(** Capping an inbox keeps to the cap: the wraps still held for that person
    come to at most [cap] characters, nothing goes but wraps for them, and
    none goes that arrived later than one that stays. *)
Theorem cap_wraps_bound s to cap : rtc store_step empty_store s -> 0 <= cap < U64_MAX ->
  let s' := fst (cap_wraps s to cap) in
  size_of (List.filter (addressed s to) (t_events s')) <= cap /\
  (forall r, r ∈ t_events s' -> r ∈ t_events s) /\
  (forall gone, gone ∈ t_events s -> gone ∉ t_events s' -> addressed s to gone = true /\
     forall stays, stays ∈ t_events s' -> addressed s to stays = true ->
       w_received_at gone <= w_received_at stays).
Proof.
  intros Hreach Hcap s'. pose proof (reachable_wf s Hreach) as Hw.
  destruct (over_cap_split cap 0 (wraps_to s to)) as (stay & go & Hsplit & Ho & Ht); [lia|lia|].
  assert (Hin : forall r, r ∈ t_events s' <-> r ∈ t_events s /\ w_id r ∉ map w_id go).
  { intros r. unfold s', cap_wraps. cbn [fst]. rewrite Ho. apply delete_ids_events. }
  assert (Hstay : forall r, r ∈ t_events s' -> addressed s to r = true -> r ∈ stay).
  { intros r Hr Ha. apply Hin in Hr as [Hr Hg].
    assert (Hx : r ∈ stay ++ go) by (rewrite <- Hsplit; by apply wraps_to_elem).
    apply elem_of_app in Hx as [?|Hx]; [done|]. destruct Hg. by apply list_elem_of_fmap_2. }
  split_and!.
  - etransitivity; [|exact Ht]. apply size_of_sub.
    + apply nodup_filter, rows_nodup. unfold s', cap_wraps. cbn [fst]. by apply delete_ids_wf.
    + intros r [Hr Ha]%filter_elem. by apply Hstay.
  - intros r Hr. by apply Hin in Hr as [? _].
  - intros gone Hg Hng.
    assert (Hgo : gone ∈ go).
    { destruct (decide (w_id gone ∈ map w_id go)) as [Hi|Hi]; [|by destruct Hng; apply Hin].
      apply list_elem_of_fmap in Hi as (x & Hx & Hxg).
      assert (x ∈ t_events s) by (apply (wraps_to_elem s to); rewrite Hsplit; apply elem_of_app; by right).
      by rewrite (row_unique s gone x). }
    split; [apply (wraps_to_elem s to); rewrite Hsplit; apply elem_of_app; by right|].
    intros stays Hs Ha. specialize (Hstay _ Hs Ha).
    pose proof (isort_sorted later_first later_first_total later_first_trans
      (flat_map (joined s "p" (pk_to_hex to)) (List.filter (fun r => w_kind r =? GIFT_WRAP) (t_events s)))) as Hsort.
    change (isort later_first _) with (wraps_to s to) in Hsort. rewrite Hsplit in Hsort.
    pose proof (sorted_split _ _ _ _ _ Hsort Hstay Hgo) as Hl. cbn in Hl. apply Is_true_true in Hl.
    unfold later_first in Hl. rewrite orb_true_iff, andb_true_iff, Z.ltb_lt, Z.eqb_eq in Hl. lia.
Qed.
Lemma store_all_steps s l s' : store_all s l = Ok s' -> rtc store_step s s'.
Proof.
  revert s. induction l as [|[e now] l IH]; intros s H; cbn in H; [by injection H as <-|].
  destruct (insert s e now) as [[s1 r]|] eqn:E; [|done]. eapply rtc_l; [by eapply ss_insert|by apply IH].
Qed.
End StoreSpec.
