(* ===== verification/Jitter.v ===== *)
(** The voice path (crates/hit-voice): the datagram a frame travels in
    ([Packet], wire.rs) and the jitter buffer that puts frames back in order
    ([Jitter], jitter.rs).

    A [u32] is a [Z] and its wrap is written out ([add32], [sub32]: the release
    build's arithmetic); [Jitter.wf] bounds the newest position so that none of
    them does.  The [BTreeMap] of held packets is a [gmap Z] read in key order. *)
From S2P Require Import Prelude.

(** ** The datagram *)
Module Packet.

Definition VERSION : Z := 1.
Definition SPEAKING : Z := 1.

Record Packet := { seq : Z; speaking : bool; opus : list Z }.

#[export] Instance Packet_eq_dec : EqDecision Packet.
Proof. solve_decision. Defined.

(** [u16::to_be_bytes] and [u16::from_be_bytes]. *)
Definition to_be_bytes (n : Z) : list Z := [Z.shiftr n 8; Z.land n 255].
Definition from_be_bytes (a b : Z) : Z := Z.lor (Z.shiftl a 8) b.

Definition Packet_encode (p : Packet) : list Z :=
  VERSION :: to_be_bytes (seq p) ++ (if speaking p then SPEAKING else 0) :: opus p.

Definition Packet_decode (bytes : list Z) : option Packet :=
  match bytes with
  | v :: a :: b :: flags :: opus =>
      if ((v =? VERSION) && negb (bool_decide (opus = [])))%bool then
        Some {| seq := from_be_bytes a b;
                speaking := negb (Z.land flags SPEAKING =? 0);
                opus := opus |}
      else None
  | _ => None
  end.

Lemma be_bytes_inv n : from_be_bytes (Z.shiftr n 8) (Z.land n 255) = n.
Proof.
  unfold from_be_bytes. apply Z.bits_inj'. intros i Hi.
  rewrite Z.lor_spec, Z.land_spec, Z.shiftl_spec by lia.
  change 255 with (Z.ones 8). rewrite Z.testbit_ones_nonneg by lia.
  destruct (Z.ltb_spec i 8).
  - rewrite Z.testbit_neg_r by lia. by rewrite andb_true_r.
  - rewrite Z.shiftr_spec by lia. rewrite andb_false_r, orb_false_r.
    f_equal. lia.
Qed.
Lemma be_bytes_split a b : 0 <= a < 256 -> 0 <= b < 256 ->
  0 <= from_be_bytes a b < 65536 /\ Z.shiftr (from_be_bytes a b) 8 = a /\
  Z.land (from_be_bytes a b) 255 = b.
Proof.
  intros Ha Hb. assert (from_be_bytes a b = a * 256 + b) as ->.
  { unfold from_be_bytes. rewrite Z.shiftl_mul_pow2 by lia. change (2 ^ 8) with 256.
    rewrite <- Z.add_lor_land.
    assert (Z.land (a * 256) b = 0) as Hz.
    { apply Z.bits_inj'. intros i Hi. rewrite Z.land_spec, Z.bits_0.
      destruct (Z.ltb_spec i 8).
      - change 256 with (2 ^ 8). rewrite Z.mul_pow2_bits_low by lia. done.
      - replace b with (b mod 2 ^ 8) by (apply Z.mod_small; lia).
        rewrite Z.mod_pow2_bits_high by lia. by rewrite andb_false_r. }
    rewrite Hz. lia. }
  split; [lia|]. rewrite Z.shiftr_div_pow2 by lia. change 255 with (Z.ones 8).
  rewrite Z.land_ones by lia. change (2 ^ 8) with 256.
  rewrite Z.div_add_l, Z.div_small by lia.
  rewrite (Z.add_comm (a * 256)), Z.mod_add, Z.mod_small by lia. lia.
Qed.

(** A voice packet comes back from its datagram as it was, and whatever
    decodes is a version-1 datagram with audio in it: version, sequence number,
    flags, then exactly the packet's audio. *)
Theorem packet_round_trip p : 0 <= seq p < 65536 -> opus p <> [] ->
  Packet_decode (Packet_encode p) = Some p /\
  forall bytes q, Forall (fun b => 0 <= b < 256) bytes -> Packet_decode bytes = Some q ->
    opus q <> [] /\ 0 <= seq q < 65536 /\
    exists flags, bytes = VERSION :: to_be_bytes (seq q) ++ flags :: opus q /\
                  speaking q = Z.odd flags.
Proof.
  intros Hs Ho. split.
  - destruct p as [s sp o]. cbn in *. unfold Packet_decode, Packet_encode, to_be_bytes. cbn.
    rewrite bool_decide_false by done. cbn. rewrite be_bytes_inv. by destruct sp.
  - intros bytes q Hb Hd. destruct bytes as [|v [|a [|b [|flags o]]]]; try done.
    cbn in Hd. destruct (v =? VERSION) eqn:Ev; [|done]. apply Z.eqb_eq in Ev. subst v.
    destruct (bool_decide (o = [])) eqn:Eo; [done|]. apply bool_decide_eq_false in Eo.
    injection Hd as <-. cbn. rewrite !Forall_cons in Hb. destruct Hb as (_ & Ha & Hb & _).
    destruct (be_bytes_split a b Ha Hb) as (Hr & Hhi & Hlo).
    split; [done|]. split; [done|]. exists flags. split.
    + unfold to_be_bytes. by rewrite Hhi, Hlo.
    + change SPEAKING with (Z.ones 1). rewrite Z.land_ones by lia.
      rewrite <- Z.bit0_mod, Z.bit0_odd. by destruct (Z.odd flags).
Qed.

End Packet.

(** ** The buffer *)
Module Jitter.

Inductive Slot :=
| Waiting
| Play (p : list Z)
| Recover (p : list Z)
| Conceal.

#[export] Instance Slot_eq_dec : EqDecision Slot.
Proof. solve_decision. Defined.

Record Jitter := {
  delay : Z;
  held : gmap Z (list Z);
  next : option Z;
  newest : option Z;
  dry : Z;
}.

Definition MAX_DRY : Z := 10.
Definition MAX_HELD : Z := 100.
Definition CATCH_UP : Z := 6.

Definition add32 (a b : Z) : Z := (a + b) mod 4294967296.
Definition sub32 (a b : Z) : Z := (a - b) mod 4294967296.
Definition abs_diff (a b : Z) : Z := Z.abs (a - b).

Definition new (delay : Z) : Jitter :=
  {| delay := Z.max delay 1; held := ∅; next := None; newest := None; dry := 0 |}.

(** [Iterator::min_by_key]: the first of the least. *)
Fixpoint min_by_key (key : Z -> Z) (l : list Z) : option Z :=
  match l with
  | [] => None
  | x :: t =>
      match min_by_key key t with
      | Some y => if key y <? key x then Some y else Some x
      | None => Some x
      end
  end.

Definition unwrap (j : Jitter) (seq : Z) : Z :=
  match newest j with
  | None => seq + 65536
  | Some n =>
      let base := Z.ldiff n 65535 in
      let candidates := [sub32 base 65536; base; add32 base 65536] in
      opt_get n (min_by_key (fun c => abs_diff c n) (map (fun b => add32 b seq) candidates))
  end.

(** The keys in order, the first of them, and [BTreeMap::pop_first]. *)
Definition keys (m : gmap Z (list Z)) : list Z := (map_entries Z.leb m).*1.
Definition pop_first (m : gmap Z (list Z)) : gmap Z (list Z) :=
  match head (keys m) with Some k => delete k m | None => m end.
Definition len (m : gmap Z (list Z)) : Z := Z.of_nat (size m).

(** [while held.len() > MAX_HELD { held.pop_first(); }] *)
Fixpoint trim_held (fuel : nat) (m : gmap Z (list Z)) : gmap Z (list Z) :=
  match fuel with
  | O => m
  | S f => if MAX_HELD <? len m then trim_held f (pop_first m) else m
  end.

Definition push (j : Jitter) (seq : Z) (packet : list Z) : Jitter :=
  let s := unwrap j seq in
  if is_some_and (next j) (fun n => s <? n) then j
  else
    let m := <[s := packet]> (held j) in
    {| delay := delay j;
       held := trim_held (size m) m;
       next := next j;
       newest := Some (match newest j with Some n => Z.max n s | None => s end);
       dry := dry j |}.

Definition set_next (j : Jitter) (n : option Z) : Jitter :=
  {| delay := delay j; held := held j; next := n; newest := newest j; dry := dry j |}.

(** [retain(|s, _| *s >= to)] *)
Definition retain_from (to : Z) (m : gmap Z (list Z)) : gmap Z (list Z) :=
  filter (fun kv => to <= kv.1) m.

(** The tick of a started buffer: what follows the [let .. else] of [pop]. *)
Definition tick (j : Jitter) (next0 : Z) : Slot * Jitter :=
  let skip :=
    match newest j with
    | Some newest =>
        if add32 next0 ((delay j + CATCH_UP) mod 4294967296) <? add32 newest 1
        then Some (sub32 (add32 newest 1) (delay j mod 4294967296)) else None
    | None => None
    end in
  let '(at_, m) :=
    match skip with
    | Some to => (to, retain_from to (held j))
    | None => (next0, held j)
    end in
  let j1 := {| delay := delay j; held := delete at_ m; next := Some (add32 at_ 1);
               newest := newest j; dry := 0 |} in
  match m !! at_ with
  | Some p => (Play p, j1)
  | None =>
      let dry1 := dry j + 1 in
      if ((MAX_DRY <? dry1) || (bool_decide (m = ∅) && (2 <? dry1)))%bool then
        (Waiting, {| delay := delay j; held := m; next := None;
                     newest := newest j; dry := 0 |})
      else
        let j2 := {| delay := delay j; held := m; next := Some (add32 at_ 1);
                     newest := newest j; dry := dry1 |} in
        match m !! add32 at_ 1 with
        | Some p => (Recover p, j2)
        | None => (Conceal, j2)
        end
  end.

(** [pop] calls itself once, with [next] set. *)
Definition pop (j : Jitter) : Slot * Jitter :=
  match next j with
  | Some n => tick j n
  | None =>
      if len (held j) <? delay j then (Waiting, j)
      else
        let first := opt_get 0 (head (keys (held j))) in
        tick (set_next j (Some first)) first
  end.

(** *** Small facts about the held packets *)

Lemma keys_elem m k : k ∈ keys m <-> is_Some (m !! k).
Proof.
  unfold keys. rewrite list_elem_of_fmap. split.
  - intros ([k' v] & -> & Hin). exists v. by apply map_entries_elem in Hin.
  - intros [v Hv]. exists (k, v). split; [done|]. by apply map_entries_elem.
Qed.
Lemma keys_nil m : keys m = [] -> m = ∅.
Proof.
  intros Hk. apply map_eq. intros k. rewrite lookup_empty.
  destruct (m !! k) eqn:E; [|done].
  assert (k ∈ keys m) as Hin by (apply keys_elem; eauto).
  rewrite Hk in Hin. by apply not_elem_of_nil in Hin.
Qed.
Lemma keys_head m k : head (keys m) = Some k ->
  is_Some (m !! k) /\ forall k', is_Some (m !! k') -> k <= k'.
Proof.
  intros Hh. pose proof (isort_sorted (fun a b : Z * list Z => Z.leb a.1 b.1)
    ltac:(intros ??; rewrite !Z.leb_le; lia) ltac:(intros ???; rewrite !Z.leb_le; lia)
    (map_to_list m)) as Hs.
  change (isort _ _) with (map_entries Z.leb m) in Hs.
  assert (Hin : k ∈ keys m) by (by destruct (keys m); simplify_eq/=; left).
  split; [by apply keys_elem|]. intros k' [v' Hv'].
  apply map_entries_elem with (leb := Z.leb) in Hv'.
  unfold keys in Hh. destruct (map_entries Z.leb m) as [|[k0 v0] l] eqn:El; [done|].
  cbn in Hh. simplify_eq. apply StronglySorted_inv in Hs as [_ Hall].
  apply elem_of_cons in Hv' as [Heq|Hv']; [simplify_eq; lia|].
  rewrite Forall_forall in Hall. apply Hall in Hv'. apply Is_true_true in Hv'.
  apply Z.leb_le in Hv'. exact Hv'.
Qed.
Lemma keys_head_some m : m <> ∅ -> exists k, head (keys m) = Some k.
Proof.
  intros Hne. destruct (keys m) as [|k l] eqn:E; [|by exists k].
  by apply keys_nil in E.
Qed.
Lemma pop_first_len m : m <> ∅ -> len (pop_first m) = len m - 1.
Proof.
  intros Hne. destruct (keys_head_some m Hne) as [k Hk].
  unfold pop_first, len. rewrite Hk. destruct (keys_head m k Hk) as [[v Hv] _].
  rewrite map_size_delete_Some by eauto.
  assert (size m <> 0%nat) by (by rewrite map_size_non_empty_iff). lia.
Qed.
Lemma trim_len fuel m : (size m <= fuel)%nat -> len (trim_held fuel m) <= MAX_HELD.
Proof.
  revert m. induction fuel as [|f IH]; intros m Hf; cbn.
  - unfold len, MAX_HELD. lia.
  - destruct (Z.ltb_spec MAX_HELD (len m)) as [Hl|Hl]; [|done].
    assert (m <> ∅) as Hne by (intros ->; unfold len, MAX_HELD in Hl; by rewrite map_size_empty in Hl).
    apply IH. pose proof (pop_first_len m Hne) as Hp. unfold len in *. lia.
Qed.
Lemma trim_sub fuel m k v : trim_held fuel m !! k = Some v -> m !! k = Some v.
Proof.
  revert m. induction fuel as [|f IH]; intros m; cbn; [done|].
  destruct (MAX_HELD <? len m); [|done]. intros H%IH. revert H. unfold pop_first.
  destruct (head (keys m)); [|done]. rewrite lookup_delete_Some. by intros [_ ?].
Qed.
Lemma trim_small fuel m : len m <= MAX_HELD -> trim_held fuel m = m.
Proof. intros H. destruct fuel; [done|]. cbn. by destruct (Z.ltb_spec MAX_HELD (len m)); [lia|]. Qed.

(** *** The invariant

    [wf B j]: what holds of a buffer whose newest position is at most [B].
    Below [LIMIT] no [u32] operation of the buffer wraps. *)
Definition LIMIT : Z := 4294836224.

Record wf (B : Z) (j : Jitter) : Prop := {
  wf_delay : 1 <= delay j <= MAX_HELD;
  wf_len : len (held j) <= MAX_HELD;
  wf_dry : 0 <= dry j <= MAX_DRY;
  wf_newest n : newest j = Some n -> 65536 <= n <= B;
  wf_keys k : is_Some (held j !! k) ->
    exists n, newest j = Some n /\ 32768 <= k <= n /\ forall m, next j = Some m -> m <= k;
  wf_next m : next j = Some m -> exists n, newest j = Some n /\ 0 <= m <= n + 1 + dry j;
}.

Lemma add32_small a b : 0 <= a + b < 4294967296 -> add32 a b = a + b.
Proof. intros. by apply Z.mod_small. Qed.
Lemma sub32_small a b : 0 <= a - b < 4294967296 -> sub32 a b = a - b.
Proof. intros. by apply Z.mod_small. Qed.
Lemma base_spec n : 0 <= n ->
  Z.ldiff n 65535 = n - n mod 65536 /\ 0 <= n mod 65536 < 65536.
Proof.
  intros Hn. change 65535 with (Z.ones 16). rewrite Z.ldiff_ones_r by lia.
  rewrite Z.shiftl_mul_pow2, Z.shiftr_div_pow2 by lia. change (2 ^ 16) with 65536.
  pose proof (Z.div_mod n 65536). pose proof (Z.mod_pos_bound n 65536). lia.
Qed.

Lemma unwrap_near j n seq :
  newest j = Some n -> 65536 <= n <= LIMIT -> 0 <= seq < 65536 ->
  unwrap j seq mod 65536 = seq /\ Z.abs (unwrap j seq - n) <= 32768.
Proof.
  intros Hn Hr Hs. unfold unwrap. rewrite Hn.
  destruct (base_spec n) as [Hb Hm]; [lia|]. rewrite Hb. unfold LIMIT in Hr.
  assert (Hdiv : n = 65536 * (n / 65536) + n mod 65536) by (apply Z.div_mod; lia).
  assert (1 <= n / 65536) by (apply Z.div_le_lower_bound; lia).
  set (q := n / 65536) in *. set (r := n mod 65536) in *.
  rewrite sub32_small, (add32_small (n - r) 65536) by lia. cbn.
  rewrite !add32_small by lia.
  assert (Hmod : forall k, (65536 * k + seq) mod 65536 = seq).
  { intros k. rewrite Z.mul_comm, Z.add_comm, Z.mod_add by lia. by apply Z.mod_small. }
  unfold abs_diff.
  repeat match goal with |- context [?a <? ?b] => destruct (Z.ltb_spec a b) end; cbn;
    (split; [|lia]).
  all: match goal with |- ?x mod _ = _ =>
    first [ replace x with (65536 * (q - 1) + seq) by lia; apply Hmod
          | replace x with (65536 * q + seq) by lia; apply Hmod
          | replace x with (65536 * (q + 1) + seq) by lia; apply Hmod ] end.
Qed.

(** A sender's own count, as long as it is within half the range of the
    newest one seen, is recovered from its low sixteen bits. *)
Lemma unwrap_exact j n t :
  newest j = Some n -> 65536 <= n <= LIMIT -> Z.abs (t - n) < 32768 ->
  unwrap j (t mod 65536) = t.
Proof.
  intros Hn Hr Ht.
  pose proof (Z.mod_pos_bound t 65536 ltac:(lia)) as Hm.
  destruct (unwrap_near j n (t mod 65536) Hn Hr Hm) as [Hu Hd].
  pose proof (Z.div_mod t 65536). pose proof (Z.div_mod (unwrap j (t mod 65536)) 65536).
  lia.
Qed.

Lemma unwrap_range B j seq : wf B j -> B <= LIMIT -> 131071 <= B -> 0 <= seq < 65536 ->
  32768 <= unwrap j seq <= B + 32768 /\
  (forall n, newest j = Some n -> 32768 <= unwrap j seq <= n + 32768).
Proof.
  intros Hw HB HB2 Hs. destruct (newest j) as [n|] eqn:En.
  - pose proof (wf_newest _ _ Hw n En). unfold LIMIT in *.
    destruct (unwrap_near j n seq En) as [_ Hd]; [unfold LIMIT; lia|done|].
    split; [lia|]. intros ? [= <-]. lia.
  - unfold unwrap. rewrite En. split; [lia|]. intros ? [=].
Qed.

Lemma wf_mono B B' j : B <= B' -> wf B j -> wf B' j.
Proof.
  intros HB [H1 H2 H3 H4 H5 H6]. split; try done.
  intros n Hn. specialize (H4 n Hn). lia.
Qed.
Lemma wf_new d : d <= MAX_HELD -> wf 131071 (new d).
Proof.
  unfold MAX_HELD. intros Hd. split; cbn; unfold MAX_HELD, MAX_DRY; try lia; try done.
  intros k Hk. rewrite lookup_empty in Hk. by destruct Hk.
Qed.

Lemma wf_push B j seq p : wf B j -> B <= LIMIT -> 131071 <= B -> 0 <= seq < 65536 ->
  wf (B + 32768) (push j seq p).
Proof.
  intros Hw HB HB2 Hs. destruct (unwrap_range B j seq Hw HB HB2 Hs) as [Hu Hun].
  assert (Hw' : wf (B + 32768) j) by (eapply wf_mono; [|done]; lia).
  unfold push. destruct (is_some_and (next j) (fun n => unwrap j seq <? n)) eqn:Et; [done|].
  destruct Hw as [H1 H2 H3 H4 H5 H6]. split; cbn; try done.
  - by apply trim_len.
  - intros n [= <-]. destruct (newest j) as [n|] eqn:En.
    + specialize (H4 n eq_refl). lia.
    + unfold unwrap. rewrite En. lia.
  - intros k [v Hk%trim_sub]. eexists. split; [done|].
    rewrite lookup_insert_Some in Hk. destruct Hk as [[<- _]|[_ Hk]].
    + split; [destruct (newest j); lia|]. intros m Hm. rewrite Hm in Et. cbn in Et.
      by apply Z.ltb_ge in Et.
    + destruct (H5 k) as (n & Hn & Hk' & Hm); [eauto|]. rewrite Hn. split; [lia|done].
  - intros m Hm. destruct (H6 m Hm) as (n & Hn & Hr). rewrite Hn.
    eexists. split; [done|]. lia.
Qed.

(** *** One tick, without the wraps *)

(** The position a tick is for. *)
Definition turn (j : Jitter) (n0 : Z) : Z :=
  match newest j with
  | Some n => if n0 + delay j + CATCH_UP <? n + 1 then n + 1 - delay j else n0
  | None => n0
  end.
(** What is still held once everything before that is given up. *)
Definition left_at (j : Jitter) (n0 : Z) : gmap Z (list Z) := retain_from (turn j n0) (held j).
Definition with_held (j : Jitter) m n d : Jitter :=
  {| delay := delay j; held := m; next := n; newest := newest j; dry := d |}.

Definition plain_tick (j : Jitter) (n0 : Z) : Slot * Jitter :=
  let t := turn j n0 in
  let m := left_at j n0 in
  match m !! t with
  | Some p => (Play p, with_held j (delete t m) (Some (t + 1)) 0)
  | None =>
      if ((MAX_DRY <? dry j + 1) || (bool_decide (m = ∅) && (2 <? dry j + 1)))%bool
      then (Waiting, with_held j m None 0)
      else (match m !! (t + 1) with Some p => Recover p | None => Conceal end,
            with_held j m (Some (t + 1)) (dry j + 1))
  end.

Lemma turn_range B j n0 : wf B j -> next j = Some n0 ->
  exists n, newest j = Some n /\ n0 <= turn j n0 <= n + 1 + dry j /\
            n + 1 <= turn j n0 + delay j + CATCH_UP.
Proof.
  intros Hw Hn. destruct (wf_next _ _ Hw _ Hn) as (n & Hnn & Hr). exists n.
  pose proof (wf_delay _ _ Hw). pose proof (wf_dry _ _ Hw).
  split; [done|]. unfold turn. rewrite Hnn. unfold CATCH_UP.
  destruct (Z.ltb_spec (n0 + delay j + 6) (n + 1)); lia.
Qed.

Lemma retain_lookup t m k v : retain_from t m !! k = Some v <-> m !! k = Some v /\ t <= k.
Proof. unfold retain_from. rewrite map_lookup_filter_Some. done. Qed.
Lemma retain_all t m : (forall k, is_Some (m !! k) -> t <= k) -> retain_from t m = m.
Proof. intros H. apply map_filter_id. intros k v Hk. apply H. eauto. Qed.

Lemma left_unskipped B j n0 : wf B j -> next j = Some n0 -> turn j n0 = n0 ->
  left_at j n0 = held j.
Proof.
  intros Hw Hn Ht. unfold left_at. rewrite Ht. apply retain_all. intros k Hk.
  destruct (wf_keys _ _ Hw k Hk) as (? & _ & _ & Hm). by apply Hm.
Qed.

Lemma tick_plain B j n0 : wf B j -> B <= LIMIT -> next j = Some n0 ->
  tick j n0 = plain_tick j n0.
Proof.
  intros Hw HB Hn. destruct (turn_range _ _ _ Hw Hn) as (n & Hnn & Ht & _).
  destruct (wf_next _ _ Hw _ Hn) as (? & Hnn' & Hr). simplify_eq.
  pose proof (wf_delay _ _ Hw) as Hd. pose proof (wf_dry _ _ Hw) as Hy.
  pose proof (wf_newest _ _ Hw _ Hnn) as Hnb.
  pose proof (left_unskipped _ _ _ Hw Hn) as Hun.
  unfold LIMIT, MAX_HELD, MAX_DRY in *.
  unfold plain_tick, tick, left_at, turn in *. rewrite Hnn in *. unfold CATCH_UP in *.
  rewrite (Z.mod_small (delay j + 6)), (Z.mod_small (delay j)) by lia.
  rewrite !(add32_small n 1), (add32_small n0 (delay j + 6)) by lia.
  replace (n0 + (delay j + 6)) with (n0 + delay j + 6) by lia.
  destruct (Z.ltb_spec (n0 + delay j + 6) (n + 1)) as [Hs|Hs].
  - rewrite sub32_small by lia. rewrite add32_small by lia.
    unfold with_held. rewrite Hnn. repeat case_match; simplify_eq/=; done.
  - rewrite add32_small by lia. rewrite Hun by done.
    unfold with_held. rewrite Hnn. repeat case_match; simplify_eq/=; done.
Qed.

(** A start picks the oldest packet held; it needs [delay] of them. *)
Lemma wf_start B j first : wf B j -> next j = None -> head (keys (held j)) = Some first ->
  wf B (set_next j (Some first)).
Proof.
  intros Hw Hn Hh. destruct (keys_head _ _ Hh) as [Hin Hmin].
  destruct (wf_keys _ _ Hw _ Hin) as (n & Hnn & Hk & _).
  destruct Hw as [H1 H2 H3 H4 H5 H6]. split; cbn; try done.
  - intros k Hk'. destruct (H5 k Hk') as (n' & Hn' & Hr & _). exists n'.
    split; [done|]. split; [done|]. intros m [= <-]. by apply Hmin.
  - intros m [= <-]. exists n. split; [done|]. lia.
Qed.

Lemma size_retain t m : len (retain_from t m) <= len m.
Proof.
  unfold len. apply inj_le. apply map_size_filter.
Qed.

Lemma wf_plain_tick B j n0 : wf B j -> next j = Some n0 -> wf B (plain_tick j n0).2.
Proof.
  intros Hw Hn. destruct (turn_range _ _ _ Hw Hn) as (n & Hnn & Ht & _).
  destruct (wf_next _ _ Hw _ Hn) as (? & Hnn' & Hr). simplify_eq.
  pose proof (size_retain (turn j n0) (held j)) as Hsz.
  destruct Hw as [H1 H2 H3 H4 H5 H6].
  assert (Hkeys : forall k, is_Some (left_at j n0 !! k) -> 32768 <= k <= n /\ turn j n0 <= k).
  { intros k [v [Hk Hle]%retain_lookup]. destruct (H5 k) as (n' & Hn' & Hk' & _); [eauto|].
    simplify_eq. lia. }
  unfold plain_tick. unfold left_at in *.
  destruct (retain_from (turn j n0) (held j) !! turn j n0) as [p|] eqn:Ep.
  - split; cbn; try done; unfold MAX_DRY in *; try lia.
    + unfold len in *. rewrite map_size_delete, Ep. cbn. lia.
    + intros k [v [Hne Hk]%lookup_delete_Some]. exists n. split; [done|].
      destruct (Hkeys k) as [? ?]; [eauto|]. split; [done|]. intros m [= <-]. lia.
    + intros m [= <-]. exists n. split; [done|].
      destruct (Hkeys (turn j n0)) as [? ?]; [eauto|]. lia.
  - destruct ((MAX_DRY <? dry j + 1) || _)%bool eqn:Es.
    + split; cbn; try done; unfold MAX_DRY in *; try lia.
      intros k Hk. exists n. split; [done|]. destruct (Hkeys k Hk) as [? ?].
      split; [done|]. done.
    + apply orb_false_iff in Es as [Es _]. apply Z.ltb_ge in Es.
      split; cbn; try done; try lia.
      * intros k Hk. exists n. split; [done|]. destruct (Hkeys k Hk) as [? ?].
        split; [done|]. intros m [= <-].
        assert (k <> turn j n0) by (intros ->; destruct Hk as [? Hk]; congruence). lia.
      * intros m [= <-]. exists n. split; [done|]. lia.
Qed.

(** [pop] is [plain_tick], once there is something to start from. *)
Lemma pop_cases B j : wf B j -> B <= LIMIT ->
  (next j = None /\ len (held j) < delay j /\ pop j = (Waiting, j)) \/
  (exists j0 n0, next j0 = Some n0 /\ wf B j0 /\ held j0 = held j /\
     delay j0 = delay j /\ newest j0 = newest j /\ dry j0 = dry j /\
     (next j = Some n0 \/ next j = None /\ delay j <= len (held j) /\ head (keys (held j)) = Some n0) /\
     pop j = plain_tick j0 n0).
Proof.
  intros Hw HB. unfold pop. destruct (next j) as [n0|] eqn:En.
  - right. exists j, n0. split_and!; try done; [by left|]. by eapply tick_plain.
  - destruct (Z.ltb_spec (len (held j)) (delay j)) as [Hl|Hl]; [by left|right].
    assert (held j <> ∅) as Hne.
    { intros He. pose proof (wf_delay _ _ Hw). rewrite He in Hl. unfold len in Hl.
      rewrite map_size_empty in Hl. lia. }
    destruct (keys_head_some _ Hne) as [f Hf]. rewrite Hf. cbn.
    exists (set_next j (Some f)), f. split_and!; try done.
    + by apply wf_start.
    + right. done.
    + eapply tick_plain; [|done|done]. by apply wf_start.
Qed.

(** *** Runs *)

Inductive op := Push (seq : Z) (packet : list Z) | Pop.

Fixpoint run (j : Jitter) (ops : list op) : list Slot * Jitter :=
  match ops with
  | [] => ([], j)
  | Push s p :: t => run (push j s p) t
  | Pop :: t =>
      let '(slot, j1) := pop j in
      let '(slots, j2) := run j1 t in (slot :: slots, j2)
  end.
(** The positions played, with what was played. *)
Fixpoint plays (j : Jitter) (ops : list op) : list (Z * list Z) :=
  match ops with
  | [] => []
  | Push s p :: t => plays (push j s p) t
  | Pop :: t =>
      let '(slot, j1) := pop j in
      match slot, next j1 with
      | Play p, Some n => [(n - 1, p)]
      | _, _ => []
      end ++ plays j1 t
  end.
Definition pushes (ops : list op) : Z :=
  Z.of_nat (length (List.filter (fun o => match o with Push _ _ => true | Pop => false end) ops)).
Definition op_ok (o : op) : Prop :=
  match o with Push s _ => 0 <= s < 65536 | Pop => True end.

Lemma pushes_push s p ops : pushes (Push s p :: ops) = 1 + pushes ops.
Proof. unfold pushes. cbn. lia. Qed.
Lemma pushes_nonneg ops : 0 <= pushes ops.
Proof. unfold pushes. lia. Qed.

Lemma wf_pop B j : wf B j -> B <= LIMIT -> wf B (pop j).2.
Proof.
  intros Hw HB. destruct (pop_cases B j Hw HB) as
    [(_ & _ & ->) | (j0 & n0 & Hn & Hw0 & _ & _ & _ & _ & _ & ->)]; [done|].
  by apply wf_plain_tick.
Qed.
Lemma wf_run ops B j : wf B j -> 131071 <= B -> B + 32768 * pushes ops <= LIMIT ->
  Forall op_ok ops -> wf (B + 32768 * pushes ops) (run j ops).2.
Proof.
  revert B j. induction ops as [|[s p|] ops IH]; intros B j Hw HB1 HB Hok.
  - eapply wf_mono; [|done]. pose proof (pushes_nonneg []). lia.
  - rewrite pushes_push in *. pose proof (pushes_nonneg ops).
    apply Forall_cons in Hok as [Ho Hok]. cbn.
    replace (B + 32768 * (1 + pushes ops)) with (B + 32768 + 32768 * pushes ops) by lia.
    apply IH; [|lia|lia|done]. apply wf_push; try done; lia.
  - apply Forall_cons in Hok as [_ Hok]. change (pushes (Pop :: ops)) with (pushes ops) in *.
    cbn. pose proof (pushes_nonneg ops).
    pose proof (wf_pop B j Hw ltac:(lia)) as Hw1. destruct (pop j) as [slot j1]. cbn in Hw1.
    specialize (IH B j1 Hw1 HB1 HB Hok). by destruct (run j1 ops) as [slots j2].
Qed.

Lemma latency B j : wf B j -> B <= LIMIT -> forall n m,
  newest (pop j).2 = Some n -> next (pop j).2 = Some m -> n < m + delay j + CATCH_UP.
Proof.
  intros Hw HB n m. destruct (pop_cases B j Hw HB) as
    [(Hn & _ & ->) | (j0 & n0 & Hn & Hw0 & _ & <- & _ & _ & _ & ->)]; [cbn; congruence|].
  destruct (turn_range _ _ _ Hw0 Hn) as (n' & Hnn & Ht & Hl).
  unfold plain_tick. cbv zeta.
  repeat case_match; cbn; intros; simplify_eq; lia.
Qed.

(** The jitter buffer stays within its bounds whatever arrives: for any
    sequence of pushes (fewer than 131,000, the range of a [u32] position when
    every packet jumps as far ahead as it can) and ticks from a new buffer, at
    most [MAX_HELD] packets are held, it never conceals more than [MAX_DRY]
    ticks in a row, every packet held is still to be played, and the next tick
    leaves it less than [delay + CATCH_UP] frames behind the newest. *)
Theorem buffer_bounds d ops : d <= MAX_HELD -> Forall op_ok ops -> pushes ops <= 131000 ->
  let j := (run (new d) ops).2 in
  len (held j) <= MAX_HELD /\ 0 <= dry j <= MAX_DRY /\
  (forall k m, is_Some (held j !! k) -> next j = Some m -> m <= k) /\
  (forall n m, newest (pop j).2 = Some n -> next (pop j).2 = Some m ->
     n < m + delay j + CATCH_UP).
Proof.
  intros Hd Hok Hp j. pose proof (pushes_nonneg ops).
  assert (Hw : wf (131071 + 32768 * pushes ops) j).
  { apply wf_run; [by apply wf_new|lia|unfold LIMIT; lia|done]. }
  split_and!; [apply Hw|apply Hw|apply Hw| |].
  - intros k m Hk Hm. destruct (wf_keys _ _ Hw k Hk) as (? & _ & _ & Hle). by apply Hle.
  - apply (latency _ _ Hw). unfold LIMIT. lia.
Qed.

(** What a tick of a started buffer plays is what it holds for the tick's
    turn [t]: its packet; lacking that, the packet after it to rebuild it
    from; lacking both, concealment; and silence and a fresh start only after
    [MAX_DRY] ticks with nothing, or two with nothing left to come. *)
Theorem pop_slots B j n0 : wf B j -> B <= LIMIT -> next j = Some n0 ->
  let t := turn j n0 in
  n0 <= t /\
  match (pop j).1 with
  | Play p => held j !! t = Some p /\ next (pop j).2 = Some (t + 1)
  | Recover p => held j !! t = None /\ held j !! (t + 1) = Some p /\
                 next (pop j).2 = Some (t + 1)
  | Conceal => held j !! t = None /\ held j !! (t + 1) = None /\
               next (pop j).2 = Some (t + 1)
  | Waiting => held j !! t = None /\ next (pop j).2 = None /\
      (dry j = MAX_DRY \/ 2 <= dry j /\ forall k, is_Some (held j !! k) -> k < t)
  end.
Proof.
  intros Hw HB Hn t. destruct (turn_range _ _ _ Hw Hn) as (n & Hnn & Ht & _).
  split; [lia|]. pose proof (wf_dry _ _ Hw) as Hd.
  destruct (pop_cases B j Hw HB) as
    [(? & _) | (j0 & n1 & Hn1 & Hw0 & Hh & Hdl & Hnw & Hdr & [?|[? _]] & ->)]; [congruence| |congruence].
  assert (Ht0 : turn j0 n1 = t) by (unfold t, turn; simplify_eq; by rewrite Hnw, Hdl).
  unfold plain_tick, left_at. rewrite Ht0, Hh, Hdr.
  assert (Hl : forall k, t <= k -> retain_from t (held j) !! k = held j !! k).
  { intros k Hk. destruct (held j !! k) as [v|] eqn:E.
    - by apply retain_lookup.
    - destruct (retain_from t (held j) !! k) eqn:E2; [|done].
      apply retain_lookup in E2 as [? _]. congruence. }
  rewrite !Hl by lia. destruct (held j !! t) eqn:Et; [done|].
  destruct ((MAX_DRY <? dry j + 1) || _)%bool eqn:Es; cbn.
  - split; [done|]. split; [done|]. apply orb_true_iff in Es as [Es|Es].
    + apply Z.ltb_lt in Es. left. lia.
    + right. apply andb_true_iff in Es as [Es1 Es2]. apply bool_decide_eq_true in Es1.
      apply Z.ltb_lt in Es2. split; [lia|]. intros k [v Hk].
      destruct (Z.lt_ge_cases k t) as [|Hge]; [done|].
      assert (Hv : retain_from t (held j) !! k = Some v) by (by apply retain_lookup).
      by rewrite Es1, lookup_empty in Hv.
  - by destruct (held j !! (t + 1)) eqn:Et1.
Qed.

(** *** Order of arrival *)

(** Pushing what a sender numbered [t] in its own count: only the low sixteen
    bits of [t] travel. *)
Definition push_all (j : Jitter) (l : list (Z * list Z)) : Jitter :=
  foldl (fun j tp => push j (tp.1 mod 65536) tp.2) j l.

Lemma foldl_max_perm (l1 l2 : list Z) n : l1 ≡ₚ l2 -> foldl Z.max n l1 = foldl Z.max n l2.
Proof.
  intros Hp. revert n. induction Hp as [|x l1 l2 _ IH|x y l|l1 l2 l3 _ IH1 _ IH2]; intros n; cbn.
  - done.
  - apply IH.
  - by rewrite <- !Z.max_assoc, (Z.max_comm x y).
  - by rewrite IH1.
Qed.

Lemma push_exact j n t p : newest j = Some n -> 65536 <= n <= LIMIT -> Z.abs (t - n) < 32768 ->
  (forall m, next j = Some m -> m <= t) -> len (held j) < MAX_HELD ->
  push j (t mod 65536) p =
  {| delay := delay j; held := <[t := p]> (held j); next := next j;
     newest := Some (Z.max n t); dry := dry j |}.
Proof.
  intros Hn Hr Ht Hm Hl. unfold push. rewrite (unwrap_exact j n t) by done.
  destruct (is_some_and (next j) (fun m => t <? m)) eqn:Et.
  { destruct (next j) as [m|]; [|done]. cbn in Et. apply Z.ltb_lt in Et.
    specialize (Hm m eq_refl). lia. }
  rewrite Hn, trim_small; [done|]. unfold len in *. rewrite map_size_insert.
  case_match; unfold MAX_HELD in *; cbn; lia.
Qed.

Lemma push_all_exact c l j n : 65536 + 16384 <= c -> c + 16384 <= LIMIT ->
  newest j = Some n -> Z.abs (n - c) < 16384 ->
  (forall t, t ∈ l.*1 -> Z.abs (t - c) < 16384 /\ forall m, next j = Some m -> m <= t) ->
  len (held j) + Z.of_nat (length l) <= MAX_HELD ->
  push_all j l =
  {| delay := delay j; held := foldl (fun m kv => <[kv.1 := kv.2]> m) (held j) l;
     next := next j; newest := Some (foldl Z.max n l.*1); dry := dry j |}.
Proof.
  intros Hc1 Hc2. revert j n. induction l as [|[t p] l IH]; intros j n Hn Hnc Hts Hl.
  - cbn. destruct j. cbn in *. by rewrite Hn.
  - cbn [length] in Hl. destruct (Hts t) as [Htc Htm]; [cbn; left|].
    cbn [push_all foldl fst snd].
    unfold push_all in IH |- *. cbn [foldl fst snd].
    rewrite (push_exact j n t p) by (try done; lia).
    rewrite (IH _ (Z.max n t)); cbn; try done.
    + lia.
    + intros t' Ht'. apply Hts. cbn. by right.
    + unfold len in *. rewrite map_size_insert. case_match; cbn; lia.
Qed.

(** Frames come out in the sender's order whatever order they came in: of
    frames the sender numbered with distinct counts [t], all within 16,384 of
    [c] as the newest so far is, and still to be played, the buffer holds each
    at its count, and any order of arrival leaves it in the same state. *)
Theorem arrival_order c j n l l' : 81920 <= c -> c + 16384 <= LIMIT ->
  newest j = Some n -> Z.abs (n - c) < 16384 -> NoDup l.*1 ->
  (forall t, t ∈ l.*1 -> Z.abs (t - c) < 16384 /\ forall m, next j = Some m -> m <= t) ->
  len (held j) + Z.of_nat (length l) <= MAX_HELD -> l' ≡ₚ l ->
  held (push_all j l) = list_to_map l ∪ held j /\ push_all j l' = push_all j l.
Proof.
  intros Hc1 Hc2 Hn Hnc Hnd Hts Hl Hp.
  assert (Hp1 : l'.*1 ≡ₚ l.*1) by (by rewrite Hp).
  assert (Hnd' : NoDup l'.*1) by (by rewrite Hp1).
  rewrite (push_all_exact c l j n), (push_all_exact c l' j n); try done.
  - cbn. rewrite !foldl_insert_entries by done. split; [done|].
    by rewrite (list_to_map_proper l' l Hnd' Hp), (foldl_max_perm _ _ n Hp1).
  - intros t. rewrite Hp1. apply Hts.
  - by rewrite Hp.
Qed.

(** *** Played in turn *)

Lemma push_held j s p k v : held (push j s p) !! k = Some v ->
  held j !! k = Some v \/ k = unwrap j s /\ v = p.
Proof.
  unfold push. destruct (is_some_and _ _); [by left|]. cbn. intros Hk%trim_sub.
  rewrite lookup_insert_Some in Hk. destruct Hk as [[<- <-]|[_ ?]]; [by right|by left].
Qed.
Lemma push_next j s p : next (push j s p) = next j.
Proof. unfold push. by destruct (is_some_and _ _). Qed.
Lemma unwrap_mod B j s : wf B j -> B <= LIMIT -> 0 <= s < 65536 -> unwrap j s mod 65536 = s.
Proof.
  intros Hw HB Hs. destruct (newest j) as [n|] eqn:En.
  - pose proof (wf_newest _ _ Hw n En). by apply (unwrap_near j n); [|lia|].
  - unfold unwrap. rewrite En. replace (s + 65536) with (s + 1 * 65536) by lia.
    rewrite Z.mod_add by lia. by apply Z.mod_small.
Qed.

(** What a started tick leaves: the next turn, and nothing it did not hold. *)
Lemma pop_started B j n0 : wf B j -> B <= LIMIT -> next j = Some n0 -> (pop j).1 <> Waiting ->
  exists t, n0 <= t /\ next (pop j).2 = Some (t + 1) /\
    (forall p, (pop j).1 = Play p -> held j !! t = Some p) /\
    (forall k v, held (pop j).2 !! k = Some v -> held j !! k = Some v).
Proof.
  intros Hw HB Hn Hnw. exists (turn j n0).
  destruct (turn_range _ _ _ Hw Hn) as (n & Hnn & Ht & _).
  destruct (pop_cases B j Hw HB) as
    [(? & _) | (j0 & n1 & Hn1 & Hw0 & Hh & Hdl & Hnw0 & Hdr & [?|[? _]] & Hpop)]; [congruence| |congruence].
  assert (Ht0 : turn j0 n1 = turn j n0) by (unfold turn; simplify_eq; by rewrite Hnw0, Hdl).
  rewrite Hpop in *. unfold plain_tick, left_at in *. rewrite Ht0, Hh in *.
  split; [lia|].
  assert (Hr : forall k v, retain_from (turn j n0) (held j) !! k = Some v -> held j !! k = Some v).
  { intros k v Hk. by apply retain_lookup in Hk as [? _]. }
  destruct (retain_from _ _ !! turn j n0) eqn:Et.
  - split; [done|]. split; [intros p [= <-]; by apply Hr|].
    intros k v Hk. cbn in Hk. apply lookup_delete_Some in Hk as [_ Hk]. by apply Hr.
  - destruct (_ || _)%bool; [done|]. split; [done|].
    split; [intros p; by case_match|]. intros k v Hk. by apply Hr.
Qed.

(** What may be played from [j] on: what it holds, and what is pushed. *)
Definition source (j : Jitter) (ops : list op) (tp : Z * list Z) : Prop :=
  held j !! tp.1 = Some tp.2 \/ Push (tp.1 mod 65536) tp.2 ∈ ops.

(** While the buffer does not start over, packets are played strictly in
    turn: positions only increase (none is played twice, none late), and each
    is the position of a packet held at the start or pushed since under its
    sequence number. *)
Theorem played_in_turn ops B j n0 : wf B j -> 131071 <= B -> B + 32768 * pushes ops <= LIMIT ->
  Forall op_ok ops -> next j = Some n0 -> Waiting ∉ (run j ops).1 ->
  StronglySorted Z.lt (plays j ops).*1 /\
  forall tp, tp ∈ plays j ops -> n0 <= tp.1 /\ source j ops tp.
Proof.
  revert B j n0. induction ops as [|[s p|] ops IH]; intros B j n0 Hw HB1 HB Hok Hn Hnw.
  - split; [constructor|]. intros tp Hin. by apply not_elem_of_nil in Hin.
  - rewrite pushes_push in *. pose proof (pushes_nonneg ops).
    apply Forall_cons in Hok as [Ho Hok]. cbn in Ho, Hnw |- *.
    destruct (IH (B + 32768) (push j s p) n0) as [Hs Hin]; try done; try lia.
    { apply wf_push; try done; lia. }
    { by rewrite push_next. }
    split; [done|]. intros tp Htp. destruct (Hin tp Htp) as [Hle [Hh|Hh]].
    + split; [done|]. apply push_held in Hh as [Hh|[Hk Hv]]; [by left|right].
      rewrite Hk, Hv, (unwrap_mod B) by (try done; lia). left.
    + split; [done|]. right. by right.
  - change (pushes (Pop :: ops)) with (pushes ops) in *. pose proof (pushes_nonneg ops).
    apply Forall_cons in Hok as [_ Hok]. cbn in Hnw |- *.
    assert (Hp1 : (pop j).1 <> Waiting).
    { intros He. destruct (pop j) as [slot j1]. cbn in He. subst slot.
      destruct (run j1 ops). apply Hnw. left. }
    destruct (pop_started B j n0 Hw ltac:(lia) Hn Hp1) as (t & Ht & Hnx & Hpl & Hhe).
    pose proof (wf_pop B j Hw ltac:(lia)) as Hw1.
    destruct (pop j) as [slot j1]. cbn in *.
    destruct (IH B j1 (t + 1)) as [Hs Hin]; try done.
    { destruct (run j1 ops). cbn in *. intros Hx. apply Hnw. by right. }
    assert (Hin' : forall tp, tp ∈ plays j1 ops -> n0 <= tp.1 /\ source j (Pop :: ops) tp).
    { intros tp Htp. destruct (Hin tp Htp) as [Hle [Hh|Hh]]; (split; [lia|]).
      - left. by apply Hhe.
      - right. by right. }
    rewrite Hnx. destruct slot as [|p|p|]; try done. cbn.
    replace (t + 1 - 1) with t by lia. split.
    + constructor; [done|]. apply Forall_forall. intros t' Ht'.
      apply list_elem_of_fmap in Ht' as (tp & -> & Htp). destruct (Hin tp Htp). lia.
    + intros tp Htp. apply elem_of_cons in Htp as [->|Htp]; [|by apply Hin'].
      cbn. split; [done|]. left. cbn. by apply Hpl.
Qed.
End Jitter.
