(* ===== verification/Proto.v ===== *)
(** The [hit/nostr/1] wire ([crates/hit-proto]): length-prefixed frames and how
    a stream of them is read, the binding frame that opens a session, the
    gossip protocol names, and the invite and contact links.  Frame bodies are
    lists of byte values. *)
From S2P Require Import Prelude Text Nostr Binding.

#[local] Open Scope Z_scope.

(** ** Limits (limits.rs) *)
Definition MAX_FRAME_BYTES : Z := 1024 * 1024.
Definition MAX_FILTERS_PER_REQ : Z := 8.
Definition MAX_EVENTS_PER_FILTER : Z := 500.
Definition FETCH_CHUNK : Z := 200.
Definition MAX_NEG_SESSIONS : Z := 4.
Definition MAX_SUBSCRIPTION_ID_BYTES : Z := 64.

(** ** Frames (frame.rs) *)
Definition HEADER_BYTES : nat := 4.

Inductive FrameError :=
| FrameTooLarge (announced : Z)
| FrameEmpty
| FrameClosed
| FrameTruncated (read expected : nat)
| FrameTransport (why : string).
#[export] Instance frame_error_eq_dec : EqDecision FrameError.
Proof. solve_decision. Defined.

Definition byte_len (l : list Z) : Z := Z.of_nat (length l).

(** [u32::to_le_bytes] and [u32::from_le_bytes]. *)
Definition to_le_bytes (n : Z) : list Z :=
  [Z.land n 255; Z.land (Z.shiftr n 8) 255; Z.land (Z.shiftr n 16) 255; Z.land (Z.shiftr n 24) 255].
Fixpoint from_le_bytes (l : list Z) : Z :=
  match l with [] => 0 | b :: t => Z.lor b (Z.shiftl (from_le_bytes t) 8) end.

Definition frame_encode (body : list Z) : result FrameError (list Z) :=
  match body with
  | [] => Err FrameEmpty
  | _ =>
      guard byte_len body <=? MAX_FRAME_BYTES else FrameTooLarge (byte_len body) in
      Ok (to_le_bytes (byte_len body mod (U32_MAX + 1)) ++ body)
  end.
Definition body_len (header : list Z) : result FrameError Z :=
  let n := from_le_bytes header in
  guard negb (n =? 0) else FrameEmpty in
  guard n <=? MAX_FRAME_BYTES else FrameTooLarge n in
  Ok n.

(** ** Streams (io.rs)

    A stream being read is what its [read] calls will give: chunks of bytes,
    or a transport's failure; at its end, and on a chunk of none, a read gives
    zero bytes. *)
Inductive Chunk := Bytes (l : list Z) | Broken (why : string).

(** One turn of [fill]'s loop with [want] bytes of its buffer left. *)
Fixpoint fill (want : nat) (stream : list Chunk) : result FrameError (list Z) * list Chunk :=
  match stream with
  | [] => (Ok [], [])
  | c :: rest =>
      match want with
      | 0%nat => (Ok [], stream)
      | _ =>
          match c with
          | Broken why => (Err (FrameTransport why), rest)
          | Bytes [] => (Ok [], rest)
          | Bytes l =>
              if (length l <=? want)%nat then
                let '(r, rest) := fill (want - length l) rest in
                ((let? more := r in Ok (l ++ more)), rest)
              else (Ok (take want l), Bytes (drop want l) :: rest)
          end
      end
  end.

Definition read_frame (stream : list Chunk) : result FrameError (list Z) * list Chunk :=
  match fill HEADER_BYTES stream with
  | (Err e, s) => (Err e, s)
  | (Ok [], s) => (Err FrameClosed, s)
  | (Ok header, s) =>
      if (length header <? HEADER_BYTES)%nat
      then (Err (FrameTruncated (length header) HEADER_BYTES), s)
      else
        match body_len header with
        | Err e => (Err e, s)
        | Ok expected =>
            match fill (Z.to_nat expected) s with
            | (Err e, s) => (Err e, s)
            | (Ok body, s) =>
                if (length body <? Z.to_nat expected)%nat
                then (Err (FrameTruncated (length body) (Z.to_nat expected)), s)
                else (Ok body, s)
            end
        end
  end.
(** [write_frame], to a stream that takes every byte. *)
Definition write_frame (wire : list Z) (body : list Z) : result FrameError (list Z) :=
  let? frame := frame_encode body in Ok (wire ++ frame).

(** ** What a stream reads back *)
Fixpoint flat (stream : list Chunk) : option (list Z) :=
  match stream with
  | [] => Some []
  | Bytes (b :: l) :: rest => let! m := flat rest in Some ((b :: l) ++ m)
  | _ => None
  end.

Lemma flat_cons c s wire : flat (c :: s) = Some wire ->
  exists b l m, c = Bytes (b :: l) /\ flat s = Some m /\ wire = (b :: l) ++ m.
Proof.
  cbn. destruct c as [[|b l]|]; [done| |done]. destruct (flat s) as [m|] eqn:E; [|done].
  intros [= <-]. eauto 10.
Qed.
(** However a stream of bytes is cut into chunks, [fill] takes the same. *)
Lemma fill_flat want s wire : flat s = Some wire ->
  exists s', fill want s = (Ok (take want wire), s') /\ flat s' = Some (drop want wire).
Proof.
  revert want wire. induction s as [|c s IH]; intros want wire H.
  - injection H as <-. exists []. by rewrite take_nil, drop_nil.
  - pose proof H as Hall. apply flat_cons in H as (b & l & m & -> & Hm & ->).
    destruct want as [|w].
    + exists (Bytes (b :: l) :: s). split; [done|]. by rewrite drop_0.
    + cbn [fill]. destruct (Nat.leb_spec (length (b :: l)) (S w)) as [Hle|Hlt].
      * destruct (IH (S w - length (b :: l))%nat m Hm) as (s' & Hf & Hd). rewrite Hf.
        exists s'. rewrite take_app, drop_app, (take_ge (b :: l)), (drop_ge (b :: l)) by lia. done.
      * eexists. split; [f_equal; f_equal; by rewrite take_app_le by lia|].
        rewrite drop_app_le by lia. cbn [flat]. rewrite Hm.
        destruct (drop (S w) (b :: l)) as [|d dl] eqn:Ed; [|done].
        apply (f_equal length) in Ed. rewrite length_drop in Ed. cbn in *. lia.
Qed.

Lemma byte_land n : Z.land n 255 = n mod 256.
Proof. apply (Z.land_ones n 8). lia. Qed.
Lemma lor_shift b n : 0 <= b < 256 -> 0 <= n -> Z.lor b (Z.shiftl n 8) = b + 256 * n.
Proof.
  intros Hb Hn. rewrite Z.shiftl_mul_pow2 by lia.
  assert (Hz : Z.land b (n * 2 ^ 8) = 0).
  { apply Z.bits_inj'. intros i Hi. rewrite Z.land_spec, Z.bits_0.
    destruct (Z.ltb_spec i 8).
    - by rewrite Z.mul_pow2_bits_low, andb_false_r by lia.
    - replace b with (b mod 2 ^ 8) by (apply Z.mod_small; lia).
      by rewrite Z.mod_pow2_bits_high by lia. }
  rewrite <- Z.lxor_lor, <- Z.add_nocarry_lxor by done. lia.
Qed.
Lemma le_bytes_round_trip n : is_u32 n -> from_le_bytes (to_le_bytes n) = n.
Proof.
  unfold is_u32, U32_MAX. intros Hn. unfold to_le_bytes, from_le_bytes.
  rewrite !byte_land, !Z.shiftr_div_pow2 by lia. rewrite Z.shiftl_0_l, Z.lor_0_r.
  change (2 ^ 8) with 256. change (2 ^ 16) with (256 * 256). change (2 ^ 24) with (256 * (256 * 256)).
  rewrite (Z.mul_comm 256 (256 * 256)), <- !Zdiv_Zdiv by lia.
  pose proof (Z.mod_pos_bound n 256). pose proof (Z.mod_pos_bound (n / 256) 256).
  pose proof (Z.mod_pos_bound (n / 256 / 256) 256). pose proof (Z.mod_pos_bound (n / 256 / 256 / 256) 256).
  rewrite !lor_shift by (rewrite ?lor_shift by (rewrite ?lor_shift; lia); lia).
  rewrite (Z.mod_small (n / 256 / 256 / 256)) by
    (split; [apply Z.div_pos; [apply Z.div_pos; [apply Z.div_pos|]|]; lia|];
     apply Z.div_lt_upper_bound; [lia|]; apply Z.div_lt_upper_bound; [lia|];
     apply Z.div_lt_upper_bound; lia).
  pose proof (Z.div_mod n 256). pose proof (Z.div_mod (n / 256) 256).
  pose proof (Z.div_mod (n / 256 / 256) 256). lia.
Qed.

Lemma frame_encode_ok body frame : frame_encode body = Ok frame ->
  body <> [] /\ byte_len body <= MAX_FRAME_BYTES /\
  frame = to_le_bytes (byte_len body) ++ body /\ body_len (to_le_bytes (byte_len body)) = Ok (byte_len body).
Proof.
  unfold frame_encode. destruct body as [|b l]; [done|].
  destruct (byte_len (b :: l) <=? MAX_FRAME_BYTES) eqn:E; [|done]. intros [= <-].
  apply Z.leb_le in E. unfold MAX_FRAME_BYTES in E.
  assert (Hpos : 0 < byte_len (b :: l)) by (unfold byte_len; cbn; lia).
  rewrite Z.mod_small by (unfold U32_MAX; lia). split_and!; try done.
  unfold body_len. rewrite le_bytes_round_trip by (unfold is_u32, U32_MAX; lia).
  rewrite (proj2 (Z.eqb_neq _ _)), (proj2 (Z.leb_le _ _)) by (unfold MAX_FRAME_BYTES; lia). done.
Qed.

(** Writing bodies one after the other. *)
Fixpoint write_all (wire : list Z) (bodies : list (list Z)) : result FrameError (list Z) :=
  match bodies with
  | [] => Ok wire
  | b :: rest => let? wire := write_frame wire b in write_all wire rest
  end.
(** Reading [n] frames. *)
Fixpoint read_all (n : nat) (s : list Chunk) : list (result FrameError (list Z)) * list Chunk :=
  match n with
  | 0%nat => ([], s)
  | S n => let '(r, s) := read_frame s in let '(rs, s) := read_all n s in (r :: rs, s)
  end.
Lemma write_all_app wire bodies out : write_all wire bodies = Ok out ->
  exists frames, out = wire ++ frames /\ write_all [] bodies = Ok frames.
Proof.
  revert wire out. induction bodies as [|b rest IH]; intros wire out H; cbn in *.
  - injection H as <-. exists []. by rewrite app_nil_r.
  - unfold write_frame in *. destruct (frame_encode b) as [f|]; [|done].
    destruct (IH _ _ H) as (m & -> & Hm). destruct (write_all ([] ++ f) rest) as [out|] eqn:E.
    + destruct (IH _ _ E) as (m' & -> & Hm'). rewrite Hm in Hm'. injection Hm' as <-.
      exists (f ++ m). by rewrite app_assoc.
    + exfalso. clear H. revert E. cbn. clear -Hm IH.
      enough (forall w, is_ok (write_all w rest) = is_ok (write_all [] rest)) as Hw.
      { intros E. specialize (Hw f). by rewrite E, Hm in Hw. }
      clear. induction rest as [|b rest IH]; intros w; [done|]. cbn. unfold write_frame.
      destruct (frame_encode b); [|done]. cbn. by rewrite IH, (IH a).
Qed.
Lemma read_frame_flat s body more frame : frame_encode body = Ok frame ->
  flat s = Some (frame ++ more) -> exists s', read_frame s = (Ok body, s') /\ flat s' = Some more.
Proof.
  intros (Hne & Hmax & -> & Hlen)%frame_encode_ok Hs. rewrite <- app_assoc in Hs.
  unfold read_frame, HEADER_BYTES.
  destruct (fill_flat 4 s _ Hs) as (s1 & -> & H1).
  change (take 4 (to_le_bytes (byte_len body) ++ body ++ more)) with (to_le_bytes (byte_len body)).
  change (drop 4 (to_le_bytes (byte_len body) ++ body ++ more)) with (body ++ more) in H1.
  rewrite Hlen. unfold to_le_bytes. cbn [length Nat.ltb Nat.leb].
  destruct (fill_flat (Z.to_nat (byte_len body)) s1 _ H1) as (s2 & -> & H2).
  unfold byte_len in *. rewrite Nat2Z.id in *. rewrite take_app_length, drop_app_length in *.
  pose proof (Nat.ltb_irrefl (length body)) as Hl. cbn [Nat.ltb Nat.leb] in Hl. rewrite Hl. eauto.
Qed.

(** Framing: whatever bodies a side writes, the other reads the same
    bodies and then a clean close, in whatever pieces the transport delivers
    the bytes. *)
Theorem framing_round_trip bodies wire s : write_all [] bodies = Ok wire -> flat s = Some wire ->
  exists s', read_all (length bodies) s = (map Ok bodies, s') /\ fst (read_frame s') = Err FrameClosed.
Proof.
  revert wire s. induction bodies as [|b rest IH]; intros wire s Hw Hs; cbn in *.
  - injection Hw as <-. exists s. split; [done|]. unfold read_frame.
    destruct (fill_flat HEADER_BYTES s _ Hs) as (s1 & -> & _). done.
  - unfold write_frame in Hw. destruct (frame_encode b) as [f|] eqn:Ef; [|done]. cbn in Hw.
    destruct (write_all_app _ _ _ Hw) as (m & -> & Hm).
    destruct (read_frame_flat s b m f Ef Hs) as (s1 & -> & H1).
    destruct (IH m s1 Hm H1) as (s2 & -> & H2). exists s2. done.
Qed.

(** ** What the wire takes from other crates *)

(** [nostr]'s bech32, the standard library's [SocketAddr], [serde_json]. *)
Class WireTypes {N : NostrTypes} := {
  pk_to_bech32 : PublicKey -> option string;
  pk_from_bech32 : string -> option PublicKey;
  SocketAddr : Type;
  addr_show : SocketAddr -> string;
  addr_parse : string -> option SocketAddr;
  Json : Type;
  json_from_slice : list Z -> option Json;
  as_array : Json -> option (list Json);
  as_str : Json -> option string;
  event_from_value : Json -> option Event;
  (** [serde_json::to_vec(&(name, event))]. *)
  json_pair : string -> Event -> list Z;
}.
(** What stands in a link unescaped: printable ASCII but the separators. *)
Definition link_byte (c : ascii) : bool :=
  (33 <=? byte_of c) && (byte_of c <=? 126)
  && negb (bool_decide (c = "&"%char)) && negb (bool_decide (c = "="%char))
  && negb (bool_decide (c = "@"%char)).
Definition link_word (s : string) : bool := all_bytes link_byte s.

Class WireLaws {N : NostrTypes} {O : NostrOps} {T : DeviceTypes} {Y : WireTypes} : Prop := {
  bech32_round_trip p s : pk_to_bech32 p = Some s -> pk_from_bech32 s = Some p;
  (** A hex key is not bech32. *)
  hex_not_bech32 p : pk_from_bech32 (pk_to_hex p) = None;
  addr_round_trip a : addr_parse (addr_show a) = Some a;
  bech32_word p s : pk_to_bech32 p = Some s -> link_word s = true;
  hex_word p : link_word (pk_to_hex p) = true;
  ep_word d : link_word (ep_to_string d) = true;
  addr_word a : link_word (addr_show a) = true;
  json_pair_spec n e : exists v a b, json_from_slice (json_pair n e) = Some v /\
    as_array v = Some [a; b] /\ as_str a = Some n /\ event_from_value b = Some e;
}.

Inductive HelloError := NotAHello | NoEvent.
#[export] Instance hello_error_eq_dec : EqDecision HelloError.
Proof. solve_decision. Defined.
Inductive LinkError := NotALink | Missing (what : string) | LinkMalformed (what : string).
#[export] Instance link_error_eq_dec : EqDecision LinkError.
Proof. solve_decision. Defined.

(** [str::split_once] on one ASCII character. *)
Fixpoint split_once (c : ascii) (s : string) : option (string * string) :=
  match s with
  | EmptyString => None
  | String d t =>
      if bool_decide (c = d) then Some (""%string, t)
      else let! p := split_once c t in Some (String d p.1, p.2)
  end.

Definition is_hexdigit (c : ascii) : bool :=
  is_digit c || ((97 <=? byte_of c) && (byte_of c <=? 102)) || ((65 <=? byte_of c) && (byte_of c <=? 70)).
Definition code_ok (v : string) : bool :=
  negb (str_is_empty v) && (str_len v <=? 64) && all_bytes is_hexdigit v.

Fixpoint try_fold {A B E} (f : A -> B -> result E A) (a : A) (l : list B) : result E A :=
  match l with [] => Ok a | b :: t => let? a := f a b in try_fold f a t end.

Section Wire.
Context {N : NostrTypes} {O : NostrOps} {T : DeviceTypes} {Y : WireTypes}.
#[local] Open Scope string_scope.
#[local] Open Scope Z_scope.
#[local] Open Scope list_scope.

(** ** hello.rs and lib.rs *)
Definition HELLO : string := "HIT-BINDING".
Definition hello_encode (binding : Event) : list Z := json_pair HELLO binding.
Definition hello_decode (body : list Z) : result HelloError Event :=
  let? value := ok_or (json_from_slice body) NotAHello in
  match as_array value with
  | Some [name; event] =>
      match as_str name with
      | Some name =>
          guard bool_decide (name = HELLO) else NotAHello in
          ok_or (event_from_value event) NoEvent
      | None => Err NotAHello
      end
  | _ => Err NotAHello
  end.

Definition ALPN : list Z := bytes_of "hit/nostr/1".
Definition GOSSIP_ALPN_PREFIX : string := "hit/gossip/1/".
Definition gossip_alpn (group : PublicKey) : list Z :=
  bytes_of (GOSSIP_ALPN_PREFIX +:+ pk_to_hex group).
Definition gossip_alpn_group (alpn : list Z) : option PublicKey :=
  let! text := from_utf8 alpn in
  let! hex := strip_prefix GOSSIP_ALPN_PREFIX text in
  pk_from_hex hex.

(** ** Links (invite.rs, contact.rs) *)
Definition INVITE_SCHEME : string := "hit-enter:join?".
Definition CONTACT_SCHEME : string := "hit-enter:contact?".
Definition MAX_PEERS : nat := 8.
Definition MAX_DEVICES : nat := 8.

Record InviteLink := mkInviteLink {
  il_group : PublicKey;
  il_code : option string;
  il_peers : list (EndpointId * option SocketAddr);
}.
Record ContactLink := mkContactLink {
  cl_person : PublicKey;
  cl_devices : list (EndpointId * option SocketAddr);
}.

(** [to_bech32().unwrap_or_else(|_| to_hex())], and the way back. *)
Definition npub_text (p : PublicKey) : string :=
  match pk_to_bech32 p with Some s => s | None => pk_to_hex p end.
Definition npub_parse (s : string) : option PublicKey :=
  match pk_from_bech32 s with Some p => Some p | None => pk_from_hex s end.
(** One [key=device[@addr]] of a link. *)
Definition device_text (d : EndpointId * option SocketAddr) : string :=
  ep_to_string d.1 +:+ match d.2 with Some a => "@" +:+ addr_show a | None => "" end.
Definition device_parse (what v : string) : result LinkError (EndpointId * option SocketAddr) :=
  match split_once "@"%char v with
  | Some (id, a) =>
      let? addr := ok_or (addr_parse a) (LinkMalformed what) in
      let? id := ok_or (ep_parse id) (LinkMalformed what) in Ok (id, Some addr)
  | None => let? id := ok_or (ep_parse v) (LinkMalformed what) in Ok (id, None)
  end.

(** [write!(f, "&p={id}")..] for each device. *)
Fixpoint device_pairs (key : string) (l : list (EndpointId * option SocketAddr)) : string :=
  match l with
  | [] => ""
  | d :: rest => "&" +:+ key +:+ "=" +:+ device_text d +:+ device_pairs key rest
  end.
Definition InviteLink_show (l : InviteLink) : string :=
  INVITE_SCHEME +:+ "g=" +:+ npub_text (il_group l)
  +:+ match il_code l with Some c => "&c=" +:+ c | None => "" end
  +:+ device_pairs "p" (take MAX_PEERS (il_peers l)).
Definition ContactLink_show (l : ContactLink) : string :=
  CONTACT_SCHEME +:+ "p=" +:+ npub_text (cl_person l)
  +:+ device_pairs "d" (take MAX_DEVICES (cl_devices l)).

Definition InviteAcc : Type :=
  option PublicKey * option string * list (EndpointId * option SocketAddr).
(** One [pair] of [query.split('&')]. *)
Definition invite_pair (acc : InviteAcc) (pair : string) : result LinkError InviteAcc :=
  let '(group, code, peers) := acc in
  match split_once "="%char pair with
  | None => Ok acc
  | Some (k, v) =>
      if bool_decide (k = "g") then
        let? g := ok_or (npub_parse v) (LinkMalformed "group") in Ok (Some g, code, peers)
      else if bool_decide (k = "c") then
        guard code_ok v else LinkMalformed "code" in Ok (group, Some v, peers)
      else if bool_decide (k = "p") && (length peers <? MAX_PEERS)%nat then
        let? d := device_parse "peer" v in Ok (group, code, peers ++ [d])
      else Ok acc
  end.
Definition InviteLink_parse (s : string) : result LinkError InviteLink :=
  let? query := ok_or (strip_prefix INVITE_SCHEME (trim s)) NotALink in
  let? acc := try_fold invite_pair (None, None, []) (split_on "&"%char query) in
  let '(group, code, peers) := acc in
  let? g := ok_or group (Missing "group") in
  Ok (mkInviteLink g code peers).

Definition ContactAcc : Type := option PublicKey * list (EndpointId * option SocketAddr).
Definition contact_pair (acc : ContactAcc) (pair : string) : result LinkError ContactAcc :=
  let '(person, devices) := acc in
  match split_once "="%char pair with
  | None => Ok acc
  | Some (k, v) =>
      if bool_decide (k = "p") then
        let? p := ok_or (npub_parse v) (LinkMalformed "person") in Ok (Some p, devices)
      else if bool_decide (k = "d") && (length devices <? MAX_DEVICES)%nat then
        let? d := device_parse "device" v in Ok (person, devices ++ [d])
      else Ok acc
  end.
Definition ContactLink_parse (s : string) : result LinkError ContactLink :=
  let? query := ok_or (strip_prefix CONTACT_SCHEME (trim s)) NotALink in
  let? acc := try_fold contact_pair (None, []) (split_on "&"%char query) in
  let '(person, devices) := acc in
  guard negb (Nat.eqb (length devices) 0) else Missing "device" in
  let? p := ok_or person (Missing "person") in
  Ok (mkContactLink p devices).

(** ** Round trips *)
Definition pairs (key : string) (l : list (EndpointId * option SocketAddr)) : list string :=
  map (fun d => key +:+ "=" +:+ device_text d) l.
Definition invite_pairs (l : InviteLink) : list string :=
  ("g=" +:+ npub_text (il_group l))
  :: match il_code l with Some c => ["c=" +:+ c] | None => [] end
  ++ pairs "p" (take MAX_PEERS (il_peers l)).
Definition contact_pairs (l : ContactLink) : list string :=
  ("p=" +:+ npub_text (cl_person l)) :: pairs "d" (take MAX_DEVICES (cl_devices l)).
End Wire.

#[local] Arguments String.append !_ _ / : simpl nomatch.

(** A word has none of the separators, is not blank and is its own trim. *)
Lemma append_empty_r s : s +:+ "" = s.
Proof. induction s as [|c s IH]; [done|]. cbn. by rewrite IH. Qed.
Lemma split_once_word c w t : all_bytes (fun d => negb (bool_decide (c = d))) w = true ->
  split_once c (w +:+ String c t) = Some (w, t).
Proof.
  induction w as [|d w IH]; cbn; [by rewrite bool_decide_true|]. intros [Hd Hw]%andb_prop.
  apply negb_true_iff in Hd. by rewrite Hd, IH.
Qed.
Lemma split_once_none c w : all_bytes (fun d => negb (bool_decide (c = d))) w = true ->
  split_once c w = None.
Proof.
  induction w as [|d w IH]; cbn; [done|]. intros [Hd Hw]%andb_prop.
  apply negb_true_iff in Hd. by rewrite Hd, IH.
Qed.

(** Printable ASCII, not blank. *)
Definition graphic (c : ascii) : bool := (33 <=? byte_of c) && (byte_of c <=? 126).
Lemma graphic_chars s : all_bytes graphic s = true ->
  Forall (fun ch => exists c, ch = String c "" /\ graphic c = true) (chars s) /\
  (forall c t, s = String c t -> exists rest, chars s = String c "" :: rest).
Proof.
  induction s as [|c s IH]; [by split|]. cbn [all_bytes]. intros [Hc Hs]%andb_prop.
  destruct (IH Hs) as [Hf Hh]. cbn [chars].
  assert (Hnc : is_cont c = false).
  { revert Hc. clear. destruct c as [[] [] [] [] [] [] [] []]; vm_compute; congruence. }
  destruct s as [|d s].
  - cbn. split; [constructor; [by exists c|constructor]|]. intros c' t [= <- _]. by exists [].
  - destruct (Hh d s eq_refl) as [rest Hr]. rewrite Hr in *.
    assert (is_cont d = false) as ->.
    { cbn in Hs. apply andb_prop in Hs as [Hd _]. revert Hd. clear.
      destruct d as [[] [] [] [] [] [] [] []]; vm_compute; congruence. }
    split; [constructor; [by exists c|done]|]. intros c' t [= <- _]. by eexists.
Qed.
Lemma graphic_not_white c : graphic c = true -> is_whitespace (String c "") = false.
Proof. destruct c as [[] [] [] [] [] [] [] []]; vm_compute; congruence. Qed.
Lemma drop_while_keep l : Forall (fun ch => is_whitespace ch = false) l -> drop_while is_whitespace l = l.
Proof. destruct 1 as [|x l Hx _]; [done|]. cbn. by rewrite Hx. Qed.
Lemma trim_graphic s : all_bytes graphic s = true -> trim s = s.
Proof.
  intros [Hf _]%graphic_chars. unfold trim.
  assert (Hw : Forall (fun ch => is_whitespace ch = false) (chars s)).
  { eapply Forall_impl; [exact Hf|]. intros ? (c & -> & Hc). by apply graphic_not_white. }
  rewrite (drop_while_keep (chars s)), (drop_while_keep (rev (chars s))) by (done || by apply List.Forall_rev).
  by rewrite rev_involutive, concat_chars.
Qed.

Section Links.
Context {N : NostrTypes} {O : NostrOps} {L : NostrLaws} {T : DeviceTypes} {P : DeviceOps}.
Context {DL : DeviceLaws} {Y : WireTypes} {W : WireLaws}.
#[local] Open Scope string_scope.
#[local] Open Scope Z_scope.
#[local] Open Scope list_scope.

Definition no_byte (c : ascii) (s : string) : Prop :=
  all_bytes (fun d => negb (bool_decide (c = d))) s = true.
Lemma link_byte_spec c : link_byte c = true ->
  graphic c = true /\ c <> "&"%char /\ c <> "="%char /\ c <> "@"%char.
Proof. unfold link_byte, graphic. intros H. bools. rewrite !andb_true_iff, !Z.leb_le. done. Qed.
Lemma word_no c s : link_word s = true -> c = "&"%char \/ c = "="%char \/ c = "@"%char -> no_byte c s.
Proof.
  intros Hs Hc. apply (all_bytes_impl link_byte); [|done]. intros d (_ & H1 & H2 & H3)%link_byte_spec.
  apply negb_true_iff, bool_decide_eq_false. intros ->. naive_solver.
Qed.
Lemma word_graphic s : link_word s = true -> all_bytes graphic s = true.
Proof. apply all_bytes_impl. by intros c [? _]%link_byte_spec. Qed.
Lemma npub_word p : link_word (npub_text p) = true.
Proof. unfold npub_text. destruct (pk_to_bech32 p) eqn:E; [by eapply bech32_word|apply hex_word]. Qed.
Lemma npub_round_trip p : npub_parse (npub_text p) = Some p.
Proof.
  unfold npub_parse, npub_text. destruct (pk_to_bech32 p) eqn:E.
  - by rewrite (bech32_round_trip _ _ E).
  - by rewrite hex_not_bech32, pk_hex.
Qed.
Lemma code_word c : code_ok c = true -> link_word c = true.
Proof.
  unfold code_ok. intros [_ H]%andb_prop. revert H. apply all_bytes_impl. intros d.
  destruct d as [[] [] [] [] [] [] [] []]; vm_compute; congruence.
Qed.
Lemma device_round_trip what d : device_parse what (device_text d) = Ok d.
Proof.
  destruct d as [id [a|]]; unfold device_parse, device_text; cbn [fst snd].
  - change ("@" +:+ addr_show a) with (String "@" (addr_show a)).
    rewrite (split_once_word "@"%char (ep_to_string id) (addr_show a)) by
      (apply word_no; [apply ep_word|auto]).
    by rewrite addr_round_trip, ep_round_trip.
  - rewrite append_empty_r, split_once_none by (apply word_no; [apply ep_word|auto]).
    by rewrite ep_round_trip.
Qed.

(** A link is its scheme and its pairs, one [&] between each two. *)
Lemma append_assoc_str a b c : (a +:+ b) +:+ c = a +:+ (b +:+ c).
Proof. induction a as [|x a IH]; [done|]. cbn. by rewrite IH. Qed.
Lemma device_pairs_join key w l :
  w +:+ device_pairs key l = join_on "&"%char (w :: pairs key l).
Proof.
  revert w. induction l as [|d l IH]; intros w; cbn [device_pairs pairs map].
  - by rewrite append_empty_r.
  - change (join_on "&"%char (w :: (key +:+ "=" +:+ device_text d) :: map
      (fun d => key +:+ "=" +:+ device_text d) l)) with
      (w +:+ String "&" (join_on "&"%char ((key +:+ "=" +:+ device_text d) :: pairs key l))).
    rewrite <- IH, !append_assoc_str. done.
Qed.
Lemma invite_show_join l :
  InviteLink_show l = INVITE_SCHEME +:+ join_on "&"%char (invite_pairs l).
Proof.
  unfold InviteLink_show, invite_pairs. f_equal. destruct (il_code l) as [c|]; cbn [app].
  - change (join_on "&"%char (("g=" +:+ npub_text (il_group l)) :: ("c=" +:+ c)
      :: pairs "p" (take MAX_PEERS (il_peers l)))) with
      (("g=" +:+ npub_text (il_group l)) +:+ String "&" (join_on "&"%char (("c=" +:+ c)
      :: pairs "p" (take MAX_PEERS (il_peers l))))).
    by rewrite <- device_pairs_join, !append_assoc_str.
  - by rewrite <- device_pairs_join, !append_assoc_str.
Qed.
Lemma contact_show_join l :
  ContactLink_show l = CONTACT_SCHEME +:+ join_on "&"%char (contact_pairs l).
Proof.
  unfold ContactLink_show, contact_pairs. f_equal. by rewrite <- device_pairs_join, !append_assoc_str.
Qed.

(** The pairs hold no [&], and the whole link is printable. *)
Definition pair_ok (s : string) : Prop := no_byte "&"%char s /\ all_bytes graphic s = true.
Lemma pair_ok_app s t : pair_ok s -> pair_ok t -> pair_ok (s +:+ t).
Proof. unfold pair_ok, no_byte. rewrite !all_bytes_app. intros [-> ->] [-> ->]. done. Qed.
Lemma pair_ok_word s : link_word s = true -> pair_ok s.
Proof. intros H. split; [apply word_no; auto|by apply word_graphic]. Qed.
Lemma device_text_ok d : pair_ok (device_text d).
Proof.
  unfold device_text. apply pair_ok_app; [apply pair_ok_word, ep_word|].
  destruct d.2; [|done]. apply pair_ok_app; [done|apply pair_ok_word, addr_word].
Qed.
Lemma pairs_ok key l : pair_ok key -> Forall pair_ok (pairs key l).
Proof.
  intros Hk. unfold pairs. apply Forall_fmap, Forall_true. intros d.
  apply pair_ok_app; [done|]. apply pair_ok_app; [done|apply device_text_ok].
Qed.
Lemma join_graphic l : Forall pair_ok l -> all_bytes graphic (join_on "&"%char l) = true.
Proof.
  induction 1 as [|w l [_ Hw] Hl IH]; [done|]. destruct l as [|w' l]; [done|].
  change (join_on "&"%char (w :: w' :: l)) with (w +:+ String "&" (join_on "&"%char (w' :: l))).
  rewrite all_bytes_app, Hw. cbn [all_bytes]. by rewrite IH.
Qed.
Lemma link_query scheme l : all_bytes graphic scheme = true -> l <> [] -> Forall pair_ok l ->
  exists query, strip_prefix scheme (trim (scheme +:+ join_on "&"%char l)) = Some query /\
    split_on "&"%char query = l.
Proof.
  intros Hs Hne Hl. rewrite trim_graphic by (by rewrite all_bytes_app, Hs, join_graphic).
  exists (join_on "&"%char l). split; [apply strip_prefix_app|]. apply split_join; [done|].
  intros w Hw. rewrite Forall_forall in Hl. by apply Hl in Hw as [? _].
Qed.

Lemma try_fold_app {A B E} (f : A -> B -> result E A) a l1 l2 :
  try_fold f a (l1 ++ l2) = let? a := try_fold f a l1 in try_fold f a l2.
Proof. revert a. induction l1 as [|b l1 IH]; intros a; [done|]. cbn. destruct (f a b); [apply IH|done]. Qed.
Lemma invite_peers_fold group code l0 l : (length (l0 ++ l) <= MAX_PEERS)%nat ->
  try_fold invite_pair (group, code, l0) (pairs "p" l) = Ok (group, code, l0 ++ l).
Proof.
  revert l0. induction l as [|d l IH]; intros l0 Hlen; cbn [pairs map try_fold]; [by rewrite app_nil_r|].
  rewrite length_app in Hlen. cbn in Hlen. unfold invite_pair at 1.
  change (split_once "="%char ("p" +:+ "=" +:+ device_text d)) with (Some ("p", device_text d)).
  cbn match.
  rewrite !bool_decide_false, bool_decide_true by done.
  rewrite (proj2 (Nat.ltb_lt _ _)) by lia. cbn [andb]. rewrite device_round_trip.
  rewrite (cons_middle d l0 l), app_assoc. apply IH. rewrite !length_app. cbn. lia.
Qed.
Lemma contact_devices_fold person l0 l : (length (l0 ++ l) <= MAX_DEVICES)%nat ->
  try_fold contact_pair (person, l0) (pairs "d" l) = Ok (person, l0 ++ l).
Proof.
  revert l0. induction l as [|d l IH]; intros l0 Hlen; cbn [pairs map try_fold]; [by rewrite app_nil_r|].
  rewrite length_app in Hlen. cbn in Hlen. unfold contact_pair at 1.
  change (split_once "="%char ("d" +:+ "=" +:+ device_text d)) with (Some ("d", device_text d)).
  cbn match.
  rewrite bool_decide_false, bool_decide_true by done.
  rewrite (proj2 (Nat.ltb_lt _ _)) by lia. cbn [andb]. rewrite device_round_trip.
  rewrite (cons_middle d l0 l), app_assoc. apply IH. rewrite !length_app. cbn. lia.
Qed.

(** A link reads back as what it was made of: an invite link to its group,
    its code and its first eight devices, a contact link (which must name a
    device) to its person and devices, each with its address where it has one. *)
Theorem links_round_trip :
  (forall l, (forall c, il_code l = Some c -> code_ok c = true) ->
     InviteLink_parse (InviteLink_show l)
     = Ok (mkInviteLink (il_group l) (il_code l) (take MAX_PEERS (il_peers l)))) /\
  (forall l, cl_devices l <> [] ->
     ContactLink_parse (ContactLink_show l)
     = Ok (mkContactLink (cl_person l) (take MAX_DEVICES (cl_devices l)))).
Proof.
  split; intros l Hl.
  - rewrite invite_show_join. unfold InviteLink_parse.
    destruct (link_query INVITE_SCHEME (invite_pairs l)) as (query & Hq & Hsp); [done|done| |].
    { constructor; [apply pair_ok_app; [done|apply pair_ok_word, npub_word]|].
      apply Forall_app. split; [|by apply pairs_ok]. destruct (il_code l) as [c|] eqn:Ec; [|constructor].
      constructor; [|constructor]. apply pair_ok_app; [done|]. by apply pair_ok_word, code_word, Hl. }
    rewrite Hq. cbn [ok_or]. rewrite Hsp. unfold invite_pairs. cbn [try_fold]. unfold invite_pair at 1.
    change (split_once "="%char ("g=" +:+ npub_text (il_group l))) with (Some ("g", npub_text (il_group l))).
    cbn match. rewrite bool_decide_true, npub_round_trip by done. cbn [ok_or].
    rewrite try_fold_app. destruct (il_code l) as [c|] eqn:Ec.
    + cbn [try_fold]. unfold invite_pair at 1.
      change (split_once "="%char ("c=" +:+ c)) with (Some ("c", c)). cbn match.
      rewrite bool_decide_false, bool_decide_true, (Hl c) by done.
      rewrite invite_peers_fold; [done|]. rewrite length_app, length_take. cbn [length]. unfold MAX_PEERS. lia.
    + cbn [try_fold]. rewrite invite_peers_fold; [done|].
      rewrite length_app, length_take. cbn [length]. unfold MAX_PEERS. lia.
  - rewrite contact_show_join. unfold ContactLink_parse.
    destruct (link_query CONTACT_SCHEME (contact_pairs l)) as (query & Hq & Hsp); [done|done| |].
    { constructor; [apply pair_ok_app; [done|apply pair_ok_word, npub_word]|by apply pairs_ok]. }
    rewrite Hq. cbn [ok_or]. rewrite Hsp. unfold contact_pairs. cbn [try_fold]. unfold contact_pair at 1.
    change (split_once "="%char ("p=" +:+ npub_text (cl_person l))) with (Some ("p", npub_text (cl_person l))).
    cbn match. rewrite bool_decide_true, npub_round_trip by done. cbn [ok_or].
    rewrite contact_devices_fold by (rewrite length_app, length_take; cbn [length]; unfold MAX_DEVICES; lia).
    destruct (cl_devices l); [done|]. done.
Qed.
Lemma hello_round_trip e : hello_decode (hello_encode e) = Ok e.
Proof.
  unfold hello_decode, hello_encode.
  destruct (json_pair_spec HELLO e) as (v & a & b & -> & Ha & Hs & He). cbn [ok_or].
  rewrite Ha, Hs, bool_decide_true by done. by rewrite He.
Qed.
End Links.
