(* ===== verification/Person.v ===== *)
(** Who a person is and says they are ([crates/hit-event]): the keys and where
    they are kept ([person.rs], [store.rs], [GroupKey] of [group.rs]), the
    profile and its fields ([profile.rs] and the profile part of [zap.rs]), and
    a public group's announcement ([announce.rs]).  Profiles are [nostr]'s
    [Metadata], and keys its [Keys]: parameters, with what the code relies on
    as laws. *)
From S2P Require Import Prelude Text Nostr GroupEvent Replace Binding Proto.

#[local] Open Scope Z_scope.

(** [str::starts_with], and an option as what it iterates over. *)
Definition starts_with (p s : string) : bool := opt_bool (strip_prefix p s).
Definition option_list {A} (o : option A) : list A := match o with Some a => [a] | None => [] end.

(** ** What the program takes from [nostr] and [serde_json] *)
Class ProfileTypes {N : NostrTypes} {Y : WireTypes} := {
  Metadata : Type;
  Rest : Type;
  (** The fields the code reads and writes, and those it only keeps. *)
  metadata : option string -> option string -> option string -> gmap string Json -> Rest -> Metadata;
  m_name : Metadata -> option string;
  m_display_name : Metadata -> option string;
  m_lud16 : Metadata -> option string;
  m_custom : Metadata -> gmap string Json;
  m_rest : Metadata -> Rest;
  rest_default : Rest;
  (** [Metadata::try_from(event)] and [into_event_builder]. *)
  metadata_of : Event -> option Metadata;
  into_builder : Metadata -> EventBuilder;
  (** The names a custom field may not have: those of [Metadata]'s own. *)
  own_field : string -> bool;
  as_bool : Json -> option bool;
  json_bool : bool -> Json;
  json_str : string -> Json;
  (** [Keys::parse], [to_bech32] and [to_secret_hex] of a secret key. *)
  keys_parse : string -> option Keys;
  secret_bech32 : Keys -> option string;
  secret_hex : Keys -> string;
}.
Definition METADATA : Kind := 0.
Class ProfileLaws {N : NostrTypes} {O : NostrOps} {Y : WireTypes} {F : ProfileTypes} : Prop := {
  fields_spec a b c d r : m_name (metadata a b c d r) = a /\ m_display_name (metadata a b c d r) = b /\
    m_lud16 (metadata a b c d r) = c /\ m_custom (metadata a b c d r) = d /\ m_rest (metadata a b c d r) = r;
  metadata_ext m : metadata (m_name m) (m_display_name m) (m_lud16 m) (m_custom m) (m_rest m) = m;
  (** What is written reads back. *)
  metadata_round_trip m e : (forall k, own_field k = true -> m_custom m !! k = None) ->
    ev_content e = b_content (into_builder m) -> metadata_of e = Some m;
  custom_not_own e m k : metadata_of e = Some m -> own_field k = true -> m_custom m !! k = None;
  into_builder_spec m : b_kind (into_builder m) = METADATA /\ b_tags (into_builder m) = [] /\
    b_created_at (into_builder m) = None;
  ours_not_own : own_field "bot" = false /\ own_field "relay" = false /\ own_field "zap_pubkey" = false;
  as_bool_json b : as_bool (json_bool b) = Some b;
  as_str_json s : as_str (json_str s) = Some s;
  keys_parse_bech32 k s : secret_bech32 k = Some s -> keys_parse s = Some k /\ trim s = s;
  keys_parse_hex k : keys_parse (secret_hex k) = Some k /\ trim (secret_hex k) = secret_hex k;
}.

(** ** Where secrets are kept (store.rs) *)
Inductive SecretError := Unavailable (why : string) | Backend (why : string).
Class SecretStore (S : Type) := {
  secret_put : S -> string -> string -> result SecretError S;
  secret_get : S -> string -> result SecretError (option string);
  secret_delete : S -> string -> result SecretError S;
}.
(** What a store promises those who keep a key in it. *)
Class SecretLaws (S : Type) `{SecretStore S} : Prop := {
  get_put s a v s' b : secret_put s a v = Ok s' ->
    secret_get s' b = if bool_decide (b = a) then Ok (Some v) else secret_get s b;
  get_delete s a s' b : secret_delete s a = Ok s' ->
    secret_get s' b = if bool_decide (b = a) then Ok None else secret_get s b;
}.
Abbreviation MemoryStore := (gmap string string) (only parsing).
#[export] Instance memory_store : SecretStore MemoryStore := {|
  secret_put s account secret := Ok (<[account := secret]> s);
  secret_get s account := Ok (s !! account);
  secret_delete s account := Ok (delete account s);
|}.
#[export] Instance memory_laws : SecretLaws MemoryStore.
Proof.
  split; intros s a; [intros v s' b|intros s' b]; cbn; intros [= <-]; case_bool_decide; subst.
  - by rewrite lookup_insert_eq.
  - by rewrite lookup_insert_ne.
  - by rewrite lookup_delete_eq.
  - by rewrite lookup_delete_ne.
Qed.

Inductive KeyError :=
| InvalidSecret | InvalidNcryptsec | WrongPassword | Encrypt | Sign | CorruptStoredKey
| SecretFailed (e : SecretError).

Section Person.
Context {N : NostrTypes} {O : NostrOps} {Y : WireTypes} {F : ProfileTypes}.
#[local] Open Scope string_scope.
#[local] Open Scope Z_scope.
#[local] Open Scope list_scope.

Definition key_npub (k : Keys) : string :=
  opt_get (pk_to_hex (keys_public_key k)) (pk_to_bech32 (keys_public_key k)).
Definition from_nsec (secret : string) : result KeyError Keys := ok_or (keys_parse (trim secret)) InvalidSecret.
Definition reveal_nsec_for_backup (k : Keys) : string := opt_get (secret_hex k) (secret_bech32 k).
Definition of_store {A} (r : result SecretError A) : result KeyError A :=
  match r with Ok a => Ok a | Err e => Err (SecretFailed e) end.
Definition person_save {S} `{SecretStore S} (k : Keys) (store : S) : result KeyError S :=
  of_store (secret_put store (key_npub k) (reveal_nsec_for_backup k)).
Definition person_load {S} `{SecretStore S} (store : S) (npub : string) : result KeyError (option Keys) :=
  let? held := of_store (secret_get store npub) in
  match held with
  | None => Ok None
  | Some secret =>
      let? k := match from_nsec secret with Ok k => Ok k | Err _ => Err CorruptStoredKey end in
      guard bool_decide (key_npub k = npub) else CorruptStoredKey in
      Ok (Some k)
  end.
Definition group_key_save {S} `{SecretStore S} (k : Keys) (store : S) : result KeyError S :=
  of_store (secret_put store (key_npub k) (secret_hex k)).
Definition group_key_load {S} `{SecretStore S} (store : S) (npub : string) : result KeyError (option Keys) :=
  let? held := of_store (secret_get store npub) in
  match held with
  | None => Ok None
  | Some secret =>
      let? k := ok_or (keys_parse secret) CorruptStoredKey in
      guard bool_decide (key_npub k = npub) else CorruptStoredKey in
      Ok (Some k)
  end.
Definition person_sign (k : Keys) (b : EventBuilder) : result KeyError Event := ok_or (finalize k b) Sign.

(** ** Profiles *)
Definition MAX_NAME : Z := 64.
Definition RELAY_FIELD : string := "relay".
Definition ZAP_PUBKEY_FIELD : string := "zap_pubkey".
Definition clean (name : string) : string :=
  concat_str (take (Z.to_nat MAX_NAME) (List.filter (fun c => negb (is_control c)) (chars (trim name)))).

Definition metadata_default : Metadata := metadata None None None ∅ rest_default.
(** The metadata a profile starts from. *)
Definition current (previous : option Event) : Metadata :=
  opt_get metadata_default
    (let! e := previous in if ev_kind e =? METADATA then metadata_of e else None).
Definition set_name (n : option string) (m : Metadata) : Metadata :=
  metadata n (m_display_name m) (m_lud16 m) (m_custom m) (m_rest m).
Definition set_lud16 (a : option string) (m : Metadata) : Metadata :=
  metadata (m_name m) (m_display_name m) a (m_custom m) (m_rest m).
Definition set_custom (c : gmap string Json) (m : Metadata) : Metadata :=
  metadata (m_name m) (m_display_name m) (m_lud16 m) c (m_rest m).

Definition with_name (previous : option Event) (name : string) : EventBuilder :=
  into_builder (set_name (Some (clean name)) (current previous)).
Definition as_anchor (previous : option Event) (name : string) : EventBuilder :=
  let m := set_name (Some (clean name)) (current previous) in
  into_builder (set_custom (<["bot" := json_bool true]> (m_custom m)) m).
Definition with_relay (previous : option Event) (url : option string) : EventBuilder :=
  let m := current previous in
  into_builder (set_custom
    (match url with
     | Some u => <[RELAY_FIELD := json_str (trim u)]> (m_custom m)
     | None => delete RELAY_FIELD (m_custom m)
     end) m).
Definition with_lud16 (previous : option Event) (address : option (string * PublicKey)) : EventBuilder :=
  let m := current previous in
  into_builder (match address with
    | Some (a, key) => set_custom (<[ZAP_PUBKEY_FIELD := json_str (pk_to_hex key)]> (m_custom m))
                         (set_lud16 (Some (trim a)) m)
    | None => set_custom (delete ZAP_PUBKEY_FIELD (m_custom m)) (set_lud16 None m)
    end).

(** What [f] reads of a profile. *)
Definition of_profile {A} (f : Metadata -> option A) (e : Event) : option A :=
  if ev_kind e =? METADATA then let! m := metadata_of e in f m else None.
Definition relay_ok (url : string) : bool :=
  (starts_with "wss://" url || existsb (fun p => starts_with p url)
     ["ws://127.0.0.1:"; "ws://localhost:"; "ws://[::1]:"])
  && (str_len url <=? 256) && negb (existsb is_whitespace (chars url)).
Definition m_relay (m : Metadata) : option string :=
  let! v := m_custom m !! RELAY_FIELD in
  let! url := as_str v in if relay_ok url then Some url else None.
Definition m_bot (m : Metadata) : option bool := let! v := m_custom m !! "bot" in as_bool v.
Definition m_shown (m : Metadata) : option string :=
  List.find (fun n => negb (str_is_empty n))
    (map clean (option_list (m_name m) ++ option_list (m_display_name m))).
Definition m_zap_pubkey (m : Metadata) : option PublicKey :=
  let! v := m_custom m !! ZAP_PUBKEY_FIELD in let! s := as_str v in pk_from_hex s.
Definition address_ok (a : string) : bool := any_byte (fun c => bool_decide (c = "@"%char)) a.
Definition m_address (m : Metadata) : option string :=
  let! a := m_lud16 m in if address_ok a then Some a else None.
Definition relay_of : Event -> option string := of_profile m_relay.
Definition is_anchor (e : Event) : bool := opt_get false (of_profile m_bot e).
Definition name_of : Event -> option string := of_profile m_shown.
Definition zap_pubkey_of : Event -> option PublicKey := of_profile m_zap_pubkey.
Definition lud16_of : Event -> option string := of_profile m_address.

(** ** Announcements *)
Definition ANNOUNCEMENT : Kind := 39436.
Definition GROUPS_LIST : Kind := 10009.
Definition MAX_LISTED : nat := 500.
Definition MAX_LINK : Z := 2048.

Record Announcement := mkAnnouncement {
  a_group : PublicKey;
  a_name : string;
  a_about : string;
  a_members : Z;
  a_link : string;
  a_at : Timestamp;
}.
Inductive Heard := Public (a : Announcement) | Withdrawn (group : PublicKey) (at_ : Timestamp).
Definition heard_group (h : Heard) : PublicKey :=
  match h with Public a => a_group a | Withdrawn g _ => g end.
Definition heard_at (h : Heard) : Timestamp :=
  match h with Public a => a_at a | Withdrawn _ t => t end.

Definition announce_builder (name about : string) (members : Z) (link : string) (at_ : Timestamp) : EventBuilder :=
  mkBuilder ANNOUNCEMENT ""
    ([tag_identifier ""; tag_custom "name" [name]; tag_custom "members" [show_u members];
      tag_custom "link" [link]]
     ++ (if str_is_empty about then [] else [tag_custom "about" [about]])) (Some at_).
Definition announce (key : Keys) (name about : string) (members : Z) (link : string) (at_ : Timestamp)
    : result KeyError Event := person_sign key (announce_builder name about members link at_).
Definition withdraw_builder (at_ : Timestamp) : EventBuilder :=
  mkBuilder ANNOUNCEMENT "" [tag_identifier ""; tag_custom "private" []] (Some at_).
Definition announce_withdraw (key : Keys) (at_ : Timestamp) : result KeyError Event :=
  person_sign key (withdraw_builder at_).

Definition groups_list (groups : list (PublicKey * option string)) : EventBuilder :=
  mkBuilder GROUPS_LIST ""
    (map (fun '(g, relay) => tag_custom "group" [pk_to_hex g; opt_get "" relay]) groups) None.
Definition listed_group (t : Tag) : option PublicKey :=
  match t with
  | n :: hex :: _ => if bool_decide (n = "group") then pk_from_hex hex else None
  | _ => None
  end.
Definition read_groups_list (e : Event) : option (PublicKey * list PublicKey) :=
  if negb (ev_kind e =? GROUPS_LIST) || negb (ev_verify e) then None
  else Some (ev_pubkey e, take MAX_LISTED (filter_map listed_group (ev_tags e))).

(** The first tag of that name: [Some None] when it has no value. *)
Definition value_in (tags : list Tag) (name : string) : option (option string) :=
  let! t := List.find (fun t => bool_decide (head t = Some name)) tags in Some (t !! 1%nat).
Definition tag_value (e : Event) (name : string) : option (option string) := value_in (ev_tags e) name.
Definition spaced (s : string) : string :=
  trim (concat_str (map (fun c => if is_control c then " " else c) (chars s))).
Definition announcement_read (e : Event) : option Heard :=
  if negb (ev_kind e =? ANNOUNCEMENT) || negb (ev_verify e) then None
  else if negb (bool_decide (tag_value e "d" = Some (Some ""))) then None
  else if opt_bool (tag_value e "private") then Some (Withdrawn (ev_pubkey e) (ev_created_at e))
  else
    let! name := tag_value e "name" in
    let! name := name in
    let name := spaced name in
    let about := match tag_value e "about" with Some (Some a) => spaced a | _ => "" end in
    let! link := tag_value e "link" in
    let! link := link in
    if str_is_empty name || (MAX_NAME <? chars_count name) || (MAX_ABOUT <? chars_count about)
       || (MAX_LINK <? str_len link) then None
    else
      let! members := tag_value e "members" in
      let! members := members in
      let! members := parse_u64 members in
      Some (Public (mkAnnouncement (ev_pubkey e) name about members link (ev_created_at e))).
End Person.

(** ** Characters of a shortened text *)

(** One character: a byte and the continuation bytes after it. *)
Definition one_char (g : string) : Prop :=
  exists c h, g = String c h /\ all_bytes is_cont h = true.
Definition starts_char (g : string) : Prop :=
  match g with String c _ => is_cont c = false | EmptyString => False end.
(** A list of characters that [chars] would give. *)
Definition charlist (l : list string) : Prop :=
  Forall one_char l /\ Forall starts_char (tail l).

Lemma chars_cons c s : chars (String c s) =
  match chars s with
  | String d h :: rest => if is_cont d then String c (String d h) :: rest else String c "" :: String d h :: rest
  | l => String c "" :: l
  end.
Proof. cbn. destruct (chars s) as [|[|d h] rest]; done. Qed.
Lemma chars_list s : charlist (chars s).
Proof.
  induction s as [|c s [IH1 IH2]]; [by split; constructor|]. rewrite chars_cons.
  destruct (chars s) as [|[|d h] rest].
  - split; [|by constructor]. constructor; [by exists c, ""%string|constructor].
  - apply Forall_inv in IH1 as (? & ? & ? & _). done.
  - destruct (is_cont d) eqn:Ed; split; cbn [tail] in *.
    + apply Forall_cons in IH1 as [(c' & h' & [= <- <-] & Hh) IH1]. constructor; [|done].
      exists c, (String d h). split; [done|]. cbn. by rewrite Ed.
    + done.
    + constructor; [by exists c, ""%string|done].
    + by constructor.
Qed.
Lemma chars_app g s : one_char g -> (s = EmptyString \/ exists d h rest, chars s = String d h :: rest /\ is_cont d = false) ->
  chars (g +:+ s) = g :: chars s.
Proof.
  intros (c & h & -> & Hh) Hs. revert c. induction h as [|d h IH]; intros c.
  - change (chars (String c s) = String c "" :: chars s). rewrite chars_cons. destruct Hs as [->|(d & h & rest & -> & Hd)]; [done|]. by rewrite Hd.
  - cbn [all_bytes] in Hh. apply andb_prop in Hh as [Hd Hh]. 
    change (chars (String c (String d h +:+ s)) = String c (String d h) :: chars s).
    rewrite chars_cons, (IH Hh d). by rewrite Hd.
Qed.
Lemma chars_concat l : charlist l -> chars (concat_str l) = l.
Proof.
  unfold charlist. induction l as [|g l IH]; [done|]. intros [[Hg Hl]%Forall_cons Ht]. cbn [tail] in Ht.
  cbn [concat_str foldr]. change (foldr String.append "" l) with (concat_str l).
  rewrite chars_app; [|done|].
  - f_equal. apply IH. split; [done|]. by destruct Ht.
  - destruct l as [|g' l]; [by left|]. right.
    rewrite IH by (split; [done|]; by apply Forall_cons in Ht as [_ Ht]).
    apply Forall_cons in Ht as [Hs _]. destruct g' as [|d h]; [done|]. by exists d, h, l.
Qed.
Lemma sub_forall {A} (Q : A -> Prop) l l' : sublist l l' -> Forall Q l' -> Forall Q l.
Proof.
  rewrite !Forall_forall. intros Hs Hl x Hx. apply Hl. by eapply elem_of_sublist.
Qed.
Lemma charlist_sub l l' : sublist l l' -> charlist l' -> charlist l.
Proof.
  intros Hs [H1 H2]. split; [by eapply sub_forall|].
  destruct l as [|g l]; [constructor|]. cbn [tail]. destruct l' as [|g' l']; [by apply sublist_nil_r in Hs|].
  cbn [tail] in H2. eapply sub_forall; [|exact H2].
  apply sublist_cons_r in Hs as [Hs|(k & [= -> ->] & Hs)]; [|done].
  etransitivity; [|exact Hs]. by constructor.
Qed.
Lemma filter_sub {A} (p : A -> bool) l : sublist (List.filter p l) l.
Proof. induction l as [|x l IH]; [constructor|]. cbn. destruct (p x); by constructor. Qed.
Lemma drop_while_sub {A} (p : A -> bool) l : sublist (drop_while p l) l.
Proof. induction l as [|x l IH]; [constructor|]. cbn. destruct (p x); [by constructor|done]. Qed.
Lemma sub_rev {A} (l k : list A) : sublist l k -> sublist (rev l) (rev k).
Proof.
  induction 1 as [|x l k _ IH|x l k _ IH]; cbn; [done|by apply sublist_app|by apply sublist_inserts_r].
Qed.
Lemma trim_chars s : sublist (chars (trim s)) (chars s).
Proof.
  unfold trim. set (l := rev (drop_while _ _)).
  assert (Hl : sublist l (chars s)).
  { unfold l. rewrite <- (rev_involutive (chars s)) at 2.
    apply sub_rev. etransitivity; [apply drop_while_sub|]. apply sub_rev, drop_while_sub. }
  rewrite chars_concat; [done|]. eapply charlist_sub; [exact Hl|apply chars_list].
Qed.

Section Laws.
Context {N : NostrTypes} {O : NostrOps} {L : NostrLaws} {T : DeviceTypes} {Y : WireTypes} {W : WireLaws}.
Context {F : ProfileTypes} {FL : ProfileLaws}.
#[local] Open Scope string_scope.
#[local] Open Scope Z_scope.
#[local] Open Scope list_scope.

(** ** Names *)
Lemma clean_chars n : chars (clean n) =
  take (Z.to_nat MAX_NAME) (List.filter (fun c => negb (is_control c)) (chars (trim n))).
Proof.
  apply chars_concat. eapply charlist_sub; [|apply (chars_list (trim n))].
  etransitivity; [apply sublist_take|apply filter_sub].
Qed.
Lemma clean_bounds n : chars_count (clean n) <= MAX_NAME /\ Forall (fun c => is_control c = false) (chars (clean n)).
Proof.
  unfold chars_count. rewrite clean_chars. split.
  - rewrite length_take. unfold MAX_NAME. lia.
  - apply Forall_forall. intros c Hc. pose proof (elem_of_sublist _ _ _ Hc (sublist_take _ _)) as Hc'.
    apply filter_elem in Hc' as [_ Hc']. by apply negb_true_iff in Hc'.
Qed.

(** ** Secrets *)
Lemma load_saved S `{SecretLaws S} (store : S) k s' : person_save k store = Ok s' ->
  secret_get s' (key_npub k) = Ok (Some (reveal_nsec_for_backup k)).
Proof.
  unfold person_save, of_store. intros Hs. destruct (secret_put store _ _) as [s1|] eqn:Ep; [|done].
  injection Hs as ->. rewrite (get_put _ _ _ _ _ Ep). by rewrite bool_decide_true.
Qed.

(** Keys kept in a store that keeps what it is given: a person saved is
    loaded again under their own npub; what is filed under any other name is
    not touched; and whatever a store hands back under a name, [load] adopts
    only a key whose npub is that name - somebody else's key filed there is
    an error, never an identity. *)
Theorem keys_round_trip {S} `{SecretLaws S} (store : S) k s' : person_save k store = Ok s' ->
  person_load s' (key_npub k) = Ok (Some k) /\
  (forall name, name <> key_npub k -> person_load s' name = person_load store name) /\
  (forall st npub k', person_load (S:=S) st npub = Ok (Some k') -> key_npub k' = npub).
Proof.
  intros Hs. pose proof (load_saved S store k s' Hs) as Hg. split; [|split].
  - unfold person_load. rewrite Hg. cbn. unfold from_nsec, reveal_nsec_for_backup.
    assert (keys_parse (trim (opt_get (secret_hex k) (secret_bech32 k))) = Some k) as ->.
    { destruct (secret_bech32 k) as [b|] eqn:Eb; cbn [opt_get].
      - destruct (keys_parse_bech32 k b Eb) as [Hk ->]. exact Hk.
      - destruct (keys_parse_hex k) as [Hk ->]. exact Hk. }
    cbn. by rewrite bool_decide_true.
  - intros name Hn. unfold person_load, person_save, of_store in *.
    destruct (secret_put store _ _) as [s1|] eqn:Ep; [|done]. injection Hs as ->.
    rewrite (get_put _ _ _ _ _ Ep). by rewrite bool_decide_false.
  - intros st npub k'. unfold person_load. destruct (of_store _) as [[secret|]|]; [|done..].
    destruct (from_nsec secret) as [k1|]; [|done].
    case_bool_decide as E; [|done]. by intros [= <-].
Qed.

(** ** Profiles *)
(** An event that says what a profile's builder was given. *)
Definition wrote (b : EventBuilder) (e : Event) : Prop :=
  ev_kind e = b_kind b /\ ev_content e = b_content b.
Definition of_prev {A} (f : Event -> option A) (prev : option Event) : option A := let! p := prev in f p.

Lemma current_unowned prev k : own_field k = true -> m_custom (current prev) !! k = None.
Proof.
  intros Hk. assert (Hd : m_custom metadata_default !! k = None).
  { unfold metadata_default. by destruct (fields_spec None None None ∅ rest_default) as (_ & _ & _ & -> & _). }
  unfold current. destruct prev as [p|]; cbn; [|done]. destruct (_ =? METADATA); cbn; [|done].
  destruct (metadata_of p) as [m|] eqn:Em; cbn; [|done]. by apply (custom_not_own p).
Qed.
Lemma default_spec : m_name metadata_default = None /\ m_display_name metadata_default = None /\
  m_lud16 metadata_default = None /\ m_custom metadata_default = ∅.
Proof. unfold metadata_default. by destruct (fields_spec None None None ∅ rest_default) as (-> & -> & -> & -> & _). Qed.
(** What an event just written reads as, in terms of its metadata, and what
    the profile before it did. *)
Definition unowned (m : Metadata) : Prop := forall k, own_field k = true -> m_custom m !! k = None.
Lemma reads m e : unowned m -> wrote (into_builder m) e ->
  relay_of e = m_relay m /\ zap_pubkey_of e = m_zap_pubkey m /\ lud16_of e = m_address m /\
  is_anchor e = opt_get false (m_bot m) /\ name_of e = m_shown m.
Proof.
  intros Hm [Hk Hc]. destruct (into_builder_spec m) as (Hb & _). rewrite Hb in Hk.
  unfold relay_of, zap_pubkey_of, lud16_of, is_anchor, name_of, of_profile.
  rewrite Hk. cbn [Z.eqb METADATA]. by rewrite (metadata_round_trip m e).
Qed.
Lemma prev_reads {A} (f : Metadata -> option A) prev : f metadata_default = None ->
  of_prev (of_profile f) prev = f (current prev).
Proof.
  intros Hd. unfold of_prev, of_profile, current. destruct prev as [p|]; [|done].
  destruct (_ =? METADATA); [|done]. by destruct (metadata_of p).
Qed.
Lemma prev_all prev :
  of_prev relay_of prev = m_relay (current prev) /\ of_prev zap_pubkey_of prev = m_zap_pubkey (current prev) /\
  of_prev lud16_of prev = m_address (current prev) /\
  is_some_and prev is_anchor = opt_get false (m_bot (current prev)) /\
  of_prev name_of prev = m_shown (current prev).
Proof.
  destruct default_spec as (H1 & H2 & H3 & H4).
  assert (Ha : is_some_and prev is_anchor = opt_get false (of_prev (of_profile m_bot) prev)) by by destruct prev.
  rewrite Ha. unfold relay_of, zap_pubkey_of, lud16_of, name_of.
  rewrite !prev_reads; [done|..]; unfold m_relay, m_zap_pubkey, m_address, m_bot, m_shown; by rewrite ?H1, ?H2, ?H3, ?H4.
Qed.
Lemma set_spec m n a c :
  (m_name (set_name n m) = n /\ m_lud16 (set_name n m) = m_lud16 m /\ m_custom (set_name n m) = m_custom m) /\
  (m_lud16 (set_lud16 a m) = a /\ m_custom (set_lud16 a m) = m_custom m /\ m_name (set_lud16 a m) = m_name m /\
     m_display_name (set_lud16 a m) = m_display_name m) /\
  (m_custom (set_custom c m) = c /\ m_lud16 (set_custom c m) = m_lud16 m /\
     m_name (set_custom c m) = m_name m /\ m_display_name (set_custom c m) = m_display_name m).
Proof.
  unfold set_name, set_lud16, set_custom.
  destruct (fields_spec n (m_display_name m) (m_lud16 m) (m_custom m) (m_rest m)) as (-> & _ & -> & -> & _).
  destruct (fields_spec (m_name m) (m_display_name m) a (m_custom m) (m_rest m)) as (-> & -> & -> & -> & _).
  destruct (fields_spec (m_name m) (m_display_name m) (m_lud16 m) c (m_rest m)) as (-> & -> & -> & -> & _). done.
Qed.

(** Editing a profile changes the field asked for and no other: a new
    name is the one shown (cleaned), and the relay, wallet key, Lightning
    address and anchor mark stay as they were - so an anchor renamed is an
    anchor still; an anchor's mark, a new relay, or a new address and wallet
    key are what is then read back, with the other fields kept. *)
Theorem profile_edits prev e :
  (forall name, wrote (with_name prev name) e ->
     relay_of e = of_prev relay_of prev /\ zap_pubkey_of e = of_prev zap_pubkey_of prev /\
     lud16_of e = of_prev lud16_of prev /\ is_anchor e = is_some_and prev is_anchor /\
     (clean (clean name) <> "" -> name_of e = Some (clean (clean name)))) /\
  (forall name, wrote (as_anchor prev name) e ->
     is_anchor e = true /\ relay_of e = of_prev relay_of prev /\ lud16_of e = of_prev lud16_of prev /\
     zap_pubkey_of e = of_prev zap_pubkey_of prev) /\
  (forall url, wrote (with_relay prev url) e ->
     relay_of e = (let! u := url in if relay_ok (trim u) then Some (trim u) else None) /\
     name_of e = of_prev name_of prev /\ is_anchor e = is_some_and prev is_anchor /\
     lud16_of e = of_prev lud16_of prev /\ zap_pubkey_of e = of_prev zap_pubkey_of prev) /\
  (forall address, wrote (with_lud16 prev address) e ->
     zap_pubkey_of e = option_map snd address /\
     lud16_of e = (let! a := address in if address_ok (trim a.1) then Some (trim a.1) else None) /\
     name_of e = of_prev name_of prev /\ is_anchor e = is_some_and prev is_anchor /\
     relay_of e = of_prev relay_of prev).
Proof.
  destruct ours_not_own as (Hbot & Hrel & Hzap), (prev_all prev) as (-> & -> & -> & -> & ->).
  pose proof (current_unowned prev) as Hu. set (m := current prev) in *.
  assert (Hown : forall k c (j : option Json), own_field k = false ->
    c = partial_alter (fun _ => j) k (m_custom m) -> forall k', own_field k' = true -> c !! k' = None).
  { intros k c j Hk -> k' Hk'. rewrite lookup_partial_alter_ne by congruence. by apply Hu. }
  split; [|split; [|split]].
  - intros name Hw. unfold with_name in Hw. fold m in Hw.
    destruct (set_spec m (Some (clean name)) None ∅) as ((H1 & H2 & H3) & _).
    apply reads in Hw as (-> & -> & -> & -> & ->); [|unfold unowned; by rewrite H3].
    unfold m_relay, m_zap_pubkey, m_address, m_bot, m_shown. rewrite H1, H2, H3. split_and!; try done.
    cbn. by destruct (clean (clean name)).
  - intros name Hw. unfold as_anchor in Hw. fold m in Hw.
    destruct (set_spec m (Some (clean name)) None ∅) as ((_ & H2 & H3) & _). rewrite H3 in Hw.
    destruct (set_spec (set_name (Some (clean name)) m) None None (<["bot" := json_bool true]> (m_custom m)))
      as (_ & _ & H5 & H6 & _).
    apply reads in Hw as (-> & -> & -> & -> & _); [|unfold unowned; rewrite H5; intros k'; eapply Hown; [|first [exact Hc|reflexivity]]; done].
    unfold m_relay, m_zap_pubkey, m_address, m_bot. rewrite H5, H6, H2, lookup_insert_eq, !lookup_insert_ne by done.
    cbn. by rewrite as_bool_json.
  - intros url Hw. unfold with_relay in Hw. fold m in Hw.
    set (c := match url with Some u => <[RELAY_FIELD := json_str (trim u)]> (m_custom m)
                           | None => delete RELAY_FIELD (m_custom m) end) in *.
    assert (Hc : c = partial_alter (fun _ => option_map (fun u => json_str (trim u)) url) RELAY_FIELD (m_custom m))
      by by destruct url.
    destruct (set_spec m None None c) as (_ & _ & H5 & H6 & H7 & H8).
    apply reads in Hw as (-> & -> & -> & -> & ->); [|unfold unowned; rewrite H5; intros k'; eapply Hown; [|first [exact Hc|reflexivity]]; done].
    unfold m_relay, m_zap_pubkey, m_address, m_bot, m_shown.
    rewrite H5, H6, H7, H8, Hc, lookup_partial_alter_eq, !lookup_partial_alter_ne by done.
    split; [|done]. destruct url; cbn; by rewrite ?as_str_json.
  - intros address Hw. unfold with_lud16 in Hw. fold m in Hw.
    set (lud := option_map (fun a => trim a.1) address).
    set (c := partial_alter (fun _ => option_map (fun a => json_str (pk_to_hex a.2)) address) ZAP_PUBKEY_FIELD (m_custom m)).
    assert (Hw' : wrote (into_builder (set_custom c (set_lud16 lud m))) e) by by destruct address as [[a k]|].
    destruct (set_spec m None lud ∅) as (_ & (H1 & H2 & H3 & H4) & _).
    destruct (set_spec (set_lud16 lud m) None None c) as (_ & _ & H5 & H6 & H7 & H8).
    apply reads in Hw' as (-> & -> & -> & -> & ->); [|unfold unowned; rewrite H5; intros k'; eapply Hown; [|first [exact Hc|reflexivity]]; done].
    unfold m_relay, m_zap_pubkey, m_address, m_bot, m_shown.
    rewrite H5, H6, H7, H8, H1, H3, H4. unfold c. rewrite lookup_partial_alter_eq, !lookup_partial_alter_ne by done.
    split; [|split; [|done]]; unfold lud; destruct address as [[a k]|]; cbn; rewrite ?as_str_json, ?pk_hex; done.
Qed.

(** ** Announcements *)
Lemma signed_carries k b e : person_sign k b = Ok e -> (forall t, t ∈ b_tags b -> t !! 0%nat <> Some "p") ->
  carries b (keys_public_key k) e /\ ev_verify e = true.
Proof.
  unfold person_sign. destruct (finalize k b) as [e'|] eqn:Ef; [|done]. intros [= <-] Hp.
  apply (finalize_spec k b e'); [done|]. intros t Ht H. by apply Hp in Ht.
Qed.
Lemma announce_tags name about members link at_ :
  b_tags (announce_builder name about members link at_) =
    [["d"; ""]; ["name"; name]; ["members"; show_u members]; ["link"; link]] ++
    (if str_is_empty about then [] else [["about"; about]]).
Proof.
  unfold announce_builder. cbn [b_tags]. rewrite tag_identifier_spec, !tag_custom_spec.
  by destruct (str_is_empty about).
Qed.
Lemma value_in_cons n vs ts name :
  value_in ((n :: vs) :: ts) name = if bool_decide (n = name) then Some (vs !! 0%nat) else value_in ts name.
Proof.
  unfold value_in. cbn [List.find head]. destruct (decide (n = name)) as [->|Hn].
  - by rewrite !bool_decide_true.
  - rewrite !bool_decide_false; [done|done|congruence].
Qed.
Lemma value_in_about about :
  value_in (if str_is_empty about then [] else [["about"; about]]) "about" =
  if str_is_empty about then None else Some (Some about).
Proof. by destruct (str_is_empty about). Qed.
Lemma value_in_private about : value_in (if str_is_empty about then [] else [["about"; about]]) "private" = None.
Proof. by destruct (str_is_empty about). Qed.
Lemma announcement_sound e h : announcement_read e = Some h ->
  ev_verify e = true /\ heard_group h = ev_pubkey e /\ heard_at h = ev_created_at e.
Proof.
  unfold announcement_read. destruct (negb (ev_kind e =? ANNOUNCEMENT)); [done|].
  destruct (ev_verify e); [|done]. cbn [negb orb]. destruct (negb (bool_decide _)); [done|].
  destruct (opt_bool _); [by intros [= <-]|].
  destruct (tag_value e "name") as [[n|]|]; [|done..]. destruct (tag_value e "link") as [[l|]|]; [|done..].
  cbv zeta. destruct (_ || _ || _ || _); [done|].
  destruct (tag_value e "members") as [[m|]|]; [|done..]. destruct (parse_u64 m); [|done]. by intros [= <-].
Qed.

Lemma withdraw_reads key at_ e : announce_withdraw key at_ = Ok e ->
  announcement_read e = Some (Withdrawn (keys_public_key key) at_).
Proof.
  intros He. destruct (signed_carries _ _ _ He) as [(Hk & _ & Ht & Hat & Hp) Hv].
  { unfold withdraw_builder. cbn [b_tags]. rewrite tag_identifier_spec, tag_custom_spec. intros t.
    rewrite !elem_of_cons, elem_of_nil. naive_solver. }
  unfold withdraw_builder in Ht. cbn [b_tags] in Ht. rewrite tag_identifier_spec, tag_custom_spec in Ht.
  unfold announcement_read, tag_value. rewrite Hk, Hv, Ht, !value_in_cons. str_dec. cbn [lookup list_lookup].
  rewrite bool_decide_true by done. change (negb (_ =? ANNOUNCEMENT)) with false. cbn [negb orb opt_bool].
  by rewrite Hp, (Hat at_ eq_refl).
Qed.

(** What a group announces is what a stranger reads: the name and the
    words about it, cleaned, the member count and the link, under the group's
    own key; a withdrawal reads as one; and nothing reads as an announcement,
    or a withdrawal, of a group whose key did not sign it. *)
Theorem announcement_round_trip key name about members link at_ : is_u64 members ->
  spaced name <> "" -> chars_count (spaced name) <= MAX_NAME -> chars_count (spaced about) <= MAX_ABOUT ->
  str_len link <= MAX_LINK ->
  (forall e, announce key name about members link at_ = Ok e ->
     announcement_read e = Some (Public (mkAnnouncement (keys_public_key key) (spaced name) (spaced about)
                                           members link at_))) /\
  (forall e, announce_withdraw key at_ = Ok e ->
     announcement_read e = Some (Withdrawn (keys_public_key key) at_)) /\
  (forall e h, announcement_read e = Some h -> ev_verify e = true /\ heard_group h = ev_pubkey e).
Proof.
  intros Hm Hn Hname Habout Hlink. split; [|split].
  - intros e He. destruct (signed_carries _ _ _ He) as [(Hk & _ & Ht & Hat & Hp) Hv].
    { rewrite announce_tags. intros t. destruct (str_is_empty about);
        rewrite elem_of_app, !elem_of_cons, elem_of_nil; naive_solver. }
    rewrite announce_tags in Ht. unfold announcement_read, tag_value. rewrite Hk, Hv, Ht.
    cbn [b_kind announce_builder app]. rewrite !value_in_cons. str_dec. cbn [lookup list_lookup].
    rewrite value_in_about, value_in_private, Hp, (Hat at_ eq_refl). rewrite bool_decide_true by done.
    change (negb (ANNOUNCEMENT =? ANNOUNCEMENT)) with false. cbn [negb orb opt_bool].
    assert (Ha : match (if str_is_empty about then None else Some (Some about)) with
      Some (Some a) => spaced a | _ => "" end = spaced about) by by destruct about.
    rewrite Ha, (parse_show_u U64_MAX) by (destruct Hm; done).
    rewrite (proj2 (Z.ltb_ge _ _) Hname), (proj2 (Z.ltb_ge _ _) Hlink), (proj2 (Z.ltb_ge _ _) Habout).
    by destruct (spaced name).
  - intros e. apply withdraw_reads.
  - intros e h H. by apply announcement_sound in H as (? & ? & _).
Qed.
End Laws.
