(* ===== verification/Node.v ===== *)
(** One node ([crates/hit-node/src/lib.rs]): what it keeps, and [accept_event],
    the one way an event enters it - signature, judgement, the book, the store,
    then whatever the event changes: the group refolded, what its silences
    cover purged, withdrawals and removals applied, the gossip gate moved.

    A handler is a function of the node's state that returns the state it
    leaves and what it answers; an error leaves what was done before it.  The
    clock, and what the network answers, are the [Env] of a call.  A call here
    runs without a stop, as it does when no other of the node is under way;
    [Overlap] cuts it at its awaits and has [fold_lock], which lets some calls
    overlap.  What is sent out (subscribers, gossip, closed connections) is a log. *)
From S2P Require Import Prelude Text Nostr GroupEvent Replace Perm Zap GroupState Fold.
From S2P Require Import Binding Dm Groups EventStore Proto.

#[local] Open Scope Z_scope.

(** ** Errors (NodeError, and how refusals read) *)
Inductive NodeError :=
| StoreFailed (e : StoreError)
| KeyFailed
| FrameFailed (e : FrameError)
| DeviceKeyFailed (why : string)
| BindFailed (why : string)
| ConnectFailed (why : string)
| DeviceRevoked
| HelloFailed (e : HelloError)
| PeerBinding (e : BindingError)
| Refused (r : Refusal)
| WrongPeer
| RefusedByPeer (why : string)
| Protocol (why : string)
| NoSuchGroup
| NoGroupKey
| GossipFailed (why : string)
| JoinFailed (why : string)
| NoSuchEvent
| NotYours
| BlobFailed (why : string)
| NoProvider
| ZapFailed (e : ZapError)
| NotTheirProvider.

(** [Display] of a [Refusal] (hit-group/src/lib.rs) and of a [BindingError]. *)
Definition refusal_text (r : Refusal) : string :=
  match r with
  | NotAMember => "not a member"
  | AlreadyAMember => "already a member"
  | KindNotCarried k => "this node does not carry kind " +:+ show_u k
  | GroupNotCarried => "this node does not carry that group"
  | NoState => "this node has no state for that group yet"
  | NotSignedByGroup => "group state not signed by the group key"
  | Malformed => "malformed group event"
  | NoSuchChannel => "no such channel"
  | Lacks p => "lacks permission: " +:+ Perm.to_string p
  | TheOwner => "nobody may act on the owner"
  | NotTheOwner => "only the owner the group key names may sign its creation"
  | Outranked => "does not outrank the target"
  | CannotGrant => "cannot grant a permission it does not hold"
  | UnknownRole => "unknown role"
  | NoSuchInvite => "no valid invite with that code"
  | Folded => "folded into the group's snapshot"
  | NotApplied => "not valid against the group's state"
  | FromTheFuture => "dated too far in the future"
  | Stale => "too old to mean anything now"
  | Banned => "banned from this group"
  | NotBanned => "not banned"
  | Muted => "muted"
  | NotMuted => "not muted"
  | BadEdit => "an edit this group cannot take"
  | TooSoon n => "slowmode: wait " +:+ show_u n +:+ " s between messages here"
  | Newcomer n => "new here: posting opens " +:+ show_u n +:+ " s after joining"
  | NotOurs => "not a DM for anyone this node keeps them for"
  | TooLarge => "too large"
  end.
Definition binding_text (e : BindingError) : string :=
  match e with
  | WrongKind => "not a device binding (wrong kind)"
  | BadSignature => "bad event id or signature"
  | MissingDevice => "no `d` tag naming a device"
  | NotCanonicalDevice => "the `d` tag is not a lowercase-hex EndpointId"
  | WrongDevice => "the binding names a different device than this connection"
  | MissingProof => "no device proof"
  | BadProof => "the device proof does not verify"
  | MissingExpiry => "no expiration"
  | Expired => "expired"
  | TtlTooLong => "lifetime longer than 30 days"
  | BindingFromTheFuture => "created in the future"
  | BindingRevoked => "this device has been revoked"
  | Superseded => "a newer binding for this device replaces this one"
  end.

(** Where an event came from. *)
Inductive Source := Local | Push | Fetch | Gossip.
#[export] Instance source_eq_dec : EqDecision Source.
Proof. solve_decision. Defined.

(** [tokio::time::Instant], in seconds. *)
Abbreviation Instant := Z (only parsing).
Abbreviation Verdict := (bool * string)%type (only parsing).

Definition FOLD_KINDS : list Kind := STATE_KINDS ++ [CREATE_GROUP] ++ ACTION_KINDS.
Definition changes_state (kind : Kind) : bool :=
  negb (kind_in kind CHANNEL_KINDS) && negb (kind =? PRESENCE) && negb (kind =? VOICE_PRESENCE).

Section Node.
Context {N : NostrTypes} {O : NostrOps} {T : DeviceTypes} {P : DeviceOps} {C : DmCrypto}.

(** ** State *)

(** A gossip connection, tracked by a weak handle. *)
Record Conn := mkConn { c_id : Z; c_device : EndpointId }.
#[global] Instance conn_eq_dec : EqDecision Conn.
Proof. solve_decision. Defined.
Inductive Effect :=
| Told (e : Event)
| ToldRemoved (ids : list EventId)
| Broadcast (group : PublicKey) (e : Event)
| Closed (c : Conn).

(** The clock, and what the network does: whether a handle still upgrades,
    whether subscribing to a group's topic succeeds. *)
Record Env := mkEnv {
  now : Timestamp;
  instant : Instant;
  alive : Conn -> bool;
  subscribes : PublicKey -> bool;
}.

Record Inner := mkInner {
  n_person : Keys;
  n_device : DeviceKey;
  n_store : EventStore.Store;
  n_book : gmap (PublicKey * string) Event;
  n_groups : Groups;
  n_own_binding : Event;
  n_gossip : gmap PublicKey (list Conn);
  n_hints : gset EndpointId;
  n_heard : gset EndpointId;
  n_reached : gmap EndpointId Instant;
  n_inbox_devices : gset EndpointId;
  n_inbox_expired : option Instant;
  n_voice : gmap (PublicKey * string) (gmap PublicKey Instant);
  n_present : gmap PublicKey Instant;
  n_folded : gmap PublicKey nat;
  n_log : list Effect;
}.
Definition with_store (v : EventStore.Store) (n : Inner) : Inner :=
  mkInner (n_person n) (n_device n) v (n_book n) (n_groups n) (n_own_binding n) (n_gossip n)
    (n_hints n) (n_heard n) (n_reached n) (n_inbox_devices n) (n_inbox_expired n) (n_voice n)
    (n_present n) (n_folded n) (n_log n).
Definition with_book (v : gmap (PublicKey * string) Event) (n : Inner) : Inner :=
  mkInner (n_person n) (n_device n) (n_store n) v (n_groups n) (n_own_binding n) (n_gossip n)
    (n_hints n) (n_heard n) (n_reached n) (n_inbox_devices n) (n_inbox_expired n) (n_voice n)
    (n_present n) (n_folded n) (n_log n).
Definition with_groups (v : Groups) (n : Inner) : Inner :=
  mkInner (n_person n) (n_device n) (n_store n) (n_book n) v (n_own_binding n) (n_gossip n)
    (n_hints n) (n_heard n) (n_reached n) (n_inbox_devices n) (n_inbox_expired n) (n_voice n)
    (n_present n) (n_folded n) (n_log n).
Definition with_own_binding (v : Event) (n : Inner) : Inner :=
  mkInner (n_person n) (n_device n) (n_store n) (n_book n) (n_groups n) v (n_gossip n)
    (n_hints n) (n_heard n) (n_reached n) (n_inbox_devices n) (n_inbox_expired n) (n_voice n)
    (n_present n) (n_folded n) (n_log n).
Definition with_gossip (v : gmap PublicKey (list Conn)) (n : Inner) : Inner :=
  mkInner (n_person n) (n_device n) (n_store n) (n_book n) (n_groups n) (n_own_binding n) v
    (n_hints n) (n_heard n) (n_reached n) (n_inbox_devices n) (n_inbox_expired n) (n_voice n)
    (n_present n) (n_folded n) (n_log n).
Definition with_hints (v : gset EndpointId) (n : Inner) : Inner :=
  mkInner (n_person n) (n_device n) (n_store n) (n_book n) (n_groups n) (n_own_binding n)
    (n_gossip n) v (n_heard n) (n_reached n) (n_inbox_devices n) (n_inbox_expired n) (n_voice
    n) (n_present n) (n_folded n) (n_log n).
Definition with_heard (v : gset EndpointId) (n : Inner) : Inner :=
  mkInner (n_person n) (n_device n) (n_store n) (n_book n) (n_groups n) (n_own_binding n)
    (n_gossip n) (n_hints n) v (n_reached n) (n_inbox_devices n) (n_inbox_expired n) (n_voice
    n) (n_present n) (n_folded n) (n_log n).
Definition with_reached (v : gmap EndpointId Instant) (n : Inner) : Inner :=
  mkInner (n_person n) (n_device n) (n_store n) (n_book n) (n_groups n) (n_own_binding n)
    (n_gossip n) (n_hints n) (n_heard n) v (n_inbox_devices n) (n_inbox_expired n) (n_voice n)
    (n_present n) (n_folded n) (n_log n).
Definition with_inbox_devices (v : gset EndpointId) (n : Inner) : Inner :=
  mkInner (n_person n) (n_device n) (n_store n) (n_book n) (n_groups n) (n_own_binding n)
    (n_gossip n) (n_hints n) (n_heard n) (n_reached n) v (n_inbox_expired n) (n_voice n)
    (n_present n) (n_folded n) (n_log n).
Definition with_inbox_expired (v : option Instant) (n : Inner) : Inner :=
  mkInner (n_person n) (n_device n) (n_store n) (n_book n) (n_groups n) (n_own_binding n)
    (n_gossip n) (n_hints n) (n_heard n) (n_reached n) (n_inbox_devices n) v (n_voice n)
    (n_present n) (n_folded n) (n_log n).
Definition with_voice (v : gmap (PublicKey * string) (gmap PublicKey Instant)) (n : Inner) : Inner :=
  mkInner (n_person n) (n_device n) (n_store n) (n_book n) (n_groups n) (n_own_binding n)
    (n_gossip n) (n_hints n) (n_heard n) (n_reached n) (n_inbox_devices n) (n_inbox_expired n)
    v (n_present n) (n_folded n) (n_log n).
Definition with_present (v : gmap PublicKey Instant) (n : Inner) : Inner :=
  mkInner (n_person n) (n_device n) (n_store n) (n_book n) (n_groups n) (n_own_binding n)
    (n_gossip n) (n_hints n) (n_heard n) (n_reached n) (n_inbox_devices n) (n_inbox_expired n)
    (n_voice n) v (n_folded n) (n_log n).
Definition with_folded (v : gmap PublicKey nat) (n : Inner) : Inner :=
  mkInner (n_person n) (n_device n) (n_store n) (n_book n) (n_groups n) (n_own_binding n)
    (n_gossip n) (n_hints n) (n_heard n) (n_reached n) (n_inbox_devices n) (n_inbox_expired n)
    (n_voice n) (n_present n) v (n_log n).
Definition with_log (v : list Effect) (n : Inner) : Inner :=
  mkInner (n_person n) (n_device n) (n_store n) (n_book n) (n_groups n) (n_own_binding n)
    (n_gossip n) (n_hints n) (n_heard n) (n_reached n) (n_inbox_devices n) (n_inbox_expired n)
    (n_voice n) (n_present n) (n_folded n) v.


(** ** The monad of handlers *)
Definition M (A : Type) : Type := Inner -> Inner * result NodeError A.
Definition ret {A} (a : A) : M A := fun n => (n, Ok a).
Definition fail {A} (e : NodeError) : M A := fun n => (n, Err e).
Definition bind {A B} (m : M A) (k : A -> M B) : M B :=
  fun n => let '(n, r) := m n in
           match r with Ok a => k a n | Err e => (n, Err e) end.
Definition get : M Inner := fun n => (n, Ok n).
Definition modify (f : Inner -> Inner) : M unit := fun n => (f n, Ok tt).
Definition lift {A} (r : result StoreError A) : M A :=
  match r with Ok a => ret a | Err e => fail (StoreFailed e) end.
(** A state-changing statement of the store. *)
Definition on_store {A} (f : EventStore.Store -> EventStore.Store * A) : M A :=
  fun n => let '(s, a) := f (n_store n) in (with_store s n, Ok a).
Definition emit (e : Effect) : M unit := modify (fun n => with_log (n_log n ++ [e]) n).
End Node.

Notation "'let*' x ':=' e 'in' k" := (bind e (fun x => k))
  (at level 200, x pattern, e at level 200, k at level 200, right associativity) : hit_scope.
(** An early [return Ok((false, why))]. *)
Notation "'unless' m 'in' k" :=
  (bind m (fun refused => match refused with Some why => ret (Some why) | None => k end))
  (at level 200, m at level 200, k at level 200, right associativity) : hit_scope.
Notation "'when' b 'then' m 'in' k" := (bind (if b then m else ret tt) (fun _ => k))
  (at level 200, b at level 200, m at level 200, k at level 200, right associativity) : hit_scope.

Section Handlers.
Context {N : NostrTypes} {O : NostrOps} {T : DeviceTypes} {P : DeviceOps} {C : DmCrypto}.
#[local] Open Scope string_scope.
#[local] Open Scope Z_scope.
#[local] Open Scope list_scope.

Definition me (n : Inner) : PublicKey := keys_public_key (n_person n).
Definition my_id (n : Inner) : EndpointId := device_public (n_device n).

(** ** What the fold reads of the store *)
Definition fold_filter (g : PublicKey) : Filter :=
  mkFilter None None (Some FOLD_KINDS) None None None None [("h", {[pk_to_hex g]})].
Definition state_filter (g : PublicKey) : Filter :=
  mkFilter None (Some {[g]}) (Some STATE_KINDS) None None None None [("d", {[pk_to_hex g]})].
Definition group_events (s : EventStore.Store) (g : PublicKey) : result StoreError (list Event) :=
  let? evs := query s (fold_filter g) in
  let? more := query s (state_filter g) in Ok (evs ++ more).
Definition messages_filter (g : PublicKey) : Filter :=
  mkFilter None None (Some [CHAT_MESSAGE]) None None None None [("h", {[pk_to_hex g]})].
Definition messages (s : EventStore.Store) (g : PublicKey) : result StoreError (list Event) :=
  let? evs := query s (messages_filter g) in Ok (rev evs).

(** ** The gossip gate *)
Definition device_is_member (n : Inner) (device : EndpointId) (g : PublicKey) (at_ : Timestamp) : bool :=
  is_some_and (state (n_groups n) g)
    (fun s => existsb (is_member s) (persons_of (n_book n) device at_)).
Definition member_devices (n : Inner) (g : PublicKey) (at_ : Timestamp) : list EndpointId :=
  let members := match state (n_groups n) g with
                 | Some s => map fst (map_entries pk_leb (gs_members s))
                 | None => []
                 end in
  List.filter (fun d => negb (bool_decide (d = my_id n)))
    (flat_map (fun p => devices_of (n_book n) p at_) members).

(** [GateHook::after_handshake], for a connection on [g]'s gossip ALPN. *)
Definition track (env : Env) (g : PublicKey) (c : Conn) (n : Inner) : Inner :=
  match n_gossip n !! g with
  | Some live => with_gossip (<[g := List.filter (alive env) live ++ [c]]> (n_gossip n)) n
  | None => n
  end.
Definition after_handshake (env : Env) (g : PublicKey) (c : Conn) : M bool :=
  fun n => if device_is_member n (c_device c) g (now env)
           then (track env g c n, Ok true) else (n, Ok false).

Fixpoint emit_all (l : list Effect) : M unit :=
  match l with [] => ret tt | e :: t => let* _ := emit e in emit_all t end.
(** [Gossips::start], [stop] and [revoke]. *)
Definition gossip_start (env : Env) (g : PublicKey) : M unit :=
  let* n := get in
  if opt_bool (n_gossip n !! g) then ret tt
  else if subscribes env g then modify (with_gossip (<[g := []]> (n_gossip n)))
  else ret tt.
Definition gossip_stop (env : Env) (g : PublicKey) : M unit :=
  let* n := get in
  match n_gossip n !! g with
  | None => ret tt
  | Some live =>
      let* _ := modify (with_gossip (delete g (n_gossip n))) in
      emit_all (map Closed (List.filter (alive env) live))
  end.
Definition gossip_revoke (env : Env) (g : PublicKey) (allowed : EndpointId -> bool) : M unit :=
  let* n := get in
  match n_gossip n !! g with
  | None => ret tt
  | Some live =>
      let up := List.filter (alive env) live in
      let* _ := modify (with_gossip
                  (<[g := List.filter (fun c => allowed (c_device c)) up]> (n_gossip n))) in
      emit_all (map Closed (List.filter (fun c => negb (allowed (c_device c))) up))
  end.
Definition group_changed (env : Env) (g : PublicKey) : M unit :=
  let* n := get in
  let member := is_some_and (state (n_groups n) g) (fun s => is_member s (me n)) in
  let has := opt_bool (n_gossip n !! g) in
  let* _ := (if member && negb has then gossip_start env g
             else if negb member && has then gossip_stop env g else ret tt) in
  let* n := get in
  gossip_revoke env g (fun d => device_is_member n d g (now env)).

(** ** What an arriving event may not be *)
Definition tell_removed (ids : list EventId) : M unit :=
  match ids with [] => ret tt | _ => emit (ToldRemoved ids) end.
Definition same_place (r e : Event) : bool :=
  bool_decide (group_of r = group_of e) && bool_decide (channel_of r = channel_of e).
Definition removed_by_moderator (e : Event) : M bool :=
  let* n := get in
  let* removals := lift (naming (n_store n) (ev_id e) DELETE_EVENT) in
  ret (existsb (fun r => same_place r e) removals).
Definition near_filter (e : Event) (g : PublicKey) (span : Z) : Filter :=
  mkFilter None (Some {[ev_pubkey e]}) (Some [CHAT_MESSAGE]) None
    (Some (sat_sub (ev_created_at e) span)) (Some (ts_add (ev_created_at e) span)) None
    [("h", {[pk_to_hex g]})].
Definition too_soon (e : Event) : M (option Z) :=
  let* n := get in
  match group_of e, channel_of e with
  | Some g, Some channel =>
      let wait := match state (n_groups n) g with Some s => slowmode s channel | None => 0 end in
      if wait =? 0 then ret None
      else
        let* near := lift (query (n_store n) (near_filter e g (wait - 1))) in
        ret (if existsb (fun x => negb (bool_decide (ev_id x = ev_id e))
                                  && bool_decide (channel_of x = Some channel)) near
             then Some wait else None)
  | _, _ => ret None
  end.

(** The node's judgement: [hit-group]'s, but for one's own copy of a message
    sent to somebody else. *)
Definition judge_here (n : Inner) (src : Source) (e : Event) (at_ : Timestamp)
    : result Refusal Judgement :=
  let j := judge (n_groups n) e at_ in
  if bool_decide (src = Local) && (ev_kind e =? GIFT_WRAP) && bool_decide (j = Err NotOurs)
  then Ok Groups.Store else j.
(** Folded with all the store holds, is [e] applied? *)
Definition fold_applies (s : EventStore.Store) (g : PublicKey) (e : Event) : result StoreError bool :=
  let? evs := group_events s g in
  Ok (is_some_and (fold g (evs ++ [e])) (fun st => bool_decide (ev_id e ∈ gs_applied st))).
Definition judged (src : Source) (e : Event) (at_ : Timestamp) : M (option string) :=
  let* n := get in
  match judge_here n src e at_ with
  | Err r => ret (Some ("blocked: " +:+ refusal_text r))
  | Ok Groups.Store => ret None
  | Ok (FoldWith g) =>
      let* applied := lift (fold_applies (n_store n) g e) in
      ret (if applied then None else Some ("blocked: " +:+ refusal_text NotApplied))
  end.
Definition booked (e : Event) (at_ : Timestamp) : M (option string) :=
  if ev_kind e =? DEVICE_BINDING then
    let* n := get in
    match insert_binding (n_book n) e at_ with
    | Ok (book, _) => let* _ := modify (with_book book) in ret None
    | Err err => ret (Some ("invalid: " +:+ binding_text err))
    end
  else ret None.
Definition not_withdrawn (e : Event) : M (option string) :=
  if kind_in (ev_kind e) DELETABLE_KINDS then
    let* n := get in
    if is_deleted (n_store n) (ev_id e) (ev_pubkey e)
    then ret (Some "blocked: withdrawn by its author")
    else
      let* removed := removed_by_moderator e in
      ret (if removed then Some "blocked: removed by a moderator" else None)
  else ret None.
Definition not_too_soon (e : Event) : M (option string) :=
  if ev_kind e =? CHAT_MESSAGE then
    let* wait := too_soon e in
    ret (match wait with
         | Some w => Some ("blocked: " +:+ refusal_text (TooSoon w))
         | None => None
         end)
  else ret None.

(** Everything [accept_event] asks before it stores: [Some why], refused. *)
Definition vet (env : Env) (src : Source) (e : Event) : M (option string) :=
  unless judged src e (now env) in
  unless booked e (now env) in
  unless not_withdrawn e in
  not_too_soon e.

(** ** What a stored event changes *)
Definition apply_withdrawal (e : Event) : M unit :=
  let* gone := on_store (fun s => apply_deletion s e DELETABLE_KINDS) in
  tell_removed gone.
Definition removable (removal e : Event) : bool :=
  kind_in (ev_kind e) DELETABLE_KINDS && same_place e removal.
Definition apply_removal (removal : Event) : M unit :=
  let* n := get in
  let* held := lift (by_ids (n_store n) (targets_of removal)) in
  let gone := map ev_id (List.filter (removable removal) held) in
  let* _ := on_store (fun s => (remove s gone, tt)) in
  tell_removed gone.

(** A binding that reached this node outside any group. *)
Definition learn_binding (env : Env) (binding : Event) (person : PublicKey) : M unit :=
  if negb (ev_kind binding =? DEVICE_BINDING) || negb (bool_decide (ev_pubkey binding = person))
  then fail (Protocol "not a binding of that person")
  else if negb (ev_verify binding) then fail (Protocol "binding: bad id or signature")
  else
    let* n := get in
    match insert_binding (n_book n) binding (now env) with
    | Err e => fail (Protocol ("binding: " +:+ binding_text e))
    | Ok (book, _) =>
        let* _ := modify (with_book book) in
        let* s := lift (insert (n_store n) binding (now env)) in
        modify (with_store s.1)
    end.
(** [if let Err(e) = .. { log }]. *)
Definition attempt (m : M unit) : M unit := fun n => (fst (m n), Ok tt).

Definition grant (hash : string) (person : PublicKey) : M unit :=
  on_store (fun s => (grant_blob s hash person, tt)).
Definition opened_dm (env : Env) (e : Event) : M unit :=
  let* n := get in
  match open_dm (n_person n) e with
  | None => ret tt
  | Some d =>
      let* _ := (match dm_file d with
                 | Some f => let* _ := grant (f_hash f) (dm_from d) in grant (f_hash f) (dm_to d)
                 | None => ret tt
                 end) in
      match dm_device d with
      | Some b =>
          if negb (bool_decide (dm_from d = me n)) then attempt (learn_binding env b (dm_from d))
          else ret tt
      | None => ret tt
      end
  end.
Definition kept_for (e : Event) : M unit :=
  let* n := get in
  match recipient_of e with
  | Some to =>
      if negb (bool_decide (to = me n)) then
        let* _ := on_store (fun s => cap_wraps s to INBOX_CAP_BYTES) in ret tt
      else ret tt
  | None => ret tt
  end.
Definition inbox_npubs (l : Event) : gset PublicKey := list_to_set (map fst (inboxes_of l)).

Definition heard_voice (env : Env) (e : Event) : M unit :=
  match group_of e, channel_of e with
  | Some g, Some c =>
      modify (fun n =>
        let room := opt_get ∅ (n_voice n !! (g, c)) in
        with_voice (<[(g, c) := if voice_inside e then <[ev_pubkey e := instant env]> room
                                else delete (ev_pubkey e) room]> (n_voice n)) n)
  | _, _ => ret tt
  end.
Definition heard_presence (env : Env) (e : Event) : M unit :=
  modify (fun n => with_present (<[ev_pubkey e := instant env]> (n_present n)) n).

(** The ids every silence of the group covers. *)
Fixpoint silenced_ids (s : EventStore.Store) (g : PublicKey) (l : list Silence)
    : result StoreError (list EventId) :=
  match l with
  | [] => Ok []
  | x :: t =>
      let? ids := authored_in s g (s_who x) DELETABLE_KINDS (s_from x) (s_until x) in
      let? more := silenced_ids s g t in Ok (ids ++ more)
  end.
Definition purge_silenced (g : PublicKey) : M unit :=
  let* n := get in
  let silences := match state (n_groups n) g with Some s => gs_silences s | None => [] end in
  let* gone := lift (silenced_ids (n_store n) g silences) in
  match gone with
  | [] => ret tt
  | _ => let* _ := on_store (fun s => (remove s gone, tt)) in tell_removed gone
  end.
Definition refold (env : Env) (g : PublicKey) : M unit :=
  let* n := get in
  let* evs := lift (group_events (n_store n) g) in
  let* _ := modify (with_groups (set_state (n_groups n) g (fold g evs))) in
  let* _ := group_changed env g in
  purge_silenced g.

#[local] Existing Instance Stored.eq_dec.
(** Everything between the insert and the answer. *)
Definition consequences (env : Env) (e : Event) (stored : Stored.Stored) : M unit :=
  let new := bool_decide (stored = Stored.New) in
  let passing := bool_decide (stored = Stored.Ephemeral) in
  when new && (ev_kind e =? DELETION) then apply_withdrawal e in
  when new && (ev_kind e =? DELETE_EVENT) then apply_removal e in
  when new && (ev_kind e =? GIFT_WRAP) then opened_dm env e in
  when new && (ev_kind e =? GIFT_WRAP) then kept_for e in
  when new && (ev_kind e =? INBOX_LIST) then
    modify (fun n => with_groups (set_inboxes (n_groups n) (ev_pubkey e) (inbox_npubs e)) n) in
  when passing && (ev_kind e =? VOICE_PRESENCE) then heard_voice env e in
  when passing && (ev_kind e =? PRESENCE) then heard_presence env e in
  match group_of e with
  | Some g => if new && changes_state (ev_kind e) then refold env g else ret tt
  | None => ret tt
  end.
Definition pass_on (src : Source) (e : Event) : M unit :=
  let* n := get in
  let* _ := emit (Told e) in
  match gossip_group (n_groups n) e with
  | Some g =>
      if bool_decide (src = Local) || bool_decide (src = Push)
      then (if opt_bool (n_gossip n !! g) then emit (Broadcast g e) else ret tt)
      else ret tt
  | None => ret tt
  end.
Definition answer (src : Source) (e : Event) (stored : Stored.Stored) : M Verdict :=
  match stored with
  | Stored.New | Stored.Ephemeral => let* _ := pass_on src e in ret (true, "")
  | Stored.Duplicate => ret (true, "duplicate: already have it")
  | Stored.Stale => ret (true, "duplicate: a newer version replaces it")
  end.
Definition keep (env : Env) (src : Source) (e : Event) : M Verdict :=
  let* n := get in
  let* r := lift (insert (n_store n) e (now env)) in
  let* _ := modify (with_store r.1) in
  let* _ := consequences env e r.2 in
  answer src e r.2.

Definition accept_event (env : Env) (src : Source) (e : Event) : M Verdict :=
  match Verified_check e with
  | Err _ => ret (false, "invalid: bad id or signature")
  | Ok e =>
      let* refused := vet env src e in
      match refused with
      | Some why => ret (false, why)
      | None => keep env src e
      end
  end.
Definition publish (env : Env) (e : Event) : M unit :=
  let* v := accept_event env Local e in
  if v.1 then ret tt else fail (Protocol v.2).
End Handlers.
