(* ===== verification/StoreEffect.v ===== *)
(** What each statement of the store leaves held, in terms of the events
    themselves: the lemmas a node's proofs rest on. *)
From S2P Require Import Prelude Text Nostr GroupEvent Replace Binding Dm EventStore StoreSpec.

#[local] Open Scope Z_scope.

Section StoreEffect.
Context {N : NostrTypes} {O : NostrOps} {L : NostrLaws} {J : JsonLaws}.

(** ** Insert *)
Definition rival (x e : Event) : Prop := is_Some (slot_d x) /\ slot_key e = slot_key x.
Definition inserted (s : Store) (x : Event) (s' : Store) : Prop :=
  forall e, holds s' e <-> e = x \/ (holds s e /\ ~ rival x e).

Lemma insert_spec s x now : store_wf s -> exists s' r, insert s x now = Ok (s', r) /\ store_wf s' /\
  ((r <> Stored.New /\ s' = s) \/ (r = Stored.New /\ slot x <> Ephemeral /\ inserted s x s')).
Proof.
  intros Hw. enough (exists s' r, insert s x now = Ok (s', r) /\
    ((r <> Stored.New /\ s' = s) \/ (r = Stored.New /\ slot x <> Ephemeral /\ inserted s x s')))
    as (s' & r & Hi & Hc).
  { exists s', r. split; [done|]. split; [by eapply insert_wf|done]. }
  destruct (decide (slot x = Ephemeral)) as [He|He].
  { exists s, Stored.Ephemeral. unfold insert. rewrite He. split; [done|]. by left. }
  assert (Hi : insert s x now =
    let? room := make_room s x (row_of x now) in
    match room with
    | inr answer => Ok (s, answer)
    | inl s1 => if conflicts s1 (row_of x now) then Ok (s, Stored.Duplicate)
                else Ok (mkStore (t_events s1 ++ [row_of x now]) (t_tags s1 ++ tags_of x)
                  (t_attachments s1 ++ files_of x) (t_groups s1) (t_blob_use s1)
                  (t_blob_grants s1), Stored.New)
    end) by (unfold insert; by destruct (slot x)).
  rewrite Hi. unfold make_room. pose proof (find_slot s x now Hw) as Hf.
  destruct (List.find _ _) as [row|].
  - destruct Hf as (c & t & -> & Hc & Hsx & Hk). unfold parse. cbn [w_json row_of].
    rewrite json_round_trip. cbn [ok_or]. case_bool_decide as Ec; [eexists _, _; split; [done|]; by left|].
    destruct (replaces x c); cbn [negb]; [|eexists _, _; split; [done|]; by left].
    destruct (conflicts _ _); eexists _, _; (split; [done|]); [by left|]. right. split; [done|].
    split; [done|]. intros e. rewrite (add_row_holds (delete_id (ev_id c) s) x now _ _ e).
    rewrite delete_id_holds by done. unfold rival. split.
    + intros [[Hh Hne]| ->]; [|by left]. right. split; [done|]. intros [_ Hek].
      apply Hne. apply (holder_unique s); [done..| |congruence].
      unfold slot_key in Hk. injection Hk as _ _ ->. done.
    + intros [->|[Hh Hn]]; [by right|]. left. split; [done|]. intros ->. by apply Hn.
  - destruct (conflicts s _); eexists _, _; (split; [done|]); [by left|]. right. split; [done|].
    split; [done|]. intros e. rewrite (add_row_holds s x now _ _ e). unfold rival. split.
    + intros [Hh| ->]; [|by left]. right. split; [done|]. intros [Hs Hk]. by apply (Hf Hs e).
    + intros [->|[Hh _]]; [by right|by left].
Qed.

(** What is held is not stored again. *)
Lemma insert_held s x now : store_wf s -> holds s x -> insert s x now = Ok (s, Stored.Duplicate).
Proof.
  intros Hw Hx. destruct (holds_row _ _ Hw Hx) as [t Ht]. assert (Hs : slot x <> Ephemeral).
  { destruct (sw_rows _ Hw _ Ht) as (e & t' & Hr & He). by rewrite (row_event _ _ _ _ Hr). }
  assert (Hi : insert s x now =
    let? room := make_room s x (row_of x now) in
    match room with
    | inr answer => Ok (s, answer)
    | inl s1 => if conflicts s1 (row_of x now) then Ok (s, Stored.Duplicate)
                else Ok (mkStore (t_events s1 ++ [row_of x now]) (t_tags s1 ++ tags_of x)
                  (t_attachments s1 ++ files_of x) (t_groups s1) (t_blob_use s1)
                  (t_blob_grants s1), Stored.New)
    end) by (unfold insert; by destruct (slot x)).
  rewrite Hi. unfold make_room. pose proof (find_slot s x now Hw) as Hf. destruct (List.find _ _) as [r|].
  - destruct Hf as (c & t' & -> & Hc & Hsx & Hk). unfold parse. cbn [w_json row_of].
    rewrite json_round_trip. cbn [ok_or]. rewrite (holder_unique s c x Hw Hc Hx Hsx Hk). by rewrite bool_decide_true.
  - rewrite (proj2 (conflicts_spec s x now Hw)); [done|]. exists x. split; [done|by left].
Qed.
Lemma insert_passing s x now s' : insert s x now = Ok (s', Stored.Ephemeral) -> slot x = Ephemeral.
Proof.
  intros H. destruct (slot x) eqn:Es; try done; exfalso; revert H; unfold insert; rewrite Es; cbv zeta;
    (destruct (make_room s x (row_of x now)) as [[s1|r]|err] eqn:Em; cbn;
      [by destruct (conflicts _ _)| |done]; intros [= -> ->]; revert Em; unfold make_room;
     (destruct (List.find _ _) as [row|]; [|done]); (destruct (parse (w_json row)); [|done]); cbn;
     (case_bool_decide; [done|]); by destruct (negb _)).
Qed.

(** ** Deletes *)
Lemma holds_row_iff s e : store_wf s -> holds s e <-> exists now, row_of e now ∈ t_events s.
Proof. intros Hw. split; [by apply holds_row|]. intros [now Hr]. by eapply row_holds. Qed.
Lemma remove_spec s ids : store_wf s ->
  store_wf (remove s ids) /\ forall e, holds (remove s ids) e <-> holds s e /\ ev_id e ∉ ids.
Proof.
  intros Hw. assert (Hw' : store_wf (remove s ids)) by by apply delete_ids_wf.
  split; [done|]. intros e. rewrite !holds_row_iff by done. unfold remove.
  setoid_rewrite delete_ids_events. cbn [row_of w_id]. naive_solver.
Qed.
Lemma find_id s e t : store_wf s -> holds s e -> ev_id e = t ->
  exists now, List.find (fun r => bool_decide (w_id r = t)) (t_events s) = Some (row_of e now).
Proof.
  intros Hw He Ht. destruct (holds_row _ _ Hw He) as [now Hr].
  destruct (List.find _ _) as [r|] eqn:Ef.
  - apply find_elem in Ef as [Hr' Hi]. apply bool_decide_eq_true in Hi.
    exists now. f_equal. apply (row_unique s); [done..|]. cbn. congruence.
  - apply (find_none_elem _ _ _ Ef) in Hr. apply bool_decide_eq_false in Hr. done.
Qed.
Lemma find_id_held s t r : store_wf s ->
  List.find (fun r => bool_decide (w_id r = t)) (t_events s) = Some r ->
  exists e now, r = row_of e now /\ holds s e /\ ev_id e = t.
Proof.
  intros Hw [Hr Hi]%find_elem. apply bool_decide_eq_true in Hi.
  destruct (sw_rows _ Hw r Hr) as (e & now & -> & _). exists e, now.
  split; [done|]. split; [by eapply row_holds|done].
Qed.
Lemma withdraw_spec kinds author s gone t : store_wf s ->
  store_wf (fst (withdraw kinds author (s, gone) t)) /\
  forall e, holds (fst (withdraw kinds author (s, gone) t)) e <->
    holds s e /\ ~ (ev_id e = t /\ ev_pubkey e = author /\ kind_in (ev_kind e) kinds = true).
Proof.
  intros Hw. split; [by apply withdraw_wf|]. intros e. cbn [withdraw].
  destruct (List.find _ _) as [r|] eqn:Ef.
  - destruct (find_id_held _ _ _ Hw Ef) as (c & now & -> & Hc & <-). cbn [row_of w_pubkey w_kind].
    case_bool_decide as Ha; cbn [andb].
    + destruct (kind_in (ev_kind c) kinds) eqn:Ek; cbn [fst].
      * rewrite delete_id_holds by done. split; intros [He Hn]; (split; [done|]).
        -- intros (Hi & _). by apply Hn, (holds_same_id s).
        -- intros ->. by apply Hn.
      * split; [|by intros [? _]]. intros He. split; [done|]. intros (Hi & _ & Hk).
        apply (holds_same_id s) in Hi as ->; [congruence|done..].
    + cbn [fst]. split; [|by intros [? _]]. intros He. split; [done|]. intros (Hi & Hp & _).
      apply (holds_same_id s) in Hi as ->; [done|done..].
  - cbn [fst]. split; [|by intros [? _]]. intros He. split; [done|]. intros (Hi & _).
    destruct (find_id s e t Hw He Hi) as [now Hf]. congruence.
Qed.
Lemma apply_deletion_spec s d kinds : store_wf s ->
  store_wf (fst (apply_deletion s d kinds)) /\
  forall e, holds (fst (apply_deletion s d kinds)) e <->
    holds s e /\ ~ (ev_id e ∈ targets_of d /\ ev_pubkey e = ev_pubkey d /\ kind_in (ev_kind e) kinds = true).
Proof.
  intros Hw. unfold apply_deletion. generalize (@nil EventId). generalize (targets_of d).
  intros ts. revert s Hw. induction ts as [|t ts IH]; intros s Hw gone; cbn [foldl].
  - split; [done|]. intros e. split; [|by intros [? _]]. intros He. split; [done|].
    intros (Hi & _). by apply not_elem_of_nil in Hi.
  - destruct (withdraw_spec kinds (ev_pubkey d) s gone t Hw) as [Hw1 H1].
    destruct (withdraw _ _ (s, gone) t) as [s1 g1] eqn:E. cbn [fst] in *.
    destruct (IH s1 Hw1 g1) as [Hw2 H2]. split; [done|]. intros e. rewrite H2, H1, elem_of_cons.
    naive_solver.
Qed.
Lemma cap_wraps_spec s to cap : store_wf s ->
  store_wf (fst (cap_wraps s to cap)) /\
  (forall e, holds (fst (cap_wraps s to cap)) e -> holds s e) /\
  (forall e, holds s e -> ev_kind e <> GIFT_WRAP -> holds (fst (cap_wraps s to cap)) e).
Proof.
  intros Hw. assert (Hw' : store_wf (fst (cap_wraps s to cap))) by by apply delete_ids_wf.
  split; [done|]. unfold cap_wraps in *. cbn [fst] in *.
  split; intros e; rewrite !holds_row_iff by done; setoid_rewrite delete_ids_events.
  - intros (now & Hr & _). eauto.
  - intros (now & Hr) Hk. exists now. split; [done|]. cbn [row_of w_id]. intros Hin.
    enough (exists r, r ∈ wraps_to s to /\ w_id r = ev_id e) as (r & Hrw & Hi).
    { apply wraps_to_elem in Hrw as [Hre Ha]. assert (r = row_of e now) as -> by by apply (row_unique s).
      unfold addressed in Ha. cbn in Ha. bools. done. }
    revert Hin. generalize 0. generalize (wraps_to s to). clear. intros rows.
    induction rows as [|r rows IH]; intros held; cbn [over_cap]; cbv zeta.
    + intros H. by apply not_elem_of_nil in H.
    + destruct (_ <? _).
      * intros [Hx|H]%elem_of_cons; [exists r; split; [left|done]|].
        apply IH in H as (x & ? & ?). exists x. split; [by right|done].
      * intros H. apply IH in H as (x & ? & ?). exists x. split; [by right|done].
Qed.
Lemma expire_wraps_spec s p before : store_wf s ->
  store_wf (fst (expire_wraps s p before)) /\
  (forall e, holds (fst (expire_wraps s p before)) e -> holds s e) /\
  (forall e, holds s e -> ev_kind e <> GIFT_WRAP -> holds (fst (expire_wraps s p before)) e).
Proof.
  intros Hw. assert (Hw' : store_wf (fst (expire_wraps s p before))) by by apply delete_rows_wf.
  split; [done|]. split; intros e; rewrite !holds_row_iff by done; unfold expire_wraps; cbn [fst];
    setoid_rewrite delete_rows_elem.
  - intros (now & Hr & _). eauto.
  - intros (now & Hr) Hk. exists now. split; [done|]. cbn [row_of w_kind].
    by rewrite (proj2 (Z.eqb_neq _ _) Hk).
Qed.

(** ** Queries without a limit *)
Definition matched (s : Store) (f : Filter) (e : Event) : Prop :=
  exists now, row_of e now ∈ t_events s /\ filter_matches s f (row_of e now) = true.
Lemma forall2_nodup {A B} (R : A -> B -> Prop) l m :
  (forall a1 a2 b, a1 ∈ l -> a2 ∈ l -> R a1 b -> R a2 b -> a1 = a2) ->
  Forall2 R l m -> NoDup l -> NoDup m.
Proof.
  intros Hinj Hf. induction Hf as [|a b l m Hab Hf IH]; intros Hn; [constructor|].
  apply NoDup_cons in Hn as [Hx Hn]. apply NoDup_cons. split.
  - intros Hin. apply Hx. apply list_elem_of_lookup in Hin as [i Hi].
    destruct (Forall2_lookup_r _ _ _ _ _ Hf Hi) as (a' & Ha' & Hr).
    assert (Hin : a' ∈ l) by by eapply list_elem_of_lookup_2.
    rewrite (Hinj a a' b); [done|left|by right|done|done].
  - apply IH; [|done]. intros a1 a2 c H1 H2. apply Hinj; by right.
Qed.
Lemma query_all s f : store_wf s -> f_search f = None -> f_limit f = None ->
  exists es, query s f = Ok es /\ NoDup es /\ forall e, e ∈ es <-> matched s f e.
Proof.
  intros Hw Hs Hl. set (rows := isort newest_first (List.filter (filter_matches s f) (t_events s))).
  assert (Hin : forall r, r ∈ rows <-> r ∈ t_events s /\ filter_matches s f r = true).
  { intros r. unfold rows. by rewrite isort_elem, filter_elem. }
  assert (Hrows : forall r, r ∈ rows -> exists e now, r = row_of e now).
  { intros r Hr. apply Hin in Hr as [Hr _].
    destruct (sw_rows _ Hw r Hr) as (e & now & -> & _). eauto. }
  destruct (parse_all_rows rows Hrows) as (es & Hes & Hrel). exists es. split_and!.
  - unfold query. rewrite Hs, Hl. done.
  - apply forall2_nodup in Hrel; [done| |].
    + intros r1 r2 e H1 H2 [t1 ->] [t2 ->]. apply Hin in H1 as [H1 _]. apply Hin in H2 as [H2 _].
      by apply (row_unique s).
    + unfold rows. rewrite isort_perm. apply nodup_filter, rows_nodup, Hw.
  - intros e. unfold matched. split.
    + intros [i Hi]%list_elem_of_lookup. destruct (Forall2_lookup_r _ _ _ _ _ Hrel Hi) as (r & Hr & now & ->).
      exists now. by apply Hin, (list_elem_of_lookup_2 _ i).
    + intros (now & Hr). apply Hin in Hr. apply list_elem_of_lookup in Hr as [i Hi].
      destruct (Forall2_lookup_l _ _ _ _ _ Hrel Hi) as (e' & He & t & Heq).
      apply row_event in Heq as ->. by eapply list_elem_of_lookup_2.
Qed.

(** The clauses of a filter that are not times, read off the event. *)
Definition untimed (f : Filter) (e : Event) : bool :=
  is_none_or (f_ids f) (fun ids => bool_decide (ev_id e ∈ ids))
  && is_none_or (f_authors f) (fun a => bool_decide (ev_pubkey e ∈ a))
  && is_none_or (f_kinds f) (kind_in (ev_kind e))
  && forallb (fun '(name, values) => names_value e name values) (f_tags f).
Lemma tag_clauses s f e now : store_wf s -> single_letters f -> row_of e now ∈ t_events s ->
  forallb (fun '(name, values) =>
       existsb (fun t => bool_decide (t.1 = (w_id (row_of e now), name)) && bool_decide (t.2 ∈ values))
         (t_tags s)) (f_tags f)
  = forallb (fun '(name, values) => names_value e name values) (f_tags f).
Proof.
  intros Hw Ht Hr. unfold single_letters in Ht. induction (f_tags f) as [|[n vs] l IH]; [done|]. cbn [forallb].
  rewrite (clause_matches s e now n vs) by (try done; apply (Ht (n, vs)); left).
  f_equal. apply IH. intros nv Hnv. apply Ht. by right.
Qed.
Lemma filter_matches_split s f e now : store_wf s -> single_letters f -> row_of e now ∈ t_events s ->
  filter_matches s f (row_of e now) = untimed f e
    && is_none_or (f_since f) (fun t => as_i64 t <=? as_i64 (ev_created_at e))
    && is_none_or (f_until f) (fun t => as_i64 (ev_created_at e) <=? as_i64 t).
Proof.
  intros Hw Ht Hr. unfold filter_matches. rewrite (tag_clauses s f e now) by done.
  unfold untimed. cbn [row_of w_id w_pubkey w_kind w_created_at].
  destruct (is_none_or (f_ids f) _), (is_none_or (f_authors f) _), (is_none_or (f_kinds f) _),
    (is_none_or (f_since f) _), (is_none_or (f_until f) _), (forallb _ _); done.
Qed.
(** Any query is answered, with events held, and no more than its limit. *)
Lemma query_some s f : store_wf s -> exists es, query s f = Ok es /\ (forall e, e ∈ es -> holds s e) /\
  (forall l, f_limit f = Some l -> (length es <= Z.to_nat (to_i64 l))%nat).
Proof.
  intros Hw. unfold query. destruct (f_search f) as [w|].
  { exists []. split; [done|]. split; [intros e He; by apply not_elem_of_nil in He|]. cbn. lia. }
  set (rows := isort newest_first (List.filter (filter_matches s f) (t_events s))).
  assert (Hrows : forall r, r ∈ rows -> r ∈ t_events s).
  { intros r. unfold rows. rewrite isort_elem, filter_elem. by intros [? _]. }
  destruct (parse_all_rows rows) as (all & Hall & Hrel).
  { intros r Hr. destruct (sw_rows _ Hw r (Hrows r Hr)) as (e & now & -> & _). eauto. }
  assert (Hin : forall e, e ∈ all -> holds s e).
  { intros e He. apply list_elem_of_lookup in He as [i Hi].
    destruct (Forall2_lookup_r _ _ _ _ _ Hrel Hi) as (r & Hr & now & ->).
    apply list_elem_of_lookup_2 in Hr. by eapply row_holds, Hrows. }
  unfold limited. destruct (f_limit f) as [l|].
  - exists (take (Z.to_nat (to_i64 l)) all). split; [by apply parse_all_take|]. split.
    + intros e He. apply Hin. by eapply elem_of_sublist, sublist_take.
    + intros l' [= <-]. rewrite length_take. lia.
  - exists all. split; [done|]. split; [done|]. done.
Qed.
Lemma query_untimed s f : store_wf s -> single_letters f -> f_search f = None -> f_limit f = None ->
  f_since f = None -> f_until f = None ->
  exists es, query s f = Ok es /\ NoDup es /\ forall e, e ∈ es <-> holds s e /\ untimed f e = true.
Proof.
  intros Hw Ht Hs Hl Hsi Hu. destruct (query_all s f Hw Hs Hl) as (es & Hq & Hn & He).
  exists es. split; [done|]. split; [done|]. intros e. rewrite He, holds_row_iff by done. unfold matched.
  split.
  - intros (now & Hr & Hm). rewrite filter_matches_split, Hsi, Hu in Hm by done. cbn in Hm.
    rewrite !andb_true_r in Hm. eauto.
  - intros [[now Hr] Hm]. exists now. split; [done|]. rewrite filter_matches_split, Hsi, Hu by done. cbn.
    by rewrite !andb_true_r.
Qed.
Lemma by_ids_spec s ids : store_wf s -> exists es, by_ids s ids = Ok es /\
  forall e, e ∈ es <-> holds s e /\ ev_id e ∈ ids.
Proof.
  intros Hw. unfold by_ids. destruct ids as [|i ids'].
  - exists []. split; [done|]. intros e. split; [intros H; by apply not_elem_of_nil in H|].
    intros [_ H]. by apply not_elem_of_nil in H.
  - destruct (query_untimed s (mkFilter (Some (list_to_set (i :: ids'))) None None None None None None [])
      Hw) as (es & Hq & _ & He); try done.
    { intros nv Hnv. by apply not_elem_of_nil in Hnv. }
    exists es. split; [done|]. intros e. rewrite He. unfold untimed. cbn [f_ids f_authors f_kinds f_tags
      is_none_or forallb]. rewrite !andb_true_r, bool_decide_eq_true, elem_of_list_to_set. done.
Qed.

(** ** Reading the tag index *)
Definition names_id (d : Event) (id : EventId) : Prop :=
  exists rest, ("e"%string :: id_to_hex id :: rest) ∈ ev_tags d.
Lemma has_tag_row s d now name value : store_wf s -> row_of d now ∈ t_events s -> str_len name = 1 ->
  has_tag s (w_id (row_of d now)) name value = true <-> exists rest, (name :: value :: rest) ∈ ev_tags d.
Proof.
  intros Hw Hr Hn. unfold has_tag. rewrite existsb_elem. cbn [row_of w_id]. split.
  - intros (t & Ht & Heq). apply bool_decide_eq_true in Heq as ->.
    apply tags_elem in Ht as (d' & Hd' & Ht); [|done].
    assert (d' = d) as -> by (apply (holds_same_id s); [done..|by eapply row_holds|];
      by apply tags_of_id in Ht).
    by apply tags_of_elem in Ht as [_ ?].
  - intros Hrest. exists (ev_id d, name, value). split; [|by apply bool_decide_eq_true].
    apply tags_elem; [done|]. exists d. split; [by eapply row_holds|]. by apply tags_of_elem.
Qed.
Lemma is_deleted_spec s id author : store_wf s ->
  is_deleted s id author = true <->
  exists d, holds s d /\ ev_kind d = DELETION /\ ev_pubkey d = author /\ names_id d id.
Proof.
  intros Hw. unfold is_deleted. rewrite existsb_elem. split.
  - intros (r & Hr & Hm). destruct (sw_rows _ Hw r Hr) as (d & now & -> & _). exists d.
    apply andb_true_iff in Hm as [Hm Ht]. apply (has_tag_row s d now) in Ht; [|done..].
    cbn in Hm. bools. split; [by eapply row_holds|done].
  - intros (d & Hd & Hk & Hp & Hn). destruct (holds_row _ _ Hw Hd) as [now Hr].
    exists (row_of d now). split; [done|]. apply andb_true_iff. split; [|by apply has_tag_row].
    cbn. by rewrite Hk, Hp, Z.eqb_refl, bool_decide_true.
Qed.
Lemma naming_spec s id kind : store_wf s -> exists es, naming s id kind = Ok es /\
  forall e, e ∈ es <-> holds s e /\ ev_kind e = kind /\ names_id e id.
Proof.
  intros Hw. unfold naming.
  set (rows := flat_map (joined s "e" (id_to_hex id)) (List.filter (fun r => w_kind r =? kind) (t_events s))).
  assert (Hin : forall r, r ∈ rows <->
    r ∈ t_events s /\ w_kind r = kind /\ has_tag s (w_id r) "e" (id_to_hex id) = true).
  { intros r. unfold rows. rewrite flat_map_elem. setoid_rewrite filter_elem.
    setoid_rewrite joined_elem. setoid_rewrite Z.eqb_eq. naive_solver. }
  destruct (parse_all_rows rows) as (es & Hes & Hrel).
  { intros r Hr. apply Hin in Hr as [Hr _]. destruct (sw_rows _ Hw r Hr) as (e & now & -> & _). eauto. }
  exists es. split; [done|]. intros e. split.
  - intros [i Hi]%list_elem_of_lookup. destruct (Forall2_lookup_r _ _ _ _ _ Hrel Hi) as (r & Hr & now & ->).
    apply list_elem_of_lookup_2, Hin in Hr as (Hr & Hk & Ht). apply has_tag_row in Ht; [|done..].
    split; [by eapply row_holds|done].
  - intros (He & Hk & Hn). destruct (holds_row _ _ Hw He) as [now Hr].
    assert (Hrow : row_of e now ∈ rows) by (apply Hin; split; [done|]; split; [done|by apply has_tag_row]).
    apply list_elem_of_lookup in Hrow as [i Hi].
    destruct (Forall2_lookup_l _ _ _ _ _ Hrel Hi) as (e' & He' & t & Heq).
    apply row_event in Heq as ->. by eapply list_elem_of_lookup_2.
Qed.

(** ** [authored_in] *)
Definition authored_filter (g author : PublicKey) (kinds : list Kind) (from : Timestamp)
    (until : option Timestamp) : Filter :=
  mkFilter None (Some {[author]}) (Some kinds) None (Some from) until None
    [("h"%string, {[pk_to_hex g]})].
Definition tagged (e : Event) (g : PublicKey) : bool := names_value e "h" {[pk_to_hex g]}.
Lemma authored_in_spec s g author kinds from until : store_wf s ->
  exists ids, authored_in s g author kinds from until = Ok ids /\
    (forall e, holds s e -> ev_id e ∈ ids ->
       ev_pubkey e = author /\ kind_in (ev_kind e) kinds = true /\ tagged e g = true) /\
    (forall e, holds s e -> dated_ok s -> ev_pubkey e = author -> kind_in (ev_kind e) kinds = true ->
       tagged e g = true -> from <= ev_created_at e ->
       match until with Some u => ev_created_at e < u /\ u <= I64_MAX | None => True end ->
       ev_id e ∈ ids).
Proof.
  intros Hw. unfold authored_in.
  assert (Hq : forall u, exists es, query s (authored_filter g author kinds from u) = Ok es /\
    forall e, e ∈ es <-> matched s (authored_filter g author kinds from u) e).
  { intros u. destruct (query_all s (authored_filter g author kinds from u)) as (es & ? & _ & ?); [done..|].
    eauto. }
  assert (Hlet : forall u, single_letters (authored_filter g author kinds from u)).
  { intros u nv Hnv. by apply list_elem_of_singleton in Hnv as ->. }
  assert (Hback : forall u es e, (forall e, e ∈ es <-> matched s (authored_filter g author kinds from u) e) ->
    holds s e -> ev_id e ∈ map ev_id es ->
    ev_pubkey e = author /\ kind_in (ev_kind e) kinds = true /\ tagged e g = true).
  { intros u es e Hes He (x & Hx & Hin)%list_elem_of_fmap. apply Hes in Hin as (now & Hr & Hm).
    assert (x = e) as -> by (apply (holds_same_id s); [done|by eapply row_holds|done|done]).
    rewrite filter_matches_split in Hm by done. unfold untimed in Hm. cbn in Hm.
    rewrite andb_true_r in Hm. apply andb_true_iff in Hm as [Hm _]. apply andb_true_iff in Hm as [Hm _].
    apply andb_true_iff in Hm as [Hm Ht]. apply andb_true_iff in Hm as [Ha Hk].
    apply bool_decide_eq_true, elem_of_singleton in Ha. done. }
  assert (Hfwd : forall u es e, (forall e, e ∈ es <-> matched s (authored_filter g author kinds from u) e) ->
    holds s e -> dated_ok s -> ev_pubkey e = author -> kind_in (ev_kind e) kinds = true ->
    tagged e g = true -> from <= ev_created_at e ->
    match u with Some u => ev_created_at e <= u /\ u <= I64_MAX | None => True end ->
    ev_id e ∈ map ev_id es).
  { intros u es e Hes He Hd Hp Hk Ht Hf Hu. apply list_elem_of_fmap_2, Hes.
    destruct (holds_row _ _ Hw He) as [now Hr]. exists now. split; [done|].
    pose proof (Hd e He). rewrite filter_matches_split by done. unfold untimed. cbn.
    rewrite bool_decide_true by (by apply elem_of_singleton). rewrite Hk. unfold tagged in Ht.
    rewrite Ht. cbn. rewrite !(as_i64_small (ev_created_at e)), (as_i64_small from) by lia.
    rewrite (proj2 (Z.leb_le _ _) Hf). destruct u as [u|]; [|done]. cbn.
    rewrite as_i64_small by lia. apply Z.leb_le. lia. }
  destruct until as [u|].
  - destruct (Z.leb_spec u from) as [Hle|Hlt].
    + exists []. split; [done|]. split; [intros e _ H; by apply not_elem_of_nil in H|].
      intros e _ _ _ _ _ Hf [Hu _]. lia.
    + destruct (Hq (Some (u - 1))) as (es & Hes & Hin). unfold authored_filter in Hes. rewrite Hes.
      eexists. split; [done|]. split; [intros e; by apply (Hback _ _ e Hin)|].
      intros e He Hd Hp Hk Ht Hf [Hu Hm]. apply (Hfwd _ _ e Hin); try done. lia.
  - destruct (Hq None) as (es & Hes & Hin). unfold authored_filter in Hes. rewrite Hes.
    eexists. split; [done|]. split; [intros e; by apply (Hback _ _ e Hin)|].
    intros e He Hd Hp Hk Ht Hf _. by apply (Hfwd _ _ e Hin).
Qed.
End StoreEffect.
