(* ===== verification/NodeSpec.v ===== *)
(** What a node keeps true ([keeps]): its tables are consistent, what it holds
    was signed, the state it judges by is the fold of what it holds, and
    nothing it holds was silenced, withdrawn or removed.  [accept_event] keeps
    it, and never fails. *)
From S2P Require Import Prelude Text Nostr GroupEvent Replace Perm Zap GroupState Fold FoldOrder.
From S2P Require Import Answers Binding Dm Groups EventStore StoreSpec StoreEffect Proto Node.

#[local] Open Scope Z_scope.

(** ** Total correctness of a handler *)
Section Total.
Context {N : NostrTypes} {O : NostrOps} {T : DeviceTypes} {P : DeviceOps} {C : DmCrypto}.

(** [m] answers, without an error, and leaves what [Q] says. *)
Definition total {A} (m : M A) (n : Inner) (Q : Inner -> A -> Prop) : Prop :=
  exists n' a, m n = (n', Ok a) /\ Q n' a.

Lemma total_ret {A} (a : A) n (Q : Inner -> A -> Prop) : Q n a -> total (ret a) n Q.
Proof. intros H. by exists n, a. Qed.
Lemma total_bind {A B} (m : M A) (k : A -> M B) n Q :
  total m n (fun n' a => total (k a) n' Q) -> total (bind m k) n Q.
Proof. intros (n1 & a & Hm & n2 & b & Hk & HQ). exists n2, b. unfold bind. by rewrite Hm. Qed.
Lemma total_get n (Q : Inner -> Inner -> Prop) : Q n n -> total get n Q.
Proof. intros H. by exists n, n. Qed.
Lemma total_modify f n (Q : Inner -> unit -> Prop) : Q (f n) tt -> total (modify f) n Q.
Proof. intros H. by exists (f n), tt. Qed.
Lemma total_emit e n (Q : Inner -> unit -> Prop) :
  Q (with_log (n_log n ++ [e]) n) tt -> total (emit e) n Q.
Proof. apply total_modify. Qed.
Lemma total_lift {A} (r : result StoreError A) a n (Q : Inner -> A -> Prop) :
  r = Ok a -> Q n a -> total (lift r) n Q.
Proof. intros -> H. by apply total_ret. Qed.
Lemma total_on_store {A} (f : EventStore.Store -> EventStore.Store * A) n Q :
  Q (with_store (fst (f (n_store n))) n) (snd (f (n_store n))) -> total (on_store f) n Q.
Proof. intros H. eexists _, _. split; [|exact H]. unfold on_store. by destruct (f (n_store n)). Qed.
Lemma total_if {A} (b : bool) (m1 m2 : M A) n Q :
  (b = true -> total m1 n Q) -> (b = false -> total m2 n Q) -> total (if b then m1 else m2) n Q.
Proof. destruct b; auto. Qed.
Lemma total_weaken {A} (m : M A) n (Q R : Inner -> A -> Prop) :
  total m n Q -> (forall n' a, Q n' a -> R n' a) -> total m n R.
Proof. intros (n' & a & Hm & HQ) H. exists n', a. auto. Qed.
Lemma total_run {A} (m : M A) n Q n' r : total m n Q -> m n = (n', r) -> exists a, r = Ok a /\ Q n' a.
Proof. intros (n1 & a & Hm & HQ) H. rewrite Hm in H. injection H as <- <-. eauto. Qed.
End Total.

(** Steps through a handler whose pieces are plain. *)
Ltac total_step :=
  match goal with
  | |- total (bind _ _) _ _ => apply total_bind
  | |- total get _ _ => apply total_get
  | |- total (ret _) _ _ => apply total_ret
  | |- total (modify _) _ _ => apply total_modify
  | |- total (emit _) _ _ => apply total_emit
  | |- total (on_store _) _ _ => apply total_on_store
  end.

Section Keeps.
Context {N : NostrTypes} {O : NostrOps} {L : NostrLaws} {J : JsonLaws}.
Context {T : DeviceTypes} {P : DeviceOps} {C : DmCrypto}.

Definition deletable (e : Event) : bool := kind_in (ev_kind e) DELETABLE_KINDS.
Definition folded_from (s : EventStore.Store) (g : PublicKey) (st : GroupState) : Prop :=
  exists evs, group_events s g = Ok evs /\ fold g evs = Some st.
(** A silence the store's integers can express. *)
Definition storable (x : Silence) : Prop := forall u, s_until x = Some u -> u <= I64_MAX.

(** What holds of a store and the groups folded from it, but for the
    withdrawals and removals in [open], not applied yet, and the groups in
    [stale], not folded again yet. *)
Record keeps_but (open : Event -> Prop) (stale : PublicKey -> Prop)
    (s : EventStore.Store) (G : Groups) : Prop := {
  k_wf : store_wf s;
  k_dated : dated_ok s;
  k_signed e : holds s e -> ev_verify e = true;
  k_states g st : ~ stale g -> state G g = Some st -> folded_from s g st;
  k_silent g st e x : ~ stale g -> state G g = Some st -> holds s e -> deletable e = true ->
    group_of e = Some g -> tagged e g = true -> x ∈ gs_silences st -> storable x ->
    s_who x = ev_pubkey e -> covers x (ev_created_at e) = false;
  k_withdrawn d e : ~ open d -> holds s d -> holds s e -> ev_kind d = DELETION ->
    ev_pubkey d = ev_pubkey e -> deletable e = true -> ~ names_id d (ev_id e);
  k_removed r e : ~ open r -> holds s r -> holds s e -> ev_kind r = DELETE_EVENT ->
    same_place r e = true -> deletable e = true -> ~ names_id r (ev_id e);
}.
Definition nothing {A} (_ : A) : Prop := False.
Definition keeps : EventStore.Store -> Groups -> Prop := keeps_but nothing nothing.
Definition node_ok (n : Inner) : Prop := keeps (n_store n) (n_groups n).

(** The clauses, with nothing left out. *)
Section All.
Context {s : EventStore.Store} {G : Groups} (K : keeps s G).
Lemma all_states g st : state G g = Some st -> folded_from s g st.
Proof. apply (k_states _ _ _ _ K). intros []. Qed.
Lemma all_silent g st e x : state G g = Some st -> holds s e -> deletable e = true ->
  group_of e = Some g -> tagged e g = true -> x ∈ gs_silences st -> storable x ->
  s_who x = ev_pubkey e -> covers x (ev_created_at e) = false.
Proof. apply (k_silent _ _ _ _ K). intros []. Qed.
Lemma all_withdrawn d e : holds s d -> holds s e -> ev_kind d = DELETION ->
  ev_pubkey d = ev_pubkey e -> deletable e = true -> ~ names_id d (ev_id e).
Proof. apply (k_withdrawn _ _ _ _ K). intros []. Qed.
Lemma all_removed r e : holds s r -> holds s e -> ev_kind r = DELETE_EVENT ->
  same_place r e = true -> deletable e = true -> ~ names_id r (ev_id e).
Proof. apply (k_removed _ _ _ _ K). intros []. Qed.
End All.

(** ** The events of a group, as the store holds them *)
Lemma group_events_spec s g : store_wf s -> exists a b,
  query s (fold_filter g) = Ok a /\ query s (state_filter g) = Ok b /\
  group_events s g = Ok (a ++ b) /\ NoDup a /\ NoDup b /\
  (forall e, e ∈ a <-> holds s e /\ untimed (fold_filter g) e = true) /\
  (forall e, e ∈ b <-> holds s e /\ untimed (state_filter g) e = true).
Proof.
  intros Hw.
  destruct (query_untimed s (fold_filter g) Hw) as (a & Ha & Hna & Hina); try done.
  { intros nv Hnv. by apply list_elem_of_singleton in Hnv as ->. }
  destruct (query_untimed s (state_filter g) Hw) as (b & Hb & Hnb & Hinb); try done.
  { intros nv Hnv. by apply list_elem_of_singleton in Hnv as ->. }
  exists a, b. unfold group_events. rewrite Ha, Hb. done.
Qed.
Lemma group_events_held s g evs e : store_wf s -> group_events s g = Ok evs -> e ∈ evs -> holds s e.
Proof.
  intros Hw Hg He. destruct (group_events_spec s g Hw) as (a & b & _ & _ & Heq & _ & _ & Ha & Hb).
  rewrite Heq in Hg. injection Hg as <-. apply elem_of_app in He as [He|He]; [by apply Ha|by apply Hb].
Qed.
(** Stores that hold the same of what the fold reads fold the same. *)
Lemma group_fold_same s s' g evs evs' : store_wf s -> store_wf s' ->
  (forall e, fold_event g e = true -> holds s e <-> holds s' e) ->
  group_events s g = Ok evs -> group_events s' g = Ok evs' -> fold g evs = fold g evs'.
Proof.
  intros Hw Hw' Hsame Hg Hg'.
  destruct (group_events_spec s g Hw) as (a & b & _ & _ & Heq & Hna & Hnb & Ha & Hb).
  destruct (group_events_spec s' g Hw') as (a' & b' & _ & _ & Heq' & Hna' & Hnb' & Ha' & Hb').
  rewrite Heq in Hg. rewrite Heq' in Hg'. injection Hg as <-. injection Hg' as <-.
  rewrite (fold_relevant g (a ++ b)), (fold_relevant g (a' ++ b')), !List.filter_app.
  apply fold_perm.
  - assert (Hheld : forall x, x ∈ List.filter (fold_event g) a ++ List.filter (fold_event g) b -> holds s x).
    { intros x [[Hx _]%filter_elem|[Hx _]%filter_elem]%elem_of_app; [by apply Ha in Hx as [? _]|].
      by apply Hb in Hx as [? _]. }
    intros x y Hx Hy. apply (holds_same_id s); auto.
  - f_equiv; apply NoDup_Permutation; try (by apply nodup_filter); intros e;
      rewrite !filter_elem, ?Ha, ?Ha', ?Hb, ?Hb'; naive_solver.
Qed.
Lemma folded_same s s' g st : store_wf s -> store_wf s' ->
  (forall e, fold_event g e = true -> holds s e <-> holds s' e) ->
  folded_from s g st -> folded_from s' g st.
Proof.
  intros Hw Hw' Hsame (evs & Hg & Hf).
  destruct (group_events_spec s' g Hw') as (a' & b' & _ & _ & Hg' & _).
  exists (a' ++ b'). split; [done|]. by rewrite <- (group_fold_same s s' g evs).
Qed.

(** ** Stores that changed nothing that matters *)

(** [s'] lost only wraps, bindings and deletable events of [s], and gained
    only bindings. *)
Record quiet (s s' : EventStore.Store) : Prop := {
  q_wf : store_wf s';
  q_new e : holds s' e -> holds s e \/
    (ev_kind e = DEVICE_BINDING /\ ev_verify e = true /\ 0 <= ev_created_at e <= I64_MAX);
  q_lost e : holds s e -> holds s' e \/ ev_kind e = GIFT_WRAP \/ ev_kind e = DEVICE_BINDING \/
    deletable e = true;
}.
Lemma quiet_refl s : store_wf s -> quiet s s.
Proof. intros Hw. split; auto. Qed.
Lemma quiet_trans s1 s2 s3 : quiet s1 s2 -> quiet s2 s3 -> quiet s1 s3.
Proof.
  intros Q1 Q2. split; [apply Q2| |].
  - intros e He. apply (q_new _ _ Q2) in He as [He|He]; [|by right]. by apply (q_new _ _ Q1).
  - intros e He. apply (q_lost _ _ Q1) in He as [He|He]; [|by right]. by apply (q_lost _ _ Q2).
Qed.
Lemma deletable_kinds e : deletable e = true <-> ev_kind e = CHAT_MESSAGE \/ ev_kind e = REACTION.
Proof.
  unfold deletable, kind_in, DELETABLE_KINDS. cbn [existsb]. rewrite orb_false_r, orb_true_iff, !Z.eqb_eq.
  done.
Qed.
Lemma fold_event_kinds g e : fold_event g e = true ->
  ev_kind e <> DEVICE_BINDING /\ ev_kind e <> GIFT_WRAP /\ deletable e = false.
Proof.
  unfold fold_event. intros [_ Hk]%andb_prop.
  assert (Hd : deletable e = true -> False).
  { intros [H|H]%deletable_kinds; rewrite H in Hk; done. }
  split_and!; [intros H; rewrite H in Hk; done..|]. by destruct (deletable e).
Qed.
Lemma keeps_quiet open stale s s' G :
  keeps_but open stale s G -> quiet s s' -> keeps_but open stale s' G.
Proof.
  intros K Q. assert (Hback : forall e, holds s' e -> ev_kind e <> DEVICE_BINDING -> holds s e).
  { intros e He Hk. by apply (q_new _ _ Q) in He as [He|[He _]]. }
  assert (Hdel : forall e, deletable e = true -> ev_kind e <> DEVICE_BINDING).
  { intros e [H|H]%deletable_kinds; by rewrite H. }
  split.
  - apply Q.
  - intros e He. apply (q_new _ _ Q) in He as [He|(_ & _ & He)]; [by apply (k_dated _ _ _ _ K)|done].
  - intros e He. apply (q_new _ _ Q) in He as [He|(_ & He & _)]; [by apply (k_signed _ _ _ _ K)|done].
  - intros g st Hg Hst. apply (folded_same s); [apply K|apply Q| |by apply (k_states _ _ _ _ K)].
    intros e (H1 & H2 & H3)%fold_event_kinds. split; [|by auto]. intros He.
    apply (q_lost _ _ Q) in He as [He|[He|[He|He]]]; [done|done|done|congruence].
  - intros g st e x Hg Hst He Hd. apply (k_silent _ _ _ _ K g st e x Hg Hst); auto.
  - intros d e Ho Hd He Hk Hp Hdl. apply (k_withdrawn _ _ _ _ K d e); auto.
    apply Hback; [done|by rewrite Hk].
  - intros r e Ho Hr He Hk Hp Hdl. apply (k_removed _ _ _ _ K r e); auto.
    apply Hback; [done|by rewrite Hk].
Qed.
Lemma keeps_states open stale s G G' : (forall g, state G' g = state G g) ->
  keeps_but open stale s G -> keeps_but open stale s G'.
Proof.
  intros HG K. split; try apply K; intros g st; rewrite HG; [apply (k_states _ _ _ _ K)|apply (k_silent _ _ _ _ K)].
Qed.

(** ** Inserting *)

(** What has no group is a person's own, or a wrap. *)
Definition placed (x : Event) : Prop :=
  group_of x = None -> is_personal (ev_kind x) = true \/ ev_kind x = GIFT_WRAP.
Lemma state_kind_slot x : kind_in (ev_kind x) STATE_KINDS = true ->
  slot_d x = Some (opt_get ""%string (tags_identifier (ev_tags x))).
Proof.
  unfold slot_d, slot, kind_in, STATE_KINDS. cbn [existsb]. rewrite !orb_true_iff, !Z.eqb_eq.
  by intros [->|[->|[->|[->|]]]].
Qed.
Lemma regular_kinds x : (ev_kind x =? CREATE_GROUP) || kind_in (ev_kind x) ACTION_KINDS
  || kind_in (ev_kind x) CHANNEL_KINDS = true -> slot_d x = None.
Proof.
  unfold slot_d, slot, kind_in, ACTION_KINDS, CHANNEL_KINDS. cbn [existsb].
  rewrite !orb_true_iff, !Z.eqb_eq. intros H.
  repeat match type of H with _ \/ _ => destruct H as [H|H] end; try done; by rewrite H.
Qed.
Lemma rival_fold x e g : placed x -> rival x e -> fold_event g e = true -> fold_event g x = true.
Proof.
  intros Hx [Hs Hk] He. unfold slot_key in Hk. injection Hk as Hk Hp Hd. unfold fold_event in *.
  apply andb_prop in He as [Hg He]. apply bool_decide_eq_true in Hg. rewrite Hk in He. rewrite He, andb_true_r.
  assert (Hst : kind_in (ev_kind x) STATE_KINDS = true).
  { destruct (kind_in (ev_kind x) STATE_KINDS) eqn:E; [done|]. cbn [orb] in He.
    assert (slot_d x = None) as Hn by (apply regular_kinds; by rewrite He). rewrite Hn in Hs. by destruct Hs. }
  assert (Hste : kind_in (ev_kind e) STATE_KINDS = true) by by rewrite Hk.
  rewrite (state_kind_slot x Hst), (state_kind_slot e Hste) in Hd. injection Hd as Hd.
  apply bool_decide_eq_true. unfold group_of in Hg. rewrite Hste in Hg.
  destruct (tags_identifier (ev_tags e)) as [d|]; [|done]. cbn [opt_get] in Hd. subst d.
  unfold group_of. rewrite Hst. destruct (tags_identifier (ev_tags x)) as [d|] eqn:Ex; [done|].
  exfalso. assert (group_of x = None) as Hn by (unfold group_of; by rewrite Hst, Ex).
  unfold kind_in, STATE_KINDS in Hst. cbn [existsb] in Hst. rewrite !orb_true_iff, !Z.eqb_eq in Hst.
  destruct (Hx Hn) as [H|H]; [unfold is_personal in H|]; destruct Hst as [Ht|[Ht|[Ht|[Ht|]]]];
    rewrite ?Ht in H; done.
Qed.

(** What must be known of an event before it is stored. *)
Record fit (x : Event) (s : EventStore.Store) (G : Groups) : Prop := {
  f_signed : ev_verify x = true;
  f_dated : 0 <= ev_created_at x <= I64_MAX;
  f_placed : placed x;
  f_silent g st y : deletable x = true -> group_of x = Some g -> state G g = Some st ->
    y ∈ gs_silences st -> s_who y = ev_pubkey x -> covers y (ev_created_at x) = false;
  f_withdrawn d : deletable x = true -> holds s d -> ev_kind d = DELETION ->
    ev_pubkey d = ev_pubkey x -> ~ names_id d (ev_id x);
  f_removed r : deletable x = true -> holds s r -> ev_kind r = DELETE_EVENT ->
    same_place r x = true -> ~ names_id r (ev_id x);
}.
Lemma insert_keeps s s' x G : keeps s G -> fit x s G -> store_wf s' -> inserted s x s' ->
  keeps_but (eq x) (fun g => fold_event g x = true) s' G.
Proof.
  intros K F Hw Hi. split.
  - done.
  - intros e [->|[He _]]%Hi; [apply F|by apply (k_dated _ _ _ _ K)].
  - intros e [->|[He _]]%Hi; [apply F|by apply (k_signed _ _ _ _ K)].
  - intros g st Hg Hst. apply (folded_same s); [apply K|done| |by apply (all_states K)].
    intros e He. rewrite (Hi e). split.
    + intros Hh. right. split; [done|]. intros Hr. apply Hg. by apply (rival_fold x e); [apply F| |].
    + by intros [->|[? _]].
  - intros g st e y Hg Hst He Hd Hge Ht Hy Hs Hwho. apply Hi in He as [->|[He _]].
    + by apply (f_silent _ _ _ F g st y).
    + by apply (all_silent K g st e y).
  - intros d e Ho Hd He Hk Hp Hdl. apply Hi in Hd as [<-|[Hd _]]; [done|].
    apply Hi in He as [->|[He _]]; [by apply (f_withdrawn _ _ _ F)|by apply (all_withdrawn K d e)].
  - intros r e Ho Hr He Hk Hp Hdl. apply Hi in Hr as [<-|[Hr _]]; [done|].
    apply Hi in He as [->|[He _]]; [by apply (f_removed _ _ _ F)|by apply (all_removed K r e)].
Qed.
Lemma keeps_close s G open stale : keeps_but open stale s G ->
  (forall d, open d -> ev_kind d <> DELETION /\ ev_kind d <> DELETE_EVENT) ->
  (forall g, ~ stale g) -> keeps s G.
Proof.
  intros K Ho Hs. split; try apply K.
  - intros g st _. by apply (k_states _ _ _ _ K).
  - intros g st e x _. by apply (k_silent _ _ _ _ K).
  - intros d e _ Hd He Hk. apply (k_withdrawn _ _ _ _ K d e); try done. intros Hod. by apply Ho in Hod as [? _].
  - intros r e _ Hr He Hk. apply (k_removed _ _ _ _ K r e); try done. intros Hor. by apply Ho in Hor as [_ ?].
Qed.

(** ** Admission *)
Definition clock_ok (env : Env) : Prop := 0 <= now env /\ now env + MAX_CLOCK_SKEW <= I64_MAX.

Lemma judge_dated G e at_ r : judge G e at_ = r -> (exists j, r = Ok j) \/ r = Err NotOurs ->
  ev_created_at e <= ts_add at_ MAX_CLOCK_SKEW.
Proof.
  unfold judge. intros H Hr. destruct (kind_in _ CARRIED_KINDS); [|subst; by destruct Hr as [[]|]].
  destruct (_ <=? _) eqn:E; [by apply Z.leb_le|]. subst; by destruct Hr as [[]|].
Qed.
Lemma judge_placed G e at_ j : judge G e at_ = Ok j -> placed e.
Proof.
  unfold judge, placed. intros H Hg. destruct (kind_in _ CARRIED_KINDS); [|done].
  destruct (_ <=? _); [|done]. destruct (Z.eqb_spec (ev_kind e) GIFT_WRAP); [by right|].
  destruct (is_personal (ev_kind e)); [by left|]. by rewrite Hg in H.
Qed.
Lemma judge_deletable G e at_ j : judge G e at_ = Ok j -> deletable e = true ->
  exists g st, group_of e = Some g /\ state G g = Some st /\ judge_message st e = Ok tt.
Proof.
  unfold judge. intros H Hd%deletable_kinds. destruct (kind_in _ CARRIED_KINDS); [|done].
  destruct (_ <=? _); [|done].
  assert (Hk : (ev_kind e =? GIFT_WRAP) = false /\ is_personal (ev_kind e) = false /\
    kind_in (ev_kind e) STATE_KINDS = false) by (by destruct Hd as [-> | ->]).
  destruct Hk as (H1 & H2 & Hst). rewrite H1, H2 in H. destruct (group_of e) as [g|]; cbn [ok_or] in H; [|done].
  destruct (g_carried G !! g) as [slot|] eqn:Eg; cbn [ok_or] in H; [|done]. rewrite Hst in H.
  destruct slot as [st|]; cbn [ok_or] in H; [|done]. exists g, st. split; [done|].
  split; [unfold state; by rewrite Eg|]. unfold judge_in_group in H.
  unfold judge_reaction in H. destruct (judge_message st e) as [[]|err]; [done|].
  destruct Hd as [Hd|Hd]; rewrite Hd in H; cbn in H; [done|]. by destruct (_ || _)%bool.
Qed.
Lemma judge_here_ok n src e at_ j : judge_here n src e at_ = Ok j ->
  judge (n_groups n) e at_ = Ok j \/
  (judge (n_groups n) e at_ = Err NotOurs /\ ev_kind e = GIFT_WRAP /\ src = Local).
Proof.
  unfold judge_here. case_bool_decide as E1; cbn [andb]; [|by left].
  destruct (Z.eqb_spec (ev_kind e) GIFT_WRAP); cbn [andb]; [|by left].
  case_bool_decide as E2; [by right|by left].
Qed.
Lemma message_unsilenced st e y : judge_message st e = Ok tt -> y ∈ gs_silences st ->
  s_who y = ev_pubkey e -> covers y (ev_created_at e) = false.
Proof.
  intros (_ & Hs & _)%judge_message_inv Hy Hw. unfold silence_at in Hs.
  apply (find_none_elem _ _ _ Hs) in Hy. by rewrite bool_decide_true in Hy.
Qed.

Lemma total_group_events s g n Q : store_wf s ->
  (forall evs, group_events s g = Ok evs -> Q n evs) -> total (lift (group_events s g)) n Q.
Proof.
  intros Hw HQ. destruct (group_events_spec s g Hw) as (a & b & _ & _ & Hg & _).
  eapply total_lift; [exact Hg|by apply HQ].
Qed.
Lemma judged_total n src e at_ : node_ok n ->
  total (judged src e at_) n (fun n' r => n' = n /\
    (r = None -> exists j, judge_here n src e at_ = Ok j)).
Proof.
  intros K. unfold judged. total_step. total_step.
  destruct (judge_here n src e at_) as [[|g]|r] eqn:Ej.
  - total_step. eauto.
  - total_step. destruct (group_events_spec (n_store n) g (k_wf _ _ _ _ K)) as (a & b & _ & _ & Hg & _).
    eapply total_lift; [unfold fold_applies; by rewrite Hg|]. total_step. eauto.
  - total_step. done.
Qed.
(** Only the book changed, by the book's own rule. *)
Definition rebooked (n n' : Inner) : Prop :=
  exists b, (book_wf (n_book n) -> book_wf b) /\ n' = with_book b n.
Lemma rebooked_refl n : rebooked n n.
Proof. exists (n_book n). by destruct n. Qed.
Lemma booked_total n e at_ :
  total (booked e at_) n (fun n' r => rebooked n n' /\
    (r <> None \/ ev_kind e <> DEVICE_BINDING -> n' = n)).
Proof.
  unfold booked. destruct (Z.eqb_spec (ev_kind e) DEVICE_BINDING).
  - total_step. total_step. destruct (insert_binding _ _ _) as [[b r]|err] eqn:Eb.
    + total_step. total_step. total_step. split; [|by intros [|]].
      exists b. split; [|done]. intros Hw. by eapply insert_binding_wf.
    + total_step. split; [apply rebooked_refl|done].
  - total_step. split; [apply rebooked_refl|done].
Qed.
Lemma not_withdrawn_total n e : node_ok n ->
  total (not_withdrawn e) n (fun n' r => n' = n /\ (r = None -> deletable e = true ->
    (forall d, holds (n_store n) d -> ev_kind d = DELETION -> ev_pubkey d = ev_pubkey e ->
       ~ names_id d (ev_id e)) /\
    (forall r, holds (n_store n) r -> ev_kind r = DELETE_EVENT -> same_place r e = true ->
       ~ names_id r (ev_id e)))).
Proof.
  intros K. pose proof (k_wf _ _ _ _ K) as Hw. unfold not_withdrawn, deletable.
  destruct (kind_in (ev_kind e) DELETABLE_KINDS); [|by total_step].
  total_step. total_step. destruct (is_deleted _ _ _) eqn:Ed; [by total_step|].
  unfold removed_by_moderator. total_step. total_step. total_step. total_step.
  destruct (naming_spec (n_store n) (ev_id e) DELETE_EVENT Hw) as (es & Hes & Hin).
  eapply total_lift; [exact Hes|]. total_step. total_step. split; [done|]. intros Hr _. split.
  - intros d Hd Hk Hp Hn. apply not_true_iff_false in Ed. apply Ed, is_deleted_spec; [done|]. eauto.
  - intros r Hrh Hk Hp Hn. destruct (existsb _ es) eqn:Ex; [done|].
    enough (existsb (fun r => same_place r e) es = true) by congruence.
    apply existsb_elem. exists r. split; [|done]. by apply Hin.
Qed.
Lemma not_too_soon_total n e : node_ok n -> total (not_too_soon e) n (fun n' _ => n' = n).
Proof.
  intros K. pose proof (k_wf _ _ _ _ K) as Hw. unfold not_too_soon.
  destruct (_ =? _); [|by total_step]. total_step. unfold too_soon. total_step. total_step.
  destruct (group_of e) as [g|]; [|by repeat total_step].
  destruct (channel_of e) as [c|]; [|by repeat total_step]. cbv zeta.
  destruct (_ =? 0); [by repeat total_step|]. total_step.
  destruct (query_all (n_store n) (near_filter e g (match state (n_groups n) g with
    Some s => slowmode s c | None => 0 end - 1)) Hw) as (es & Hes & _); try done.
  eapply total_lift; [exact Hes|]. by repeat total_step.
Qed.
Lemma vet_total n env src e : node_ok n -> clock_ok env -> ev_verify e = true ->
  total (vet env src e) n (fun n' r => rebooked n n' /\
    (r <> None -> n' = n) /\
    (r = None -> fit e (n_store n) (n_groups n) /\ exists j, judge_here n src e (now env) = Ok j)).
Proof.
  intros K [Hn0 Hn] Hv. pose proof (rebooked_refl n) as Hsame.
  unfold vet. total_step. eapply total_weaken; [by apply judged_total|].
  intros n1 [why|] [-> Hj]; [total_step; split; [done|done]|].
  destruct (Hj eq_refl) as [j Ej]. clear Hj.
  total_step. eapply total_weaken; [apply booked_total|]. intros n1 r [(b & Hbw & ->) Hb].
  destruct r as [why|]; [total_step; split; [by exists b|]; split; [intros _; by apply Hb; left|done]|].
  assert (K1 : node_ok (with_book b n)) by exact K.
  assert (Hkind : with_book b n = n \/ ev_kind e = DEVICE_BINDING).
  { destruct (decide (ev_kind e = DEVICE_BINDING)); [by right|left; by auto]. }
  assert (Hfit : forall r : option string, r = None -> (deletable e = true ->
      (forall d, holds (n_store n) d -> ev_kind d = DELETION -> ev_pubkey d = ev_pubkey e ->
         ~ names_id d (ev_id e)) /\
      (forall r, holds (n_store n) r -> ev_kind r = DELETE_EVENT -> same_place r e = true ->
         ~ names_id r (ev_id e))) -> fit e (n_store n) (n_groups n)).
  { intros _ _ Hw. pose proof (judge_here_ok _ _ _ _ _ Ej) as Hj. split; [done| | | | |].
    - split; [by apply verified_time|].
      assert (Hd : ev_created_at e <= ts_add (now env) MAX_CLOCK_SKEW)
        by (eapply judge_dated; [reflexivity|]; destruct Hj as [Hj|[Hj _]]; eauto).
      rewrite ts_add_exact in Hd by (unfold MAX_CLOCK_SKEW, I64_MAX, U64_MAX in *; lia). lia.
    - destruct Hj as [Hj|(_ & Hj & _)]; [by eapply judge_placed|by right].
    - intros g st y Hd Hg Hst Hy Hwho. destruct Hj as [Hj|(_ & Hj & _)].
      + destruct (judge_deletable _ _ _ _ Hj Hd) as (g' & st' & Hg' & Hst' & Hm).
        rewrite Hg' in Hg. injection Hg as ->. rewrite Hst' in Hst. injection Hst as ->.
        by apply (message_unsilenced st).
      + apply deletable_kinds in Hd as [Hd|Hd]; by rewrite Hd in Hj.
    - intros d Hd. by apply Hw.
    - intros r Hd. by apply Hw. }
  destruct (decide (ev_kind e = DEVICE_BINDING)) as [Hk|Hk].
  - assert (H1 : not_withdrawn e = ret None) by (unfold not_withdrawn; by rewrite Hk).
    assert (H2 : not_too_soon e = ret None) by (unfold not_too_soon; by rewrite Hk).
    rewrite H1, H2. do 3 total_step. split; [by exists b|]. split; [done|]. intros _.
    split; [|eauto]. apply (Hfit None); [done|]. intros [Hd|Hd]%deletable_kinds; by rewrite Hd in Hk.
  - rewrite Hb by auto. total_step. eapply total_weaken; [by apply not_withdrawn_total|].
    intros n2 r [-> Hw]. destruct r as [why|]; [total_step; split; [done|done]|].
    eapply total_weaken; [by apply not_too_soon_total|]. intros n2 r ->. split; [done|].
    split; [done|]. intros ->. split; [by apply (Hfit None), Hw|eauto].
Qed.

(** ** Consequences *)

(** Entries of the log that tell nobody of an event. *)
Definition internal (f : Effect) : Prop :=
  match f with Told _ | Broadcast _ _ => False | ToldRemoved _ | Closed _ => True end.
Record within (n n' : Inner) : Prop := {
  wi_person : n_person n' = n_person n;
  wi_device : n_device n' = n_device n;
  wi_book : book_wf (n_book n) -> book_wf (n_book n');
  wi_log : exists l, n_log n' = n_log n ++ l /\ Forall internal l;
}.
Lemma within_refl n : within n n.
Proof. split; [done..|]. exists []. by rewrite app_nil_r. Qed.
Lemma within_trans n1 n2 n3 : within n1 n2 -> within n2 n3 -> within n1 n3.
Proof.
  intros [H1 H2 Hb (l & H3 & F)] [H1' H2' Hb' (l' & H3' & F')]. split; [congruence..|auto|].
  exists (l ++ l'). rewrite H3', H3, app_assoc. split; [done|]. by apply Forall_app.
Qed.
Lemma within_emit n f : internal f -> within n (with_log (n_log n ++ [f]) n).
Proof. intros Hf. split; [done..|]. exists [f]. split; [done|]. by constructor. Qed.
(** The node, but for its gossip and its log. *)
Definition still (n n' : Inner) : Prop :=
  within n n' /\ n_store n' = n_store n /\ n_groups n' = n_groups n /\ n_book n' = n_book n.
Lemma still_refl n : still n n.
Proof. split; [apply within_refl|done]. Qed.
Lemma still_trans n1 n2 n3 : still n1 n2 -> still n2 n3 -> still n1 n3.
Proof. intros (W & ? & ? & ?) (W' & ? & ? & ?). split; [by eapply within_trans|]. split_and!; congruence. Qed.
Lemma still_gossip v n : still n (with_gossip v n).
Proof. split; [|done]. split; [done..|]. exists []. by rewrite app_nil_r. Qed.
Lemma emit_total n f : internal f -> total (emit f) n (fun n' _ => still n n').
Proof. intros Hf. total_step. split; [by apply within_emit|done]. Qed.
Lemma emit_all_total n l : Forall internal l -> total (emit_all l) n (fun n' _ => still n n').
Proof.
  intros Hl. revert n. induction Hl as [|f l Hf Hl IH]; intros n; cbn [emit_all].
  - total_step. apply still_refl.
  - total_step. eapply total_weaken; [by apply emit_total|]. intros n1 [] H1.
    eapply total_weaken; [apply IH|]. intros n2 [] H2. by eapply still_trans.
Qed.
Lemma closed_internal l : Forall internal (map Closed l).
Proof. apply Forall_fmap, Forall_true. done. Qed.
Lemma gossip_start_total n env g : total (gossip_start env g) n (fun n' _ => still n n').
Proof.
  unfold gossip_start. do 2 total_step. destruct (opt_bool _); [total_step; apply still_refl|].
  destruct (subscribes env g); total_step; [apply still_gossip|apply still_refl].
Qed.
Lemma gossip_stop_total n env g : total (gossip_stop env g) n (fun n' _ => still n n').
Proof.
  unfold gossip_stop. do 2 total_step. destruct (n_gossip n !! g); [|total_step; apply still_refl].
  do 2 total_step. eapply total_weaken; [apply emit_all_total, closed_internal|]. intros n' [] H.
  eapply still_trans; [apply still_gossip|exact H].
Qed.
Lemma gossip_revoke_total n env g allowed : total (gossip_revoke env g allowed) n (fun n' _ => still n n').
Proof.
  unfold gossip_revoke. do 2 total_step. destruct (n_gossip n !! g); [|total_step; apply still_refl].
  cbv zeta. do 2 total_step. eapply total_weaken; [apply emit_all_total, closed_internal|]. intros n' [] H.
  eapply still_trans; [apply still_gossip|exact H].
Qed.
Lemma group_changed_total n env g : total (group_changed env g) n (fun n' _ => still n n').
Proof.
  unfold group_changed. do 2 total_step. cbv zeta. total_step.
  apply (total_weaken _ _ (fun n' _ => still n n')).
  - destruct (_ && _)%bool; [apply gossip_start_total|].
    destruct (_ && _)%bool; [apply gossip_stop_total|total_step; apply still_refl].
  - intros n1 [] H1. do 2 total_step. eapply total_weaken; [apply gossip_revoke_total|].
    intros n2 [] H2. by eapply still_trans.
Qed.
Lemma tell_removed_total n ids : total (tell_removed ids) n (fun n' _ => still n n').
Proof. destruct ids; cbn [tell_removed]; [total_step; apply still_refl|by apply emit_total]. Qed.

(** What a store operation leaves of the node. *)
Definition stored_as (n n' : Inner) (s : EventStore.Store) : Prop :=
  within n n' /\ n_store n' = s /\ n_groups n' = n_groups n.
Lemma stored_as_still n s n' : still (with_store s n) n' -> stored_as n n' s.
Proof.
  intros (W & Hs & HG & _). split; [|done]. destruct W as [H1 H2 Hb H3]. by split.
Qed.
Lemma silenced_ids_spec s g l : store_wf s -> exists ids, silenced_ids s g l = Ok ids /\
  (forall e, holds s e -> ev_id e ∈ ids -> deletable e = true) /\
  (forall e x, holds s e -> dated_ok s -> x ∈ l -> s_who x = ev_pubkey e -> deletable e = true ->
     tagged e g = true -> storable x -> covers x (ev_created_at e) = true -> ev_id e ∈ ids).
Proof.
  intros Hw. induction l as [|y l (ids & Hids & Hback & Hfwd)].
  - exists []. split; [done|]. split; [intros e _ H; by apply not_elem_of_nil in H|].
    intros e x _ _ H. by apply not_elem_of_nil in H.
  - destruct (authored_in_spec s g (s_who y) DELETABLE_KINDS (s_from y) (s_until y) Hw)
      as (new & Hnew & Hnback & Hnfwd).
    exists (new ++ ids). cbn [silenced_ids]. rewrite Hnew, Hids. split; [done|]. split.
    + intros e He [Hi|Hi]%elem_of_app; [by apply Hnback in Hi as (_ & ? & _)|by apply Hback].
    + intros e x He Hd Hx Hwho Hdl Ht Hs Hc. apply elem_of_app.
      apply elem_of_cons in Hx as [->|Hx]; [left|right; by apply (Hfwd e x)].
      unfold covers in Hc. apply andb_prop in Hc as [Hf Hu]. apply Z.leb_le in Hf.
      apply Hnfwd; try done. unfold storable in Hs. destruct (s_until y) as [u|]; [|done].
      cbn in Hu. apply Z.ltb_lt in Hu. auto.
Qed.
(** [s'] lost none but deletable events of [s]. *)
Definition spares (s s' : EventStore.Store) : Prop :=
  forall e, holds s e -> deletable e = false -> holds s' e.
(** Events only a newer version, or nothing at all, takes from the store. *)
Definition lasting (e : Event) : Prop :=
  deletable e = false /\ ev_kind e <> GIFT_WRAP /\ ev_kind e <> DEVICE_BINDING.
Definition stays (s s' : EventStore.Store) : Prop := forall e, lasting e -> holds s e -> holds s' e.
Lemma spares_stays s s' : spares s s' -> stays s s'.
Proof. intros Sp e (Hd & _) He. by apply Sp. Qed.
Lemma quiet_stays s s' : quiet s s' -> stays s s'.
Proof. intros Q e (Hd & H1 & H2) He. apply (q_lost _ _ Q) in He as [?|[?|[?|?]]]; [done..|congruence]. Qed.
Lemma remove_spares s ids : store_wf s -> (forall e, holds s e -> ev_id e ∈ ids -> deletable e = true) ->
  spares s (remove s ids).
Proof.
  intros Hw Hd e He Hn. apply remove_spec; [done|]. split; [done|]. intros Hi. by rewrite (Hd e) in Hn.
Qed.
Lemma remove_quiet s ids : store_wf s -> (forall e, holds s e -> ev_id e ∈ ids -> deletable e = true) ->
  quiet s (remove s ids).
Proof.
  intros Hw Hd. destruct (remove_spec s ids Hw) as [Hw' Hr]. split; [done| |].
  - intros e He. apply Hr in He as [He _]. by left.
  - intros e He. destruct (decide (ev_id e ∈ ids)); [right; right; right; auto|]. left. by apply Hr.
Qed.
Lemma purge_total n g : store_wf (n_store n) -> dated_ok (n_store n) ->
  total (purge_silenced g) n (fun n' _ => exists s', stored_as n n' s' /\
    quiet (n_store n) s' /\ spares (n_store n) s' /\
    forall st e x, state (n_groups n) g = Some st -> holds s' e -> x ∈ gs_silences st ->
      s_who x = ev_pubkey e -> deletable e = true -> tagged e g = true -> storable x ->
      covers x (ev_created_at e) = false).
Proof.
  intros Hw Hd. unfold purge_silenced. do 2 total_step. cbv zeta.
  set (l := match state (n_groups n) g with Some s => gs_silences s | None => [] end).
  destruct (silenced_ids_spec (n_store n) g l Hw) as (ids & Hids & Hback & Hfwd).
  total_step. eapply total_lift; [exact Hids|].
  assert (Hclear : forall s', (forall e, holds s' e -> holds (n_store n) e /\ ev_id e ∉ ids) ->
    forall st e x, state (n_groups n) g = Some st -> holds s' e -> x ∈ gs_silences st ->
      s_who x = ev_pubkey e -> deletable e = true -> tagged e g = true -> storable x ->
      covers x (ev_created_at e) = false).
  { intros s' Hs' st e x Hst He Hx Hwho Hdl Ht Hs. apply Hs' in He as [He Hn].
    destruct (covers x (ev_created_at e)) eqn:Ec; [|done]. exfalso. apply Hn.
    apply (Hfwd e x); try done. unfold l. by rewrite Hst. }
  destruct ids as [|i ids].
  - total_step. exists (n_store n). split; [split; [apply within_refl|done]|].
    split; [by apply quiet_refl|]. split; [by intros e|].
    apply Hclear. intros e He. split; [done|apply not_elem_of_nil].
  - do 2 total_step. cbn [fst snd]. eapply total_weaken; [apply tell_removed_total|].
    intros n' [] Hn'. exists (remove (n_store n) (i :: ids)). split; [by apply stored_as_still|].
    split; [by apply remove_quiet|]. split; [by apply remove_spares|].
    apply Hclear. intros e. by apply remove_spec.
Qed.

Lemma state_set_state G g st g' :
  state (set_state G g st) g' =
  if bool_decide (g' = g /\ is_carried G g = true) then st else state G g'.
Proof.
  unfold set_state, is_carried, state. destruct (g_carried G !! g) as [slot|] eqn:E; cbn.
  - case_bool_decide as Hd; [destruct Hd as [-> _]; by rewrite lookup_insert_eq|].
    destruct (decide (g' = g)) as [->|Hne]; [by destruct Hd|by rewrite lookup_insert_ne].
  - rewrite bool_decide_false; [done|]. by intros [_ ?].
Qed.
Lemma keeps_weaken (o o' : Event -> Prop) (st st' : PublicKey -> Prop) s G : keeps_but o st s G ->
  (forall d, o d -> o' d) -> (forall g, st g -> st' g) -> keeps_but o' st' s G.
Proof.
  intros K Ho Hst. split; try apply K; intros; [eapply (k_states _ _ _ _ K)|eapply (k_silent _ _ _ _ K)|
    eapply (k_withdrawn _ _ _ _ K)|eapply (k_removed _ _ _ _ K)]; eauto.
Qed.
(** A group whose state may be behind what is held is right once refolded. *)
Lemma refold_right n env g o : keeps_but o (eq g) (n_store n) (n_groups n) ->
  (forall d, o d -> ev_kind d <> DELETION /\ ev_kind d <> DELETE_EVENT) ->
  total (refold env g) n (fun n' _ => within n n' /\ spares (n_store n) (n_store n') /\ node_ok n').
Proof.
  intros K Ho. unfold refold. do 3 total_step. apply total_group_events; [apply K|].
  intros evs Hevs. do 3 total_step. eapply total_weaken; [apply group_changed_total|].
  intros n1 [] (W1 & Hs1 & HG1 & _). cbn [with_groups n_store n_groups] in Hs1, HG1.
  assert (Hw : store_wf (n_store n1)) by (rewrite Hs1; apply K).
  assert (Hd : dated_ok (n_store n1)) by (rewrite Hs1; apply K).
  eapply total_weaken; [by apply purge_total|].
  intros n2 [] (s2 & (W2 & Hs2 & HG2) & Q & Sp & Hclear). split.
  { eapply within_trans; [|exact W2]. destruct W1 as [H1 H2 Hb H3]. by split. }
  split; [by rewrite Hs2, <- Hs1|].
  unfold node_ok. rewrite Hs2, HG2. rewrite HG1 in Hclear |- *.
  assert (K1 : keeps_but o (eq g) s2 (n_groups n)).
  { rewrite Hs1 in Q. by eapply keeps_quiet. }
  split; try apply K1.
  - intros g' st _. rewrite state_set_state. case_bool_decide as Hc.
    + destruct Hc as [-> _]. intros Hf. apply (folded_same (n_store n)); [apply K|apply Q| |by exists evs].
      rewrite Hs1 in Q. intros e (H1 & H2 & H3)%fold_event_kinds. split.
      * intros He. apply (q_lost _ _ Q) in He as [?|[?|[?|?]]]; [done|done|done|congruence].
      * intros He. by apply (q_new _ _ Q) in He as [?|[? _]].
    + intros Hst. apply (k_states _ _ _ _ K1); [|done]. intros <-.
      unfold state in Hst. destruct (is_carried (n_groups n) g) eqn:Ec; [by apply Hc|].
      unfold is_carried in Ec. by destruct (g_carried (n_groups n) !! g).
  - intros g' st e y _ Hst He Hdl Hge Ht Hy Hsy Hwho.
    destruct (decide (g' = g)) as [->|Hne]; [by apply (Hclear st e y)|].
    rewrite state_set_state, bool_decide_false in Hst by (by intros [? _]).
    by apply (k_silent _ _ _ _ K1 g' st e y).
  - intros d e _ Hh He Hk. apply (k_withdrawn _ _ _ _ K1 d e); try done. by intros [? _]%Ho.
  - intros r e _ Hr He Hk. apply (k_removed _ _ _ _ K1 r e); try done. by intros [_ ?]%Ho.
Qed.
Lemma refold_total n env g x : keeps_but (eq x) (fun g => fold_event g x = true) (n_store n) (n_groups n) ->
  group_of x = Some g -> ev_kind x <> DELETION -> ev_kind x <> DELETE_EVENT ->
  total (refold env g) n (fun n' _ => within n n' /\ spares (n_store n) (n_store n') /\ node_ok n').
Proof.
  intros K Hg Hk1 Hk2. apply (refold_right n env g (eq x)); [|by intros d <-]. eapply keeps_weaken; [exact K|done|].
  intros g' [H _]%andb_prop. apply bool_decide_eq_true in H. congruence.
Qed.

(** The store moved quietly, the groups' states not at all. *)
Definition quietly (n n' : Inner) : Prop :=
  within n n' /\ quiet (n_store n) (n_store n') /\
  forall g, state (n_groups n') g = state (n_groups n) g.
Lemma quietly_still n n' : store_wf (n_store n) -> still n n' -> quietly n n'.
Proof.
  intros Hw (W & Hs & HG & _). split; [done|]. rewrite Hs, HG. split; [by apply quiet_refl|done].
Qed.
Lemma quietly_trans n1 n2 n3 : quietly n1 n2 -> quietly n2 n3 -> quietly n1 n3.
Proof.
  intros (W & Q & H) (W' & Q' & H'). split; [by eapply within_trans|]. split; [by eapply quiet_trans|].
  intros g. by rewrite H', H.
Qed.
Lemma quietly_wf n n' : quietly n n' -> store_wf (n_store n').
Proof. intros (_ & Q & _). apply Q. Qed.
Lemma quietly_store n s : quiet (n_store n) s -> quietly n (with_store s n).
Proof.
  intros Q. split; [|done]. split; [done..|]. exists []. by rewrite app_nil_r.
Qed.
Lemma tables_quiet s groups use grants : store_wf s ->
  quiet s (mkStore (t_events s) (t_tags s) (t_attachments s) groups use grants).
Proof. intros Hw. split; [by apply store_wf_tables| |]; intros e He; by left. Qed.
Lemma grant_quiet s h p : store_wf s -> quiet s (grant_blob s h p).
Proof. intros Hw. unfold grant_blob. case_bool_decide; [by apply quiet_refl|by apply tables_quiet]. Qed.
Lemma grant_total n h p : store_wf (n_store n) -> total (grant h p) n (fun n' _ => quietly n n').
Proof. intros Hw. unfold grant. total_step. by apply quietly_store, grant_quiet. Qed.

Lemma binding_insert_quiet s b now s' r : store_wf s -> ev_kind b = DEVICE_BINDING ->
  ev_verify b = true -> 0 <= ev_created_at b <= I64_MAX -> insert s b now = Ok (s', r) -> quiet s s'.
Proof.
  intros Hw Hk Hv Hd Hi. destruct (insert_spec s b now Hw) as (s1 & r1 & Hi1 & Hw1 & Hc).
  rewrite Hi1 in Hi. injection Hi as <- <-. destruct Hc as [[_ ->]|(_ & _ & Hc)]; [by apply quiet_refl|].
  split; [done| |].
  - intros e [->|[He _]]%Hc; [by right|by left].
  - intros e He. destruct (decide (rival b e)) as [Hr|Hr]; [|left; apply Hc; by right].
    right; right; left. destruct Hr as [_ Hr]. unfold slot_key in Hr. congruence.
Qed.
Lemma learn_quiet n env b p : store_wf (n_store n) -> clock_ok env ->
  total (attempt (learn_binding env b p)) n (fun n' _ => quietly n n').
Proof.
  intros Hw [Hn0 Hn]. unfold attempt, total. eexists _, tt. split; [done|].
  assert (H0 : quietly n n) by (apply quietly_still; [done|apply still_refl]).
  unfold learn_binding. destruct (Z.eqb_spec (ev_kind b) DEVICE_BINDING) as [Hk|]; [|done]. cbn [negb orb].
  case_bool_decide; [|done]. cbn [negb]. destruct (ev_verify b) eqn:Ev; [|done]. cbn [negb].
  unfold bind at 1. unfold get. destruct (insert_binding _ _ _) as [[bk r]|] eqn:Eb; [|done].
  assert (Ep : exists pc, Parsed_check b (now env) = Ok pc).
  { revert Eb. unfold insert_binding. destruct (Parsed_check b (now env)) as [pc|]; [eauto|done]. }
  destruct Ep as [pc Ep].
  apply Parsed_check_ok in Ep. pose proof (ck_time _ _ _ Ep) as Ht.
  unfold BINDING_CLOCK_SKEW, MAX_CLOCK_SKEW, I64_MAX, U64_MAX in *.
  rewrite ts_add_exact in Ht by (unfold U64_MAX; lia).
  unfold bind. cbn. destruct (insert_spec (n_store n) b (now env) Hw) as (s1 & r1 & Hi & _).
  rewrite Hi. cbn. change (with_store s1 (with_book bk n)) with (with_store s1 (with_book bk n)).
  split; [split; [done..| |exists []; by rewrite app_nil_r]|].
  { intros Hbw. by eapply insert_binding_wf. }
  split; [|done]. cbn. eapply binding_insert_quiet; [done..| |exact Hi]. unfold I64_MAX.
  pose proof (verified_time b Ev). lia.
Qed.
Lemma opened_dm_total n env e : store_wf (n_store n) -> clock_ok env ->
  total (opened_dm env e) n (fun n' _ => quietly n n').
Proof.
  intros Hw Hc. assert (H0 : quietly n n) by (apply quietly_still; [done|apply still_refl]).
  unfold opened_dm. do 2 total_step. destruct (open_dm _ e) as [d|]; [|by total_step].
  total_step. apply (total_weaken _ _ (fun n' _ => quietly n n')).
  - destruct (dm_file d) as [f|]; [|by total_step]. total_step.
    eapply total_weaken; [by apply grant_total|]. intros n1 [] H1.
    eapply total_weaken; [apply grant_total; by eapply quietly_wf|]. intros n2 [] H2.
    by eapply quietly_trans.
  - intros n1 [] H1. destruct (dm_device d) as [b|]; [|by total_step].
    destruct (negb _); [|by total_step].
    eapply total_weaken; [apply learn_quiet; [by eapply quietly_wf|done]|]. intros n2 [] H2.
    by eapply quietly_trans.
Qed.
Lemma kept_for_total n e : store_wf (n_store n) -> total (kept_for e) n (fun n' _ => quietly n n').
Proof.
  intros Hw. assert (H0 : quietly n n) by (apply quietly_still; [done|apply still_refl]).
  unfold kept_for. do 2 total_step. destruct (recipient_of e) as [to|]; [|by total_step].
  destruct (negb _); [|by total_step]. do 2 total_step. cbn [fst]. total_step. apply quietly_store.
  destruct (cap_wraps_spec (n_store n) to INBOX_CAP_BYTES Hw) as (Hw' & H1 & H2).
  split; [done|by left; auto|]. intros x Hx. destruct (decide (ev_kind x = GIFT_WRAP)); [by right; left|].
  left. auto.
Qed.

Lemma names_target d id : names_id d id -> id ∈ targets_of d.
Proof.
  intros [rest Hin]. unfold targets_of, filter_map. apply list_elem_of_omap. eexists. split; [exact Hin|].
  cbn. by rewrite bool_decide_true, id_hex.
Qed.
Lemma withdrawal_total n x : keeps_but (eq x) nothing (n_store n) (n_groups n) -> ev_kind x = DELETION ->
  total (apply_withdrawal x) n (fun n' _ => within n n' /\ spares (n_store n) (n_store n') /\ node_ok n').
Proof.
  intros K Hk. unfold apply_withdrawal. do 2 total_step. eapply total_weaken; [apply tell_removed_total|].
  intros n' [] Hn. apply stored_as_still in Hn as (W & Hs & HG). split; [done|].
  destruct (apply_deletion_spec (n_store n) x DELETABLE_KINDS (k_wf _ _ _ _ K)) as [Hw' Hh].
  set (s' := fst (apply_deletion (n_store n) x DELETABLE_KINDS)) in *.
  assert (Sp : spares (n_store n) s').
  { intros e He Hd. apply Hh. split; [done|]. intros (_ & _ & Hk'). unfold deletable in Hd. congruence. }
  assert (Q : quiet (n_store n) s').
  { split; [done| |].
    - intros e He. apply Hh in He as [He _]. by left.
    - intros e He. destruct (deletable e) eqn:Ed; [by right; right; right|]. left. apply Hh. split; [done|].
      intros (_ & _ & Hd). unfold deletable in Ed. congruence. }
  pose proof (keeps_quiet _ _ _ _ _ K Q) as K'. unfold node_ok. rewrite Hs, HG.
  split; [done|]. split; try apply K'.
  - intros d e _ Hd He Hkd Hp Hdl Hn. destruct (decide (d = x)) as [->|Hne].
    + apply Hh in He as [_ He]. apply He. split; [by apply names_target|]. by split.
    + revert Hn. apply (k_withdrawn _ _ _ _ K' d e); try done; by intros <-.
  - intros r e _ Hr He Hkr. apply (k_removed _ _ _ _ K' r e); try done. intros <-. by rewrite Hkr in Hk.
Qed.
Lemma removal_total n x : keeps_but (eq x) nothing (n_store n) (n_groups n) -> ev_kind x = DELETE_EVENT ->
  total (apply_removal x) n (fun n' _ => within n n' /\ spares (n_store n) (n_store n') /\ node_ok n').
Proof.
  intros K Hk. unfold apply_removal. do 3 total_step.
  destruct (by_ids_spec (n_store n) (targets_of x) (k_wf _ _ _ _ K)) as (es & Hes & Hin).
  eapply total_lift; [exact Hes|]. cbv zeta. do 2 total_step.
  eapply total_weaken; [apply tell_removed_total|]. cbn [fst].
  set (gone := map ev_id (List.filter (removable x) es)).
  assert (Hgone : forall e, holds (n_store n) e ->
    ev_id e ∈ gone <-> ev_id e ∈ targets_of x /\ removable x e = true).
  { intros e He. unfold gone. rewrite list_elem_of_fmap. setoid_rewrite filter_elem. split.
    - intros (y & Hi & Hy & Hr). apply Hin in Hy as [Hy Ht].
      assert (y = e) as -> by (apply (holds_same_id (n_store n)); [apply K|done..]). done.
    - intros [Ht Hr]. exists e. split; [done|]. split; [|done]. by apply Hin. }
  intros n' [] Hn. apply stored_as_still in Hn as (W & Hs & HG). split; [done|].
  destruct (remove_spec (n_store n) gone (k_wf _ _ _ _ K)) as [Hw' Hh].
  assert (Hdl : forall e, holds (n_store n) e -> ev_id e ∈ gone -> deletable e = true).
  { intros e He Hi. apply Hgone in Hi as [_ Hr]; [|done].
    unfold removable in Hr. by apply andb_prop in Hr as [? _]. }
  assert (Sp := remove_spares _ _ (k_wf _ _ _ _ K) Hdl).
  pose proof (remove_quiet _ _ (k_wf _ _ _ _ K) Hdl) as Q. clear Hdl.
  pose proof (keeps_quiet _ _ _ _ _ K Q) as K'. unfold node_ok. rewrite Hs, HG.
  split; [done|]. split; try apply K'.
  - intros d e _ Hd He Hkd. apply (k_withdrawn _ _ _ _ K' d e); try done. intros <-. by rewrite Hkd in Hk.
  - intros r e _ Hr He Hkr Hp Hdl Hn. destruct (decide (r = x)) as [->|Hne].
    + apply Hh in He as [He Hng]. apply Hng, Hgone; [done|]. split; [by apply names_target|].
      unfold removable. rewrite andb_true_iff. split; [done|]. unfold same_place in *.
      apply andb_prop in Hp as [H1 H2]. apply bool_decide_eq_true in H1, H2. by rewrite H1, H2, !bool_decide_true.
    + revert Hn. apply (k_removed _ _ _ _ K' r e); try done; by intros <-.
Qed.

(** Evaluates the tests of a known kind. *)
Ltac known_kind Hk :=
  rewrite ?Hk;
  repeat match goal with
  | |- context [?a =? ?b] =>
      let c := eval vm_compute in (a =? b) in
      match c with true => idtac | false => idtac end; change (a =? b) with c
  end;
  repeat match goal with
  | |- context [changes_state ?a] =>
      let c := eval vm_compute in (changes_state a) in
      match c with true => idtac | false => idtac end; change (changes_state a) with c
  end;
  cbn [andb].
(** The conditional statements that do not run. *)
Ltac skip_whens := repeat (total_step; [idtac]; total_step; [idtac]).

Lemma consequences_new n env x : clock_ok env -> placed x ->
  keeps_but (eq x) (fun g => fold_event g x = true) (n_store n) (n_groups n) ->
  total (consequences env x Stored.New) n (fun n' _ => within n n' /\ node_ok n' /\
    stays (n_store n) (n_store n') /\
    (holds (n_store n) x -> ev_kind x <> GIFT_WRAP -> holds (n_store n') x)).
Proof.
  intros Hc Hx K. pose proof (k_wf _ _ _ _ K) as Hw. unfold consequences. cbv zeta.
  rewrite (bool_decide_true (Stored.New = Stored.New)), (bool_decide_false (Stored.New = Stored.Ephemeral)) by done.
  assert (Hspare : forall n', deletable x = false ->
    within n n' /\ spares (n_store n) (n_store n') /\ node_ok n' ->
    within n n' /\ node_ok n' /\ stays (n_store n) (n_store n') /\
      (holds (n_store n) x -> ev_kind x <> GIFT_WRAP -> holds (n_store n') x)).
  { intros n' Hd (W & Sp & K'). split_and!; [done..|by apply spares_stays|]. intros Hh _. by apply Sp. }
  assert (Hnofold : forall k, ev_kind x = k -> (k =? CREATE_GROUP) || kind_in k ACTION_KINDS || kind_in k STATE_KINDS = false ->
    keeps_but (eq x) nothing (n_store n) (n_groups n)).
  { intros k <- Hk. assert (Hf : forall g, fold_event g x <> true).
    { intros g. unfold fold_event. destruct (bool_decide _); [|done]. cbn [andb]. intros H.
      rewrite <- orb_assoc, orb_comm in H. rewrite H in Hk. done. }
    split; try apply K; intros g; intros; [by apply (k_states _ _ _ _ K)|].
    by apply (k_silent _ _ _ _ K g st e x0). }
  destruct (Z.eqb_spec (ev_kind x) DELETION) as [Hk|H1].
  { known_kind Hk. total_step. eapply total_weaken; [apply withdrawal_total; [by eapply Hnofold|done]|].
    intros n1 [] H1. skip_whens. apply Hspare in H1; [|by unfold deletable; rewrite Hk].
    rewrite Hk in H1. destruct (group_of x); by total_step. }
  destruct (Z.eqb_spec (ev_kind x) DELETE_EVENT) as [Hk|H2].
  { known_kind Hk. skip_whens. total_step. eapply total_weaken; [apply removal_total; [by eapply Hnofold|done]|].
    intros n1 [] H2. skip_whens. apply Hspare in H2; [|by unfold deletable; rewrite Hk].
    rewrite Hk in H2. destruct (group_of x); by total_step. }
  assert (Hopen : forall d, x = d -> ev_kind d <> DELETION /\ ev_kind d <> DELETE_EVENT) by (by intros d <-).
  destruct (Z.eqb_spec (ev_kind x) GIFT_WRAP) as [Hk|H3].
  { known_kind Hk. skip_whens. total_step. eapply total_weaken; [by apply opened_dm_total|]. intros n1 [] Q1.
    skip_whens. total_step. apply (total_weaken _ _ (fun n' _ => quietly n1 n')).
    { apply kept_for_total. by eapply quietly_wf. }
    intros n2 [] Q2. skip_whens. pose proof (quietly_trans _ _ _ Q1 Q2) as (W & Q & HG).
    assert (group_of x = None) as -> by (unfold group_of; by rewrite Hk). total_step. split_and!; [done| |by apply quiet_stays|done].
    apply (keeps_states _ _ _ (n_groups n)); [done|]. apply (keeps_quiet _ _ (n_store n)); [|done].
    apply (keeps_close _ _ (eq x) nothing); [by eapply Hnofold|done|by intros g []]. }
  destruct (Z.eqb_spec (ev_kind x) INBOX_LIST) as [Hk|H4].
  { known_kind Hk. skip_whens.
    assert (group_of x = None) as -> by (unfold group_of; by rewrite Hk). total_step.
    split_and!; [split; [done..|exists []; by rewrite app_nil_r]| |by intros y|done]. apply (keeps_states _ _ _ (n_groups n)); [done|].
    apply (keeps_close _ _ (eq x) nothing); [by eapply Hnofold|done|by intros g []]. }
  cbn [andb]. skip_whens. destruct (group_of x) as [g|] eqn:Hg.
  - destruct (changes_state (ev_kind x)) eqn:Hcs.
    { eapply total_weaken; [by apply (refold_total n env g x)|]. intros n1 [] H. apply Hspare; [|done].
      destruct (deletable x) eqn:Ed; [|done]. by apply deletable_kinds in Ed as [Ed|Ed]; rewrite Ed in Hcs. }
    total_step. split_and!; [apply within_refl| |by intros y|done]. apply (keeps_close _ _ _ _ K); [done|]. intros g'. unfold fold_event.
    intros [_ Hf]%andb_prop. unfold changes_state in Hcs.
    assert (Hn : forall k, (k =? CREATE_GROUP) || kind_in k ACTION_KINDS || kind_in k STATE_KINDS = true ->
      negb (kind_in k CHANNEL_KINDS) && negb (k =? PRESENCE) && negb (k =? VOICE_PRESENCE) = true).
    { unfold kind_in, ACTION_KINDS, STATE_KINDS. cbn [existsb]. intros k. rewrite !orb_true_iff, !Z.eqb_eq.
      intros Hor. repeat match type of Hor with _ \/ _ => destruct Hor as [Hor|Hor] end; try done; by subst k. }
    rewrite Hn in Hcs; [done|]. by destruct (kind_in _ STATE_KINDS), (_ =? CREATE_GROUP), (kind_in _ ACTION_KINDS).
  - total_step. split_and!; [apply within_refl| |by intros y|done]. apply (keeps_close _ _ _ _ K); [done|]. intros g'.
    unfold fold_event. rewrite Hg. by rewrite bool_decide_false.
Qed.

(** What [accept_event] logs besides what it answers. *)
Definition passed_on (src : Source) (e : Event) (n' : Inner) (f : Effect) : Prop :=
  match f with
  | Told x => x = e
  | Broadcast g x => x = e /\ gossip_group (n_groups n') e = Some g /\ (src = Local \/ src = Push)
  | ToldRemoved _ | Closed _ => True
  end.
Definition logged (src : Source) (e : Event) (n n' : Inner) : Prop :=
  exists l, n_log n' = n_log n ++ l /\ Forall (passed_on src e n') l.
Lemma within_logged src e n n' : within n n' -> logged src e n n'.
Proof.
  intros [_ _ _ (l & Hl & Hf)]. exists l. split; [done|]. eapply Forall_impl; [exact Hf|]. by intros [].
Qed.
Lemma pass_on_total n0 n src e : within n0 n -> node_ok n ->
  total (pass_on src e) n (fun n' _ => node_ok n' /\ n_store n' = n_store n /\
    n_book n' = n_book n /\ logged src e n0 n' /\ Told e ∈ n_log n').
Proof.
  intros [_ _ Hb0 (l & Hl & Hf)] K. unfold pass_on. do 4 total_step.
  assert (Hbase : forall n', n_groups n' = n_groups n -> n_store n' = n_store n -> n_book n' = n_book n ->
    (n_log n' = (n_log n ++ [Told e]) \/ exists g, n_log n' = (n_log n ++ [Told e]) ++ [Broadcast g e] /\
       gossip_group (n_groups n) e = Some g /\ (src = Local \/ src = Push)) ->
    node_ok n' /\ n_store n' = n_store n /\ n_book n' = n_book n /\ logged src e n0 n' /\ Told e ∈ n_log n').
  { intros n' HG Hs Hbk Hlog. unfold logged. split; [unfold node_ok; by rewrite HG, Hs|]. do 2 (split; [done|]).
    assert (Hi : Forall (passed_on src e n') l).
    { eapply Forall_impl; [exact Hf|]. by intros []. }
    destruct Hlog as [->|(g & -> & Hg & Hsrc)]; rewrite Hl.
    - split.
      + exists (l ++ [Told e]). rewrite app_assoc. split; [done|]. apply Forall_app. split; [done|].
        apply Forall_singleton. reflexivity.
      + apply elem_of_app. right. by apply list_elem_of_singleton.
    - split.
      + exists ((l ++ [Told e]) ++ [Broadcast g e]). rewrite !app_assoc. split; [done|].
        rewrite !Forall_app, !Forall_singleton. split; [split; [done|reflexivity]|].
        cbn. by rewrite HG.
      + apply elem_of_app. left. apply elem_of_app. right. by apply list_elem_of_singleton. }
  destruct (gossip_group (n_groups n) e) as [g|] eqn:Eg; [|total_step; apply Hbase; auto].
  destruct (bool_decide (src = Local) || bool_decide (src = Push)) eqn:Es; [|total_step; apply Hbase; auto].
  assert (Hsrc : src = Local \/ src = Push).
  { apply orb_prop in Es as [Es|Es]; apply bool_decide_eq_true in Es; auto. }
  destruct (opt_bool _); total_step; apply Hbase; auto. right. eauto.
Qed.

Lemma consequences_passing n env x : total (consequences env x Stored.Ephemeral) n (fun n' _ =>
  within n n' /\ n_store n' = n_store n /\ n_groups n' = n_groups n).
Proof.
  unfold consequences. cbv zeta.
  rewrite (bool_decide_false (Stored.Ephemeral = Stored.New)),
    (bool_decide_true (Stored.Ephemeral = Stored.Ephemeral)) by done.
  cbn [andb]. skip_whens.
  assert (H0 : forall n, within n n) by apply within_refl.
  assert (Hend : forall (n1 : Inner), within n n1 /\ n_store n1 = n_store n /\ n_groups n1 = n_groups n ->
    total (match group_of x with Some g => ret tt | None => ret tt end) n1 (fun n' _ =>
      within n n' /\ n_store n' = n_store n /\ n_groups n' = n_groups n)).
  { intros n1 H1. destruct (group_of x); by total_step. }
  destruct (_ =? VOICE_PRESENCE); [|total_step; total_step]; destruct (_ =? PRESENCE);
    unfold heard_voice, heard_presence; destruct (group_of x); try destruct (channel_of x);
    repeat (total_step; cbn beta iota); split_and!; try done;
    (split; [done..|exists []; by rewrite app_nil_r]).
Qed.
Lemma consequences_old n env x r : r = Stored.Duplicate \/ r = Stored.Stale ->
  consequences env x r n = (n, Ok tt).
Proof. intros [-> | ->]; unfold consequences; cbn; by destruct (group_of x). Qed.

(** What [accept_event] answers, and leaves. *)
Record outcome (src : Source) (e : Event) (n n' : Inner) (v : Verdict) : Prop := {
  o_ok : node_ok n';
  o_logged : logged src e n n';
  o_book : book_wf (n_book n) -> book_wf (n_book n');
  o_refused : v.1 = false -> n' = n;
  o_taken : v = (true, ""%string) -> Told e ∈ n_log n' /\
    (slot e <> Ephemeral -> ev_kind e <> GIFT_WRAP -> holds (n_store n') e);
  o_stays y : lasting y -> slot_d y = None -> holds (n_store n) y -> holds (n_store n') y;
  o_old : v.1 = true -> v.2 <> ""%string ->
    n_store n' = n_store n /\ n_groups n' = n_groups n /\ n_log n' = n_log n;
}.
Lemma keep_total n0 n env src e : rebooked n0 n -> node_ok n -> clock_ok env ->
  fit e (n_store n) (n_groups n) ->
  total (keep env src e) n (fun n' v => v.1 = true /\ outcome src e n0 n' v).
Proof.
  intros (b & Hbw & ->) K Hc F. pose proof (k_wf _ _ _ _ K) as Hw. unfold keep. do 3 total_step.
  destruct (insert_spec (n_store (with_book b n0)) e (now env) Hw) as (s1 & r & Hi & Hw1 & Hcase).
  eapply total_lift; [exact Hi|]. do 3 total_step. cbn [fst snd].
  set (n1 := with_store s1 (with_book b n0)).
  assert (W0 : within n0 n1) by (split; [done..|exact Hbw|exists []; by rewrite app_nil_r]).
  destruct Hcase as [[Hr Hs]|(-> & Hslot & Hins)].
  - assert (K1 : node_ok n1) by (unfold node_ok, n1; cbn; by rewrite Hs).
    destruct r; [done|..].
    1, 2: exists n1, tt; split; [by apply consequences_old; auto|]; cbn [answer]; total_step;
      split; [done|]; split; [done|by apply within_logged|exact Hbw|done|done|..]; cbn; subst s1; done.
    eapply total_weaken; [apply consequences_passing|]. intros n2 [] (W & Hs2 & HG2).
    assert (K2 : node_ok n2) by (unfold node_ok; by rewrite Hs2, HG2).
    cbn [answer]. total_step. eapply total_weaken;
      [apply (pass_on_total n0); [by eapply within_trans|done]|].
    intros n3 [] (K3 & Hs3 & Hb3 & Hl & Ht). total_step. split; [done|]. split; try done.
    + rewrite Hb3. by apply (wi_book _ _ (within_trans _ _ _ W0 W)).
    + intros _. split; [done|]. intros Hsl. by apply insert_passing in Hi.
    + intros y _ _. rewrite Hs3, Hs2. cbn. by rewrite Hs.
  - eapply total_weaken; [apply (consequences_new n1); [done|apply F|by eapply insert_keeps]|].
    intros n2 [] (W & K2 & Hst & Hheld). cbn [answer]. total_step.
    eapply total_weaken; [apply (pass_on_total n0); [by eapply within_trans|done]|].
    intros n3 [] (K3 & Hs3 & Hb3 & Hl & Ht). total_step. split; [done|]. split; try done; rewrite ?Hs3.
    + rewrite Hb3. by apply (wi_book _ _ (within_trans _ _ _ W0 W)).
    + intros _. split; [done|]. intros _ Hg. apply Hheld; [|done]. apply Hins. by left.
    + intros y Hy Hnone Hh. apply Hst; [done|]. apply Hins. right. split; [done|].
      intros [Hs Hk]. unfold slot_key in Hk. injection Hk as _ _ Hk. rewrite <- Hk, Hnone in Hs. by destruct Hs.
Qed.
Lemma accept_total n env src e : node_ok n -> clock_ok env ->
  total (accept_event env src e) n (fun n' v => outcome src e n n' v).
Proof.
  intros K Hc.
  assert (Hno : forall why, outcome src e n n (false, why)).
  { intros why. split; try done. apply within_logged, within_refl. }
  unfold accept_event, Verified_check. destruct (ev_verify e) eqn:Hv; [|by total_step].
  total_step. eapply total_weaken; [by apply vet_total|]. intros n1 r (Hb & Href & Hfit).
  destruct r as [why|].
  - rewrite Href by done. by total_step.
  - destruct (Hfit eq_refl) as [F _]. eapply total_weaken; [eapply keep_total; [exact Hb| |done|]|].
    + destruct Hb as (b & _ & ->). exact K.
    + destruct Hb as (b & _ & ->). exact F.
    + by intros n2 v [_ H].
Qed.
End Keeps.
