(* ===== verification/Accept.v ===== *)
(** What a node promises of the events it is handed ([accept_event] of
    [crates/hit-node/src/lib.rs]), one at a time and in any number: it never
    fails, it keeps [node_ok], a refusal leaves no trace, what subscribers are
    told of is held, what goes out by gossip may be read by every member, and the
    gossip of a group is its members'.  [Overlap] has the calls that overlap. *)
From S2P Require Import Prelude Text Nostr GroupEvent Replace Perm Zap GroupState Fold FoldOrder.
From S2P Require Import Answers Binding Dm Groups EventStore StoreSpec StoreEffect Proto Node NodeSpec.

#[local] Open Scope Z_scope.

Section Accept.
Context {N : NostrTypes} {O : NostrOps} {L : NostrLaws} {J : JsonLaws}.
Context {T : DeviceTypes} {P : DeviceOps} {C : DmCrypto}.

(** ** Arrivals *)

(** Events handed to the node one after another, each at its own time and from
    wherever it came. *)
Definition Arrival : Type := Env * Source * Event.
Fixpoint accept_all (l : list Arrival) : M (list Verdict) :=
  match l with
  | [] => ret []
  | (env, src, e) :: t =>
      let* v := accept_event env src e in
      let* vs := accept_all t in ret (v :: vs)
  end.
Definition timed (l : list Arrival) : Prop := Forall (fun a => clock_ok a.1.1) l.

(** What holds of the node, and what each arrival keeps, holds to the end. *)
Lemma accept_all_total (I : Inner -> Prop) l n : timed l -> node_ok n -> I n ->
  (forall src e m m' v, outcome src e m m' v -> node_ok m -> I m -> I m') ->
  total (accept_all l) n (fun n' vs => node_ok n' /\ I n' /\ length vs = length l).
Proof.
  intros Hl. revert n. induction Hl as [|[[env src] e] l Hc Hl IH]; intros n K HI Hstep; cbn [accept_all].
  - by total_step.
  - total_step. eapply total_weaken; [by apply accept_total|]. intros n1 v Ho.
    total_step. eapply total_weaken; [apply IH; [by apply (o_ok _ _ _ _ _ Ho)|by eapply Hstep|done]|].
    intros n2 vs (K2 & HI2 & Hlen). total_step. split; [done|]. split; [done|]. cbn. by rewrite Hlen.
Qed.

(** However many events a node is handed one after another, from wherever and
    whenever, it answers each of them without an error, and what it keeps stays
    right ([node_ok]): the store's tables agree with each other, everything held
    was signed and is dated in range, the state of each group is the fold of the
    events held, and no message held is one that its author or a moderator took
    down, or a silence whose end an i64 holds. *)
Theorem accept_all_keeps l n : timed l -> node_ok n ->
  exists n' vs, accept_all l n = (n', Ok vs) /\ length vs = length l /\ node_ok n'.
Proof.
  intros Hl K. destruct (accept_all_total (fun _ => True) l n Hl K I) as (n' & vs & Hr & K' & _ & Hlen);
    [done|]. by exists n', vs.
Qed.

(** C31. A refused event leaves the node exactly as it was - nothing stored,
    no state or binding changed, nobody told - and an event the node has
    already, or has a newer version of, changes no more than the book. *)
Theorem refused_unchanged n env src e n' r : node_ok n -> clock_ok env ->
  accept_event env src e n = (n', r) ->
  exists v, r = Ok v /\ (v.1 = false -> n' = n) /\
    (v.1 = true -> v.2 <> ""%string ->
       n_store n' = n_store n /\ n_groups n' = n_groups n /\ n_log n' = n_log n).
Proof.
  intros K Hc Hr. destruct (total_run _ _ _ _ _ (accept_total n env src e K Hc) Hr) as (v & -> & Ho).
  exists v. split; [done|]. split; [apply (o_refused _ _ _ _ _ Ho)|apply (o_old _ _ _ _ _ Ho)].
Qed.

(** An event taken for new was well signed and allowed by the node's
    judgement; the subscribers were told of it; and, unless it is ephemeral,
    or a wrap that the cap on other people's wraps let go again, the node
    holds it. *)
Theorem taken_is_kept n env src e n' : node_ok n -> clock_ok env ->
  accept_event env src e n = (n', Ok (true, ""%string)) ->
  ev_verify e = true /\ is_ok (judge_here n src e (now env)) = true /\ Told e ∈ n_log n' /\
  (slot e <> Ephemeral -> ev_kind e <> GIFT_WRAP -> holds (n_store n') e).
Proof.
  intros K Hc Hr. destruct (total_run _ _ _ _ _ (accept_total n env src e K Hc) Hr) as (v & [= <-] & Ho).
  destruct (o_taken _ _ _ _ _ Ho eq_refl) as [Ht Hh].
  unfold accept_event, Verified_check in Hr. destruct (ev_verify e) eqn:Hv; [|done].
  split; [done|]. split; [|done].
  destruct (vet_total n env src e K Hc Hv) as (n1 & r & Ha & _ & _ & Hj). unfold bind in Hr. rewrite Ha in Hr.
  destruct r as [why|]; [by injection Hr|]. destruct (Hj eq_refl) as [_ [j Hjj]]. by rewrite Hjj.
Qed.

(** C24. What the node passes on by gossip it was handed here or pushed to it,
    never fetched or heard on gossip itself (so no event goes round); it is
    the very event accepted, of that group, and one that every member of the
    group may read: of a channel everyone can view, or of no channel. *)
Theorem broadcast_sound n env src e n' r : node_ok n -> clock_ok env ->
  accept_event env src e n = (n', r) ->
  exists l, n_log n' = n_log n ++ l /\
    forall g x, Broadcast g x ∈ l ->
      x = e /\ (src = Local \/ src = Push) /\ group_of e = Some g /\
      exists st, state (n_groups n') g = Some st /\
        (kind_in (ev_kind e) CHANNEL_KINDS || (ev_kind e =? VOICE_PRESENCE) = true ->
           exists c, channel_of e = Some c /\ everyone_can_view st c = true).
Proof.
  intros K Hc Hr. destruct (total_run _ _ _ _ _ (accept_total n env src e K Hc) Hr) as (v & -> & Ho).
  destruct (o_logged _ _ _ _ _ Ho) as (l & Hl & Hf). exists l. split; [done|]. intros g x Hx.
  rewrite Forall_forall in Hf. destruct (Hf _ Hx) as (-> & Hg & Hsrc). split; [done|]. split; [done|].
  unfold gossip_group in Hg. destruct (group_of e) as [g'|]; [|done].
  destruct (state (n_groups n') g') as [st|] eqn:Est; [|done].
  destruct (_ || _) eqn:Ek in Hg.
  - destruct (channel_of e) as [c|]; [|done]. cbn in Hg.
    destruct (everyone_can_view st c) eqn:Ev; [|done]. injection Hg as ->.
    split; [done|]. exists st. split; [done|]. eauto.
  - destruct (_ || _ || _ || _)%bool; [|done]. injection Hg as ->. split; [done|]. exists st. split; [done|].
    intros H. by rewrite H in Ek.
Qed.

(** ** Taken down *)

(** Their author withdrew it, or a moderator of that group and channel
    removed it. *)
Definition takes_down (d e : Event) : Prop :=
  names_id d (ev_id e) /\ deletable e = true /\
  ((ev_kind d = DELETION /\ ev_pubkey d = ev_pubkey e) \/
   (ev_kind d = DELETE_EVENT /\ same_place d e = true)).
Lemma takes_down_gone n d e : node_ok n -> takes_down d e -> holds (n_store n) d -> ~ holds (n_store n) e.
Proof.
  intros K (Hn & Hd & Hk) Hh He. destruct Hk as [[Hk Hp]|[Hk Hp]].
  - by apply (all_withdrawn K d e).
  - by apply (all_removed K d e).
Qed.
Lemma takes_down_lasts d e : takes_down d e -> lasting d /\ slot_d d = None /\ slot d <> Ephemeral.
Proof.
  intros (_ & _ & Hk).
  assert (H : ev_kind d = DELETION \/ ev_kind d = DELETE_EVENT) by (destruct Hk as [[]|[]]; auto).
  unfold lasting, slot_d, slot, deletable. destruct H as [-> | ->]; done.
Qed.

(** After a node takes a withdrawal or a removal for new, no message it
    takes down is held any more; and after it takes a ban or a mute for new,
    no message is held that a silence of the folded group covers: what the
    silenced person wrote in it, before or after, is purged. *)
Theorem taken_purges n env src x n' : node_ok n -> clock_ok env ->
  accept_event env src x n = (n', Ok (true, ""%string)) ->
  (forall e, takes_down x e -> ~ holds (n_store n') e) /\
  (forall g st y e, state (n_groups n') g = Some st -> y ∈ gs_silences st -> storable y ->
     s_who y = ev_pubkey e -> covers y (ev_created_at e) = true -> deletable e = true ->
     group_of e = Some g -> tagged e g = true -> ~ holds (n_store n') e).
Proof.
  intros K Hc Hr. destruct (total_run _ _ _ _ _ (accept_total n env src x K Hc) Hr) as (v & [= <-] & Ho).
  pose proof (o_ok _ _ _ _ _ Ho) as K'. split.
  - intros e Htd. apply (takes_down_gone n' x); [done..|]. destruct (takes_down_lasts _ _ Htd) as (Hlast & _ & Hs).
    apply (proj2 (o_taken _ _ _ _ _ Ho eq_refl)); [done|apply Hlast].
  - intros g st y e Hst Hy Hsy Hw Hcov Hd Hg Ht He.
    by rewrite (all_silent K' g st e y) in Hcov.
Qed.

(** ** The gossip gate *)

(** Every live connection of the group is of a device that speaks for a
    member now, and there is none, nor a topic, where the person of the node
    is not a member. *)
Definition gated (env : Env) (g : PublicKey) (n : Inner) : Prop :=
  (is_some_and (state (n_groups n) g) (fun s => is_member s (me n)) = false -> n_gossip n !! g = None) /\
  (forall live c, n_gossip n !! g = Some live -> c ∈ live ->
     alive env c = true /\ device_is_member n (c_device c) g (now env) = true).

Lemma emit_all_run l n : emit_all l n = (with_log (n_log n ++ l) n, Ok tt).
Proof.
  revert n. induction l as [|f l IH]; intros n; cbn [emit_all].
  - rewrite app_nil_r. by destruct n.
  - unfold bind, emit, modify. rewrite IH. cbn. by rewrite <- app_assoc.
Qed.
Definition refused_of (env : Env) (n : Inner) (g : PublicKey) (live : list Conn) : list Conn :=
  List.filter (fun c => negb (device_is_member n (c_device c) g (now env))) (List.filter (alive env) live).
Lemma gossip_revoke_run env g n live : n_gossip n !! g = Some live ->
  gossip_revoke env g (fun d => device_is_member n d g (now env)) n =
    (with_log (n_log n ++ map Closed (refused_of env n g live))
       (with_gossip (<[g := List.filter (fun c => device_is_member n (c_device c) g (now env))
                              (List.filter (alive env) live)]> (n_gossip n)) n), Ok tt).
Proof.
  intros Hl. unfold gossip_revoke, bind, get. cbn. rewrite Hl. cbn. by rewrite emit_all_run.
Qed.

(** A member's node has the topic, or asks for it. *)
Lemma gossip_start_run env g n : exists v,
  (if negb (opt_bool (n_gossip n !! g)) then gossip_start env g else ret tt) n = (with_gossip v n, Ok tt) /\
  (forall h, h <> g -> v !! h = n_gossip n !! h) /\ (subscribes env g = true -> is_Some (v !! g)) /\
  (forall live, n_gossip n !! g = Some live -> v !! g = Some live).
Proof.
  destruct (n_gossip n !! g) as [live|] eqn:El; cbn [opt_bool negb].
  - exists (n_gossip n). split; [by destruct n|]. split; [done|]. split; [by rewrite El|]. congruence.
  - unfold gossip_start, bind, get. rewrite El. cbn [opt_bool]. destruct (subscribes env g).
    + exists (<[g := []]> (n_gossip n)). split; [done|]. rewrite lookup_insert_eq.
      split; [|by eauto]. intros h Hh. by rewrite lookup_insert_ne.
    + exists (n_gossip n). split; [by destruct n|]. done.
Qed.

(** After a change to a group, the gossip of the group is its members':
    the node has a topic for it only where its own person is a member, and
    has one then unless it could not subscribe; every live connection left on
    it is of a device that speaks, now, for a member; those that no longer
    do - all of them, when the node itself is out - are closed; and the
    gossip of other groups is as it was. *)
Theorem gate_after_change env g n n' r : group_changed env g n = (n', r) ->
  r = Ok tt /\ gated env g n' /\
  n_store n' = n_store n /\ n_groups n' = n_groups n /\ n_book n' = n_book n /\
  (forall h, h <> g -> n_gossip n' !! h = n_gossip n !! h) /\
  (is_some_and (state (n_groups n) g) (fun s => is_member s (me n)) = true ->
     subscribes env g = true -> is_Some (n_gossip n' !! g)) /\
  (forall live c, n_gossip n !! g = Some live -> c ∈ live -> alive env c = true ->
     Closed c ∈ n_log n' \/ exists left, n_gossip n' !! g = Some left /\ c ∈ left).
Proof.
  unfold group_changed, bind at 1, get at 1. cbv zeta beta iota.
  destruct (is_some_and (state (n_groups n) g) (fun s => is_member s (me n))) eqn:Em; cbn [andb negb].
  - destruct (gossip_start_run env g n) as (v & Hrun & Hother & Hsub & Hkept).
    cbv zeta. cbn [negb]. unfold bind at 1. rewrite Hrun. unfold bind, get.
    destruct (v !! g) as [live|] eqn:Ev.
    + rewrite (gossip_revoke_run env g (with_gossip v n) live) by done. intros [= <- <-]. split; [done|].
      split_and!; try done; cbn [with_log with_gossip n_gossip n_log n_store n_groups n_book].
      * split; [intros Hf; change (is_some_and (state (n_groups n) g) (fun s => is_member s (me n)) = false) in Hf;
          congruence|]. cbn. intros live' c. rewrite lookup_insert_eq. intros [= <-].
        intros [[Hc Ha]%filter_elem Hd]%filter_elem. done.
      * intros h Hh. by rewrite lookup_insert_ne, Hother.
      * intros _ _. rewrite lookup_insert_eq. by eauto.
      * intros live' c Hl Hc Ha. apply Hkept in Hl. injection Hl as ->.
        destruct (device_is_member n (c_device c) g (now env)) eqn:Ed.
        { right. rewrite lookup_insert_eq. eexists. split; [done|]. by rewrite !filter_elem. }
        left. apply elem_of_app. right. apply list_elem_of_fmap. exists c. split; [done|].
        unfold refused_of. rewrite !filter_elem. split; [done|].
        change (device_is_member (with_gossip v n)) with (device_is_member n). by rewrite Ed.
    + unfold gossip_revoke, bind, get. cbn. rewrite Ev. intros [= <- <-]. split; [done|].
      split_and!; try done.
      * unfold gated. cbn. rewrite Ev. split; [done|]. by intros.
      * intros _ Hs. by apply Hsub in Hs.
      * intros live c Hl. by apply Hkept in Hl.
  - destruct (n_gossip n !! g) as [live|] eqn:El; cbn [opt_bool].
    + unfold gossip_stop, bind, get. rewrite El. cbn. rewrite emit_all_run. cbn.
      unfold gossip_revoke, bind, get. cbn. rewrite lookup_delete_eq. intros [= <- <-]. split; [done|].
      split_and!; try done; cbn.
      * unfold gated. cbn. rewrite lookup_delete_eq. done.
      * intros h Hh. by rewrite lookup_delete_ne.
      * intros live' c [= <-] Hc Ha. left. apply elem_of_app. right. apply list_elem_of_fmap_2.
        by apply filter_elem.
    + cbv zeta. unfold bind, get, ret, gossip_revoke, bind, get. cbn. rewrite El. intros [= <- <-]. split; [done|].
      split_and!; try done. unfold gated. by rewrite El.
Qed.

(** ** The same again *)
Lemma accept_held n env src e : node_ok n -> clock_ok env -> holds (n_store n) e ->
  total (accept_event env src e) n (fun n' v => n_store n' = n_store n /\ n_groups n' = n_groups n /\
    n_log n' = n_log n /\ (v.1 = false \/ v = (true, "duplicate: already have it"%string))).
Proof.
  intros K Hc Hh. unfold accept_event, Verified_check. destruct (ev_verify e) eqn:Hv.
  2: { total_step. split_and!; try done. by left. }
  total_step. eapply total_weaken; [by apply vet_total|]. intros n1 r ((b & _ & ->) & _ & _).
  destruct r as [why|]; [total_step; split_and!; try done; by left|].
  exists (with_store (n_store n) (with_book b n)), (true, "duplicate: already have it"%string).
  split; [|by split_and!; try done; right]. unfold keep, bind, get. cbn [n_store with_book].
  rewrite insert_held by (done || apply (k_wf _ _ _ _ K)). unfold lift, ret, modify. cbn [fst snd].
  rewrite consequences_old by by left. done.
Qed.

(** Handing a node again what it holds, in any order and any number of
    times, stores nothing, tells nobody and changes the state of no group:
    every answer is a refusal or says it is a duplicate.  So a state is
    folded when its events arrive, never when they are only met again. *)
Theorem held_changes_nothing l n : timed l -> node_ok n -> (forall a, a ∈ l -> holds (n_store n) a.2) ->
  exists n' vs, accept_all l n = (n', Ok vs) /\ n_store n' = n_store n /\ n_groups n' = n_groups n /\
    n_log n' = n_log n /\ forall v, v ∈ vs -> v.1 = false \/ v = (true, "duplicate: already have it"%string).
Proof.
  intros Hl. revert n. induction Hl as [|[[env src] e] l Hc Hl IH]; intros n K Hh; cbn [accept_all].
  - exists n, []. split_and!; try done. by intros v Hv%not_elem_of_nil.
  - destruct (accept_held n env src e K Hc) as (n1 & v & Hr & Hs & HG & Hlog & Hv); [apply (Hh (env, src, e)); left|].
    destruct (IH n1) as (n2 & vs & Hrs & Hs2 & HG2 & Hlog2 & Hvs).
    + unfold node_ok. by rewrite Hs, HG.
    + intros a Ha. rewrite Hs. apply Hh. by right.
    + exists n2, (v :: vs). unfold bind. rewrite Hr, Hrs. split; [done|].
      split; [congruence|]. split; [congruence|]. split; [congruence|].
      intros w [-> |Hw]%elem_of_cons; [done|by apply Hvs].
Qed.
End Accept.
