(* ===== verification/Overlap.v ===== *)
(** Calls of [accept_event] that overlap ([crates/hit-node/src/lib.rs]).

    [Node.accept_event] is the call run without a stop.  The code awaits in it,
    and other calls go on meanwhile: here it is cut at every access to what they
    share - each statement of the store, each lock of the book, the groups, the
    gossip - and [fold_lock] says which calls may be under way at once: one that
    changes its group's state has it for writing, any other of a group for
    reading, one of no group not at all.  A call may also be dropped at any
    await, as [tokio::time::timeout] drops a sync (lib.rs, [SYNC_TIMEOUT]).

    What holds however they overlap: nothing fails, what is held is signed and
    the states are the folds of it, nothing silenced is held, and what was taken
    down does not come back.  What does not: a message can be stored after the
    withdrawal that names it was applied ([NodeWitnesses.both_held]). *)
From stdpp Require Import relations.
From S2P Require Import Prelude Text Nostr GroupEvent Replace Perm Zap GroupState Fold FoldOrder.
From S2P Require Import Answers Binding Dm Groups EventStore StoreSpec StoreEffect Proto Node NodeSpec Accept.

#[local] Open Scope Z_scope.

(** ** A call that can be stopped at its awaits *)
Section Co.
Context {N : NostrTypes} {O : NostrOps} {T : DeviceTypes} {P : DeviceOps} {C : DmCrypto}.
Inductive Co (A : Type) : Type :=
| Is (a : A)
| Awaits {B : Type} (m : M B) (k : B -> Co A).
#[global] Arguments Is {A} a.
#[global] Arguments Awaits {A B} m k.
Fixpoint co_bind {A B} (c : Co A) (k : A -> Co B) : Co B :=
  match c with Is a => k a | Awaits m f => Awaits m (fun b => co_bind (f b) k) end.
Definition await {A} (m : M A) : Co A := Awaits m Is.
Definition look {A} (f : Inner -> A) : M A := let* n := get in ret (f n).
Definition asks {A} (f : EventStore.Store -> result StoreError A) : M A := let* n := get in lift (f (n_store n)).
(** Never stopped. *)
Fixpoint whole {A} (c : Co A) : M A :=
  match c with Is a => ret a | Awaits m k => bind m (fun b => whole (k b)) end.
(** To its next await; [None], it is over. *)
Definition advance {A} (c : Co A) (n : Inner) : Inner * option (result NodeError (Co A)) :=
  match c with
  | Is _ => (n, None)
  | Awaits m k => let '(n, r) := m n in (n, Some (match r with Ok b => Ok (k b) | Err e => Err e end))
  end.
End Co.
Notation "'let%' x ':=' e 'in' k" := (co_bind e (fun x => k))
  (at level 200, x pattern, e at level 200, k at level 200, right associativity).
Notation "'unless%' m 'in' k" :=
  (co_bind m (fun refused => match refused with Some why => Is (Some why) | None => k end))
  (at level 200, m at level 200, k at level 200, right associativity).
Notation "'when%' b 'then' m 'in' k" := (co_bind (if b then m else Is tt) (fun _ => k))
  (at level 200, b at level 200, m at level 200, k at level 200, right associativity).

(** ** The call *)
Section Calls.
Context {N : NostrTypes} {O : NostrOps} {T : DeviceTypes} {P : DeviceOps} {C : DmCrypto}.
#[local] Open Scope string_scope.
#[local] Open Scope Z_scope.
#[local] Open Scope list_scope.

Definition group_events_co (g : PublicKey) : Co (list Event) :=
  let% evs := await (asks (fun s => query s (fold_filter g))) in
  let% more := await (asks (fun s => query s (state_filter g))) in Is (evs ++ more).
Definition judged_co (src : Source) (e : Event) (at_ : Timestamp) : Co (option string) :=
  let% j := await (look (fun n => judge_here n src e at_)) in
  match j with
  | Err r => Is (Some ("blocked: " +:+ refusal_text r))
  | Ok Groups.Store => Is None
  | Ok (FoldWith g) =>
      let% evs := group_events_co g in
      Is (if is_some_and (fold g (evs ++ [e])) (fun st => bool_decide (ev_id e ∈ gs_applied st))
          then None else Some ("blocked: " +:+ refusal_text NotApplied))
  end.
Definition booked_co (e : Event) (at_ : Timestamp) : Co (option string) :=
  if ev_kind e =? DEVICE_BINDING then await (booked e at_) else Is None.
Definition not_withdrawn_co (e : Event) : Co (option string) :=
  if kind_in (ev_kind e) DELETABLE_KINDS then
    let% withdrawn := await (look (fun n => is_deleted (n_store n) (ev_id e) (ev_pubkey e))) in
    if (withdrawn : bool) then Is (Some "blocked: withdrawn by its author")
    else
      let% removed := await (removed_by_moderator e) in
      Is (if (removed : bool) then Some "blocked: removed by a moderator" else None)
  else Is None.
Definition too_soon_co (e : Event) : Co (option Z) :=
  match group_of e, channel_of e with
  | Some g, Some channel =>
      let% wait := await (look (fun n => match state (n_groups n) g with Some s => slowmode s channel | None => 0 end)) in
      if wait =? 0 then Is None
      else
        let% near := await (asks (fun s => query s (near_filter e g (wait - 1)))) in
        Is (if existsb (fun x => negb (bool_decide (ev_id x = ev_id e))
                                 && bool_decide (channel_of x = Some channel)) near
            then Some wait else None)
  | _, _ => Is None
  end.
Definition not_too_soon_co (e : Event) : Co (option string) :=
  if ev_kind e =? CHAT_MESSAGE then
    let% wait := too_soon_co e in
    Is (match wait with Some w => Some ("blocked: " +:+ refusal_text (TooSoon w)) | None => None end)
  else Is None.
Definition vet_co (env : Env) (src : Source) (e : Event) : Co (option string) :=
  unless% judged_co src e (now env) in
  unless% booked_co e (now env) in
  unless% not_withdrawn_co e in
  not_too_soon_co e.

Definition apply_withdrawal_co (e : Event) : Co unit :=
  let% gone := await (on_store (fun s => apply_deletion s e DELETABLE_KINDS)) in await (tell_removed gone).
Definition apply_removal_co (removal : Event) : Co unit :=
  let% held := await (asks (fun s => by_ids s (targets_of removal))) in
  let gone := map ev_id (List.filter (removable removal) held) in
  let% _ := await (on_store (fun s => (remove s gone, tt))) in await (tell_removed gone).
(** Whose failure is logged: [false], not taken by the book. *)
Definition learn_binding_co (env : Env) (b : Event) (person : PublicKey) : Co unit :=
  if negb (ev_kind b =? DEVICE_BINDING) || negb (bool_decide (ev_pubkey b = person)) then Is tt
  else if negb (ev_verify b) then Is tt
  else
    let% taken := await (fun n => match insert_binding (n_book n) b (now env) with
                                  | Ok (book, _) => (with_book book n, Ok true)
                                  | Err _ => (n, Ok false)
                                  end) in
    if (taken : bool) then
      await (attempt (let* s := asks (fun s => insert s b (now env)) in modify (with_store s.1)))
    else Is tt.
Definition opened_dm_co (env : Env) (e : Event) : Co unit :=
  let% person := await (look n_person) in
  match open_dm person e with
  | None => Is tt
  | Some d =>
      let% _ := (match dm_file d with
                 | Some f => let% _ := await (grant (f_hash f) (dm_from d)) in await (grant (f_hash f) (dm_to d))
                 | None => Is tt
                 end) in
      match dm_device d with
      | Some b => if negb (bool_decide (dm_from d = keys_public_key person)) then learn_binding_co env b (dm_from d) else Is tt
      | None => Is tt
      end
  end.
Definition kept_for_co (e : Event) : Co unit :=
  let% mine := await (look me) in
  match recipient_of e with
  | Some to =>
      if negb (bool_decide (to = mine)) then
        let% drop := await (look (fun n => over_cap INBOX_CAP_BYTES 0 (wraps_to (n_store n) to))) in
        await (on_store (fun s => (remove s drop, tt)))
      else Is tt
  | None => Is tt
  end.
Fixpoint silenced_co (g : PublicKey) (l : list Silence) : Co (list EventId) :=
  match l with
  | [] => Is []
  | x :: t =>
      let% ids := await (asks (fun s => authored_in s g (s_who x) DELETABLE_KINDS (s_from x) (s_until x))) in
      let% more := silenced_co g t in Is (ids ++ more)
  end.
Definition purge_co (g : PublicKey) : Co unit :=
  let% silences := await (look (fun n => match state (n_groups n) g with Some s => gs_silences s | None => [] end)) in
  let% gone := silenced_co g silences in
  match gone with
  | [] => Is tt
  | _ => let% _ := await (on_store (fun s => (remove s gone, tt))) in await (tell_removed gone)
  end.
Definition group_changed_co (env : Env) (g : PublicKey) : Co unit :=
  let% member := await (look (fun n => is_some_and (state (n_groups n) g) (fun s => is_member s (me n)))) in
  let% has := await (look (fun n => opt_bool (n_gossip n !! g))) in
  let% _ := (if member && negb has then await (gossip_start env g)
             else if negb member && has then await (gossip_stop env g) else Is tt) in
  await (let* n := get in gossip_revoke env g (fun d => device_is_member n d g (now env))).
Definition settle_co (env : Env) (g : PublicKey) (evs : list Event) : Co unit :=
  let% _ := await (modify (fun n => with_groups (set_state (n_groups n) g (fold g evs)) n)) in
  let% _ := group_changed_co env g in purge_co g.
Definition refold_co (env : Env) (g : PublicKey) : Co unit :=
  let% evs := group_events_co g in settle_co env g evs.

#[local] Existing Instance Stored.eq_dec.
Definition consequences_co (env : Env) (e : Event) (stored : Stored.Stored) : Co unit :=
  let new := bool_decide (stored = Stored.New) in
  let passing := bool_decide (stored = Stored.Ephemeral) in
  when% new && (ev_kind e =? DELETION) then apply_withdrawal_co e in
  when% new && (ev_kind e =? DELETE_EVENT) then apply_removal_co e in
  when% new && (ev_kind e =? GIFT_WRAP) then opened_dm_co env e in
  when% new && (ev_kind e =? GIFT_WRAP) then kept_for_co e in
  when% new && (ev_kind e =? INBOX_LIST) then
    await (modify (fun n => with_groups (set_inboxes (n_groups n) (ev_pubkey e) (inbox_npubs e)) n)) in
  when% passing && (ev_kind e =? VOICE_PRESENCE) then await (heard_voice env e) in
  when% passing && (ev_kind e =? PRESENCE) then await (heard_presence env e) in
  match group_of e with
  | Some g => if new && changes_state (ev_kind e) then refold_co env g else Is tt
  | None => Is tt
  end.
Definition pass_on_co (src : Source) (e : Event) : Co unit :=
  let% gossip_to := await (look (fun n => gossip_group (n_groups n) e)) in
  let% _ := await (emit (Told e)) in
  match gossip_to with
  | Some g =>
      if bool_decide (src = Local) || bool_decide (src = Push)
      then await (let* n := get in if opt_bool (n_gossip n !! g) then emit (Broadcast g e) else ret tt)
      else Is tt
  | None => Is tt
  end.
Definition answer_co (src : Source) (e : Event) (stored : Stored.Stored) : Co Verdict :=
  match stored with
  | Stored.New | Stored.Ephemeral => let% _ := pass_on_co src e in Is (true, "")
  | Stored.Duplicate => Is (true, "duplicate: already have it")
  | Stored.Stale => Is (true, "duplicate: a newer version replaces it")
  end.
(** [Store::insert], one transaction. *)
Definition inserting (env : Env) (e : Event) : M Stored.Stored :=
  let* r := asks (fun s => insert s e (now env)) in
  let* _ := modify (with_store r.1) in ret r.2.
Definition accept_co (env : Env) (src : Source) (e : Event) : Co Verdict :=
  match Verified_check e with
  | Err _ => Is (false, "invalid: bad id or signature")
  | Ok e =>
      let% refused := vet_co env src e in
      match refused with
      | Some why => Is (false, why)
      | None =>
          let% stored := await (inserting env e) in
          let% _ := consequences_co env e stored in
          answer_co src e stored
      end
  end.
(** One group of [refold_if_changed]. *)
Definition refold_one_co (env : Env) (g : PublicKey) : Co unit :=
  let% evs := group_events_co g in
  let% seen := await (look (fun n => n_folded n !! g)) in
  if bool_decide (seen = Some (length evs)) then Is tt
  else
    let% _ := await (modify (fun n => with_folded (<[g := length evs]> (n_folded n)) n)) in
    if negb (opt_bool seen) then Is tt else settle_co env g evs.

(** ** Who may be under way with whom *)
Inductive Lock := Writes (g : PublicKey) | Reads | NoLock.
Definition lock_of (e : Event) : Lock :=
  match group_of e with
  | Some g => if changes_state (ev_kind e) then Writes g else Reads
  | None => NoLock
  end.
Record Handling := mkHandling { h_lock : Lock; h_event : option Event; h_rest : Co Verdict }.
(** The lock is to be had: for writing with nobody in, for reading with no writer in. *)
Definition free_for (l : Lock) (calls : gmap nat Handling) : Prop :=
  forall i h, calls !! i = Some h ->
    match l with
    | Writes _ => h_lock h = NoLock
    | Reads => forall g, h_lock h <> Writes g
    | NoLock => True
    end.
(** The node, the calls under way, and the groups a call that changes them was
    dropped in. *)
Record World := mkWorld { w_node : Inner; w_calls : gmap nat Handling; w_cut : list PublicKey }.
Definition cut_of (l : Lock) : list PublicKey := match l with Writes g => [g] | _ => [] end.
(** Begun, with the lock had; [known], the events there are. *)
Inductive overlaps (known : Event -> Prop) : World -> World -> Prop :=
| o_begins i env src e w : w_calls w !! i = None -> clock_ok env -> known e -> free_for (lock_of e) (w_calls w) ->
    overlaps known w (mkWorld (w_node w) (<[i := mkHandling (lock_of e) (Some e) (accept_co env src e)]> (w_calls w)) (w_cut w))
| o_refolds i env g w : w_calls w !! i = None -> free_for (Writes g) (w_calls w) ->
    overlaps known w (mkWorld (w_node w)
      (<[i := mkHandling (Writes g) None (let% _ := refold_one_co env g in Is (true, ""))]> (w_calls w)) (w_cut w))
| o_goes_on i h n c w : w_calls w !! i = Some h -> advance (h_rest h) (w_node w) = (n, Some (Ok c)) ->
    overlaps known w (mkWorld n (<[i := mkHandling (h_lock h) (h_event h) c]> (w_calls w)) (w_cut w))
| o_ends i h v w : w_calls w !! i = Some h -> h_rest h = Is v ->
    overlaps known w (mkWorld (w_node w) (delete i (w_calls w)) (w_cut w))
| o_dropped i h w : w_calls w !! i = Some h ->
    overlaps known w (mkWorld (w_node w) (delete i (w_calls w)) (cut_of (h_lock h) ++ w_cut w)).
End Calls.

(** ** A call nobody interrupts is [Node.accept_event] *)
Section Uninterrupted.
Context {N : NostrTypes} {O : NostrOps} {T : DeviceTypes} {P : DeviceOps} {C : DmCrypto}.
Lemma bind_same {A B} (m m' : M A) (k k' : A -> M B) n :
  m n = m' n -> (forall a n', k a n' = k' a n') -> bind m k n = bind m' k' n.
Proof. intros Hm Hk. unfold bind. rewrite Hm. destruct (m' n) as [n' [a|]]; [apply Hk|done]. Qed.
Lemma whole_bind {A B} (c : Co A) (k : A -> Co B) n : whole (co_bind c k) n = bind (whole c) (fun a => whole (k a)) n.
Proof.
  revert n. induction c as [a|D m f IH]; intros n; cbn; [done|]. unfold bind. destruct (m n) as [n' [b|]]; [|done]. by rewrite IH.
Qed.
Lemma whole_await {A} (m : M A) n : whole (await m) n = m n.
Proof. cbn. unfold bind. by destruct (m n) as [n' []]. Qed.
Lemma whole_asks {A B} (f : EventStore.Store -> result StoreError A) (k : A -> M B) n :
  bind (asks f) k n = (let* a := lift (f (n_store n)) in k a) n.
Proof. unfold asks, bind, get. by destruct (f (n_store n)). Qed.
Lemma whole_if {A} (b : bool) (c d : Co A) n : whole (if b then c else d) n = (if b then whole c else whole d) n.
Proof. by destruct b. Qed.
Lemma bind_look {A B} (f : Inner -> A) (k : A -> M B) n : bind (look f) k n = k (f n) n.
Proof. done. Qed.

Lemma whole_first {A B} (m : M A) (k : A -> Co B) n : whole (co_bind (await m) k) n = bind m (fun a => whole (k a)) n.
Proof. done. Qed.
Lemma asks_run {A} (f : EventStore.Store -> result StoreError A) n :
  asks f n = (n, match f (n_store n) with Ok a => Ok a | Err e => Err (StoreFailed e) end).
Proof. unfold asks, bind, get, lift. by destruct (f (n_store n)). Qed.
Lemma bind_get {A} (k : Inner -> M A) n : bind get k n = k n n.
Proof. done. Qed.
Lemma whole_group_events g n : whole (group_events_co g) n = lift (group_events (n_store n) g) n.
Proof.
  unfold group_events_co, group_events. rewrite whole_first. unfold bind. rewrite asks_run.
  destruct (query (n_store n) (fold_filter g)) as [a|]; [|done]. cbv beta iota. rewrite whole_first. unfold bind. rewrite asks_run.
  by destruct (query (n_store n) (state_filter g)).
Qed.
Lemma whole_judged src e at_ n : whole (judged_co src e at_) n = judged src e at_ n.
Proof.
  unfold judged_co, judged. rewrite whole_first, bind_look. rewrite bind_get.
  destruct (judge_here n src e at_) as [[|g]|r]; [done| |done]. rewrite whole_bind. unfold bind. rewrite whole_group_events.
  unfold fold_applies, lift. by destruct (group_events (n_store n) g).
Qed.
Lemma whole_booked e at_ n : whole (booked_co e at_) n = booked e at_ n.
Proof. unfold booked_co. destruct (_ =? _) eqn:E; [by rewrite whole_await|unfold booked; by rewrite E]. Qed.
Lemma whole_not_withdrawn e n : whole (not_withdrawn_co e) n = not_withdrawn e n.
Proof.
  unfold not_withdrawn_co, not_withdrawn. destruct (kind_in _ _); [|done]. rewrite whole_first, bind_look.
  rewrite bind_get. destruct (is_deleted _ _ _); [done|]. rewrite whole_first. by apply bind_same.
Qed.
Lemma whole_not_too_soon e n : whole (not_too_soon_co e) n = not_too_soon e n.
Proof.
  unfold not_too_soon_co, not_too_soon. destruct (_ =? _); [|done]. rewrite whole_bind. apply bind_same; [|done].
  unfold too_soon_co, too_soon. destruct (group_of e) as [g|]; [|done]. destruct (channel_of e) as [c|]; [|done].
  rewrite whole_first, bind_look. unfold bind at 1, get at 1. cbv beta iota zeta. destruct (_ =? 0); [done|].
  rewrite whole_first. apply bind_same; [|done]. rewrite asks_run. by destruct (query _ _).
Qed.
Lemma whole_vet env src e n : whole (vet_co env src e) n = vet env src e n.
Proof.
  unfold vet_co, vet. rewrite whole_bind. apply bind_same; [apply whole_judged|]. intros [why|] n1; [done|].
  rewrite whole_bind. apply bind_same; [apply whole_booked|]. intros [why|] n2; [done|].
  rewrite whole_bind. apply bind_same; [apply whole_not_withdrawn|]. intros [why|] n3; [done|]. apply whole_not_too_soon.
Qed.
Lemma whole_withdrawal e n : whole (apply_withdrawal_co e) n = apply_withdrawal e n.
Proof. unfold apply_withdrawal_co. rewrite whole_bind. apply bind_same; [apply whole_await|]. intros a n1. apply whole_await. Qed.
Lemma whole_removal e n : whole (apply_removal_co e) n = apply_removal e n.
Proof.
  unfold apply_removal_co, apply_removal. rewrite whole_first. rewrite bind_get.
  apply bind_same; [rewrite asks_run; by destruct (by_ids _ _)|]. intros held n1. cbv zeta. rewrite whole_first.
  apply bind_same; [done|]. intros [] n2. apply whole_await.
Qed.
Lemma whole_learn env b p n : whole (learn_binding_co env b p) n = attempt (learn_binding env b p) n.
Proof.
  unfold learn_binding_co, attempt, learn_binding. destruct (negb _ || _); [done|]. destruct (negb _); [done|].
  rewrite whole_first, bind_get. unfold bind at 1. destruct (insert_binding _ _ _) as [[book r]|]; [|done]. cbv beta iota.
  by rewrite whole_await.
Qed.
Lemma whole_opened env e n : whole (opened_dm_co env e) n = opened_dm env e n.
Proof.
  unfold opened_dm_co, opened_dm. rewrite whole_first, bind_look. rewrite bind_get.
  destruct (open_dm _ e) as [d|]; [|done]. rewrite whole_bind. apply bind_same.
  - destruct (dm_file d) as [f|]; [|done]. rewrite whole_first. apply bind_same; [done|]. intros [] n1. apply whole_await.
  - intros [] n1. destruct (dm_device d); [|done]. unfold me. destruct (negb _); [apply whole_learn|done].
Qed.
Lemma whole_kept e n : whole (kept_for_co e) n = kept_for e n.
Proof.
  unfold kept_for_co, kept_for. rewrite whole_first, bind_look. rewrite bind_get.
  destruct (recipient_of e) as [to|]; [|done]. destruct (negb _); [|done]. rewrite whole_first, bind_look, whole_await. done.
Qed.
Lemma whole_silenced g l n : whole (silenced_co g l) n = lift (silenced_ids (n_store n) g l) n.
Proof.
  induction l as [|x l IH]; [done|]. cbn [silenced_co silenced_ids]. rewrite whole_first. unfold bind at 1. rewrite asks_run.
  destruct (authored_in _ _ _ _ _ _) as [ids|]; [|done]. cbv beta iota. rewrite whole_bind. unfold bind. rewrite IH. unfold lift.
  by destruct (silenced_ids _ _ _).
Qed.
Lemma whole_purge g n : whole (purge_co g) n = purge_silenced g n.
Proof.
  unfold purge_co, purge_silenced. rewrite whole_first, bind_look. rewrite bind_get. cbv zeta. rewrite whole_bind.
  apply bind_same; [apply whole_silenced|]. intros [|i gone] n1; [done|]. rewrite whole_first. apply bind_same; [done|]. intros [] n2. apply whole_await.
Qed.
Lemma whole_group_changed env g n : whole (group_changed_co env g) n = group_changed env g n.
Proof.
  unfold group_changed_co, group_changed. rewrite whole_first, bind_look, whole_first, bind_look. rewrite bind_get. cbv zeta.
  rewrite whole_bind. apply bind_same; [|intros [] n1; apply whole_await].
  destruct (_ && _); [apply whole_await|]. destruct (_ && _); [apply whole_await|done].
Qed.
Lemma whole_settle env g evs n : whole (settle_co env g evs) n =
  (let* _ := modify (fun n => with_groups (set_state (n_groups n) g (fold g evs)) n) in
   let* _ := group_changed env g in purge_silenced g) n.
Proof.
  unfold settle_co. rewrite whole_first. apply bind_same; [done|]. intros [] n1. rewrite whole_bind.
  apply bind_same; [apply whole_group_changed|]. intros [] n2. apply whole_purge.
Qed.
Lemma whole_refold env g n : whole (refold_co env g) n = refold env g n.
Proof.
  unfold refold_co, refold. rewrite whole_bind. rewrite bind_get. unfold bind at 1 2. rewrite whole_group_events.
  destruct (lift (group_events (n_store n) g) n) as [n1 [evs|]] eqn:E; [|done]. rewrite whole_settle.
  unfold lift in E. destruct (group_events _ _); [|done]. by injection E as <- <-.
Qed.
Lemma whole_when {B} (b : bool) (c : Co unit) (m : M unit) (k : Co B) (k' : M B) n :
  (forall n, whole c n = m n) -> (forall n, whole k n = k' n) -> whole (when% b then c in k) n = (when b then m in k') n.
Proof. intros Hc Hk. rewrite whole_bind. apply bind_same; [by destruct b|]. intros [] n1. apply Hk. Qed.
Lemma whole_consequences env e stored n : whole (consequences_co env e stored) n = consequences env e stored n.
Proof.
  unfold consequences_co, consequences. cbv zeta.
  apply whole_when; [apply whole_withdrawal|intros ?]. apply whole_when; [apply whole_removal|intros ?].
  apply whole_when; [apply whole_opened|intros ?]. apply whole_when; [apply whole_kept|intros ?].
  do 3 (apply whole_when; [intros ?; apply whole_await|intros ?]).
  destruct (group_of e); [|done]. destruct (_ && _); [apply whole_refold|done].
Qed.
Lemma whole_pass_on src e n : whole (pass_on_co src e) n = pass_on src e n.
Proof.
  unfold pass_on_co, pass_on. rewrite whole_first, bind_look. rewrite bind_get. rewrite whole_first.
  unfold bind at 1 2, emit at 1 3, modify at 1 2. cbv beta iota. destruct (gossip_group _ e); [|done]. destruct (_ || _); [|done]. by rewrite whole_await.
Qed.
Lemma inserting_run env e n : inserting env e n = match insert (n_store n) e (now env) with
  | Ok r => (with_store r.1 n, Ok r.2) | Err x => (n, Err (StoreFailed x)) end.
Proof. unfold inserting, bind. rewrite asks_run. by destruct (insert (n_store n) e (now env)). Qed.
(** Run alone and to its end, the call is the one of [Node]. *)
Theorem uninterrupted env src e n : whole (accept_co env src e) n = accept_event env src e n.
Proof.
  unfold accept_co, accept_event. destruct (Verified_check e) as [e'|]; [|done]. rewrite whole_bind. apply bind_same; [apply whole_vet|].
  intros [why|] n1; [done|]. rewrite whole_first. unfold keep. rewrite bind_get. unfold bind at 1. rewrite inserting_run.
  destruct (insert (n_store n1) e' (now env)) as [[s stored]|]; [|done]. rewrite whole_bind.
  change (bind (whole (consequences_co env e' stored)) (fun _ => whole (answer_co src e' stored)) (with_store s n1) =
    bind (consequences env e' stored) (fun _ => answer src e' stored) (with_store s n1)).
  apply bind_same; [apply whole_consequences|]. intros [] n2. unfold answer_co, answer.
  destruct stored; [|done|done|]; rewrite whole_bind; (apply bind_same; [apply whole_pass_on|done]).
Qed.
End Uninterrupted.
