(* ===== verification/OverlapSpec.v ===== *)
(** What holds however the calls of [Overlap] overlap: each is proved against
    what the others may do meanwhile ([rely]) and keeps what they rely on
    ([guar]).  A call that only reads under the lock, or has none, leaves every
    group's state and every event the fold reads alone, and stores no message
    the states silence; one that writes does, but for its own group. *)
From stdpp Require Import relations.
From S2P Require Import Prelude Text Nostr GroupEvent Replace Perm Zap GroupState Fold FoldOrder.
From S2P Require Import Answers Binding Dm Groups EventStore StoreSpec StoreEffect Proto Node NodeSpec Accept Overlap.

#[local] Open Scope Z_scope.

Section Relies.
Context {N : NostrTypes} {O : NostrOps} {L : NostrLaws} {J : JsonLaws}.
Context {T : DeviceTypes} {P : DeviceOps} {C : DmCrypto}.
(** The events there are, and no two kinds of them with one id. *)
Context (known : Event -> Prop).
Definition one_kind : Prop := forall x y, known x -> known y -> ev_id x = ev_id y -> ev_kind x = ev_kind y.

(** What holds of the store at every step. *)
Record tidy (n : Inner) : Prop := {
  b_wf : store_wf (n_store n);
  b_dated : dated_ok (n_store n);
  b_signed e : holds (n_store n) e -> ev_verify e = true;
  b_known e : holds (n_store n) e -> known e \/ ev_kind e = DEVICE_BINDING;
}.
Definition unsilenced (S : PublicKey -> Prop) (n : Inner) (e : Event) : Prop := forall g st x, ~ S g ->
  group_of e = Some g -> state (n_groups n) g = Some st -> x ∈ gs_silences st ->
  s_who x = ev_pubkey e -> covers x (ev_created_at e) = false.
(** Every group but those of [S] is as it was, and nothing came that it silences. *)
Record apart (S : PublicKey -> Prop) (n n' : Inner) : Prop := {
  a_states g : ~ S g -> state (n_groups n') g = state (n_groups n) g;
  a_new e : holds (n_store n') e -> holds (n_store n) e \/
    ((forall g, ~ S g -> fold_event g e = false) /\ (deletable e = true -> unsilenced S n e));
  a_lost e g : ~ S g -> fold_event g e = true -> holds (n_store n) e -> holds (n_store n') e;
}.
Definition lasts (n n' : Inner) : Prop := forall d, lasting d -> slot_d d = None -> holds (n_store n) d -> holds (n_store n') d.
Definition adds (X : Event -> Prop) (n n' : Inner) : Prop := forall e,
  holds (n_store n') e -> holds (n_store n) e \/ X e \/ ev_kind e = DEVICE_BINDING.
(** What a call under the lock [l] may count on. *)
Definition rely (l : Lock) (n n' : Inner) : Prop := (l <> NoLock -> apart nothing n n') /\ lasts n n'.
(** What one promises that changes only groups of [S] and stores only [X]. *)
Record guar (S : PublicKey -> Prop) (X : Event -> Prop) (n n' : Inner) : Prop := {
  gu_apart : apart S n n';
  gu_lasts : lasts n n';
  gu_adds : adds X n n';
}.
(** The state of [g] is the fold of what is held, and nothing held is silenced by it. *)
Definition folded (g : PublicKey) (n : Inner) : Prop := forall st, state (n_groups n) g = Some st -> folded_from (n_store n) g st.
Definition clear (g : PublicKey) (n : Inner) : Prop := forall st e x, state (n_groups n) g = Some st ->
  holds (n_store n) e -> deletable e = true -> group_of e = Some g -> tagged e g = true ->
  x ∈ gs_silences st -> storable x -> s_who x = ev_pubkey e -> covers x (ev_created_at e) = false.
Definition settled (g : PublicKey) (n : Inner) : Prop := folded g n /\ clear g n.

Lemma apart_refl S n : apart S n n.
Proof. split; auto. Qed.
Lemma apart_trans S n1 n2 n3 : apart S n1 n2 -> apart S n2 n3 -> apart S n1 n3.
Proof.
  intros A B. split.
  - intros g Hg. by rewrite (a_states _ _ _ B), (a_states _ _ _ A).
  - intros e [He|[Hf Hu]]%(a_new _ _ _ B); [by apply (a_new _ _ _ A)|]. right. split; [done|]. intros Hd g st x Hg Hge Hst.
    apply (Hu Hd g st x Hg Hge). by rewrite (a_states _ _ _ A).
  - intros e g Hg Hf He. by apply (a_lost _ _ _ B e g), (a_lost _ _ _ A e g).
Qed.
Lemma apart_weaken (S S' : PublicKey -> Prop) n n' : (forall g, S g -> S' g) -> apart S n n' -> apart S' n n'.
Proof.
  intros HS A. split.
  - intros g Hg. apply (a_states _ _ _ A). auto.
  - intros e [He|[Hf Hu]]%(a_new _ _ _ A); [by left|]. right. split; [auto|]. intros Hd g st x Hg. apply (Hu Hd). auto.
  - intros e g Hg. apply (a_lost _ _ _ A). auto.
Qed.
Lemma folded_apart S g n n' : ~ S g -> tidy n -> tidy n' -> apart S n n' -> folded g n -> folded g n'.
Proof.
  intros Hg Bn Bn' A Hf st. rewrite (a_states _ _ _ A) by done. intros Hst.
  apply (folded_same (n_store n)); [apply Bn|apply Bn'| |by apply Hf].
  intros e He. split; [by apply (a_lost _ _ _ A e g)|]. intros [?|[Hn _]]%(a_new _ _ _ A); [done|]. by rewrite Hn in He.
Qed.
Lemma clear_apart S g n n' : ~ S g -> apart S n n' -> clear g n -> clear g n'.
Proof.
  intros Hg A Hs st e x. rewrite (a_states _ _ _ A) by done. intros Hst [He|[_ Hu]]%(a_new _ _ _ A) Hd Hge Ht Hx Hsx Hw.
  - by apply (Hs st e x).
  - by apply (Hu Hd g st x).
Qed.
Lemma settled_apart S g n n' : ~ S g -> tidy n -> tidy n' -> apart S n n' -> settled g n -> settled g n'.
Proof. intros Hg Bn Bn' A [Hf Hs]. split; [by apply (folded_apart S g n n')|by apply (clear_apart S g n n')]. Qed.
Lemma rely_refl l n : rely l n n.
Proof. split; [intros _; apply apart_refl|by intros d]. Qed.
Lemma rely_trans l n1 n2 n3 : rely l n1 n2 -> rely l n2 n3 -> rely l n1 n3.
Proof.
  intros [A B] [A' B']. split; [intros Hl; eapply apart_trans; auto|]. intros d H1 H2 H. by apply B', B.
Qed.
Lemma guar_weaken (S S' : PublicKey -> Prop) (X X' : Event -> Prop) n n' :
  (forall g, S g -> S' g) -> (forall e, X e -> X' e) -> guar S X n n' -> guar S' X' n n'.
Proof.
  intros HS HX [A B D]. split; [by eapply apart_weaken|done|]. intros e [?|[?|?]]%D; auto.
Qed.
Lemma quiet_guar S X n n' : tidy n -> quiet (n_store n) (n_store n') ->
  (forall g, state (n_groups n') g = state (n_groups n) g) -> tidy n' /\ guar S X n n'.
Proof.
  intros B Q Hst. assert (Hdel : forall e, ev_kind e = DEVICE_BINDING -> deletable e = true -> False).
  { intros e Hk [Hd|Hd]%deletable_kinds; by rewrite Hd in Hk. }
  split; [split|split; [split| |]].
  - apply Q.
  - intros e [He|(_ & _ & He)]%(q_new _ _ Q); [by apply B|done].
  - intros e [He|(_ & He & _)]%(q_new _ _ Q); [by apply B|done].
  - intros e [He|(He & _ & _)]%(q_new _ _ Q); [by apply B|by right].
  - intros g _. apply Hst.
  - intros e [He|(Hk & _)]%(q_new _ _ Q); [by left|]. right. split.
    + intros g _. destruct (fold_event g e) eqn:E; [|done]. by apply fold_event_kinds in E as [? _].
    + intros Hd. by apply Hdel in Hd.
  - intros e g _ (H1 & H2 & H3)%fold_event_kinds He. apply (q_lost _ _ Q) in He as [?|[?|[?|?]]]; [done|done|done|congruence].
  - intros d Hd _. by apply (quiet_stays _ _ Q).
  - intros e [He|(Hk & _)]%(q_new _ _ Q); [by left|by right; right].
Qed.
Lemma quietly_guar S X n n' : tidy n -> quietly n n' -> tidy n' /\ guar S X n n'.
Proof. intros B (_ & Q & Hst). by apply quiet_guar. Qed.
Lemma still_guar S X n n' : tidy n -> still n n' -> tidy n' /\ guar S X n n'.
Proof. intros B Hs. apply quietly_guar; [done|]. by apply quietly_still; [apply B|]. Qed.

(** ** A call, step by step *)
#[global] Instance lock_eq_dec : EqDecision Lock.
Proof. solve_decision. Defined.
Section Along.
Context (l : Lock).
(** [c] never fails: each step of it, from whatever the others left, keeps its
    promise; and what it answers is [Q]. *)
Fixpoint along {A} (S : PublicKey -> Prop) (X : Event -> Prop) (Q : Inner -> A -> Prop) (c : Co A) (n : Inner) : Prop :=
  match c with
  | Is a => forall n', tidy n' -> rely l n n' -> Q n' a
  | Awaits m k => forall n', tidy n' -> rely l n n' ->
      total m n' (fun n2 b => (tidy n2 /\ guar S X n' n2) /\ along S X Q (k b) n2)
  end.
Lemma along_rely {A} S X Q (c : Co A) n n' : along S X Q c n -> rely l n n' -> along S X Q c n'.
Proof. intros H R. destruct c; intros n2 B2 R2; apply H; try done; by eapply rely_trans. Qed.
Lemma along_is {A} S X (Q : Inner -> A -> Prop) a n : (forall n', tidy n' -> rely l n n' -> Q n' a) -> along S X Q (Is a) n.
Proof. done. Qed.
Lemma along_weaken {A} (S S' : PublicKey -> Prop) (X X' : Event -> Prop) (Q Q' : Inner -> A -> Prop) c n :
  (forall g, S g -> S' g) -> (forall e, X e -> X' e) -> (forall n' a, tidy n' -> Q n' a -> Q' n' a) ->
  along S X Q c n -> along S' X' Q' c n.
Proof.
  intros HS HX HQ. revert n. induction c as [a|D m k IH]; intros n H n' B R.
  - apply HQ; [done|by apply H].
  - eapply total_weaken; [by apply H|]. intros n2 b [[B2 G] Hk]. split; [split; [done|by eapply guar_weaken]|by apply IH].
Qed.
Lemma along_bind {A D} S X Q (c : Co A) (k : A -> Co D) n : tidy n ->
  along S X (fun n' a => along S X Q (k a) n') c n -> along S X Q (co_bind c k) n.
Proof.
  revert n. induction c as [a|E m f IH]; intros n B H; cbn.
  - apply H; [done|apply rely_refl].
  - intros n' B' R. eapply total_weaken; [by apply H|]. intros n2 b [[B2 G] Hk]. split; [done|by apply IH].
Qed.
(** Where one changes no group itself, all that happened meanwhile was to be relied on. *)
Lemma along_frame {A} X Q (c : Co A) n : along nothing X Q c n ->
  along nothing X (fun n' a => rely l n n' /\ Q n' a) c n.
Proof.
  enough (H : forall n0, rely l n0 n -> along nothing X Q c n -> along nothing X (fun n' a => rely l n0 n' /\ Q n' a) c n)
    by apply H, rely_refl.
  revert n. induction c as [a|D m k IH]; intros n n0 R0 H n' B R.
  - split; [by eapply rely_trans|by apply H].
  - eapply total_weaken; [by apply H|]. intros n2 b [[B2 G] Hk]. split; [done|]. apply IH; [|done].
    eapply rely_trans; [done|]. eapply rely_trans; [exact R|]. split; [intros _|]; apply G.
Qed.
(** One step. *)
Lemma along_step {A D} S X (Q : Inner -> D -> Prop) (m : M A) (k : A -> Co D) n :
  (forall n', tidy n' -> rely l n n' -> total m n' (fun n2 b => (tidy n2 /\ guar S X n' n2) /\ along S X Q (k b) n2)) ->
  along S X Q (co_bind (await m) k) n.
Proof. done. Qed.
Lemma along_await {A} S X (Q : Inner -> A -> Prop) (m : M A) n :
  (forall n', tidy n' -> rely l n n' -> total m n' (fun n2 b => (tidy n2 /\ guar S X n' n2) /\
     forall n3, tidy n3 -> rely l n2 n3 -> Q n3 b)) -> along S X Q (await m) n.
Proof. done. Qed.
Lemma still_here S X n : tidy n -> tidy n /\ guar S X n n.
Proof. intros B. by apply still_guar, still_refl. Qed.
Lemma along_look {A D} S X (Q : Inner -> D -> Prop) (f : Inner -> A) (k : A -> Co D) n :
  (forall n', tidy n' -> rely l n n' -> along S X Q (k (f n')) n') -> along S X Q (co_bind (await (look f)) k) n.
Proof.
  intros H. apply along_step. intros n' B R. exists n', (f n'). split; [done|]. split; [by apply still_here|by apply H].
Qed.
Lemma along_asks {A D} S X (Q : Inner -> D -> Prop) (f : EventStore.Store -> result StoreError A) (k : A -> Co D) n :
  (forall n', tidy n' -> rely l n n' -> exists a, f (n_store n') = Ok a /\ along S X Q (k a) n') ->
  along S X Q (co_bind (await (asks f)) k) n.
Proof.
  intros H. apply along_step. intros n' B R. destruct (H n' B R) as (a & Ha & Hk). exists n', a. split; [|split; [by apply still_here|done]].
  by rewrite asks_run, Ha.
Qed.
Lemma along_true {A} S X (m : M A) n : (forall n', tidy n' -> total m n' (fun n2 _ => still n' n2)) ->
  along S X (fun _ _ => True) (await m) n.
Proof.
  intros H. apply along_await. intros n' B R. eapply total_weaken; [by apply H|]. intros n2 a Hs. split; [by apply still_guar|done].
Qed.
Lemma along_quietly {A} S X (m : M A) n : (forall n', tidy n' -> total m n' (fun n2 _ => quietly n' n2)) ->
  along S X (fun _ _ => True) (await m) n.
Proof.
  intros H. apply along_await. intros n' B R. eapply total_weaken; [by apply H|]. intros n2 a Hs. split; [by apply quietly_guar|done].
Qed.
(** First something that changes no group, then the rest. *)
Lemma along_seq {A D} S X (Q' : Inner -> A -> Prop) (Q : Inner -> D -> Prop) (c : Co A) (k : A -> Co D) n : tidy n ->
  along nothing X Q' c n -> (forall n' a, tidy n' -> rely l n n' -> Q' n' a -> along S X Q (k a) n') ->
  along S X Q (co_bind c k) n.
Proof.
  intros B H Hk. apply along_bind; [done|]. eapply along_weaken; [| | |exact (along_frame _ _ _ _ H)]; [done|done|].
  intros n' a B' [R HQ]. by apply Hk.
Qed.
Lemma along_then {A D} S X (Q : Inner -> D -> Prop) (c : Co A) (k : A -> Co D) n : tidy n ->
  along nothing X (fun _ _ => True) c n -> (forall n' a, tidy n' -> rely l n n' -> along S X Q (k a) n') ->
  along S X Q (co_bind c k) n.
Proof. intros B H Hk. eapply along_seq; [done|exact H|]. intros n' a B' R _. by apply Hk. Qed.
Lemma along_when {A} S X (Q : Inner -> A -> Prop) (b : bool) (c : Co unit) (k : Co A) n : tidy n ->
  (b = true -> along nothing X (fun _ _ => True) c n) -> (forall n', tidy n' -> rely l n n' -> along S X Q k n') ->
  along S X Q (when% b then c in k) n.
Proof. intros B H Hk. apply along_then; [done| |by intros n' []; apply Hk]. destruct b; [by apply H|done]. Qed.
End Along.

(** ** What is asked before the insert *)
Section Asked.
Context (l : Lock) (X : Event -> Prop).
Lemma same_fold n n' g e : apart nothing n n' -> fold_event g e = true -> holds (n_store n) e <-> holds (n_store n') e.
Proof.
  intros A He. split; [apply (a_lost _ _ _ A e g); [by intros []|done]|].
  intros [?|[Hn _]]%(a_new _ _ _ A); [done|]. rewrite (Hn g) in He; [done|by intros []].
Qed.
Lemma along_group_events g n : tidy n ->
  along l nothing X (fun n' evs => l <> NoLock -> forall st, fold g evs = Some st -> folded_from (n_store n') g st) (group_events_co g) n.
Proof.
  intros B. unfold group_events_co. apply along_asks. intros n1 B1 _.
  destruct (group_events_spec (n_store n1) g (b_wf _ B1)) as (a1 & b1 & Ha1 & _ & _ & Na1 & _ & Ia1 & _). exists a1. split; [done|].
  apply along_asks. intros n2 B2 R2.
  destruct (group_events_spec (n_store n2) g (b_wf _ B2)) as (a2 & b2 & _ & Hb2 & _ & _ & Nb2 & _ & Ib2). exists b2. split; [done|].
  apply along_is. intros n3 B3 R3 Hl st Hst.
  destruct (group_events_spec (n_store n3) g (b_wf _ B3)) as (a3 & b3 & _ & _ & Hev & Na3 & Nb3 & Ia3 & Ib3).
  exists (a3 ++ b3). split; [done|]. rewrite <- Hst. symmetry.
  assert (A3 : apart nothing n2 n3) by by apply R3. assert (A2 : apart nothing n1 n3) by (eapply apart_trans; [by apply R2|done]).
  rewrite (fold_relevant g (a1 ++ b2)), (fold_relevant g (a3 ++ b3)), !List.filter_app. apply fold_perm.
  - assert (Hh : forall x, x ∈ List.filter (fold_event g) a1 ++ List.filter (fold_event g) b2 -> holds (n_store n3) x).
    { intros x [[Hx Hf]%filter_elem|[Hx Hf]%filter_elem]%elem_of_app.
      - apply Ia1 in Hx as [Hx _]. by apply (same_fold n1 n3 g).
      - apply Ib2 in Hx as [Hx _]. by apply (same_fold n2 n3 g). }
    intros x y Hx Hy. apply (holds_same_id (n_store n3)); [apply B3|auto..].
  - f_equiv; apply NoDup_Permutation; try (by apply nodup_filter); intros e; rewrite !filter_elem, ?Ia1, ?Ia3, ?Ib2, ?Ib3.
    + split; intros [[H1 H2] H3]; (split; [|done]); (split; [|done]); by apply (same_fold n1 n3 g).
    + split; intros [[H1 H2] H3]; (split; [|done]); (split; [|done]); by apply (same_fold n2 n3 g).
Qed.
End Asked.

(** Fit to be stored, as far as the groups tell. *)
Definition vetted (e : Event) (n : Inner) : Prop :=
  placed e /\ 0 <= ev_created_at e <= I64_MAX /\ (deletable e = true -> lock_of e = Reads /\ unsilenced nothing n e).
Lemma vetted_apart e n n' : (lock_of e <> NoLock -> apart nothing n n') -> vetted e n -> vetted e n'.
Proof.
  intros A (H1 & H2 & H3). split; [done|]. split; [done|]. intros Hd. destruct (H3 Hd) as [Hl Hu]. split; [done|].
  intros g st x Hg Hge Hst. apply (Hu g st x Hg Hge). rewrite <- (a_states nothing n n'); [done|apply A; by rewrite Hl|by intros []].
Qed.
Lemma judge_vets n src e env j : ev_verify e = true -> clock_ok env -> judge_here n src e (now env) = Ok j -> vetted e n.
Proof.
  intros Hv [Hn0 Hn] Ej. pose proof (judge_here_ok _ _ _ _ _ Ej) as Hj. split; [|split].
  - destruct Hj as [Hj|(_ & Hj & _)]; [by eapply judge_placed|by right].
  - split; [by apply verified_time|].
    assert (Hd : ev_created_at e <= ts_add (now env) MAX_CLOCK_SKEW)
      by (eapply judge_dated; [reflexivity|]; destruct Hj as [Hj|[Hj _]]; eauto).
    rewrite ts_add_exact in Hd by (unfold MAX_CLOCK_SKEW, I64_MAX, U64_MAX in *; lia). lia.
  - intros Hd. destruct Hj as [Hj|(_ & Hj & _)]; [|by apply deletable_kinds in Hd as [Hd|Hd]; rewrite Hd in Hj].
    destruct (judge_deletable _ _ _ _ Hj Hd) as (g & st & Hg & Hst & Hm). unfold lock_of. rewrite Hg. split.
    + by apply deletable_kinds in Hd as [-> | ->].
    + intros g' st' x _ Hg' Hst'. rewrite Hg in Hg'. injection Hg' as <-. rewrite Hst in Hst'. injection Hst' as <-.
      by apply message_unsilenced.
Qed.
Section Vet.
Context (env : Env) (src : Source) (e : Event) (X : Event -> Prop).
Context (Hclock : clock_ok env) (Hv : ev_verify e = true).
Lemma along_judged n : tidy n ->
  along (lock_of e) nothing X (fun n' r => r = None -> vetted e n') (judged_co src e (now env)) n.
Proof.
  intros B. unfold judged_co. apply along_look. intros n1 B1 R1.
  assert (Hk : forall j n2, judge_here n1 src e (now env) = Ok j -> rely (lock_of e) n1 n2 -> vetted e n2).
  { intros j n2 Ej A. eapply vetted_apart; [by apply A|]. by eapply judge_vets. }
  destruct (judge_here n1 src e (now env)) as [[|g]|r] eqn:Ej.
  - apply along_is. intros n2 B2 R2 _. eapply Hk; [done|exact R2].
  - apply along_then; [done| |].
    + eapply along_weaken; [| | |by apply along_group_events]; done.
    + intros n2 evs B2 A2. apply along_is. intros n3 B3 R3 _. eapply Hk; [done|]. eapply rely_trans; [exact A2|exact R3].
  - by apply along_is.
Qed.
Lemma along_booked n : along (lock_of e) nothing X (fun _ _ => True) (booked_co e (now env)) n.
Proof.
  unfold booked_co. destruct (_ =? _); [|done]. apply along_quietly. intros n1 B1.
  eapply total_weaken; [apply booked_total|]. intros n2 r [(b & Hb & ->) _]. split; [|split; [by apply quiet_refl, B1|done]].
  split; [done..|]. exists []. by rewrite app_nil_r.
Qed.
Lemma along_not_withdrawn n : tidy n -> along (lock_of e) nothing X
  (fun n' r => r = None -> forall d, takes_down d e -> ~ holds (n_store n) d) (not_withdrawn_co e) n.
Proof.
  intros B. unfold not_withdrawn_co. destruct (kind_in _ _) eqn:Ek.
  2: { apply along_is. intros n' _ _ _ d (_ & Hd & _) _. unfold deletable in Hd. congruence. }
  apply along_look. intros n1 B1 R1. destruct (is_deleted _ _ _) eqn:Ed; [by apply along_is|].
  apply along_step. intros n2 B2 R2. unfold removed_by_moderator. do 3 total_step.
  destruct (naming_spec (n_store n2) (ev_id e) DELETE_EVENT (b_wf _ B2)) as (es & Hes & Hin).
  eapply total_lift; [exact Hes|]. total_step. split; [by apply still_here|].
  apply along_is. intros n3 B3 R3 Hr d Htd Hd. destruct (takes_down_lasts _ _ Htd) as (H1 & H2 & _).
  assert (Hd1 : holds (n_store n1) d) by by apply R1. assert (Hd2 : holds (n_store n2) d) by by apply R2.
  destruct Htd as (Hn & _ & [[Hk Hp]|[Hk Hp]]).
  - apply not_true_iff_false in Ed. apply Ed, is_deleted_spec; [apply B1|]. by exists d.
  - destruct (existsb _ es) eqn:Ex; [done|]. enough (existsb (fun r => same_place r e) es = true) by congruence.
    apply existsb_elem. exists d. split; [|done]. by apply Hin.
Qed.
Lemma along_not_too_soon n : tidy n -> along (lock_of e) nothing X (fun _ _ => True) (not_too_soon_co e) n.
Proof.
  intros B. unfold not_too_soon_co. destruct (_ =? _); [|done]. apply along_then; [done| |done]. unfold too_soon_co.
  destruct (group_of e) as [g|]; [|done]. destruct (channel_of e) as [c|]; [|done].
  apply along_look. intros n1 B1 _. destruct (_ =? 0); [done|]. apply along_asks. intros n2 B2 _.
  destruct (query_all (n_store n2) (near_filter e g (match state (n_groups n1) g with
    Some s => slowmode s c | None => 0 end - 1)) (b_wf _ B2)) as (es & Hes & _); try done. by exists es.
Qed.
Lemma along_vet n : tidy n -> along (lock_of e) nothing X
  (fun n' r => r = None -> vetted e n' /\ forall d, takes_down d e -> ~ holds (n_store n) d) (vet_co env src e) n.
Proof.
  intros B. unfold vet_co. eapply along_seq; [done|by apply along_judged|]. intros n1 [why|] B1 R1 Hj; [by apply along_is|].
  apply along_then; [done|apply along_booked|]. intros n2 [why|] B2 R2; [by apply along_is|].
  eapply along_seq; [done|by apply along_not_withdrawn|]. intros n3 [why|] B3 R3 Hw; [by apply along_is|].
  eapply along_weaken; [| | |apply along_frame, along_not_too_soon]; [done|done| |done]. intros n4 r B4 [R4 _] _.
  pose proof (rely_trans _ _ _ _ R2 (rely_trans _ _ _ _ R3 R4)) as R. split.
  - eapply vetted_apart; [by apply R|by apply Hj].
  - intros d Htd Hd. apply (Hw eq_refl d Htd). destruct (takes_down_lasts _ _ Htd) as (? & ? & _).
    apply R2; [done..|]. by apply R1.
Qed.
End Vet.

(** ** The insert *)
Definition own (l : Lock) (g : PublicKey) : Prop := l = Writes g.
Lemma fold_event_own g e : fold_event g e = true -> own (lock_of e) g.
Proof.
  unfold fold_event, own, lock_of. intros [Hg Hk]%andb_prop. apply bool_decide_eq_true in Hg. rewrite Hg.
  enough (changes_state (ev_kind e) = true) as -> by done. unfold changes_state. revert Hk.
  unfold kind_in, ACTION_KINDS, STATE_KINDS. cbn [existsb]. rewrite !orb_true_iff, !Z.eqb_eq. intros Hk.
  repeat match type of Hk with _ \/ _ => destruct Hk as [Hk|Hk] end; try done; by rewrite Hk.
Qed.
Lemma inserting_total X env e n : tidy n -> vetted e n -> ev_verify e = true -> known e -> X e ->
  total (inserting env e) n (fun n2 stored => (tidy n2 /\ guar (own (lock_of e)) X n n2) /\
    (stored <> Stored.New -> rely (lock_of e) n n2)).
Proof.
  intros B (Hp & Hd & Hs) Hv Hk HX. destruct (insert_spec (n_store n) e (now env) (b_wf _ B)) as (s' & r & Hi & Hw & Hc).
  exists (with_store s' n), r. rewrite inserting_run, Hi. split; [done|]. destruct Hc as [[Hr ->]|(-> & _ & Hin)].
  { split; [|intros _; by destruct n; apply rely_refl]. apply quiet_guar; [done|by apply quiet_refl, B|done]. }
  split; [|done]. split; [split; cbn [n_store with_store]|split; [split| |]]; cbn [n_store n_groups with_store].
  - done.
  - intros y [->|[Hy _]]%Hin; [done|by apply B].
  - intros y [->|[Hy _]]%Hin; [done|by apply B].
  - intros y [->|[Hy _]]%Hin; [by left|by apply B].
  - done.
  - intros y [->|[Hy _]]%Hin; [right|by left]. split.
    + intros g Hg. destruct (fold_event g e) eqn:E; [|done]. by apply fold_event_own in E.
    + intros Hdel g st x _. apply Hs; [done|by intros []].
  - intros y g Hg Hf Hy. apply Hin. right. split; [done|]. intros Hr. by apply Hg, fold_event_own, (rival_fold e y).
  - intros d _ Hsl Hh. apply Hin. right. split; [done|]. intros [[z Hz] Hkey]. unfold slot_key in Hkey. injection Hkey as _ _ Hkey. congruence.
  - intros y [->|[Hy _]]%Hin; [by right; left|by left].
Qed.

(** ** What is done after it, but for the fold *)
Section After.
Context (l : Lock) (X : Event -> Prop) (Hone : one_kind).
Hint Resolve still_refl : core.
Lemma along_told ids n : along l nothing X (fun _ _ => True) (await (tell_removed ids)) n.
Proof. apply along_true. intros n1 _. apply tell_removed_total. Qed.
Definition doomed (i : EventId) : Prop := exists y, known y /\ ev_id y = i /\ (deletable y = true \/ ev_kind y = GIFT_WRAP).
Lemma held_doomed n y : tidy n -> holds (n_store n) y -> deletable y = true \/ ev_kind y = GIFT_WRAP -> doomed (ev_id y).
Proof.
  intros B Hy Hk. exists y. split; [|done]. destruct (b_known _ B y Hy) as [?|Hb]; [done|]. exfalso.
  destruct Hk as [[Hk|Hk]%deletable_kinds|Hk]; by rewrite Hk in Hb.
Qed.
Lemma remove_doomed n ids : tidy n -> (forall i, i ∈ ids -> doomed i) -> quiet (n_store n) (remove (n_store n) ids).
Proof.
  intros B Hd. destruct (remove_spec (n_store n) ids (b_wf _ B)) as [Hw Hh]. split; [done| |].
  - intros e [He _]%Hh. by left.
  - intros e He. destruct (decide (ev_id e ∈ ids)) as [Hi|Hi]; [right|left; by apply Hh].
    destruct (Hd _ Hi) as (y & Hy & Hid & Hk). destruct (b_known _ B e He) as [Hke|Hb]; [|by right; left].
    pose proof (Hone _ _ Hy Hke Hid) as E. unfold deletable in *. rewrite E in Hk. naive_solver.
Qed.
Lemma along_remove ids n : (forall i, i ∈ ids -> doomed i) ->
  along l nothing X (fun _ _ => True) (await (on_store (fun s => (remove s ids, tt)))) n.
Proof. intros Hd. apply along_quietly. intros n1 B1. total_step. by apply quietly_store, remove_doomed. Qed.
Lemma along_withdrawal e n : tidy n -> along l nothing X (fun _ _ => True) (apply_withdrawal_co e) n.
Proof.
  intros B. unfold apply_withdrawal_co. apply along_then; [done| |intros n1 gone B1 _; apply along_told].
  apply along_quietly. intros n1 B1. total_step. apply quietly_store.
  destruct (apply_deletion_spec (n_store n1) e DELETABLE_KINDS (b_wf _ B1)) as [Hw Hh]. split; [done| |].
  - intros y [Hy _]%Hh. by left.
  - intros y Hy. destruct (deletable y) eqn:Ed; [by right; right; right|]. left. apply Hh. split; [done|].
    intros (_ & _ & Hd). unfold deletable in Ed. congruence.
Qed.
Lemma along_removal e n : tidy n -> along l nothing X (fun _ _ => True) (apply_removal_co e) n.
Proof.
  intros B. unfold apply_removal_co. apply along_asks. intros n1 B1 _.
  destruct (by_ids_spec (n_store n1) (targets_of e) (b_wf _ B1)) as (es & Hes & Hin). exists es. split; [done|]. cbv zeta.
  apply along_then; [done| |intros n2 [] B2 _; apply along_told]. apply along_remove.
  intros i (y & -> & [Hy Hr]%filter_elem)%list_elem_of_fmap. apply Hin in Hy as [Hy _]. apply (held_doomed n1); [done..|].
  left. unfold removable in Hr. by apply andb_prop in Hr as [? _].
Qed.
Lemma over_cap_held s to cap i : store_wf s -> i ∈ over_cap cap 0 (wraps_to s to) ->
  exists y, holds s y /\ ev_id y = i /\ ev_kind y = GIFT_WRAP.
Proof.
  intros Hw Hin. enough (exists r, r ∈ wraps_to s to /\ w_id r = i) as (r & Hr & <-).
  { apply wraps_to_elem in Hr as [Hr Ha]. destruct (sw_rows _ Hw r Hr) as (y & t & -> & _). exists y.
    split; [by eapply row_holds|]. split; [done|]. unfold addressed in Ha. cbn in Ha. bools. done. }
  revert Hin. generalize 0. generalize (wraps_to s to). clear. intros rows. induction rows as [|r rows IH]; intros held; cbn [over_cap]; cbv zeta.
  - intros H. by apply not_elem_of_nil in H.
  - destruct (_ <? _).
    + intros [Hx|H]%elem_of_cons; [exists r; split; [left|done]|]. apply IH in H as (x & ? & ?). exists x. split; [by right|done].
    + intros H. apply IH in H as (x & ? & ?). exists x. split; [by right|done].
Qed.
Lemma along_kept e n : tidy n -> along l nothing X (fun _ _ => True) (kept_for_co e) n.
Proof.
  intros B. unfold kept_for_co. apply along_look. intros n1 B1 _. destruct (recipient_of e) as [to|]; [|done].
  destruct (negb _); [|done]. apply along_look. intros n2 B2 _. apply along_remove. intros i Hi.
  apply over_cap_held in Hi as (y & Hy & <- & Hk); [|apply B2]. apply (held_doomed n2); [done..|by right].
Qed.
Lemma along_learn env b p n : clock_ok env -> along l nothing X (fun _ _ => True) (learn_binding_co env b p) n.
Proof.
  intros [Hn0 Hn]. unfold learn_binding_co. destruct (Z.eqb_spec (ev_kind b) DEVICE_BINDING) as [Hk|]; [|done]. cbn [negb orb].
  destruct (negb (bool_decide _)); [done|]. destruct (ev_verify b) eqn:Ev; [|done]. cbn [negb].
  apply along_step. intros n1 B1 R1. destruct (insert_binding (n_book n1) b (now env)) as [[bk r]|] eqn:Eb.
  2: { exists n1, false. split; [cbv beta; by rewrite Eb|]. split; [by apply still_here|done]. }
  exists (with_book bk n1), true. split; [cbv beta; by rewrite Eb|]. split; [by apply quiet_guar; [done|apply quiet_refl, B1|done]|].
  assert (Hd : 0 <= ev_created_at b <= I64_MAX).
  { assert (Ep : exists pc, Parsed_check b (now env) = Ok pc).
    { revert Eb. unfold insert_binding. destruct (Parsed_check b (now env)) as [pc|]; [eauto|done]. }
    destruct Ep as [pc Ep]. apply Parsed_check_ok in Ep. pose proof (ck_time _ _ _ Ep) as Ht.
    unfold BINDING_CLOCK_SKEW, MAX_CLOCK_SKEW, I64_MAX, U64_MAX in *.
    rewrite ts_add_exact in Ht by (unfold U64_MAX; lia). pose proof (verified_time b Ev). lia. }
  apply along_quietly. intros n2 B2. destruct (insert_spec (n_store n2) b (now env) (b_wf _ B2)) as (s1 & r1 & Hi & _).
  exists (with_store s1 n2), tt. split.
  - unfold attempt, bind. by rewrite asks_run, Hi.
  - apply quietly_store. eapply binding_insert_quiet; [apply B2|done..|exact Hi].
Qed.
Lemma along_grant h p n : along l nothing X (fun _ _ => True) (await (grant h p)) n.
Proof. apply along_quietly. intros n1 B1. apply grant_total, B1. Qed.
Lemma along_opened env e n : tidy n -> clock_ok env -> along l nothing X (fun _ _ => True) (opened_dm_co env e) n.
Proof.
  intros B Hc. unfold opened_dm_co. apply along_look. intros n1 B1 _. destruct (open_dm _ e) as [d|]; [|done].
  apply along_then; [done| |].
  - destruct (dm_file d); [|done]. apply along_then; [done|apply along_grant|]. intros n2 a B2 _. apply along_grant.
  - intros n2 a B2 _. destruct (dm_device d); [|done]. destruct (negb _); [by apply along_learn|done].
Qed.
Lemma along_modify f n : (forall n', n_store (f n') = n_store n' /\ n_log (f n') = n_log n' /\ n_person (f n') = n_person n' /\
    n_device (f n') = n_device n' /\ n_book (f n') = n_book n' /\ forall g, state (n_groups (f n')) g = state (n_groups n') g) ->
  along l nothing X (fun _ _ => True) (await (modify f)) n.
Proof.
  intros Hf. apply along_quietly. intros n1 B1. destruct (Hf n1) as (H1 & H2 & H3 & H4 & H5 & H6). total_step.
  split; [split; [done..|by rewrite H5|exists []; by rewrite app_nil_r]|]. rewrite H1. split; [by apply quiet_refl, B1|done].
Qed.
End After.

(** ** The fold *)
Section Folds.
Context (l : Lock) (X : Event -> Prop) (Hone : one_kind) (Hl : l <> NoLock).
Lemma not_nothing {A} (x : A) : ~ nothing x.
Proof. by intros []. Qed.
Lemma rely_settled g n n' : tidy n -> tidy n' -> rely l n n' -> settled g n -> settled g n'.
Proof. intros B B' [R _]. apply (settled_apart nothing); [apply not_nothing|done|done|by apply R]. Qed.
Lemma authored_held s g who from until ids i : store_wf s ->
  authored_in s g who DELETABLE_KINDS from until = Ok ids -> i ∈ ids -> exists e, holds s e /\ ev_id e = i.
Proof.
  intros Hw. unfold authored_in. assert (Hq : forall u, exists es, query s (authored_filter g who DELETABLE_KINDS from u) = Ok es /\
    forall e, e ∈ es -> holds s e) by (intros u; destruct (query_some s (authored_filter g who DELETABLE_KINDS from u) Hw) as (es & ? & ? & _); eauto).
  assert (Hm : forall u, (let? evs := query s (authored_filter g who DELETABLE_KINDS from u) in Ok (map ev_id evs)) = Ok ids ->
    i ∈ ids -> exists e, holds s e /\ ev_id e = i).
  { intros u. destruct (Hq u) as (es & -> & He). intros [= <-] (e & -> & Hin)%list_elem_of_fmap. by eauto. }
  destruct until as [u|]; [|by apply (Hm None)]. destruct (u <=? from); [intros [= <-] Hi; by apply not_elem_of_nil in Hi|by apply (Hm (Some (u - 1)))].
Qed.
Lemma along_silenced g st xs n : tidy n -> state (n_groups n) g = Some st -> (forall x, x ∈ xs -> x ∈ gs_silences st) ->
  along l nothing X (fun n' ids => (forall i, i ∈ ids -> doomed i) /\
    forall e x, holds (n_store n') e -> deletable e = true -> group_of e = Some g -> tagged e g = true -> x ∈ xs ->
      storable x -> s_who x = ev_pubkey e -> covers x (ev_created_at e) = true -> ev_id e ∈ ids) (silenced_co g xs) n.
Proof.
  revert n. induction xs as [|y xs IH]; intros n B Hst Hxs; cbn [silenced_co].
  { apply along_is. intros n' _ _. split; [intros i Hi; by apply not_elem_of_nil in Hi|]. intros e x _ _ _ _ Hx. by apply not_elem_of_nil in Hx. }
  assert (Hnew : forall m m' e x, rely l n m -> rely l m m' -> x ∈ y :: xs -> holds (n_store m') e -> deletable e = true ->
    group_of e = Some g -> s_who x = ev_pubkey e -> covers x (ev_created_at e) = true -> holds (n_store m) e).
  { intros m m' e x [Rm _] [Rm' _] Hx He Hd Hg Hw Hc. apply (a_new _ _ _ (Rm' Hl)) in He as [He|[_ Hu]]; [done|]. exfalso.
    rewrite (Hu Hd g st x) in Hc; try done; [apply not_nothing| |by apply Hxs].
    rewrite (a_states _ _ _ (Rm Hl)); [done|apply not_nothing]. }
  apply along_asks. intros n1 B1 R1.
  destruct (authored_in_spec (n_store n1) g (s_who y) DELETABLE_KINDS (s_from y) (s_until y) (b_wf _ B1)) as (ids & Hids & Hback & Hfwd).
  exists ids. split; [done|]. eapply along_seq; [done|apply IH; [done| |]|].
  - rewrite (a_states nothing n n1); [done|by apply R1|apply not_nothing].
  - intros x Hx. apply Hxs. by right.
  - intros n2 more B2 R2 [Hdm Hmore]. apply along_is. intros n3 B3 R3. split.
    + intros i [Hi|Hi]%elem_of_app; [|by apply Hdm]. destruct (authored_held _ _ _ _ _ _ _ (b_wf _ B1) Hids Hi) as (e & He & <-).
      apply (held_doomed n1); [done..|]. left. by apply (Hback e He).
    + intros e x He Hd Hg Ht Hx Hs Hw Hc. apply elem_of_app.
      assert (He2 : holds (n_store n2) e) by (by eapply (Hnew n2 n3 e x (rely_trans _ _ _ _ R1 R2))).
      assert (He1 : holds (n_store n1) e) by (by eapply (Hnew n1 n2 e x R1)).
      apply elem_of_cons in Hx as [->|Hx]; [left|right; by apply (Hmore e x)].
      unfold covers in Hc. apply andb_prop in Hc as [Hf Hu]. apply Z.leb_le in Hf.
      apply Hfwd; try done; [apply B1|]. unfold storable in Hs. destruct (s_until y) as [u|]; [|done].
      cbn in Hu. apply Z.ltb_lt in Hu. auto.
Qed.
Lemma along_purge g n : tidy n -> along l nothing X (fun n' _ => clear g n') (purge_co g) n.
Proof.
  intros B. unfold purge_co. apply along_look. intros n1 B1 _. destruct (state (n_groups n1) g) as [st|] eqn:Est.
  2: { apply along_is. intros n2 _ [R2 _] st e x Hst. rewrite (a_states _ _ _ (R2 Hl)) in Hst by apply not_nothing. congruence. }
  eapply along_seq; [done|by apply (along_silenced g st)|]. intros n2 ids B2 R2 [Hd Hin].
  assert (Hst2 : state (n_groups n2) g = Some st) by (rewrite (a_states nothing n1 n2); [done|by apply R2|apply not_nothing]).
  assert (Hclear : forall n3 s', rely l n2 n3 -> (forall e, holds s' e -> holds (n_store n3) e /\ ev_id e ∉ ids) -> clear g (with_store s' n3)).
  { intros n3 s' [R3 _] Hs' st' e x Hst' [He Hn]%Hs' Hdl Hg Ht Hx Hsx Hw. cbn in Hst'.
    rewrite (a_states _ _ _ (R3 Hl)), Hst2 in Hst' by apply not_nothing. injection Hst' as <-.
    apply (a_new _ _ _ (R3 Hl)) in He as [He|[_ Hu]]; [|by apply (Hu Hdl g st x); [apply not_nothing|..]].
    destruct (covers x _) eqn:Ec; [|done]. by destruct Hn; apply (Hin e x). }
  destruct ids as [|i ids].
  { apply along_is. intros n3 B3 R3. replace n3 with (with_store (n_store n3) n3) by by destruct n3.
    apply Hclear; [done|]. intros e He. split; [done|apply not_elem_of_nil]. }
  eapply (along_seq _ _ _ (fun n' _ => clear g n')); [done| |].
  - apply along_await. intros n3 B3 R3. total_step. cbn [fst snd]. assert (Hq : quiet (n_store n3) (remove (n_store n3) (i :: ids))) by by eapply remove_doomed.
    split; [by apply quiet_guar|]. intros n4 B4 [R4 _]. eapply (clear_apart nothing); [apply not_nothing|by apply R4|].
    apply Hclear; [done|]. intros e. by apply remove_spec, B3.
  - intros n3 [] B3 R3 Hc. eapply along_weaken; [| | |apply along_frame, along_told]; [done|done|].
    intros n4 [] B4 [[R4 _] _]. eapply (clear_apart nothing); [apply not_nothing|by apply R4|done].
Qed.
Lemma along_group_changed env g n : tidy n -> along l nothing X (fun _ _ => True) (group_changed_co env g) n.
Proof.
  intros B. unfold group_changed_co. apply along_look. intros n1 B1 _. apply along_look. intros n2 B2 _.
  apply along_then; [done| |].
  - destruct (_ && _); [apply along_true; intros; apply gossip_start_total|].
    destruct (_ && _); [apply along_true; intros; apply gossip_stop_total|done].
  - intros n3 [] B3 _. apply along_true. intros n4 B4. do 2 total_step. apply gossip_revoke_total.
Qed.
Lemma along_settle env g evs n : tidy n -> own l g ->
  (forall st, fold g evs = Some st -> folded_from (n_store n) g st) ->
  along l (own l) X (fun n' _ => settled g n') (settle_co env g evs) n.
Proof.
  intros B Ho Hf. unfold settle_co. apply along_step. intros n1 B1 [R1 _]. total_step.
  set (n2 := with_groups (set_state (n_groups n1) g (fold g evs)) n1).
  assert (B2 : tidy n2) by (split; apply B1). split; [split; [done|]|].
  { split; [split|by intros d|by intros e; left]; [|by left|done]. intros g' Hg'. cbn. rewrite state_set_state, bool_decide_false; [done|].
    by intros [-> _]. }
  assert (F2 : folded g n2).
  { intros st. cbn. rewrite state_set_state. case_bool_decide as Hc.
    - intros Hst. apply (folded_same (n_store n)); [apply B|apply B1| |by apply Hf]. intros e. apply same_fold; by auto.
    - intros Hst. exfalso. apply Hc. split; [done|]. unfold state in Hst. unfold is_carried. by destruct (g_carried (n_groups n1) !! g). }
  apply (along_weaken _ nothing _ X _ (fun n' _ => rely l n2 n' /\ clear g n')); [by intros g' []|done| |].
  - intros n3 [] B3 [[R3 _] Hcl]. split; [|done]. by eapply (folded_apart nothing); [apply not_nothing|exact B2|done|apply R3|].
  - apply along_frame. apply along_then; [done|by apply along_group_changed|]. intros n3 [] B3 _. by apply along_purge.
Qed.
Lemma along_refold env g n : tidy n -> own l g -> along l (own l) X (fun n' _ => settled g n') (refold_co env g) n.
Proof.
  intros B Ho. unfold refold_co. eapply along_seq; [done|by apply along_group_events|]. intros n1 evs B1 R1 Hf. by apply along_settle; [..|apply Hf].
Qed.
Lemma along_refold_one env g n (before : Prop) : tidy n -> own l g -> (before -> settled g n) ->
  along l (own l) X (fun n' _ => before -> settled g n') (refold_one_co env g) n.
Proof.
  intros B Ho Hb. unfold refold_one_co. eapply along_seq; [done|by apply along_group_events|]. intros n1 evs B1 R1 Hf.
  apply along_look. intros n2 B2 R2. pose proof (rely_trans _ _ _ _ R1 R2) as R.
  assert (Hset : forall n3, tidy n3 -> rely l n n3 -> before -> settled g n3) by (intros n3 B3 R3 H; by apply (rely_settled g n); auto).
  case_bool_decide; [apply along_is; intros n3 B3 R3; apply Hset; [done|by eapply rely_trans]|].
  apply along_then; [done|by apply along_modify|]. intros n3 [] B3 R3. destruct (negb _).
  - apply along_is. intros n4 B4 R4. apply Hset; [done|]. eapply rely_trans; [exact R|]. by eapply rely_trans.
  - eapply along_weaken; [| | |apply along_settle]; [done|done|by intros n4 [] _ ? _|done|done|].
    intros st Hst. apply (folded_same (n_store n1)); [apply B1|apply B3| |by apply Hf].
    intros e. apply same_fold. apply (rely_trans _ _ _ _ R2 R3), Hl.
Qed.
End Folds.

(** ** The whole call *)
Section Whole.
Context (X : Event -> Prop) (Hone : one_kind).
Definition left_right (l : Lock) (before : Prop) (n : Inner) : Prop := forall g, l = Writes g -> before -> settled g n.
Lemma left_rely l before n n' : tidy n -> tidy n' -> rely l n n' -> left_right l before n -> left_right l before n'.
Proof. intros B B' R H g -> Hb. apply (rely_settled (Writes g) ltac:(done) g n n' B B' R). by apply H. Qed.
#[local] Existing Instance Stored.eq_dec.
Lemma along_consequences env e stored n before : tidy n -> clock_ok env ->
  (stored <> Stored.New -> left_right (lock_of e) before n) ->
  along (lock_of e) (own (lock_of e)) X (fun n' _ => left_right (lock_of e) before n') (consequences_co env e stored) n.
Proof.
  intros B Hc Hb. unfold consequences_co. cbv zeta.
  apply along_when; [done|intros _; by apply along_withdrawal|]. intros n1 B1 R1.
  apply along_when; [done|intros _; by apply along_removal|]. intros n2 B2 R2.
  apply along_when; [done|intros _; by apply along_opened|]. intros n3 B3 R3.
  apply along_when; [done|intros _; by apply along_kept|]. intros n4 B4 R4.
  apply along_when; [done|intros _; by apply along_modify|]. intros n5 B5 R5.
  apply along_when; [done|intros _; unfold heard_voice; repeat case_match; first [by apply along_modify|apply along_true; intros; total_step; apply still_refl]|].
  intros n6 B6 R6. apply along_when; [done|intros _; by apply along_modify|]. intros n7 B7 R7.
  assert (R : rely (lock_of e) n n7) by (do 6 (eapply rely_trans; [eassumption|]); done).
  assert (Hkept : stored <> Stored.New -> along (lock_of e) (own (lock_of e)) X
    (fun n' _ => left_right (lock_of e) before n') (Is tt) n7).
  { intros Hn. apply along_is. intros n8 B8 R8. eapply left_rely; [exact B|done|by eapply rely_trans|by apply Hb]. }
  assert (Hno : (forall g, lock_of e <> Writes g) -> along (lock_of e) (own (lock_of e)) X
    (fun n' _ => left_right (lock_of e) before n') (Is tt) n7).
  { intros Hn. apply along_is. intros n8 B8 R8 g Hg. by apply Hn in Hg. }
  destruct (group_of e) as [g|] eqn:Eg; [|apply Hno; unfold lock_of; by rewrite Eg].
  case_bool_decide as En; cbn [andb]; [|by apply Hkept].
  destruct (changes_state (ev_kind e)) eqn:Es; [|apply Hno; unfold lock_of; by rewrite Eg, Es].
  assert (El : lock_of e = Writes g) by (unfold lock_of; by rewrite Eg, Es).
  eapply along_weaken; [| | |apply (along_refold (lock_of e) X Hone ltac:(by rewrite El) env g n7 B7 El)]; [done|done|].
  intros n8 [] B8 H g' Hg' _. rewrite El in Hg'. by injection Hg' as <-.
Qed.
Lemma along_emit l f n : along l nothing X (fun _ _ => True) (await (emit f)) n.
Proof. apply along_await. intros n1 B1 _. total_step. split; [apply quiet_guar; [done|apply quiet_refl, B1|done]|done]. Qed.
Lemma along_pass_on l src e n : along l nothing X (fun _ _ => True) (pass_on_co src e) n.
Proof.
  unfold pass_on_co. apply along_look. intros n1 B1 _. apply along_then; [done|apply along_emit|]. intros n2 [] B2 _.
  destruct (gossip_group _ e); [|done]. destruct (_ || _); [|done]. apply along_await. intros n3 B3 _. do 2 total_step.
  destruct (opt_bool _); total_step; (split; [|done]); (apply quiet_guar; [done|apply quiet_refl, B3|done]).
Qed.
Lemma along_answer l src e stored n : tidy n -> along l nothing X (fun _ _ => True) (answer_co src e stored) n.
Proof. intros B. destruct stored; [|done|done|]; (apply along_then; [done|apply along_pass_on|done]). Qed.
End Whole.
(** What the call on [e] begun at [n] may store: [e], and that only when nothing
    then held takes it down. *)
Definition may_store (n : Inner) (e x : Event) : Prop := x = e /\ forall d, takes_down d e -> ~ holds (n_store n) d.
Lemma along_accept (Hone : one_kind) env src e n before : tidy n -> known e -> clock_ok env -> left_right (lock_of e) before n ->
  along (lock_of e) (own (lock_of e)) (may_store n e) (fun n' _ => left_right (lock_of e) before n') (accept_co env src e) n.
Proof.
  intros B Hk Hc Hb. assert (Hkeep : forall n', tidy n' -> rely (lock_of e) n n' -> left_right (lock_of e) before n').
  { intros n' B' R. by apply (left_rely _ _ n). }
  unfold accept_co, Verified_check. destruct (ev_verify e) eqn:Hv; [|apply along_is; auto].
  eapply along_seq; [done|by apply along_vet|]. intros n1 [why|] B1 R1 Hr.
  { apply along_is. intros n2 B2 R2. apply Hkeep; [done|by eapply rely_trans]. }
  destruct (Hr eq_refl) as [Hvet Hfree]. apply along_step. intros n2 B2 R2.
  eapply total_weaken; [apply (inserting_total (may_store n e)); try done; eapply vetted_apart; [by apply R2|done]|].
  intros n3 stored [[B3 G] Hsame]. split; [done|]. apply along_bind; [done|].
  eapply along_weaken; [| | |apply (along_consequences _ Hone env e stored n3 before B3 Hc)]; [done|done| |].
  - intros n4 [] B4 H4. eapply along_weaken; [| | |apply along_frame, along_answer, B4]; [by intros g []|done|].
    intros n5 v B5 [R5 _]. by apply (left_rely _ _ n4).
  - intros Hn. apply Hkeep; [done|]. eapply rely_trans; [exact R1|]. eapply rely_trans; [exact R2|by apply Hsame].
Qed.
Lemma along_refolded (Hone : one_kind) env g n before : tidy n -> (before -> settled g n) ->
  along (Writes g) (own (Writes g)) nothing (fun n' _ => left_right (Writes g) before n')
    (co_bind (refold_one_co env g) (fun _ => Is (true, ""%string))) n.
Proof.
  intros B Hb. apply along_bind; [done|]. eapply along_weaken; [| | |by apply (along_refold_one (Writes g) _ Hone ltac:(done) env g n before)]; [done|done|].
  intros n1 [] B1 H1. apply along_is. intros n2 B2 R2. apply (left_rely _ _ n1); [done..|]. by intros g' [= <-].
Qed.

(** ** The world *)
Record sound (Z : Event -> Prop) (w : World) : Prop := {
  s_base : tidy (w_node w);
  s_settled g : g ∉ w_cut w -> (forall i h, w_calls w !! i = Some h -> h_lock h <> Writes g) -> settled g (w_node w);
  s_alone i j h h' g : w_calls w !! i = Some h -> w_calls w !! j = Some h' -> i <> j -> h_lock h = Writes g -> h_lock h' = NoLock;
  s_calls i h : w_calls w !! i = Some h -> exists X, (forall x, X x -> h_event h = Some x /\ Z x) /\
    along (h_lock h) (own (h_lock h)) X (fun n' _ => forall g, h_lock h = Writes g -> g ∉ w_cut w -> settled g n')
      (h_rest h) (w_node w);
}.
Lemma guar_rely S X l n n' : (l <> NoLock -> forall g, ~ S g) -> guar S X n n' -> rely l n n'.
Proof.
  intros HS G. split; [|apply G]. intros Hl. eapply apart_weaken; [|apply G]. intros g Hg. by apply HS in Hg.
Qed.
(** A call begins that has the lock. *)
Definition uncut (w : World) (l : Lock) : Prop := forall g, l = Writes g -> g ∉ w_cut w.
Lemma begin_left Z w l : sound Z w -> free_for l (w_calls w) -> left_right l (uncut w l) (w_node w).
Proof.
  intros K Hf g -> Hu. apply (s_settled _ _ K); [by apply Hu|]. intros i h Hh. by rewrite (Hf i h Hh).
Qed.
Lemma sound_begins Z w i l e X c : sound Z w -> w_calls w !! i = None -> free_for l (w_calls w) ->
  (forall x, X x -> e = Some x /\ Z x) -> along l (own l) X (fun n' _ => left_right l (uncut w l) n') c (w_node w) ->
  sound Z (mkWorld (w_node w) (<[i := mkHandling l e c]> (w_calls w)) (w_cut w)).
Proof.
  intros K Hi Hf HX Hc. split; cbn.
  - apply K.
  - intros g Hg Hn. apply (s_settled _ _ K); [done|]. intros j h Hj. apply (Hn j). rewrite lookup_insert_ne; [done|]. intros ->. congruence.
  - intros j k h h' g. rewrite !lookup_insert_Some. intros [[<- <-]|[Hj Hh]] [[<- <-]|[Hk Hh']] Hne Hw; try done; cbn in *.
    + specialize (Hf k h' Hh'). by rewrite Hw in Hf.
    + specialize (Hf j h Hh). rewrite Hw in Hf. destruct l; [done|by destruct (Hf g)|done].
    + by apply (s_alone _ _ K j k h h' g).
  - intros j h. rewrite lookup_insert_Some. intros [[<- <-]|[_ Hh]]; [|exact (s_calls _ _ K j h Hh)]. exists X. split; [done|].
    eapply along_weaken; [| | |exact Hc]; [done|done|]. cbn. intros n' v _ H g Hg Hcut. apply (H g Hg). intros g' Hg'. congruence.
Qed.
(** One goes a step on: what it leaves is what the others may count on. *)
Lemma sound_goes_on Z w i h n c : sound Z w -> w_calls w !! i = Some h -> advance (h_rest h) (w_node w) = (n, Some (Ok c)) ->
  sound Z (mkWorld n (<[i := mkHandling (h_lock h) (h_event h) c]> (w_calls w)) (w_cut w)).
Proof.
  intros K Hi Ha. destruct (s_calls _ _ K i h Hi) as (X & HX & Hal). pose proof (s_base _ _ K) as B.
  destruct (h_rest h) as [v|D m k]; [done|]. cbn in Ha. destruct (Hal _ B (rely_refl _ _)) as (n' & b & Hm & (B' & G) & Hk).
  rewrite Hm in Ha. injection Ha as <- <-. split; cbn.
  - done.
  - intros g Hg Hn. eapply (settled_apart (own (h_lock h))); [|exact B|done|apply G|apply (s_settled _ _ K); [done|]].
    + intros Ho. apply (Hn i (mkHandling (h_lock h) (h_event h) (k b))); [by rewrite lookup_insert_eq|exact Ho].
    + intros j h' Hj. destruct (decide (i = j)) as [<-|Hne].
      * rewrite Hi in Hj. injection Hj as <-. apply (Hn i (mkHandling (h_lock h) (h_event h) (k b))). by rewrite lookup_insert_eq.
      * apply (Hn j). by rewrite lookup_insert_ne.
  - intros j j' h1 h2 g H1 H2 Hne Hw.
    assert (Hback : forall q q', <[i := mkHandling (h_lock h) (h_event h) (k b)]> (w_calls w) !! q = Some q' ->
      exists q0, w_calls w !! q = Some q0 /\ h_lock q0 = h_lock q').
    { intros q q'. rewrite lookup_insert_Some. intros [[<- <-]|[_ Hq]]; eauto. }
    apply Hback in H1 as (q1 & Hq1 & E1), H2 as (q2 & Hq2 & E2). rewrite <- E2. apply (s_alone _ _ K j j' q1 q2 g); congruence.
  - intros j h'. rewrite lookup_insert_Some. intros [[<- <-]|[Hne Hj]]; [by exists X|].
    destruct (s_calls _ _ K j h' Hj) as (X' & HX' & Hal'). exists X'. split; [done|]. eapply along_rely; [exact Hal'|].
    eapply guar_rely; [|exact G]. intros Hl g Ho. apply Hl. by apply (s_alone _ _ K i j h h' g).
Qed.
(** One is gone, ended or dropped. *)
Lemma sound_gone Z w i h cut : sound Z w -> w_calls w !! i = Some h ->
  (forall g, h_lock h = Writes g -> g ∉ cut ++ w_cut w -> settled g (w_node w)) ->
  sound Z (mkWorld (w_node w) (delete i (w_calls w)) (cut ++ w_cut w)).
Proof.
  intros K Hi Hs. split; cbn.
  - apply K.
  - intros g Hg Hn. destruct (decide (h_lock h = Writes g)) as [E|E]; [by apply Hs|]. apply (s_settled _ _ K).
    + intros Hc. by apply Hg, elem_of_app; right.
    + intros j h' Hj. destruct (decide (i = j)) as [<-|Hne]; [congruence|]. apply (Hn j). by rewrite lookup_delete_ne.
  - intros j k h1 h2 g [_ H1]%lookup_delete_Some [_ H2]%lookup_delete_Some. by apply (s_alone _ _ K).
  - intros j h' [_ Hj]%lookup_delete_Some. destruct (s_calls _ _ K j h' Hj) as (X & HX & Hal). exists X. split; [done|].
    eapply along_weaken; [| | |exact Hal]; [done|done|]. cbn. intros n' v _ H g Hg Hcut. apply H; [done|].
    intros Hc. by apply Hcut, elem_of_app; right.
Qed.
Lemma sound_step Z w w' : one_kind -> sound Z w -> overlaps known w w' ->
  (forall e, (forall d, takes_down d e -> ~ holds (n_store (w_node w)) d) -> Z e) -> sound Z w'.
Proof.
  intros Hone K Hs HZ. pose proof (s_base _ _ K) as B. destruct Hs as [i env src e w Hi Hc Hk Hf|i env g w Hi Hf|i h n c w Hi Ha|i h v w Hi Hr|i h w Hi].
  - eapply (sound_begins Z w i _ _ (may_store (w_node w) e)); [done|done|done| |].
    + intros x [-> Hx]. split; [done|]. by apply HZ.
    + by apply along_accept; [..|by eapply begin_left].
  - eapply (sound_begins Z w i _ _ nothing); [done|done|done|by intros x []|].
    eapply along_weaken; [| | |apply (along_refolded Hone env g (w_node w) (uncut w (Writes g)) B)]; [done|done|done|].
    intros Hu. by eapply begin_left.
  - by apply sound_goes_on.
  - apply (sound_gone Z w i h []); [done|done|]. intros g Hg Hcut. destruct (s_calls _ _ K i h Hi) as (X & _ & Hal). rewrite Hr in Hal.
    by apply (Hal _ B (rely_refl _ _)).
  - apply (sound_gone Z w i h _ K Hi). intros g Hg Hcut. exfalso. apply Hcut. rewrite Hg. by left.
Qed.
Lemma step_guar Z w w' : sound Z w -> overlaps known w w' -> lasts (w_node w) (w_node w') /\ adds Z (w_node w) (w_node w').
Proof.
  intros K Hs. assert (Hsame : lasts (w_node w) (w_node w) /\ adds Z (w_node w) (w_node w)) by (split; [by intros d|by intros e; left]).
  destruct Hs as [| |i h n c w Hi Ha| |]; [done|done| |done|done]. destruct (s_calls _ _ K i h Hi) as (X & HX & Hal).
  destruct (h_rest h) as [v|D m k]; [done|]. cbn in Ha |- *. destruct (Hal _ (s_base _ _ K) (rely_refl _ _)) as (n' & b & Hm & (_ & G) & _).
  rewrite Hm in Ha. injection Ha as <- <-. split; [apply G|]. intros e [He|[He|He]]%(gu_adds _ _ _ _ G); [by left| |by right; right].
  right. left. by apply HX.
Qed.
Definition begins (n : Inner) : Prop := node_ok n /\ forall e, holds (n_store n) e -> known e.
Lemma sound_start n : begins n -> sound (fun _ => True) (mkWorld n ∅ []).
Proof.
  intros [K Hk]. split; cbn.
  - split; [apply K..|]. intros e He. left. auto.
  - intros g _ _. split; [intros st; by apply (all_states K)|]. intros st e x. by apply (all_silent K).
  - intros i j h h' g Hi. by rewrite lookup_empty in Hi.
  - intros i h Hi. by rewrite lookup_empty in Hi.
Qed.
Lemma sound_reached n w : one_kind -> begins n -> rtc (overlaps known) (mkWorld n ∅ []) w -> sound (fun _ => True) w.
Proof.
  intros Hone Hn Hr. pose proof (sound_start n Hn) as K. revert K. induction Hr as [w|w w1 w' Hs Hr IH]; [done|].
  intros K. apply IH. by eapply sound_step.
Qed.
End Relies.

(** ** What holds however the calls overlap *)
Section Overlapping.
Context {N : NostrTypes} {O : NostrOps} {L : NostrLaws} {J : JsonLaws}.
Context {T : DeviceTypes} {P : DeviceOps} {C : DmCrypto}.
(** C4. However the events a node is handed overlap - their calls cut at every
    access to what they share, under [fold_lock], and dropped at any of them - no
    step of any fails; what is held was signed and is dated in range, in tables
    that agree; and of each group no call that changes it is under way in, or was
    dropped in, the state is the fold of what is held, and nothing held is
    covered by a silence of it whose end an i64 holds.  Calls that do not
    overlap, from wherever and whenever, all answer, and leave besides no
    message held that its author withdrew or a moderator removed. *)
Theorem overlapping_sound known n w : one_kind known -> begins known n -> rtc (overlaps known) (mkWorld n ∅ []) w ->
  (forall i h n' r, w_calls w !! i = Some h -> advance (h_rest h) (w_node w) = (n', Some r) -> is_ok r = true) /\
  store_wf (n_store (w_node w)) /\
  (forall e, holds (n_store (w_node w)) e -> ev_verify e = true /\ 0 <= ev_created_at e <= I64_MAX) /\
  (forall g st, g ∉ w_cut w -> (forall i h, w_calls w !! i = Some h -> h_lock h <> Writes g) ->
     state (n_groups (w_node w)) g = Some st ->
     folded_from (n_store (w_node w)) g st /\
     forall e x, holds (n_store (w_node w)) e -> deletable e = true -> group_of e = Some g -> tagged e g = true ->
       x ∈ gs_silences st -> storable x -> s_who x = ev_pubkey e -> covers x (ev_created_at e) = false) /\
  (forall l, timed l -> exists n' vs, accept_all l n = (n', Ok vs) /\ length vs = length l /\ node_ok n').
Proof.
  intros Hone Hn Hr. pose proof (sound_reached known n w Hone Hn Hr) as K. pose proof (s_base _ _ _ K) as B. split_and!.
  - intros i h n' r Hi Ha. destruct (s_calls _ _ _ K i h Hi) as (X & _ & Hal). destruct (h_rest h) as [v|D m k]; [done|].
    cbn in Ha. destruct (Hal _ B (rely_refl _ _)) as (n2 & b & Hm & _). rewrite Hm in Ha. by injection Ha as <- <-.
  - apply B.
  - intros e He. split; [by apply (b_signed _ _ B)|by apply (b_dated _ _ B)].
  - intros g st Hg Hno Hst. destruct (s_settled _ _ _ K g Hg Hno) as [Hf Hcl]. split; [by apply Hf|]. intros e x. by apply Hcl.
  - intros l Hl. apply (accept_all_keeps l n Hl (proj1 Hn)).
Qed.

(** C23. Once a node holds a withdrawal by a message's author, or a removal by a
    moderator from where the message is, and the message is not held nor on its
    way in, nothing that arrives afterwards, from anyone, however the calls
    overlap and wherever they are dropped, brings it back, or takes the withdrawal
    away; and where calls do not overlap, a message is never held with one. *)
Theorem taken_down_stays_down d e : takes_down d e ->
  (forall n, node_ok n -> holds (n_store n) d -> ~ holds (n_store n) e) /\
  (forall known n w w', one_kind known -> begins known n -> rtc (overlaps known) (mkWorld n ∅ []) w ->
     holds (n_store (w_node w)) d -> ~ holds (n_store (w_node w)) e ->
     (forall i h, w_calls w !! i = Some h -> h_event h <> Some e) ->
     rtc (overlaps known) w w' ->
     holds (n_store (w_node w')) d /\ ~ holds (n_store (w_node w')) e).
Proof.
  intros Htd. split; [intros n K; by apply takes_down_gone|].
  intros known n w w' Hone Hn Hr Hd He Hno Hr'. pose proof (sound_reached known n w Hone Hn Hr) as K0.
  assert (K : sound known (fun x => x <> e) w).
  { split; try apply K0. intros i h Hi. destruct (s_calls _ _ _ K0 i h Hi) as (X & HX & Hal). exists X. split; [|done].
    intros x Hx. destruct (HX x Hx) as [Hev _]. split; [done|]. intros ->. by apply (Hno i h). }
  clear K0 Hno Hr. destruct (takes_down_lasts _ _ Htd) as (Hlast & Hslot & _).
  revert K Hd He. induction Hr' as [w|w w1 w' Hs _ IH]; [done|]. intros K Hd He. destruct (step_guar _ _ _ _ K Hs) as [Hl Ha].
  apply IH; [|by apply Hl|].
  - eapply sound_step; [done|done|exact Hs|]. intros x Hx ->. by apply (Hx d).
  - intros [H|[H|H]]%Ha; [done|done|]. destruct Htd as (_ & [Hk|Hk]%deletable_kinds & _); by rewrite Hk in H.
Qed.
End Overlapping.
