(* ===== verification/NodeOps.v ===== *)
(** What a node does besides taking events in ([crates/hit-node/src/lib.rs]):
    starting from its store, keeping its own binding and its groups' state
    current, answering what a peer or the app asks of it, and signing what its
    person does.  What a handler hands to the network (a DM's devices, a room's
    viewers) is what it returns; the dialling is [Sync]'s. *)
From S2P Require Import Prelude Text Nostr GroupEvent Replace Perm Zap GroupState Fold.
From S2P Require Import Binding Dm Groups EventStore Proto Person Node.

#[local] Open Scope Z_scope.

(** [Tag::event], and a file's extension, lowercased
    ([Path::extension], [to_lowercase]). *)
Class NodeTypes {N : NostrTypes} := {
  tag_event : EventId -> Tag;
  Path : Type;
  extension : Path -> option string;
  file_name : Path -> option string;
}.

Section NodeOps.
Context {N : NostrTypes} {O : NostrOps} {T : DeviceTypes} {P : DeviceOps} {C : DmCrypto}.
Context {Y : WireTypes} {F : ProfileTypes} {NT : NodeTypes}.
#[local] Open Scope string_scope.
#[local] Open Scope Z_scope.
#[local] Open Scope list_scope.

Fixpoint for_each {A} (f : A -> M unit) (l : list A) : M unit :=
  match l with [] => ret tt | a :: t => let* _ := f a in for_each f t end.
(** [?] on the store, the signer and the keychain. *)
Definition held {A} (r : result StoreError A) : result NodeError A :=
  match r with Ok a => Ok a | Err e => Err (StoreFailed e) end.
Definition lift_node {A} (r : result NodeError A) : M A :=
  match r with Ok a => ret a | Err e => fail e end.
Definition signed (o : option Event) : M Event := match o with Some e => ret e | None => fail KeyFailed end.
(** [EventBuilder::finalize]: a builder without a date is dated now. *)
Definition sign_at (env : Env) (k : Keys) (b : EventBuilder) : option Event :=
  finalize k (b_at b (opt_get (now env) (b_created_at b))).

(** ** Filters *)
Definition kinds_filter (ks : list Kind) : Filter := mkFilter None None (Some ks) None None None None [].
Definition authors_filter (k : Kind) (ps : gset PublicKey) : Filter :=
  mkFilter None (Some ps) (Some [k]) None None None None [].
Definition latest_filter (k : Kind) (p : PublicKey) : Filter :=
  mkFilter None (Some {[p]}) (Some [k]) None None None (Some 1) [].
Definition tag_filter (ks : list Kind) (name : string) (values : gset string) : Filter :=
  mkFilter None None (Some ks) None None None None [(name, values)].

(** ** Starting *)
Definition max_of (l : list Z) : option Z :=
  foldr (fun x acc => Some (match acc with Some m => Z.max x m | None => x end)) None l.

Definition default_roles : list RoleDef :=
  [mkRole DEFAULT_ROLE "Member" Perm.DEFAULT_MEMBER 0;
   mkRole "mod" "Moderator" Perm.DEFAULT_MODERATOR 10;
   mkRole "admin" "Admin" Perm.DEFAULT_ADMIN 20].

(** Every binding held, into a book; those it refuses are not loaded. *)
Definition load (now : Timestamp) (book : gmap (PublicKey * string) Event) (e : Event) :=
  match insert_binding book e now with Ok (b, _) => b | Err _ => book end.
Definition book_of (now : Timestamp) (evs : list Event) : gmap (PublicKey * string) Event :=
  foldl (load now) ∅ evs.

Definition own_filter (person : PublicKey) (device : EndpointId) : Filter :=
  mkFilter None (Some {[person]}) (Some [DEVICE_BINDING]) None None None None [("d", {[ep_to_string device]})].
Definition own_binding (person : Keys) (device : DeviceKey) (s : EventStore.Store)
    (book : gmap (PublicKey * string) Event) (now : Timestamp)
    : result NodeError (Event * gmap (PublicKey * string) Event * EventStore.Store) :=
  let? mine := held (query s (own_filter (keys_public_key person) (device_public device))) in
  let fresh :=
    let? fresh := ok_or (sign_binding person device now DEFAULT_TTL) KeyFailed in
    let? verified := match Verified_check fresh with
                     | Ok e => Ok e | Err _ => Err (Protocol "bad event id or signature") end in
    let? book := match insert_binding book fresh now with
                 | Ok (b, _) => Ok b | Err e => Err (PeerBinding e) end in
    let? s := held (insert s verified now) in
    Ok (fresh, book, s.1) in
  match mine with
  | [] => fresh
  | current :: _ =>
      if is_revoked current then Err DeviceRevoked
      else if negb (needs_renewal current now) && is_ok (verify_binding_at current (device_public device) now)
      then Ok (current, book, s)
      else fresh
  end.

Fixpoint fold_groups (s : EventStore.Store) (G : Groups) (l : list PublicKey) : result StoreError Groups :=
  match l with
  | [] => Ok G
  | g :: t =>
      let? evs := group_events s g in
      fold_groups s (set_state (carry G g) g (fold g evs)) t
  end.
Definition groups_in (s : EventStore.Store) (me : PublicKey) : result StoreError Groups :=
  fold_groups s (Groups_new me) (carried_groups s).
Definition carried_list (G : Groups) : list PublicKey := map fst (map_entries pk_leb (g_carried G)).

(** [Node::start], once the device key and the endpoint are there. *)
Definition start (env : Env) (person : Keys) (device : DeviceKey) (s : EventStore.Store) : result NodeError Inner :=
  let? bindings := held (query s (kinds_filter [DEVICE_BINDING])) in
  let? mine := own_binding person device s (book_of (now env) bindings) (now env) in
  let '(binding, book, s) := mine in
  let? groups := held (groups_in s (keys_public_key person)) in
  let? lists := held (query s (kinds_filter [INBOX_LIST])) in
  let groups := foldl (fun G l => set_inboxes G (ev_pubkey l) (inbox_npubs l)) groups lists in
  let n := mkInner person device s book groups binding ∅ ∅ ∅ ∅ ∅ None ∅ ∅ ∅ [] in
  Ok (for_each (group_changed env) (carried_list groups) n).1.

(** ** A session's side of the node *)
Definition reached_now (env : Env) (device : EndpointId) : M unit :=
  modify (fun n => with_reached (<[device := instant env]> (n_reached n)) n).
Definition heard_from (env : Env) (device : EndpointId) : M unit :=
  let* _ := reached_now env device in
  modify (fun n => with_heard ({[device]} ∪ n_heard n) n).
Definition take_heard : M (gset EndpointId) :=
  fun n => (with_heard ∅ n, Ok (n_heard n)).
Definition authenticate_peer (env : Env) (presented : Event) (conn : EndpointId) : M PublicKey :=
  let* n := get in
  let r := authenticate (n_book n) presented conn (now env) in
  let* _ := modify (with_book r.1) in
  match r.2 with
  | Err e => fail (PeerBinding e)
  | Ok person => let* _ := accept_event env Fetch presented in ret person
  end.
Definition visible (env : Env) (reader : PublicKey) (f : Filter) : M (list Event) :=
  let* n := get in
  let* evs := lift (query (n_store n) f) in
  ret (List.filter (fun e => Groups_may_read (n_groups n) reader e (now env)) evs).
Definition offered (me peer : PublicKey) (now : Timestamp) (e : Event) : bool :=
  negb (ev_kind e =? DEVICE_BINDING)
  || (negb (bool_decide (ev_pubkey e = me)) && negb (bool_decide (ev_pubkey e = peer))
      && is_some_and (tags_expiration (ev_tags e)) (fun exp => now <? exp)).
Definition reconcilable (env : Env) (peer : PublicKey) (f : Filter) : M (list Event) :=
  let* n := get in
  let* evs := visible env peer f in
  ret (List.filter (offered (me n) peer (now env)) evs).

(** ** Housekeeping *)
Definition expire_inbox_if_due (env : Env) : M unit :=
  let* n := get in
  if is_some_and (n_inbox_expired n) (fun l => instant env <? l + 60) then ret tt
  else
    let* _ := modify (with_inbox_expired (Some (instant env))) in
    let* _ := on_store (fun s => expire_wraps s (me n) (sat_sub (now env) INBOX_KEEP_SECS)) in
    ret tt.
Definition renew_binding_if_due (env : Env) : M unit :=
  let* n := get in
  if negb (needs_renewal (n_own_binding n) (now env)) then ret tt
  else
    let* fresh := signed (sign_binding (n_person n) (n_device n) (now env) DEFAULT_TTL) in
    let* _ := publish env fresh in
    modify (with_own_binding fresh).
Definition refold_one (env : Env) (g : PublicKey) : M unit :=
  let* n := get in
  let* evs := lift (group_events (n_store n) g) in
  let seen := n_folded n !! g in
  if bool_decide (seen = Some (length evs)) then ret tt
  else
    let* _ := modify (fun n => with_folded (<[g := length evs]> (n_folded n)) n) in
    if negb (opt_bool seen) then ret tt
    else
      let* _ := modify (fun n => with_groups (set_state (n_groups n) g (fold g evs)) n) in
      let* _ := group_changed env g in
      purge_silenced g.
Definition refold_if_changed (env : Env) : M unit :=
  let* n := get in
  for_each (refold_one env) (carried_list (n_groups n)).
Definition refresh_inbox_devices : M unit :=
  let* n := get in
  let people := peers (n_groups n) in
  if bool_decide (people = ∅) then ret tt
  else
    let* lists := lift (query (n_store n) (authors_filter INBOX_LIST people)) in
    modify (with_inbox_devices (list_to_set (filter_map snd (flat_map inboxes_of lists)))).
Definition sync_targets (env : Env) (n : Inner) : gset EndpointId :=
  (list_to_set (flat_map (fun p => devices_of (n_book n) p (now env)) (elements (peers (n_groups n))))
   ∪ n_hints n ∪ n_inbox_devices n) ∖ {[my_id n]}.

(** ** Signing *)
Definition ORDERED : list Kind := [PUT_USER; REMOVE_USER; EDIT_METADATA; MUTE_USER].
Definition sign_and_publish (env : Env) (b : EventBuilder) : M Event :=
  let* n := get in
  let* ev := signed (sign_at env (n_person n) b) in
  let* ev :=
    match (if kind_in (ev_kind ev) ORDERED then group_of ev else None) with
    | Some g =>
        let* evs := lift (group_events (n_store n) g) in
        match max_of (map ev_created_at
                (List.filter (fun e => bool_decide (ev_pubkey e = me n) && (ev_kind e =? ev_kind ev)) evs)) with
        | Some last =>
            if ev_created_at ev <=? last
            then signed (sign_at env (n_person n) (b_at b (ts_add last 1)))
            else ret ev
        | None => ret ev
        end
    | None => ret ev
    end in
  let* _ := publish env ev in
  ret ev.

(** *** What a person does, each one signed event *)
Definition say (env : Env) (g : PublicKey) (channel text : string) := sign_and_publish env (message g channel text).
Definition say_with (env : Env) (g : PublicKey) (channel text : string) (files : list Attachment) :=
  sign_and_publish env (message_with g channel text files).
Definition put (env : Env) (g target : PublicKey) (roles : list string) := sign_and_publish env (put_user g target roles).
Definition remove_member (env : Env) (g target : PublicKey) := sign_and_publish env (remove_user g target).
Definition ban (env : Env) (g target : PublicKey) := sign_and_publish env (ban_user g target).
Definition unban (env : Env) (g target : PublicKey) := sign_and_publish env (unban_user g target).
Definition mute (env : Env) (g target : PublicKey) (until : option Timestamp) :=
  sign_and_publish env (mute_user g target until).
Definition edit (env : Env) (g : PublicKey) (edits : list Edit) := sign_and_publish env (edit_metadata g edits).
Definition remove_events (env : Env) (g : PublicKey) (channel : string) (targets : list EventId) :=
  sign_and_publish env (delete_event g channel targets).
Definition react (env : Env) (g : PublicKey) (channel : string) (target : EventId) (emoji : string) : M Event :=
  let* n := get in
  let* held := lift (by_ids (n_store n) [target]) in
  match head held with
  | None => fail NoSuchEvent
  | Some e => sign_and_publish env (reaction g channel target (ev_pubkey e) emoji)
  end.
Definition delete_own (env : Env) (g : PublicKey) (channel : string) (targets : list EventId) : M Event :=
  let* n := get in
  let* held := lift (by_ids (n_store n) targets) in
  if negb (length held =? length targets)%nat
     || existsb (fun e => negb (bool_decide (ev_pubkey e = me n))) held
  then fail NotYours
  else sign_and_publish env (deletion g channel targets).
Definition announce_presence (env : Env) : M unit :=
  let* n := get in
  for_each (fun s =>
    let* ev := signed (sign_at env (n_person n) (presence (gs_id s))) in publish env ev)
    (groups_of (n_groups n) (me n)).

(** *** Profiles *)
Definition own_profile : M (option Event) :=
  let* n := get in
  let* l := lift (query (n_store n) (latest_filter PROFILE (me n))) in ret (head l).
Definition set_profile (env : Env) (build : option Event -> EventBuilder) : M Event :=
  let* current := own_profile in
  let at_ := match current with
             | Some c => Z.max (now env) (ts_add (ev_created_at c) 1)
             | None => now env
             end in
  sign_and_publish env (b_at (build current) at_).
Definition set_own_name (env : Env) (name : string) := set_profile env (fun prev => with_name prev name).
Definition set_anchor_profile (env : Env) (name : string) := set_profile env (fun prev => as_anchor prev name).
Definition set_own_lud16 (env : Env) (address : option (string * PublicKey)) :=
  set_profile env (fun prev => with_lud16 prev address).
Definition set_anchor_relay (env : Env) (url : option string) := set_profile env (fun prev => with_relay prev url).

(** *** Inboxes *)
Definition set_inbox (env : Env) (anchors : list PublicKey) : M Event :=
  let* n := get in
  let named := flat_map (fun a => map (fun d => (a, d)) (devices_of (n_book n) a (now env))) anchors in
  let* current := lift (query (n_store n) (latest_filter INBOX_LIST (me n))) in
  let at_ := match head current with
             | Some c => Z.max (now env) (ts_add (ev_created_at c) 1)
             | None => now env
             end in
  sign_and_publish env (b_at (inbox_list named) at_).
Definition inbox_of (person : PublicKey) : M (list (PublicKey * option EndpointId)) :=
  let* n := get in
  let* l := lift (query (n_store n) (latest_filter INBOX_LIST person)) in
  ret (match head l with Some e => inboxes_of e | None => [] end).

(** *** Direct messages *)
(** Both wraps stored; the devices theirs is handed to. *)
Definition deliver_dm (env : Env) (to : PublicKey) (theirs mine : Event) : M (Dm * list EndpointId) :=
  let* n := get in
  match open_dm (n_person n) mine with
  | None => fail (Protocol "our own DM did not open")
  | Some opened =>
      let* _ := publish env mine in
      let* _ := publish env theirs in
      let* n := get in
      let* boxes := inbox_of to in
      let devices := List.filter (fun d => negb (bool_decide (d = my_id n)))
                       (devices_of (n_book n) to (now env) ++ filter_map snd boxes) in
      let* _ := modify (fun n => with_hints (list_to_set devices ∪ n_hints n) n) in
      ret (opened, devices)
  end.
Definition send_dm (env : Env) (to : PublicKey) (text : string) : M (Dm * list EndpointId) :=
  let* n := get in
  match wrap_dm (n_person n) to text (Some (n_own_binding n)) with
  | None => fail KeyFailed
  | Some (theirs, mine) => deliver_dm env to theirs mine
  end.
Definition dm_leb (a b : Dm) : bool :=
  (dm_at a <? dm_at b) || ((dm_at a =? dm_at b) && id_leb (dm_id a) (dm_id b)).
(** The first of each id. *)
Fixpoint first_of {A K} `{EqDecision K} (key : A -> K) (seen : list K) (l : list A) : list A :=
  match l with
  | [] => []
  | a :: t =>
      if bool_decide (key a ∈ seen) then first_of key seen t
      else a :: first_of key (key a :: seen) t
  end.
Definition dms : M (list Dm) :=
  let* n := get in
  let* wraps := lift (query (n_store n) (tag_filter [GIFT_WRAP] "p" {[pk_to_hex (me n)]})) in
  ret (isort dm_leb (first_of dm_id [] (filter_map (open_dm (n_person n)) wraps))).

(** ** Answers *)
Definition group_list (n : Inner) : list (PublicKey * option GroupState) :=
  map (fun g => (g, state (n_groups n) g)) (carried_list (n_groups n)).
Definition shares_group (n : Inner) (person : PublicKey) : bool :=
  existsb (fun gs => is_some_and gs.2 (fun s => is_member s (me n) && is_member s person)) (group_list n).
Definition members_of (n : Inner) (g : PublicKey) : list PublicKey :=
  match state (n_groups n) g with
  | Some s => map fst (map_entries pk_leb (gs_members s))
  | None => []
  end.
Definition voice_viewers (env : Env) (n : Inner) (g : PublicKey) (channel : string) : list EndpointId :=
  match state (n_groups n) g with
  | None => []
  | Some s =>
      List.filter (fun d => negb (bool_decide (d = my_id n)))
        (flat_map (fun p => devices_of (n_book n) p (now env))
          (List.filter (fun p => Perm.contains (effective s p channel) Perm.VIEW_CHANNEL) (members_of n g)))
  end.
(** The devices a restricted room's presence is handed to. *)
Definition announce_voice (env : Env) (g : PublicKey) (channel : string) (inside : bool) : M (list EndpointId) :=
  let* n := get in
  let* ev := signed (sign_at env (n_person n) (voice_presence g channel inside)) in
  let restricted := negb (opt_bool (gossip_group (n_groups n) ev)) in
  let* v := accept_event env Local ev in
  if negb v.1 then fail (Protocol v.2)
  else
    let* n := get in
    ret (if restricted then voice_viewers env n g channel else []).
Definition since {K} `{Countable K} (env : Env) (within : Z) (m : gmap K Instant) : list K :=
  map fst (List.filter (fun '(_, at_) => sat_sub (instant env) at_ <=? within) (map_to_list m)).
Definition voice_participants (env : Env) (n : Inner) (g : PublicKey) (channel : string) (within : Z)
    : gset PublicKey :=
  list_to_set (since env within (opt_get ∅ (n_voice n !! (g, channel)))).
Definition reachable (env : Env) (n : Inner) (within : Z) : gset PublicKey :=
  list_to_set (flat_map (fun d => persons_of (n_book n) d (now env)) (since env within (n_reached n))).
Definition present (env : Env) (n : Inner) (within : Z) : gset PublicKey :=
  reachable env n within ∪ list_to_set (since env within (n_present n)).

Definition channel_messages (g : PublicKey) (channel : option string) : M (list Event) :=
  let* n := get in
  let* out := lift (messages (n_store n) g) in
  ret (match channel with
       | Some c => List.filter (fun e => bool_decide (channel_of e = Some c)) out
       | None => out
       end).
Definition channel_events (g : PublicKey) (channel : string) (kinds : list Kind) : M (list Event) :=
  let* n := get in
  let* evs := lift (query (n_store n) (tag_filter kinds "h" {[pk_to_hex g]})) in
  ret (rev (List.filter (fun e => bool_decide (channel_of e = Some channel)) evs)).
Definition anchors (g : PublicKey) : M (list PublicKey) :=
  let* n := get in
  match members_of n g with
  | [] => ret []
  | l =>
      let* profiles := lift (query (n_store n) (authors_filter PROFILE (list_to_set l))) in
      ret (map ev_pubkey (List.filter is_anchor profiles))
  end.
Definition receipt_relays (g : PublicKey) : M (list string) :=
  let* l := anchors g in
  match l with
  | [] => ret []
  | _ =>
      let* n := get in
      let* profiles := lift (query (n_store n) (authors_filter PROFILE (list_to_set l))) in
      ret (filter_map relay_of profiles)
  end.
Definition lud16_of_person (person : PublicKey) : M (option (string * option PublicKey)) :=
  let* n := get in
  let* l := lift (query (n_store n) (latest_filter PROFILE person)) in
  ret (let! p := head l in let! a := lud16_of p in Some (a, zap_pubkey_of p)).
Definition names (people : list PublicKey) : M (gmap PublicKey string) :=
  match people with
  | [] => ret ∅
  | _ =>
      let* n := get in
      let* evs := lift (query (n_store n) (authors_filter PROFILE (list_to_set people))) in
      ret (foldl (fun m e => match name_of e with Some v => <[ev_pubkey e := v]> m | None => m end) ∅ evs)
  end.

(** ** Zaps *)
Record ZapTotal := mkZapTotal { zt_msat : Z; zt_count : Z; zt_zappers : list PublicKey }.
(** A zap that counts: for the target's author, signed by the provider their
    profile names. *)
Definition counts (authors : gmap EventId PublicKey) (providers : gmap PublicKey PublicKey) (z : Zap) : bool :=
  bool_decide (authors !! z_target z = Some (z_recipient z))
  && bool_decide (providers !! z_recipient z = Some (z_provider z)).
Definition authors_of (evs : list Event) : gmap EventId PublicKey :=
  foldl (fun m e => <[ev_id e := ev_pubkey e]> m) ∅ evs.
Definition providers_of (evs : list Event) : gmap PublicKey PublicKey :=
  foldl (fun m p => match zap_pubkey_of p with Some k => <[ev_pubkey p := k]> m | None => m end) ∅ evs.
Definition carried_zap (c : Event) : option Zap := match carried c with Ok z => Some z | Err _ => None end.
Definition zaps_of (targets : list EventId) : M (list Zap) :=
  match targets with
  | [] => ret []
  | _ =>
      let* n := get in
      let* carriers := lift (query (n_store n)
        (tag_filter [ZAP_CARRIER] "e" (list_to_set (map id_to_hex targets)))) in
      match carriers with
      | [] => ret []
      | _ =>
          let* held := lift (by_ids (n_store n) targets) in
          let authors := authors_of held in
          let* profiles := lift (query (n_store n)
            (authors_filter PROFILE (list_to_set (map snd (map_to_list authors))))) in
          let providers := providers_of profiles in
          ret (isort (fun a b => z_paid_at a <=? z_paid_at b)
                (first_of z_receipt []
                  (List.filter (counts authors providers) (filter_map carried_zap carriers))))
      end
  end.
Definition add_zap (totals : gmap EventId ZapTotal) (z : Zap) : gmap EventId ZapTotal :=
  let t := opt_get (mkZapTotal 0 0 []) (totals !! z_target z) in
  <[z_target z :=
      mkZapTotal (u64_add (zt_msat t) (z_amount_msat z)) (zt_count t + 1)
        (match z_sender z with
         | Some s => if bool_decide (s ∈ zt_zappers t) then zt_zappers t else zt_zappers t ++ [s]
         | None => zt_zappers t
         end)]> totals.
Definition zap_totals (targets : list EventId) : M (gmap EventId ZapTotal) :=
  let* zaps := zaps_of targets in ret (foldl add_zap ∅ zaps).
Definition carry_zap (env : Env) (receipt : Event) : M (option Event) :=
  match check_receipt receipt with
  | Err e => fail (ZapFailed e)
  | Ok zap =>
      let* n := get in
      let* held := lift (by_ids (n_store n) [z_target zap]) in
      match head held with
      | None => fail NoSuchEvent
      | Some target =>
          match group_of target, channel_of target with
          | Some g, Some channel =>
              if negb (bool_decide (ev_pubkey target = z_recipient zap)) then fail (ZapFailed Mismatch)
              else
                let* provider := lud16_of_person (z_recipient zap) in
                if negb (bool_decide ((let! p := provider in p.2) = Some (z_provider zap)))
                then fail NotTheirProvider
                else
                  let* zaps := zaps_of [z_target zap] in
                  if existsb (fun z => bool_decide (z_receipt z = z_receipt zap)) zaps then ret None
                  else
                    let* ev := sign_and_publish env (carrier tag_public_key tag_event g channel receipt zap) in
                    ret (Some ev)
          | _, _ => fail NoSuchEvent
          end
      end
  end.
End NodeOps.
