(* ===== verification/Doors.v ===== *)
(** How a device opens its doors ([crates/hit-node/src/accept.rs], [device.rs]):
    which protocol an incoming connection is handed to, and the key file that
    makes an install the device it is. *)
From S2P Require Import Prelude Text Nostr Binding Proto.

#[local] Open Scope Z_scope.

(** ** Incoming connections (accept.rs)

    [iroh_blobs::ALPN], and the protocols other crates registered. *)
Class DoorTypes := { BLOBS_ALPN : list Z; Protocol : Type }.

Section Doors.
Context {N : NostrTypes} {D : DoorTypes}.
Inductive Handed := ToRelay | ToRegistered (p : Protocol) | ToBlobs | ToGossip (group : PublicKey) | Unsupported.
Definition registered (protocols : list (list Z * Protocol)) (alpn : list Z) : option Protocol :=
  find_map (fun x => if bool_decide (x.1 = alpn) then Some x.2 else None) protocols.
Definition handed (protocols : list (list Z * Protocol)) (alpn : list Z) : Handed :=
  if bool_decide (alpn = ALPN) then ToRelay
  else match registered protocols alpn with
       | Some p => ToRegistered p
       | None =>
           if bool_decide (alpn = BLOBS_ALPN) then ToBlobs
           else match gossip_alpn_group alpn with Some g => ToGossip g | None => Unsupported end
       end.
End Doors.

(** ** The device key (device.rs)

    The file, or why it cannot be read; and how writing a new one goes: it may
    not be made, or only some bytes of it reach the disk. *)
Section DeviceFile.
Context {T : DeviceTypes}.
Variable key_of : list Z -> DeviceKey.
Variable bytes_of_key : DeviceKey -> list Z.
Inductive KeyFile := KeyBytes (b : list Z) | NoKeyFile | KeyUnreadable (why : string).
Inductive KeyWrite := Written | NotMade (why : string) | Cut (n : nat) (why : string).
Definition load_or_create (fresh : DeviceKey) (writes : KeyWrite) (path : string) (f : KeyFile)
    : KeyFile * result string DeviceKey :=
  match f with
  | KeyBytes b =>
      (f, if (length b =? 32)%nat then Ok (key_of b) else Err (path +:+ " is not a 32-byte key"))
  | NoKeyFile =>
      match writes with
      | Written => (KeyBytes (bytes_of_key fresh), Ok fresh)
      | NotMade why => (f, Err why)
      | Cut n why => (KeyBytes (firstn n (bytes_of_key fresh)), Err why)
      end
  | KeyUnreadable why => (f, Err why)
  end.

(** Once there is a key it is the device's for good: whatever a later start
    would have made, the file is not touched and the same key is read. *)
Theorem key_for_good fresh writes path f f' k :
  (forall d, length (bytes_of_key d) = 32%nat /\ key_of (bytes_of_key d) = d) ->
  load_or_create fresh writes path f = (f', Ok k) ->
  forall fresh' writes' path', load_or_create fresh' writes' path' f' = (f', Ok k).
Proof.
  intros Hk. unfold load_or_create. destruct f as [b| |why]; [|destruct writes as [|why|n why]|done]; intros H *; [| |done|done].
  - destruct (length b =? 32)%nat eqn:E; [|by injection H]. injection H as <- <-. by rewrite E.
  - injection H as <- <-. destruct (Hk fresh) as [-> ->]. done.
Qed.
(** A write cut short leaves a file that is refused ever after: the device does
    not start again until someone removes it. *)
Theorem cut_for_good fresh n why path : length (bytes_of_key fresh) = 32%nat -> (n < 32)%nat ->
  let f := (load_or_create fresh (Cut n why) path NoKeyFile).1 in
  forall fresh' writes path', exists e, load_or_create fresh' writes path' f = (f, Err e).
Proof.
  intros Hl Hn f fresh' writes path'. unfold f. cbn. rewrite length_firstn, Hl, Nat.min_l by lia.
  destruct (Nat.eqb_spec n 32); [lia|]. by eexists.
Qed.
End DeviceFile.
