(* ===== verification/Reading.v ===== *)
(** What only reads a node: rules for handlers that leave it as it is. *)
From S2P Require Import Prelude Nostr GroupEvent EventStore StoreSpec StoreEffect Binding Dm Groups Proto Person Node NodeSpec NodeOps.

#[local] Open Scope Z_scope.

Section Reading.
Context {N : NostrTypes} {O : NostrOps} {L : NostrLaws} {J : JsonLaws} {T : DeviceTypes} {P : DeviceOps} {C : DmCrypto}.
Context {Y : WireTypes} {F : ProfileTypes} {NT : NodeTypes}.

Definition reads {A} (n : Inner) (m : M A) (Q : A -> Prop) : Prop :=
  (m n).1 = n /\ match (m n).2 with Ok a => Q a | Err _ => True end.
Lemma reads_ret {A} n (a : A) (Q : A -> Prop) : Q a -> reads n (ret a) Q.
Proof. by split. Qed.
Lemma reads_fail {A} n e (Q : A -> Prop) : reads n (fail e) Q.
Proof. by split. Qed.
Lemma reads_bind {A B} n (m : M A) (k : A -> M B) Q R : reads n m Q -> (forall a, Q a -> reads n (k a) R) -> reads n (bind m k) R.
Proof.
  intros [H1 H2] Hk. unfold reads, bind. destruct (m n) as [n' [a|e]]; cbn in *; subst n'; [by apply Hk|done].
Qed.
Lemma reads_get {A} n (k : Inner -> M A) Q : reads n (k n) Q -> reads n (bind get k) Q.
Proof. done. Qed.
Lemma reads_weaken {A} n (m : M A) (Q R : A -> Prop) : reads n m Q -> (forall a, Q a -> R a) -> reads n m R.
Proof. intros [H1 H2] H. split; [done|]. destruct (m n).2; auto. Qed.
Lemma reads_lift {A} n (r : result StoreError A) Q : (forall a, r = Ok a -> Q a) -> reads n (lift r) Q.
Proof. intros H. destruct r; cbn; [by apply reads_ret, H|apply reads_fail]. Qed.
Lemma reads_lift_node {A} n (r : result NodeError A) Q : (forall a, r = Ok a -> Q a) -> reads n (lift_node r) Q.
Proof. intros H. destruct r; cbn; [by apply reads_ret, H|apply reads_fail]. Qed.
Lemma reads_true {A} n (m : M A) : reads n m (fun _ => True) -> forall Q : A -> Prop, (forall a, Q a) -> reads n m Q.
Proof. intros H Q HQ. eapply reads_weaken; [exact H|auto]. Qed.
Lemma reads_relays n g : reads n (receipt_relays g) (fun _ => True).
Proof.
  unfold receipt_relays, anchors. apply (reads_bind _ _ _ (fun _ => True)).
  - apply reads_get. destruct (members_of n g); [by apply reads_ret|].
    apply (reads_bind _ _ _ (fun _ => True)); [by apply reads_lift|intros; by apply reads_ret].
  - intros l _. destruct l; [by apply reads_ret|]. apply reads_get.
    apply (reads_bind _ _ _ (fun _ => True)); [by apply reads_lift|intros; by apply reads_ret].
Qed.
Lemma reads_names n people : reads n (names people) (fun _ => True).
Proof.
  destruct people; [by apply reads_ret|]. apply reads_get.
  apply (reads_bind _ _ _ (fun _ => True)); [by apply reads_lift|intros; by apply reads_ret].
Qed.
Lemma reads_visible n env reader f : store_wf (n_store n) ->
  reads n (visible env reader f) (fun l => forall e, e ∈ l ->
    holds (n_store n) e /\ Groups_may_read (n_groups n) reader e (now env) = true).
Proof.
  intros Hw. apply reads_get. destruct (query_some (n_store n) f Hw) as (es & Hes & Hin & _). rewrite Hes.
  cbn. split; [done|]. cbn. intros e [He Hr]%filter_elem. auto.
Qed.
Lemma group_list_states n g s : (g, s) ∈ group_list n -> s = state (n_groups n) g.
Proof. unfold group_list. intros (g' & Heq & _)%list_elem_of_fmap. by injection Heq as -> ->. Qed.
End Reading.
