(* ===== verification/NodeGroups.v ===== *)
(** Making and running groups ([crates/hit-node/src/lib.rs]): a new group's
    first events, compaction, invites and links, a public group's
    announcement, judging without a running node, and the files a node holds
    or asks for. *)
From S2P Require Import Prelude Text Nostr GroupEvent Replace Perm Zap GroupState Fold.
From S2P Require Import Binding Dm Groups EventStore Proto Person Node NodeOps.

#[local] Open Scope Z_scope.

Section NodeGroups.
Context {N : NostrTypes} {O : NostrOps} {T : DeviceTypes} {P : DeviceOps} {C : DmCrypto}.
Context {Y : WireTypes} {F : ProfileTypes} {NT : NodeTypes}.
#[local] Open Scope string_scope.
#[local] Open Scope Z_scope.
#[local] Open Scope list_scope.

(** ** New groups *)
Definition first_snapshot (owner : PublicKey) (name : string) (public : bool) : Snapshot :=
  mkSnapshot 0 name public 0 "" [mkChannel "general" "general" Text 0] [] default_roles
    (Some owner) {[owner := ∅]} ∅ ∅.
Definition snapshot_list (s : Snapshot) (key : Keys) (at_ : Timestamp) : option (list Event) :=
  let! evs := Snapshot_sign s key at_ in
  let '(meta, admins, members, roles) := evs in Some [meta; admins; members; roles].
Definition genesis (owner key : Keys) (name : string) (public : bool) (now : Timestamp)
    : result NodeError (list Event) :=
  let? evs := ok_or (snapshot_list (first_snapshot (keys_public_key owner) name public) key now) KeyFailed in
  let? created := ok_or (finalize owner (b_at (create_group (keys_public_key key)) now)) KeyFailed in
  Ok (evs ++ [created]).
(** With the group key just made; the key is kept whatever comes after. *)
Definition create_group_with {S} `{SecretStore S} (env : Env) (secrets : S) (key : Keys) (name : string)
    (public : bool) : S * M PublicKey :=
  match group_key_save key secrets with
  | Err _ => (secrets, fail KeyFailed)
  | Ok secrets =>
      (secrets,
       let g := keys_public_key key in
       let* _ := on_store (fun s => (carry_group s g (now env), tt)) in
       let* _ := modify (fun n => with_groups (carry (n_groups n) g) n) in
       let* n := get in
       let* evs := lift_node (genesis (n_person n) key name public (now env)) in
       let* _ := for_each (publish env) evs in
       ret g)
  end.

(** ** Compaction *)
Definition compaction (s : EventStore.Store) (key : Keys) (me : PublicKey) (now : Timestamp)
    : result NodeError (Z * list Event) :=
  let g := keys_public_key key in
  let? groups := held (groups_in s me) in
  let? st := ok_or (state groups g) NoSuchGroup in
  let? evs := held (group_events s g) in
  let? said := held (messages s g) in
  let newest := opt_get 0 (max_of (map ev_created_at (evs ++ said))) in
  let snap := to_snapshot st in
  let at_ := Z.max now (ts_add newest 1) in
  let? signed := ok_or (snapshot_list snap key at_) KeyFailed in
  Ok (sn_seq snap, signed).
Definition load_group_key {S} `{SecretStore S} (secrets : S) (g : PublicKey) : result NodeError (option Keys) :=
  match group_key_load secrets (opt_get (pk_to_hex g) (pk_to_bech32 g)) with
  | Ok k => Ok k
  | Err _ => Err KeyFailed
  end.
Definition compact {S} `{SecretStore S} (env : Env) (secrets : S) (g : PublicKey) : M Z :=
  let* key := lift_node (let? k := load_group_key secrets g in ok_or k NoGroupKey) in
  let* n := get in
  let* r := lift_node (compaction (n_store n) key (me n) (now env)) in
  let* _ := for_each (publish env) r.2 in
  ret r.1.

(** ** Links *)
Definition anchor_devices (book : gmap (PublicKey * string) Event) (now : Timestamp) (me_device : EndpointId)
    (profiles : list Event) : list EndpointId :=
  foldl (fun peers d => if negb (bool_decide (d = me_device)) && negb (bool_decide (d ∈ peers))
                        then peers ++ [d] else peers) []
    (flat_map (fun p => devices_of book (ev_pubkey p) now) (List.filter is_anchor profiles)).
Definition invite_peers (s : EventStore.Store) (me g : PublicKey) (me_device : EndpointId)
    (addr : option SocketAddr) (now : Timestamp) : result NodeError (list (EndpointId * option SocketAddr)) :=
  let? bindings := held (query s (kinds_filter [DEVICE_BINDING])) in
  let book := book_of now bindings in
  let? groups := held (groups_in s me) in
  let members := match state groups g with
                 | Some st => map fst (map_entries pk_leb (gs_members st)) | None => [] end in
  let? peers := match members with
    | [] => Ok []
    | _ => let? profiles := held (query s (authors_filter PROFILE (list_to_set members))) in
           Ok (anchor_devices book now me_device profiles)
    end in
  Ok (map (fun d => (d, None)) (take (MAX_PEERS - 1) peers) ++ [(me_device, addr)]).
(** With a code from [getrandom]. *)
Definition invite (env : Env) (g : PublicKey) (code : string) (valid_for : option Z) (addr : option SocketAddr)
    : M InviteLink :=
  let expires := option_map (ts_add (now env)) valid_for in
  let* _ := sign_and_publish env (create_invite g code expires) in
  let* n := get in
  let* peers := lift_node (invite_peers (n_store n) (me n) g (my_id n) addr (now env)) in
  ret (mkInviteLink g (Some code) peers).
Definition public_link (env : Env) (g : PublicKey) (addr : option SocketAddr) : M InviteLink :=
  let* n := get in
  if negb (is_some_and (state (n_groups n) g) gs_public) then fail (Refused NoSuchInvite)
  else
    let* peers := lift_node (invite_peers (n_store n) (me n) g (my_id n) addr (now env)) in
    ret (mkInviteLink g None peers).
Definition contact_link (env : Env) (n : Inner) (addr : option SocketAddr) : ContactLink :=
  mkContactLink (me n)
    ((my_id n, addr) ::
     map (fun d => (d, None))
       (List.filter (fun d => negb (bool_decide (d = my_id n))) (devices_of (n_book n) (me n) (now env)))).

Definition announcement {S} `{SecretStore S} (env : Env) (secrets : S)
    (g : PublicKey) (addr : option SocketAddr) (at_ : Timestamp) : M (option Event) :=
  let* n := get in
  match state (n_groups n) g with
  | None => ret None
  | Some st =>
      let* key := lift_node (load_group_key secrets g) in
      match key with
      | None => ret None
      | Some key =>
          let* ev :=
            if gs_public st then
              let* link := public_link env g addr in
              let members := Z.of_nat (size (gs_members st)) in
              lift_node (match announce key (gs_name st) (gs_about st) members (InviteLink_show link) at_ with
                         | Ok e => Ok e | Err _ => Err KeyFailed end)
            else lift_node (match announce_withdraw key at_ with Ok e => Ok e | Err _ => Err KeyFailed end) in
          ret (Some ev)
      end
  end.

(** ** Without a running node *)
Definition publish_offline (s : EventStore.Store) (me : PublicKey) (e : Event) (now : Timestamp)
    : result NodeError EventStore.Store :=
  let? e := match Verified_check e with Ok e => Ok e | Err _ => Err (Protocol "bad event id or signature") end in
  let? groups := held (groups_in s me) in
  let? j := match judge groups e now with Ok j => Ok j | Err r => Err (Refused r) end in
  let? _ := match j with
    | Groups.Store => Ok tt
    | FoldWith g =>
        let? applied := held (fold_applies s g e) in
        if applied then Ok tt else Err (Refused NotApplied)
    end in
  let? r := held (insert s e now) in Ok r.1.

(** ** Files *)
(** Lowercased: of the letters below, no other character's lowercase is one. *)
Definition guess_mime (ext : option string) : string :=
  match option_map to_ascii_lowercase ext with
  | Some "png" => "image/png"
  | Some "jpg" | Some "jpeg" => "image/jpeg"
  | Some "gif" => "image/gif"
  | Some "webp" => "image/webp"
  | Some "pdf" => "application/pdf"
  | Some "txt" | Some "md" | Some "log" => "text/plain"
  | Some "json" => "application/json"
  | Some "zip" => "application/zip"
  | Some "mp4" => "video/mp4"
  | Some "mp3" => "audio/mpeg"
  | _ => "application/octet-stream"
  end.
Definition file_char (c : string) : string :=
  if bool_decide (c = "/") || bool_decide (c = "\") || bool_decide (c = String zero "") then "_" else c.
Definition attach_meta (path : Path) : string * string :=
  (guess_mime (extension path),
   concat_str (take (Z.to_nat MAX_ATTACHMENT_NAME) (map file_char (chars (opt_get "file" (file_name path)))))).
(** [hash], [sha256] and [size] are what the blob store says of the file. *)
Definition attach (env : Env) (path : Path) (hash sha256 : string) (size : Z) : M Attachment :=
  let* _ := on_store (fun s => (touch_blob s hash true (now env), tt)) in
  let '(mime, name) := attach_meta path in
  ret (mkAttachment hash sha256 size mime name).

(** [push]: not this device, and once. *)
Definition push_device (mine : EndpointId) (order : list EndpointId) (d : EndpointId) : list EndpointId :=
  if negb (bool_decide (d = mine)) && negb (bool_decide (d ∈ order)) then order ++ [d] else order.
Fixpoint group_providers (env : Env) (order : list EndpointId) (carrying : list Event) : M (list EndpointId) :=
  match carrying with
  | [] => ret order
  | e :: t =>
      let* n := get in
      match group_of e with
      | None => group_providers env order t
      | Some g =>
          let* l := anchors g in
          let order := foldl (push_device (my_id n)) order
                         (flat_map (fun a => devices_of (n_book n) a (now env)) l) in
          group_providers env (foldl (push_device (my_id n)) order (member_devices n g (now env))) t
      end
  end.
(** Whom [fetch_file] asks for a file not here, in order. *)
Definition providers (env : Env) (hash : string) : M (list EndpointId) :=
  let* n := get in
  let* carrying := lift (carrying (n_store n) hash) in
  match carrying with
  | [] => fail (BlobFailed "no message here carries that file")
  | _ =>
      group_providers env
        (foldl (push_device (my_id n)) []
          (flat_map (fun e => devices_of (n_book n) (ev_pubkey e) (now env)) carrying)) carrying
  end.
End NodeGroups.
