(* ===== verification/Session.v ===== *)
(** Sessions over a connection ([crates/hit-node/src/relay.rs], [sync.rs]):
    a monad whose state is the session's own beside the node's, and the rules
    for reasoning about its runs. *)
From S2P Require Import Prelude Nostr GroupEvent EventStore Binding Proto Node.

Section Session.
Context {N : NostrTypes} {T : DeviceTypes} {S : Type}.
Definition Ses (A : Type) : Type := S * Inner -> (S * Inner) * result NodeError A.
Definition r_ret {A} (a : A) : Ses A := fun c => (c, Ok a).
Definition r_fail {A} (e : NodeError) : Ses A := fun c => (c, Err e).
Definition r_bind {A B} (m : Ses A) (k : A -> Ses B) : Ses B :=
  fun c => let '(c, r) := m c in match r with Ok a => k a c | Err e => (c, Err e) end.
(** The node's part, and the session's. *)
Definition inner {A} (m : M A) : Ses A :=
  fun '(x, n) => let '(n, r) := m n in ((x, n), r).
Definition session : Ses S := fun '(x, n) => ((x, n), Ok x).
Definition set_session (x : S) : Ses unit := fun '(_, n) => ((x, n), Ok tt).
Definition r_lift {A} (r : result NodeError A) : Ses A := fun c => (c, r).

(** ** Runs *)
Definition runs {A} (m : Ses A) (c : S * Inner) (Q : S * Inner -> result NodeError A -> Prop) : Prop :=
  Q (m c).1 (m c).2.
Lemma runs_ret {A} (a : A) c (Q : S * Inner -> result NodeError A -> Prop) : Q c (Ok a) -> runs (r_ret a) c Q.
Proof. done. Qed.
Lemma runs_fail {A} e c (Q : S * Inner -> result NodeError A -> Prop) : Q c (Err e) -> runs (r_fail e) c Q.
Proof. done. Qed.
Lemma runs_lift {A} r c (Q : S * Inner -> result NodeError A -> Prop) : Q c r -> runs (r_lift r) c Q.
Proof. done. Qed.
Lemma runs_bind {A B} (m : Ses A) (k : A -> Ses B) c Q :
  runs m c (fun c' r => match r with Ok a => runs (k a) c' Q | Err e => Q c' (Err e) end) -> runs (r_bind m k) c Q.
Proof. unfold runs, r_bind. by destruct (m c) as [c' [a|e]]. Qed.
Lemma runs_weaken {A} (m : Ses A) c (Q Q' : S * Inner -> result NodeError A -> Prop) :
  runs m c Q -> (forall c' r, Q c' r -> Q' c' r) -> runs m c Q'.
Proof. unfold runs. auto. Qed.
Lemma r_bind_eq {A B} (m : Ses A) (k : A -> Ses B) c :
  r_bind m k c = match (m c).2 with Ok a => k a (m c).1 | Err e => ((m c).1, Err e) end.
Proof. unfold r_bind. by destruct (m c). Qed.
Lemma runs_session x n (Q : S * Inner -> result NodeError S -> Prop) :
  Q (x, n) (Ok x) -> runs session (x, n) Q.
Proof. done. Qed.
Lemma runs_set_session y x n (Q : S * Inner -> result NodeError unit -> Prop) :
  Q (y, n) (Ok tt) -> runs (set_session y) (x, n) Q.
Proof. done. Qed.
End Session.
#[global] Arguments Ses {N T} S A.

Notation "'let^' x ':=' e 'in' k" := (r_bind e (fun x => k))
  (at level 200, x pattern, e at level 200, k at level 200, right associativity) : hit_scope.

(** One after another. *)
Fixpoint r_each {N : NostrTypes} {T : DeviceTypes} {S A : Type} (f : A -> Ses S unit) (l : list A) : Ses S unit :=
  match l with [] => r_ret tt | a :: t => let^ _ := f a in r_each f t end.
