(* ===== verification/Relay.v ===== *)
(** The relay half of [hit/nostr/1] ([crates/hit-node/src/relay.rs]): one
    session, from the dialler's first frame to its last.  The binding first,
    both ways; then requests, each judged as the person the binding named.
    A session is a state of its own - its negentropy sets, and what it has
    written - over the node's. *)
From S2P Require Import Prelude Text Nostr GroupEvent Replace Perm Zap GroupState Fold.
From S2P Require Import Binding Dm Groups EventStore Proto Person Node NodeOps Session.

#[local] Open Scope Z_scope.

Section Messages.
Context {N : NostrTypes}.
(** [nostr]'s [ClientMessage]; [Count] is another message. *)
Inductive ClientMessage :=
| CEvent (e : Event)
| CReq (sub : string) (filters : list Filter)
| CClose (sub : string)
| CNegOpen (sub : string) (f : Filter) (initial : string)
| CNegMsg (sub message : string)
| CNegClose (sub : string)
| CAuth (e : Event)
| COther.
Inductive RelayMessage :=
| REvent (sub : string) (e : Event)
| ROk (id : EventId) (status : bool) (message : string)
| REose (sub : string)
| RClosed (sub message : string)
| RNotice (message : string)
| RNegMsg (sub message : string)
| RNegErr (sub message : string)
| RAuth (challenge : string)
| ROther.
End Messages.

(** [nostr]'s messages as JSON, and the [negentropy] crate.  A [Neg] is a
    sealed set of items, reconciled by messages it answers. *)
Class RelayTypes {N : NostrTypes} := {
  client_from_json : string -> option ClientMessage;
  client_as_json : ClientMessage -> string;
  relay_from_json : string -> option RelayMessage;
  relay_as_json : RelayMessage -> string;
  Neg : Type;
  (** [insert]s, [seal] and [Negentropy::owned], with [NEG_FRAME_LIMIT]. *)
  neg_new : list (Timestamp * EventId) -> option Neg;
  neg_initiate : Neg -> option (Neg * string);
  neg_reconcile : Neg -> string -> Neg * option string;
  (** Ids we have and need; [None] when there is nothing left to ask. *)
  neg_reconcile_with_ids : Neg -> string ->
    option (Neg * list EventId * list EventId * option string);
  (** [Display] of a [NodeError]. *)
  error_text : NodeError -> string;
}.

Section Relay.
Context {N : NostrTypes} {O : NostrOps} {T : DeviceTypes} {P : DeviceOps} {C : DmCrypto}.
Context {Y : WireTypes} {F : ProfileTypes} {NT : NodeTypes} {RT : RelayTypes}.
#[local] Open Scope string_scope.
#[local] Open Scope Z_scope.
#[local] Open Scope list_scope.

(** ** The session *)
Inductive Sent := Hello (binding : Event) | Says (m : RelayMessage).
Record Sess := mkSess { x_negs : gmap string Neg; x_out : list Sent }.
Definition negs : Ses Sess (gmap string Neg) := fun '(x, n) => ((x, n), Ok (x_negs x)).
Definition set_negs (v : gmap string Neg) : Ses Sess unit := fun '(x, n) => ((mkSess v (x_out x), n), Ok tt).
(** [write_frame], to a stream that takes every byte. *)
Definition write_out (body : list Z) (s : Sent) : Ses Sess unit :=
  fun '(x, n) => match frame_encode body with
                 | Ok _ => ((mkSess (x_negs x) (x_out x ++ [s]), n), Ok tt)
                 | Err e => ((x, n), Err (FrameFailed e))
                 end.
Definition write_relay (m : RelayMessage) : Ses Sess unit := write_out (bytes_of (relay_as_json m)) (Says m).
Definition neg_err (sub why : string) : Ses Sess unit := write_relay (RNegErr sub why).
End Relay.

(** A session's handlers. *)
Abbreviation R := (Ses Sess) (only parsing).

Section Handlers.
Context {N : NostrTypes} {O : NostrOps} {T : DeviceTypes} {P : DeviceOps} {C : DmCrypto}.
Context {Y : WireTypes} {F : ProfileTypes} {NT : NodeTypes} {RT : RelayTypes}.
#[local] Open Scope string_scope.
#[local] Open Scope Z_scope.
#[local] Open Scope list_scope.

(** ** Requests *)
Definition capped (f : Filter) : Filter :=
  mkFilter (f_ids f) (f_authors f) (f_kinds f) (f_search f) (f_since f) (f_until f)
    (Some (match f_limit f with Some l => Z.min l MAX_EVENTS_PER_FILTER | None => MAX_EVENTS_PER_FILTER end))
    (f_tags f).
Definition unlimited (f : Filter) : Filter :=
  mkFilter (f_ids f) (f_authors f) (f_kinds f) (f_search f) (f_since f) (f_until f) None (f_tags f).

Definition handle_event (env : Env) (e : Event) : R unit :=
  let^ v := inner (accept_event env Push e) in
  write_relay (ROk (ev_id e) v.1 v.2).
Definition serve_filter (env : Env) (person : PublicKey) (sub : string) (f : Filter) : R unit :=
  let^ evs := inner (visible env person (capped f)) in
  r_each (fun e => write_relay (REvent sub e)) evs.
Definition handle_req (env : Env) (person : PublicKey) (sub : string) (filters : list Filter) : R unit :=
  if MAX_SUBSCRIPTION_ID_BYTES <? str_len sub
  then write_relay (RClosed sub "invalid: subscription id too long")
  else if MAX_FILTERS_PER_REQ <? Z.of_nat (length filters)
  then write_relay (RClosed sub "invalid: too many filters")
  else
    let^ _ := r_each (serve_filter env person sub) filters in
    write_relay (REose sub).
(** The set a session reconciles over. *)
Definition neg_items (evs : list Event) : list (Timestamp * EventId) :=
  map (fun e => (ev_created_at e, ev_id e)) evs.
Definition handle_neg_open (env : Env) (person : PublicKey) (sub : string) (f : Filter) (initial : string)
    : R unit :=
  let^ open := negs in
  if (MAX_NEG_SESSIONS <=? Z.of_nat (size open)) && negb (opt_bool (open !! sub))
  then neg_err sub "blocked: too many negentropy sessions"
  else
    let^ evs := inner (reconcilable env person (unlimited f)) in
    let reply :=
      let! neg := neg_new (neg_items evs) in
      let! message := hex_decode initial in
      let '(neg, out) := neg_reconcile neg message in
      let! out := out in Some (neg, out) in
    match reply with
    | Some (neg, out) =>
        let^ _ := set_negs (<[sub := neg]> open) in
        write_relay (RNegMsg sub (hex_encode out))
    | None => neg_err sub "invalid: bad negentropy message"
    end.
Definition handle_neg_msg (sub message : string) : R unit :=
  let^ open := negs in
  let out :=
    let! neg := open !! sub in
    let! bytes := hex_decode message in
    let '(neg, out) := neg_reconcile neg bytes in Some (neg, out) in
  let^ _ := match out with Some (neg, _) => set_negs (<[sub := neg]> open) | None => r_ret tt end in
  match (let! o := out in o.2) with
  | Some out => write_relay (RNegMsg sub (hex_encode out))
  | None =>
      let^ open := negs in
      let^ _ := set_negs (delete sub open) in
      neg_err sub "closed: unknown session or bad message"
  end.

Definition handle (env : Env) (person : PublicKey) (msg : ClientMessage) : R unit :=
  match msg with
  | CEvent e => handle_event env e
  | CReq sub filters => handle_req env person sub filters
  | CNegOpen sub f initial => handle_neg_open env person sub f initial
  | CNegMsg sub message => handle_neg_msg sub message
  | CNegClose sub => let^ open := negs in set_negs (delete sub open)
  | CClose _ => r_ret tt
  | CAuth _ | COther => write_relay (RNotice "error: unsupported message")
  end.

(** ** The session's frames

    What [read_frame] gives, one after another: bodies, each at its time, and
    then an error. *)
Definition turn (env : Env) (person : PublicKey) (body : list Z) : R unit :=
  match from_utf8 body with
  | None => write_relay (RNotice "error: frame is not UTF-8")
  | Some text =>
      match client_from_json text with
      | None => write_relay (RNotice "error: not a NIP-01 client message")
      | Some msg => handle env person msg
      end
  end.
Fixpoint turns (person : PublicKey) (bodies : list (Env * list Z)) : R unit :=
  match bodies with
  | [] => r_ret tt
  | (env, body) :: t => let^ _ := turn env person body in turns person t
  end.
(** The end of the stream: a clean close offers the binding again. *)
Definition finished (env : Env) (presented : Event) (ended : FrameError) : R unit :=
  match ended with
  | FrameClosed => fun '(x, n) => ((x, (accept_event env Fetch presented n).1), Ok tt)
  | e => r_fail (FrameFailed e)
  end.
Definition greet (env : Env) (device : EndpointId) (first : list Z) : R (Event * PublicKey) :=
  match hello_decode first with
  | Err e => r_fail (HelloFailed e)
  | Ok presented =>
      let^ person := inner (authenticate_peer env presented device) in
      let^ _ := inner (heard_from env device) in
      let^ n := inner get in
      let^ _ := write_out (hello_encode (n_own_binding n)) (Hello (n_own_binding n)) in
      r_ret (presented, person)
  end.
Definition serve (device : EndpointId) (bodies : list (Env * list Z)) (ended : Env * FrameError) : R unit :=
  match bodies with
  | [] => r_fail (FrameFailed ended.2)
  | (env, first) :: rest =>
      let^ p := greet env device first in
      let^ _ := turns p.2 rest in
      finished ended.1 p.1 ended.2
  end.
(** [Handler::accept]: a refusal is a notice, if it can be written. *)
Definition accept (device : EndpointId) (bodies : list (Env * list Z)) (ended : Env * FrameError) (n : Inner)
    : Sess * Inner :=
  let '(c, r) := serve device bodies ended (mkSess ∅ [], n) in
  match r with
  | Ok _ => c
  | Err why => (write_relay (RNotice ("refused: " +:+ error_text why)) c).1
  end.

End Handlers.
