(* ===== verification/RelaySpec.v ===== *)
(** What a session gives a peer, and does to the node: a stranger's hello is
    the end of it; a peer is served only what the person of its binding may
    read, in bounded amounts; every request is answered; and whatever a peer
    sends, the node stays right. *)
From S2P Require Import Prelude Text Nostr GroupEvent Replace Perm Zap GroupState Fold FoldOrder.
From S2P Require Import Answers Binding Dm Groups EventStore StoreSpec StoreEffect Proto Person.
From S2P Require Import Node NodeSpec NodeOps Session Relay.

#[local] Open Scope Z_scope.

Section RelaySpec.
Context {N : NostrTypes} {O : NostrOps} {L : NostrLaws} {J : JsonLaws}.
Context {T : DeviceTypes} {P : DeviceOps} {C : DmCrypto}.
Context {Y : WireTypes} {F : ProfileTypes} {NT : NodeTypes} {RT : RelayTypes}.

(** ** What the session asks of the node *)
Lemma visible_total n env reader f : node_ok n ->
  total (visible env reader f) n (fun n' evs => n' = n /\
    query (n_store n) f = Ok (match query (n_store n) f with Ok l => l | Err _ => [] end) /\
    (forall e, e ∈ evs -> holds (n_store n) e /\ Groups_may_read (n_groups n) reader e (now env) = true) /\
    (forall l, f_limit f = Some l -> (length evs <= Z.to_nat (to_i64 l))%nat)).
Proof.
  intros K. unfold visible. do 3 total_step.
  destruct (query_some (n_store n) f (k_wf _ _ _ _ K)) as (es & Hes & Hin & Hlen).
  eapply total_lift; [exact Hes|]. total_step. split; [done|]. rewrite Hes. split; [done|]. split.
  - intros e [He Hr]%filter_elem. auto.
  - intros l Hl. apply Hlen in Hl. etransitivity; [|exact Hl].
    clear. induction es as [|e es IH]; cbn; [lia|]. destruct (Groups_may_read _ _ _ _); cbn; lia.
Qed.
Lemma reconcilable_total n env peer f : node_ok n ->
  total (reconcilable env peer f) n (fun n' evs => n' = n /\
    forall e, e ∈ evs -> holds (n_store n) e /\ Groups_may_read (n_groups n) peer e (now env) = true).
Proof.
  intros K. unfold reconcilable. do 3 total_step. eapply total_weaken; [by apply visible_total|].
  intros n' evs (-> & _ & Hin & _). total_step. split; [done|]. intros e [He _]%filter_elem. auto.
Qed.

(** Both sides of a sync reconcile over exactly the same rule: an event
    is in the set offered to a peer if and only if this node holds it, the
    filter wants it, the peer may read it now, and it is not a binding of
    either party or one that expired. *)
Theorem reconcilable_spec n env peer f : node_ok n -> filter_ok f -> f_search f = None -> f_limit f = None ->
  exists evs, reconcilable env peer f n = (n, Ok evs) /\
    forall e, e ∈ evs <-> holds (n_store n) e /\ event_matches f e = true /\
      Groups_may_read (n_groups n) peer e (now env) = true /\
      (ev_kind e = DEVICE_BINDING -> ev_pubkey e <> me n /\ ev_pubkey e <> peer /\
         exists exp, tags_expiration (ev_tags e) = Some exp /\ now env < exp).
Proof.
  intros K Hf Hs Hl.
  destruct (query_held (n_store n) f (k_wf _ _ _ _ K) (k_dated _ _ _ _ K) Hf Hs) as (all & Hq & _ & Hall).
  rewrite Hl in Hq. cbn [limited] in Hq.
  unfold reconcilable, visible, bind, get, lift. rewrite Hq. cbn. eexists. split; [done|].
  intros e. rewrite !filter_elem, Hall. unfold offered.
  destruct (Z.eqb_spec (ev_kind e) DEVICE_BINDING) as [Hk|Hk]; cbn [negb orb].
  - rewrite !andb_true_iff, !negb_true_iff, !bool_decide_eq_false.
    destruct (tags_expiration (ev_tags e)) as [exp|]; cbn.
    + rewrite Z.ltb_lt. naive_solver.
    + naive_solver.
  - naive_solver.
Qed.

(** ** Runs of a session *)
Lemma runs_inner {S A} (m : M A) (x : S) n (Q : S * Inner -> result NodeError A -> Prop) Q' :
  total m n Q' -> (forall n' a, Q' n' a -> Q (x, n') (Ok a)) -> runs (inner m) (x, n) Q.
Proof. intros (n' & a & Hm & HQ) H. unfold runs, inner. rewrite Hm. by apply H. Qed.
Lemma runs_negs x n (Q : Sess * Inner -> result NodeError (gmap string Neg) -> Prop) :
  Q (x, n) (Ok (x_negs x)) -> runs negs (x, n) Q.
Proof. done. Qed.
Lemma runs_set v x n (Q : Sess * Inner -> result NodeError unit -> Prop) :
  Q (mkSess v (x_out x), n) (Ok tt) -> runs (set_negs v) (x, n) Q.
Proof. done. Qed.
(** Only a frame too large for the wire is not written. *)
Definition unwritable (r : NodeError) : Prop := exists f, r = FrameFailed f.
Lemma runs_out body s x n (Q : Sess * Inner -> result NodeError unit -> Prop) :
  Q (mkSess (x_negs x) (x_out x ++ [s]), n) (Ok tt) -> (forall f, Q (x, n) (Err (FrameFailed f))) ->
  runs (write_out body s) (x, n) Q.
Proof. intros H1 H2. unfold runs, write_out. destruct (frame_encode body); [exact H1|apply H2]. Qed.

(** What a piece of a session, starting at [(x, n)], did: its output [l], its
    negentropy sets few, the node right - and untouched, unless [writes]. *)
Definition few (x : Sess) : Prop := Z.of_nat (size (x_negs x)) <= MAX_NEG_SESSIONS.
Record did (writes : bool) (x : Sess) (n : Inner) (c : Sess * Inner) (l : list Sent) : Prop := {
  d_out : x_out c.1 = x_out x ++ l;
  d_few : few x -> few c.1;
  d_ok : node_ok n -> node_ok c.2;
  d_node : writes = false -> c.2 = n;
}.
Lemma did_nothing w x n : did w x n (x, n) [].
Proof. split; try done. cbn. by rewrite app_nil_r. Qed.
Lemma did_trans w x n x1 n1 c l1 l2 : did w x n (x1, n1) l1 -> did w x1 n1 c l2 -> did w x n c (l1 ++ l2).
Proof.
  intros [H1 H2 H3 H4] [H5 H6 H7 H8]. cbn [fst snd] in *. split.
  - by rewrite H5, H1, app_assoc.
  - auto.
  - auto.
  - intros Hw. by rewrite H8, H4.
Qed.
Lemma write_did body s x n : runs (write_out body s) (x, n) (fun c r =>
  (r = Ok tt /\ did false x n c [s]) \/ (exists e, r = Err e /\ unwritable e /\ did false x n c [])).
Proof.
  apply runs_out; [left; by split|]. intros f. right. eexists. split; [done|]. split; [by exists f|apply did_nothing].
Qed.

(** ** Serving *)
Definition readable (env : Env) (person : PublicKey) (n : Inner) (s : Sent) : Prop :=
  match s with
  | Says (REvent _ e) => holds (n_store n) e /\ Groups_may_read (n_groups n) person e (now env) = true
  | _ => True
  end.
(** The answer to one request. *)
Definition answers (msg : ClientMessage) (l : list Sent) : Prop :=
  match msg with
  | CEvent e => exists ok why, l = [Says (ROk (ev_id e) ok why)]
  | CReq sub _ => (exists why, l = [Says (RClosed sub why)]) \/
      exists evs, l = map (fun e => Says (REvent sub e)) evs ++ [Says (REose sub)]
  | CNegOpen sub _ _ | CNegMsg sub _ =>
      (exists out, l = [Says (RNegMsg sub out)]) \/ (exists why, l = [Says (RNegErr sub why)])
  | CNegClose _ | CClose _ => l = []
  | CAuth _ | COther => exists why, l = [Says (RNotice why)]
  end.
Definition REQ_BOUND : nat := 4001.
(** What comes of a request: answered, or cut short by an answer too large;
    what was sent is readable, and bounded. *)
Definition handled (env : Env) (person : PublicKey) (msg : ClientMessage) (x : Sess) (n : Inner)
    (c : Sess * Inner) (r : result NodeError unit) : Prop :=
  exists l, did (match msg with CEvent _ => true | _ => false end) x n c l /\
    Forall (readable env person n) l /\ (length l <= REQ_BOUND)%nat /\
    match r with Ok _ => answers msg l | Err e => unwritable e end.

Lemma each_event_did env person sub evs x n :
  (forall e, e ∈ evs -> readable env person n (Says (REvent sub e))) ->
  runs (r_each (fun e => write_relay (REvent sub e)) evs) (x, n) (fun c r =>
    exists evs', did false x n c (map (fun e => Says (REvent sub e)) evs') /\
      (length evs' <= length evs)%nat /\ Forall (readable env person n) (map (fun e => Says (REvent sub e)) evs') /\
      match r with Ok _ => True | Err e => unwritable e end).
Proof.
  revert x. induction evs as [|e evs IH]; intros x Hr; cbn [r_each].
  - apply runs_ret. exists []. split; [apply did_nothing|]. split; [done|]. by split; [constructor|].
  - apply runs_bind. eapply runs_weaken; [apply write_did|]. intros c r [[-> D]|(e' & -> & Hu & D)].
    + destruct c as [x1 n1]. pose proof (d_node _ _ _ _ _ D eq_refl) as Hn. cbn in Hn. subst n1.
      eapply runs_weaken; [apply IH; intros y Hy; apply Hr; by right|].
      intros c r (evs' & D' & Hlen & Hf & He). exists (e :: evs'). cbn [map].
      split; [by apply (did_trans _ _ _ _ _ _ [_] _ D D')|]. split; [cbn; lia|]. split; [|done].
      constructor; [apply Hr; left|done].
    + exists []. split; [done|]. split; [cbn; lia|]. by split; [constructor|].
Qed.
Lemma capped_limit f : exists l, f_limit (capped f) = Some l /\ (Z.to_nat (to_i64 l) <= 500)%nat.
Proof.
  eexists. split; [done|]. unfold MAX_EVENTS_PER_FILTER, to_i64, I64_MAX.
  destruct (f_limit f); destruct (_ <=? _) eqn:E; try apply Z.leb_gt in E; lia.
Qed.
Lemma serve_filter_did env person sub f x n : node_ok n ->
  runs (serve_filter env person sub f) (x, n) (fun c r =>
    exists evs, did false x n c (map (fun e => Says (REvent sub e)) evs) /\
      (length evs <= 500)%nat /\ Forall (readable env person n) (map (fun e => Says (REvent sub e)) evs) /\
      match r with Ok _ => True | Err e => unwritable e end).
Proof.
  intros K. unfold serve_filter. apply runs_bind. eapply runs_inner; [by apply visible_total|].
  intros n' evs (-> & _ & Hin & Hlen). destruct (capped_limit f) as (l & Hl & H500). apply Hlen in Hl.
  eapply runs_weaken; [apply each_event_did; intros e He; by apply Hin|].
  intros c r (evs' & D & Hle & Hf & He). exists evs'. split; [done|]. split; [lia|]. done.
Qed.
Lemma serve_filters_did env person sub fs x n : node_ok n ->
  runs (r_each (serve_filter env person sub) fs) (x, n) (fun c r =>
    exists evs, did false x n c (map (fun e => Says (REvent sub e)) evs) /\
      (length evs <= 500 * length fs)%nat /\ Forall (readable env person n) (map (fun e => Says (REvent sub e)) evs) /\
      match r with Ok _ => True | Err e => unwritable e end).
Proof.
  intros K. revert x. induction fs as [|f fs IH]; intros x; cbn [r_each].
  - apply runs_ret. exists []. split; [apply did_nothing|]. split; [cbn; lia|]. by split; [constructor|].
  - apply runs_bind. eapply runs_weaken; [by apply serve_filter_did|]. intros c r (evs & D & Hlen & Hf & Hr).
    destruct r as [[]|e].
    + destruct c as [x1 n1]. pose proof (d_node _ _ _ _ _ D eq_refl) as Hn. cbn in Hn. subst n1.
      eapply runs_weaken; [apply IH|]. intros c r (evs' & D' & Hlen' & Hf' & Hr').
      exists (evs ++ evs'). rewrite map_app. split; [by eapply did_trans|]. rewrite length_app.
      split; [cbn; lia|]. split; [by apply Forall_app|done].
    + exists evs. split; [done|]. split; [cbn; lia|]. done.
Qed.

(** A single answer. *)
Lemma write_handled env person msg x n x0 m : few x0 -> x_out x0 = x_out x ->
  answers msg [Says m] -> (forall sub e, m <> REvent sub e) ->
  runs (write_relay m) (x0, n) (fun c r => handled env person msg x n c r).
Proof.
  intros Hfew Hout Ha Hm. unfold write_relay. apply runs_out.
  - exists [Says m]. split; [|split; [|split; [unfold REQ_BOUND; cbn; lia|done]]].
    + split; cbn; try done. by rewrite Hout.
    + repeat constructor. destruct m; try done. by edestruct Hm.
  - intros f. exists []. split; [|split; [constructor|split; [cbn; unfold REQ_BOUND; lia|by exists f]]].
    split; cbn; try done. by rewrite app_nil_r.
Qed.
Lemma few_insert (open : gmap string Neg) sub neg :
  Z.of_nat (size open) <= MAX_NEG_SESSIONS ->
  (MAX_NEG_SESSIONS <=? Z.of_nat (size open)) && negb (opt_bool (open !! sub)) = false ->
  Z.of_nat (size (<[sub := neg]> open)) <= MAX_NEG_SESSIONS.
Proof.
  intros Hs Hc. destruct (open !! sub) as [old|] eqn:Eo.
  - rewrite map_size_insert_Some by by eexists. done.
  - rewrite map_size_insert_None by done. rewrite andb_true_r in Hc. apply Z.leb_gt in Hc. lia.
Qed.
Lemma handle_handled env person msg x n : node_ok n -> clock_ok env -> few x ->
  runs (handle env person msg) (x, n) (fun c r => handled env person msg x n c r).
Proof.
  intros K Hc Hx. destruct msg as [e|sub fs|sub|sub f initial|sub message|sub|au|]; cbn [handle].
  - unfold handle_event. apply runs_bind. eapply runs_inner; [by apply accept_total|].
    intros n' v Ho. apply runs_out.
    + exists [Says (ROk (ev_id e) v.1 v.2)]. split; [|split; [by repeat constructor|
        split; [cbn; unfold REQ_BOUND; lia|by eexists _, _]]].
      split; try done. intros _. apply Ho.
    + intros f. exists []. split; [|split; [constructor|split; [cbn; unfold REQ_BOUND; lia|by exists f]]].
      split; try done; cbn; [by rewrite app_nil_r|]. intros _. apply Ho.
  - unfold handle_req. destruct (_ <? str_len sub).
    { apply write_handled; try done. cbn. left. by eexists. }
    destruct (_ <? Z.of_nat (length fs)) eqn:Ef; [apply write_handled; try done; left; by eexists|].
    apply Z.ltb_ge in Ef. unfold MAX_FILTERS_PER_REQ in Ef.
    apply runs_bind. eapply runs_weaken; [by apply serve_filters_did|]. intros c r (evs & D & Hlen & Hf & Hr).
    assert (Hb : (length evs <= 4000)%nat) by lia.
    destruct r as [[]|e].
    + destruct c as [x1 n1]. pose proof (d_node _ _ _ _ _ D eq_refl) as Hn. cbn in Hn. subst n1.
      eapply runs_weaken; [apply write_did|]. intros c r [[-> D']|(e' & -> & Hu & D')].
      * exists (map (fun e => Says (REvent sub e)) evs ++ [Says (REose sub)]).
        split; [by eapply did_trans|]. split; [apply Forall_app; split; [done|by repeat constructor]|].
        split; [rewrite length_app, length_map; cbn; unfold REQ_BOUND; lia|]. right. by exists evs.
      * exists (map (fun e => Says (REvent sub e)) evs ++ []).
        split; [by eapply did_trans|]. rewrite app_nil_r. split; [done|].
        split; [rewrite length_map; unfold REQ_BOUND; lia|done].
    + exists (map (fun e => Says (REvent sub e)) evs). split; [done|]. split; [done|].
      split; [rewrite length_map; unfold REQ_BOUND; lia|done].
  - apply runs_ret. exists []. split; [apply did_nothing|]. split; [constructor|]. split; [cbn; lia|done].
  - unfold handle_neg_open. apply runs_bind, runs_negs.
    destruct (_ && _) eqn:Eb; [apply write_handled; try done; right; by eexists|].
    apply runs_bind. eapply runs_inner; [by apply reconcilable_total|]. intros n' evs [-> _]. cbv zeta.
    destruct (let! neg := neg_new _ in _) as [[neg out]|].
    + apply runs_bind, runs_set. apply write_handled; try done; cbn; [by apply few_insert|].
      left. by eexists.
    + apply write_handled; try done. cbn. right. by eexists.
  - unfold handle_neg_msg. apply runs_bind, runs_negs. cbv zeta.
    destruct (x_negs x !! sub) as [neg|] eqn:Eo; cycle 1.
    { apply runs_bind, runs_ret. cbn beta iota. apply runs_bind, runs_negs, runs_bind, runs_set.
      rewrite fin_maps.delete_id by done. apply write_handled; try done. cbn. right. by eexists. }
    assert (Hsame : forall neg', few (mkSess (<[sub:=neg']> (x_negs x)) (x_out x))).
    { intros neg'. unfold few. cbn. by rewrite map_size_insert_Some by by eexists. }
    assert (Hdel : forall neg', few (mkSess (delete sub (<[sub:=neg']> (x_negs x))) (x_out x))).
    { intros neg'. unfold few. cbn. rewrite delete_insert_eq, map_size_delete_Some by (by eexists).
      unfold few in Hx. lia. }
    destruct (hex_decode message) as [bytes|].
    + destruct (neg_reconcile neg bytes) as [neg' out]. apply runs_bind, runs_set. cbn [snd].
      destruct out as [out|].
      * apply write_handled; try done. cbn. left. by eexists.
      * apply runs_bind, runs_negs, runs_bind, runs_set. apply write_handled; try done; [apply Hdel|].
        cbn. right. by eexists.
    + apply runs_bind, runs_ret, runs_bind, runs_negs, runs_bind, runs_set. apply write_handled; try done; cbn.
      * unfold few in *. cbn. rewrite map_size_delete_Some by by eexists. lia.
      * cbn. right. by eexists.
  - apply runs_bind, runs_negs, runs_set. exists []. split; [|split; [constructor|split; [cbn; lia|done]]].
    split; cbn; try done; [by rewrite app_nil_r|]. intros _. unfold few in *. cbn.
    destruct (x_negs x !! sub) eqn:Eo; [rewrite map_size_delete_Some by (by eexists)|rewrite fin_maps.delete_id by done];
    lia.
  - apply write_handled; try done. by eexists.
  - apply write_handled; try done. by eexists.
Qed.

(** ** Whole sessions *)
(** The request a frame carries. *)
Definition request_of (body : list Z) : option ClientMessage :=
  let! text := from_utf8 body in client_from_json text.
Definition answered (body : list Z) (l : list Sent) : Prop :=
  match request_of body with
  | Some msg => answers msg l
  | None => exists why, l = [Says (RNotice why)]
  end.
Lemma turn_handled env person body x n : node_ok n -> clock_ok env -> few x ->
  runs (turn env person body) (x, n) (fun c r => exists l, did true x n c l /\
    Forall (readable env person n) l /\ (length l <= REQ_BOUND)%nat /\
    match r with Ok _ => answered body l | Err e => unwritable e end).
Proof.
  intros K Hc Hx.
  assert (Hnotice : forall why, request_of body = None -> runs (write_relay (RNotice why)) (x, n) (fun c r =>
    exists l, did true x n c l /\ Forall (readable env person n) l /\ (length l <= REQ_BOUND)%nat /\
    match r with Ok _ => answered body l | Err e => unwritable e end)).
  { intros why Hr. eapply runs_weaken; [apply write_did|]. unfold answered. rewrite Hr.
    intros c r [[-> D]|(e & -> & Hu & D)]; eexists; (split; [by destruct D|]).
    - split; [by repeat constructor|]. split; [cbn; unfold REQ_BOUND; lia|by eexists].
    - split; [constructor|]. split; [cbn; lia|done]. }
  unfold turn. unfold request_of in Hnotice. unfold answered, request_of in *.
  destruct (from_utf8 body) as [text|]; [|by apply Hnotice].
  destruct (client_from_json text) as [msg|]; [|by apply Hnotice].
  eapply runs_weaken; [by apply handle_handled|]. intros c r (l & D & Hf & Hlen & Hr).
  exists l. split; [by destruct D|done].
Qed.

(** What was sent by the end of some frames: event by event, readable when its
    frame was answered - in a state the frames before it had left. *)
Definition served_at (person : PublicKey) (bodies : list (Env * list Z)) (c : Sess * Inner) (s : Sent) : Prop :=
  exists before env body after x m, bodies = before ++ (env, body) :: after /\
    turns person before c = ((x, m), Ok tt) /\ readable env person m s.
Lemma served_later person env body t c c1 s : turn env person body c = (c1, Ok tt) ->
  served_at person t c1 s -> served_at person ((env, body) :: t) c s.
Proof.
  intros H (before & env' & body' & after & x & m & -> & Hb & Hr).
  exists ((env, body) :: before), env', body', after, x, m. split; [done|]. split; [|done].
  cbn [turns]. unfold r_bind. by rewrite H.
Qed.
Lemma turns_handled person bodies x n : node_ok n -> few x -> Forall (fun b => clock_ok b.1) bodies ->
  runs (turns person bodies) (x, n) (fun c r => exists l, did true x n c l /\
    Forall (served_at person bodies (x, n)) l /\ (length l <= REQ_BOUND * length bodies)%nat /\
    match r with Ok _ => True | Err e => unwritable e end).
Proof.
  intros K Hx Hc. revert x n K Hx. induction Hc as [|[env body] bodies Hc Hcs IH]; intros x n K Hx; cbn [turns].
  - apply runs_ret. exists []. split; [apply did_nothing|]. split; [constructor|]. split; [cbn; lia|done].
  - apply runs_bind. pose proof (turn_handled env person body x n K Hc Hx) as Ht.
    unfold runs in Ht |- * at 1. destruct (turn env person body (x, n)) as [c1 r1] eqn:Et. cbn [fst snd] in *.
    destruct Ht as (l & D & Hf & Hlen & Hr).
    assert (Hhere : Forall (served_at person ((env, body) :: bodies) (x, n)) l).
    { eapply Forall_impl; [exact Hf|]. intros s Hs. exists [], env, body, bodies, x, n. done. }
    destruct r1 as [[]|e]; [|exists l; split; [done|]; split; [done|]; split; [cbn [length]; lia|done]].
    destruct c1 as [x1 n1]. eapply runs_weaken; [apply IH; [by apply (d_ok _ _ _ _ _ D)|by apply (d_few _ _ _ _ _ D)]|].
    intros c r (l' & D' & Hf' & Hlen' & Hr'). exists (l ++ l'). split; [by eapply did_trans|].
    split; [|split; [rewrite length_app; cbn [length]; lia|done]].
    apply Forall_app. split; [done|]. eapply Forall_impl; [exact Hf'|]. intros s. by apply served_later.
Qed.

(** A peer is served only what it may read.  Every event a session sends,
    in answer to whatever frames, was held by the node and readable by the
    person of the session when its request was answered: in the state the
    requests before it had left, at that time, by the one rule of who may
    read what. *)
Theorem served_readable person bodies n c r sub e : node_ok n -> Forall (fun b => clock_ok b.1) bodies ->
  turns person bodies (mkSess ∅ [], n) = (c, r) -> Says (REvent sub e) ∈ x_out c.1 ->
  exists before env body after x m, bodies = before ++ (env, body) :: after /\
    turns person before (mkSess ∅ [], n) = ((x, m), Ok tt) /\ node_ok m /\
    holds (n_store m) e /\ Groups_may_read (n_groups m) person e (now env) = true.
Proof.
  intros K Hc Ht He. assert (Hx : few (mkSess ∅ [])) by (unfold few; cbn; vm_compute; discriminate).
  pose proof (turns_handled person bodies (mkSess ∅ []) n K Hx Hc) as H. unfold runs in H. rewrite Ht in H.
  destruct H as (l & D & Hf & _). pose proof (d_out _ _ _ _ _ D) as Hout. cbn in Hout, He. rewrite Hout in He.
  rewrite Forall_forall in Hf. destruct (Hf _ He) as (before & env & body & after & x & m & -> & Hb & Hr).
  exists before, env, body, after, x, m. split; [done|]. split; [done|]. split; [|exact Hr].
  apply Forall_app in Hc as [Hcb _].
  pose proof (turns_handled person before (mkSess ∅ []) n K Hx Hcb) as H. unfold runs in H. rewrite Hb in H.
  destruct H as (l' & D' & _). by apply (d_ok _ _ _ _ _ D').
Qed.

(** C35. Every request of a session is answered, and answers are bounded: a
    frame that is a request gets that request's answer - an [OK] of the
    event's id, a [CLOSED] or the matching events and then [EOSE], a
    negentropy message or error - and any other frame a notice; never more
    than eight filters of five hundred events, never more than four
    negentropy sets kept, and the only thing that can cut an answer short is
    one that does not fit a frame. *)
Theorem every_request_answered env person body x n c r : node_ok n -> clock_ok env ->
  Z.of_nat (size (x_negs x)) <= MAX_NEG_SESSIONS -> turn env person body (x, n) = (c, r) ->
  node_ok c.2 /\ Z.of_nat (size (x_negs c.1)) <= MAX_NEG_SESSIONS /\
  exists l, x_out c.1 = x_out x ++ l /\ (length l <= 4001)%nat /\
    match r with
    | Err e => exists f, e = FrameFailed f
    | Ok _ =>
        match (let! text := from_utf8 body in client_from_json text) with
        | Some msg => answers msg l
        | None => exists why, l = [Says (RNotice why)]
        end
    end.
Proof.
  intros K Hc Hx Ht. pose proof (turn_handled env person body x n K Hc Hx) as H. unfold runs in H. rewrite Ht in H.
  destruct H as (l & D & _ & Hlen & Hr). split; [by apply (d_ok _ _ _ _ _ D)|].
  split; [by apply (d_few _ _ _ _ _ D)|]. exists l. split; [apply D|]. split; [done|]. by destruct r.
Qed.

(** ** Hello and goodbye *)
Lemma authenticate_peer_run env presented device n : node_ok n -> book_wf (n_book n) -> clock_ok env ->
  exists n' r, authenticate_peer env presented device n = (n', r) /\ node_ok n' /\ book_wf (n_book n') /\
    match r with
    | Ok person => person = ev_pubkey presented /\
        checked presented (now env) (mkParsed (ep_to_string device) false)
    | Err e => exists why, e = PeerBinding why
    end.
Proof.
  intros K Hb Hc. unfold authenticate_peer, bind, get, modify. cbn zeta.
  destruct (authenticate (n_book n) presented device (now env)) as [b r] eqn:Ea. cbn [fst snd].
  assert (Hb' : book_wf b).
  { destruct (authenticate_book (n_book n) presented device (now env)) as [E|[i E]]; rewrite Ea in E; cbn in E.
    - by subst.
    - by eapply insert_binding_wf. }
  destruct r as [person|why].
  - apply authenticate_ok in Ea as (Hp & Hck & _); [|done].
    destruct (accept_total (with_book b n) env Fetch presented K Hc) as (n' & v & Hr & Ho). rewrite Hr.
    eexists n', _. split; [done|]. split; [apply Ho|]. split; [by apply (o_book _ _ _ _ _ Ho)|]. done.
  - eexists _, _. split; [done|]. split; [exact K|]. split; [done|by eexists].
Qed.
(** What a session sends that tells of anything held. *)
Definition tells (s : Sent) : Prop :=
  match s with Hello _ | Says (RNotice _) => False | Says _ => True end.
Lemma greet_run env device first x n : node_ok n -> book_wf (n_book n) -> clock_ok env ->
  runs (greet env device first) (x, n) (fun c r => node_ok c.2 /\ book_wf (n_book c.2) /\
    x_negs c.1 = x_negs x /\
    (x_out c.1 = x_out x \/ exists b, x_out c.1 = x_out x ++ [Hello b]) /\
    forall p, r = Ok p -> hello_decode first = Ok p.1 /\ p.2 = ev_pubkey p.1 /\
      checked p.1 (now env) (mkParsed (ep_to_string device) false)).
Proof.
  intros K Hb Hc. unfold greet. destruct (hello_decode first) as [presented|e].
  - apply runs_bind. unfold runs, inner.
    destruct (authenticate_peer_run env presented device n K Hb Hc) as (n1 & r & Hr & K1 & Hb1 & Hp).
    rewrite Hr. cbn [fst snd]. destruct r as [person|e]; [|by split_and!; try done; left].
    apply runs_bind. eapply (runs_inner _ _ _ _ (fun n2 _ => node_ok n2 /\ n_book n2 = n_book n1)).
    { unfold heard_from, reached_now. repeat total_step. done. }
    intros n2 [] [K2 Hb2]. apply runs_bind. eapply (runs_inner _ _ _ _ (fun n3 _ => n3 = n2)); [by total_step|].
    intros n3 a ->. apply runs_bind. apply runs_out.
    + apply runs_ret. cbn. split; [done|]. rewrite Hb2. split; [done|]. split; [done|]. split; [right; by eexists|].
      intros p [= <-]. cbn. destruct Hp. done.
    + intros f. cbn. rewrite Hb2. split_and!; try done. by left.
  - unfold runs. cbn. split_and!; try done. by left.
Qed.

(** A notice at the end tells nothing. *)
Lemma notice_tells_nothing why c : node_ok c.2 -> exists l,
  node_ok (write_relay (RNotice why) c).1.2 /\
  x_out (write_relay (RNotice why) c).1.1 = x_out c.1 ++ l /\ Forall (fun s => ~ tells s) l.
Proof.
  destruct c as [x m]. intros Km. unfold write_relay, write_out. destruct (frame_encode _); cbn.
  - eexists. split; [done|]. split; [done|]. apply Forall_singleton. by intros [].
  - exists []. split; [done|]. rewrite app_nil_r. by split; [|constructor].
Qed.
(** The end of the stream: only the node may change, and it stays right. *)
Lemma finished_run env presented e c : node_ok c.2 -> clock_ok env ->
  node_ok (finished env presented e c).1.2 /\ x_out (finished env presented e c).1.1 = x_out c.1.
Proof.
  destruct c as [x m]. intros K Hc. unfold finished, r_fail. destruct e; try done. cbn. split; [|done].
  destruct (accept_total m env Fetch presented K Hc) as (m' & v & -> & Ho). apply Ho.
Qed.
(** After a greeting: what was written tells of nothing but what was served. *)
Lemma greeted_serves person presented rest ended c : node_ok c.2 -> few c.1 ->
  Forall (fun b => clock_ok b.1) rest -> clock_ok ended.1 ->
  let run := (let^ _ := turns person rest in finished ended.1 presented ended.2) c in
  exists l, node_ok run.1.2 /\ x_out run.1.1 = x_out c.1 ++ l /\ Forall (served_at person rest c) l.
Proof.
  destruct c as [x m]. intros K Hx Hr He. cbv zeta. pose proof (turns_handled person rest x m K Hx Hr) as H.
  unfold runs in H. unfold r_bind. destruct (turns person rest (x, m)) as [c2 r2] eqn:Et. cbn [fst snd] in H.
  destruct H as (l & D & Hf & _). exists l. pose proof (d_ok _ _ _ _ _ D K) as K2.
  pose proof (d_out _ _ _ _ _ D) as Ho. destruct r2 as [[]|e]; [|done].
  destruct (finished_run ended.1 presented ended.2 c2 K2 He) as [Kf Hout]. by rewrite Hout.
Qed.

(** C3. A session keeps the node right whatever the peer sends it, from the
    first frame to the last; and it tells a peer of nothing held - no event,
    no answer, no difference of sets - unless the peer's first frame was a
    binding well signed, unexpired, for the very device of the connection,
    and then answers as the person who signed it. *)
Theorem session_safe device bodies ended n : node_ok n -> book_wf (n_book n) ->
  Forall (fun b => clock_ok b.1) bodies -> clock_ok ended.1 ->
  let c := accept device bodies ended n in
  node_ok c.2 /\
  (forall s, s ∈ x_out c.1 -> tells s ->
     exists env first rest presented greeted, bodies = (env, first) :: rest /\
       hello_decode first = Ok presented /\
       checked presented (now env) (mkParsed (ep_to_string device) false) /\
       greet env device first (mkSess ∅ [], n) = (greeted, Ok (presented, ev_pubkey presented)) /\
       served_at (ev_pubkey presented) rest greeted s).
Proof.
  intros K Hb Hc He. cbv zeta. unfold accept. destruct bodies as [|[env first] rest]; cbn [serve].
  { unfold r_fail. destruct (notice_tells_nothing ("refused: " +:+ error_text (FrameFailed ended.2))%string
      (mkSess ∅ [], n) K) as (l & Hk & Hl & Hf). split; [done|]. rewrite Hl. cbn. intros s Hs Ht.
    rewrite Forall_forall in Hf. by apply Hf in Hs. }
  apply Forall_cons in Hc as [Hc Hrest].
  pose proof (greet_run env device first (mkSess ∅ []) n K Hb Hc) as Hg. unfold runs in Hg.
  rewrite r_bind_eq. destruct (greet env device first _) as [c1 r1] eqn:Eg. cbn [fst snd] in Hg |- *.
  destruct Hg as (Km & _ & Hnegs & Hout & Hp).
  assert (Hquiet : forall s, s ∈ x_out c1.1 -> ~ tells s).
  { intros s. destruct Hout as [Ho|(b & Ho)]; rewrite Ho; cbn; [by intros ?%not_elem_of_nil|].
    intros ->%list_elem_of_singleton []. }
  assert (Hlast : forall e, exists l, node_ok (write_relay (RNotice ("refused: " +:+ error_text e)%string) c1).1.2 /\
    x_out (write_relay (RNotice ("refused: " +:+ error_text e)%string) c1).1.1 = x_out c1.1 ++ l /\
    Forall (fun s => ~ tells s) l) by (intros e; by apply notice_tells_nothing).
  destruct r1 as [[presented person]|e]; cbv beta iota; cycle 1.
  { destruct (Hlast e) as (l & Hk & Hl & Hf). split; [done|]. intros s Hs Ht. exfalso. rewrite Hl in Hs.
    apply elem_of_app in Hs as [Hs|Hs]; [by eapply Hquiet|]. rewrite Forall_forall in Hf. by apply Hf in Hs. }
  destruct (Hp _ eq_refl) as (Hd & Hperson & Hck). cbn [fst snd] in Hd, Hperson, Hck |- *. subst person.
  assert (Hx : few c1.1) by (unfold few; rewrite Hnegs; vm_compute; discriminate).
  destruct (greeted_serves (ev_pubkey presented) presented rest ended c1 Km Hx Hrest He) as (l & Hk & Hl & Hf).
  destruct (r_bind (turns _ rest) _ c1) as [c2 r2]. cbn [fst snd] in Hk, Hl.
  assert (Hgo : forall s l3, s ∈ x_out c1.1 ++ l ++ l3 -> Forall (fun s => ~ tells s) l3 -> tells s -> 
    served_at (ev_pubkey presented) rest c1 s).
  { intros s l3 Hs Hf3 Ht. rewrite Forall_forall in Hf, Hf3.
    apply elem_of_app in Hs as [Hs|[Hs|Hs]%elem_of_app]; [by edestruct Hquiet|by apply Hf|by edestruct Hf3]. }
  destruct r2 as [u|e]; cbv beta iota.
  - split; [done|]. intros s Hs Ht. exists env, first, rest, presented, c1. do 4 (split; [done|]).
    apply (Hgo s []); [by rewrite app_nil_r, <- Hl|constructor|done].
  - destruct (notice_tells_nothing ("refused: " +:+ error_text e)%string c2 Hk) as (l3 & Hk3 & Hl3 & Hf3).
    split; [done|]. intros s Hs Ht. exists env, first, rest, presented, c1. do 4 (split; [done|]).
    apply (Hgo s l3); [by rewrite app_assoc, <- Hl, <- Hl3|done|done].
Qed.
End RelaySpec.
