(* ===== verification/Sync.v ===== *)
(** The dialling half of [hit/nostr/1] ([crates/hit-node/src/sync.rs]) and
    what the node does with it ([lib.rs]): a session opened and closed, one
    event delivered, one request made, a whole sync - negentropy, fetch,
    settle, push - and the operations that dial the devices of a link.

    The peer is the frames it will send and how its stream ends; the clock is
    read anew at each step of the node. *)
From S2P Require Import Prelude Text Nostr GroupEvent Replace Perm Zap GroupState Fold.
From S2P Require Import Binding Dm Groups EventStore Proto Person Node NodeOps Session Relay.

#[local] Open Scope Z_scope.

(** [EndpointId::fmt_short]. *)
Class SyncTypes {T : DeviceTypes} := { fmt_short : EndpointId -> string }.

Section Sync.
Context {N : NostrTypes} {O : NostrOps} {T : DeviceTypes} {P : DeviceOps} {C : DmCrypto}.
Context {Y : WireTypes} {F : ProfileTypes} {NT : NodeTypes} {RT : RelayTypes} {ST : SyncTypes}.
#[local] Open Scope string_scope.
#[local] Open Scope Z_scope.
#[local] Open Scope list_scope.

Record SyncStats := mkStats {
  st_rounds : Z; st_we_needed : Z; st_they_needed : Z;
  st_fetched : Z; st_duplicates : Z; st_pushed : Z; st_refused : Z }.

(** ** The line to a peer *)
Inductive Asked := Greets (binding : Event) | Asks (m : ClientMessage).
Record Line := mkLine {
  l_in : list (list Z); l_end : FrameError; l_out : list Asked;
  l_clock : nat -> Env; l_tick : nat }.
Abbreviation Cl := (Ses Line) (only parsing).

(** The node's step at the next reading of the clock. *)
Definition clock : Ses Line Env := fun '(x, n) =>
  ((mkLine (l_in x) (l_end x) (l_out x) (l_clock x) (S (l_tick x)), n), Ok (l_clock x (l_tick x))).
Definition at_once {A} (f : Env -> M A) : Ses Line A := let^ env := clock in inner (f env).
(** [let _ = ..]. *)
Definition whatever {A} (m : Ses Line A) : Ses Line unit := fun c => ((m c).1, Ok tt).

Definition read : Ses Line (list Z) := fun '(x, n) =>
  match l_in x with
  | [] => ((x, n), Err (FrameFailed (l_end x)))
  | body :: t => ((mkLine t (l_end x) (l_out x) (l_clock x) (l_tick x), n), Ok body)
  end.
Definition send (body : list Z) (s : Asked) : Ses Line unit := fun '(x, n) =>
  match frame_encode body with
  | Ok _ => ((mkLine (l_in x) (l_end x) (l_out x ++ [s]) (l_clock x) (l_tick x), n), Ok tt)
  | Err e => ((x, n), Err (FrameFailed e))
  end.
Definition write_client (m : ClientMessage) : Ses Line unit := send (bytes_of (client_as_json m)) (Asks m).
Definition read_relay : Ses Line RelayMessage :=
  let^ body := read in
  match from_utf8 body with
  | None => r_fail (Protocol "frame is not UTF-8")
  | Some text =>
      match relay_from_json text with
      | None => r_fail (Protocol "not a relay message")
      | Some m => r_ret m
      end
  end.
Definition unexpected (during : string) (m : RelayMessage) : NodeError :=
  Protocol ("unexpected during " +:+ during +:+ ": " +:+ concat_str (take 80 (chars (relay_as_json m)))).
Definition negentropy : NodeError := Protocol "negentropy".

(** ** Opening and closing *)

(** The notice a refusal arrives as. *)
Definition notice_of (reply : list Z) : option string :=
  let! text := from_utf8 reply in
  let! m := relay_from_json text in
  match m with RNotice why => Some why | _ => None end.
(** The hello, once the line is up to [device]. *)
Definition exchange (device : EndpointId) (present : option Event) : Ses Line (PublicKey * Event) :=
  let^ n := inner get in
  let ours := opt_get (n_own_binding n) present in
  let^ _ := send (hello_encode ours) (Greets ours) in
  let^ reply := read in
  match hello_decode reply with
  | Err e => r_fail (match notice_of reply with Some why => RefusedByPeer why | None => HelloFailed e end)
  | Ok theirs =>
      let^ person := at_once (fun env => authenticate_peer env theirs device) in
      let^ _ := at_once (fun env => heard_from env device) in
      r_ret (person, theirs)
  end.
Definition close (binding : Event) : Ses Line unit :=
  let^ _ := whatever (at_once (fun env => accept_event env Fetch binding)) in
  whatever read.

(** ** One event, one greeting, one request *)
Definition deliver (device : EndpointId) (e : Event) : Ses Line (bool * string) :=
  let^ s := exchange device None in
  let^ _ := write_client (CEvent e) in
  let^ m := read_relay in
  match m with
  | ROk _ status message => let^ _ := close s.2 in r_ret (status, message)
  | other => r_fail (unexpected "deliver" other)
  end.
Definition introduce (device : EndpointId) : Ses Line (PublicKey * Event) :=
  let^ s := exchange device None in
  let^ _ := close s.2 in r_ret s.
(** Events until the end of the stored ones. *)
Fixpoint collect_events (fuel : nat) (during : string) : Ses Line (list Event) :=
  match fuel with
  | 0%nat => r_fail (Protocol "out of fuel")
  | S fuel =>
      let^ m := read_relay in
      match m with
      | REvent _ e => let^ rest := collect_events fuel during in r_ret (e :: rest)
      | REose _ => r_ret []
      | RClosed _ message => r_fail (RefusedByPeer message)
      | other => r_fail (unexpected during other)
      end
  end.
(** Every round of a loop reads a frame. *)
Definition frames_left : Ses Line nat := let^ x := session in r_ret (S (length (l_in x))).
Definition request (device : EndpointId) (f : Filter) : Ses Line (list Event) :=
  let^ s := exchange device None in
  let^ _ := write_client (CReq "req" [f]) in
  let^ fuel := frames_left in
  let^ out := collect_events fuel "req" in
  let^ _ := close s.2 in r_ret out.

(** ** A sync *)
Definition carried_filter : Filter := kinds_filter CARRIED_KINDS.
(** Ids we have and need, and how many rounds it took. *)
Fixpoint neg_rounds (fuel : nat) (neg : Neg) (rounds : Z) (have need : list EventId)
    : Ses Line (Z * list EventId * list EventId) :=
  match fuel with
  | 0%nat => r_fail (Protocol "out of fuel")
  | S fuel =>
      let^ m := read_relay in
      match m with
      | RNegMsg _ message =>
          match hex_decode message with
          | None => r_fail (Protocol "hex")
          | Some msg =>
              match neg_reconcile_with_ids neg msg with
              | None => r_fail negentropy
              | Some (neg, h, w, out) =>
                  match out with
                  | Some out =>
                      let^ _ := write_client (CNegMsg "sync" (hex_encode out)) in
                      neg_rounds fuel neg (rounds + 1) (have ++ h) (need ++ w)
                  | None => r_ret (rounds + 1, have ++ h, need ++ w)
                  end
              end
          end
      | RNegErr _ message => r_fail (RefusedByPeer message)
      | other => r_fail (unexpected "negentropy" other)
      end
  end.
Definition reconcile (person : PublicKey) : Ses Line (Z * list EventId * list EventId) :=
  let^ items := at_once (fun env => reconcilable env person carried_filter) in
  match (let! neg := neg_new (neg_items items) in neg_initiate neg) with
  | None => r_fail negentropy
  | Some (neg, initial) =>
      let^ _ := write_client (CNegOpen "sync" carried_filter (hex_encode initial)) in
      let^ fuel := frames_left in
      let^ found := neg_rounds fuel neg 0 [] [] in
      let^ _ := write_client (CNegClose "sync") in
      r_ret found
  end.

(** [chunks(FETCH_CHUNK)]. *)
Fixpoint chunks_of {A} (fuel : nat) (l : list A) : list (list A) :=
  match fuel, l with
  | S fuel, _ :: _ => take (Z.to_nat FETCH_CHUNK) l :: chunks_of fuel (drop (Z.to_nat FETCH_CHUNK) l)
  | _, _ => []
  end.
Definition chunks {A} (l : list A) : list (list A) := chunks_of (length l) l.
Definition ids_filter (ids : list EventId) : Filter :=
  mkFilter (Some (list_to_set ids)) None None None None None None [].
Fixpoint fetch_chunks (l : list (list EventId)) : Ses Line (list Event) :=
  match l with
  | [] => r_ret []
  | chunk :: t =>
      let^ _ := write_client (CReq "fetch" [ids_filter chunk]) in
      let^ fuel := frames_left in
      let^ evs := collect_events fuel "fetch" in
      let^ rest := fetch_chunks t in
      r_ret (evs ++ rest)
  end.
Definition apply_leb (a b : Event) : bool :=
  (apply_class a <? apply_class b)
  || ((apply_class a =? apply_class b) && (ev_created_at a <=? ev_created_at b)).

(** What became of events taken in: stored new, already had, refused and why. *)
Record Taken := mkTaken { tk_new : Z; tk_dup : Z; tk_waiting : list (Event * string) }.
Fixpoint take_in (l : list Event) : Ses Line Taken :=
  match l with
  | [] => r_ret (mkTaken 0 0 [])
  | e :: t =>
      let^ v := at_once (fun env => accept_event env Fetch e) in
      let^ r := take_in t in
      r_ret (match v with
             | (true, why) => if str_is_empty why then mkTaken (tk_new r + 1) (tk_dup r) (tk_waiting r)
                              else mkTaken (tk_new r) (tk_dup r + 1) (tk_waiting r)
             | (false, why) => mkTaken (tk_new r) (tk_dup r) ((e, why) :: tk_waiting r)
             end)
  end.
(** One more try of each: how many got in, and what still waits. *)
Fixpoint retry (l : list (Event * string)) : Ses Line (Z * list (Event * string)) :=
  match l with
  | [] => r_ret (0, [])
  | (e, _) :: t =>
      let^ v := at_once (fun env => accept_event env Fetch e) in
      let^ r := retry t in
      r_ret (if v.1 then (r.1 + 1, r.2) else (r.1, (e, v.2) :: r.2))
  end.
Fixpoint settle_waiting (fuel : nat) (got : Z) (waiting : list (Event * string))
    : Ses Line (Z * list (Event * string)) :=
  match fuel with
  | 0%nat => r_fail (Protocol "out of fuel")
  | S fuel =>
      let^ r := retry waiting in
      let got := got + r.1 in
      if match r.2 with [] => true | _ => false end || (length r.2 =? length waiting)%nat
      then r_ret (got, r.2)
      else settle_waiting fuel got r.2
  end.
Definition take_all (fetched : list Event) : Ses Line Taken :=
  let^ t := take_in (isort apply_leb fetched) in
  let^ r := settle_waiting (S (length (tk_waiting t))) (tk_new t) (tk_waiting t) in
  r_ret (mkTaken r.1 (tk_dup t) r.2).

Fixpoint by_chunks (l : list (list EventId)) : M (list Event) :=
  match l with
  | [] => ret []
  | chunk :: t =>
      let* n := get in
      let* evs := lift (by_ids (n_store n) chunk) in
      let* rest := by_chunks t in ret (evs ++ rest)
  end.
(** The answers to a chunk pushed: taken, refused. *)
Fixpoint answers_to (chunk : list Event) : Ses Line (Z * Z) :=
  match chunk with
  | [] => r_ret (0, 0)
  | _ :: t =>
      let^ m := read_relay in
      match m with
      | ROk _ status _ =>
          let^ r := answers_to t in
          r_ret (if (status : bool) then (r.1 + 1, r.2) else (r.1, r.2 + 1))
      | other => r_fail (unexpected "push" other)
      end
  end.
Fixpoint push_chunks (l : list (list Event)) : Ses Line (Z * Z) :=
  match l with
  | [] => r_ret (0, 0)
  | chunk :: t =>
      let^ _ := r_each (fun e => write_client (CEvent e)) chunk in
      let^ a := answers_to chunk in
      let^ b := push_chunks t in
      r_ret (a.1 + b.1, a.2 + b.2)
  end.
Definition push_all (have : list EventId) : Ses Line (Z * Z) :=
  let^ pushing := inner (by_chunks (chunks have)) in
  push_chunks (chunks (isort apply_leb pushing)).

Definition sync (device : EndpointId) (present : option Event) : Ses Line SyncStats :=
  let^ s := exchange device present in
  let^ found := reconcile s.1 in
  let '(rounds, have, need) := found in
  let^ fetched := fetch_chunks (chunks need) in
  let^ t := take_all fetched in
  let^ pushed := push_all have in
  let^ _ := close s.2 in
  r_ret (mkStats rounds (Z.of_nat (length need)) (Z.of_nat (length have))
           (tk_new t) (tk_dup t) pushed.1 (Z.of_nat (length (tk_waiting t)) + pushed.2)).
End Sync.

(** ** Dialling *)
Section Dialling.
Context {N : NostrTypes} {O : NostrOps} {T : DeviceTypes} {P : DeviceOps} {C : DmCrypto}.
Context {Y : WireTypes} {F : ProfileTypes} {NT : NodeTypes} {RT : RelayTypes} {ST : SyncTypes}.
#[local] Open Scope string_scope.
#[local] Open Scope Z_scope.
#[local] Open Scope list_scope.

(** What a dial gives: no connection and why, or the device reached, the
    frames it will send, and the clock while the line is up. *)
Record Reached := mkReached { r_device : EndpointId; r_frames : list (list Z); r_end : FrameError }.
Record Dial := mkDial { d_reached : result string Reached; d_clock : nat -> Env }.
(** One dial after another. *)
Definition Net : Type := nat -> EndpointId -> Dial.

Definition dial {A} (peer : EndpointId) (d : Dial) (m : EndpointId -> Ses Line A) : M A := fun n =>
  match d_reached d with
  | Err why => (n, Err (ConnectFailed why))
  | Ok r =>
      if negb (bool_decide (r_device r = peer)) then (n, Err WrongPeer)
      else
        let '((_, n), a) := m (r_device r) (mkLine (r_frames r) (r_end r) [] (d_clock d) 0, n) in (n, a)
  end.
(** A failure in hand rather than passed on. *)
Definition tried {A} (m : M A) : M (result NodeError A) := fun n => let '(n, r) := m n in (n, Ok r).

Definition add_peer (d : EndpointId) : M unit :=
  let* n := get in
  if bool_decide (d = my_id n) then ret tt else modify (with_hints ({[d]} ∪ n_hints n)).
Definition sync_with (net : Net) (peer : EndpointId) : M SyncStats := dial peer (net 0%nat peer) (fun d => sync d None).
Definition sync_presenting (net : Net) (peer : EndpointId) (binding : Event) : M SyncStats :=
  dial peer (net 0%nat peer) (fun d => sync d (Some binding)).
Definition fetch (net : Net) (peer : EndpointId) (f : Filter) : M (list Event) :=
  dial peer (net 0%nat peer) (fun d => request d f).

Definition failure_text (d : EndpointId) (why : string) : string := fmt_short d +:+ ": " +:+ why.
Definition no_peer (why : list string) : NodeError :=
  JoinFailed (concat_str (match why with [] => ["no peers in the link"] | w :: l => w :: flat_map (fun x => ["; "; x]) l end)).

Definition reads_public (n : Inner) (g : PublicKey) : bool := is_some_and (state (n_groups n) g) gs_public.
Fixpoint follow_peers (net : Net) (k : nat) (g : PublicKey) (why : list string)
    (peers : list (EndpointId * option SocketAddr)) : M (list string + SyncStats) :=
  match peers with
  | [] => ret (inl why)
  | (id, _) :: t =>
      let* _ := add_peer id in
      let* r := tried (dial id (net k id) (fun d => sync d None)) in
      let* n := get in
      match r with
      | Ok stats => if reads_public n g then ret (inr stats)
                    else follow_peers net (S k) g (why ++ [failure_text id "not a public group"]) t
      | Err e => follow_peers net (S k) g (why ++ [failure_text id (error_text e)]) t
      end
  end.
Definition follow (net : Net) (link : InviteLink) : M SyncStats :=
  let g := il_group link in
  let* n := get in
  let already := is_carried (n_groups n) g in
  let* _ := (if already then ret tt else modify (with_groups (carry (n_groups n) g))) in
  let* r := follow_peers net 0 g [] (il_peers link) in
  match r with
  | inr stats => ret stats
  | inl why =>
      let* n := get in
      let* _ := (if already then ret tt else modify (with_groups (drop_group (n_groups n) g))) in
      fail (no_peer why)
  end.

Fixpoint join_peers (net : Net) (k : nat) (e : Event) (why : list string)
    (peers : list (EndpointId * option SocketAddr)) : M SyncStats :=
  match peers with
  | [] => fail (no_peer why)
  | (id, _) :: t =>
      let* _ := add_peer id in
      let* r := tried (dial id (net k id) (fun d => deliver d e)) in
      match r with
      | Ok (true, _) => dial id (net (S k) id) (fun d => sync d None)
      | Ok (false, w) => join_peers net (S k) e (why ++ [failure_text id w]) t
      | Err err => join_peers net (S k) e (why ++ [failure_text id (error_text err)]) t
      end
  end.
Definition join_group (env : Env) (net : Net) (link : InviteLink) : M SyncStats :=
  let g := il_group link in
  let* _ := on_store (fun s => (carry_group s g (now env), tt)) in
  let* n := get in
  let* _ := modify (with_groups (carry (n_groups n) g)) in
  let* e := signed (sign_at env (n_person n)
              (match il_code link with Some code => join g code | None => join_public g end)) in
  join_peers net 0 e [] (il_peers link).

Fixpoint contact_devices (env : Env) (net : Net) (k : nat) (person : PublicKey) (any : bool) (last : NodeError)
    (devices : list (EndpointId * option SocketAddr)) : M PublicKey :=
  match devices with
  | [] => if any then ret person else fail last
  | (d, addr) :: t =>
      let* _ := (match addr with Some _ => add_peer d | None => ret tt end) in
      let* r := tried (dial d (net k d) (fun d => introduce d)) in
      match r with
      | Ok (p, binding) =>
          if bool_decide (p = person) then
            let* _ := learn_binding env binding person in
            contact_devices env net (S k) person true last t
          else contact_devices env net (S k) person any
                 (Protocol "a device in the link speaks for someone else") t
      | Err e => contact_devices env net (S k) person any e t
      end
  end.
Definition add_contact (env : Env) (net : Net) (link : ContactLink) : M PublicKey :=
  let* n := get in
  if bool_decide (cl_person link = me n) then fail (Protocol "that is your own link")
  else contact_devices env net 0 (cl_person link) false (Protocol "none of their devices answered") (cl_devices link).
End Dialling.
