(* ===== verification/SyncSpec.v ===== *)
(** What a sync does to the node and tells the peer: the node stays right
    whatever the peer sends; the sync ends with the peer's frames; what is
    fetched settles, nothing refused that the node would take; and only what
    the person of the peer's binding may read is pushed to it. *)
From S2P Require Import Prelude Text Nostr GroupEvent Replace Perm Zap GroupState Fold FoldOrder.
From S2P Require Import Answers Binding Dm Groups EventStore StoreSpec StoreEffect Proto Person.
From S2P Require Import Node NodeSpec NodeOps Session Relay RelaySpec Sync.

#[local] Open Scope Z_scope.

(** What the code relies on of [negentropy]: the ids it says the other side
    lacks are of the set it was given. *)
Class NegLaws {N : NostrTypes} {RT : RelayTypes} := {
  neg_holds : Neg -> EventId -> Prop;
  neg_new_holds l s i : neg_new l = Some s -> neg_holds s i -> i ∈ map snd l;
  neg_initiate_holds s s' m i : neg_initiate s = Some (s', m) -> neg_holds s' i -> neg_holds s i;
  neg_have_holds s m s' have need out i : neg_reconcile_with_ids s m = Some (s', have, need, out) ->
    (i ∈ have \/ neg_holds s' i) -> neg_holds s i;
}.

Section SyncSpec.
Context {N : NostrTypes} {O : NostrOps} {L : NostrLaws} {J : JsonLaws}.
Context {T : DeviceTypes} {P : DeviceOps} {C : DmCrypto}.
Context {Y : WireTypes} {F : ProfileTypes} {NT : NodeTypes} {RT : RelayTypes} {ST : SyncTypes}.
#[local] Open Scope string_scope.
#[local] Open Scope Z_scope.
#[local] Open Scope list_scope.

(** ** Runs of a line *)
Definition healthy (n : Inner) : Prop := node_ok n /\ book_wf (n_book n).
Definition calm (clk : nat -> Env) : Prop := forall k, clock_ok (clk k).
Definition out_of_fuel : NodeError := Protocol "out of fuel".

(** How a piece of a session leaves the line and the node, having written only
    what [W] allows. *)
Record went (W : Asked -> Prop) (x : Line) (n : Inner) (c : Line * Inner) : Prop := {
  w_clock : l_clock c.1 = l_clock x;
  w_in : (length (l_in c.1) <= length (l_in x))%nat;
  w_out : exists l, l_out c.1 = l_out x ++ l /\ Forall W l;
  w_ok : healthy n -> healthy c.2;
}.
Lemma went_refl W x n : went W x n (x, n).
Proof. split; try done. exists []. by rewrite app_nil_r. Qed.
Lemma went_trans W x n x1 n1 c : went W x n (x1, n1) -> went W x1 n1 c -> went W x n c.
Proof.
  intros [H1 H2 (l1 & H3 & H4) H5] [H6 H7 (l2 & H8 & H9) H10]. cbn [fst snd] in *. split; [congruence|lia| |auto].
  exists (l1 ++ l2). rewrite H8, H3, app_assoc. split; [done|by apply Forall_app].
Qed.
Lemma went_mono (W W' : Asked -> Prop) x n c : (forall s, W s -> W' s) -> went W x n c -> went W' x n c.
Proof.
  intros HW [H1 H2 (l & H3 & H4) H5]. split; [done..| |done]. exists l. split; [done|]. by eapply Forall_impl.
Qed.
(** A run from a healthy node on a calm line. *)
Definition safe {A} (W : Asked -> Prop) (m : Ses Line A) (x : Line) (n : Inner) (Q : Line -> Inner -> A -> Prop) : Prop :=
  calm (l_clock x) -> healthy n -> runs m (x, n) (fun c r => went W x n c /\
    match r with Ok a => Q c.1 c.2 a | Err e => e <> out_of_fuel end).
Lemma safe_ret {A} W (a : A) x n (Q : Line -> Inner -> A -> Prop) : Q x n a -> safe W (r_ret a) x n Q.
Proof. intros H _ _. split; [apply went_refl|done]. Qed.
Lemma safe_fail {A} W e x n (Q : Line -> Inner -> A -> Prop) : e <> out_of_fuel -> safe W (r_fail e) x n Q.
Proof. intros H _ _. split; [apply went_refl|done]. Qed.
Lemma safe_bind {A B} W (m : Ses Line A) (k : A -> Ses Line B) x n (Q : Line -> Inner -> A -> Prop) R :
  safe W m x n Q ->
  (forall x' n' a, went W x n (x', n') -> Q x' n' a -> safe W (k a) x' n' R) ->
  safe W (r_bind m k) x n R.
Proof.
  intros Hm Hk Hc Hn. apply runs_bind. eapply runs_weaken; [by apply Hm|].
  intros [x' n'] r [Hw Hr]. destruct r as [a|e]; [|done]. cbn in Hr.
  eapply runs_weaken; [apply (Hk x' n' a Hw Hr)|].
  - pose proof (w_clock _ _ _ _ Hw) as E. cbn in E. by rewrite E.
  - by apply (w_ok _ _ _ _ Hw).
  - intros c' r' [Hw' Hr']. split; [by eapply went_trans|done].
Qed.
Lemma safe_weaken {A} (W W' : Asked -> Prop) (m : Ses Line A) x n (Q Q' : Line -> Inner -> A -> Prop) :
  safe W m x n Q -> (forall s, W s -> W' s) -> (forall x' n' a, Q x' n' a -> Q' x' n' a) -> safe W' m x n Q'.
Proof.
  intros Hm HW HQ Hc Hn. eapply runs_weaken; [by apply Hm|]. intros c r [Hw Hr].
  split; [by eapply went_mono|]. destruct r; auto.
Qed.
Lemma safe_get {A} W (k : Inner -> Ses Line A) x n Q : safe W (k n) x n Q -> safe W (r_bind (inner get) k) x n Q.
Proof. done. Qed.
Lemma safe_at_once {A} W (f : Env -> M A) x n (Q : Line -> Inner -> A -> Prop) :
  (healthy n -> clock_ok (l_clock x (l_tick x)) -> exists n' r, f (l_clock x (l_tick x)) n = (n', r) /\ healthy n' /\
     match r with
     | Ok a => Q (mkLine (l_in x) (l_end x) (l_out x) (l_clock x) (S (l_tick x))) n' a
     | Err e => e <> out_of_fuel
     end) ->
  safe W (at_once f) x n Q.
Proof.
  intros H Hc Hn. destruct (H Hn (Hc _)) as (n' & r & Hf & Hn' & Hr). unfold at_once, runs, r_bind, clock, inner.
  rewrite Hf. split; [|exact Hr]. split; try done. exists []. by rewrite app_nil_r.
Qed.
Lemma safe_read W x n : safe W read x n (fun x' n' body => n' = n /\ l_in x = body :: l_in x').
Proof.
  intros Hc Hn. unfold runs, read. destruct (l_in x) as [|body t] eqn:E; cbn; (split; [|done]).
  - apply went_refl.
  - split; try done; cbn; [rewrite E; cbn; lia|]. exists []. by rewrite app_nil_r.
Qed.
Lemma safe_send (W : Asked -> Prop) body s x n : W s ->
  safe W (send body s) x n (fun x' n' _ => n' = n /\ l_in x' = l_in x).
Proof.
  intros HW Hc Hn. unfold runs, send. destruct (frame_encode body); cbn; (split; [|done]).
  - split; try done. exists [s]. split; [done|]. by constructor.
  - apply went_refl.
Qed.
Lemma safe_read_relay W x n :
  safe W read_relay x n (fun x' n' _ => n' = n /\ S (length (l_in x')) = length (l_in x)).
Proof.
  unfold read_relay. eapply safe_bind; [apply safe_read|]. intros x' n' body _ [-> Hin].
  destruct (from_utf8 body) as [text|]; [|by apply safe_fail].
  destruct (relay_from_json text) as [m|]; [|by apply safe_fail]. apply safe_ret. by rewrite Hin.
Qed.
Lemma safe_frames_left W x n :
  safe W frames_left x n (fun x' n' k => x' = x /\ n' = n /\ k = S (length (l_in x))).
Proof. intros Hc Hn. split; [apply went_refl|done]. Qed.
Lemma unexpected_fuel during m : unexpected during m <> out_of_fuel.
Proof. done. Qed.

(** ** The pieces of a session *)
Definition greets (s : Asked) : Prop := match s with Greets _ => True | Asks _ => False end.
Lemma accept_healthy env src e n : healthy n -> clock_ok env ->
  exists n' v, accept_event env src e n = (n', Ok v) /\ healthy n' /\ outcome src e n n' v.
Proof.
  intros [K Hb] Hc. destruct (accept_total n env src e K Hc) as (n' & v & Hr & Ho). exists n', v.
  split; [done|]. split; [|done]. split; [apply Ho|by apply (o_book _ _ _ _ _ Ho)].
Qed.
Lemma safe_accept W src e x n :
  safe W (at_once (fun env => accept_event env src e)) x n (fun x' n' v =>
    l_in x' = l_in x /\ outcome src e n n' v /\ exists k, accept_event (l_clock x k) src e n = (n', Ok v)).
Proof.
  apply safe_at_once. intros Hn Hc. destruct (accept_healthy _ src e n Hn Hc) as (n' & v & Hr & Hn' & Ho).
  rewrite Hr. eexists _, _. split; [done|]. split; [done|]. cbn. split; [done|]. split; [done|]. by eexists.
Qed.
(** The hello: the peer's first frame was a binding, checked, for the device. *)
Definition proven (x : Line) (device : EndpointId) (person : PublicKey) (presented : Event) : Prop :=
  exists body rest k, l_in x = body :: rest /\ hello_decode body = Ok presented /\ person = ev_pubkey presented /\
    checked presented (now (l_clock x k)) (mkParsed (ep_to_string device) false).
Lemma safe_exchange device present x n :
  safe greets (exchange device present) x n (fun x' n' s =>
    proven x device s.1 s.2 /\ (length (l_in x') <= length (l_in x))%nat).
Proof.
  unfold exchange. apply safe_get.
  eapply safe_bind; [by apply safe_send|]. intros x1 n1 [] W1 [-> Hi1].
  eapply safe_bind; [apply safe_read|]. intros x2 n2 reply W2 [-> Hi2].
  destruct (hello_decode reply) as [theirs|e] eqn:Ed; [|apply safe_fail; by destruct (notice_of reply)].
  eapply safe_bind.
  { apply safe_at_once with (Q := fun x' n' person => l_in x' = l_in x2 /\ exists k, person = ev_pubkey theirs /\
      checked theirs (now (l_clock x2 k)) (mkParsed (ep_to_string device) false)).
    intros [K Hb] Hc. destruct (authenticate_peer_run _ theirs device n K Hb Hc) as (n' & r & Hr & K' & Hb' & Hp).
    exists n', r. split; [done|]. split; [done|]. destruct r as [person|e]; [|by destruct Hp as [? ->]].
    split; [done|]. by eexists. }
  intros x3 n3 person W3 (Hi3 & k & -> & Hck). eapply safe_bind.
  { apply safe_at_once with (Q := fun x' n' _ => l_in x' = l_in x3). intros Hn Hc.
    unfold heard_from, reached_now, bind, modify. eexists _, _. split; [done|]. split; [exact Hn|done]. }
  intros x4 n4 [] _ Hi4. apply safe_ret. split; [|rewrite Hi4, Hi3, <- Hi1, Hi2; cbn; lia].
  exists reply, (l_in x2), k. cbn [fst snd]. split; [by rewrite <- Hi1|]. split; [done|]. split; [done|].
  pose proof (w_clock _ _ _ _ W1) as E1. pose proof (w_clock _ _ _ _ W2) as E2. cbn in E1, E2. by rewrite <- E1, <- E2.
Qed.
Lemma safe_whatever {A} W (m : Ses Line A) x n Q : safe W m x n Q -> safe W (whatever m) x n (fun _ _ _ => True).
Proof. intros H Hc Hn. destruct (H Hc Hn) as [Hw _]. by split. Qed.
Lemma safe_close W b x n : safe W (close b) x n (fun _ _ _ => True).
Proof.
  unfold close. eapply safe_bind; [eapply safe_whatever, safe_accept|]. intros x1 n1 [] _ _.
  eapply safe_whatever, safe_read.
Qed.
Definition asks (s : Asked) : Prop := match s with Asks (CEvent _) => False | _ => True end.
Lemma safe_collect W fuel during x n : (length (l_in x) < fuel)%nat ->
  safe W (collect_events fuel during) x n (fun x' n' _ => n' = n).
Proof.
  revert x. induction fuel as [|fuel IH]; intros x Hf; [lia|]. cbn [collect_events].
  eapply safe_bind; [apply safe_read_relay|]. intros x1 n1 m _ [-> Hi].
  destruct m; try (apply safe_fail; done); [|by apply safe_ret].
  eapply safe_bind; [apply IH; lia|]. intros x2 n2 rest _ ->. by apply safe_ret.
Qed.
Lemma safe_collect_left W during x n :
  safe W (let^ fuel := frames_left in collect_events fuel during) x n (fun x' n' _ => n' = n).
Proof.
  eapply safe_bind; [apply safe_frames_left|]. intros x1 n1 k _ (-> & -> & ->). apply safe_collect. lia.
Qed.
Lemma safe_fetch l x n : safe asks (fetch_chunks l) x n (fun x' n' _ => n' = n).
Proof.
  revert x. induction l as [|chunk t IH]; intros x; cbn [fetch_chunks]; [by apply safe_ret|].
  eapply safe_bind; [by apply safe_send|]. intros x1 n1 [] _ [-> _].
  eapply safe_bind; [apply safe_frames_left|]. intros x2 n2 k _ (-> & -> & ->).
  eapply safe_bind; [apply safe_collect; lia|]. intros x3 n3 evs _ ->.
  eapply safe_bind; [apply IH|]. intros x4 n4 rest _ ->. by apply safe_ret.
Qed.

(** ** Negentropy *)
Lemma safe_neg_rounds fuel neg rounds have need x n : (length (l_in x) < fuel)%nat ->
  safe asks (neg_rounds fuel neg rounds have need) x n (fun x' n' r => n' = n /\
    forall (NL : NegLaws) i, i ∈ r.1.2 -> i ∈ have \/ neg_holds neg i).
Proof.
  revert x neg rounds have need. induction fuel as [|fuel IH]; intros x neg rounds have need Hf; [lia|].
  cbn [neg_rounds]. eapply safe_bind; [apply safe_read_relay|]. intros x1 n1 m _ [-> Hi].
  destruct m as [| | | | | |sub message| |]; try (by apply safe_fail).
  destruct (hex_decode message) as [msg|]; [|by apply safe_fail].
  destruct (neg_reconcile_with_ids neg msg) as [[[[neg' h] w] out]|] eqn:En; [|by apply safe_fail].
  destruct out as [out|].
  - eapply safe_bind; [by apply safe_send|]. intros x2 n2 [] _ [-> Hi2].
    eapply safe_weaken; [apply IH; rewrite Hi2; lia|done|]. intros x3 n3 r [-> Hr]. split; [done|].
    intros NL i Hin. destruct (Hr NL i Hin) as [[Hh|Hh]%elem_of_app|Hh]; [by left|right..];
      eapply neg_have_holds; eauto.
  - apply safe_ret. split; [done|]. cbn. intros NL i [Hh|Hh]%elem_of_app; [by left|right].
    eapply neg_have_holds; eauto.
Qed.
Lemma safe_reconcile person x n :
  safe asks (reconcile person) x n (fun x' n' r => n' = n /\
    forall (NL : NegLaws) i, i ∈ r.1.2 -> exists e k, ev_id e = i /\ holds (n_store n) e /\
      Groups_may_read (n_groups n) person e (now (l_clock x k)) = true).
Proof.
  unfold reconcile. eapply safe_bind.
  { apply safe_at_once with (Q := fun x' n' items => n' = n /\ forall e, e ∈ items -> holds (n_store n) e /\
      exists k, Groups_may_read (n_groups n) person e (now (l_clock x k)) = true).
    intros [K Hb] Hc. destruct (reconcilable_total n (l_clock x (l_tick x)) person carried_filter K)
      as (n' & items & Hr & -> & Hin).
    eexists _, _. split; [exact Hr|]. split; [done|]. split; [done|]. intros e He. split; [by apply Hin|].
    eexists. by apply Hin. }
  intros x1 n1 items W1 [-> Hin]. destruct (let! neg := neg_new _ in _) as [[neg initial]|] eqn:En; [|by apply safe_fail].
  eapply safe_bind; [by apply safe_send|]. intros x2 n2 [] _ [-> _].
  eapply safe_bind; [apply safe_frames_left|]. intros x3 n3 k _ (-> & -> & ->).
  eapply safe_bind; [apply safe_neg_rounds; lia|]. intros x4 n4 found _ [-> Hfound].
  eapply safe_bind; [by apply safe_send|]. intros x5 n5 [] _ [-> _]. apply safe_ret. split; [done|].
  intros NL i Hi. destruct (Hfound NL i Hi) as [Hno|Hh]; [by apply not_elem_of_nil in Hno|].
  destruct (neg_new (neg_items items)) as [neg0|] eqn:E0; [|done]. cbn in En.
  eapply neg_initiate_holds in Hh; [|exact En]. eapply neg_new_holds in Hh; [|exact E0].
  unfold neg_items in Hh. rewrite map_map in Hh. apply list_elem_of_fmap in Hh as (e & -> & He).
  destruct (Hin e He) as (H1 & k & H2). exists e, k. done.
Qed.

(** ** Settling *)

(** A run that cannot fail. *)
Definition sure {A} (W : Asked -> Prop) (m : Ses Line A) (x : Line) (n : Inner) (Q : Line -> Inner -> A -> Prop) : Prop :=
  calm (l_clock x) -> healthy n -> runs m (x, n) (fun c r => went W x n c /\ exists a, r = Ok a /\ Q c.1 c.2 a).
Lemma sure_ret {A} W (a : A) x n (Q : Line -> Inner -> A -> Prop) : Q x n a -> sure W (r_ret a) x n Q.
Proof. intros H _ _. split; [apply went_refl|by eexists]. Qed.
Lemma sure_bind {A B} W (m : Ses Line A) (k : A -> Ses Line B) x n (Q : Line -> Inner -> A -> Prop) R :
  sure W m x n Q ->
  (forall x' n' a, went W x n (x', n') -> Q x' n' a -> sure W (k a) x' n' R) ->
  sure W (r_bind m k) x n R.
Proof.
  intros Hm Hk Hc Hn. apply runs_bind. eapply runs_weaken; [by apply Hm|].
  intros [x' n'] r [Hw (a & -> & Ha)]. eapply runs_weaken; [apply (Hk x' n' a Hw Ha)|].
  - pose proof (w_clock _ _ _ _ Hw) as E. cbn in E. by rewrite E.
  - by apply (w_ok _ _ _ _ Hw).
  - intros c' r' [Hw' Hr']. split; [by eapply went_trans|done].
Qed.
Lemma sure_weaken {A} W (m : Ses Line A) x n (Q Q' : Line -> Inner -> A -> Prop) :
  sure W m x n Q -> (forall x' n' a, Q x' n' a -> Q' x' n' a) -> sure W m x n Q'.
Proof.
  intros Hm HQ Hc Hn. eapply runs_weaken; [by apply Hm|]. intros c r [Hw (a & -> & Ha)]. split; [done|]. eauto.
Qed.
Lemma sure_safe {A} W (m : Ses Line A) x n Q : sure W m x n Q -> safe W m x n Q.
Proof. intros H Hc Hn. destruct (H Hc Hn) as [Hw (a & Hr & Ha)]. split; [done|]. by rewrite Hr. Qed.
Lemma sure_accept W src e x n :
  sure W (at_once (fun env => accept_event env src e)) x n (fun x' n' v =>
    l_in x' = l_in x /\ outcome src e n n' v /\ exists k, accept_event (l_clock x k) src e n = (n', Ok v)).
Proof.
  intros Hc Hn. destruct (accept_healthy _ src e n Hn (Hc (l_tick x))) as (n' & v & Hr & Hn' & Ho).
  unfold runs, at_once, r_bind, clock, inner. rewrite Hr. split.
  - split; try done. exists []. by rewrite app_nil_r.
  - exists v. split; [done|]. split; [done|]. split; [done|]. by eexists.
Qed.
Definition refused_by (n : Inner) (clk : nat -> Env) (p : Event * string) : Prop :=
  exists k, accept_event (clk k) Fetch p.1 n = (n, Ok (false, p.2)).
Definition tally (t : Taken) : Z := tk_new t + tk_dup t + Z.of_nat (length (tk_waiting t)).
Lemma sure_take_in W l x n :
  sure W (take_in l) x n (fun x' n' t => l_in x' = l_in x /\ tally t = Z.of_nat (length l)).
Proof.
  revert x n. induction l as [|e l IH]; intros x n; cbn [take_in]; [by apply sure_ret|].
  eapply sure_bind; [apply sure_accept|]. intros x1 n1 v _ (Hi1 & _ & _).
  eapply sure_bind; [apply IH|]. intros x2 n2 t _ [Hi2 Ht]. apply sure_ret. split; [congruence|].
  unfold tally in *. destruct v as [[] why]; [destruct (str_is_empty why)|]; cbn [tk_new tk_dup tk_waiting length]; lia.
Qed.
(** A try of all: as many wait as before only if each was refused, and nothing
    changed. *)
Lemma sure_retry W l x n :
  sure W (retry l) x n (fun x' n' r => l_in x' = l_in x /\ r.1 + Z.of_nat (length r.2) = Z.of_nat (length l) /\
    (length r.2 <= length l)%nat /\
    (length r.2 = length l -> n' = n /\ Forall (refused_by n (l_clock x)) r.2)).
Proof.
  revert x n. induction l as [|[e why0] l IH]; intros x n; cbn [retry].
  { apply sure_ret. split; [done|]. split; [done|]. split; [done|]. by split; [|constructor]. }
  eapply sure_bind; [apply sure_accept|]. intros x1 n1 v W1 (Hi1 & Ho & k & Hk).
  eapply sure_bind; [apply IH|]. intros x2 n2 r _ (Hi2 & Hc & Hle & Hall). apply sure_ret.
  split; [congruence|]. destruct v as [[] why]; cbn [fst snd length]; (split; [lia|]); (split; [lia|]).
  - intros Hlen. lia.
  - intros [= Hlen]. destruct (Hall Hlen) as [-> Hf]. pose proof (o_refused _ _ _ _ _ Ho eq_refl) as ->.
    split; [done|]. constructor; [by exists k|]. pose proof (w_clock _ _ _ _ W1) as E. cbn in E. by rewrite E in Hf.
Qed.
Lemma sure_settle W fuel got l x n : (length l < fuel)%nat ->
  sure W (settle_waiting fuel got l) x n (fun x' n' r => l_in x' = l_in x /\
    r.1 + Z.of_nat (length r.2) = got + Z.of_nat (length l) /\ Forall (refused_by n' (l_clock x)) r.2).
Proof.
  revert got l x n. induction fuel as [|fuel IH]; intros got l x n Hf; [lia|]. cbn [settle_waiting].
  eapply sure_bind; [apply sure_retry|]. intros x1 n1 [r still] W1 (Hi & Hc & Hle & Hall). cbn [fst snd] in *.
  destruct (_ || _) eqn:Ed.
  - apply sure_ret. split; [done|]. cbn [fst snd]. split; [lia|].
    apply orb_true_iff in Ed as [Ed|Ed]; [by destruct still|]. apply Nat.eqb_eq in Ed.
    destruct (Hall Ed) as [-> Hr]. done.
  - apply orb_false_iff in Ed as [_ Ed]. apply Nat.eqb_neq in Ed. eapply sure_weaken; [apply IH; lia|].
    intros x2 n2 r2 (Hi2 & Hc2 & Hf2). pose proof (w_clock _ _ _ _ W1) as E. cbn in E. rewrite E in Hf2.
    split; [congruence|]. split; [lia|done].
Qed.
Lemma isort_length {A} (leb : A -> A -> bool) l : length (isort leb l) = length l.
Proof. apply Permutation_length, isort_perm. Qed.
Lemma sure_take_all W fetched x n :
  sure W (take_all fetched) x n (fun x' n' t => l_in x' = l_in x /\ tally t = Z.of_nat (length fetched) /\
    Forall (refused_by n' (l_clock x)) (tk_waiting t)).
Proof.
  unfold take_all. eapply sure_bind; [apply sure_take_in|]. intros x1 n1 t W1 [Hi1 Ht].
  rewrite isort_length in Ht. eapply sure_bind; [apply sure_settle; lia|]. intros x2 n2 r _ (Hi2 & Hc & Hf).
  pose proof (w_clock _ _ _ _ W1) as E. cbn in E. rewrite E in Hf. apply sure_ret. split; [congruence|].
  unfold tally in *. cbn [tk_new tk_dup tk_waiting]. split; [lia|done].
Qed.

(** ** Pushing *)
Lemma chunks_elem {A} fuel (l : list A) c a : c ∈ chunks_of fuel l -> a ∈ c -> a ∈ l.
Proof.
  revert l. induction fuel as [|fuel IH]; intros l Hc Ha; [by apply not_elem_of_nil in Hc|].
  destruct l as [|b l]; [by apply not_elem_of_nil in Hc|]. cbn [chunks_of] in Hc.
  apply elem_of_cons in Hc as [->|Hc].
  - eapply elem_of_take in Ha as (? & Ha & _). by eapply list_elem_of_lookup_2.
  - eapply IH in Hc; [|exact Ha]. by eapply (elem_of_submseteq _ _ _ Hc), submseteq_drop.
Qed.
Lemma by_chunks_total l n : store_wf (n_store n) ->
  total (by_chunks l) n (fun n' evs => n' = n /\
    forall e, e ∈ evs -> holds (n_store n) e /\ exists c, c ∈ l /\ ev_id e ∈ c).
Proof.
  intros Hw. induction l as [|c l IH]; cbn [by_chunks].
  - total_step. split; [done|]. by intros e He%not_elem_of_nil.
  - do 3 total_step. destruct (by_ids_spec (n_store n) c Hw) as (evs & Hr & Hin).
    eapply total_lift; [exact Hr|]. total_step. eapply total_weaken; [exact IH|]. intros n' rest [-> Hrest].
    total_step. split; [done|]. intros e [He|He]%elem_of_app.
    + apply Hin in He as [H1 H2]. split; [done|]. exists c. by split; [left|].
    + destruct (Hrest e He) as (H1 & c' & H2 & H3). split; [done|]. exists c'. by split; [right|].
Qed.
Definition pushes (ids : list EventId) (s : Asked) : Prop :=
  match s with Asks (CEvent e) => ev_id e ∈ ids | _ => False end.
Lemma safe_answers W l x n : safe W (answers_to l) x n (fun x' n' _ => n' = n).
Proof.
  revert x. induction l as [|e l IH]; intros x; cbn [answers_to]; [by apply safe_ret|].
  eapply safe_bind; [apply safe_read_relay|]. intros x1 n1 m _ [-> _].
  destruct m as [|id status why| | | | | | |]; try (by apply safe_fail).
  eapply safe_bind; [apply IH|]. intros x2 n2 r _ ->. by apply safe_ret.
Qed.
Lemma safe_push_each ids l x n : (forall e, e ∈ l -> ev_id e ∈ ids) ->
  safe (pushes ids) (r_each (fun e => write_client (CEvent e)) l) x n (fun x' n' _ => n' = n).
Proof.
  revert x. induction l as [|e l IH]; intros x Hl; cbn [r_each]; [by apply safe_ret|].
  eapply safe_bind; [apply safe_send, Hl; left|]. intros x1 n1 [] _ [-> _]. apply IH. intros y Hy. apply Hl. by right.
Qed.
Lemma safe_push_chunks ids l x n : (forall c e, c ∈ l -> e ∈ c -> ev_id e ∈ ids) ->
  safe (pushes ids) (push_chunks l) x n (fun x' n' _ => n' = n).
Proof.
  revert x. induction l as [|c l IH]; intros x Hl; cbn [push_chunks]; [by apply safe_ret|].
  eapply safe_bind; [apply safe_push_each; intros e; apply Hl; left|]. intros x1 n1 [] _ ->.
  eapply safe_bind; [apply safe_answers|]. intros x2 n2 a _ ->.
  eapply safe_bind; [apply IH; intros c' e Hc'; apply Hl; by right|]. intros x3 n3 b _ ->. by apply safe_ret.
Qed.
Lemma safe_inner {A} W (m : M A) (x : Line) n (Q : Line -> Inner -> A -> Prop) :
  (healthy n -> total m n (fun n' a => healthy n' /\ Q x n' a)) -> safe W (inner m) x n Q.
Proof.
  intros H Hc Hn. destruct (H Hn) as (n' & a & Hm & Hn' & Hq). unfold runs, inner. rewrite Hm. split; [|exact Hq].
  split; try done. exists []. by rewrite app_nil_r.
Qed.
Lemma safe_push have x n : safe (pushes have) (push_all have) x n (fun x' n' _ => n' = n).
Proof.
  unfold push_all. eapply safe_bind.
  { apply safe_inner with (Q := fun _ n' evs => n' = n /\ forall e, e ∈ evs -> ev_id e ∈ have). intros [K Hb].
    eapply total_weaken; [apply by_chunks_total, (k_wf _ _ _ _ K)|]. intros n' evs [-> Hin]. split; [done|].
    split; [done|]. intros e (_ & c & Hc & He)%Hin. by eapply chunks_elem. }
  intros x1 n1 evs _ [-> Hin]. apply safe_push_chunks. intros c e Hc He. apply Hin.
  pose proof (chunks_elem _ _ _ _ Hc He) as Hin'. by apply isort_elem in Hin'.
Qed.

(** ** Whole syncs *)

(** What a sync writes that gives something away: the events it pushes. *)
Definition shared (person : PublicKey) (m : Inner) (clk : nat -> Env) (s : Asked) : Prop :=
  match s with
  | Asks (CEvent e) => forall (NL : NegLaws), exists e' k, ev_id e' = ev_id e /\ holds (n_store m) e' /\
      Groups_may_read (n_groups m) person e' (now (clk k)) = true
  | _ => True
  end.
Lemma asks_shared person m clk s : asks s -> shared person m clk s.
Proof. by destruct s as [|[]]. Qed.
(** After the hello. *)
Definition synced (person : PublicKey) (binding : Event) : Ses Line SyncStats :=
  let^ found := reconcile person in
  let '(rounds, have, need) := found in
  let^ fetched := fetch_chunks (chunks need) in
  let^ t := take_all fetched in
  let^ pushed := push_all have in
  let^ _ := close binding in
  r_ret (mkStats rounds (Z.of_nat (length need)) (Z.of_nat (length have))
           (tk_new t) (tk_dup t) pushed.1 (Z.of_nat (length (tk_waiting t)) + pushed.2)).
Lemma sync_synced device present :
  sync device present = let^ s := exchange device present in synced s.1 s.2.
Proof. done. Qed.
Lemma safe_synced person binding x n :
  safe (shared person n (l_clock x)) (synced person binding) x n (fun _ _ _ => True).
Proof.
  unfold synced. eapply safe_bind.
  { eapply safe_weaken; [apply safe_reconcile|apply asks_shared|intros x' n' r H; exact H]. }
  intros x1 n1 [[rounds have] need] W1 [-> Hhave]. cbn [fst snd] in Hhave.
  eapply safe_bind; [eapply safe_weaken; [apply safe_fetch|apply asks_shared|intros x' n' r H; exact H]|].
  intros x2 n2 fetched _ ->. eapply safe_bind; [apply sure_safe, sure_take_all|]. intros x3 n3 t _ _.
  eapply safe_bind.
  { eapply safe_weaken; [apply safe_push| |intros x' n' r H; exact H]. intros [b|[e| | | | | | |]]; try done.
    cbn. intros He NL. destruct (Hhave NL _ He) as (e' & k & H1 & H2 & H3). exists e', k. done. }
  intros x4 n4 pushed _ ->. eapply safe_bind; [apply safe_close|]. intros x5 n5 [] _ _. by apply safe_ret.
Qed.
Lemma safe_sync device present x n : safe (fun _ => True) (sync device present) x n (fun _ _ _ => True).
Proof.
  rewrite sync_synced. eapply safe_bind; [eapply safe_weaken; [apply safe_exchange|done|intros x' n' r H; exact H]|].
  intros x1 n1 s _ _. eapply safe_weaken; [apply safe_synced|done|done].
Qed.

(** C32. A sync keeps the node right whatever the peer sends, and it ends:
    with what it did, or an error, by the time the peer's frames do - its
    loops are given a round for each frame left and one more, and never want
    for another. *)
Theorem sync_ends device present x n : node_ok n -> book_wf (n_book n) -> (forall k, clock_ok (l_clock x k)) ->
  exists x' n' r, sync device present (x, n) = ((x', n'), r) /\ node_ok n' /\ book_wf (n_book n') /\
    (length (l_in x') <= length (l_in x))%nat /\ r <> Err (Protocol "out of fuel").
Proof.
  intros K Hb Hc. destruct (safe_sync device present x n Hc (conj K Hb)) as [[_ Hi _ Hok] Hr].
  destruct (sync device present (x, n)) as [[x' n'] r]. cbn [fst snd] in *. exists x', n', r.
  split; [done|]. destruct (Hok (conj K Hb)) as [K' Hb']. split; [done|]. split; [done|]. split; [done|].
  destruct r as [a|e]; [done|]. intros [= ->]. by apply Hr.
Qed.

(** What was fetched settles: taken in order and tried again while
    anything new gets in, every event is counted once - taken, already here,
    or refused - and each one left refused is one the node, as it then is,
    refuses: no order of trying them would have let it in. *)
Theorem fetched_settles fetched x n : node_ok n -> book_wf (n_book n) -> (forall k, clock_ok (l_clock x k)) ->
  exists x' n' t, take_all fetched (x, n) = ((x', n'), Ok t) /\ node_ok n' /\
    tk_new t + tk_dup t + Z.of_nat (length (tk_waiting t)) = Z.of_nat (length fetched) /\
    forall e why, (e, why) ∈ tk_waiting t ->
      exists k, accept_event (l_clock x k) Fetch e n' = (n', Ok (false, why)).
Proof.
  intros K Hb Hc. pose proof (sure_take_all (fun _ => True) fetched x n Hc (conj K Hb)) as H.
  unfold runs in H. destruct (take_all fetched (x, n)) as [[x' n'] r]. cbn [fst snd] in H.
  destruct H as (W & t & -> & _ & Ht & Hf).
  exists x', n', t. split; [done|]. split; [by apply (w_ok _ _ _ _ W)|]. split; [done|].
  rewrite Forall_forall in Hf. intros e why He. by apply Hf in He.
Qed.

(** What [exchange] writes: its hello, or nothing where that fits no frame. *)
Lemma at_once_out {A} (f : Env -> M A) c : l_out (at_once f c).1.1 = l_out c.1.
Proof. destruct c as [x n]. unfold at_once, r_bind, clock, inner. by destruct (f _ n). Qed.
Lemma read_out c : l_out (read c).1.1 = l_out c.1.
Proof. destruct c as [x n]. cbn. by destruct (l_in x). Qed.
Lemma send_out body s c : (l_out (send body s c).1.1 = l_out c.1 ++ [s]) \/
  (l_out (send body s c).1.1 = l_out c.1 /\ exists e, (send body s c).2 = Err e).
Proof. destruct c as [x n]. unfold send. destruct (frame_encode body); cbn; eauto. Qed.
Lemma silent_bind {A B} (m : Ses Line A) (k : A -> Ses Line B) c : l_out (m c).1.1 = l_out c.1 ->
  (forall a c', l_out (k a c').1.1 = l_out c'.1) -> l_out (r_bind m k c).1.1 = l_out c.1.
Proof. intros Hm Hk. rewrite r_bind_eq. destruct (m c) as [c' [a|e]]; cbn in *; [by rewrite Hk|done]. Qed.
Lemma exchange_out device present c :
  l_out (exchange device present c).1.1 = l_out c.1 \/
  l_out (exchange device present c).1.1 = l_out c.1 ++ [Greets (opt_get (n_own_binding c.2) present)].
Proof.
  unfold exchange. rewrite r_bind_eq. destruct c as [x n]. cbn [fst snd inner get]. cbv zeta. rewrite r_bind_eq.
  set (s := Greets _). set (body := hello_encode _).
  destruct (send_out body s (x, n)) as [H|[H [e He]]]; destruct (send body s (x, n)) as [c1 r]; cbn [fst snd] in *;
    [destruct r as [[]|e]; [right|by right]|subst; by left].
  rewrite <- H. apply silent_bind; [apply read_out|]. intros reply c2. destruct (hello_decode reply) as [theirs|]; [|done].
  apply silent_bind; [apply at_once_out|]. intros person c3. apply silent_bind; [apply at_once_out|done].
Qed.

(** C20. What a sync gives away.  Until the peer's first frame was read as a hello,
    its binding checked for the very device dialled, nothing is written but one's
    own hello, at most once; if that fails nothing more ever is.  After it, an
    event pushed is one that, when the two sides compared what they hold, was held
    here and readable by the person of that binding. *)
Theorem sync_offers (NL : NegLaws) device present x n x' n' r :
  node_ok n -> book_wf (n_book n) -> (forall k, clock_ok (l_clock x k)) -> l_out x = [] ->
  sync device present (x, n) = ((x', n'), r) ->
  exists x1 m greeted, exchange device present (x, n) = ((x1, m), greeted) /\
    (l_out x1 = [] \/ l_out x1 = [Greets (opt_get (n_own_binding n) present)]) /\
    match greeted with
    | Err _ => l_out x' = l_out x1
    | Ok (person, presented) =>
        person = ev_pubkey presented /\
        (exists body k, head (l_in x) = Some body /\ hello_decode body = Ok presented /\
           checked presented (now (l_clock x k)) (mkParsed (ep_to_string device) false)) /\
        forall e, Asks (CEvent e) ∈ l_out x' -> exists e' k,
          ev_id e' = ev_id e /\ holds (n_store m) e' /\
          Groups_may_read (n_groups m) (ev_pubkey presented) e' (now (l_clock x k)) = true
    end.
Proof.
  intros K Hb Hc Ho Hs. pose proof (conj K Hb) as Hn. pose proof (exchange_out device present (x, n)) as Hout. cbn [fst snd] in Hout. rewrite Ho in Hout.
  destruct (safe_exchange device present x n Hc Hn) as [W Hr]. rewrite sync_synced, r_bind_eq in Hs.
  destruct (exchange device present (x, n)) as [[x1 m] [[person presented]|err]] eqn:Ex; cbn [fst snd] in *; cycle 1.
  { injection Hs as <- <- <-. by exists x1, m, (Err err). }
  exists x1, m, (Ok (person, presented)). split; [done|]. split; [exact Hout|].
  destruct Hr as [(body & rest & k0 & Hin & Hd & -> & Hck) _]. split; [done|].
  split; [exists body, k0; by rewrite Hin|]. intros e He.
  pose proof (w_clock _ _ _ _ W) as Eclk. cbn in Eclk.
  destruct (safe_synced (ev_pubkey presented) presented x1 m) as [W2 _];
    [by rewrite Eclk|by apply (w_ok _ _ _ _ W)|]. rewrite Hs in W2.
  destruct (w_out _ _ _ _ W2) as (l2 & Hl2 & Hf2). cbn in Hl2. rewrite Hl2 in He. rewrite Forall_forall in Hf2.
  apply elem_of_app in He as [He|He].
  { destruct Hout as [Hout|Hout]; rewrite Hout in He; [by apply not_elem_of_nil in He|by apply list_elem_of_singleton in He]. }
  destruct (Hf2 _ He NL) as (e' & k & H1 & H2 & H3). rewrite Eclk in H3. by exists e', k.
Qed.

(** ** Dialling *)
Definition preserves {A} (m : M A) : Prop := forall n, healthy n -> healthy (m n).1.
Lemma preserves_ret {A} (a : A) : preserves (ret a).
Proof. by intros n Hn. Qed.
Lemma preserves_fail {A} e : preserves (A := A) (fail e).
Proof. by intros n Hn. Qed.
Lemma preserves_bind {A B} (m : M A) (k : A -> M B) : preserves m -> (forall a, preserves (k a)) -> preserves (bind m k).
Proof.
  intros Hm Hk n Hn. unfold bind. specialize (Hm n Hn). destruct (m n) as [n1 [a|e]]; [|done]. by apply Hk.
Qed.
Lemma preserves_get {A} (k : Inner -> M A) : (forall n, preserves (k n)) -> preserves (bind get k).
Proof. intros Hk n Hn. by apply Hk. Qed.
Lemma preserves_modify f : (forall n, n_store (f n) = n_store n /\ n_book (f n) = n_book n /\
  forall g, state (n_groups (f n)) g = state (n_groups n) g) -> preserves (modify f).
Proof.
  intros Hf n [K Hb]. destruct (Hf n) as (Hs & Hbk & HG). split; cbn; [|by rewrite Hbk].
  unfold node_ok. rewrite Hs. by eapply keeps_states.
Qed.
Lemma state_carry G g g' : state (carry G g) g' = state G g'.
Proof.
  unfold state, carry. cbn. destruct (g_carried G !! g) eqn:E; [done|].
  destruct (decide (g' = g)) as [->|Hn]; [by rewrite lookup_insert_eq, E|by rewrite lookup_insert_ne].
Qed.
Lemma drop_healthy n g : healthy n -> healthy (with_groups (drop_group (n_groups n) g) n).
Proof.
  intros [K Hb]. split; [|done]. unfold node_ok. cbn. assert (Hst : forall g' st,
    state (drop_group (n_groups n) g) g' = Some st -> state (n_groups n) g' = Some st).
  { intros g' st. unfold state, drop_group. cbn. destruct (decide (g' = g)) as [->|Hn];
      [by rewrite lookup_delete_eq|by rewrite lookup_delete_ne]. }
  split; try apply K; intros g' st; intros; [eapply (k_states _ _ _ _ K)|eapply (k_silent _ _ _ _ K)]; eauto.
Qed.
Definition fair (net : Net) : Prop := forall k d, calm (d_clock (net k d)).
Lemma preserves_dial {A} peer d (m : EndpointId -> Ses Line A) : calm (d_clock d) ->
  (forall dev x n, safe (fun _ => True) (m dev) x n (fun _ _ _ => True)) -> preserves (dial peer d m).
Proof.
  intros Hc Hm n Hn. unfold dial. destruct (d_reached d) as [r|why]; [|done]. destruct (negb _); [done|].
  destruct (Hm (r_device r) (mkLine (r_frames r) (r_end r) [] (d_clock d) 0) n Hc Hn) as [W _].
  apply (w_ok _ _ _ _ W) in Hn. by destruct (m _ _) as [[x1 n1] a].
Qed.
Lemma preserves_tried {A} (m : M A) : preserves m -> preserves (tried m).
Proof. intros Hm n Hn. unfold tried. specialize (Hm n Hn). by destruct (m n). Qed.
Lemma preserves_add_peer d : preserves (add_peer d).
Proof.
  apply preserves_get. intros n. case_bool_decide; [apply preserves_ret|]. by apply preserves_modify.
Qed.
Lemma safe_deliver dev e x n : safe (fun _ => True) (deliver dev e) x n (fun _ _ _ => True).
Proof.
  unfold deliver. eapply safe_bind; [eapply safe_weaken; [apply safe_exchange|done|intros x' n' r H; exact H]|].
  intros x1 n1 s _ _. eapply safe_bind; [by apply safe_send|]. intros x2 n2 [] _ _.
  eapply safe_bind; [apply safe_read_relay|]. intros x3 n3 m _ _. destruct m; try (by apply safe_fail).
  eapply safe_bind; [apply safe_close|]. intros x4 n4 [] _ _. by apply safe_ret.
Qed.
Lemma safe_introduce dev x n : safe (fun _ => True) (introduce dev) x n (fun _ _ s => s.1 = ev_pubkey s.2).
Proof.
  unfold introduce. eapply safe_bind; [eapply safe_weaken; [apply safe_exchange|done|intros x' n' r H; exact H]|].
  intros x1 n1 s _ [(? & ? & ? & _ & _ & Hp & _) _]. eapply safe_bind; [apply safe_close|]. intros x4 n4 [] _ _. by apply safe_ret.
Qed.
Lemma preserves_learn env b p : clock_ok env -> preserves (learn_binding env b p).
Proof.
  intros Hc n [K Hb]. destruct (learn_quiet n env b p (k_wf _ _ _ _ K) Hc) as (n' & [] & Hr & W & Q & HG).
  unfold attempt in Hr. injection Hr as ->. split; [|by apply (wi_book _ _ W)].
  unfold node_ok. eapply keeps_states; [exact HG|]. by eapply keeps_quiet.
Qed.
Lemma bind_ok {A B} (m : M A) (k : A -> M B) n n1 a : m n = (n1, Ok a) -> bind m k n = k a n1.
Proof. intros H. unfold bind. by rewrite H. Qed.
Lemma follow_peers_run net k g why peers n : fair net -> healthy n ->
  healthy (follow_peers net k g why peers n).1 /\
  exists r, (follow_peers net k g why peers n).2 = Ok r /\
    forall st, r = inr st -> reads_public (follow_peers net k g why peers n).1 g = true.
Proof.
  intros Hf. revert k why n. induction peers as [|[id addr] t IH]; intros k why n Hn; cbn [follow_peers].
  { split; [done|]. by eexists. }
  assert (Ea : add_peer id n = ((add_peer id n).1, Ok tt))
    by (unfold add_peer, bind, get; by destruct (bool_decide _)).
  pose proof (preserves_add_peer id n Hn) as H1. rewrite (bind_ok _ _ _ _ _ Ea). set (n1 := (add_peer id n).1) in *.
  set (d := dial id (net k id) (fun d => sync d None)).
  assert (Hd : healthy (d n1).1) by (apply preserves_dial; [apply Hf|intros; apply safe_sync|done]).
  rewrite (bind_ok _ _ n1 (d n1).1 (d n1).2) by (unfold tried; by destruct (d n1)).
  unfold bind at 1 2 3, get. destruct (d n1).2 as [stats|e]; [|by apply IH].
  destruct (reads_public (d n1).1 g) eqn:Er; [|by apply IH].
  split; [done|]. exists (inr stats). split; [done|]. by intros.
Qed.

Lemma follow_run net link n : fair net -> healthy n ->
  let c := follow net link n in
  healthy c.1 /\
  match c.2 with
  | Ok _ => exists st, state (n_groups c.1) (il_group link) = Some st /\ gs_public st = true
  | Err _ => is_carried (n_groups n) (il_group link) = false -> is_carried (n_groups c.1) (il_group link) = false
  end.
Proof.
  intros Hf [K Hb]. cbv zeta. set (g := il_group link). set (already := is_carried (n_groups n) g).
  set (n1 := if already then n else with_groups (carry (n_groups n) g) n).
  assert (H1 : healthy n1).
  { unfold n1. destruct already; [done|]. split; [|done]. unfold node_ok. cbn.
    eapply keeps_states; [|exact K]. intros g'. apply state_carry. }
  destruct (follow_peers_run net 0 g [] (il_peers link) n1 Hf H1) as [H2 (r & Hr & Hpub)].
  assert (E : follow net link n = let '(n2, r2) := follow_peers net 0 g [] (il_peers link) n1 in
    match r2 with
    | Ok (inr stats) => (n2, Ok stats)
    | Ok (inl why) => ((if already then n2 else with_groups (drop_group (n_groups n2) g) n2), Err (no_peer why))
    | Err e => (n2, Err e)
    end).
  { unfold follow, bind, get. fold g already. unfold n1. destruct already; cbn;
      by destruct (follow_peers _ _ _ _ _ _) as [n2 [[why|st]|e]]. }
  rewrite E. destruct (follow_peers net 0 g [] (il_peers link) n1) as [n2 r2]. cbn [fst snd] in *. subst r2.
  destruct r as [why|st]; cbn [fst snd].
  - destruct already eqn:Ea; [done|]. split; [exact (drop_healthy n2 g H2)|]. intros _.
    unfold is_carried, drop_group. cbn. by rewrite lookup_delete_eq.
  - split; [done|]. specialize (Hpub st eq_refl). unfold reads_public in Hpub.
    destruct (state (n_groups n2) g) as [s|]; [|done]. by exists s.
Qed.

(** Reading a public group by its link.  Whatever the peers of the link
    do, the node stays right; if it says it reads the group then the group's
    state is here and says it is public; and if not, a group it did not carry
    before it does not carry after. *)
Theorem follow_puts_down net link n : fair net -> node_ok n -> book_wf (n_book n) ->
  let c := follow net link n in
  node_ok c.1 /\
  match c.2 with
  | Ok _ => exists st, state (n_groups c.1) (il_group link) = Some st /\ gs_public st = true
  | Err _ => is_carried (n_groups n) (il_group link) = false -> is_carried (n_groups c.1) (il_group link) = false
  end.
Proof. intros Hf K Hb. by destruct (follow_run net link n Hf (conj K Hb)) as [[H _] ?]. Qed.
Lemma preserves_join_peers net k e why peers : fair net -> preserves (join_peers net k e why peers).
Proof.
  intros Hf. revert k why. induction peers as [|[id addr] t IH]; intros k why; cbn [join_peers]; [apply preserves_fail|].
  apply preserves_bind; [apply preserves_add_peer|]. intros [].
  apply preserves_bind; [apply preserves_tried, preserves_dial; [apply Hf|intros; apply safe_deliver]|].
  intros [[[] w]|err]; [|apply IH..]. apply preserves_dial; [apply Hf|intros; apply safe_sync].
Qed.
Lemma preserves_contact env net k person any last devices : fair net -> clock_ok env ->
  preserves (contact_devices env net k person any last devices).
Proof.
  intros Hf Hc. revert k any last. induction devices as [|[d addr] t IH]; intros k any last; cbn [contact_devices].
  { destruct any; [apply preserves_ret|apply preserves_fail]. }
  apply preserves_bind; [destruct addr; [apply preserves_add_peer|apply preserves_ret]|]. intros [].
  apply preserves_bind.
  { apply preserves_tried, preserves_dial; [apply Hf|]. intros. eapply safe_weaken; [apply safe_introduce|done|done]. }
  intros [[p b]|e]; [|apply IH]. case_bool_decide; [|apply IH].
  apply preserves_bind; [by apply preserves_learn|]. intros []. apply IH.
Qed.

Lemma contact_devices_person env net k person any last devices n p :
  (contact_devices env net k person any last devices n).2 = Ok p -> p = person.
Proof.
  revert k any last n. induction devices as [|[d addr] t IH]; intros k any last n; cbn [contact_devices].
  { destruct any; [by intros [= <-]|done]. }
  unfold bind. destruct (match addr with Some _ => add_peer d | None => ret tt end n) as [n1 [[]|]]; [|done].
  unfold tried. destruct (dial _ _ _ n1) as [n2 [[q b]|e]]; [|apply IH].
  case_bool_decide; [|apply IH]. destruct (learn_binding env b person n2) as [n3 [[]|]]; [|done]. apply IH.
Qed.

Lemma preserves_join_group env net link : fair net -> clock_ok env -> preserves (join_group env net link).
Proof.
  intros Hf Hc n [K Hb]. unfold join_group, bind at 1. unfold on_store. cbn [fst snd].
  set (n0 := with_store (carry_group (n_store n) (il_group link) (now env)) n).
  assert (H0 : healthy n0).
  { split; [|done]. unfold node_ok, n0. cbn. eapply keeps_quiet; [exact K|]. unfold carry_group.
    destruct (existsb _ _); [apply quiet_refl|apply tables_quiet]; apply (k_wf _ _ _ _ K). }
  set (n1 := with_groups (carry (n_groups n0) (il_group link)) n0).
  assert (H1 : healthy n1).
  { destruct H0 as [K0 Hb0]. split; [|done]. unfold node_ok. cbn. eapply keeps_states; [|exact K0]. intros g'. apply state_carry. }
  unfold bind at 1 2, get, modify. fold n0 n1. revert H1. generalize n1. intros n2.
  apply preserves_bind; [unfold signed; destruct (sign_at _ _ _); [apply preserves_ret|apply preserves_fail]|].
  intros e. by apply preserves_join_peers.
Qed.
Lemma preserves_add_contact env net link : fair net -> clock_ok env -> preserves (add_contact env net link).
Proof.
  intros Hf Hc. apply preserves_get. intros n. case_bool_decide; [apply preserves_fail|by apply preserves_contact].
Qed.

(** Joining a group and opening a contact link keep the node right,
    whatever the devices dialled answer; and a person is only ever taken for
    a contact if the link named them and a device proved it speaks for them. *)
Theorem links_dialled env net n : fair net -> clock_ok env -> node_ok n -> book_wf (n_book n) ->
  (forall link, node_ok (join_group env net link n).1) /\
  (forall link, node_ok (add_contact env net link n).1 /\
     forall p, (add_contact env net link n).2 = Ok p -> p = cl_person link /\ p <> me n).
Proof.
  intros Hf Hc K Hb. split; intros link; [by apply preserves_join_group|]. split; [by apply preserves_add_contact|].
  unfold add_contact, bind, get. case_bool_decide as Hme; [done|].
  intros p Hp. apply contact_devices_person in Hp. subst p. split; [done|congruence].
Qed.
End SyncSpec.
