(* ===== verification/NodeRight.v ===== *)
(** What each operation of a node leaves right ([preserves]): whatever is signed
    or dialled, and every answer.  The database [right] holds them, and [preserve]
    walks through an operation made of others. *)
From S2P Require Import Prelude Text Nostr GroupEvent Replace Perm Zap GroupState Fold FoldOrder.
From S2P Require Import Answers Binding Dm Groups EventStore StoreSpec StoreEffect Proto Person.
From S2P Require Import Node NodeSpec NodeOps NodeGroups Reading Session Relay RelaySpec Sync SyncSpec.

#[local] Open Scope Z_scope.

Create HintDb right discriminated.
#[export] Hint Constants Opaque : right.
Ltac preserve :=
  repeat match goal with
    | |- preserves (bind get _) => apply preserves_get; intros ?
    | |- preserves (bind _ _) => apply preserves_bind; [|intros ?]
    | |- preserves (modify _) => apply preserves_modify; by intros
    | |- preserves (match _ with _ => _ end) => case_match
    | _ => solve [auto with right]
    | |- preserves (let _ := _ in _) => cbv zeta
    end.
Section NodeRight.
Context {N : NostrTypes} {O : NostrOps} {L : NostrLaws} {J : JsonLaws}.
Context {T : DeviceTypes} {P : DeviceOps} {C : DmCrypto}.
Context {Y : WireTypes} {F : ProfileTypes} {NT : NodeTypes} {RT : RelayTypes} {ST : SyncTypes} {NL : NegLaws}.
Context {K : Type} {KS : SecretStore K}.

Lemma preserves_lift {A} (r : result StoreError A) : preserves (lift r).
Proof. by intros n Hn; destruct r. Qed.
Lemma preserves_lift_node {A} (r : result NodeError A) : preserves (lift_node r).
Proof. by intros n Hn; destruct r. Qed.
Lemma preserves_signed o : preserves (signed o).
Proof. by intros n Hn; destruct o. Qed.
Lemma preserves_get_alone : preserves get.
Proof. by intros n Hn. Qed.
Lemma preserves_accept env src e : clock_ok env -> preserves (accept_event env src e).
Proof.
  intros Hc n [Hn Hb]. destruct (accept_total n env src e Hn Hc) as (n' & v & -> & H). split; [apply H|].
  by apply (o_book _ _ _ _ _ H).
Qed.
Hint Resolve preserves_lift preserves_lift_node preserves_signed preserves_get_alone preserves_accept @preserves_ret @preserves_fail : right.
Lemma preserves_publish env e : clock_ok env -> preserves (publish env e).
Proof. intros Hc. unfold publish. preserve. Qed.
Hint Resolve preserves_publish : right.
Lemma preserves_each {A} (f : A -> M unit) l : (forall x, preserves (f x)) -> preserves (for_each f l).
Proof. intros Hf. induction l as [|x t IH]; cbn; preserve. Qed.
Hint Resolve preserves_each : right.
Lemma preserves_sign env b : clock_ok env -> preserves (sign_and_publish env b).
Proof. intros Hc. unfold sign_and_publish. preserve. Qed.
Hint Resolve preserves_sign : right.
Lemma preserves_carry env g : preserves (on_store (fun s => (carry_group s g (now env), tt))).
Proof.
  intros n [Hn Hb]. split; [|done]. unfold node_ok. cbn. eapply keeps_quiet; [exact Hn|]. unfold carry_group.
  destruct (existsb _ _); [apply quiet_refl|apply tables_quiet]; apply (k_wf _ _ _ _ Hn).
Qed.
Lemma preserves_carried g : preserves (modify (fun n => with_groups (carry (n_groups n) g) n)).
Proof. apply preserves_modify. intros n. split; [done|]. split; [done|]. intros g'. apply state_carry. Qed.
Hint Resolve preserves_carry preserves_carried : right.

Section Signing.
Context (env : Env) (Hc : clock_ok env).
Hint Resolve Hc : right.
Lemma preserves_say_with g c text l : preserves (say_with env g c text l).
Proof. by apply preserves_sign. Qed.
Lemma preserves_put g p roles : preserves (put env g p roles).
Proof. by apply preserves_sign. Qed.
Lemma preserves_remove_member g p : preserves (remove_member env g p).
Proof. by apply preserves_sign. Qed.
Lemma preserves_ban g p : preserves (ban env g p).
Proof. by apply preserves_sign. Qed.
Lemma preserves_unban g p : preserves (unban env g p).
Proof. by apply preserves_sign. Qed.
Lemma preserves_mute g p until : preserves (mute env g p until).
Proof. by apply preserves_sign. Qed.
Lemma preserves_edit g l : preserves (NodeOps.edit env g l).
Proof. by apply preserves_sign. Qed.
Lemma preserves_remove_events g c l : preserves (remove_events env g c l).
Proof. by apply preserves_sign. Qed.
Lemma preserves_react g c t e : preserves (react env g c t e).
Proof. unfold react. preserve. Qed.
Lemma preserves_delete_own g c l : preserves (delete_own env g c l).
Proof. unfold delete_own. preserve. Qed.
Lemma preserves_set_profile b : preserves (set_profile env b).
Proof. unfold set_profile, own_profile. preserve. Qed.
Lemma preserves_set_own_name name : preserves (set_own_name env name).
Proof. apply preserves_set_profile. Qed.
Lemma preserves_inbox_of p : preserves (inbox_of p).
Proof. unfold inbox_of. preserve. Qed.
Hint Resolve preserves_inbox_of : right.
Lemma preserves_set_inbox l : preserves (set_inbox env l).
Proof. unfold set_inbox. preserve. Qed.
Lemma preserves_send_dm p text : preserves (NodeOps.send_dm env p text).
Proof. unfold NodeOps.send_dm, deliver_dm. preserve. Qed.
Lemma preserves_announce_voice g c inside : preserves (announce_voice env g c inside).
Proof. unfold announce_voice. preserve. Qed.
Lemma preserves_anchors g : preserves (anchors g).
Proof. unfold anchors. preserve. Qed.
Lemma preserves_lud16 p : preserves (lud16_of_person p).
Proof. unfold lud16_of_person. preserve. Qed.
Lemma preserves_names l : preserves (names l).
Proof. unfold names. preserve. Qed.
Lemma preserves_zaps l : preserves (zaps_of l).
Proof. unfold zaps_of. preserve. Qed.
Hint Resolve preserves_anchors preserves_lud16 preserves_names preserves_zaps : right.
Lemma preserves_zap_totals l : preserves (NodeOps.zap_totals l).
Proof. unfold NodeOps.zap_totals. preserve. Qed.
Lemma preserves_carry_zap e : preserves (carry_zap env e).
Proof. unfold carry_zap. preserve. Qed.
Lemma preserves_dms : preserves dms.
Proof. unfold dms. preserve. Qed.
Lemma preserves_channel_events g c ks : preserves (channel_events g c ks).
Proof. unfold channel_events. preserve. Qed.
Lemma preserves_channel_messages g c : preserves (channel_messages g c).
Proof. unfold channel_messages. preserve. Qed.
Lemma preserves_relays g : preserves (receipt_relays g).
Proof. unfold receipt_relays. preserve. Qed.
Lemma preserves_invite g code hours addr : preserves (invite env g code hours addr).
Proof. unfold invite. preserve. Qed.
Lemma preserves_public_link g addr : preserves (public_link env g addr).
Proof. unfold public_link. preserve. Qed.
Lemma preserves_compact keys g : preserves (compact env (S := K) keys g).
Proof. unfold compact. preserve. Qed.
Lemma preserves_create keys made name public : preserves (create_group_with env (S := K) keys made name public).2.
Proof. unfold create_group_with. destruct (group_key_save _ _); cbn; preserve. Qed.
End Signing.
Hint Resolve preserves_say_with preserves_put preserves_remove_member preserves_ban preserves_unban preserves_mute preserves_edit
  preserves_remove_events preserves_set_own_name preserves_react preserves_delete_own preserves_set_profile preserves_inbox_of preserves_set_inbox preserves_send_dm
  preserves_announce_voice preserves_anchors preserves_lud16 preserves_names preserves_zaps preserves_zap_totals preserves_carry_zap
  preserves_dms preserves_channel_events preserves_channel_messages preserves_invite
  preserves_public_link preserves_compact preserves_create preserves_join_group preserves_add_contact : right.
Lemma preserves_follow net link : fair net -> preserves (follow net link).
Proof. intros Hf n Hn. by destruct (follow_run net link n Hf Hn). Qed.
Hint Resolve preserves_follow : right.
End NodeRight.
#[export] Hint Resolve preserves_lift preserves_lift_node preserves_signed preserves_get_alone preserves_accept @preserves_ret
  @preserves_fail preserves_publish preserves_each preserves_sign preserves_carry preserves_carried preserves_inbox_of
  preserves_anchors preserves_lud16 preserves_names preserves_zaps preserves_say_with preserves_put preserves_remove_member
  preserves_ban preserves_unban preserves_mute preserves_edit preserves_remove_events preserves_set_own_name preserves_react
  preserves_delete_own preserves_set_profile preserves_set_inbox preserves_send_dm preserves_announce_voice
  preserves_zap_totals preserves_carry_zap preserves_dms preserves_channel_events preserves_channel_messages preserves_relays
  preserves_invite preserves_public_link preserves_compact preserves_create preserves_join_group
  preserves_add_contact preserves_follow : right.
