(* ===== verification/SyncLoop.v ===== *)
(** The node's own rhythm ([crates/hit-node/src/lib.rs], [spawn_sync_loop]):
    every so often it hears how its syncs went, does its housekeeping, and
    starts a sync with each device that is due and not being synced with.

    A round is one turn of the loop; a sync is started in one and ends between
    two, when its result is sent to the loop.  A sync cut after its thirty
    seconds is one whose line ends there.  Dialling the gossip members again is
    iroh-gossip's. *)
From S2P Require Import Prelude Text Nostr GroupEvent Replace Perm Zap GroupState Fold.
From S2P Require Import Binding Dm Groups EventStore Proto Person Node NodeOps Session Relay Sync.

#[local] Open Scope Z_scope.

Section SyncLoop.
Context {N : NostrTypes} {O : NostrOps} {T : DeviceTypes} {P : DeviceOps} {C : DmCrypto}.
Context {Y : WireTypes} {F : ProfileTypes} {NT : NodeTypes} {RT : RelayTypes} {ST : SyncTypes}.

Definition MAX_WAIT : Z := 300.
(** [busy] is whom a sync is running with, or ended with and was not yet heard
    of; [flying] the syncs running, [ended] the channel of results. *)
Record Loop := mkLoop {
  lp_wait : gmap EndpointId Z;
  lp_due : gmap EndpointId Instant;
  lp_busy : gset EndpointId;
  lp_flying : list EndpointId;
  lp_ended : list (EndpointId * bool) }.
Definition new_loop : Loop := mkLoop ∅ ∅ ∅ [] [].

(** [clamp(every, 300 s)], which panics when there is nothing between. *)
Definition clamp (every w : Z) : option Z :=
  if MAX_WAIT <? every then None else Some (Z.max every (Z.min w MAX_WAIT)).
Definition next_wait (every : Z) (ok : bool) (w : Z) : option Z := if ok then Some 0 else clamp every (w * 2).
(** How one sync went, heard at [at_]; [None] is a panic. *)
Definition hear_end (every : Z) (at_ : Instant) (l : Loop) (id : EndpointId) (ok : bool) : option Loop :=
  let! w := next_wait every ok (opt_get 0 (lp_wait l !! id)) in
  Some (mkLoop (<[id := w]> (lp_wait l)) (<[id := at_ + Z.max w every]> (lp_due l)) (lp_busy l ∖ {[id]}) (lp_flying l) (lp_ended l)).
Fixpoint hear_ends (every : Z) (at_ : Instant) (l : Loop) (ends : list (EndpointId * bool)) : option Loop :=
  match ends with
  | [] => Some l
  | (id, ok) :: t => let! l := hear_end every at_ l id ok in hear_ends every at_ l t
  end.
Definition take_ends (every : Z) (at_ : Instant) (l : Loop) : option Loop :=
  hear_ends every at_ (mkLoop (lp_wait l) (lp_due l) (lp_busy l) (lp_flying l) []) (lp_ended l).
(** A device that reached us is up. *)
Definition forget (heard : gset EndpointId) (l : Loop) : Loop :=
  let out {V} (m : gmap EndpointId V) := filter (fun x => x.1 ∉ heard) m in
  mkLoop (out (lp_wait l)) (out (lp_due l)) (lp_busy l) (lp_flying l) (lp_ended l).
Definition is_due (at_ : Instant) (l : Loop) (id : EndpointId) : bool :=
  negb (bool_decide (id ∈ lp_busy l)) && negb (is_some_and (lp_due l !! id) (fun d => at_ <? d)).
Fixpoint start_syncs (at_ : Instant) (targets : list EndpointId) (l : Loop) : Loop :=
  match targets with
  | [] => l
  | id :: t =>
      start_syncs at_ t
        (if is_due at_ l id then mkLoop (lp_wait l) (lp_due l) ({[id]} ∪ lp_busy l) (lp_flying l ++ [id]) (lp_ended l) else l)
  end.
(** What fails is logged, and the next thing is next. *)
Definition housekeeping (env : Env) : M unit :=
  let* _ := tried refresh_inbox_devices in
  let* _ := tried (refold_if_changed env) in
  let* _ := tried (renew_binding_if_due env) in
  let* _ := tried (expire_inbox_if_due env) in ret tt.
Definition round (every : Z) (env : Env) (order : gset EndpointId -> list EndpointId) (l : Loop) (n : Inner)
    : option (Loop * Inner) :=
  let! l := take_ends every (instant env) l in
  let '(n, heard) := take_heard n in
  let l := forget (match heard with Ok h => h | Err _ => ∅ end) l in
  let n := (housekeeping env n).1 in
  Some (start_syncs (instant env) (order (sync_targets env n)) l, n).
(** A sync that was running, and how it went. *)
Definition one_sync (env : Env) (net : Net) (id : EndpointId) : M bool :=
  let* r := tried (sync_with net id) in
  match r with Ok _ => let* _ := reached_now env id in ret true | Err _ => ret false end.
Definition ends (env : Env) (net : Net) (id : EndpointId) (l : Loop) (n : Inner) : Loop * Inner :=
  if bool_decide (id ∈ lp_flying l) then
    let '(n, r) := one_sync env net id n in
    let ok := match r with Ok b => b | Err _ => false end in
    (mkLoop (lp_wait l) (lp_due l) (lp_busy l) (List.filter (fun d => negb (bool_decide (d = id))) (lp_flying l)) (lp_ended l ++ [(id, ok)]), n)
  else (l, n).
End SyncLoop.
