(* ===== verification/Blobs.v ===== *)
(** Files ([crates/hit-node/src/blobs.rs], and the file operations of
    [lib.rs]): what is added, who is served which bytes, what the collector
    spares, and from whom a file is fetched.

    The blob store is the [iroh-blobs] crate's, and a class: content addressed,
    asked whether it holds a file whole, and changed by a transfer.  A handler
    is a session whose own state is that store and the policy. *)
From S2P Require Import Prelude Text Nostr GroupEvent Replace Perm Zap GroupState Fold.
From S2P Require Import Binding Dm Groups EventStore Proto Person Node NodeOps NodeGroups Session.

#[local] Open Scope Z_scope.

(** [iroh_blobs]: hashes, the store, and one [execute_get] over a connection. *)
Class BlobTypes := {
  Hash : Type;
  #[global] hash_eq_dec :: EqDecision Hash;
  #[global] hash_countable :: Countable Hash;
  hash_to_hex : Hash -> string;
  hash_from_str : string -> option Hash;
  BlobStore : Type;
  blob_add : BlobStore -> string -> result string (BlobStore * Hash);
  blob_whole : BlobStore -> Hash -> result string bool;
  blob_get : BlobStore -> Hash -> result string string;
  Provider : Type;
  (** [None]: what is asked for never comes, and the connection stays up. *)
  execute_get : Provider -> Hash -> BlobStore -> BlobStore * option (result string unit);
}.

Section Blobs.
Context {N : NostrTypes} {O : NostrOps} {T : DeviceTypes} {P : DeviceOps} {C : DmCrypto}.
Context {Y : WireTypes} {F : ProfileTypes} {NT : NodeTypes} {BT : BlobTypes}.
#[local] Open Scope string_scope.
#[local] Open Scope Z_scope.
#[local] Open Scope list_scope.

Definition PENDING_KEEP : Z := 3600.
Record FilePolicy := mkPolicy { pin_all : bool; cache_bytes : Z }.
Definition FilePolicy_default : FilePolicy := mkPolicy false (1024 * 1024 * 1024).
Record Blobs := mkBlobs { b_store : BlobStore; b_policy : FilePolicy }.
Abbreviation Bl := (Ses Blobs) (only parsing).

Definition set_file_policy (p : FilePolicy) : Bl unit :=
  fun '(x, n) => ((mkBlobs (b_store x) p, n), Ok tt).
Definition parse_hash (hash : string) : result NodeError Hash :=
  ok_or (hash_from_str hash) (Protocol "not a file hash").
(** [map_err(blob_err)]. *)
Definition blob_err {A} (r : result string A) : result NodeError A :=
  match r with Ok a => Ok a | Err e => Err (BlobFailed e) end.

(** ** Who is served *)
Inductive AbortReason := Permission.
Abbreviation EventResult := (result AbortReason unit) (only parsing).

(** May any of [persons] read a message carrying the file, or were they
    granted it? *)
Definition permitted (n : Inner) (at_ : Timestamp) (persons : list PublicKey) (h : Hash) : EventResult :=
  match carrying (n_store n) (hash_to_hex h) with
  | Err _ => Err Permission
  | Ok carrying =>
      if existsb (fun p => bool_decide (p ∈ granted (n_store n) (hash_to_hex h))) persons then Ok tt
      else if existsb (fun e => existsb (fun p => Groups_may_read (n_groups n) p e at_) persons) carrying
      then Ok tt else Err Permission
  end.
Inductive ProviderMessage :=
| GetRequest (h : Hash)
| GetManyRequest (hs : list Hash)
| ObserveRequest (h : Hash)
| PushRequest
| OtherMessage.
(** The first refusal is the answer. *)
Fixpoint permitted_all (n : Inner) (at_ : Timestamp) (persons : list PublicKey) (hs : list Hash) : EventResult :=
  match hs with
  | [] => Ok tt
  | h :: t => match permitted n at_ persons h with
              | Ok _ => permitted_all n at_ persons t
              | Err e => Err e
              end
  end.
(** What is sent back; [None], nothing. *)
Definition answer_ask (n : Inner) (at_ : Timestamp) (persons : list PublicKey) (m : ProviderMessage)
    : option EventResult :=
  match m with
  | GetRequest h => Some (permitted n at_ persons h)
  | GetManyRequest hs => Some (permitted_all n at_ persons hs)
  | ObserveRequest h => Some (permitted n at_ persons h)
  | PushRequest => Some (Err Permission)
  | OtherMessage => None
  end.
(** One connection: the persons of its device, read when it opens, and the
    node as each question finds it.  [None], closed: nobody we know. *)
Definition serve_blobs (n : Inner) (opened : Timestamp) (device : EndpointId)
    (asks : list (Inner * Timestamp * ProviderMessage)) : option (list (option EventResult)) :=
  match persons_of (n_book n) device opened with
  | [] => None
  | persons => Some (map (fun a => answer_ask a.1.1 a.1.2 persons a.2) asks)
  end.

(** ** What the collector spares *)
(** [None], the sweep is not run. *)
Fixpoint live_hashes (live : gset Hash) (hashes : list string) : option (gset Hash) :=
  match hashes with
  | [] => Some live
  | s :: t => match hash_from_str s with
              | Some h => live_hashes ({[h]} ∪ live) t
              | None => None
              end
  end.
Definition kept_hashes (s : EventStore.Store) (p : FilePolicy) (now : Timestamp) : list string :=
  (if pin_all p then map fst (attached s) else blobs_to_keep s (cache_bytes p))
  ++ mine_since s (sat_sub now PENDING_KEEP) ++ granted_hashes s.
Definition protect (s : EventStore.Store) (p : FilePolicy) (now : Timestamp) (live : gset Hash)
    : option (gset Hash) := live_hashes live (kept_hashes s p now).

(** ** Adding *)
Definition file_size_error : NodeError :=
  BlobFailed ("a file must be 1 byte to " +:+ show_u (MAX_ATTACHMENT_BYTES / 1000000) +:+ " MB").
Definition size_ok (size : Z) : bool := negb ((size =? 0) || (MAX_ATTACHMENT_BYTES <? size)).
Definition add_bytes (bytes : string) : Bl string :=
  fun '(x, n) => match blob_add (b_store x) bytes with
                 | Ok (st, h) => ((mkBlobs st (b_policy x), n), Ok (hash_to_hex h))
                 | Err e => ((x, n), Err (BlobFailed e))
                 end.
(** [disk] is what reading the path gives. *)
Definition add_path (disk : result string string) : Bl (string * string * Z) :=
  let^ bytes := r_lift (blob_err disk) in
  let size := str_len bytes in
  if negb (size_ok size) then r_fail file_size_error
  else
    let^ hash := add_bytes bytes in
    r_ret (hash, hex_encode (sha256 bytes), size).
Definition attach_path (env : Env) (path : Path) (disk : result string string) : Bl Attachment :=
  let^ a := add_path disk in
  let '(hash, sha, size) := a in inner (attach env path hash sha size).

(** ** Fetching *)
(** An await without a timeout: [None], it never comes back. *)
Definition Fetching (A : Type) : Type := Blobs * Inner -> Blobs * Inner * option (result NodeError A).
Definition f_bind {A B} (m : Fetching A) (k : A -> Fetching B) : Fetching B :=
  fun c => match m c with
           | (c, Some (Ok a)) => k a c
           | (c, Some (Err e)) => (c, Some (Err e))
           | (c, None) => (c, None)
           end.
Definition at_once {A} (m : Bl A) : Fetching A := fun c => let '(c, r) := m c in (c, Some r).
Notation "'let&' x ':=' e 'in' k" := (f_bind e (fun x => k)) (at level 200, x pattern, e at level 200, k at level 200, right associativity).
Definition whole (h : Hash) : Bl bool :=
  let^ x := session in r_lift (blob_err (blob_whole (b_store x) h)).
Definition get_from (c : Provider) (h : Hash) : Fetching (result string unit) :=
  fun '(x, n) => let '(st, r) := execute_get c h (b_store x) in ((mkBlobs st (b_policy x), n), option_map Ok r).
(** [Blobs::fetch], from one provider; a dial that failed, and why. *)
Definition fetch_blob (c : result string Provider) (h : Hash) : Fetching unit :=
  match c with
  | Err why => at_once (r_fail (ConnectFailed why))
  | Ok c =>
      let& r := get_from c h in
      at_once (
        let^ _ := r_lift (blob_err r) in
        let^ done := whole h in
        if (done : bool) then r_ret tt else r_fail (BlobFailed "incomplete after fetching"))
  end.
(** Every dial at once: the connections in the order they came up, [None] one
    that failed or was too slow. *)
Definition Dials : Type := list EndpointId -> list (option Provider).
Fixpoint fetch_each (h : Hash) (up : list (option Provider)) : Fetching unit :=
  match up with
  | [] => at_once (r_fail NoProvider)
  | None :: t => fetch_each h t
  | Some c :: t =>
      let& got := get_from c h in
      match got with
      | Err _ => fetch_each h t
      | Ok _ =>
          let& done := at_once (whole h) in
          if (done : bool) then at_once (r_ret tt) else fetch_each h t
      end
  end.
Definition fetch_first (dials : Dials) (from : list EndpointId) (h : Hash) : Fetching unit := fetch_each h (dials from).

Definition touch (env : Env) (hash : string) (mine : bool) : Bl unit :=
  inner (on_store (fun s => (touch_blob s hash mine (now env), tt))).
Definition fetch_file (env : Env) (dials : Dials) (hash : string) : Fetching unit :=
  let& h := at_once (r_lift (parse_hash hash)) in
  let& done := at_once (whole h) in
  if (done : bool) then at_once (touch env hash false)
  else
    let& order := at_once (inner (providers env hash)) in
    let& _ := fetch_first dials order h in
    at_once (touch env hash false).
Definition fetch_file_from (c : result string Provider) (hash : string) : Fetching unit :=
  let& h := at_once (r_lift (parse_hash hash)) in fetch_blob c h.
Definition blob_bytes (h : Hash) : Bl string :=
  let^ x := session in r_lift (blob_err (blob_get (b_store x) h)).
Definition file_bytes (env : Env) (hash : string) : Bl string :=
  let^ h := r_lift (parse_hash hash) in
  let^ _ := touch env hash false in blob_bytes h.
(** An anchor's pin: every file a held message carries, [dials] of each. *)
Fixpoint pin_each (env : Env) (dials : nat -> Dials) (k : nat) (hashes : list string) : Fetching nat :=
  match hashes with
  | [] => at_once (r_ret 0%nat)
  | hash :: t =>
      let& h := at_once (r_lift (parse_hash hash)) in
      let& done := at_once (whole h) in
      if (done : bool) then pin_each env dials (S k) t
      else
        let& r := (fun c => let '(c, r) := fetch_file env (dials k) hash c in (c, option_map (fun r => Ok (is_ok r)) r)) in
        let& got := pin_each env dials (S k) t in
        at_once (r_ret (if (r : bool) then S got else got))
  end.
Definition pin_files (env : Env) (dials : nat -> Dials) : Fetching nat :=
  let& n := at_once (inner get) in pin_each env dials 0 (map fst (attached (n_store n))).

(** ** Files of direct messages *)
(** [key] and [nonce] are what [seal_file] drew. *)
Definition send_dm_file (env : Env) (to : PublicKey) (path : Path) (disk : result string string)
    (key nonce : string) : Bl (Dm * list EndpointId) :=
  let^ plain := r_lift (blob_err disk) in
  let size := str_len plain in
  if negb (size_ok size) then r_fail file_size_error
  else
    match seal_file key nonce plain with
    | None => r_fail KeyFailed
    | Some (sealed, k, nc, original, sha) =>
        let^ hash := add_bytes sealed in
        let^ n := inner get in
        let^ _ := inner (grant hash to) in
        let^ _ := inner (grant hash (me n)) in
        let^ _ := touch env hash true in
        let '(mime, name) := attach_meta path in
        let file := mkDmFile hash sha original size mime name k nc in
        match wrap_dm_file (n_person n) to file (Some (n_own_binding n)) with
        | None => r_fail KeyFailed
        | Some (theirs, mine) => inner (deliver_dm env to theirs mine)
        end
    end.
Definition dm_file_bytes (env : Env) (dials : Dials) (dm : EventId) : Fetching string :=
  let& all := at_once (inner dms) in
  match List.find (fun d => bool_decide (dm_id d = dm)) all with
  | None => at_once (r_fail (BlobFailed "no such DM here"))
  | Some d =>
      match dm_file d with
      | None => at_once (r_fail (BlobFailed "that DM has no file"))
      | Some file =>
          let& h := at_once (r_lift (parse_hash (f_hash file))) in
          let& done := at_once (whole h) in
          let& n := at_once (inner get) in
          let other := if bool_decide (dm_from d = me n) then dm_to d else dm_from d in
          let devices := List.filter (fun x => negb (bool_decide (x = my_id n)))
                           (devices_of (n_book n) other (now env) ++ devices_of (n_book n) (me n) (now env)) in
          let& _ := (if (done : bool) then at_once (r_ret tt) else fetch_first dials devices h) in
          at_once (
            let^ _ := touch env (f_hash file) false in
            let^ sealed := blob_bytes h in
            r_lift (ok_or (open_file file sealed) (BlobFailed "the file did not open with its key")))
      end
  end.
End Blobs.
