(* ===== verification/BlobsSpec.v ===== *)
(** What a node does with files: who is served a file, and who is not; what
    the collector spares, and that it never gives up a sweep; that a file is
    found if anyone asked has it; and what a direct message that names a file
    hands out. *)
From S2P Require Import Prelude Text Nostr GroupEvent Replace Perm Zap GroupState Fold FoldOrder.
From S2P Require Import Answers Binding Dm Groups EventStore StoreSpec StoreEffect Proto Person.
From S2P Require Import Node NodeSpec Accept NodeOps NodeGroups Session Blobs.

#[local] Open Scope Z_scope.

(** What [iroh-blobs] says of a hash's text: sixty-four hexadecimal digits are
    a hash, and a hash prints as them. *)
Class BlobLaws {B : BlobTypes} : Prop := {
  hash_reads s : hex64 s = true -> exists h, hash_from_str s = Some h /\ hash_to_hex h = s;
  hash_prints h : hash_from_str (hash_to_hex h) = Some h;
}.

Section BlobsSpec.
Context {N : NostrTypes} {O : NostrOps} {L : NostrLaws} {J : JsonLaws}.
Context {T : DeviceTypes} {P : DeviceOps} {C : DmCrypto}.
Context {Y : WireTypes} {F : ProfileTypes} {NT : NodeTypes} {BT : BlobTypes} {BL : BlobLaws}.

(** ** The attachments of what is held *)
Definition has_file (e : Event) (hash : string) : Prop := exists id size, (hash, id, size) ∈ files_of e.
Lemma files_elem s hash id size : store_wf s ->
  (hash, id, size) ∈ t_attachments s <-> exists e, holds s e /\ (hash, id, size) ∈ files_of e.
Proof.
  intros Hw. rewrite (sw_files s Hw), flat_map_elem. split.
  - intros (r & Hr & Ha). destruct (sw_rows _ Hw r Hr) as (e & now & -> & _). rewrite row_files_of in Ha.
    exists e. split; [by eapply row_holds|done].
  - intros (e & He & Ha). destruct (holds_row _ _ Hw He) as [now Hr]. exists (row_of e now).
    split; [done|]. by rewrite row_files_of.
Qed.
Lemma has_file_valid e hash : has_file e hash -> hex64 hash = true.
Proof.
  intros (id & size & H). unfold files_of in H. destruct (_ =? _); [|by apply not_elem_of_nil in H].
  destruct (attachments_of e) as [files|] eqn:Ea; [|by apply not_elem_of_nil in H].
  apply list_elem_of_fmap in H as (a & [= -> _ _] & Ha). unfold attachments_of in Ea.
  destruct (collect_imeta (ev_tags e)) as [out|] eqn:Ec; [|done]. destruct (_ <=? _); [|done].
  injection Ea as ->. clear -Ec Ha. revert files Ec Ha. induction (ev_tags e) as [|t l IH]; intros files Ec Ha; cbn in Ec.
  { injection Ec as <-. by apply not_elem_of_nil in Ha. }
  destruct t as [|n fields]; [by eapply IH|]. case_bool_decide; [|by eapply IH].
  destruct (parse_imeta fields) as [b|] eqn:Ep; [|done]. destruct (collect_imeta l) as [rest|]; [|done].
  injection Ec as <-. apply elem_of_cons in Ha as [->|Ha]; [|by eapply IH].
  unfold parse_imeta in Ep. repeat match type of Ep with
    context [match ?x with _ => _ end] => destruct x eqn:?; try discriminate Ep end.
  injection Ep as <-. unfold Attachment_is_valid in *. bools. done.
Qed.
Lemma parse_rows_elem s rows : store_wf s -> (forall r, r ∈ rows -> r ∈ t_events s) ->
  exists es, parse_all (map w_json rows) = Ok es /\ forall e, e ∈ es <-> exists now, row_of e now ∈ rows.
Proof.
  intros Hw Hr. destruct (parse_all_rows rows) as (es & Hes & Hrel).
  { intros r H. destruct (sw_rows _ Hw r (Hr r H)) as (e & now & -> & _). eauto. }
  exists es. split; [done|]. intros e. split.
  - intros [i Hi]%list_elem_of_lookup. destruct (Forall2_lookup_r _ _ _ _ _ Hrel Hi) as (r & H & now & ->).
    exists now. by apply list_elem_of_lookup_2 in H.
  - intros (now & [i Hi]%list_elem_of_lookup). destruct (Forall2_lookup_l _ _ _ _ _ Hrel Hi) as (e' & He' & t & Heq).
    apply row_event in Heq as ->. by apply list_elem_of_lookup_2 in He'.
Qed.
Lemma flat_map_map {A B D} (f : B -> D) (g : A -> list B) l :
  flat_map (fun a => map f (g a)) l = map f (flat_map g l).
Proof. induction l as [|a l IH]; cbn; [done|]. by rewrite IH, map_app. Qed.
Lemma carrying_spec s hash : store_wf s -> exists es, carrying s hash = Ok es /\
  forall e, e ∈ es <-> holds s e /\ has_file e hash.
Proof.
  intros Hw. unfold carrying.
  set (rows_of := fun a : string * EventId * Z => if bool_decide (a.1.1 = hash)
    then List.filter (fun r => bool_decide (w_id r = a.1.2)) (t_events s) else []).
  destruct (parse_rows_elem s (flat_map rows_of (t_attachments s)) Hw) as (es & Hes & Hin).
  { intros r (a & _ & Hr)%flat_map_elem. unfold rows_of in Hr. case_bool_decide; [|by apply not_elem_of_nil in Hr].
    by apply filter_elem in Hr as [? _]. }
  exists es. split.
  - rewrite <- Hes, <- flat_map_map. f_equal. apply flat_map_ext. intros a. unfold rows_of. by case_bool_decide.
  - intros e. rewrite Hin. split.
    + intros (now & ([[h id] size] & Ha & Hr)%flat_map_elem). unfold rows_of in Hr. cbn in Hr.
      case_bool_decide as Hh; [subst h|by apply not_elem_of_nil in Hr].
      apply filter_elem in Hr as [Hr Hid]. apply bool_decide_eq_true in Hid. cbn in Hid.
      apply row_holds in Hr. split; [done|]. apply files_elem in Ha as (e' & He' & Ha); [|done].
      assert (e' = e) as -> by (apply (holds_same_id s); [done..|]; apply files_of_id in Ha; by cbn in Ha; congruence).
      by exists id, size.
    + intros (He & id & size & Ha). destruct (holds_row _ _ Hw He) as [now Hr]. exists now.
      apply flat_map_elem. exists (hash, id, size). split; [apply files_elem; [done|by exists e]|].
      unfold rows_of. cbn. rewrite bool_decide_true by done. apply filter_elem. split; [done|].
      apply bool_decide_eq_true. apply files_of_id in Ha. by cbn in *.
Qed.

(** ** Who is served *)

(** The file is [p]'s to have: granted to them, or attached to a message held
    that they may read now. *)
Definition may_have (n : Inner) (at_ : Timestamp) (p : PublicKey) (h : Hash) : Prop :=
  (hash_to_hex h, p) ∈ t_blob_grants (n_store n) \/
  exists e, holds (n_store n) e /\ has_file e (hash_to_hex h) /\ Groups_may_read (n_groups n) p e at_ = true.
Lemma granted_elem s hash p : p ∈ granted s hash <-> (hash, p) ∈ t_blob_grants s.
Proof.
  unfold granted. rewrite list_elem_of_fmap. split.
  - intros ([h q] & -> & [Hg Hh]%filter_elem). apply bool_decide_eq_true in Hh. cbn in *. by subst h.
  - intros Hg. exists (hash, p). split; [done|]. apply filter_elem. split; [done|]. by apply bool_decide_eq_true.
Qed.
Lemma permitted_spec n at_ persons h : store_wf (n_store n) ->
  permitted n at_ persons h = Ok tt <-> exists p, p ∈ persons /\ may_have n at_ p h.
Proof.
  intros Hw. unfold permitted, may_have. destruct (carrying_spec (n_store n) (hash_to_hex h) Hw) as (es & -> & Hes).
  set (a := existsb _ persons). set (b := existsb _ es).
  assert (Ha : a = true <-> exists p, p ∈ persons /\ (hash_to_hex h, p) ∈ t_blob_grants (n_store n)).
  { unfold a. rewrite existsb_elem. setoid_rewrite bool_decide_eq_true. by setoid_rewrite granted_elem. }
  assert (Hb : b = true <-> exists p, p ∈ persons /\ exists e, holds (n_store n) e /\ has_file e (hash_to_hex h) /\
    Groups_may_read (n_groups n) p e at_ = true).
  { unfold b. rewrite existsb_elem. setoid_rewrite existsb_elem. setoid_rewrite Hes. naive_solver. }
  transitivity (a = true \/ b = true); [destruct a, b; naive_solver|]. rewrite Ha, Hb. naive_solver.
Qed.
Lemma permitted_all_spec n at_ persons hs : permitted_all n at_ persons hs = Ok tt <->
  Forall (fun h => permitted n at_ persons h = Ok tt) hs.
Proof.
  induction hs as [|h hs IH]; cbn [permitted_all]; [by split; [constructor|]|].
  rewrite Forall_cons, <- IH. destruct (permitted n at_ persons h) as [[]|]; naive_solver.
Qed.

(** What a message asks to read. *)
Definition reads_of (m : ProviderMessage) : option (list Hash) :=
  match m with
  | GetRequest h | ObserveRequest h => Some [h]
  | GetManyRequest hs => Some hs
  | PushRequest | OtherMessage => None
  end.
(** The answer to one question, in the state the node was in when it came. *)
Definition answered_right (persons : list PublicKey) (ask : Inner * Timestamp * ProviderMessage)
    (r : option (result AbortReason unit)) : Prop :=
  match reads_of ask.2 with
  | Some hs => r = Some (Ok tt) <-> Forall (fun h => exists p, p ∈ persons /\ may_have ask.1.1 ask.1.2 p h) hs
  | None => r <> Some (Ok tt)
  end.

(** C7. A device is served files only as the persons its bindings name, and
    not at all if they name nobody: whatever it asks - one file, many, or only
    whether one is there - is granted exactly when every file asked for was
    granted to one of those persons, or is attached to a message held that one
    of them may read at that moment.  Nothing else is: many files are all or
    none, and nothing is ever taken in. *)
Theorem files_served n opened device asks :
  Forall (fun ask => store_wf (n_store ask.1.1)) asks ->
  match serve_blobs n opened device asks with
  | None => persons_of (n_book n) device opened = []
  | Some answers => Forall2 (answered_right (persons_of (n_book n) device opened)) asks answers
  end.
Proof.
  intros Hw. unfold serve_blobs. destruct (persons_of _ _ _) as [|p0 l]; [done|].
  generalize (p0 :: l). intros persons. induction Hw as [|[[m at_] ask] asks Hwf _ IH]; [constructor|].
  cbn [map]. constructor; [|exact IH]. cbn in *. unfold answered_right.
  destruct ask as [h|hs|h| |]; cbn [reads_of answer_ask fst snd]; try done.
  - rewrite Forall_singleton, <- permitted_spec by done. by split; [intros [= ->]|intros ->].
  - assert (Hp : forall h, permitted m at_ persons h = Ok tt <-> exists p, p ∈ persons /\ may_have m at_ p h)
      by (intros h; by apply permitted_spec).
    setoid_rewrite <- Hp. rewrite <- permitted_all_spec. by split; [intros [= ->]|intros ->].
  - rewrite Forall_singleton, <- permitted_spec by done. by split; [intros [= ->]|intros ->].
Qed.

(** ** The cache *)
Fixpoint sizes (l : list Blob) : Z := match l with [] => 0 | b :: t => blob_size b + sizes t end.
Definition is_ours (b : Blob) : bool := negb (bl_mine b =? 0).
(** What is ours comes first, and is marked 1. *)
Definition ours_first (l : list Blob) : Prop :=
  StronglySorted (fun a b => is_ours b = true -> is_ours a = true) l.
Fixpoint kept (cap used : Z) (rows : list Blob) : list Blob :=
  match rows with
  | [] => []
  | r :: t =>
      if is_ours r || (sat_add used (blob_size r) <=? cap)
      then r :: kept cap (sat_add used (blob_size r)) t else kept cap used t
  end.
Lemma keep_blobs_kept cap used rows : keep_blobs cap used rows = map bl_hash (kept cap used rows).
Proof.
  revert used. induction rows as [|r t IH]; intros used; cbn; [done|]. unfold is_ours.
  destruct (_ || _); cbn; by rewrite IH.
Qed.
Lemma blob_size_nonneg b : 0 <= blob_size b.
Proof. unfold blob_size. destruct (0 <=? bl_size b) eqn:E; [by apply Z.leb_le in E|done]. Qed.
Lemma sizes_nonneg l : 0 <= sizes l.
Proof. induction l as [|b l IH]; cbn; [done|]. pose proof (blob_size_nonneg b). lia. Qed.
Lemma none_ours l : Forall (fun b => is_ours b = false) l -> List.filter is_ours l = [].
Proof. induction 1 as [|b l Hb _ IH]; cbn; [done|]. by rewrite Hb. Qed.
(** The sum in hand saturates; the bound is on the sum itself. *)
Lemma kept_sizes cap used rows : 0 <= used -> cap < U64_MAX -> ours_first rows ->
  used + sizes (kept cap (Z.min used U64_MAX) rows) <= Z.max cap (used + sizes (List.filter is_ours rows)).
Proof.
  intros Hu Hcap Hs. revert used Hu. induction Hs as [|r t Hs IH Hr]; intros used Hu; [cbn; lia|].
  pose proof (blob_size_nonneg r). assert (Hsat : sat_add (Z.min used U64_MAX) (blob_size r) =
    Z.min (used + blob_size r) U64_MAX) by (unfold sat_add; lia).
  cbn [kept List.filter]. rewrite Hsat. destruct (is_ours r) eqn:Er; cbn [orb sizes].
  - specialize (IH (used + blob_size r) ltac:(lia)). lia.
  - assert (Ht : List.filter is_ours t = []).
    { apply none_ours. eapply Forall_impl; [exact Hr|]. cbn. intros b Hb. by destruct (is_ours b); [discriminate Hb|]. }
    rewrite Ht in IH |- *. cbn in IH. destruct (_ <=? cap) eqn:Ec.
    + apply Z.leb_le in Ec. cbn [sizes].
      specialize (IH (used + blob_size r) ltac:(lia)). cbn. lia.
    + specialize (IH used Hu). cbn. lia.
Qed.
Lemma kept_elem cap used rows b : b ∈ kept cap used rows -> b ∈ rows.
Proof.
  revert used. induction rows as [|r t IH]; intros used; cbn [kept]; [done|]. destruct (_ || _).
  - intros [->|H]%elem_of_cons; [left|right; by eapply IH].
  - intros H. right. by eapply IH.
Qed.
Lemma kept_ours cap used rows b : b ∈ rows -> is_ours b = true -> b ∈ kept cap used rows.
Proof.
  intros Hb Ho. revert used. induction rows as [|r t IH]; intros used; [by apply not_elem_of_nil in Hb|].
  cbn [kept]. apply elem_of_cons in Hb as [<-|Hb].
  - rewrite Ho. left.
  - destruct (_ || _); [right|]; by apply IH.
Qed.

(** The uses are marked 0 or 1, and what must be read back to be kept reads. *)
Definition files_ok (uses : gmap string (Z * Z)) (grants : list (string * PublicKey)) : Prop :=
  (forall hash used mine, uses !! hash = Some (used, mine) ->
     mine = 0 \/ mine = 1 /\ is_Some (hash_from_str hash)) /\
  (forall hash p, (hash, p) ∈ grants -> is_Some (hash_from_str hash)).
Definition files_right (s : EventStore.Store) : Prop := files_ok (t_blob_use s) (t_blob_grants s).

Definition ours (s : EventStore.Store) (hash : string) : Prop := exists used, t_blob_use s !! hash = Some (used, 1).
Lemma ours_blob s hash : files_right s -> is_ours (blob_of s hash) = true <-> ours s hash.
Proof.
  intros [Hu _]. unfold is_ours, blob_of, ours. cbn [bl_mine].
  destruct (t_blob_use s !! hash) as [[used mine]|] eqn:E; cycle 1.
  { cbn. split; [done|]. by intros (u & [=]). }
  destruct (Hu _ _ _ E) as [->|[-> _]]; cbn; [|naive_solver]. split; [done|]. by intros (u & [=]).
Qed.
Lemma blob_leb_total a b : blob_leb a b = true \/ blob_leb b a = true.
Proof. unfold blob_leb. rewrite !orb_true_iff, !andb_true_iff, !Z.ltb_lt, !Z.eqb_eq, !Z.leb_le. lia. Qed.
Lemma blob_leb_trans a b c : blob_leb a b = true -> blob_leb b c = true -> blob_leb a c = true.
Proof. unfold blob_leb. rewrite !orb_true_iff, !andb_true_iff, !Z.ltb_lt, !Z.eqb_eq, !Z.leb_le. lia. Qed.
Lemma blob_rows_elem s b : b ∈ blob_rows s <-> exists hash id size, (hash, id, size) ∈ t_attachments s /\ b = blob_of s hash.
Proof.
  unfold blob_rows. rewrite isort_elem, list_elem_of_fmap. setoid_rewrite elem_of_remove_dups.
  setoid_rewrite list_elem_of_fmap. split.
  - intros (hash & -> & [[h id] size] & -> & Ha). by exists h, id, size.
  - intros (hash & id & size & Ha & ->). exists hash. split; [done|]. by exists (hash, id, size).
Qed.
Lemma blob_rows_ours s : files_right s -> ours_first (blob_rows s).
Proof.
  intros Hf. pose proof (isort_sorted blob_leb blob_leb_total blob_leb_trans
    (map (blob_of s) (remove_dups (map (fun a => a.1.1) (t_attachments s))))) as Hs.
  fold (blob_rows s) in Hs. assert (Hin : forall b, b ∈ blob_rows s -> bl_mine b = 0 \/ bl_mine b = 1).
  { intros b (hash & id & size & _ & ->)%blob_rows_elem. unfold blob_of. cbn [bl_mine].
    destruct (t_blob_use s !! hash) as [[used mine]|] eqn:E; [|by left].
    apply Hf in E as [->|[-> _]]; auto. }
  induction Hs as [|b l Hs IH Hall]; [constructor|]. constructor; [apply IH; intros c Hc; apply Hin; by right|].
  apply Forall_forall. intros c Hc. rewrite Forall_forall in Hall. specialize (Hall c Hc). cbv beta in Hall.
  apply Is_true_true in Hall. unfold blob_leb in Hall. unfold is_ours.
  assert (bl_mine b = 0 \/ bl_mine b = 1) as Hb by (apply Hin; left).
  assert (bl_mine c = 0 \/ bl_mine c = 1) as Hc' by (apply Hin; by right).
  rewrite orb_true_iff, andb_true_iff, Z.ltb_lt, Z.eqb_eq in Hall.
  rewrite !negb_true_iff, !Z.eqb_neq. lia.
Qed.

(** ** What handlers do to the blob tables *)

(** [I], true of the tables of uses and grants, stays true; a file granted has
    a hash that reads. *)
Section Tables.
Context (I : gmap string (Z * Z) -> list (string * PublicKey) -> Prop).
Definition tabled (s : EventStore.Store) : Prop := I (t_blob_use s) (t_blob_grants s).
Context (Igrant : forall u g hash p, hex64 hash = true -> I u g -> I u (g ++ [(hash, p)])).
Definition stays {A} (m : M A) : Prop := forall n, tabled (n_store n) -> tabled (n_store (m n).1).

Lemma stays_ret {A} (a : A) : stays (ret a).
Proof. by intros n H. Qed.
Lemma stays_fail {A} e : stays (A := A) (fail e).
Proof. by intros n H. Qed.
Lemma stays_get : stays get.
Proof. by intros n H. Qed.
Lemma stays_lift {A} (r : result StoreError A) : stays (lift r).
Proof. by destruct r; intros n H. Qed.
Lemma stays_modify f : (forall n, n_store (f n) = n_store n) -> stays (modify f).
Proof. intros Hf n H. cbn. by rewrite Hf. Qed.
Lemma stays_bind {A B} (m : M A) (k : A -> M B) : stays m -> (forall a, stays (k a)) -> stays (bind m k).
Proof.
  intros Hm Hk n H. unfold bind. specialize (Hm n H). destruct (m n) as [n1 [a|e]]; [|done]. by apply Hk.
Qed.
Lemma stays_on_store {A} (f : EventStore.Store -> EventStore.Store * A) :
  (forall s, tabled s -> tabled (f s).1) -> stays (on_store f).
Proof. intros Hf n H. unfold on_store. specialize (Hf _ H). by destruct (f (n_store n)). Qed.
Lemma stays_attempt m : stays m -> stays (attempt m).
Proof. intros Hm n H. by apply Hm. Qed.

(** *** The statements of the store *)
Definition same_tables (s s' : EventStore.Store) : Prop :=
  t_blob_use s' = t_blob_use s /\ t_blob_grants s' = t_blob_grants s.
Lemma same_tabled s s' : same_tables s s' -> tabled s -> tabled s'.
Proof. unfold tabled. by intros [-> ->]. Qed.
Lemma remove_tables s ids : same_tables s (foldl (fun s id => delete_id id s) s ids).
Proof.
  revert s. induction ids as [|id ids IH]; intros s; [done|]. cbn.
  destruct (IH (delete_id id s)) as [H1 H2]. by split; rewrite ?H1, ?H2.
Qed.
Lemma apply_deletion_tables s d kinds : same_tables s (apply_deletion s d kinds).1.
Proof.
  unfold apply_deletion. generalize ([] : list EventId). revert s.
  induction (targets_of d) as [|t l IH]; intros s gone; [done|]. cbn [foldl].
  assert (Hw : same_tables s (withdraw kinds (ev_pubkey d) (s, gone) t).1).
  { unfold withdraw. destruct (List.find _ _); [|done]. by destruct (_ && _). }
  destruct (withdraw _ _ _ _) as [s1 gone1]. destruct Hw as [H1 H2], (IH s1 gone1) as [H3 H4].
  cbn in *. by split; [rewrite H3, H1|rewrite H4, H2].
Qed.
Lemma insert_tables s e now s' r : insert s e now = Ok (s', r) -> same_tables s s'.
Proof.
  assert (Hroom : forall r s1, make_room s e r = Ok (inl s1) -> same_tables s s1).
  { intros r0 s1. unfold make_room. destruct (List.find _ _) as [row|]; [|by intros [= ->]].
    destruct (parse (w_json row)) as [c|]; [|done]. case_bool_decide; [done|].
    destruct (negb _); [done|]. by intros [= <-]. }
  unfold insert. intros H. destruct (slot e); [| | |by injection H as <- _];
    (destruct (make_room s e (row_of e now)) as [[s1|a]|] eqn:Er; [|by injection H as <- _|done];
     apply Hroom in Er; destruct (conflicts _ _); by injection H as <- _).
Qed.
Lemma grant_tabled s hash p : hex64 hash = true -> tabled s -> tabled (grant_blob s hash p).
Proof. intros Hh H. unfold grant_blob. case_bool_decide; [done|]. by apply Igrant. Qed.

(** *** [accept_event] *)
Lemma open_dm_file_valid k e d f : open_dm k e = Some d -> dm_file d = Some f -> hex64 (f_hash f) = true.
Proof.
  unfold open_dm. intros H Hf. destruct (_ || _); [done|]. destruct (gift_unwrap k e) as [[sender r]|]; [|done].
  cbn in H. destruct (head _) as [to|]; [|done]. cbn in H.
  destruct (_ =? DM); [injection H as <-; done|]. destruct (_ =? DM_FILE); [|done].
  destruct (parse_file r) as [f'|] eqn:Hr; [|done]. injection H as <-. injection Hf as ->.
  unfold parse_file in Hr. cbv zeta in Hr. destruct (rumor_tag _ _); [|done]. cbn in Hr. destruct (negb _); [done|].
  repeat match type of Hr with context [match ?x with Some _ => _ | None => None end] =>
    destruct x; [cbn in Hr|done] end.
  destruct (Attachment_is_valid _) eqn:Ev; [|done]. injection Hr as <-. unfold Attachment_is_valid in Ev.
  bools. done.
Qed.

Ltac stays := repeat first
  [ assumption | progress cbv beta
  | match goal with
    | |- stays (ret _) => apply stays_ret
    | |- stays (fail _) => apply stays_fail
    | |- stays get => apply stays_get
    | |- stays (lift _) => apply stays_lift
    | |- stays (modify _) => apply stays_modify; intros ?; cbn; reflexivity
    | |- stays (emit _) => unfold emit
    | |- stays (bind _ _) => apply stays_bind; [|intros ?]
    | |- stays (match ?x with _ => _ end) => destruct x
    | |- stays (if ?b then _ else _) => destruct b
    end ].

Lemma stays_emit_all l : stays (emit_all l).
Proof. induction l as [|f l IH]; cbn [emit_all]; stays. Qed.
Lemma stays_group_changed env g : stays (group_changed env g).
Proof.
  unfold group_changed, gossip_start, gossip_stop, gossip_revoke. cbv zeta. stays; apply stays_emit_all.
Qed.
Lemma stays_remove ids : stays (on_store (fun s => (remove s ids, tt))).
Proof. apply stays_on_store. intros s. apply same_tabled, remove_tables. Qed.
Lemma stays_tell ids : stays (tell_removed ids).
Proof. destruct ids; cbn [tell_removed]; stays. Qed.
Lemma stays_refold env g : stays (refold env g).
Proof.
  unfold refold, purge_silenced. stays; try apply stays_group_changed; try apply stays_remove. apply stays_tell.
Qed.
Lemma stays_learn env b p : stays (learn_binding env b p).
Proof.
  intros n H. unfold learn_binding. destruct (_ || _); [exact H|]. destruct (negb _); [exact H|].
  unfold bind, get, lift, modify. destruct (insert_binding _ _ _) as [[book x]|]; [|exact H].
  destruct (insert (n_store n) b (now env)) as [[s r]|] eqn:Ei; [|exact H]. cbn.
  by eapply same_tabled; [eapply insert_tables|].
Qed.
Lemma stays_kept_for e : stays (kept_for e).
Proof.
  unfold kept_for. stays. apply stays_on_store. intros s. apply same_tabled, remove_tables.
Qed.
Lemma stays_grant hash p : hex64 hash = true -> stays (grant hash p).
Proof. intros Hh. apply stays_on_store. intros s. by apply grant_tabled. Qed.
Lemma stays_opened env e : stays (opened_dm env e).
Proof.
  unfold opened_dm. apply stays_bind; [apply stays_get|]. intros m.
  destruct (open_dm (n_person m) e) as [d|] eqn:Ed; [|apply stays_ret].
  apply stays_bind.
  - destruct (dm_file d) as [f|] eqn:Ef; [|apply stays_ret].
    pose proof (open_dm_file_valid _ _ _ _ Ed Ef) as Hv. stays; by apply stays_grant.
  - intros _. stays. apply stays_attempt, stays_learn.
Qed.
Lemma stays_consequences env e r : stays (consequences env e r).
Proof.
  unfold consequences, apply_withdrawal, apply_removal, heard_voice, heard_presence. cbv zeta. stays;
    try apply stays_tell; try apply stays_opened; try apply stays_kept_for; try apply stays_refold.
  - apply stays_on_store. intros s. apply same_tabled, apply_deletion_tables.
  - apply stays_remove.
Qed.
Lemma stays_answer src e r : stays (answer src e r).
Proof. unfold answer, pass_on. stays. Qed.
(** What follows the opening of a direct message. *)
Lemma stays_after_open env e kind : stays (bind (kept_for e) (fun _ =>
  bind (ret tt) (fun _ => bind (ret tt) (fun _ => bind (ret tt) (fun _ =>
    match group_of e with Some g => if changes_state kind then refold env g else ret tt | None => ret tt end))))).
Proof. stays; [apply stays_kept_for|]. by apply stays_refold. Qed.
Lemma stays_keep env src e : stays (keep env src e).
Proof.
  intros n H. unfold keep, bind, get, lift, modify.
  destruct (insert (n_store n) e (now env)) as [[s r]|] eqn:Ei; [|exact H]. cbn.
  pose proof (stays_consequences env e r (with_store s n)) as Hc.
  destruct (consequences env e r (with_store s n)) as [n1 [[]|]]; cbn in *.
  - apply stays_answer, Hc. by eapply same_tabled; [eapply insert_tables|].
  - apply Hc. by eapply same_tabled; [eapply insert_tables|].
Qed.
Lemma stays_accept env src e : stays (accept_event env src e).
Proof.
  unfold accept_event, vet, judged, booked, not_withdrawn, not_too_soon, too_soon, removed_by_moderator.
  stays; apply stays_keep.
Qed.
Lemma stays_accept_all l : stays (accept_all l).
Proof.
  induction l as [|[[env src] e] l IH]; cbn [accept_all]; stays. apply stays_accept.
Qed.
Lemma tabled_bind {A B} (m : M A) (k : A -> M B) n :
  tabled (n_store (m n).1) -> (forall a, stays (k a)) -> tabled (n_store (bind m k n).1).
Proof. intros H Hk. unfold bind. destruct (m n) as [n1 [a|e]]; [by apply Hk|done]. Qed.
End Tables.

(** ** The collector *)
Lemma blob_of_kept s cap : map (blob_of s) (blobs_to_keep s cap) = kept cap 0 (blob_rows s).
Proof.
  unfold blobs_to_keep. rewrite keep_blobs_kept, map_map. rewrite <- (map_id (kept _ _ _)) at 2.
  apply map_ext_in. intros b Hb. apply list_elem_of_In, kept_elem, blob_rows_elem in Hb as (hash & id & size & _ & ->). done.
Qed.

(** The cache holds what is ours and then as much of the rest as fits: of
    the files messages carry, what is spared for being carried is every file
    of ours, and together with them no more than the cache's size - or than
    ours alone, when they are more. *)
Theorem cache_bounded s cap : store_wf s -> files_right s -> cap < U64_MAX ->
  sizes (map (blob_of s) (blobs_to_keep s cap)) <= Z.max cap (sizes (List.filter is_ours (blob_rows s))) /\
  (forall hash, hash ∈ blobs_to_keep s cap -> exists e, holds s e /\ has_file e hash) /\
  (forall e hash, holds s e -> has_file e hash -> ours s hash -> hash ∈ blobs_to_keep s cap).
Proof.
  intros Hw Hf Hcap. split; [|split].
  - rewrite blob_of_kept. pose proof (kept_sizes cap 0 (blob_rows s) ltac:(done) Hcap (blob_rows_ours s Hf)) as H.
    change (Z.min 0 U64_MAX) with 0 in H. lia.
  - intros hash. unfold blobs_to_keep. rewrite keep_blobs_kept. intros (b & -> & Hb%kept_elem)%list_elem_of_fmap.
    apply blob_rows_elem in Hb as (hash & id & size & Ha & ->). apply files_elem in Ha as (e & He & Ha); [|done].
    exists e. split; [done|]. by exists id, size.
  - intros e hash He (id & size & Ha) Ho. unfold blobs_to_keep. rewrite keep_blobs_kept. apply list_elem_of_fmap.
    exists (blob_of s hash). split; [done|]. apply kept_ours; [|by apply ours_blob].
    apply blob_rows_elem. exists hash, id, size. split; [|done]. apply files_elem; [done|by exists e].
Qed.

Lemma live_hashes_spec live hashes : (forall hash, hash ∈ hashes -> is_Some (hash_from_str hash)) ->
  exists live', live_hashes live hashes = Some live' /\
    forall h, h ∈ live' <-> h ∈ live \/ exists hash, hash ∈ hashes /\ hash_from_str hash = Some h.
Proof.
  revert live. induction hashes as [|hash l IH]; intros live Hr; cbn [live_hashes].
  { exists live. split; [done|]. intros h. split; [auto|]. by intros [?|(x & Hx%not_elem_of_nil & _)]. }
  destruct (Hr hash ltac:(left)) as [h0 E]. rewrite E. destruct (IH ({[h0]} ∪ live)) as (live' & -> & H).
  { intros x Hx. apply Hr. by right. }
  exists live'. split; [done|]. intros h. rewrite H, elem_of_union, elem_of_singleton. setoid_rewrite elem_of_cons. split.
  - intros [[->|?]|(x & ? & ?)]; [right; exists hash|by left|right; exists x]; auto.
  - intros [?|(x & [->|?] & Hx)]; [auto| |right; eauto]. left. left. congruence.
Qed.
(** Why a file not yet in a message, or in no message held, is spared. *)
Definition attached_lately (s : EventStore.Store) (at_ : Timestamp) (hash : string) : Prop :=
  exists used, t_blob_use s !! hash = Some (used, 1) /\ as_i64 (sat_sub at_ PENDING_KEEP) <= used.
Definition granted_to_any (s : EventStore.Store) (hash : string) : Prop := exists q, (hash, q) ∈ t_blob_grants s.
Lemma kept_hashes_spec s p at_ hash : hash ∈ kept_hashes s p at_ <->
  (if pin_all p then exists id size, (hash, id, size) ∈ t_attachments s else hash ∈ blobs_to_keep s (cache_bytes p))
  \/ attached_lately s at_ hash \/ granted_to_any s hash.
Proof.
  unfold kept_hashes. rewrite !elem_of_app. f_equiv; [|f_equiv].
  - destruct (pin_all p); [|done]. rewrite list_elem_of_fmap. unfold attached. setoid_rewrite elem_of_remove_dups.
    setoid_rewrite list_elem_of_fmap. split.
    + intros (x & -> & [[h id] size] & -> & Ha). by exists id, size.
    + intros (id & size & Ha). exists (hash, to_u64 size). split; [done|]. by exists (hash, id, size).
  - unfold mine_since, attached_lately. rewrite list_elem_of_fmap. setoid_rewrite filter_elem.
    setoid_rewrite elem_of_map_to_list'. split.
    + intros ([h [u m]] & -> & Hu & Hm). cbn in *. apply andb_true_iff in Hm as [Hm Ht].
      apply Z.eqb_eq in Hm as ->. apply Z.leb_le in Ht. eauto.
    + intros (u & Hu & Ht). exists (hash, (u, 1)). cbn. split; [done|]. split; [done|]. by apply Z.leb_le.
  - unfold granted_hashes, granted_to_any. rewrite elem_of_remove_dups, list_elem_of_fmap. split.
    + intros ([h q] & -> & Hg). by exists q.
    + intros (q & Hg). by exists (hash, q).
Qed.
Lemma kept_reads s p at_ hash : store_wf s -> files_right s -> hash ∈ kept_hashes s p at_ -> is_Some (hash_from_str hash).
Proof.
  intros Hw [Hu Hg] [Hc|[(used & Hm & _)|(q & Hq)]]%kept_hashes_spec; [|by edestruct Hu as [|[_ ?]]|by eapply Hg].
  assert (Ha : exists id size, (hash, id, size) ∈ t_attachments s).
  { destruct (pin_all p); [done|]. unfold blobs_to_keep in Hc. rewrite keep_blobs_kept in Hc.
    apply list_elem_of_fmap in Hc as (b & -> & Hb%kept_elem).
    apply blob_rows_elem in Hb as (hash & id & size & Ha & ->). by exists id, size. }
  destruct Ha as (id & size & Ha). apply files_elem in Ha as (e & _ & Ha); [|done].
  destruct (hash_reads hash) as (h & -> & _); [|by eexists]. apply (has_file_valid e). by exists id, size.
Qed.

Lemma files_ok_grant u g hash (p : PublicKey) : hex64 hash = true -> files_ok u g -> files_ok u (g ++ [(hash, p)]).
Proof.
  intros Hh [Hu Hg]. split; [done|]. intros x q [H|H%list_elem_of_singleton]%elem_of_app; [by eapply Hg|].
  injection H as -> ->. destruct (hash_reads hash Hh) as (h & -> & _). by eexists.
Qed.

(** The collector always runs, whatever the node was sent: its live set can
    be read, and it spares every file that a held message carries and that is
    ours - with pinning, every file a held message carries - every file of a
    direct message, and every file attached in the last hour; and no other. *)
Theorem sweep_spares l n n' vs p at_ live : timed l -> node_ok n -> files_right (n_store n) ->
  accept_all l n = (n', Ok vs) ->
  exists live', protect (n_store n') p at_ live = Some live' /\
    (forall h, h ∈ live -> h ∈ live') /\
    (forall hash h, hash_from_str hash = Some h ->
       (exists e, holds (n_store n') e /\ has_file e hash /\ (pin_all p = true \/ ours (n_store n') hash)) \/
       attached_lately (n_store n') at_ hash \/ granted_to_any (n_store n') hash -> h ∈ live') /\
    (forall h, h ∈ live' -> h ∈ live \/ exists hash, hash_from_str hash = Some h /\
       ((exists e, holds (n_store n') e /\ has_file e hash) \/
        attached_lately (n_store n') at_ hash \/ granted_to_any (n_store n') hash)).
Proof.
  intros Hl K Hf Ha. destruct (accept_all_total (fun _ => True) l n Hl K I) as (n1 & vs1 & Hr & K1 & _); [done|].
  rewrite Hr in Ha. injection Ha as -> ->.
  assert (Hf' : files_right (n_store n')).
  { pose proof (stays_accept_all files_ok files_ok_grant l n Hf) as H. by rewrite Hr in H. }
  pose proof (k_wf _ _ _ _ K1) as Hw. unfold protect.
  destruct (live_hashes_spec live (kept_hashes (n_store n') p at_)) as (live' & -> & H).
  { intros hash. by apply kept_reads. }
  exists live'. split; [done|]. split; [intros h; rewrite H; auto|]. split.
  - intros hash h Hh Hk. apply H. right. exists hash. split; [|done]. apply kept_hashes_spec.
    destruct Hk as [(e & He & Hx & Hp)|Hk]; [left|by right]. destruct (pin_all p) eqn:Ep.
    + destruct Hx as (id & size & Hx). exists id, size. apply files_elem; [done|by exists e].
    + destruct Hp as [?|Hp]; [done|]. unfold blobs_to_keep. rewrite keep_blobs_kept. apply list_elem_of_fmap.
      exists (blob_of (n_store n') hash). split; [done|]. apply kept_ours; [|by apply ours_blob].
      destruct Hx as (id & size & Hx). apply blob_rows_elem. exists hash, id, size. split; [|done].
      apply files_elem; [done|by exists e].
  - intros h [?|(hash & Hk & Hh)]%H; [by left|]. right. exists hash. split; [done|].
    apply kept_hashes_spec in Hk as [Hk|Hk]; [left|by right].
    assert (Hc : exists id size, (hash, id, size) ∈ t_attachments (n_store n')).
    { destruct (pin_all p); [done|]. unfold blobs_to_keep in Hk. rewrite keep_blobs_kept in Hk.
      apply list_elem_of_fmap in Hk as (b & -> & Hb%kept_elem).
      apply blob_rows_elem in Hb as (x & id & size & Hx & ->). by exists id, size. }
    destruct Hc as (id & size & Hc). apply files_elem in Hc as (e & He & Hx); [|done].
    exists e. split; [done|]. by exists id, size.
Qed.

(** ** What a direct message grants *)
Lemma opened_grants env e n d f p : open_dm (n_person n) e = Some d -> dm_file d = Some f ->
  p = dm_from d \/ p = dm_to d ->
  (f_hash f, p) ∈ t_blob_grants (n_store (opened_dm env e n).1).
Proof.
  intros Hd Hf Hp. set (I := fun (_ : gmap string (Z * Z)) (g : list (string * PublicKey)) => (f_hash f, p) ∈ g).
  assert (Hi : forall u g hash (q : PublicKey), hex64 hash = true -> I u g -> I u (g ++ [(hash, q)])).
  { intros u g hash q _ H. apply elem_of_app. by left. }
  change (tabled I (n_store (opened_dm env e n).1)). unfold opened_dm, bind at 1, get. cbv beta iota. rewrite Hd, Hf.
  apply tabled_bind; cycle 1.
  { intros []. destruct (dm_device d); [|apply stays_ret]. destruct (negb _); [|apply stays_ret].
    by apply stays_attempt, stays_learn. }
  unfold tabled, I. assert (Hin : forall s q, (f_hash f, q) ∈ t_blob_grants (grant_blob s (f_hash f) q)).
  { intros s q. unfold grant_blob. case_bool_decide; [done|]. apply elem_of_app. right. by apply list_elem_of_singleton. }
  assert (Hmore : forall s q x, x ∈ t_blob_grants s -> x ∈ t_blob_grants (grant_blob s (f_hash f) q)).
  { intros s q x Hx. unfold grant_blob. case_bool_decide; [done|]. apply elem_of_app. by left. }
  cbn. destruct Hp as [-> | ->]; [apply Hmore|]; apply Hin.
Qed.
Lemma accept_grants n env src e n' d f p : open_dm (n_person n) e = Some d -> dm_file d = Some f ->
  p = dm_from d \/ p = dm_to d -> node_ok n -> clock_ok env ->
  accept_event env src e n = (n', Ok (true, ""%string)) -> (f_hash f, p) ∈ t_blob_grants (n_store n').
Proof.
  intros Hd Hf Hp K Hc Ha. set (I := fun (_ : gmap string (Z * Z)) (g : list (string * PublicKey)) => (f_hash f, p) ∈ g).
  assert (Hi : forall u g hash (q : PublicKey), hex64 hash = true -> I u g -> I u (g ++ [(hash, q)])).
  { intros u g hash q _ H. apply elem_of_app. by left. }
  change (tabled I (n_store n')). replace n' with (accept_event env src e n).1 by by rewrite Ha.
  assert (Hk : ev_kind e = GIFT_WRAP).
  { unfold open_dm in Hd. destruct (Z.eqb_spec (ev_kind e) GIFT_WRAP); [done|discriminate Hd]. }
  unfold accept_event, Verified_check in *. destruct (ev_verify e) eqn:Hv; [|discriminate Ha].
  destruct (vet_total n env src e K Hc Hv) as (n1 & r & Hr & (b & _ & ->) & _).
  unfold bind at 1 in Ha. unfold bind at 1. rewrite Hr in Ha |- *. destruct r as [why|]; [discriminate Ha|].
  unfold keep, bind at 1, get in Ha. unfold keep, bind at 1, get. cbv beta iota in Ha |- *.
  unfold bind at 1, lift in Ha. unfold bind at 1, lift.
  destruct (insert _ e (now env)) as [[s r]|] eqn:Ei; cbn in Ha |- *; [|discriminate Ha].
  destruct r; [| | |apply insert_passing in Ei; unfold slot in Ei; by rewrite Hk in Ei].
  2, 3: unfold bind in Ha; rewrite consequences_old in Ha by auto; discriminate Ha.
  set (n1 := with_store s (with_book b n)).
  change (tabled I (n_store (bind (consequences env e Stored.New) (fun _ => answer src e Stored.New) n1).1)).
  apply tabled_bind; [|intros a; apply stays_answer].
  unfold consequences. rewrite Hk, (bool_decide_true (Stored.New = Stored.New)), bool_decide_false by done.
  cbv zeta. cbn [andb Z.eqb].
  change (tabled I (n_store (bind (opened_dm env e) (fun _ => bind (kept_for e) (fun _ =>
    bind (ret tt) (fun _ => bind (ret tt) (fun _ => bind (ret tt) (fun _ => match group_of e with
    | Some g => if changes_state GIFT_WRAP then refold env g else ret tt | None => ret tt end))))) n1).1)).
  apply tabled_bind; [by apply (opened_grants env e n1 d f p)|]. intros _. apply stays_after_open.
Qed.

(** Whoever sends this node's person a direct message naming a file by its
    hash may have that file from the node from then on, and so may its person:
    nothing is asked of the file itself - not that it came with the message,
    nor that the sender could read it where it is. *)
Theorem dm_grants n env src e n' d f h at_ p : node_ok n -> clock_ok env ->
  accept_event env src e n = (n', Ok (true, ""%string)) ->
  open_dm (n_person n) e = Some d -> dm_file d = Some f -> hash_to_hex h = f_hash f ->
  p = dm_from d \/ p = dm_to d -> permitted n' at_ [p] h = Ok tt.
Proof.
  intros K Hc Ha Hd Hf Hh Hp. destruct (accept_total n env src e K Hc) as (n1 & v & Hr & Ho).
  rewrite Hr in Ha. injection Ha as -> ->. apply permitted_spec; [apply (k_wf _ _ _ _ (o_ok _ _ _ _ _ Ho))|].
  exists p. split; [by left|]. left. rewrite Hh. by eapply accept_grants.
Qed.

(** ** Fetching *)
Lemma push_devices mine l order : NoDup order -> mine ∉ order ->
  let out := foldl (push_device mine) order l in
  NoDup out /\ mine ∉ out /\ forall d, d ∈ out <-> d ∈ order \/ (d ∈ l /\ d <> mine).
Proof.
  cbv zeta. revert order. induction l as [|x l IH]; intros order Hn Hm; cbn [foldl].
  { split; [done|]. split; [done|]. intros d. split; [auto|]. by intros [?|[?%not_elem_of_nil _]]. }
  unfold push_device at 2 4 6. case_bool_decide as Hx; [|case_bool_decide as Hi]; cbn [negb andb].
  1, 2: destruct (IH order Hn Hm) as (H1 & H2 & H3); split; [done|]; split; [done|]; intros d; rewrite H3, elem_of_cons;
    naive_solver.
  destruct (IH (order ++ [x])) as (H1 & H2 & H3).
  - apply NoDup_app. split; [done|]. split; [|apply NoDup_singleton]. by intros y Hy ->%list_elem_of_singleton.
  - by intros [?|?%list_elem_of_singleton]%elem_of_app.
  - split; [done|]. split; [done|]. intros d. rewrite H3, elem_of_app, list_elem_of_singleton, elem_of_cons. naive_solver.
Qed.
Lemma anchors_total n g : node_ok n -> total (anchors g) n (fun n' l => n' = n /\ forall a, a ∈ l -> a ∈ members_of n g).
Proof.
  intros K. unfold anchors. do 2 total_step. destruct (members_of n g) as [|m ms] eqn:Em.
  { total_step. split; [done|]. intros a Ha. by apply not_elem_of_nil in Ha. }
  total_step. destruct (query_untimed (n_store n) (authors_filter PROFILE (list_to_set (m :: ms))) (k_wf _ _ _ _ K))
    as (es & Hq & _ & He); try done.
  { intros nv Hnv. by apply not_elem_of_nil in Hnv. }
  eapply total_lift; [exact Hq|]. total_step. split; [done|].
  intros a (e & -> & [He' _]%filter_elem)%list_elem_of_fmap. apply He in He' as [_ Hu]. unfold untimed, authors_filter in Hu.
  cbn [f_ids f_authors f_kinds f_tags is_none_or] in Hu. bools. by rewrite elem_of_list_to_set in *.
Qed.
(** A device of a member of the group [e] is in, or of its author. *)
Definition may_hold (env : Env) (n : Inner) (e : Event) (d : EndpointId) : Prop :=
  d ∈ devices_of (n_book n) (ev_pubkey e) (now env) \/
  exists g, group_of e = Some g /\ d ∈ member_devices n g (now env).
Lemma member_devices_elem n g at_ d : d ∈ member_devices n g at_ <->
  d <> my_id n /\ exists p, p ∈ members_of n g /\ d ∈ devices_of (n_book n) p at_.
Proof.
  unfold member_devices, members_of. rewrite filter_elem, flat_map_elem. case_bool_decide; naive_solver.
Qed.
Lemma group_providers_total n env es order : node_ok n -> NoDup order -> my_id n ∉ order ->
  total (group_providers env order es) n (fun n' out => n' = n /\ NoDup out /\ my_id n ∉ out /\
    forall d, d ∈ out <-> d ∈ order \/
      exists e g, e ∈ es /\ group_of e = Some g /\ d ∈ member_devices n g (now env)).
Proof.
  intros K. revert order. induction es as [|e es IH]; intros order Hn Hm; cbn [group_providers].
  { total_step. split; [done|]. split; [done|]. split; [done|]. intros d. split; [auto|].
    by intros [?|(e & g & He%not_elem_of_nil & _)]. }
  do 2 total_step. destruct (group_of e) as [g|] eqn:Eg; cycle 1.
  { eapply total_weaken; [by apply IH|]. intros n' out (-> & H1 & H2 & H3). do 3 (split; [done|]).
    intros d. rewrite H3. setoid_rewrite elem_of_cons. naive_solver. }
  total_step. eapply total_weaken; [by apply anchors_total|]. intros n' l (-> & Hl). cbv zeta.
  destruct (push_devices (my_id n) (flat_map (fun a => devices_of (n_book n) a (now env)) l) order Hn Hm)
    as (H1 & H2 & H3).
  destruct (push_devices (my_id n) (member_devices n g (now env)) _ H1 H2) as (H4 & H5 & H6).
  eapply total_weaken; [by apply IH|]. intros n' out (-> & H7 & H8 & H9). do 3 (split; [done|]).
  intros d. rewrite H9, H6, H3, flat_map_elem. setoid_rewrite elem_of_cons. split.
  - intros [[[?|[(a & Ha & Hd) Hne]]|[Hd _]]|(y & g' & Hy & Hg & Hd)]; [by left| | |]; right.
    + exists e, g. split; [by left|]. split; [done|]. apply member_devices_elem. split; [done|]. exists a. auto.
    + exists e, g. split; [by left|done].
    + exists y, g'. auto.
  - intros [?|(y & g' & [->|Hy] & Hg & Hd)]; [by left; left; left| |].
    + left. right. assert (g' = g) as -> by congruence. split; [done|]. by apply member_devices_elem in Hd as [? _].
    + right. exists y, g'. auto.
Qed.
Lemma providers_spec n env hash e0 : node_ok n -> holds (n_store n) e0 -> has_file e0 hash ->
  exists order, providers env hash n = (n, Ok order) /\ NoDup order /\
    forall d, d ∈ order <-> d <> my_id n /\ exists e, holds (n_store n) e /\ has_file e hash /\ may_hold env n e d.
Proof.
  intros K He0 Hf0. destruct (carrying_spec (n_store n) hash (k_wf _ _ _ _ K)) as (es & Hes & Hin).
  destruct (push_devices (my_id n) (flat_map (fun e => devices_of (n_book n) (ev_pubkey e) (now env)) es) [])
    as (H1 & H2 & H3); [constructor|by apply not_elem_of_nil|].
  destruct (group_providers_total n env es _ K H1 H2) as (n' & order & Hg & -> & H4 & H5 & H6).
  exists order. split.
  - unfold providers, bind, get, lift. rewrite Hes. unfold ret. destruct es as [|e es]; [|exact Hg].
    exfalso. by apply (not_elem_of_nil e0), Hin.
  - split; [done|]. intros d. rewrite H6, H3, flat_map_elem. unfold may_hold. setoid_rewrite Hin.
    assert (Hd : d ∈ order -> d <> my_id n) by by intros Hd ->.
    rewrite H6, H3, flat_map_elem in Hd. setoid_rewrite Hin in Hd. split.
    + intros H. split; [by apply Hd|]. destruct H as [[?%not_elem_of_nil|[(e & He & Hde) _]]|(e & g & He & Hg' & Hde)];
        [done|exists e; naive_solver|exists e; naive_solver].
    + intros (Hne & e & He & Hx & [Hde|(g & Hg' & Hde)]); [left; right|right]; naive_solver.
Qed.

(** The blob store can be asked; a connection that serves [h], whatever is here
    already. *)
Definition askable (h : Hash) : Prop := forall st, exists b, blob_whole st h = Ok b.
Definition serves (c : Provider) (h : Hash) : Prop := forall st,
  (execute_get c h st).2 = Some (Ok tt) /\ blob_whole (execute_get c h st).1 h = Ok true.
(** It comes back, with the file or not; it never does. *)
Definition comes_back (h : Hash) (c : option Provider) : Prop :=
  match c with Some c => forall st, is_Some (execute_get c h st).2 | None => True end.
Definition stalls (c : Provider) (h : Hash) : Prop := forall st, (execute_get c h st).2 = None.
Lemma whole_run h x n : askable h -> exists b, blob_whole (b_store x) h = Ok b /\ whole h (x, n) = ((x, n), Ok b).
Proof.
  intros Ha. destruct (Ha (b_store x)) as [b Hb]. exists b. split; [done|]. unfold whole, r_bind, session. by rewrite Hb.
Qed.
Lemma fetch_each_run h up x n : askable h -> exists x' r, fetch_each h up (x, n) = ((x', n), r) /\
  b_policy x' = b_policy x /\ (r = Some (Ok tt) -> blob_whole (b_store x') h = Ok true) /\
  (r = Some (Ok tt) \/ r = Some (Err NoProvider) \/ (r = None /\ ~ Forall (comes_back h) up)) /\
  (forall before c after, up = before ++ Some c :: after -> Forall (comes_back h) before -> serves c h -> r = Some (Ok tt)).
Proof.
  intros Ha. revert x. induction up as [|[c|] up IH]; intros x; cbn [fetch_each].
  - exists x, (Some (Err NoProvider)). do 3 (split; [done|]). split; [by auto|]. by intros [|] c after [=].
  - unfold f_bind at 1, get_from at 1. destruct (execute_get c h (b_store x)) as [st r] eqn:Eg.
    set (x1 := mkBlobs st (b_policy x)). destruct (IH x1) as (x' & r' & Hr & Hp & Hw & Hor & Hs).
    assert (Hmore : r' = None /\ ~ Forall (comes_back h) up -> r' = None /\ ~ Forall (comes_back h) (Some c :: up)).
    { intros [-> H]. split; [done|]. by intros [_ ?]%Forall_cons. }
    assert (Hnext : (forall b, blob_whole st h = Ok b -> r = Some (Ok tt) -> b = false) ->
      forall before c' after, Some c :: up = before ++ Some c' :: after -> Forall (comes_back h) before -> serves c' h -> r' = Some (Ok tt)).
    { intros Hno [|y before] c' after He Hb Hc; cbn in He; injection He as He1 He; subst.
      - exfalso. destruct (Hc (b_store x)) as [H1 H2]. rewrite Eg in H1, H2. cbn in H1, H2. by specialize (Hno true H2 H1).
      - apply Forall_cons in Hb as [_ Hb]. by apply (Hs before c' after). }
    destruct r as [[[]|why]|]; cbn [option_map].
    + destruct (whole_run h x1 n Ha) as (b & Hb & Hrun). unfold f_bind at 1, at_once. rewrite Hrun. destruct b.
      * exists x1, (Some (Ok tt)). do 3 (split; [done|]). split; [by left|done].
      * exists x', r'. split; [exact Hr|]. split; [exact Hp|]. split; [done|]. split; [tauto|]. apply Hnext. intros b' Hb' _. cbn in Hb. congruence.
    + exists x', r'. split; [exact Hr|]. split; [exact Hp|]. split; [done|]. split; [tauto|]. by apply Hnext.
    + exists x1, None. do 3 (split; [done|]). split; [right; right|].
      * split; [done|]. intros [H _]%Forall_cons. specialize (H (b_store x)). rewrite Eg in H. by destruct H.
      * intros [|y before] c' after He Hb Hc; cbn in He; injection He as He1 He; subst.
        -- destruct (Hc (b_store x)) as [H1 _]. by rewrite Eg in H1.
        -- apply Forall_cons in Hb as [H _]. specialize (H (b_store x)). rewrite Eg in H. by destruct H.
  - destruct (IH x) as (x' & r' & Hr & Hp & Hw & Hor & Hs). exists x', r'. do 3 (split; [done|]). split.
    + destruct Hor as [?|[?|[? H]]]; [by auto|by auto|]. right. right. split; [done|]. by intros [_ ?]%Forall_cons.
    + intros [|y before] c' after He Hb Hc; cbn in He; [done|]. injection He as He1 He. subst. apply Forall_cons in Hb as [_ Hb]. by eapply Hs.
Qed.
Lemma touch_run env hash mine x n : touch env hash mine (x, n) =
  ((x, with_store (touch_blob (n_store n) hash mine (now env)) n), Ok tt).
Proof. done. Qed.

(** C33. A file is found if a device that should have it is up and serves it, and
    every connection that came up before that one's comes back: if the author of a
    message held that carries it, or any member of its group, has such a device,
    then fetching succeeds - however many others are gone, refuse, or send half of
    it, and whatever those do that came up later.  Only such devices are dialled,
    each once, never this one; a fetch that succeeds leaves the file here whole;
    and it never comes back only if a connection does not. *)
Theorem fetch_finds env dials hash h x n : node_ok n -> askable h -> hash_from_str hash = Some h ->
  let '((x', n'), r) := fetch_file env dials hash (x, n) in
  (r = Some (Ok tt) -> blob_whole (b_store x') h = Ok true) /\
  ((exists e d c, holds (n_store n) e /\ has_file e hash /\ may_hold env n e d /\ d <> my_id n /\
     (forall from, d ∈ from -> exists before after, dials from = before ++ Some c :: after /\ Forall (comes_back h) before) /\
     serves c h) -> r = Some (Ok tt)) /\
  (forall order, providers env hash n = (n, Ok order) -> NoDup order /\
     (forall d, d ∈ order <-> d <> my_id n /\ exists e, holds (n_store n) e /\ has_file e hash /\ may_hold env n e d) /\
     (r = None -> ~ Forall (comes_back h) (dials order))).
Proof.
  intros K Ha Hh.
  destruct (carrying_spec (n_store n) hash (k_wf _ _ _ _ K)) as (es & Hes & Hin).
  assert (Hp : match es with
    | [] => providers env hash n = (n, Err (BlobFailed "no message here carries that file"))
    | _ :: _ => exists order, providers env hash n = (n, Ok order) /\ NoDup order /\ forall d, d ∈ order <->
        d <> my_id n /\ exists e, holds (n_store n) e /\ has_file e hash /\ may_hold env n e d
    end).
  { destruct es as [|e0 es]; [unfold providers, bind, get, lift; by rewrite Hes|].
    destruct (Hin e0) as [[H1 H2] _]; [left|]. by eapply providers_spec. }
  assert (Hasked : forall order, providers env hash n = (n, Ok order) -> NoDup order /\ forall d, d ∈ order <->
    d <> my_id n /\ exists e, holds (n_store n) e /\ has_file e hash /\ may_hold env n e d).
  { intros order Ho. destruct es as [|e0 es]; [by rewrite Hp in Ho|]. destruct Hp as (o & Hp & H).
    rewrite Hp in Ho. by injection Ho as <-. }
  unfold fetch_file, f_bind at 1, at_once at 1, r_lift, parse_hash. rewrite Hh. cbn [ok_or].
  destruct (whole_run h x n Ha) as (b & Hb & Hrun). unfold f_bind at 1, at_once at 1. rewrite Hrun.
  destruct b; [unfold at_once; rewrite touch_run; split; [done|]; split; [done|]; intros order Ho; destruct (Hasked order Ho); by auto|].
  unfold f_bind at 1, at_once at 1, inner at 1. destruct es as [|e0 es].
  - rewrite Hp. split; [done|]. split; [|by intros order [=]]. intros (e & d & c & He & Hx & _). exfalso.
    by apply (not_elem_of_nil e), Hin.
  - destruct Hp as (order & Hp & Hn & Ho). rewrite Hp in Hasked |- *.
    destruct (fetch_each_run h (dials order) x n Ha) as (x' & r & Hr & _ & Hw & Hor & Hs).
    assert (Hfound : (exists e d c, holds (n_store n) e /\ has_file e hash /\ may_hold env n e d /\ d <> my_id n /\
      (forall from, d ∈ from -> exists before after, dials from = before ++ Some c :: after /\ Forall (comes_back h) before) /\
      serves c h) -> r = Some (Ok tt)).
    { intros (e & d & c & He & Hx & Hm & Hne & Hd & Hc). destruct (Hd order) as (before & after & Hu & Hf); [apply Ho; eauto|].
      by eapply Hs. }
    unfold f_bind at 1, fetch_first. rewrite Hr. destruct r as [[[]|er]|].
    + unfold at_once. rewrite touch_run. split; [auto|]. split; [done|]. intros o Hq. destruct (Hasked o Hq). by auto.
    + split; [done|]. split; [intros H; by specialize (Hfound H)|]. intros o Hq. destruct (Hasked o Hq). by auto.
    + split; [done|]. split; [intros H; by specialize (Hfound H)|]. intros o Hq. destruct (Hasked o Hq) as [? ?].
      split; [done|]. split; [done|]. injection Hq as <-. intros _. by destruct Hor as [?|[?|[_ ?]]].
Qed.
(** One that came up first and never sends the file holds up the rest: the
    fetch never comes back, whoever else would serve it. *)
Theorem stalled_blocks h c after x n : stalls c h -> (fetch_each h (Some c :: after) (x, n)).2 = None.
Proof.
  intros Hc. cbn [fetch_each]. unfold f_bind at 1, get_from. specialize (Hc (b_store x)).
  destruct (execute_get c h (b_store x)) as [st r]. cbn in Hc. by subst.
Qed.
End BlobsSpec.
