(* ===== verification/Audio.v ===== *)
(** The audio edges of a call ([crates/hit-voice/src/codec.rs], [drift.rs],
    [device.rs]): frames and their level, mixing, the drift controller, the
    microphone's and the speakers' buffers.

    A sample is an IEEE binary32 number and a ratio a binary64, computed with
    [SpecFloat]'s correctly rounded operations; Opus and the echo canceller are
    classes. *)
From Stdlib Require Import SpecFloat.
From S2P Require Import Prelude.

#[local] Open Scope Z_scope.

(** ** Floats *)
Module Float.
Definition f32 : Type := spec_float.
Definition f64 : Type := spec_float.
Definition add32 : f32 -> f32 -> f32 := SFadd 24 128.
Definition mul32 : f32 -> f32 -> f32 := SFmul 24 128.
Definition div32 : f32 -> f32 -> f32 := SFdiv 24 128.
Definition sqrt32 : f32 -> f32 := SFsqrt 24 128.
Definition of_Z32 (z : Z) : f32 := binary_normalize 24 128 z 0 false.
Definition add64 : f64 -> f64 -> f64 := SFadd 53 1024.
Definition sub64 : f64 -> f64 -> f64 := SFsub 53 1024.
Definition mul64 : f64 -> f64 -> f64 := SFmul 53 1024.
Definition div64 : f64 -> f64 -> f64 := SFdiv 53 1024.
Definition of_Z64 (z : Z) : f64 := binary_normalize 53 1024 z 0 false.
(** A decimal literal: its fraction, rounded once. *)
Definition lit32 (n d : Z) : f32 := div32 (of_Z32 n) (of_Z32 d).
Definition lit64 (n d : Z) : f64 := div64 (of_Z64 n) (of_Z64 d).
(** [clamp]: a NaN stays one. *)
Definition clamp (x lo hi : spec_float) : spec_float :=
  let x := if SFltb x lo then lo else x in if SFltb hi x then hi else x.
(** Neither below [lo] nor above [hi]. *)
Definition between (lo hi x : spec_float) : Prop := SFltb x lo = false /\ SFltb hi x = false.

Lemma ltb_irrefl x : SFltb x x = false.
Proof.
  unfold SFltb, SFcompare. destruct x as [s|s| |s m e]; [done|by destruct s|done|].
  by destruct s; cbn; rewrite Z.compare_refl, Pos.compare_cont_refl.
Qed.
Lemma clamp_between x lo hi : SFltb hi lo = false -> between lo hi (clamp x lo hi).
Proof.
  intros Hlo. unfold clamp, between. pose proof (ltb_irrefl lo) as Hl. pose proof (ltb_irrefl hi) as Hh.
  destruct (SFltb x lo) eqn:E; [by rewrite Hlo|]. destruct (SFltb hi x) eqn:E'; [|done]. split; [done|done].
Qed.
End Float.
Export Float.

(** ** Frames (codec.rs) *)
Definition RATE : Z := 48000.
Definition FRAME : Z := 960.
Definition MAX_PACKET : Z := 1000.

(** [opus]: a packet of at most as many bytes as it is given room for; what it
    decodes, [None] the missing packet. *)
Class Opus := {
  Encoder : Type;
  Decoder : Type;
  encoder_new : option Encoder;
  decoder_new : option Decoder;
  encode_float : Encoder -> list f32 -> Z -> Encoder * option (list Z);
  decode_float : Decoder -> list Z -> Z -> bool -> Decoder * option (list f32);
}.
Section Codec.
Context {OP : Opus}.
Definition Enc_encode (e : Encoder) (frame : list f32) : Encoder * option (list Z) :=
  encode_float e frame MAX_PACKET.
(** [truncate], then [resize]: exactly a frame. *)
Definition whole_frame (out : list f32) : list f32 :=
  take (Z.to_nat FRAME) out ++ replicate (Z.to_nat FRAME - length out) (S754_zero false).
Definition Dec_run (d : Decoder) (packet : list Z) (fec : bool) : Decoder * option (list f32) :=
  let '(d, out) := decode_float d packet FRAME fec in (d, option_map whole_frame out).
Definition Dec_decode (d : Decoder) (packet : list Z) := Dec_run d packet false.
Definition Dec_recover (d : Decoder) (next : list Z) := Dec_run d next true.
Definition Dec_conceal (d : Decoder) := Dec_run d [] false.
End Codec.

Definition sum32 (l : list f32) : f32 := foldl add32 (S754_zero true) l.
Definition level (frame : list f32) : f32 :=
  match frame with
  | [] => S754_zero false
  | _ => sqrt32 (div32 (sum32 (map (fun s => mul32 s s) frame)) (of_Z32 (Z.of_nat (length frame))))
  end.

(** *** The mix of a tick *)
Definition silence : list f32 := replicate (Z.to_nat FRAME) (S754_zero false).
(** [zip]: what both have. *)
Fixpoint mix_in (mix frame : list f32) : list f32 :=
  match mix, frame with
  | m :: ms, s :: ss => add32 m s :: mix_in ms ss
  | _, _ => mix
  end.
Definition one32 : f32 := of_Z32 1.
Definition limited (mix : list f32) : list f32 := map (fun s => clamp s (SFopp one32) one32) mix.

Lemma whole_frame_length out : length (whole_frame out) = Z.to_nat FRAME.
Proof.
  unfold whole_frame. rewrite length_app, length_take, length_replicate.
  generalize (Z.to_nat FRAME). lia.
Qed.
Lemma mix_in_length mix frame : length (mix_in mix frame) = length mix.
Proof. revert frame. induction mix as [|m ms IH]; intros [|s ss]; cbn; [done..|]. by rewrite IH. Qed.

(** ** Drift (drift.rs) *)
Definition MAX_SKEW : f64 := lit64 5 1000.
Definition ALPHA : f64 := lit64 2 100.
Definition GAIN : f64 := lit64 2 100.
Definition KI : f64 := lit64 2 10000.
Record Drift := mkDrift { d_target : f64; d_avg : option f64; d_integral : f64; d_ratio : f64 }.
Definition one64 : f64 := of_Z64 1.
Definition Drift_new (target : Z) : Drift :=
  mkDrift (of_Z64 (Z.max target 1)) None (S754_zero false) one64.
Definition LEAST : f64 := sub64 one64 MAX_SKEW.
Definition MOST : f64 := add64 one64 MAX_SKEW.
Definition Drift_update (d : Drift) (level : Z) : Drift :=
  let l := of_Z64 level in
  let avg := match d_avg d with Some a => add64 a (mul64 ALPHA (sub64 l a)) | None => l end in
  let err := div64 (sub64 avg (d_target d)) (d_target d) in
  let integral := clamp (add64 (d_integral d) (mul64 KI err)) (SFopp MAX_SKEW) MAX_SKEW in
  mkDrift (d_target d) (Some avg) integral
    (clamp (add64 (add64 one64 (mul64 GAIN err)) integral) LEAST MOST).

(** ** The devices' buffers (device.rs) *)
Definition PIECE : Z := 480.
Definition MIC_MAX : Z := FRAME * 4.
Definition SPEAKER_MAX : Z := RATE / 5.
Definition LEVEL : Z := 2 * FRAME.
(** Oldest out first, beyond [cap]; and how many. *)
Definition enqueue (cap : Z) (buf more : list f32) : list f32 * Z :=
  let b := buf ++ more in
  let over := sat_sub (Z.of_nat (length b)) cap in
  (drop (Z.to_nat over) b, over).
Definition count_up (n by_ : Z) : Z := (n + by_) mod (U64_MAX + 1).
Record Mic := mkMic { m_buf : list f32; m_drift : Drift; m_ratio : f64; m_dropped : Z; m_short : Z; m_flowing : bool }.
(** What the capture callback does with the samples it made. *)
Definition capture (m : Mic) (out : list f32) : Mic :=
  let '(b, over) := enqueue MIC_MAX (m_buf m) out in
  mkMic b (m_drift m) (m_ratio m) (count_up (m_dropped m) over) (m_short m) (m_flowing m).
(** [Mic::frame], the echo canceller's work on the frame being [echo]. *)
Definition mic_frame (echo : list f32 -> list f32) (m : Mic) : Mic * option (list f32) :=
  let drift := Drift_update (m_drift m) (Z.of_nat (length (m_buf m))) in
  if Z.of_nat (length (m_buf m)) <? FRAME then
    (mkMic (m_buf m) drift (d_ratio drift) (m_dropped m)
       (if m_flowing m then count_up (m_short m) 1 else m_short m) (m_flowing m), None)
  else
    (mkMic (drop (Z.to_nat FRAME) (m_buf m)) drift (d_ratio drift) (m_dropped m) (m_short m) true,
     Some (echo (take (Z.to_nat FRAME) (m_buf m)))).
Record Speaker := mkSpeaker { s_buf : list f32; s_dropped : Z }.
Definition speaker_play (s : Speaker) (frame : list f32) : Speaker :=
  let '(b, over) := enqueue SPEAKER_MAX (s_buf s) frame in mkSpeaker b (count_up (s_dropped s) over).

(** ** What holds of them *)
Definition skew_ok (d : Drift) : Prop :=
  between (SFopp MAX_SKEW) MAX_SKEW (d_integral d) /\ between LEAST MOST (d_ratio d).
Lemma drift_new_ok target : skew_ok (Drift_new target).
Proof. by repeat split; vm_compute. Qed.
Lemma drift_update_ok d l : skew_ok (Drift_update d l).
Proof. split; apply clamp_between; by vm_compute. Qed.
Lemma enqueue_bound cap buf more : 0 <= cap -> Z.of_nat (length (enqueue cap buf more).1) <= cap.
Proof. intros Hc. unfold enqueue, sat_sub. cbn [fst]. rewrite length_drop. lia. Qed.
(** A microphone's and a speaker's life: what the device brings, what the call takes. *)
Inductive MicOp := Captured (out : list f32) | Framed.
Definition mic_step (echo : list f32 -> list f32) (m : Mic) (o : MicOp) : Mic :=
  match o with Captured out => capture m out | Framed => (mic_frame echo m).1 end.
Definition Mic_new : Mic := mkMic [] (Drift_new LEVEL) one64 0 0 false.

(** C39. The devices stay in bounds whatever they are fed: the microphone keeps
    at most four frames and the speakers a fifth of a second, dropping the
    oldest and counting what was dropped; a frame taken is exactly twenty
    milliseconds; and the drift correction never leaves half a percent. *)
Theorem devices_bounded echo ops frames :
  let m := foldl (mic_step echo) Mic_new ops in
  let s := foldl speaker_play (mkSpeaker [] 0) frames in
  Z.of_nat (length (m_buf m)) <= MIC_MAX /\ skew_ok (m_drift m) /\ between LEAST MOST (m_ratio m) /\
  Z.of_nat (length (s_buf s)) <= SPEAKER_MAX /\
  (forall out m', mic_frame id m = (m', Some out) -> Z.of_nat (length out) = FRAME /\ m_buf m = out ++ m_buf m').
Proof.
  cbv zeta. set (m := foldl _ _ ops). set (s := foldl _ _ frames).
  assert (Hm : Z.of_nat (length (m_buf m)) <= MIC_MAX /\ skew_ok (m_drift m) /\ between LEAST MOST (m_ratio m)).
  { unfold m. assert (H0 : Z.of_nat (length (m_buf Mic_new)) <= MIC_MAX /\ skew_ok (m_drift Mic_new) /\
      between LEAST MOST (m_ratio Mic_new)).
    { split; [by vm_compute|]. split; [apply drift_new_ok|by split; vm_compute]. }
    revert H0. generalize Mic_new. induction ops as [|o ops IH]; intros x Hx; [done|]. cbn [foldl]. apply IH.
    destruct Hx as (H1 & H2 & H3). destruct o as [out|]; cbn [mic_step].
    - unfold capture. pose proof (enqueue_bound MIC_MAX (m_buf x) out ltac:(done)) as H.
      by destruct (enqueue _ _ _).
    - unfold mic_frame. pose proof (drift_update_ok (m_drift x) (Z.of_nat (length (m_buf x)))) as Hd.
      destruct (_ <? FRAME); cbn [fst m_buf m_drift m_ratio]; (split; [|split; [exact Hd|apply Hd]]); [done|].
      rewrite length_drop. lia. }
  destruct Hm as (H1 & H2 & H3). do 3 (split; [done|]). split.
  - unfold s. assert (H0 : Z.of_nat (length (s_buf (mkSpeaker [] 0))) <= SPEAKER_MAX) by by vm_compute.
    revert H0. generalize (mkSpeaker [] 0). induction frames as [|f fs IH]; intros x Hx; [done|]. cbn [foldl]. apply IH.
    unfold speaker_play. pose proof (enqueue_bound SPEAKER_MAX (s_buf x) f ltac:(done)) as H.
    by destruct (enqueue _ _ _).
  - intros out m'. unfold mic_frame. destruct (_ <? FRAME) eqn:E; [done|]. intros [= <- <-]. apply Z.ltb_ge in E.
    cbn [m_buf]. unfold id. split; [|by rewrite take_drop]. rewrite length_take. unfold FRAME in *. lia.
Qed.
