(* ===== verification/Voice.v ===== *)
(** Calls ([crates/hit-voice/src/call.rs]): a voice channel's mesh and a 1:1
    call, who may join, ring and be heard, and the twenty-millisecond tick.

    What the code runs between two awaits is one step here.  A call is a cell of
    a heap, as the code shares it ([Arc<Call>]): a task that waited - for an
    announcement, an answer line, a dial, a ring - goes on with the call it
    had, whatever became of it since.  The node is [Node.Inner], at the time of
    each step; what is sent is a log. *)
From Stdlib Require Import SpecFloat.
From S2P Require Import Prelude Text Nostr GroupEvent Replace Perm Zap GroupState Fold.
From S2P Require Import Binding Dm Groups EventStore Proto Person Node NodeOps Jitter Audio.

#[local] Open Scope Z_scope.

(** [Ord] on [EndpointId]. *)
Class VoiceTypes {T : DeviceTypes} := { ep_ltb : EndpointId -> EndpointId -> bool }.

Section Voice.
Context {N : NostrTypes} {O : NostrOps} {T : DeviceTypes} {P : DeviceOps} {C : DmCrypto}.
Context {Y : WireTypes} {F : ProfileTypes} {NT : NodeTypes} {OP : Opus} {VT : VoiceTypes}.
#[local] Open Scope string_scope.
#[local] Open Scope Z_scope.
#[local] Open Scope list_scope.

(** ** State *)

(** Milliseconds, where the node counts seconds. *)
Definition ENDED_SHOWN : Z := 8000.
Definition HANGOVER : Z := 300.
(** group.rs. *)
Definition MAX_VOICE : Z := 8.
Record Config := mkConfig { max : Z; cf_delay : Z; heartbeat : Z; presence_window : Z; vad_threshold : f32 }.
Definition Config_default : Config := mkConfig MAX_VOICE 3 5000 15 (lit32 2 100).

Inductive VoiceError :=
| VNode (e : NodeError) | VCodec | NotAllowed | Full (n : Z) | Busy | NotInCall | NoDevice | NotRinging.
Inductive Room := InChannel (group : PublicKey) (channel : string) | InDm (with_ : PublicKey).
#[global] Instance room_eq_dec : EqDecision Room.
Proof. solve_decision. Defined.

Record Peer := mkPeer { q_conn : Z; q_jitter : Jitter.Jitter; q_dec : Decoder; q_heard : bool; q_spoke : option Z }.
(** [k_loops]: the call's own tasks run; [k_readers]: the connections a task
    reads datagrams from, and for whom. *)
Record Call := mkCall {
  k_room : Room; k_peers : gmap PublicKey Peer; k_answered : bool; k_muted : bool; k_deafened : bool;
  k_ptt : bool; k_key : bool; k_speak : bool; k_spoke : option Z;
  k_loops : bool; k_readers : gmap Z PublicKey; k_seq : Z; k_enc : Encoder; k_beat : Z }.
Definition with_peers (v : gmap PublicKey Peer) (k : Call) : Call :=
  mkCall (k_room k) v (k_answered k) (k_muted k) (k_deafened k) (k_ptt k) (k_key k) (k_speak k) (k_spoke k)
    (k_loops k) (k_readers k) (k_seq k) (k_enc k) (k_beat k).
Definition with_answered (v : bool) (k : Call) : Call :=
  mkCall (k_room k) (k_peers k) v (k_muted k) (k_deafened k) (k_ptt k) (k_key k) (k_speak k) (k_spoke k)
    (k_loops k) (k_readers k) (k_seq k) (k_enc k) (k_beat k).
Definition with_switches (muted deafened ptt key : bool) (k : Call) : Call :=
  mkCall (k_room k) (k_peers k) (k_answered k) muted deafened ptt key (k_speak k) (k_spoke k)
    (k_loops k) (k_readers k) (k_seq k) (k_enc k) (k_beat k).
Definition with_speak (v : bool) (k : Call) : Call :=
  mkCall (k_room k) (k_peers k) (k_answered k) (k_muted k) (k_deafened k) (k_ptt k) (k_key k) v (k_spoke k)
    (k_loops k) (k_readers k) (k_seq k) (k_enc k) (k_beat k).
Definition with_voice_out (spoke : option Z) (seq : Z) (enc : Encoder) (k : Call) : Call :=
  mkCall (k_room k) (k_peers k) (k_answered k) (k_muted k) (k_deafened k) (k_ptt k) (k_key k) (k_speak k) spoke
    (k_loops k) (k_readers k) seq enc (k_beat k).
Definition with_tasks (loops : bool) (readers : gmap Z PublicKey) (k : Call) : Call :=
  mkCall (k_room k) (k_peers k) (k_answered k) (k_muted k) (k_deafened k) (k_ptt k) (k_key k) (k_speak k) (k_spoke k)
    loops readers (k_seq k) (k_enc k) (k_beat k).
Definition with_beat (v : Z) (k : Call) : Call :=
  mkCall (k_room k) (k_peers k) (k_answered k) (k_muted k) (k_deafened k) (k_ptt k) (k_key k) (k_speak k) (k_spoke k)
    (k_loops k) (k_readers k) (k_seq k) (k_enc k) v.

Record Ringing := mkRinging { r_ring : Z; r_from : PublicKey }.
(** What a task is waiting for. *)
Inductive Wait :=
| Announcing (room : Room) (speak : bool)
| Greeted (call : nat) (person : PublicKey) (heard : bool) (conn : Z)
| RingsHere (ring : Z) (from : PublicKey) (conn : Z)
| Dialling (call : nat) (person : PublicKey) (device : EndpointId)
| RingsThere (call : nat) (person : PublicKey) (left_ : nat) (why : option string).
Inductive Out :=
| Hangs (conn : Z) (why : string)
| Refuses (conn : Z) (why : string)
| Datagram (conn : Z) (bytes : list Z)
| Plays (mix : list f32).
Record Voice := mkVoice {
  v_calls : list Call;
  v_current : option nat;
  v_ringing : option Ringing;
  v_rings : Z;
  v_decided : gmap Z bool;
  v_ended : option (string * Z);
  v_waits : list Wait;
  v_out : list Out }.
Definition Voice_new : Voice := mkVoice [] None None 0 ∅ None [] [].
Definition set_calls (c : list Call) (v : Voice) : Voice :=
  mkVoice c (v_current v) (v_ringing v) (v_rings v) (v_decided v) (v_ended v) (v_waits v) (v_out v).
Definition set_current (c : option nat) (v : Voice) : Voice :=
  mkVoice (v_calls v) c (v_ringing v) (v_rings v) (v_decided v) (v_ended v) (v_waits v) (v_out v).
Definition set_ringing (r : option Ringing) (v : Voice) : Voice :=
  mkVoice (v_calls v) (v_current v) r (v_rings v) (v_decided v) (v_ended v) (v_waits v) (v_out v).
Definition set_rings (k : Z) (v : Voice) : Voice :=
  mkVoice (v_calls v) (v_current v) (v_ringing v) k (v_decided v) (v_ended v) (v_waits v) (v_out v).
Definition set_decided (d : gmap Z bool) (v : Voice) : Voice :=
  mkVoice (v_calls v) (v_current v) (v_ringing v) (v_rings v) d (v_ended v) (v_waits v) (v_out v).
Definition set_ended (e : option (string * Z)) (v : Voice) : Voice :=
  mkVoice (v_calls v) (v_current v) (v_ringing v) (v_rings v) (v_decided v) e (v_waits v) (v_out v).
Definition set_waits (w : list Wait) (v : Voice) : Voice :=
  mkVoice (v_calls v) (v_current v) (v_ringing v) (v_rings v) (v_decided v) (v_ended v) w (v_out v).
Definition say_out (l : list Out) (v : Voice) : Voice :=
  mkVoice (v_calls v) (v_current v) (v_ringing v) (v_rings v) (v_decided v) (v_ended v) (v_waits v) (v_out v ++ l).
Definition on_call (i : nat) (f : Call -> Call) (v : Voice) : Voice := set_calls (alter f i (v_calls v)) v.
Definition current (v : Voice) : option Call := let! i := v_current v in v_calls v !! i.
Definition wait_for (w : Wait) (v : Voice) : Voice := set_waits (v_waits v ++ [w]) v.

(** ** Who may join, be heard, and ring *)
Definition rights (n : Inner) (at_ : Timestamp) (g : PublicKey) (channel : string) (person : PublicKey) : option bool :=
  let! s := state (n_groups n) g in
  let! c := List.find (fun c => bool_decide (ch_id c = channel)) (gs_channels s) in
  if negb (bool_decide (ch_kind c = GroupEvent.Voice)) || negb (is_member s person) then None
  else
    let perms := effective s person channel in
    if negb (Perm.contains perms Perm.VIEW_CHANNEL) then None
    else Some (Perm.contains perms Perm.SEND_MESSAGES && negb (opt_bool (muted_until s person at_))).
Definition heard (n : Inner) (at_ : Timestamp) (room : Room) (person : PublicKey) : option bool :=
  match room with
  | InChannel g channel => rights n at_ g channel person
  | InDm p => Some (bool_decide (p = person))
  end.
Definition may_call (n : Inner) (person : PublicKey) : bool :=
  if bool_decide (person = me n) then false
  else if shares_group n person then true
  else match (dms n).2 with
       | Ok l => existsb (fun d => bool_decide (dm_from d = me n) && bool_decide (dm_to d = person)) l
       | Err _ => false
       end.

(** ** Starting and stopping *)
Definition Call_new (room : Room) (can_speak : bool) (enc : Encoder) (ms : Z) : Call :=
  mkCall room ∅ false false false false false can_speak None true ∅ 0 enc ms.
(** The call made current, its index if its encoder was made. *)
Definition start_call (room : Room) (can_speak : bool) (ms : Z) (v : Voice) : Voice * result VoiceError nat :=
  match encoder_new with
  | None => (v, Err VCodec)
  | Some enc =>
      let i := length (v_calls v) in
      (set_ended None (set_current (Some i) (set_calls (v_calls v ++ [Call_new room can_speak enc ms]) v)), Ok i)
  end.
(** [Call::stop]: its tasks aborted - the one that rings out among them - and
    every peer hung up on. *)
Definition rings_for (i : nat) (w : Wait) : bool :=
  match w with RingsThere j _ _ _ => bool_decide (i = j) | _ => false end.
Definition stop_call (i : nat) (why : string) (v : Voice) : Voice :=
  match v_calls v !! i with
  | None => v
  | Some k =>
      set_waits (List.filter (fun w => negb (rings_for i w)) (v_waits v))
        (on_call i (fun k => with_tasks false ∅ (with_peers ∅ k))
          (say_out (map (fun x => Hangs (q_conn x.2) why) (map_to_list (k_peers k))) v))
  end.
(** [Voice::end]. *)
Definition end_call (i : nat) (why : string) (ms : Z) (v : Voice) : Voice :=
  if bool_decide (v_current v = Some i) then stop_call i "ended" (set_ended (Some (why, ms)) (set_current None v)) else v.

Definition in_room (cfg : Config) (env : Env) (n : Inner) (g : PublicKey) (channel : string) : gset PublicKey :=
  voice_participants env n g channel (presence_window cfg).
(** [Voice::join]: until its announcement, and from there. *)
Definition join_begins (cfg : Config) (env : Env) (g : PublicKey) (channel : string) (c : Voice * Inner)
    : (Voice * Inner) * result VoiceError unit :=
  let '(v, n) := c in
  if opt_bool (v_current v) then ((v, n), Err Busy)
  else
    match rights n (now env) g channel (me n) with
    | None => ((v, n), Err NotAllowed)
    | Some can_speak =>
        if max cfg <? Z.of_nat (size (in_room cfg env n g channel ∖ {[me n]})) + 1 then ((v, n), Err (Full (max cfg)))
        else
          match announce_voice env g channel true n with
          | (n, Err e) => ((v, n), Err (VNode e))
          | (n, Ok _) => ((wait_for (Announcing (InChannel g channel) can_speak) v, n), Ok tt)
          end
    end.
Definition call_person (env : Env) (ms : Z) (person : PublicKey) (n : Inner) (v : Voice) : Voice * result VoiceError unit :=
  if opt_bool (v_current v) then (v, Err Busy)
  else
    let devices := devices_of (n_book n) person (now env) in
    if match devices with [] => true | _ => false end || bool_decide (person = me n) then (v, Err NoDevice)
    else
      match start_call (InDm person) true ms v with
      | (v, Err e) => (v, Err e)
      | (v, Ok i) => (wait_for (RingsThere i person (length devices) None) v, Ok tt)
      end.
Definition incoming (v : Voice) : option PublicKey := option_map r_from (v_ringing v).
(** Is the task that rings still there to be told? *)
Definition ring_waits (id : Z) (v : Voice) : bool :=
  existsb (fun w => match w with RingsHere r _ _ => r =? id | _ => false end) (v_waits v)
  && negb (opt_bool (v_decided v !! id)).
Definition decide_ring (id : Z) (b : bool) (v : Voice) : Voice := set_decided (<[id := b]> (v_decided v)) v.
Definition answer (ms : Z) (v : Voice) : Voice * result VoiceError unit :=
  if opt_bool (v_current v) then (v, Err Busy)
  else
    match v_ringing v with
    | None => (v, Err NotRinging)
    | Some ring =>
        match start_call (InDm (r_from ring)) true ms (set_ringing None v) with
        | (v, Err e) => (v, Err e)
        | (v, Ok i) =>
            if ring_waits (r_ring ring) v then (decide_ring (r_ring ring) true v, Ok tt)
            else (end_call i "they hung up" ms v, Ok tt)
        end
    end.
Definition decline (v : Voice) : Voice * result VoiceError unit :=
  match v_ringing v with
  | None => (v, Err NotRinging)
  | Some ring =>
      let v := set_ringing None v in
      (if ring_waits (r_ring ring) v then decide_ring (r_ring ring) false v else v, Ok tt)
  end.
Definition leave (env : Env) (c : Voice * Inner) : (Voice * Inner) * result VoiceError unit :=
  let '(v, n) := c in
  match v_current v with
  | None => ((v, n), Err NotInCall)
  | Some i =>
      let room := option_map k_room (v_calls v !! i) in
      let v := stop_call i "left" (set_current None v) in
      match room with
      | Some (InChannel g channel) =>
          match announce_voice env g channel false n with
          | (n, Ok _) => ((v, n), Ok tt)
          | (n, Err e) => ((v, n), Err (VNode e))
          end
      | _ => ((v, n), Ok tt)
      end
  end.
Definition on_current (f : Call -> Call) (v : Voice) : Voice :=
  match v_current v with Some i => on_call i f v | None => v end.
Definition set_muted (on : bool) : Voice -> Voice :=
  on_current (fun k => with_switches on (k_deafened k) (k_ptt k) (k_key k) k).
Definition set_deafened (on : bool) : Voice -> Voice :=
  on_current (fun k => with_switches (k_muted k) on (k_ptt k) (k_key k) k).
Definition set_push_to_talk (on : bool) : Voice -> Voice :=
  on_current (fun k => with_switches (k_muted k) (k_deafened k) on (k_key k) k).
Definition talk (down : bool) : Voice -> Voice :=
  on_current (fun k => with_switches (k_muted k) (k_deafened k) (k_ptt k) down k).
Definition ended (ms : Z) (v : Voice) : option string :=
  let! e := v_ended v in if ms - e.2 <? ENDED_SHOWN then Some e.1 else None.

(** ** Peers *)
Definition add_peer (cfg : Config) (i : nat) (person : PublicKey) (h : bool) (conn : Z) (v : Voice) : Voice :=
  match decoder_new with
  | None => v
  | Some dec =>
      match v_calls v !! i with
      | None => v
      | Some k =>
          let peer := mkPeer conn (Jitter.new (cf_delay cfg)) dec h None in
          on_call i (fun k => with_tasks (k_loops k) (<[conn := person]> (k_readers k))
                                (with_peers (<[person := peer]> (k_peers k)) k))
            (say_out (match k_peers k !! person with
                      | Some old => [Hangs (q_conn old) "replaced"] | None => [] end) v)
      end
  end.
(** The reading task: a datagram, and its end. *)
Definition datagram (i : nat) (conn : Z) (bytes : list Z) (v : Voice) : Voice :=
  on_call i (fun k =>
    match k_readers k !! conn, Packet.Packet_decode bytes with
    | Some person, Some p =>
        match k_peers k !! person with
        | Some x =>
            if q_heard x then
              with_peers (<[person := mkPeer (q_conn x) (Jitter.push (q_jitter x) (Packet.seq p) (Packet.opus p))
                                        (q_dec x) true (q_spoke x)]> (k_peers k)) k
            else k
        | None => k
        end
    | _, _ => k
    end) v.
Definition reader_ends (i : nat) (conn : Z) (v : Voice) : Voice :=
  on_call i (fun k =>
    match k_readers k !! conn with
    | Some person => with_tasks (k_loops k) (delete conn (k_readers k)) (with_peers (delete person (k_peers k)) k)
    | None => k
    end) v.

(** ** Being joined, and rung *)
Definition me_and (n : Inner) (at_ : Timestamp) (device : EndpointId) (ok : PublicKey -> bool) : option PublicKey :=
  List.find (fun p => negb (bool_decide (p = me n)) && ok p) (persons_of (n_book n) device at_).
(** The gate for a voice channel: the call, the person, and if they are heard. *)
Definition greets (cfg : Config) (env : Env) (n : Inner) (v : Voice) (device : EndpointId) (group channel : string)
    : result string (nat * PublicKey * bool) :=
  match v_current v, current v with
  | Some i, Some k =>
      match k_room k with
      | InDm _ => Err "not in that call"
      | InChannel g c =>
          if negb (bool_decide (pk_to_hex g = group)) || negb (bool_decide (channel = c)) then Err "not in that call"
          else
            match me_and n (now env) device (fun p => opt_bool (rights n (now env) g c p)) with
            | None => Err "not a member who may join this channel"
            | Some person =>
                if negb (opt_bool (k_peers k !! person)) && (max cfg <=? Z.of_nat (size (k_peers k)) + 1)
                then Err ("the channel is full (" +:+ show_u (max cfg) +:+ " people)")
                else Ok (i, person, opt_get false (rights n (now env) g c person))
            end
      end
  | _, _ => Err "not in a call"
  end.
(** The gate for a 1:1 call: who rings, and under which number. *)
Definition rings (env : Env) (device : EndpointId) (binding : Event) (c : Voice * Inner)
    : (Voice * Inner) * result string (Z * PublicKey) :=
  let '(v, n) := c in
  let r := authenticate (n_book n) binding device (now env) in
  let n := with_book r.1 n in
  match r.2 with
  | Err _ => ((v, n), Err "who are you? the binding does not hold")
  | Ok from =>
      if negb (may_call n from) then ((v, n), Err "not someone who may call this person")
      else
        let id := v_rings v in
        let v := set_rings ((id + 1) mod (U64_MAX + 1)) v in
        if opt_bool (v_current v) || opt_bool (v_ringing v) then ((v, n), Err "busy")
        else ((set_ringing (Some (mkRinging id from)) v, n), Ok (id, from))
  end.
Inductive Join := JChannel (group channel : string) | JDm (binding : Event).
(** [Voice::accept], until its first wait. *)
Definition accept_call (cfg : Config) (env : Env) (conn : Z) (device : EndpointId) (join : option Join)
    (c : Voice * Inner) : Voice * Inner :=
  let '(v, n) := c in
  match join with
  | None => (say_out [Refuses conn "no join"] v, n)
  | Some (JChannel g channel) =>
      match greets cfg env n v device g channel with
      | Err why => (say_out [Refuses conn why] v, n)
      | Ok (i, person, h) => (wait_for (Greeted i person h conn) v, n)
      end
  | Some (JDm binding) =>
      match rings env device binding (v, n) with
      | ((v, n), Err why) => (say_out [Refuses conn why] v, n)
      | ((v, n), Ok (id, from)) => (wait_for (RingsHere id from conn) v, n)
      end
  end.
(** A ring is over: decided, or the caller went, or nobody answered. *)
Definition ring_over (id : Z) (from : PublicKey) (conn : Z) (decision : option bool) (v : Voice) : Voice :=
  let v := match v_ringing v with
           | Some r => if r_ring r =? id then set_ringing None v else v
           | None => v
           end in
  match decision with
  | Some true =>
      match v_current v, current v with
      | Some i, Some k =>
          if bool_decide (k_room k = InDm from) then wait_for (Greeted i from true conn) v
          else say_out [Refuses conn "busy"] v
      | _, _ => say_out [Refuses conn "hung up"] v
      end
  | Some false => say_out [Refuses conn "declined"] v
  | None => say_out [Refuses conn "no answer"] v
  end.
(** The answer is written, or was not. *)
Definition let_in (cfg : Config) (ms : Z) (i : nat) (person : PublicKey) (h : bool) (conn : Z) (written : bool)
    (v : Voice) : Voice :=
  if written then on_call i (with_answered true) (add_peer cfg i person h conn v)
  else
    match option_map k_room (v_calls v !! i) with
    | Some (InDm _) => end_call i "they hung up" ms v
    | _ => v
    end.

(** ** Dialling *)

(** How one dial ends: up with a yes, or a no and why, or not at all. *)
Inductive Knock := Picked (conn : Z) | Turned (why : option string) | Unmet (why : string) | Lost.
Definition dialled (cfg : Config) (env : Env) (n : Inner) (i : nat) (person : PublicKey) (k : Knock) (v : Voice) : Voice :=
  match k, option_map k_room (v_calls v !! i) with
  | Picked conn, Some (InChannel g channel) =>
      add_peer cfg i person (opt_get false (rights n (now env) g channel person)) conn v
  | _, _ => v
  end.
Definition why_rank (why : string) : Z :=
  if bool_decide (why = "declined") then 3
  else if bool_decide (why = "busy") then 2
  else if bool_decide (why = "no answer") || bool_decide (why = "unreachable") then 0 else 1.
Definition why_of (why : option string) (k : Knock) : option string :=
  match k with
  | Picked _ | Lost => why
  | Turned w =>
      let w := opt_get "refused" w in
      if is_none_or why (fun old => why_rank old <? why_rank w) then Some w else why
  | Unmet w => match why with None => Some w | Some _ => why end
  end.
(** One device of [ring_out] is done. *)
Definition rung_out (cfg : Config) (ms : Z) (i : nat) (person : PublicKey) (left_ : nat) (why : option string) (k : Knock)
    (v : Voice) : Voice :=
  match k with
  | Picked conn => on_call i (with_answered true) (add_peer cfg i person true conn v)
  | _ =>
      let why := why_of why k in
      match left_ with
      | S (S m) => wait_for (RingsThere i person (S m) why) v
      | _ => end_call i (opt_get "no answer" why) ms v
      end
  end.

(** ** Upkeep, every second *)
Definition hangs_up (room : gset PublicKey) (x : PublicKey * Peer) : list Out :=
  if bool_decide (x.1 ∈ room) then [] else [Hangs (q_conn x.2) "left"].
Definition with_heard_ (h : bool) (x : Peer) : Peer := mkPeer (q_conn x) (q_jitter x) (q_dec x) h (q_spoke x).
Definition to_dial (n : Inner) (env : Env) (g : PublicKey) (channel : string) (connected : gset PublicKey) (i : nat)
    (p : PublicKey) : list Wait :=
  if bool_decide (p = me n) || bool_decide (p ∈ connected) || negb (opt_bool (rights n (now env) g channel p)) then []
  else map (Dialling i p) (List.filter (ep_ltb (my_id n)) (devices_of (n_book n) p (now env))).
Definition keep_room (cfg : Config) (env : Env) (i : nat) (g : PublicKey) (channel : string) (c : Voice * Inner)
    : Voice * Inner :=
  let '(v, n) := c in
  match v_calls v !! i with
  | None => c
  | Some k =>
      let room := in_room cfg env n g channel in
      let stay := filter (fun x => x.1 ∈ room) (k_peers k) in
      let v := say_out (flat_map (hangs_up room) (map_to_list (k_peers k))) v in
      let v := on_call i (fun k =>
                 with_speak (opt_get false (rights n (now env) g channel (me n)))
                   (with_peers (map_imap (fun p x => Some (with_heard_
                      (opt_get false (heard n (now env) (k_room k) p)) x)) stay) k)) v in
      (set_waits (v_waits v ++ flat_map (to_dial n env g channel (dom stay) i)
                    (elements room)) v, n)
  end.
Definition upkeep (cfg : Config) (env : Env) (ms : Z) (i : nat) (c : Voice * Inner) : Voice * Inner :=
  let '(v, n) := c in
  match v_calls v !! i with
  | None => c
  | Some k =>
      if negb (k_loops k) then c
      else
        match k_room k with
        | InDm _ =>
            if k_answered k && bool_decide (k_peers k = ∅) then (end_call i "they hung up" ms v, n) else c
        | InChannel g channel =>
            if heartbeat cfg <=? ms - k_beat k then
              keep_room cfg env i g channel (on_call i (with_beat ms) v, (announce_voice env g channel true n).1)
            else keep_room cfg env i g channel (v, n)
        end
  end.

(** ** The tick, every twenty milliseconds *)
Definition recent (ms : Z) (spoke : option Z) : bool := is_some_and spoke (fun t => ms - t <? HANGOVER).
Definition loud (cfg : Config) (frame : list f32) : bool := SFltb (vad_threshold cfg) (level frame).
(** A frame of ours: what is sent, to every peer. *)
Definition tick_out (cfg : Config) (ms : Z) (frame : list f32) (k : Call) : Call * list Out :=
  let l := loud cfg frame in
  let spoke := if l then Some ms else k_spoke k in
  let active := if k_ptt k then k_key k else recent ms spoke in
  let seq := (k_seq k + 1) mod 65536 in
  if active && negb (k_muted k) && k_speak k then
    match Enc_encode (k_enc k) frame with
    | (enc, Some opus) =>
        let bytes := Packet.Packet_encode (Packet.Build_Packet (k_seq k) l opus) in
        (with_voice_out spoke seq enc k, map (fun x => Datagram (q_conn x.2) bytes) (map_to_list (k_peers k)))
    | (enc, None) => (with_voice_out spoke seq enc k, [])
    end
  else (with_voice_out spoke seq (k_enc k) k, []).
(** One peer's frame, if it is time for one. *)
Definition peer_frame (cfg : Config) (ms : Z) (x : Peer) : Peer * option (list f32) :=
  let '(slot, j) := Jitter.pop (q_jitter x) in
  let '(dec, frame) :=
    match slot with
    | Jitter.Waiting => (q_dec x, None)
    | Jitter.Play p => Dec_decode (q_dec x) p
    | Jitter.Recover p => Dec_recover (q_dec x) p
    | Jitter.Conceal => Dec_conceal (q_dec x)
    end in
  (mkPeer (q_conn x) j dec (q_heard x)
     (if is_some_and frame (loud cfg) then Some ms else q_spoke x), frame).
Definition tick_in (cfg : Config) (ms : Z) (k : Call) : Call * list f32 :=
  let peers := fmap (peer_frame cfg ms) (k_peers k) in
  let mix := foldl (fun mix x => match x.2.2 with Some f => mix_in mix f | None => mix end) silence (map_to_list peers) in
  (with_peers (fst <$> peers) k,
   limited (if k_deafened k then map (fun _ => S754_zero false) mix else mix)).
Definition tick (cfg : Config) (ms : Z) (i : nat) (frame : option (list f32)) (v : Voice) : Voice :=
  match v_calls v !! i with
  | Some k =>
      if k_loops k then
        let '(k, sent) := match frame with Some f => tick_out cfg ms f k | None => (k, []) end in
        let '(k, mix) := tick_in cfg ms k in
        say_out (sent ++ [Plays mix]) (on_call i (fun _ => k) v)
      else v
  | None => v
  end.

(** ** Steps *)

(** How a wait ends. *)
Inductive Resumed := Announced | Written (ok : bool) | Over (decision : option bool) | Knocked (k : Knock).
Definition resume (cfg : Config) (env : Env) (ms : Z) (n : Inner) (w : Wait) (r : Resumed) (v : Voice) : Voice :=
  match w, r with
  | Announcing room speak, Announced => (start_call room speak ms v).1
  | Greeted i person h conn, Written ok => let_in cfg ms i person h conn ok v
  | RingsHere id from conn, Over decision => ring_over id from conn decision v
  | Dialling i person _, Knocked k => dialled cfg env n i person k v
  | RingsThere i person left_ why, Knocked k => rung_out cfg ms i person left_ why k v
  | _, _ => v
  end.
(** May it end so?  A ring is only decided as it was. *)
Definition may_resume (v : Voice) (w : Wait) (r : Resumed) : bool :=
  match w, r with
  | Announcing _ _, Announced | Greeted _ _ _ _, Written _ | Dialling _ _ _, Knocked _ | RingsThere _ _ _ _, Knocked _ => true
  | RingsHere id _ _, Over (Some b) => bool_decide (v_decided v !! id = Some b)
  | RingsHere _ _ _, Over None => true
  | _, _ => false
  end.
Inductive Act :=
| Joins (g : PublicKey) (channel : string) | Calls (person : PublicKey) | Answers | Declines | Leaves
| Mutes (on : bool) | Deafens (on : bool) | PushToTalk (on : bool) | Talks (down : bool)
| Accepts (conn : Z) (device : EndpointId) (join : option Join)
| Resumes (k : nat) (r : Resumed)
| Reads (i : nat) (conn : Z) (bytes : list Z) | ReaderEnds (i : nat) (conn : Z)
| Upkeeps (i : nat) | Ticks (i : nat) (frame : option (list f32))
| NodeMoves (n : Inner).
Definition act (cfg : Config) (env : Env) (ms : Z) (a : Act) (c : Voice * Inner) : Voice * Inner :=
  let '(v, n) := c in
  match a with
  | Joins g channel => (join_begins cfg env g channel (v, n)).1
  | Calls person => ((call_person env ms person n v).1, n)
  | Answers => ((answer ms v).1, n)
  | Declines => ((decline v).1, n)
  | Leaves => (leave env (v, n)).1
  | Mutes on => (set_muted on v, n)
  | Deafens on => (set_deafened on v, n)
  | PushToTalk on => (set_push_to_talk on v, n)
  | Talks down => (talk down v, n)
  | Accepts conn device join => accept_call cfg env conn device join (v, n)
  | Resumes k r =>
      match v_waits v !! k with
      | Some w => if may_resume v w r
                  then (resume cfg env ms n w r (set_waits (delete k (v_waits v)) v), n) else c
      | None => c
      end
  | Reads i conn bytes => (datagram i conn bytes v, n)
  | ReaderEnds i conn => (reader_ends i conn v, n)
  | Upkeeps i => upkeep cfg env ms i (v, n)
  | Ticks i frame => (tick cfg ms i frame v, n)
  | NodeMoves n => (v, n)
  end.
Fixpoint acts (cfg : Config) (l : list (Env * Z * Act)) (c : Voice * Inner) : Voice * Inner :=
  match l with
  | [] => c
  | (env, ms, a) :: t => acts cfg t (act cfg env ms a c)
  end.

(** ** What the window shows *)
Record Participant := mkParticipant { pa_npub : string; pa_connected : bool; pa_speaking : bool }.
Record CallState := mkCallState {
  cs_group : option string; cs_channel : option string; cs_with : option string; cs_calling : bool;
  cs_muted : bool; cs_deafened : bool; cs_ptt : bool; cs_can_speak : bool; cs_me_speaking : bool;
  cs_people : list Participant }.
Definition npub (p : PublicKey) : string := opt_get (pk_to_hex p) (pk_to_bech32 p).
Definition participant (ms : Z) (k : Call) (p : PublicKey) : Participant :=
  mkParticipant (npub p) (opt_bool (k_peers k !! p)) (is_some_and (k_peers k !! p) (fun x => recent ms (q_spoke x))).
Definition call_state (cfg : Config) (env : Env) (ms : Z) (n : Inner) (v : Voice) : option CallState :=
  let! k := current v in
  let people := match k_room k with
                | InChannel g c => in_room cfg env n g c
                | InDm p => {[p]}
                end in
  let shown := isort (fun a b => String.leb (pa_npub a) (pa_npub b))
                 (map (participant ms k) (elements (people ∖ {[me n]}))) in
  let state g c w := mkCallState g c w (opt_bool w && negb (k_answered k)) (k_muted k) (k_deafened k) (k_ptt k)
                       (k_speak k) (recent ms (k_spoke k)) shown in
  Some (match k_room k with
        | InChannel g c => state (Some (npub g)) (Some c) None
        | InDm p => state None None (Some (npub p))
        end).
End Voice.
