(* ===== verification/VoiceSpec.v ===== *)
(** What a call promises: who may join one, ring and be heard; that a 1:1 call
    has nobody but the other person in it whatever interleaves; what a tick
    sends and plays; what the caller is told - and two interleavings that lose
    a connection. *)
From Stdlib Require Import SpecFloat.
From S2P Require Import Prelude Text Nostr GroupEvent Replace Perm Zap GroupState Fold.
From S2P Require Import Binding Dm Groups EventStore Proto Person Node NodeOps Jitter Audio Voice.

#[local] Open Scope Z_scope.

Section VoiceSpec.
Context {N : NostrTypes} {O : NostrOps} {T : DeviceTypes} {P : DeviceOps} {C : DmCrypto}.
Context {Y : WireTypes} {F : ProfileTypes} {NT : NodeTypes} {OP : Opus} {VT : VoiceTypes}.

(** ** What any interleaving keeps *)
Definition only_with (k : Call) : Prop := forall q, k_room k = InDm q ->
  (forall p x, k_peers k !! p = Some x -> p = q) /\ (forall conn p, k_readers k !! conn = Some p -> p = q).
Definition wait_ok (calls : list Call) (w : Wait) : Prop :=
  match w with
  | Greeted i p _ _ => exists room, k_room <$> calls !! i = Some room /\ (forall q, room = InDm q -> p = q)
  | RingsThere i p _ _ => k_room <$> calls !! i = Some (InDm p)
  | Dialling i _ _ => exists g c, k_room <$> calls !! i = Some (InChannel g c)
  | Announcing _ _ | RingsHere _ _ _ => True
  end.
Record voice_ok (v : Voice) : Prop := {
  vo_current i : v_current v = Some i -> is_Some (v_calls v !! i);
  vo_dm i k : v_calls v !! i = Some k -> only_with k;
  vo_waits w : w ∈ v_waits v -> wait_ok (v_calls v) w;
  vo_ring r : v_ringing v = Some r -> exists conn, RingsHere (r_ring r) (r_from r) conn ∈ v_waits v;
}.
(** Rooms stay as they are. *)
Definition same_rooms (c c' : list Call) : Prop := forall i room, k_room <$> c !! i = Some room -> k_room <$> c' !! i = Some room.
Lemma wait_ok_mono c c' w : same_rooms c c' -> wait_ok c w -> wait_ok c' w.
Proof. intros H. destruct w; cbn; try done; [naive_solver| |]; [|by apply H]. intros (g & ch & Hr). eauto. Qed.
Lemma same_rooms_is_some c c' i : same_rooms c c' -> is_Some (c !! i) -> is_Some (c' !! i).
Proof.
  intros H [k Hk]. specialize (H i (k_room k)). rewrite Hk in H. cbn in H. destruct (c' !! i); [by eexists|].
  by specialize (H eq_refl).
Qed.
Lemma on_call_rooms i f v : (forall k, k_room (f k) = k_room k) -> same_rooms (v_calls v) (v_calls (on_call i f v)).
Proof.
  intros Hf j room. cbn. destruct (decide (i = j)) as [<-|Hn].
  - rewrite list_lookup_alter_eq. destruct (v_calls v !! i) as [k|]; [|done].
    intros [= <-]. change (Some (k_room (f k)) = Some (k_room k)). by rewrite Hf.
  - by rewrite list_lookup_alter_ne.
Qed.
Lemma on_call_ok i f v : voice_ok v -> (forall k, k_room (f k) = k_room k) ->
  (forall k, v_calls v !! i = Some k -> only_with k -> only_with (f k)) -> voice_ok (on_call i f v).
Proof.
  intros [H1 H2 H3 H4] Hr Hf. pose proof (on_call_rooms i f v Hr) as Hs. split.
  - intros j Hj. eapply same_rooms_is_some; [exact Hs|]. by apply H1.
  - intros j k. cbn. destruct (decide (i = j)) as [<-|Hn].
    + rewrite list_lookup_alter_eq. destruct (v_calls v !! i) as [k0|] eqn:E; [|done]. intros [= <-]. apply Hf; [done|].
      by eapply H2.
    + rewrite list_lookup_alter_ne by done. apply H2.
  - intros w Hw. eapply wait_ok_mono; [exact Hs|]. by apply H3.
  - exact H4.
Qed.
Lemma fewer_peers k m : (forall p x, m !! p = Some x -> is_Some (k_peers k !! p)) -> only_with k -> only_with (with_peers m k).
Proof. intros Hm H q Hq. destruct (H q Hq) as [H1 H2]. split; [|exact H2]. intros p x [y Hy]%Hm. by eapply H1. Qed.
Lemma say_ok l v : voice_ok v -> voice_ok (say_out l v).
Proof. by intros [H1 H2 H3 H4]. Qed.
(** Waits go, but not that of the ring shown. *)
Lemma fewer_waits l v : voice_ok v -> (forall w, w ∈ l -> w ∈ v_waits v) ->
  (forall r conn, v_ringing v = Some r -> RingsHere (r_ring r) (r_from r) conn ∈ v_waits v ->
     RingsHere (r_ring r) (r_from r) conn ∈ l) -> voice_ok (set_waits l v).
Proof.
  intros [H1 H2 H3 H4] Hl Hr. split; try done.
  - intros w Hw. by apply H3, Hl.
  - intros r E. destruct (H4 r E) as [conn Hc]. exists conn. by eapply Hr.
Qed.
Lemma more_waits w v : voice_ok v -> wait_ok (v_calls v) w -> voice_ok (wait_for w v).
Proof.
  intros [H1 H2 H3 H4] Hw. split; try done.
  - intros x [Hx| ->%list_elem_of_singleton]%elem_of_app; [by apply H3|done].
  - intros r E. destruct (H4 r E) as [conn Hc]. exists conn. apply elem_of_app. by left.
Qed.
Lemma no_ring_ok v : voice_ok v -> voice_ok (set_ringing None v).
Proof. by intros [H1 H2 H3 H4]. Qed.
Lemma not_current_ok v : voice_ok v -> voice_ok (set_current None v).
Proof. by intros [H1 H2 H3 H4]. Qed.

Lemma start_ok room speak ms v : voice_ok v -> voice_ok (start_call room speak ms v).1 /\
  forall i, (start_call room speak ms v).2 = Ok i -> k_room <$> v_calls (start_call room speak ms v).1 !! i = Some room.
Proof.
  intros [H1 H2 H3 H4]. unfold start_call. destruct encoder_new as [enc|]; [|done].
  set (k := Call_new room speak enc ms).
  assert (Hs : same_rooms (v_calls v) (v_calls v ++ [k])).
  { intros i r. destruct (v_calls v !! i) as [x|] eqn:E; [|done]. by rewrite (lookup_app_l_Some _ _ _ _ E). }
  assert (Hlast : (v_calls v ++ [k]) !! length (v_calls v) = Some k)
    by (rewrite lookup_app_r, Nat.sub_diag by done; done).
  split; [split|]; cbn [fst snd].
  - intros i [= <-]. cbn. rewrite Hlast. by eexists.
  - intros i x. cbn. destruct (decide (i < length (v_calls v))%nat) as [Hi|Hi].
    + rewrite lookup_app_l by done. apply H2.
    + rewrite lookup_app_r by lia. intros Hx. apply list_elem_of_lookup_2, list_elem_of_singleton in Hx as ->.
      intros q _. cbn. split; intros ? ?; by rewrite lookup_empty.
  - intros w Hw. eapply wait_ok_mono; [exact Hs|]. by apply H3.
  - exact H4.
  - intros i [= <-]. cbn. by rewrite Hlast.
Qed.
Lemma stop_ok i why v : voice_ok v -> voice_ok (stop_call i why v).
Proof.
  intros H. unfold stop_call. destruct (v_calls v !! i) as [k|]; [|done].
  apply fewer_waits.
  - apply on_call_ok; [by apply say_ok|done|]. intros k' _ _ q _. cbn. split; intros ? ?; by rewrite lookup_empty.
  - intros w [Hw _]%filter_elem. exact Hw.
  - intros r conn _ Hw. apply filter_elem. by split.
Qed.
Lemma end_ok i why ms v : voice_ok v -> voice_ok (end_call i why ms v).
Proof. intros H. unfold end_call. case_bool_decide; [|done]. apply stop_ok. by destruct H. Qed.
Lemma switch_ok f v : voice_ok v -> (forall k, k_room (f k) = k_room k /\ k_peers (f k) = k_peers k /\ k_readers (f k) = k_readers k) ->
  voice_ok (on_current f v).
Proof.
  intros H Hf. unfold on_current. destruct (v_current v) as [i|]; [|done]. apply on_call_ok; [done|apply Hf|].
  intros k _ Hk q. destruct (Hf k) as (-> & -> & ->). apply Hk.
Qed.
Lemma add_peer_ok cfg i p h conn v : voice_ok v -> (forall q, k_room <$> v_calls v !! i = Some (InDm q) -> p = q) ->
  voice_ok (add_peer cfg i p h conn v).
Proof.
  intros H Hp. unfold add_peer. destruct decoder_new as [dec|]; [|done]. destruct (v_calls v !! i) as [k0|] eqn:E; [|done].
  apply on_call_ok; [by apply say_ok|done|]. cbn. intros k Hk Hok q Hq. rewrite E in Hk. injection Hk as <-.
  destruct (Hok q Hq) as [H1 H2]. cbn in Hq |- *. assert (p = q) as <- by (apply Hp; cbn; by rewrite Hq).
  split; intros a b; rewrite lookup_insert; case_decide; naive_solver.
Qed.
Lemma add_peer_rooms cfg i p h conn v : same_rooms (v_calls v) (v_calls (add_peer cfg i p h conn v)).
Proof.
  intros j room Hj. unfold add_peer. destruct decoder_new; [|exact Hj]. destruct (v_calls v !! i) as [k|]; [|exact Hj].
  by apply (on_call_rooms i _ (say_out _ v)).
Qed.
Lemma let_in_ok cfg ms i p h conn written v : voice_ok v -> wait_ok (v_calls v) (Greeted i p h conn) ->
  voice_ok (let_in cfg ms i p h conn written v).
Proof.
  intros H (room & Hroom & Hp). unfold let_in. destruct written.
  - apply on_call_ok; [|done|done]. apply add_peer_ok; [done|]. intros q Hq. apply Hp. congruence.
  - destruct (option_map _ _) as [[g c|q]|]; [done| |done]. by apply end_ok.
Qed.
Lemma dialled_ok cfg env n i p k v : voice_ok v -> voice_ok (dialled cfg env n i p k v).
Proof.
  intros H. unfold dialled. destruct k; try done. destruct (v_calls v !! i) as [k|] eqn:E; [|done].
  cbn. destruct (k_room k) eqn:Er; [|done]. apply add_peer_ok; [done|]. rewrite E. cbn. rewrite Er. by intros q [=].
Qed.
Lemma rung_out_ok cfg ms i p m why k v : voice_ok v -> k_room <$> v_calls v !! i = Some (InDm p) ->
  voice_ok (rung_out cfg ms i p m why k v).
Proof.
  intros H Hr. unfold rung_out. destruct k as [conn|w|w|].
  - apply on_call_ok; [|done|done]. apply add_peer_ok; [done|]. rewrite Hr. by intros q [=].
  - destruct m as [|[|m]]; [by apply end_ok..|by apply more_waits].
  - destruct m as [|[|m]]; [by apply end_ok..|by apply more_waits].
  - destruct m as [|[|m]]; [by apply end_ok..|by apply more_waits].
Qed.
(** All but the ring shown, whose wait may just have ended. *)
Record almost_ok (v : Voice) : Prop := {
  ao_current i : v_current v = Some i -> is_Some (v_calls v !! i);
  ao_dm i k : v_calls v !! i = Some k -> only_with k;
  ao_waits w : w ∈ v_waits v -> wait_ok (v_calls v) w;
}.
Lemma ring_over_ok id from conn d v : almost_ok v ->
  (forall r, v_ringing v = Some r -> r_ring r <> id -> exists c, RingsHere (r_ring r) (r_from r) c ∈ v_waits v) ->
  voice_ok (ring_over id from conn d v).
Proof.
  intros [H1 H2 H3] Hr. unfold ring_over. set (v1 := match v_ringing v with Some r => _ | None => v end).
  assert (H : voice_ok v1 /\ v_current v1 = v_current v /\ v_calls v1 = v_calls v).
  { unfold v1. destruct (v_ringing v) as [r|] eqn:E.
    - destruct (Z.eqb_spec (r_ring r) id) as [He|He]; [done|]. split; [|done].
      split; try done. intros r' E'. rewrite E in E'. injection E' as <-. by apply Hr.
    - split; [|done]. split; try done. intros r' E'. by rewrite E in E'. }
  destruct H as (H & Hc & Hk). destruct d as [[]|]; [|by apply say_ok..].
  unfold current. rewrite Hc, Hk. destruct (v_current v) as [i|]; [|by apply say_ok]. cbn.
  destruct (v_calls v !! i) as [k|] eqn:Ek; [|by apply say_ok]. case_bool_decide as Hroom; [|by apply say_ok].
  apply more_waits; [done|]. exists (InDm from). rewrite Hk, Ek. cbn. rewrite Hroom. split; [done|]. by intros q [= ->].
Qed.
Lemma delete_waits v k w : voice_ok v -> v_waits v !! k = Some w ->
  almost_ok (set_waits (delete k (v_waits v)) v) /\
  (match w with RingsHere _ _ _ => True | _ => voice_ok (set_waits (delete k (v_waits v)) v) end) /\
  forall r c, v_ringing v = Some r -> RingsHere (r_ring r) (r_from r) c ∈ v_waits v ->
    RingsHere (r_ring r) (r_from r) c <> w -> RingsHere (r_ring r) (r_from r) c ∈ delete k (v_waits v).
Proof.
  intros [H1 H2 H3 H4] Hk.
  assert (Hsub : forall x, x ∈ delete k (v_waits v) -> x ∈ v_waits v).
  { intros x Hx. eapply elem_of_sublist; [exact Hx|apply sublist_delete]. }
  assert (Hkeep : forall x, x ∈ v_waits v -> x <> w -> x ∈ delete k (v_waits v)).
  { intros x [j Hj]%list_elem_of_lookup Hn. assert (j <> k) by congruence. apply list_elem_of_lookup.
    destruct (decide (j < k)%nat).
    - exists j. by rewrite list_lookup_delete_lt.
    - exists (j - 1)%nat. rewrite list_lookup_delete_ge by lia. replace (S (j - 1)) with j by lia. done. }
  split; [split; try done; intros x Hx; by apply H3, Hsub|]. split; [|intros r c _ Hc Hn; by apply Hkeep].
  assert (Hall : (forall r c, RingsHere r c.1 c.2 <> w) -> voice_ok (set_waits (delete k (v_waits v)) v)).
  { intros Hn. split; try done; [intros x Hx; by apply H3, Hsub|].
    intros r E. destruct (H4 r E) as [c Hc]. exists c. apply Hkeep; [done|]. by apply (Hn (r_ring r) (r_from r, c)). }
  destruct w; try done; by apply Hall.
Qed.
Lemma resume_ok cfg env ms n k w r v : voice_ok v -> v_waits v !! k = Some w ->
  voice_ok (resume cfg env ms n w r (set_waits (delete k (v_waits v)) v)) \/ may_resume v w r = false.
Proof.
  intros H Hk. pose proof (vo_waits _ H w (list_elem_of_lookup_2 _ _ _ Hk)) as Hw.
  destruct (delete_waits v k w H Hk) as (Ha & Hv & Hring).
  destruct w as [room speak|i p h conn|id from conn|i p d|i p m why], r as [|b|d'|kn]; try (by right); left; cbn [resume].
  - by apply start_ok.
  - by apply let_in_ok.
  - apply ring_over_ok; [done|]. intros r Er Hid. destruct (vo_ring _ H r Er) as [c Hc]. exists c.
    apply (Hring r c Er Hc). congruence.
  - by apply dialled_ok.
  - by apply rung_out_ok.
Qed.

Lemma join_ok cfg env g ch v n : voice_ok v -> voice_ok (join_begins cfg env g ch (v, n)).1.1.
Proof.
  intros H. unfold join_begins. destruct (opt_bool (v_current v)); [done|]. destruct (rights _ _ _ _ _) as [b|]; [|done].
  destruct (_ <? _); [done|]. destruct (announce_voice _ _ _ _ _) as [n' []]; [|done]. by apply more_waits.
Qed.
Lemma call_ok env ms p n v : voice_ok v -> voice_ok (call_person env ms p n v).1.
Proof.
  intros H. unfold call_person. destruct (opt_bool (v_current v)); [done|]. destruct (_ || _); [done|].
  pose proof (start_ok (InDm p) true ms v H) as [H1 H2]. destruct (start_call _ _ _ _) as [v' [i|e]]; [|done].
  apply more_waits; [done|]. by apply H2.
Qed.
Lemma answer_ok ms v : voice_ok v -> voice_ok (answer ms v).1.
Proof.
  intros H. unfold answer. destruct (opt_bool (v_current v)); [done|]. destruct (v_ringing v) as [r|]; [|done].
  pose proof (start_ok (InDm (r_from r)) true ms _ (no_ring_ok _ H)) as [H1 H2].
  destruct (start_call _ _ _ _) as [v' [i|e]]; [|done]. destruct (ring_waits _ _); [|by apply end_ok].
  by destruct H1.
Qed.
Lemma decline_ok v : voice_ok v -> voice_ok (decline v).1.
Proof.
  intros H. unfold decline. destruct (v_ringing v); [|done]. cbn. destruct (ring_waits _ _); by destruct H.
Qed.
Lemma leave_ok env v n : voice_ok v -> voice_ok (leave env (v, n)).1.1.
Proof.
  intros H. unfold leave. destruct (v_current v) as [i|]; [|done]. destruct (option_map _ _) as [[g c|q]|];
    [destruct (announce_voice _ _ _ _ _) as [n' []]|..]; by apply stop_ok, not_current_ok.
Qed.
Lemma ring_ok id from conn v : voice_ok v -> v_ringing v = None ->
  voice_ok (wait_for (RingsHere id from conn) (set_ringing (Some (mkRinging id from)) v)).
Proof.
  intros [H1 H2 H3 H4] _. split; try done.
  - intros w [Hw| ->%list_elem_of_singleton]%elem_of_app; [by apply H3|done].
  - intros r [= <-]. exists conn. apply elem_of_app. right. by apply list_elem_of_singleton.
Qed.
Lemma rings_number_ok k v : voice_ok v -> voice_ok (set_rings k v).
Proof. by intros [H1 H2 H3 H4]. Qed.
Lemma accept_ok cfg env n conn d j v : voice_ok v -> voice_ok (accept_call cfg env conn d j (v, n)).1.
Proof.
  intros H. unfold accept_call. destruct j as [[g c|b]|]; [| |by apply say_ok].
  - unfold greets, current. destruct (v_current v) as [i|]; [|by apply say_ok]. cbn.
    destruct (v_calls v !! i) as [k|] eqn:Ek; [|by apply say_ok].
    destruct (k_room k) as [g' c'|q] eqn:Er; [|by apply say_ok].
    destruct (_ || _); [by apply say_ok|]. destruct (me_and _ _ _ _); [|by apply say_ok]. destruct (_ && _); [by apply say_ok|].
    apply more_waits; [done|]. exists (InChannel g' c'). rewrite Ek. cbn. by rewrite Er.
  - unfold rings. destruct (authenticate _ _ _ _) as [x []]; [|by apply say_ok]. cbn. destruct (negb _); [by apply say_ok|].
    destruct (opt_bool (v_current v) || _) eqn:Eb; [by apply say_ok, rings_number_ok|].
    apply ring_ok; [by apply rings_number_ok|]. cbn. apply orb_false_iff in Eb as [_ Eb]. by destruct (v_ringing v).
Qed.
Lemma datagram_ok i conn bytes v : voice_ok v -> voice_ok (datagram i conn bytes v).
Proof.
  intros H. apply on_call_ok; [done| |].
  - intros k. destruct (k_readers k !! conn); [|done]. destruct (Packet.Packet_decode _); [|done].
    destruct (k_peers k !! _) as [x|]; [|done]. by destruct (q_heard x).
  - intros k _ Hk. destruct (k_readers k !! conn) as [p|]; [|done]. destruct (Packet.Packet_decode _); [|done].
    destruct (k_peers k !! p) as [x|] eqn:Ep; [|done]. destruct (q_heard x); [|done]. apply fewer_peers; [|done].
    intros q y. rewrite lookup_insert. case_decide; [intros _; subst; by eexists|intros E; by eexists].
Qed.
Lemma reader_ends_ok i conn v : voice_ok v -> voice_ok (reader_ends i conn v).
Proof.
  intros H. apply on_call_ok; [done| |].
  - intros k. by destruct (k_readers k !! conn).
  - intros k _ Hk. destruct (k_readers k !! conn) as [p|]; [|done]. intros q Hq. destruct (Hk q Hq) as [H1 H2]. cbn.
    split; intros a x [_ E]%lookup_delete_Some; [by eapply H1|by eapply H2].
Qed.
Lemma upkeep_ok cfg env ms i v n : voice_ok v -> voice_ok (upkeep cfg env ms i (v, n)).1.
Proof.
  assert (Hkeep : forall v n g c, voice_ok v -> k_room <$> v_calls v !! i = Some (InChannel g c) ->
    voice_ok (keep_room cfg env i g c (v, n)).1).
  { clear v n. intros v n g c H Hr. unfold keep_room. destruct (v_calls v !! i) as [k|] eqn:Ek; [|done].
    injection Hr as Hr. cbn [fst].
    match goal with |- voice_ok (set_waits ?l ?w) => set (v2 := w); assert (H2 : voice_ok v2) end.
    { apply on_call_ok; [by apply say_ok|done|]. intros k' Hk' _ q. cbn in Hk' |- *. rewrite Ek in Hk'. injection Hk' as <-.
      by rewrite Hr. }
    assert (Hroom : k_room <$> v_calls v2 !! i = Some (InChannel g c)).
    { apply on_call_rooms; [done|]. cbn. by rewrite Ek, <- Hr. }
    clearbody v2. destruct H2 as [A B D E]. split; try done.
    - intros w [Hw|Hw]%elem_of_app; [by apply D|]. apply list_elem_of_In, in_flat_map in Hw as (p & _ & Hw).
      unfold to_dial in Hw. destruct (_ || _); [done|]. apply in_map_iff in Hw as (d & <- & _). cbn. eauto.
    - intros r Er. destruct (E r Er) as [conn Hc]. exists conn. apply elem_of_app; by left. }
  intros H. unfold upkeep. destruct (v_calls v !! i) as [k|] eqn:Ek; [|done]. destruct (negb _); [done|].
  destruct (k_room k) as [g c|q] eqn:Er.
  - destruct (_ <=? _).
    + apply Hkeep; [apply on_call_ok; done|]. apply on_call_rooms; [done|]. rewrite Ek. cbn. by rewrite Er.
    + apply Hkeep; [done|]. rewrite Ek. cbn. by rewrite Er.
  - destruct (_ && _); [by apply end_ok|done].
Qed.
Lemma tick_out_keeps cfg ms f k : let k' := (tick_out cfg ms f k).1 in
  k_room k' = k_room k /\ k_peers k' = k_peers k /\ k_readers k' = k_readers k.
Proof. unfold tick_out. cbn. destruct (_ && k_speak k); [|done]. by destruct (Enc_encode _ _) as [e []]. Qed.
Lemma tick_keeps cfg ms k frame :
  let k' := (tick_in cfg ms (match frame with Some f => tick_out cfg ms f k | None => (k, []) end).1).1 in
  k_room k' = k_room k /\ k_readers k' = k_readers k /\ forall p, is_Some (k_peers k' !! p) -> is_Some (k_peers k !! p).
Proof.
  intros k'. assert (Hin : forall k1, k_room k1 = k_room k -> k_peers k1 = k_peers k -> k_readers k1 = k_readers k ->
    k_room (tick_in cfg ms k1).1 = k_room k /\ k_readers (tick_in cfg ms k1).1 = k_readers k /\
    forall p, is_Some (k_peers (tick_in cfg ms k1).1 !! p) -> is_Some (k_peers k !! p)).
  { intros k1 Hr Hp Hd. split; [exact Hr|]. split; [exact Hd|]. intros p. unfold tick_in. cbn [fst with_peers k_peers].
    by rewrite !lookup_fmap, !fmap_is_Some, Hp. }
  subst k'. destruct frame as [f|]; [|by apply Hin]. destruct (tick_out_keeps cfg ms f k) as (A & B & D). by apply Hin.
Qed.
Lemma tick_ok cfg ms i frame v : voice_ok v -> voice_ok (tick cfg ms i frame v).
Proof.
  intros H. unfold tick. destruct (v_calls v !! i) as [k|] eqn:Ek; [|done]. destruct (k_loops k); [|done].
  pose proof (tick_keeps cfg ms k frame) as Hk. destruct (match frame with Some _ => _ | None => _ end) as [k1 sent].
  cbn [fst] in Hk. destruct (tick_in cfg ms k1) as [k2 mix]. cbn [fst] in Hk. destruct Hk as (Hr & Hd & Hp). apply say_ok.
  destruct H as [A B D E]. assert (Hs : same_rooms (v_calls v) (alter (fun _ => k2) i (v_calls v))).
  { intros j room. destruct (decide (i = j)) as [<-|Hn]; [|by rewrite list_lookup_alter_ne].
    rewrite list_lookup_alter_eq, Ek. cbn. by rewrite Hr. }
  split; cbn.
  - intros j Hj. eapply same_rooms_is_some; [exact Hs|]. by apply A.
  - intros j k' Hj. destruct (decide (i = j)) as [<-|Hn]; [|rewrite list_lookup_alter_ne in Hj by done; by eapply B].
    rewrite list_lookup_alter_eq, Ek in Hj. injection Hj as <-. intros q Hq. rewrite Hr in Hq.
    destruct (B i k Ek q Hq) as [H1 H2]. rewrite Hd. split; [|exact H2]. intros p x Hx.
    destruct (Hp p) as [y Hy]; [by eexists|]. by eapply H1.
  - intros w Hw. eapply wait_ok_mono; [exact Hs|]. by apply D.
  - exact E.
Qed.
Lemma act_ok cfg env ms a v n : voice_ok v -> voice_ok (act cfg env ms a (v, n)).1.
Proof.
  intros H. destruct a; cbn [act]; try done;
    try (first [apply join_ok|apply call_ok|apply answer_ok|apply decline_ok|apply leave_ok
    |apply switch_ok|apply accept_ok|apply datagram_ok|apply reader_ends_ok|apply upkeep_ok|apply tick_ok]; done).
  destruct (v_waits v !! k) as [w|] eqn:Ek; [|done]. destruct (may_resume v w r) eqn:Em; [|done].
  destruct (resume_ok cfg env ms n k w r v H Ek) as [Hok|Hn]; [done|congruence].
Qed.
Lemma acts_ok cfg l : forall v n, voice_ok v -> voice_ok (acts cfg l (v, n)).1.
Proof.
  induction l as [|[[env ms] a] l IH]; intros v n H; [done|]. cbn [acts]. destruct (act cfg env ms a (v, n)) as [v' n'] eqn:E.
  apply IH. pose proof (act_ok cfg env ms a v n H) as Ha. by rewrite E in Ha.
Qed.
Lemma new_ok : voice_ok Voice_new.
Proof. split; cbn; [done|intros i k; by rewrite lookup_nil|intros w []%elem_of_nil|done]. Qed.

(** C12. Whatever interleaves - people clicking, connections coming and going,
    answers arriving late, the node changing - a 1:1 call, the current one or
    one left behind, never has anyone but the other person in it, nor anyone
    else's datagrams read; the current call is one that was started; and a
    ring shown is one whose caller still waits. *)
Theorem calls_right cfg l n : let v := (acts cfg l (Voice_new, n)).1 in
  (forall i k q p, v_calls v !! i = Some k -> k_room k = InDm q ->
     (is_Some (k_peers k !! p) -> p = q) /\ (forall conn, k_readers k !! conn = Some p -> p = q)) /\
  (forall i, v_current v = Some i -> is_Some (v_calls v !! i)) /\
  (forall r, v_ringing v = Some r -> exists conn, RingsHere (r_ring r) (r_from r) conn ∈ v_waits v).
Proof.
  destruct (acts_ok cfg l _ n new_ok) as [A B D E]. split; [|split; [exact A|exact E]].
  intros i k q p Hk Hq. destruct (B i k Hk q Hq) as [H1 H2]. split; [|intros conn; by eapply H2].
  intros [x Hx]. by eapply H1.
Qed.

(** ** The gates *)
(** A member who may see the voice channel [c] of [g] - and who is heard there if [h]. *)
Definition may_be_there (n : Inner) (at_ : Timestamp) (g : PublicKey) (c : string) (p : PublicKey) (h : bool) : Prop :=
  exists s ch, state (n_groups n) g = Some s /\ ch ∈ gs_channels s /\ ch_id ch = c /\ ch_kind ch = GroupEvent.Voice /\
    is_member s p = true /\ Perm.contains (effective s p c) Perm.VIEW_CHANNEL = true /\
    (h = true <-> Perm.contains (effective s p c) Perm.SEND_MESSAGES = true /\ muted_until s p at_ = None).
Lemma rights_some n at_ g c p h : rights n at_ g c p = Some h -> may_be_there n at_ g c p h.
Proof.
  unfold rights. destruct (state (n_groups n) g) as [s|] eqn:Es; [|done]. cbn.
  destruct (List.find _ (gs_channels s)) as [ch|] eqn:Ef; [|done]. cbn. apply find_elem in Ef as [Hin Hid].
  apply bool_decide_eq_true in Hid. destruct (bool_decide (ch_kind ch = _)) eqn:Ek; [|done]. apply bool_decide_eq_true in Ek.
  destruct (is_member s p) eqn:Em; [|done]. cbn. destruct (Perm.contains _ Perm.VIEW_CHANNEL) eqn:Ev; [|done]. cbn.
  intros [= <-]. exists s, ch. do 6 (split; [done|]). rewrite andb_true_iff. destruct (muted_until s p at_); naive_solver.
Qed.
Lemma me_and_some n at_ d ok p : me_and n at_ d ok = Some p -> p ∈ persons_of (n_book n) d at_ /\ p <> me n /\ ok p = true.
Proof.
  intros [H1 H2]%find_elem. apply andb_true_iff in H2 as [H2 H3]. split; [done|]. split; [|done].
  intros ->. by rewrite bool_decide_true in H2.
Qed.
Lemma me_and_finds n at_ d ok p : p ∈ persons_of (n_book n) d at_ -> p <> me n -> ok p = true ->
  exists q, me_and n at_ d ok = Some q.
Proof.
  intros H1 H2 H3. destruct (me_and n at_ d ok) eqn:E; [eauto|]. exfalso. apply (find_none_elem _ _ p) in E; [|done].
  cbv beta in E. rewrite bool_decide_false in E by done. cbn in E. congruence.
Qed.

(** C13. Into a voice channel's call a connection is let - if it is let - only
    while this node is in that very channel, as a person its device is bound to
    who is a member and may see the channel, heard exactly if they may send
    messages there and are not muted, and only if there is room left unless
    they are in already; and whoever is all that is let in.  Anything else is
    refused and leaves the call as it was. *)
Theorem joined_by_right cfg env v n conn d g c :
  let '(v', n') := accept_call cfg env conn d (Some (JChannel g c)) (v, n) in
  n' = n /\
  ((exists why, v' = say_out [Refuses conn why] v) \/
   exists i k gk p h, v' = wait_for (Greeted i p h conn) v /\
     v_current v = Some i /\ v_calls v !! i = Some k /\ k_room k = InChannel gk c /\ pk_to_hex gk = g /\
     p ∈ persons_of (n_book n) d (now env) /\ p <> me n /\ may_be_there n (now env) gk c p h /\
     (k_peers k !! p = None -> Z.of_nat (size (k_peers k)) + 1 < max cfg)) /\
  (forall i k gk p, v_current v = Some i -> v_calls v !! i = Some k -> k_room k = InChannel gk c -> pk_to_hex gk = g ->
     p ∈ persons_of (n_book n) d (now env) -> p <> me n -> is_Some (rights n (now env) gk c p) ->
     Z.of_nat (size (k_peers k)) + 1 < max cfg -> exists q h, v' = wait_for (Greeted i q h conn) v).
Proof.
  cbn [accept_call]. unfold greets, current.
  destruct (v_current v) as [i|] eqn:Ei; [|by split; [done|]; split; [left; eauto|]].
  cbn. destruct (v_calls v !! i) as [k|] eqn:Ek; [|split; [done|]; split; [left; by eexists|intros; simplify_eq; congruence]].
  destruct (k_room k) as [gk ck|q] eqn:Er; [|split; [done|]; split; [left; by eexists|intros; simplify_eq; congruence]].
  destruct (bool_decide (pk_to_hex gk = g)) eqn:Eg; cbn;
    [apply bool_decide_eq_true in Eg|apply bool_decide_eq_false in Eg; split; [done|]; split; [left; by eexists|intros; simplify_eq; congruence]].
  destruct (bool_decide (c = ck)) eqn:Ec; cbn;
    [apply bool_decide_eq_true in Ec as <-|apply bool_decide_eq_false in Ec; split; [done|]; split; [left; by eexists|intros; simplify_eq; congruence]].
  destruct (me_and _ _ _ _) as [p|] eqn:Ep.
  - destruct (me_and_some _ _ _ _ _ Ep) as (Hp & Hm & Hr). destruct (_ && _) eqn:Efull.
    + split; [done|]. split; [left; by eexists|]. intros; simplify_eq. apply andb_true_iff in Efull as [_ ?%Z.leb_le]. lia.
    + split; [done|]. split.
      * right. destruct (rights n (now env) gk c p) as [h|] eqn:Eh; [|done]. exists i, k, gk, p, h. cbn.
        do 7 (split; [done|]). split; [by apply rights_some|]. intros Hn. rewrite Hn in Efull. cbn in Efull. by apply Z.leb_gt in Efull.
      * intros; simplify_eq. by eexists _, _.
  - split; [done|]. split; [left; by eexists|]. intros i' k' gk' q Hi' Hk' Hroom _ Hq Hne [h Hh] _. exfalso. simplify_eq.
    match type of Ep with me_and _ _ _ ?ok = _ => pose proof (me_and_finds n (now env) d ok q Hq Hne) as Hf end.
    destruct Hf as [x Hx]; [|congruence]. assert (gk' = gk) as -> by congruence. by rewrite Hh.
Qed.

(** A call from a person rings here only if the binding it presents proves
    who calls from that device, the person is not this one and either shares a
    group with them or was written to from here, and neither a call nor a ring
    is on; and then it does ring.  Anything else is refused and neither the
    ring shown nor the call is touched. *)
Theorem rung_by_right cfg env v n conn d b :
  let '(v', n') := accept_call cfg env conn d (Some (JDm b)) (v, n) in
  n' = with_book (authenticate (n_book n) b d (now env)).1 n /\ v_calls v' = v_calls v /\ v_current v' = v_current v /\
  ((exists why, v_out v' = v_out v ++ [Refuses conn why] /\ v_ringing v' = v_ringing v /\ v_waits v' = v_waits v) \/
   exists from, (authenticate (n_book n) b d (now env)).2 = Ok from /\ from <> me n /\
     ((exists g s, state (n_groups n) g = Some s /\ is_member s (me n) = true /\ is_member s from = true) \/
      (exists l m, (dms n').2 = Ok l /\ m ∈ l /\ dm_from m = me n /\ dm_to m = from)) /\
     v_current v = None /\ v_ringing v = None /\
     incoming v' = Some from /\ v_waits v' = v_waits v ++ [RingsHere (v_rings v) from conn] /\ v_out v' = v_out v) /\
  (forall from, (authenticate (n_book n) b d (now env)).2 = Ok from -> may_call n' from = true ->
     v_current v = None -> v_ringing v = None -> incoming v' = Some from).
Proof.
  cbn [accept_call]. unfold rings. destruct (authenticate _ _ _ _) as [book [from|e]] eqn:Ea.
  2: { cbn -[dms]. do 3 (split; [done|]). split; [left; by eexists|done]. }
  cbn [fst snd]. set (n' := with_book book n). destruct (may_call n' from) eqn:Em; cbn [negb].
  2: { cbn -[dms]. do 3 (split; [done|]). split; [left; by eexists|]. intros ? [= <-]. congruence. }
  destruct (_ || _) eqn:Eb.
  { cbn -[dms]. do 3 (split; [done|]). split; [left; by eexists|]. intros ? _ _ Hc Hr. cbn in Eb. by rewrite Hc, Hr in Eb. }
  cbn in Eb. apply orb_false_iff in Eb as [Hc Hr]. cbn -[dms]. do 3 (split; [done|]). split; [right|by intros ? [= <-]].
  exists from. split; [done|]. unfold may_call in Em. destruct (bool_decide (from = me n')) eqn:Eme; [done|].
  apply bool_decide_eq_false in Eme. split; [done|]. split.
  - destruct (shares_group n' from) eqn:Es.
    + left. apply existsb_elem in Es as ([g gs] & Hin & Hs). apply list_elem_of_In, in_map_iff in Hin as (g' & [= <- <-] & _).
      cbn in Hs. destruct (state _ _) as [s|] eqn:E; [|done]. apply andb_true_iff in Hs. by exists g', s.
    + right. destruct (dms n').2 as [l|]; [|done]. apply existsb_elem in Em as (m & Hin & [H1 H2]%andb_true_iff).
      apply bool_decide_eq_true in H1, H2. by exists l, m.
  - by destruct (v_current v), (v_ringing v).
Qed.

(** ** Upkeep *)
Lemma upkeep_right cfg env ms i k g c v n :
  v_calls v !! i = Some k -> k_loops k = true -> k_room k = InChannel g c ->
  let '(v', n') := upkeep cfg env ms i (v, n) in
  exists k', v_calls v' !! i = Some k' /\ k_room k' = k_room k /\
    k_speak k' = opt_get false (rights n' (now env) g c (me n')) /\
    (forall p x', k_peers k' !! p = Some x' <-> p ∈ in_room cfg env n' g c /\
       exists x, k_peers k !! p = Some x /\ x' = with_heard_ (opt_get false (rights n' (now env) g c p)) x) /\
    (forall p x, k_peers k !! p = Some x -> p ∉ in_room cfg env n' g c -> Hangs (q_conn x) "left" ∈ v_out v') /\
    (forall conn p bytes, k_readers k' !! conn = Some p -> rights n' (now env) g c p <> Some true ->
       v_calls (datagram i conn bytes v') = v_calls v').
Proof.
  intros Hk Hl Hr. unfold upkeep. rewrite Hk, Hl, Hr. cbn [negb].
  assert (Hkeep : forall v n k, v_calls v !! i = Some k -> k_room k = InChannel g c ->
    let '(v', n') := keep_room cfg env i g c (v, n) in n' = n /\
    exists k', v_calls v' !! i = Some k' /\ k_room k' = k_room k /\
    k_speak k' = opt_get false (rights n' (now env) g c (me n')) /\
    (forall p x', k_peers k' !! p = Some x' <-> p ∈ in_room cfg env n' g c /\
       exists x, k_peers k !! p = Some x /\ x' = with_heard_ (opt_get false (rights n' (now env) g c p)) x) /\
    (forall p x, k_peers k !! p = Some x -> p ∉ in_room cfg env n' g c -> Hangs (q_conn x) "left" ∈ v_out v')).
  { clear. intros v n k Hk Hr. unfold keep_room. rewrite Hk. split; [done|].
    eexists. cbn. rewrite list_lookup_alter_eq. cbn. rewrite Hk. split; [reflexivity|]. cbn. split; [done|]. split; [done|]. split.
    - intros p x'. rewrite map_lookup_imap. rewrite Hr. cbn. rewrite map_lookup_filter. destruct (k_peers k !! p) as [x|]; cbn.
      + destruct (decide (p ∈ in_room cfg env n g c)) as [Hin|Hn].
        * rewrite option_guard_True by done. cbn. naive_solver.
        * rewrite option_guard_False by done. cbn. naive_solver.
      + naive_solver.
    - intros p x Hp Hn. apply elem_of_app. right. apply list_elem_of_In, in_flat_map. exists (p, x). split.
      + apply list_elem_of_In. by apply elem_of_map_to_list.
      + unfold hangs_up. cbn. rewrite bool_decide_false by done. by left. }
  assert (Hlast : forall n0 v0 k0, v_calls v0 !! i = Some k0 -> k_room k0 = InChannel g c -> k_peers k0 = k_peers k ->
    let '(v', n') := keep_room cfg env i g c (v0, n0) in
  exists k', v_calls v' !! i = Some k' /\ k_room k' = InChannel g c /\
    k_speak k' = opt_get false (rights n' (now env) g c (me n')) /\
    (forall p x', k_peers k' !! p = Some x' <-> p ∈ in_room cfg env n' g c /\
       exists x, k_peers k !! p = Some x /\ x' = with_heard_ (opt_get false (rights n' (now env) g c p)) x) /\
    (forall p x, k_peers k !! p = Some x -> p ∉ in_room cfg env n' g c -> Hangs (q_conn x) "left" ∈ v_out v') /\
    (forall conn p bytes, k_readers k' !! conn = Some p -> rights n' (now env) g c p <> Some true ->
       v_calls (datagram i conn bytes v') = v_calls v')).
  { clear Hk Hl Hr. intros n0 v0 k0 Hk0 Hr0 Hp0. specialize (Hkeep v0 n0 k0 Hk0 Hr0). destruct (keep_room _ _ _ _ _ _) as [v' n'].
    destruct Hkeep as (-> & k' & A & B & D & E & G). rewrite Hp0 in E, G. exists k'. split; [done|]. split; [congruence|].
    do 3 (split; [done|]). intros conn p bytes Hd Hno. cbn. apply list_eq. intros j.
    destruct (decide (i = j)) as [<-|Hn]; [|by rewrite list_lookup_alter_ne]. rewrite list_lookup_alter_eq, A. cbn.
    rewrite Hd. destruct (Packet.Packet_decode bytes); [|done]. destruct (k_peers k' !! p) as [x'|] eqn:Ex; [|done].
    apply E in Ex as (_ & x & _ & ->). unfold with_heard_. cbn. by destruct (rights n0 (now env) g c p) as [[]|]. }
  destruct (_ <=? _); [|by eapply Hlast]. apply Hlast with (k0 := with_beat ms k); try done.
  cbn. by rewrite list_lookup_alter_eq, Hk.
Qed.

(** Said to be in the channel no longer ago than presence counts. *)
Definition lately_in (cfg : Config) (env : Env) (n : Inner) (g : PublicKey) (c : string) (p : PublicKey) : Prop :=
  exists room at_, n_voice n !! (g, c) = Some room /\ room !! p = Some at_ /\ sat_sub (instant env) at_ <= presence_window cfg.
Lemma in_room_spec cfg env n g c p : p ∈ in_room cfg env n g c <-> lately_in cfg env n g c p.
Proof.
  unfold in_room, voice_participants, since, lately_in. rewrite elem_of_list_to_set, list_elem_of_fmap. split.
  - intros ([q at_] & -> & [Hin Hle]%filter_elem). cbn. apply elem_of_map_to_list in Hin. apply Z.leb_le in Hle.
    destruct (n_voice n !! (g, c)) as [room|] eqn:E; cbn in Hin; [|by rewrite lookup_empty in Hin]. by exists room, at_.
  - intros (room & at_ & E & Hin & Hle). exists (p, at_). split; [done|]. apply filter_elem. rewrite E. cbn.
    split; [by apply elem_of_map_to_list|by apply Z.leb_le].
Qed.
(** C14. Every second a channel's call is brought in line: of its people exactly
    those stay who were said to be in the channel lately - nothing else of them
    is asked, not even that they are still members - and the rest are hung up on;
    each is heard exactly if they may speak there at that moment, so a mute or a
    ban mid-call silences; the person's own voice is sent only if they may speak;
    and from one who is not heard no datagram is kept. *)
Theorem heard_by_right cfg env ms i k g c v n :
  v_calls v !! i = Some k -> k_loops k = true -> k_room k = InChannel g c ->
  let '(v', n') := upkeep cfg env ms i (v, n) in
  exists k', v_calls v' !! i = Some k' /\ k_room k' = k_room k /\
    k_speak k' = opt_get false (rights n' (now env) g c (me n')) /\
    (forall p x', k_peers k' !! p = Some x' <-> lately_in cfg env n' g c p /\
       exists x, k_peers k !! p = Some x /\ x' = with_heard_ (opt_get false (rights n' (now env) g c p)) x) /\
    (forall p x, k_peers k !! p = Some x -> ~ lately_in cfg env n' g c p -> Hangs (q_conn x) "left" ∈ v_out v') /\
    (forall conn p bytes, k_readers k' !! conn = Some p -> rights n' (now env) g c p <> Some true ->
       v_calls (datagram i conn bytes v') = v_calls v').
Proof.
  intros Hk Hl Hr. pose proof (upkeep_right cfg env ms i k g c v n Hk Hl Hr) as H.
  destruct (upkeep cfg env ms i (v, n)) as [v' n']. destruct H as (k' & Hk' & Hr' & Hs' & Hp' & Hh' & Hd').
  exists k'. do 3 (split; [done|]). split; [|split; [|done]].
  - intros p x'. by rewrite Hp', in_room_spec.
  - intros p x Hp Hn. apply (Hh' p x Hp). by rewrite in_room_spec.
Qed.

(** ** The tick *)
(** Is anything to be sent of the frame [f]? *)
Definition speaks (cfg : Config) (ms : Z) (k : Call) (f : list f32) : bool :=
  (if k_ptt k then k_key k else loud cfg f || recent ms (k_spoke k)) && negb (k_muted k) && k_speak k.
Lemma tick_out_sent cfg ms f k o : 0 < HANGOVER -> o ∈ (tick_out cfg ms f k).2 <->
  speaks cfg ms k f = true /\ exists opus p x, (Enc_encode (k_enc k) f).2 = Some opus /\ k_peers k !! p = Some x /\
    o = Datagram (q_conn x) (Packet.Packet_encode (Packet.Build_Packet (k_seq k) (loud cfg f) opus)).
Proof.
  intros Hh. unfold tick_out, speaks. cbn zeta.
  assert (recent ms (if loud cfg f then Some ms else k_spoke k) = loud cfg f || recent ms (k_spoke k)) as ->.
  { destruct (loud cfg f); [|done]. unfold recent. cbn. rewrite Z.sub_diag. by apply Z.ltb_lt. }
  destruct (_ && k_speak k) eqn:E; cbn [snd].
  2: { rewrite list_elem_of_In. cbn. naive_solver. }
  destruct (Enc_encode (k_enc k) f) as [enc [opus|]]; cbn [snd].
  - rewrite list_elem_of_In, in_map_iff. split.
    + intros ([p x] & <- & Hin). split; [done|]. exists opus, p, x. split; [done|]. split; [|done].
      by apply elem_of_map_to_list, list_elem_of_In.
    + intros (_ & o' & p & x & [= <-] & Hp & ->). exists (p, x). split; [done|]. by apply list_elem_of_In, elem_of_map_to_list.
  - rewrite list_elem_of_In. cbn. split; [done|]. by intros (_ & opus & p & x & ? & _).
Qed.
Lemma mixed_length {A} (g : A -> option (list f32)) l m :
  length (foldl (fun mix x => match g x with Some f => mix_in mix f | None => mix end) m l) = length m.
Proof. revert m. induction l as [|a l IH]; intros m; [done|]. cbn. rewrite IH. destruct (g a); [apply mix_in_length|done]. Qed.
Lemma limited_between l : Forall (between (SFopp one32) one32) (limited l).
Proof. apply Forall_map, Forall_true. intros x. by apply clamp_between. Qed.
Lemma silenced (l : list f32) : limited (map (fun _ => S754_zero false) l) = replicate (length l) (S754_zero false).
Proof. induction l as [|x l IH]; [done|]. unfold limited in *. cbn [map length replicate]. by rewrite IH. Qed.
Lemma tick_in_mix cfg ms k : let mix : list f32 := (tick_in cfg ms k).2 in
  length mix = Z.to_nat FRAME /\ Forall (between (SFopp one32) one32) mix /\ (k_deafened k = true -> mix = silence).
Proof.
  unfold tick_in. cbn [snd]. set (m := foldl _ _ _). assert (Hm : length m = Z.to_nat FRAME) by apply mixed_length.
  clearbody m. split; [|split; [apply limited_between|]].
  - unfold limited. rewrite length_map. by destruct (k_deafened k); rewrite ?length_map.
  - intros ->. rewrite silenced. unfold silence. by rewrite Hm.
Qed.

(** C15. Every twenty milliseconds of a call, the person's frame goes out as one
    datagram to each peer - of the call, as they are then - exactly if it is to
    be heard: the talk key is down, or with voice activation it is loud or was
    three hundred milliseconds ago; not muted; and with the right to speak.  And
    one frame is played, a whole one, no sample of it beyond full scale, and
    silence if deafened. *)
Theorem tick_right cfg ms i k frame v : v_calls v !! i = Some k -> k_loops k = true ->
  exists sent mix, v_out (tick cfg ms i frame v) = v_out v ++ sent ++ [Plays mix] /\
    (forall o, o ∈ sent <-> exists f opus p x, frame = Some f /\ speaks cfg ms k f = true /\
       (Enc_encode (k_enc k) f).2 = Some opus /\ k_peers k !! p = Some x /\
       o = Datagram (q_conn x) (Packet.Packet_encode (Packet.Build_Packet (k_seq k) (loud cfg f) opus))) /\
    Z.of_nat (length mix) = FRAME /\ Forall (between (SFopp one32) one32) mix /\
    (k_deafened k = true -> mix = silence).
Proof.
  intros Hk Hl. unfold tick. rewrite Hk, Hl.
  set (r := match frame with Some f => tick_out cfg ms f k | None => (k, []) end).
  assert (Hd : k_deafened r.1 = k_deafened k).
  { unfold r. destruct frame as [f|]; [|done]. unfold tick_out. destruct (_ && k_speak k); [|done].
    by destruct (Enc_encode _ _) as [e []]. }
  destruct r as [k1 sent] eqn:Er. unfold r in Er. cbn [fst] in Hd.
  pose proof (tick_in_mix cfg ms k1) as Hm. destruct (tick_in cfg ms k1) as [k2 mix]. cbn [snd] in Hm.
  destruct Hm as (Hn & Hb & Hs). exists sent, mix. split; [done|]. split; [|split; [by rewrite Hn|]].
  - intros o. destruct frame as [f|].
    + pose proof (tick_out_sent cfg ms f k o ltac:(done)) as Ho. rewrite Er in Ho. cbn [snd] in Ho. rewrite Ho. naive_solver.
    + injection Er as <- <-. rewrite list_elem_of_In. cbn. naive_solver.
  - split; [done|]. rewrite <- Hd. done.
Qed.

(** ** Interleavings that lose a connection *)
Lemma on_call_calls i f v : v_calls (on_call i f v) !! i = f <$> v_calls v !! i.
Proof. apply list_lookup_alter_eq. Qed.
(** A connection that replaces an older one of the same person is dropped
    with it: the older one's reader, when it ends, removes whoever is under that
    name - the new connection's peer - and nothing hangs up on that one, whose
    datagrams from then on are read and thrown away. *)
Theorem replaced_is_lost cfg i k p old x conn h v dec :
  v_calls v !! i = Some k -> k_peers k !! p = Some x -> q_conn x = old -> k_readers k !! old = Some p -> conn <> old ->
  decoder_new = Some dec ->
  let v1 := add_peer cfg i p h conn v in let v2 := reader_ends i old v1 in
  (exists k1 y, v_calls v1 !! i = Some k1 /\ k_peers k1 !! p = Some y /\ q_conn y = conn) /\
  (exists k2, v_calls v2 !! i = Some k2 /\ k_peers k2 !! p = None /\ k_readers k2 !! conn = Some p /\
     (forall bytes, v_calls (datagram i conn bytes v2) = v_calls v2)) /\
  v_out v2 = v_out v ++ [Hangs old "replaced"].
Proof.
  intros Hk Hp Hx Hold Hne Hdec v1 v2.
  assert (H1 : v1 = on_call i (fun k => with_tasks (k_loops k) (<[conn := p]> (k_readers k))
     (with_peers (<[p := mkPeer conn (Jitter.new (cf_delay cfg)) dec h None]> (k_peers k)) k)) (say_out [Hangs old "replaced"] v)).
  { unfold v1, add_peer. by rewrite Hdec, Hk, Hp, Hx. }
  assert (Hk1 : v_calls v1 !! i = Some (with_tasks (k_loops k) (<[conn := p]> (k_readers k))
     (with_peers (<[p := mkPeer conn (Jitter.new (cf_delay cfg)) dec h None]> (k_peers k)) k))).
  { rewrite H1, on_call_calls. cbn. by rewrite Hk. }
  split; [eexists _, _; split; [exact Hk1|]; split; [apply lookup_insert_eq|done]|].
  assert (Hk2 : exists k2, v_calls v2 !! i = Some k2 /\ k_peers k2 !! p = None /\ k_readers k2 !! conn = Some p).
  { unfold v2, reader_ends. rewrite on_call_calls, Hk1. cbn.
    rewrite lookup_insert_ne, Hold by done. eexists. split; [reflexivity|]. cbn. split; [apply lookup_delete_eq|].
    rewrite lookup_delete_ne by done. apply lookup_insert_eq. }
  split; [|transitivity (v_out v1); [done|by rewrite H1]]. destruct Hk2 as (k2 & A & B & D). exists k2. do 3 (split; [done|]). intros bytes.
  apply list_eq. intros j. destruct (decide (i = j)) as [<-|Hn].
  - unfold datagram. rewrite on_call_calls, A. cbn. rewrite D. destruct (Packet.Packet_decode bytes); [|done]. by rewrite B.
  - cbn. by rewrite list_lookup_alter_ne.
Qed.

Lemma stopped_is_still cfg env ms frame i k v n : v_calls v !! i = Some k -> k_loops k = false ->
  upkeep cfg env ms i (v, n) = (v, n) /\ tick cfg ms i frame v = v.
Proof. intros Hk Hl. unfold upkeep, tick. by rewrite Hk, Hl. Qed.
(** A connection that was told yes just before the person left stays: the
    task that answered it adds the peer to the call that is over, hangs up on
    nobody, and that call's upkeep and tick are gone - whoever rang is in a call
    with nobody that does not end. *)
Theorem left_behind cfg env ms frame i p h conn k v n dec :
  v_calls v !! i = Some k -> Greeted i p h conn ∈ v_waits v -> decoder_new = Some dec ->
  let v1 := stop_call i "left" v in let v2 := let_in cfg ms i p h conn true v1 in
  Greeted i p h conn ∈ v_waits v1 /\
  (exists k2 x, v_calls v2 !! i = Some k2 /\ k_loops k2 = false /\ k_answered k2 = true /\
     k_peers k2 !! p = Some x /\ q_conn x = conn) /\
  v_out v2 = v_out v1 /\ upkeep cfg env ms i (v2, n) = (v2, n) /\ tick cfg ms i frame v2 = v2.
Proof.
  intros Hk Hw Hdec v1 v2.
  assert (H1 : v_calls v1 !! i = Some (with_tasks false ∅ (with_peers ∅ k))).
  { unfold v1, stop_call. rewrite Hk. cbn. by rewrite list_lookup_alter_eq, Hk. }
  assert (H2 : exists k2 x, v_calls v2 !! i = Some k2 /\ k_loops k2 = false /\ k_answered k2 = true /\
     k_peers k2 !! p = Some x /\ q_conn x = conn).
  { unfold v2, let_in, add_peer. rewrite Hdec, H1. rewrite !on_call_calls. cbn [v_calls say_out]. rewrite H1. cbn.
    eexists _, _. do 3 (split; [reflexivity|]). split; [apply lookup_insert_eq|done]. }
  split; [|split; [exact H2|split]].
  - unfold v1, stop_call. rewrite Hk. apply filter_elem. by split.
  - unfold v2, let_in, add_peer. rewrite Hdec, H1. cbn. by rewrite lookup_empty, app_nil_r.
  - destruct H2 as (k2 & x & A & B & _). by eapply stopped_is_still.
Qed.
End VoiceSpec.
