(* ===== verification/Lightning.v ===== *)
(** Paying a Lightning address (crates/hit-zap: [lib.rs], [address.rs],
    [fee.rs], [lnurl.rs] and the quotes of [zap.rs]): which hosts are this
    machine, what an address is, what its server may answer, and which
    invoices are paid.

    The address server is a function from what is asked to the pieces of its
    answer; [url], [serde] and SHA-256 are classes. *)
From S2P Require Import Prelude Text Nostr GroupEvent Zap Dm Proto Person.

#[local] Open Scope string_scope.
#[local] Open Scope Z_scope.
#[local] Open Scope list_scope.

(** ** Is it this machine? (lib.rs) *)

(** [str::rsplit_once] and [str::split(':').next()]. *)
Definition rsplit_once (c : ascii) (s : string) : option (string * string) :=
  match rev (split_on c s) with
  | last :: ((_ :: _) as rest) => Some (join_on c (rev rest), last)
  | _ => None
  end.
Definition first_part (c : ascii) (s : string) : string := hd "" (split_on c s).

(** [IpAddr::from_str]: dotted decimals without leading zeros, or eight groups
    of hexadecimals, the last two of them maybe dotted, a run of zeros maybe
    left out. *)
Definition ip_number (s : string) : option Z :=
  match s with
  | EmptyString => None
  | String c t =>
      if negb (all_bytes is_digit s) || (3 <? str_len s) || (bool_decide (c = "0"%char) && negb (str_is_empty t)) then None
      else parse_u 255 s
  end.
Definition parse_v4 (s : string) : option (list Z) :=
  match split_on "."%char s with
  | [a; b; c; d] => mapM ip_number [a; b; c; d]
  | _ => None
  end.
Definition hex_value (c : ascii) : Z :=
  if is_digit c then byte_of c - 48 else if is_upper c then byte_of c - 55 else byte_of c - 87.
Fixpoint hex_number (v : Z) (s : string) : Z :=
  match s with
  | EmptyString => v
  | String c t => hex_number (v * 16 + hex_value c) t
  end.
Definition ip_group (s : string) : option Z :=
  if str_is_empty s || (4 <? str_len s) || negb (all_bytes is_hexdigit s) then None else Some (hex_number 0 s).
(** Groups, and the last piece dotted if it may be. *)
Fixpoint ip_groups (dotted : bool) (l : list string) : option (list Z) :=
  match l with
  | [] => Some []
  | [s] =>
      match ip_group s with
      | Some g => Some [g]
      | None =>
          if dotted then
            match parse_v4 s with
            | Some [a; b; c; d] => Some [a * 256 + b; c * 256 + d]
            | _ => None
            end
          else None
      end
  | s :: t => let! g := ip_group s in let! gs := ip_groups dotted t in Some (g :: gs)
  end.
Fixpoint at_gap (s : string) : option (string * string) :=
  match s with
  | String ":" (String ":" t) => Some ("", t)
  | String c t => match at_gap t with Some (a, b) => Some (String c a, b) | None => None end
  | EmptyString => None
  end.
Definition pieces (s : string) : list string := if str_is_empty s then [] else split_on ":"%char s.
Definition parse_v6 (s : string) : option (list Z) :=
  match at_gap s with
  | None => let! gs := ip_groups true (split_on ":"%char s) in if Nat.eqb (length gs) 8 then Some gs else None
  | Some (a, b) =>
      let! head := ip_groups false (pieces a) in
      let! tail := ip_groups true (pieces b) in
      if Nat.leb (length head + length tail) 7
      then Some (head ++ replicate (8 - length head - length tail) 0 ++ tail) else None
  end.
Definition ip_loopback (s : string) : bool :=
  match parse_v4 s with
  | Some (a :: _) => a =? 127
  | _ => bool_decide (parse_v6 s = Some [0; 0; 0; 0; 0; 0; 0; 1])
  end.
(** [trim_start_matches] and [trim_end_matches] of one character. *)
Fixpoint trim_start (c : ascii) (s : string) : string :=
  match s with
  | String d t => if bool_decide (c = d) then trim_start c t else s
  | EmptyString => s
  end.
Fixpoint trim_end (c : ascii) (s : string) : string :=
  match s with
  | String d t => let t := trim_end c t in if bool_decide (c = d) && str_is_empty t then "" else String d t
  | EmptyString => s
  end.
Definition is_loopback (host : string) : bool :=
  let h := match rsplit_once ":"%char host with
           | Some (h, port) => if all_bytes is_digit port then h else host
           | None => host
           end in
  let h := trim_end "]"%char (trim_start "["%char h) in
  bool_decide (h = "localhost") || ip_loopback h.

Inductive LnError :=
| LnAddress (what : string) | LnUnreachable (host : string) | LnServer (why : string) | NotZappable
| LnAmount (sats least most : Z) | LnBadInvoice (why : string) | BadConnection | LnWallet (why : string)
| WalletTimeout | LnRelay (url why : string) | NoReceipt.
Definition MAX_HTTP_BYTES : Z := 64 * 1024.

(** ** Lightning addresses (address.rs) *)
Record LightningAddress := mkAddress { la_name : string; la_domain : string }.
#[export] Instance address_eq_dec : EqDecision LightningAddress.
Proof. solve_decision. Defined.
Definition one_of (s : string) (c : ascii) : bool := any_byte (fun d => bool_decide (c = d)) s.
Definition address_url (a : LightningAddress) : string :=
  (if is_loopback (la_domain a) then "http" else "https") +:+ "://" +:+ la_domain a +:+ "/.well-known/lnurlp/" +:+ la_name a.
Definition name_ok (name : string) : bool :=
  negb (str_is_empty name) && (str_len name <=? 64) && all_bytes (fun c => is_alphanumeric c || one_of "-_.+" c) name.
Definition domain_ok (domain : string) : bool :=
  let host := first_part ":"%char domain in
  negb (str_is_empty host) && (str_len domain <=? 253)
  && all_bytes (fun c => is_alphanumeric c || one_of "-." c) host
  && (one_of host "."%char || bool_decide (host = "localhost"))
  && (negb (one_of domain ":"%char) || is_loopback domain).
Definition address_parse (s : string) : result LnError LightningAddress :=
  let bad := LnAddress (concat_str (take 100 (chars s))) in
  match rsplit_once "@"%char (to_ascii_lowercase (trim s)) with
  | None => Err bad
  | Some (name, domain) =>
      if negb (name_ok name) || negb (domain_ok domain) then Err bad else Ok (mkAddress name domain)
  end.
Definition address_show (a : LightningAddress) : string := la_name a +:+ "@" +:+ la_domain a.

(** ** The fee (fee.rs) *)
Definition FEE_PERCENT : Z := 1.
Definition FEE_MIN_SATS : Z := 100.
Definition FEE_MEMO : string := "HIT_ENTER fee".
Definition FEE_ADDRESS : option string := Some "fee@hitenter.app".
Definition fee_for (amount_sats : Z) : Z :=
  if amount_sats <? FEE_MIN_SATS then 0 else amount_sats * FEE_PERCENT / 100.

(** ** LNURL-pay (lnurl.rs) *)
Record ParamsJson := mkParamsJson {
  pj_tag : option string; pj_callback : option string; pj_min_sendable : option Z; pj_max_sendable : option Z;
  pj_metadata : option string; pj_allows_nostr : bool; pj_nostr_pubkey : option string; pj_comment_allowed : Z;
  pj_status : option string; pj_reason : option string }.
Record InvoiceJson := mkInvoiceJson { ij_pr : option string; ij_status : option string; ij_reason : option string }.
Class LnTypes := {
  Url : Type;
  url_eq_dec :: EqDecision Url;
  url_parse : string -> option Url;
  url_scheme : Url -> string;
  url_host : Url -> option string;
  append_pairs : Url -> list (string * string) -> Url;
  params_json : list Z -> option ParamsJson;
  invoice_json : list Z -> option InvoiceJson;
}.

Section Lightning.
Context {N : NostrTypes} {O : NostrOps} {C : DmCrypto} {LT : LnTypes}.
(** What a server answers, in pieces; a [Broken] first is no answer. *)
Definition Web : Type := Url -> list Chunk.

Record PayParams := mkPayParams {
  pp_address : LightningAddress; pp_callback : Url; pp_min_msat : Z; pp_max_msat : Z;
  pp_nostr_pubkey : option PublicKey; pp_comment_allowed : Z; pp_metadata : string; pp_lnurl : string }.
Fixpoint http_body (host : string) (body : list Z) (answer : list Chunk) : result LnError (list Z) :=
  match answer with
  | [] => Ok body
  | Broken _ :: _ => Err (LnUnreachable host)
  | Bytes chunk :: rest =>
      let body := body ++ chunk in
      if MAX_HTTP_BYTES <? Z.of_nat (length body) then Err (LnServer "answer too large") else http_body host body rest
  end.
Definition http_get {A} (read : list Z -> option A) (web : Web) (url : Url) : result LnError A :=
  let host := opt_get "" (url_host url) in
  let? body := http_body host [] (web url) in
  ok_or (read body) (LnServer (host +:+ " did not answer with LNURL")).
Definition is_error (status : option string) : bool := bool_decide (status = Some "ERROR").
Definition callback_ok (address : LightningAddress) (callback : Url) : bool :=
  let local := is_loopback (la_domain address) in
  let here := is_some_and (url_host callback) is_loopback in
  if bool_decide (url_scheme callback = "https") then negb here || local
  else if bool_decide (url_scheme callback = "http") then local && here else false.
Definition pay_params (web : Web) (address : LightningAddress) : result LnError PayParams :=
  let? url := ok_or (url_parse (address_url address)) (LnAddress (address_show address)) in
  let? p := http_get params_json web url in
  guard negb (is_error (pj_status p)) else LnServer (opt_get "" (pj_reason p)) in
  guard bool_decide (pj_tag p = Some "payRequest") else LnServer "not a pay request" in
  let? callback := ok_or (let! c := pj_callback p in url_parse c) (LnServer "no callback") in
  guard callback_ok address callback else LnServer "callback is not https" in
  let min := opt_get 1000 (pj_min_sendable p) in
  let max := opt_get 0 (pj_max_sendable p) in
  guard negb (min =? 0) && (min <=? max) else LnServer "no amount it takes" in
  Ok (mkPayParams address callback min max
        (if pj_allows_nostr p then let! k := pj_nostr_pubkey p in pk_from_hex k else None)
        (pj_comment_allowed p) (opt_get "" (pj_metadata p)) (lnurl_encode (address_url address))).

Definition div_ceil (a b : Z) : Z := (a + b - 1) / b.
Definition outside (p : PayParams) (sats : Z) : LnError :=
  LnAmount sats (div_ceil (pp_min_msat p) 1000) (pp_max_msat p / 1000).
(** What an invoice is asked for with. *)
Definition asked_with (p : PayParams) (amount_msat : Z) (zap_request : option Event) (comment : option string) : Url :=
  append_pairs (pp_callback p)
    (("amount", show_u amount_msat)
     :: match zap_request with Some z => [("nostr", ev_as_json z); ("lnurl", pp_lnurl p)] | None => [] end
     ++ match comment with
        | Some c => if negb (str_is_empty c) && (chars_count c <=? pp_comment_allowed p) then [("comment", c)] else []
        | None => []
        end).
Definition invoice (web : Web) (p : PayParams) (amount_msat : Z) (zap_request : option Event) (comment : option string)
    : result LnError (string * Invoice) :=
  guard (pp_min_msat p <=? amount_msat) && (amount_msat <=? pp_max_msat p) else outside p (amount_msat / 1000) in
  let? r := http_get invoice_json web (asked_with p amount_msat zap_request comment) in
  guard negb (is_error (ij_status r)) else LnServer (opt_get "" (ij_reason r)) in
  let? pr := ok_or (ij_pr r) (LnServer "no invoice") in
  let? inv := ok_or (Invoice_decode pr) (LnBadInvoice "unreadable") in
  guard bool_decide (inv_currency inv = "bc") || is_loopback (la_domain (pp_address p)) else LnBadInvoice "not a mainnet invoice" in
  guard bool_decide (inv_amount_msat inv = Some amount_msat) else LnBadInvoice "wrong amount" in
  let committed := match zap_request with Some z => ev_as_json z | None => pp_metadata p end in
  guard bool_decide (inv_description_hash inv = Some (bytes_of (sha256 committed))) || opt_bool zap_request
        || negb (opt_bool (inv_description_hash inv)) else LnBadInvoice "does not commit to the metadata" in
  Ok (pr, inv).

(** ** Quotes (zap.rs) *)
Record Quote := mkQuote { qu_params : PayParams; qu_provider : PublicKey; qu_amount_sats : Z; qu_fee_sats : Z }.
(** The release build's [u64]: a sum and a product come back to it. *)
Definition add_u64 (a b : Z) : Z := (a + b) mod (U64_MAX + 1).
Definition mul64 (a b : Z) : Z := (a * b) mod (U64_MAX + 1).
Definition total_sats (q : Quote) : Z := add_u64 (qu_amount_sats q) (qu_fee_sats q).
(** [Zapper]: where fees go. *)
Definition Zapper : Type := option LightningAddress.
Definition provider_of (web : Web) (address : LightningAddress) : result LnError PublicKey :=
  let? p := pay_params web address in ok_or (pp_nostr_pubkey p) NotZappable.
Definition saturating_mul (a b : Z) : Z := Z.min (a * b) U64_MAX.
Definition quote (z : Zapper) (web : Web) (address : LightningAddress) (amount_sats : Z) : result LnError Quote :=
  let? p := pay_params web address in
  let? provider := ok_or (pp_nostr_pubkey p) NotZappable in
  let msat := saturating_mul amount_sats 1000 in
  guard negb ((amount_sats =? 0) || (msat <? pp_min_msat p) || (pp_max_msat p <? msat)) else outside p amount_sats in
  Ok (mkQuote p provider amount_sats (if opt_bool z then fee_for amount_sats else 0)).
Definition zap_invoice (web : Web) (q : Quote) (zap_request : Event) : result LnError string :=
  let? r := invoice web (qu_params q) (mul64 (qu_amount_sats q) 1000) (Some zap_request) None in Ok r.1.
Definition fee_invoice (z : Zapper) (web : Web) (fee_sats : Z) : result LnError string :=
  let? to := ok_or z (LnAddress "no fee address") in
  let? p := pay_params web to in
  let? r := invoice web p (mul64 fee_sats 1000) None (Some FEE_MEMO) in Ok r.1.
End Lightning.
