(* ===== verification/Wallet.v ===== *)
(** Paying a zap (crates/hit-zap: [relay.rs], [public.rs], [nwc.rs] and
    [zap.rs]): just enough of a Nostr relay's client, publishing to and reading
    from public relays, a wallet over NIP-47, and a zap from its quote to its
    receipt.

    A connection is what its relay says until the time allowed is up, and how
    many messages it takes before it breaks.  NIP-47's encryption and JSON, like
    [nostr]'s messages, are classes. *)
From S2P Require Import Prelude Text Nostr GroupEvent Zap Dm EventStore Binding Proto Person Node Relay Lightning.

#[local] Open Scope string_scope.
#[local] Open Scope Z_scope.
#[local] Open Scope list_scope.

(** What arrives on a socket; nothing more until the time is up at the end. *)
Inductive WsIn := WsText (t : string) | WsPing | WsGone | WsOther.
Inductive Cipher := NIP04 | NIP44V2.
Class WalletTypes {N : NostrTypes} := {
  NwcUri : Type;
  nwc_parse : string -> option NwcUri;
  nwc_relays : NwcUri -> list string;
  nwc_public_key : NwcUri -> PublicKey;
  (** The signed, encrypted request, and a response as decrypted: the wallet's
      error, or the preimage if it is a payment. *)
  pay_request : NwcUri -> Cipher -> string -> option Event;
  read_response : NwcUri -> Event -> Cipher -> option (option string * option string);
}.

Section Client.
Context {N : NostrTypes} {O : NostrOps} {RT : RelayTypes} {C : DmCrypto} {LT : LnTypes} {WT : WalletTypes}.

(** ** The relay's client (relay.rs) *)
Record Conn := mkConn {
  cn_url : string; cn_in : list WsIn; cn_takes : nat; cn_sent : list ClientMessage; cn_pending : list (string * Event) }.
Definition with_in (l : list WsIn) (c : Conn) : Conn := mkConn (cn_url c) l (cn_takes c) (cn_sent c) (cn_pending c).
Definition with_pending (l : list (string * Event)) (c : Conn) : Conn := mkConn (cn_url c) (cn_in c) (cn_takes c) (cn_sent c) l.
(** What is behind a URL, if it can be connected to in time. *)
Definition Net : Type := string -> result string (list WsIn * nat).
Definition conn_err (c : Conn) (why : string) : LnError := LnRelay (cn_url c) why.
Definition connect (net : Net) (url : string) : result LnError Conn :=
  match url_parse url with
  | None => Err (LnRelay url "not a URL")
  | Some parsed =>
      if bool_decide (url_scheme parsed = "wss")
         || bool_decide (url_scheme parsed = "ws") && is_loopback (opt_get "" (url_host parsed)) then
        match net url with
        | Ok (l, takes) => Ok (mkConn url l takes [] [])
        | Err why => Err (LnRelay url why)
        end
      else Err (LnRelay url "not a wss:// relay")
  end.
Definition send_msg (m : ClientMessage) (c : Conn) : Conn * result LnError unit :=
  match cn_takes c with
  | 0%nat => (c, Err (conn_err c "connection lost"))
  | S k => (mkConn (cn_url c) (cn_in c) k (cn_sent c ++ [m]) (cn_pending c), Ok tt)
  end.
(** [recv], one message of the socket at a time. *)
Inductive Received := Message (m : RelayMessage) | Skipped | Gone.
Definition received (i : WsIn) : Received :=
  match i with
  | WsText t => match relay_from_json t with Some m => Message m | None => Skipped end
  | WsPing | WsOther => Skipped
  | WsGone => Gone
  end.
Fixpoint await_ok (id : EventId) (url : string) (l : list WsIn) (pending : list (string * Event))
    : list WsIn * list (string * Event) * result LnError unit :=
  match l with
  | [] => ([], pending, Err (LnRelay url "no OK"))
  | i :: t =>
      match received i with
      | Gone => (t, pending, Err (LnRelay url "connection closed"))
      | Message (ROk event_id status message) =>
          if bool_decide (event_id = id) then
            (t, pending, if status then Ok tt else Err (LnRelay url ("refused: " +:+ message)))
          else await_ok id url t pending
      | Message (REvent sub e) => await_ok id url t (pending ++ [(sub, e)])
      | _ => await_ok id url t pending
      end
  end.
Definition publish_event (e : Event) (c : Conn) : Conn * result LnError unit :=
  match send_msg (CEvent e) c with
  | (c, Err err) => (c, Err err)
  | (c, Ok _) => let '(l, p, r) := await_ok (ev_id e) (cn_url c) (cn_in c) (cn_pending c) in
                 (with_in l (with_pending p c), r)
  end.
Definition subscribe (sub : string) (f : Filter) : Conn -> Conn * result LnError unit := send_msg (CReq sub [f]).
Definition close_sub (sub : string) (c : Conn) : Conn := (send_msg (CClose sub) c).1.
Fixpoint take_pending (sub : string) (l : list (string * Event)) : option (Event * list (string * Event)) :=
  match l with
  | [] => None
  | (s, e) :: t =>
      if bool_decide (s = sub) then Some (e, t)
      else let! r := take_pending sub t in Some (r.1, (s, e) :: r.2)
  end.
(** [None]: nothing came while waiting. *)
Fixpoint until_event (sub : string) (stop_at_eose : bool) (url : string) (l : list WsIn)
    : list WsIn * option (result LnError (option Event)) :=
  match l with
  | [] => ([], None)
  | i :: t =>
      match received i with
      | Gone => (t, Some (Err (LnRelay url "connection closed")))
      | Message (REvent s e) => if bool_decide (s = sub) then (t, Some (Ok (Some e))) else until_event sub stop_at_eose url t
      | Message (REose s) =>
          if bool_decide (s = sub) && stop_at_eose then (t, Some (Ok None)) else until_event sub stop_at_eose url t
      | Message (RClosed s message) =>
          if bool_decide (s = sub) then (t, Some (Err (LnRelay url ("closed: " +:+ message))))
          else until_event sub stop_at_eose url t
      | _ => until_event sub stop_at_eose url t
      end
  end.
Definition next_event (sub : string) (stop_at_eose : bool) (c : Conn) : Conn * option (result LnError (option Event)) :=
  match take_pending sub (cn_pending c) with
  | Some (e, rest) => (with_pending rest c, Some (Ok (Some e)))
  | None => let '(l, r) := until_event sub stop_at_eose (cn_url c) (cn_in c) in (with_in l c, r)
  end.

(** ** Public relays (public.rs) *)
Definition PUBLIC_RELAYS : list string := ["wss://relay.damus.io"; "wss://nos.lol"; "wss://relay.primal.net"].
Definition MAX_FETCHED : nat := 1000.
Definition publish_to (net : Net) (e : Event) (url : string) : result LnError unit :=
  let? c := connect net url in (publish_event e c).2.
Definition publish_all (net : Net) (e : Event) (relays : list string) : list (result LnError unit) :=
  map (publish_to net e) relays.
(** At most [room] more. *)
Fixpoint fetched (room : nat) (sub : string) (c : Conn) : list Event :=
  match room with
  | 0%nat => []
  | S room =>
      match next_event sub true c with
      | (c, Some (Ok (Some e))) => e :: fetched room sub c
      | _ => []
      end
  end.
Definition fetch_from (net : Net) (sub : string) (f : Filter) (url : string) : list Event :=
  match connect net url with
  | Err _ => []
  | Ok c => match subscribe sub f c with (c, Ok _) => fetched MAX_FETCHED sub c | (_, Err _) => [] end
  end.
Definition fetch_all (net : Net) (sub : string) (relays : list string) (f : Filter) : list Event :=
  flat_map (fetch_from net sub f) relays.

(** ** A wallet (nwc.rs) *)
Definition WALLET_INFO : Kind := 13194.
Definition WALLET_RESPONSE : Kind := 23195.
Definition wallet_parse (connection : string) : result LnError NwcUri := ok_or (nwc_parse (trim connection)) BadConnection.
Definition from_wallet (k : Kind) (uri : NwcUri) (limit : option Z) (tags : list (string * gset string)) : Filter :=
  mkFilter None (Some {[nwc_public_key uri]}) (Some [k]) None None None limit tags.
(** [split_whitespace]. *)
Definition words_of (s : string) : list string :=
  let fix go (l : list string) (word : string) :=
    match l with
    | [] => if str_is_empty word then [] else [word]
    | ch :: t => if is_whitespace ch then (if str_is_empty word then go t "" else word :: go t "") else go t (word +:+ ch)
    end in go (chars s) "".
Definition speaks_nip44 (info : Event) : bool :=
  existsb (fun t => match t with
                    | n :: v :: _ => bool_decide (n = "encryption") && bool_decide ("nip44_v2" ∈ words_of v)
                    | _ => false
                    end) (ev_tags info).
Definition cipher_of (uri : NwcUri) (sub : string) (c : Conn) : Conn * Cipher :=
  let '(c, info) :=
    match subscribe sub (from_wallet WALLET_INFO uri (Some 1) []) c with
    | (c, Err _) => (c, None)
    | (c, Ok _) => match next_event sub true c with
                   | (c, Some (Ok info)) => (c, info)
                   | (c, _) => (c, None)
                   end
    end in
  (close_sub sub c, if is_some_and info speaks_nip44 then NIP44V2 else NIP04).
(** [None]: no fuel left. *)
Fixpoint await_response (fuel : nat) (uri : NwcUri) (k : Cipher) (sub : string) (c : Conn)
    : option (Conn * result LnError (option string * option string)) :=
  match fuel with
  | 0%nat => None
  | S fuel =>
      match next_event sub false c with
      | (c, None) => Some (c, Err WalletTimeout)
      | (c, Some (Err e)) => Some (c, Err e)
      | (c, Some (Ok None)) => await_response fuel uri k sub c
      | (c, Some (Ok (Some e))) =>
          match read_response uri e k with
          | Some r => Some (c, Ok r)
          | None => await_response fuel uri k sub c
          end
      end
  end.
(** What has come and may still. *)
Definition to_read (c : Conn) : nat := length (cn_pending c) + length (cn_in c).
Definition pay_on (uri : NwcUri) (subs : string * string) (bolt11 : string) (c : Conn) : Conn * result LnError string :=
  let '(c, k) := cipher_of uri subs.1 c in
  match pay_request uri k bolt11 with
  | None => (c, Err BadConnection)
  | Some request =>
      match subscribe subs.2 (from_wallet WALLET_RESPONSE uri None [("e", {[id_to_hex (ev_id request)]})]) c with
      | (c, Err e) => (c, Err e)
      | (c, Ok _) =>
          match publish_event request c with
          | (c, Err e) => (c, Err e)
          | (c, Ok _) =>
              match await_response (S (to_read c)) uri k subs.2 c with
              | None => (c, Err WalletTimeout)
              | Some (c, Err e) => (c, Err e)
              | Some (c, Ok (error, preimage)) =>
                  (close_sub subs.2 c,
                   match error, preimage with
                   | Some message, _ => Err (LnWallet message)
                   | None, Some p => Ok p
                   | None, None => Err (LnWallet "an answer that is not a payment")
                   end)
              end
          end
      end
  end.
(** The first relay that connects is the one used: the connection it was on,
    and what came of it. *)
Fixpoint pay_by (net : Net) (uri : NwcUri) (subs : string * string) (bolt11 : string) (last : LnError) (urls : list string)
    : option Conn * result LnError string :=
  match urls with
  | [] => (None, Err last)
  | url :: t =>
      match connect net url with
      | Err e => pay_by net uri subs bolt11 e t
      | Ok c => let '(c, r) := pay_on uri subs bolt11 c in (Some c, r)
      end
  end.
Definition pay (net : Net) (uri : NwcUri) (subs : string * string) (bolt11 : string) : option Conn * result LnError string :=
  pay_by net uri subs bolt11 (LnRelay "" "no relay") (nwc_relays uri).

(** ** A zap, start to finish (zap.rs) *)
Definition relays_of (zap_request : Event) : list string :=
  opt_get [] (find_map (fun t => match t with
                                 | n :: rest => if bool_decide (n = "relays") then Some rest else None
                                 | [] => None
                                 end) (ev_tags zap_request)).
(** The relays, by their place in the list, that took a receipt subscription. *)
Definition receipt_filter (request : Event) (provider recipient : PublicKey) (target : EventId) : Filter :=
  mkFilter None (Some {[provider]}) (Some [ZAP_RECEIPT]) None
    (Some (sat_sub (ev_created_at request) 600)) None None
    [("p", {[pk_to_hex recipient]}); ("e", {[id_to_hex target]})].
Definition watch_open (net : Net) (sub : nat -> string) (relays : list string) (request : Event) (provider : PublicKey)
    : list nat :=
  match head (targets_of request), head (tags_public_keys (ev_tags request)) with
  | Some target, Some recipient =>
      filter_map (fun '(k, url) =>
        match connect net url with
        | Err _ => None
        | Ok c => match (subscribe (sub k) (receipt_filter request provider recipient target) c).2 with
                  | Ok _ => Some k
                  | Err _ => None
                  end
        end) (imap pair relays)
  | _, _ => []
  end.
(** What one relay's task makes of one message: the receipt, or nothing yet, or
    it is over. *)
Inductive Watched := Found (e : Event) (z : Zap) | Waits | Over.
Definition watch_one (sub : string) (request : Event) (provider : PublicKey) (i : WsIn) : Watched :=
  match received i with
  | Gone => Over
  | Message (RClosed s _) => if bool_decide (s = sub) then Over else Waits
  | Message (REvent s e) =>
      if bool_decide (s = sub) then
        match check_receipt e with
        | Ok z => if bool_decide (z_request z = ev_id request) && bool_decide (z_provider z = provider)
                  then Found e z else Waits
        | Err _ => Waits
        end
      else Waits
  | _ => Waits
  end.
(** [Watch::wait]: messages in the order they came, from which relay, until the
    time is up; the first receipt wins. *)
Fixpoint watch_wait (sub : nat -> string) (request : Event) (provider : PublicKey) (live : list nat)
    (came : list (nat * WsIn)) : option (Event * Zap) :=
  match came with
  | [] => None
  | (k, i) :: t =>
      if bool_decide (k ∈ live) then
        match watch_one (sub k) request provider i with
        | Found e z => Some (e, z)
        | Waits => watch_wait sub request provider live t
        | Over => watch_wait sub request provider (List.filter (fun j => negb (Nat.eqb j k)) live) t
        end
      else watch_wait sub request provider live t
  end.
Definition await_receipt (net : Net) (sub : nat -> string) (came : list (nat * WsIn)) (request : Event)
    (provider : PublicKey) : option (Event * Zap) :=
  watch_wait sub request provider (watch_open net sub (relays_of request) request provider) came.

(** A moment: what servers and relays answer then. *)
Record World := mkWorld { w_web : Web; w_net : Net; w_subs : string * string }.
Inductive Fee := NoFee | FeePaid | FeeFailed (why : LnError).
Record Zapped := mkZapped { za_preimage : string; za_receipt : option (Event * Zap); za_fee : Fee }.
Definition pay_fee (z : Zapper) (w : World) (wallet : NwcUri) (fee_sats : Z) : option Conn * result LnError string :=
  match fee_invoice z (w_web w) fee_sats with
  | Err e => (None, Err e)
  | Ok pr => pay (w_net w) wallet (w_subs w) pr
  end.
(** Once, and once more later; and the connections used. *)
Definition spawn_fee (z : Zapper) (now later : World) (wallet : NwcUri) (fee_sats : Z) : list Conn * Fee :=
  if (fee_sats =? 0) || negb (opt_bool z) then ([], NoFee)
  else
    match pay_fee z now wallet fee_sats with
    | (c, Ok _) => (option_list c, FeePaid)
    | (c, Err _) =>
        match pay_fee z later wallet fee_sats with
        | (c', Ok _) => (option_list c ++ option_list c', FeePaid)
        | (c', Err e) => (option_list c ++ option_list c', FeeFailed e)
        end
    end.
(** The moments of the invoice and the zap, and of the fee's two tries; what
    came on the receipt's relays. *)
Record Moments := mkMoments { mo_zap : World; mo_fee : World; mo_retry : World; mo_sub : nat -> string; mo_came : list (nat * WsIn) }.
Definition send_zap (z : Zapper) (m : Moments) (wallet : NwcUri) (q : Quote) (zap_request : Event)
    : list Conn * result LnError Zapped :=
  match zap_invoice (w_web (mo_zap m)) q zap_request with
  | Err e => ([], Err e)
  | Ok bolt11 =>
      match pay (w_net (mo_zap m)) wallet (w_subs (mo_zap m)) bolt11 with
      | (c, Err e) => (option_list c, Err e)
      | (c, Ok preimage) =>
          let '(cs, fee) := spawn_fee z (mo_fee m) (mo_retry m) wallet (qu_fee_sats q) in
          (option_list c ++ cs,
           Ok (mkZapped preimage (await_receipt (w_net (mo_zap m)) (mo_sub m) (mo_came m) zap_request (qu_provider q)) fee))
      end
  end.
End Client.
