(* ===== verification/WalletSpec.v ===== *)
(** What a zap costs and what is paid: a quote within what the address takes,
    invoices for exactly what was asked, one payment asked of the wallet for the
    zap and at most two for the fee, and a receipt only if it is one. *)
From S2P Require Import Prelude Text Nostr GroupEvent Zap Dm EventStore Binding Proto Person Node Relay Lightning Wallet.

#[local] Open Scope Z_scope.

Section WalletSpec.
Context {N : NostrTypes} {O : NostrOps} {RT : RelayTypes} {C : DmCrypto} {LT : LnTypes} {WT : WalletTypes}.

(** ** Invoices and quotes *)
Definition priced (bolt11 : string) (msat : Z) : Prop :=
  exists inv, Invoice_decode bolt11 = Some inv /\ inv_amount_msat inv = Some msat.
Lemma invoice_checked web p msat zap comment pr inv : invoice web p msat zap comment = Ok (pr, inv) ->
  pp_min_msat p <= msat <= pp_max_msat p /\ Invoice_decode pr = Some inv /\ inv_amount_msat inv = Some msat /\
  (inv_currency inv = "bc"%string \/ is_loopback (la_domain (pp_address p)) = true) /\
  (zap = None -> inv_description_hash inv = Some (bytes_of (sha256 (pp_metadata p))) \/ inv_description_hash inv = None).
Proof.
  unfold invoice. destruct (_ && _) eqn:E1; [|done]. destruct (http_get _ _ _) as [r|]; [|done]. cbn.
  destruct (is_error _); [done|]. cbn. destruct (ij_pr r) as [pr'|]; [|done]. cbn.
  destruct (Invoice_decode pr') as [inv'|] eqn:E2; [|done]. cbn. destruct (_ || is_loopback _) eqn:E3; [|done].
  destruct (bool_decide (inv_amount_msat inv' = _)) eqn:E4; [|done]. apply bool_decide_eq_true in E4.
  destruct (_ || negb _) eqn:E5; [|done]. intros [= <- <-].
  apply andb_true_iff in E1 as [?%Z.leb_le ?%Z.leb_le]. split; [done|]. split; [done|]. split; [done|]. split.
  - apply orb_true_iff in E3 as [E3%bool_decide_eq_true|]; auto.
  - intros ->. cbn in E5. rewrite orb_false_r in E5. apply orb_true_iff in E5 as [E5%bool_decide_eq_true|E5]; [by left|].
    right. by destruct (inv_description_hash inv').
Qed.
Lemma zap_invoice_priced web q e pr : zap_invoice web q e = Ok pr -> priced pr (mul64 (qu_amount_sats q) 1000).
Proof.
  unfold zap_invoice. destruct (invoice _ _ _ _ _) as [[b inv]|] eqn:E; [|done]. intros [= <-].
  apply invoice_checked in E as (_ & ? & ? & _). by exists inv.
Qed.
Lemma fee_invoice_priced z web fee pr : fee_invoice z web fee = Ok pr -> priced pr (mul64 fee 1000).
Proof.
  unfold fee_invoice. destruct z as [to|]; [|done]. cbn. destruct (pay_params web to) as [p|]; [|done]. cbn.
  destruct (invoice _ _ _ _ _) as [[b inv]|] eqn:E; [|done]. intros [= <-].
  apply invoice_checked in E as (_ & ? & ? & _). by exists inv.
Qed.
Lemma fee_for_bound amt : 0 <= amt -> 0 <= fee_for amt /\ 100 * fee_for amt <= amt.
Proof.
  intros H. unfold fee_for, FEE_MIN_SATS, FEE_PERCENT. destruct (Z.ltb_spec amt 100); [lia|]. rewrite Z.mul_1_r.
  split; [apply Z.div_pos; lia|]. pose proof (Z.mul_div_le amt 100). lia.
Qed.
(** A quote is of an address that takes zaps, for an amount it takes, more
    than nothing, and of no more than one percent on top - nothing under a
    hundred sats or without a fee address - so neither what is asked of the
    server nor the total leaves a [u64] as long as the amount's millisats fit one,
    which they do for all the bitcoin there are, and whenever the server's own
    limit is one; a quote is refused only if the server is, or takes no zaps or not that
    amount. *)
Theorem quote_fair z web address amt : 0 <= amt ->
  match quote z web address amt with
  | Ok q =>
      pay_params web address = Ok (qu_params q) /\ pp_nostr_pubkey (qu_params q) = Some (qu_provider q) /\
      qu_amount_sats q = amt /\ 0 < amt /\
      qu_fee_sats q = (if opt_bool z then fee_for amt else 0) /\ 0 <= qu_fee_sats q /\ 100 * qu_fee_sats q <= amt /\
      (pp_max_msat (qu_params q) < U64_MAX -> amt * 1000 <= U64_MAX) /\
      (amt * 1000 <= U64_MAX ->
         pp_min_msat (qu_params q) <= amt * 1000 <= pp_max_msat (qu_params q) /\ mul64 amt 1000 = amt * 1000 /\
         mul64 (qu_fee_sats q) 1000 = qu_fee_sats q * 1000 /\ total_sats q = amt + qu_fee_sats q)
  | Err e =>
      pay_params web address = Err e \/
      exists p, pay_params web address = Ok p /\
        ((pp_nostr_pubkey p = None /\ e = NotZappable) \/
         (e = outside p amt /\ (amt = 0 \/ amt * 1000 < pp_min_msat p \/ pp_max_msat p < amt * 1000 \/ U64_MAX < pp_min_msat p)))
  end.
Proof.
  intros Ha. unfold quote. destruct (pay_params web address) as [p|e] eqn:Ep; [|by left]. cbn.
  destruct (pp_nostr_pubkey p) as [k|] eqn:Ek; cbn; [|right; exists p; auto].
  unfold saturating_mul. destruct (Z.eqb_spec amt 0) as [->|Hn]; cbn; [right; exists p; split; [done|]; right; auto|].
  destruct (Z.ltb_spec (Z.min (amt * 1000) U64_MAX) (pp_min_msat p)); cbn; [right; exists p; split; [done|]; right; split; [done|]; lia|].
  destruct (Z.ltb_spec (pp_max_msat p) (Z.min (amt * 1000) U64_MAX)); cbn; [right; exists p; split; [done|]; right; split; [done|]; lia|].
  pose proof (fee_for_bound amt Ha) as Hf. do 3 (split; [done|]). split; [lia|]. split; [done|].
  assert (Hfee : 0 <= (if opt_bool z then fee_for amt else 0) /\ 100 * (if opt_bool z then fee_for amt else 0) <= amt)
    by (destruct (opt_bool z); lia).
  revert Hfee. generalize (if opt_bool z then fee_for amt else 0). intros fee Hfee. split; [lia|]. split; [lia|].
  split; [cbn; lia|]. intros Hm. unfold mul64, total_sats, add_u64. cbn. split; [lia|]. by rewrite !Z.mod_small by lia.
Qed.

(** ** What is asked of the wallet *)
Definition events_of (l : list ClientMessage) : list Event :=
  filter_map (fun m => match m with CEvent e => Some e | _ => None end) l.
(** One payment asked for at most, and of this invoice. *)
Definition asked_once (uri : NwcUri) (bolt11 : string) (c : Conn) : Prop :=
  events_of (cn_sent c) = [] \/ exists k e, pay_request uri k bolt11 = Some e /\ events_of (cn_sent c) = [e].
Definition still_sent (c c' : Conn) : Prop := events_of (cn_sent c') = events_of (cn_sent c).
Lemma filter_map_snoc {A B} (f : A -> option B) l x : filter_map f (l ++ [x]) = filter_map f l ++ filter_map f [x].
Proof. apply omap_app. Qed.
Lemma send_other m c : events_of [m] = [] -> still_sent c (send_msg m c).1.
Proof.
  intros Hm. unfold still_sent, send_msg. destruct (cn_takes c); [done|]. cbn. unfold events_of in *.
  by rewrite filter_map_snoc, Hm, app_nil_r.
Qed.
Lemma publish_sends e c : events_of (cn_sent (publish_event e c).1) = events_of (cn_sent c) \/
  events_of (cn_sent (publish_event e c).1) = events_of (cn_sent c) ++ [e].
Proof.
  unfold publish_event, send_msg. destruct (cn_takes c) as [|k]; [by left|].
  destruct (await_ok _ _ _ _) as [[l p] r]. right. unfold events_of. cbn [fst cn_sent with_in with_pending]. by rewrite filter_map_snoc.
Qed.
Lemma next_sends sub stop c : cn_sent (next_event sub stop c).1 = cn_sent c.
Proof. unfold next_event. destruct (take_pending _ _) as [[e l]|]; [done|]. by destruct (until_event _ _ _ _). Qed.
Lemma cipher_sends uri sub c : still_sent c (cipher_of uri sub c).1.
Proof.
  unfold cipher_of, still_sent. pose proof (send_other (CReq sub [from_wallet WALLET_INFO uri (Some 1) []]) c eq_refl) as H.
  unfold subscribe. destruct (send_msg _ c) as [c1 [u|e]]; cbn in H.
  - pose proof (next_sends sub true c1) as Hn. destruct (next_event sub true c1) as [c2 r]. cbn in Hn.
    assert (Hc : forall i : option Event, events_of (cn_sent (close_sub sub c2)) = events_of (cn_sent c)).
    { intros _. unfold close_sub. rewrite (send_other (CClose sub) c2 eq_refl), Hn. exact H. }
    destruct r as [[[i|]|]|]; cbn [fst]; by apply (Hc None).
  - cbn. unfold close_sub. rewrite (send_other (CClose sub) c1 eq_refl). exact H.
Qed.
Lemma response_sends fuel uri k sub : forall c c' r, await_response fuel uri k sub c = Some (c', r) -> cn_sent c' = cn_sent c.
Proof.
  induction fuel as [|fuel IH]; intros c c' r; [done|]. cbn. pose proof (next_sends sub false c) as Hn.
  destruct (next_event sub false c) as [c1 [[[e|]|]|]]; cbn in Hn.
  - destruct (read_response uri e k); [by intros [= <- <-]|]. intros H%IH. congruence.
  - intros H%IH. congruence.
  - by intros [= <- <-].
  - by intros [= <- <-].
Qed.
Lemma pay_on_asks uri subs b c : cn_sent c = [] -> asked_once uri b (pay_on uri subs b c).1.
Proof.
  intros Hc. unfold pay_on. pose proof (cipher_sends uri subs.1 c) as H1. destruct (cipher_of uri subs.1 c) as [c1 k].
  cbn in H1. unfold still_sent in H1. rewrite Hc in H1. cbn in H1. destruct (pay_request uri k b) as [rq|] eqn:Er; [|by left].
  set (f := from_wallet _ _ _ _). pose proof (send_other (CReq subs.2 [f]) c1 eq_refl) as H2. unfold subscribe.
  destruct (send_msg _ c1) as [c2 [u|e]]; cbn in H2; unfold still_sent in H2; rewrite H1 in H2; [|by left].
  pose proof (publish_sends rq c2) as H3. rewrite H2 in H3. destruct (publish_event rq c2) as [c3 r3]. cbn in H3.
  assert (H4 : asked_once uri b c3) by (destruct H3 as [H3|H3]; [by left|right; eauto]).
  destruct r3 as [u3|]; [|done]. destruct (await_response _ _ _ _ _) as [[c4 r4]|] eqn:E4; [|done].
  apply response_sends in E4. assert (H5 : asked_once uri b c4) by (unfold asked_once in *; by rewrite E4).
  destruct r4 as [[error preimage]|]; [|done]. cbn [fst]. unfold asked_once, close_sub in *.
  by rewrite (send_other (CClose subs.2) c4 eq_refl).
Qed.
Lemma connect_fresh net url c : connect net url = Ok c -> cn_sent c = [].
Proof.
  unfold connect. destruct (url_parse url); [|done]. destruct (_ || _); [|done]. destruct (net url) as [[l t]|]; [|done].
  by intros [= <-].
Qed.
Lemma pay_asks net uri subs b : forall c, (pay net uri subs b).1 = Some c -> asked_once uri b c.
Proof.
  unfold pay. generalize (LnRelay "" "no relay"). induction (nwc_relays uri) as [|url t IH]; intros last c; [done|]. cbn.
  destruct (connect net url) as [c0|e] eqn:Ec; [|apply IH]. pose proof (pay_on_asks uri subs b c0 (connect_fresh _ _ _ Ec)) as H.
  destruct (pay_on uri subs b c0). by intros [= <-].
Qed.
Lemma spawn_fee_asks z now later uri fee cs r : spawn_fee z now later uri fee = (cs, r) ->
  (length cs <= 2)%nat /\ (fee = 0 -> cs = []) /\
  forall c, c ∈ cs -> exists b, priced b (mul64 fee 1000) /\ asked_once uri b c.
Proof.
  assert (Hone : forall w c o, pay_fee z w uri fee = (c, o) -> (length (option_list c) <= 1)%nat /\
    forall x, x ∈ option_list c -> exists b, priced b (mul64 fee 1000) /\ asked_once uri b x).
  { intros w c o. unfold pay_fee. destruct (fee_invoice z (w_web w) fee) as [pr|] eqn:Ef.
    - pose proof (pay_asks (w_net w) uri (w_subs w) pr) as Hp. intros E. rewrite E in Hp. cbn in Hp.
      split; [by destruct c; cbn; lia|]. intros x Hx. destruct c as [c|]; [|by apply elem_of_nil in Hx].
      apply list_elem_of_singleton in Hx as ->. exists pr. split; [by eapply fee_invoice_priced|by apply Hp].
    - intros [= <- <-]. split; [cbn; lia|]. by intros x []%elem_of_nil. }
  unfold spawn_fee. destruct (Z.eqb_spec fee 0) as [->|Hn]; [intros [= <- <-]|]; cbn [orb].
  { split; [cbn; lia|]. split; [done|]. by intros c []%elem_of_nil. }
  destruct (negb _); [intros [= <- <-]; split; [cbn; lia|]; split; [done|]; by intros c []%elem_of_nil|].
  destruct (pay_fee z now uri fee) as [c o] eqn:E1. destruct (Hone _ _ _ E1) as [L1 P1].
  destruct o as [|e]; [intros [= <- <-]; split; [lia|]; split; [done|exact P1]|].
  destruct (pay_fee z later uri fee) as [c' o'] eqn:E2. destruct (Hone _ _ _ E2) as [L2 P2].
  assert (Hb : (length (option_list c ++ option_list c') <= 2)%nat) by (rewrite length_app; lia).
  assert (Hp : forall x, x ∈ option_list c ++ option_list c' -> exists b, priced b (mul64 fee 1000) /\ asked_once uri b x).
  { intros x [Hx|Hx]%elem_of_app; auto. }
  destruct o'; intros [= <- <-]; (split; [exact Hb|]; split; [done|exact Hp]).
Qed.

(** ** Receipts *)
Lemma watch_sound sub request provider : forall came live e z,
  watch_wait sub request provider live came = Some (e, z) ->
  check_receipt e = Ok z /\ z_request z = ev_id request /\ z_provider z = provider.
Proof.
  induction came as [|[k i] t IH]; intros live e z; [done|]. cbn. case_bool_decide; [|apply IH].
  unfold watch_one. destruct (received i) as [m| |]; [|apply IH|apply IH].
  destruct m as [s ev| | |s msg| | | | |]; try apply IH.
  - case_bool_decide; [|apply IH]. destruct (check_receipt ev) as [z'|] eqn:Ec; [|apply IH].
    destruct (bool_decide (z_request z' = _)) eqn:E1; [|apply IH]. destruct (bool_decide (z_provider z' = _)) eqn:E2; [|apply IH].
    cbn. intros [= <- <-]. apply bool_decide_eq_true in E1, E2. done.
  - case_bool_decide; apply IH.
Qed.

(** C28. For an amount whose millisats fit a [u64] - 18 million million
    millions of them, more than all bitcoin there will be - a zap asks the wallet
    for one payment at most, of an invoice for exactly the sats quoted, and - only once that is paid - for one of the fee quoted,
    tried twice at most; with no fee owed, none.  If it says the zap was not
    paid no fee was asked for, and the receipt it shows is a receipt of this
    request by the quoted address's provider. *)
Theorem paid_as_quoted z web address amt q m wallet request cs r :
  0 <= amt -> amt * 1000 <= U64_MAX -> quote z web address amt = Ok q ->
  send_zap z m wallet q request = (cs, r) ->
  exists zap fee, cs = zap ++ fee /\ (length zap <= 1)%nat /\ (length fee <= 2)%nat /\
    (forall c, c ∈ zap -> exists b, priced b (amt * 1000) /\ asked_once wallet b c) /\
    (forall c, c ∈ fee -> exists b, priced b (qu_fee_sats q * 1000) /\ asked_once wallet b c) /\
    (qu_fee_sats q = 0 -> fee = []) /\
    match r with
    | Err _ => fee = []
    | Ok paid => forall e rc, za_receipt paid = Some (e, rc) ->
        check_receipt e = Ok rc /\ z_request rc = ev_id request /\ z_provider rc = qu_provider q
    end.
Proof.
  intros Ha Hmax Hq Hs. pose proof (quote_fair z web address amt Ha) as H. rewrite Hq in H.
  destruct H as (_ & _ & Hamt & _ & _ & _ & _ & _ & H). destruct (H Hmax) as (_ & Hm & Hf & _). clear H.
  unfold send_zap in Hs. destruct (zap_invoice _ q request) as [b|e] eqn:Ei.
  2: { injection Hs as <- <-. exists [], []. repeat split; cbn; try lia; by intros c []%elem_of_nil. }
  apply zap_invoice_priced in Ei. rewrite Hamt, Hm in Ei.
  pose proof (pay_asks (w_net (mo_zap m)) wallet (w_subs (mo_zap m)) b) as Hp.
  destruct (pay _ _ _ _) as [c o]. cbn in Hp.
  assert (Hz : (length (option_list c) <= 1)%nat /\ forall x, x ∈ option_list c -> exists b, priced b (amt * 1000) /\ asked_once wallet b x).
  { destruct c as [c|]; cbn; [|split; [lia|by intros x []%elem_of_nil]]. split; [lia|].
    intros x ->%list_elem_of_singleton. exists b. split; [done|by apply Hp]. }
  destruct Hz as [Hl Hz]. destruct o as [preimage|e].
  - destruct (spawn_fee _ _ _ _ _) as [fs f] eqn:Ef. injection Hs as <- <-.
    destruct (spawn_fee_asks _ _ _ _ _ _ _ Ef) as (L & Z0 & Hfee). rewrite Hf in Hfee.
    exists (option_list c), fs. do 6 (split; [done|]). intros e rc. cbn. apply watch_sound.
  - injection Hs as <- <-. exists (option_list c), []. rewrite app_nil_r. do 2 (split; [done|]). split; [cbn; lia|].
    split; [done|]. split; [by intros x []%elem_of_nil|done].
Qed.

(** ** Waiting for the wallet *)
Lemma take_pending_shorter sub l e rest : take_pending sub l = Some (e, rest) -> (length rest < length l)%nat.
Proof.
  revert e rest. induction l as [|[s x] l IH]; intros e rest; [done|]. cbn. case_bool_decide; [intros [= <- <-]; lia|].
  destruct (take_pending sub l) as [[y r]|] eqn:E; [|done]. cbn. intros [= <- <-]. specialize (IH y r eq_refl). cbn. lia.
Qed.
Lemma until_shorter sub stop url l l' x : until_event sub stop url l = (l', Some x) -> (length l' < length l)%nat.
Proof.
  revert l' x. induction l as [|i l IH]; intros l' x; [done|]. cbn. assert (Hr : forall l' x, until_event sub stop url l = (l', Some x) ->
    (length l' < S (length l))%nat) by (intros a b H%IH; lia).
  destruct (received i) as [m| |]; [|apply Hr|intros [= <- <-]; lia].
  destruct m as [s e| |s|s w| | | | |]; try apply Hr.
  - case_bool_decide; [intros [= <- <-]; lia|apply Hr].
  - destruct (_ && _); [intros [= <- <-]; lia|apply Hr].
  - case_bool_decide; [intros [= <- <-]; lia|apply Hr].
Qed.
Lemma next_reads sub stop c c' x : next_event sub stop c = (c', Some x) -> (to_read c' < to_read c)%nat.
Proof.
  unfold next_event, to_read. destruct (take_pending sub (cn_pending c)) as [[e rest]|] eqn:E.
  - intros [= <- <-]. apply take_pending_shorter in E. cbn. lia.
  - destruct (until_event _ _ _ _) as [l [y|]] eqn:Eu; intros [= <- <-]. apply until_shorter in Eu. cbn. lia.
Qed.
(** Waiting for the wallet's answer always ends: with its answer, with the
    relay's end, or when the time is up - the loop reads one thing more each
    turn, so what there is to read is fuel enough. *)
Theorem response_comes fuel uri k sub : forall c, (to_read c < fuel)%nat ->
  exists c' r, await_response fuel uri k sub c = Some (c', r) /\
    (forall e, r = Err e -> e = WalletTimeout \/ exists why, e = LnRelay (cn_url c') why).
Proof.
  induction fuel as [|fuel IH]; intros c H; [lia|]. cbn.
  destruct (next_event sub false c) as [c1 [x|]] eqn:En.
  2: { eexists c1, _. split; [done|]. intros e [= <-]. by left. }
  pose proof (next_reads _ _ _ _ _ En) as Hr. assert (H1 : (to_read c1 < fuel)%nat) by lia.
  destruct x as [[e|]|e].
  - destruct (read_response uri e k) as [r|]; [|by apply IH]. eexists c1, _. split; [done|]. by intros e' [=].
  - by apply IH.
  - eexists c1, _. split; [done|]. intros e' [= <-]. right.
    unfold next_event in En. destruct (take_pending _ _) as [[]|]; [done|].
    assert (Hu : forall l l', until_event sub false (cn_url c) l = (l', Some (Err e)) -> exists why, e = LnRelay (cn_url c) why).
    { induction l as [|i l IHl]; intros l'; [done|]. cbn. destruct (received i) as [m| |]; [|apply IHl|intros [= _ <-]; eauto].
      destruct m as [s ev| |s|s w| | | | |]; try apply IHl.
      - case_bool_decide; [done|apply IHl].
      - rewrite andb_false_r. apply IHl.
      - case_bool_decide; [intros [= _ <-]; eauto|apply IHl]. }
    destruct (until_event _ _ _ _) as [l y] eqn:Eu. injection En as <- ->. by eapply Hu.
Qed.
End WalletSpec.
