(* ===== verification/App.v ===== *)
(** The app over a node ([crates/hit-app-core/src/state.rs]): onboarding and
    [app.json], the node's start and stop, settings, and what each button does.

    An [App] is what the process and its data directory hold; an operation takes
    the moment it runs at - the node's clock and connections, and whether files
    can be written - and leaves the app changed and an answer.  What the window
    is shown of groups is [Views]'. *)
From Stdlib Require Import SpecFloat.
From S2P Require Import Prelude Text Nostr GroupEvent Replace Perm Zap GroupState Fold.
From S2P Require Import Binding Dm Groups EventStore Proto Person Node NodeOps NodeGroups Session Relay Sync Audio Voice Lightning Wallet.

#[local] Open Scope Z_scope.

(** [nostr]'s NIP-49 backups and [PublicKey::parse], Unicode's tables. *)
Class AppTypes {N : NostrTypes} := {
  from_encrypted : string -> option string;
  decrypt_with : string -> string -> option Keys;
  encrypt_with : Keys -> string -> option string;
  pk_parse : string -> option PublicKey;
  char_alphanumeric : string -> bool;
  str_lowercase : string -> string;
}.

Inductive AppError :=
| ANode (e : NodeError) | AKey (e : KeyError) | AIo (why : string) | ARefused (why : string).
Inductive Stage := New | Backup | Ready.
Inductive Relays := N0 | Disabled | Custom (urls : list string).

Section App.
Context {N : NostrTypes} {O : NostrOps} {T : DeviceTypes} {P : DeviceOps} {C : DmCrypto}.
Context {Y : WireTypes} {F : ProfileTypes} {NT : NodeTypes} {RT : RelayTypes} {ST : SyncTypes}.
Context {OP : Opus} {VT : VoiceTypes} {LT : LnTypes} {WT : WalletTypes} {AT : AppTypes}.
Context {K : Type} {KS : SecretStore K}.
#[local] Open Scope string_scope.
#[local] Open Scope Z_scope.
#[local] Open Scope list_scope.

(** ** State *)
Definition CONFIRM_CHARS : nat := 8.
Definition MIN_PASSWORD : Z := 8.
Definition MAX_MESSAGE_CHARS : Z := 4000.
Definition MAX_DM_CHARS : Z := 4000.
Definition PRESENT_WINDOW : Z := 75.
Definition MAX_PUBLIC_RELAYS : nat := 8.

Record NetConf := mkNetConf {
  nc_relays : Relays; nc_invite_addr : option SocketAddr; nc_peers : list EndpointId;
  nc_public_relays : option (list string) }.
Record AppFile := mkAppFile {
  af_npub : option string; af_backed_up : bool; af_audio_input : option string; af_audio_output : option string;
  af_no_echo_cancel : bool; af_public_relays : option (list string); af_inbox_off : bool; af_hide_groups : bool }.
Definition AppFile_default : AppFile := mkAppFile None false None None false None false false.
Definition with_identity (npub : string) (backed_up : bool) (f : AppFile) : AppFile :=
  mkAppFile (Some npub) backed_up (af_audio_input f) (af_audio_output f) (af_no_echo_cancel f) (af_public_relays f)
    (af_inbox_off f) (af_hide_groups f).
Definition with_audio (input output : option string) (no_echo_cancel : bool) (f : AppFile) : AppFile :=
  mkAppFile (af_npub f) (af_backed_up f) input output no_echo_cancel (af_public_relays f) (af_inbox_off f) (af_hide_groups f).
Definition with_relays (r : option (list string)) (f : AppFile) : AppFile :=
  mkAppFile (af_npub f) (af_backed_up f) (af_audio_input f) (af_audio_output f) (af_no_echo_cancel f) r
    (af_inbox_off f) (af_hide_groups f).
Definition with_choices (inbox_off hide_groups : bool) (f : AppFile) : AppFile :=
  mkAppFile (af_npub f) (af_backed_up f) (af_audio_input f) (af_audio_output f) (af_no_echo_cancel f) (af_public_relays f)
    inbox_off hide_groups.

(** [published.json]. *)
Record Sent := mkSent { se_what : string; se_relays : list string; se_at : Timestamp }.
Definition Published : Type := gmap string Sent.
(** The data directory: [app.json] if it can be read, [read.json], the
    publisher's notes, the device's key and the node's store. *)
Record Disk := mkDisk {
  dk_file : result string (option AppFile); dk_marks : result string (option (gmap string Z));
  dk_published : Published; dk_device : DeviceKey; dk_store : EventStore.Store; dk_written : gmap string string }.
Record PendingZap := mkPending { pz_request : Event; pz_provider : PublicKey; pz_fee_sats : Z }.
(** The node, its voice, and what the publisher was last woken with. *)
Record Running := mkRunning { ru_node : Inner; ru_voice : Voice; ru_publish : list string }.
Record App := mkApp {
  ap_keys : K; ap_net : NetConf; ap_disk : Disk; ap_file : AppFile; ap_running : option Running;
  ap_pending : option PendingZap; ap_list_groups : bool; ap_inbox_on : bool; ap_reading : gmap string InviteLink }.
Definition set_keys (k : K) (a : App) : App :=
  mkApp k (ap_net a) (ap_disk a) (ap_file a) (ap_running a) (ap_pending a) (ap_list_groups a) (ap_inbox_on a) (ap_reading a).
Definition set_disk (d : Disk) (a : App) : App :=
  mkApp (ap_keys a) (ap_net a) d (ap_file a) (ap_running a) (ap_pending a) (ap_list_groups a) (ap_inbox_on a) (ap_reading a).
Definition set_file (f : AppFile) (a : App) : App :=
  mkApp (ap_keys a) (ap_net a) (ap_disk a) f (ap_running a) (ap_pending a) (ap_list_groups a) (ap_inbox_on a) (ap_reading a).
Definition set_running (r : option Running) (a : App) : App :=
  mkApp (ap_keys a) (ap_net a) (ap_disk a) (ap_file a) r (ap_pending a) (ap_list_groups a) (ap_inbox_on a) (ap_reading a).
Definition set_pending (p : option PendingZap) (a : App) : App :=
  mkApp (ap_keys a) (ap_net a) (ap_disk a) (ap_file a) (ap_running a) p (ap_list_groups a) (ap_inbox_on a) (ap_reading a).
Definition set_listing (list_groups inbox_on : bool) (a : App) : App :=
  mkApp (ap_keys a) (ap_net a) (ap_disk a) (ap_file a) (ap_running a) (ap_pending a) list_groups inbox_on (ap_reading a).
Definition set_reading (r : gmap string InviteLink) (a : App) : App :=
  mkApp (ap_keys a) (ap_net a) (ap_disk a) (ap_file a) (ap_running a) (ap_pending a) (ap_list_groups a) (ap_inbox_on a) r.
Definition disk_file (f : AppFile) (d : Disk) : Disk :=
  mkDisk (Ok (Some f)) (dk_marks d) (dk_published d) (dk_device d) (dk_store d) (dk_written d).
Definition disk_marks (m : gmap string Z) (d : Disk) : Disk :=
  mkDisk (dk_file d) (Ok (Some m)) (dk_published d) (dk_device d) (dk_store d) (dk_written d).
Definition disk_published (p : Published) (d : Disk) : Disk :=
  mkDisk (dk_file d) (dk_marks d) p (dk_device d) (dk_store d) (dk_written d).
Definition disk_store (s : EventStore.Store) (d : Disk) : Disk :=
  mkDisk (dk_file d) (dk_marks d) (dk_published d) (dk_device d) s (dk_written d).
Definition disk_written (path text : string) (d : Disk) : Disk :=
  mkDisk (dk_file d) (dk_marks d) (dk_published d) (dk_device d) (dk_store d) (<[path := text]> (dk_written d)).

(** ** The monad *)
Definition AppM (X : Type) : Type := App -> App * result AppError X.
Definition a_ret {X} (x : X) : AppM X := fun a => (a, Ok x).
Definition a_fail {X} (e : AppError) : AppM X := fun a => (a, Err e).
Definition a_bind {X Z} (m : AppM X) (k : X -> AppM Z) : AppM Z :=
  fun a => let '(a, r) := m a in match r with Ok x => k x a | Err e => (a, Err e) end.
Definition app : AppM App := fun a => (a, Ok a).
Definition change (f : App -> App) : AppM unit := fun a => (f a, Ok tt).
Definition a_lift {X} (r : result AppError X) : AppM X := fun a => (a, r).
Definition refused {X} (why : string) : AppM X := a_fail (ARefused why).
Notation "'let@' x ':=' e 'in' k" := (a_bind e (fun x => k)) (at level 200, x pattern, e at level 200, k at level 200, right associativity).
Definition of_key {X} (r : result KeyError X) : AppM X :=
  match r with Ok x => a_ret x | Err e => a_fail (AKey e) end.
(** A moment: the node's, milliseconds, and whether a file can be written. *)
Record Os := mkOs { os_env : Env; os_ms : Z; os_writes : bool }.
Definition writes (os : Os) (d : Disk -> Disk) : AppM unit :=
  if os_writes os then change (fun a => set_disk (d (ap_disk a)) a) else a_fail (AIo "not written").

(** ** Onboarding *)
Definition save_file (os : Os) (next : AppFile) : AppM unit :=
  let@ _ := writes os (disk_file next) in change (set_file next).
Definition person : AppM (option Keys) :=
  let@ a := app in
  match af_npub (ap_file a) with
  | None => a_ret None
  | Some npub => of_key (person_load (ap_keys a) npub)
  end.
Definition stage (a : App) : Stage :=
  match af_npub (ap_file a), af_backed_up (ap_file a) with
  | None, _ => New
  | Some _, false => Backup
  | Some _, true => Ready
  end.
Definition lost : AppError := ARefused "the keychain no longer holds this identity's key".
Definition public_relays (a : App) : list string :=
  match nc_public_relays (ap_net a) with
  | None => []
  | Some defaults => opt_get defaults (af_public_relays (ap_file a))
  end.
Definition publishes (a : App) : bool := opt_bool (nc_public_relays (ap_net a)).
Definition add_peers (peers : list EndpointId) (n : Inner) : Inner := (for_each Sync.add_peer peers n).1.
Definition start_node (os : Os) (who : Keys) : AppM unit :=
  let@ a := app in
  match ap_running a with
  | Some _ => a_ret tt
  | None =>
      match NodeOps.start (os_env os) who (dk_device (ap_disk a)) (dk_store (ap_disk a)) with
      | Err e => a_fail (ANode e)
      | Ok n => change (set_running (Some (mkRunning (add_peers (nc_peers (ap_net a)) n) Voice_new (public_relays a))))
      end
  end.
Definition require_new : AppM unit :=
  let@ a := app in
  if opt_bool (af_npub (ap_file a)) then
    let@ p := person in
    if opt_bool p then refused "this device already has an identity" else a_ret tt
  else a_ret tt.
Definition save_person (k : Keys) : AppM unit :=
  let@ a := app in
  let@ keys := of_key (person_save k (ap_keys a)) in change (set_keys keys).
Definition create_identity (os : Os) (made : Keys) : AppM string :=
  let@ _ := require_new in
  let@ _ := save_person made in
  let@ a := app in
  let@ _ := save_file os (with_identity (key_npub made) false (ap_file a)) in
  a_ret (key_npub made).
(** [Person::from_ncryptsec] and [to_ncryptsec]. *)
Definition from_ncryptsec (s password : string) : result KeyError Keys :=
  let? e := ok_or (from_encrypted (trim s)) InvalidNcryptsec in ok_or (decrypt_with e password) WrongPassword.
Definition to_ncryptsec (k : Keys) (password : string) : result KeyError string := ok_or (encrypt_with k password) Encrypt.
Definition import_identity (os : Os) (secret : string) (password : option string) : AppM string :=
  let@ _ := require_new in
  let secret := trim secret in
  let@ who :=
    if starts_with "ncryptsec" secret then
      match password with
      | None => refused "an ncryptsec needs the password it was made with"
      | Some password => of_key (from_ncryptsec secret password)
      end
    else of_key (from_nsec secret) in
  let@ _ := save_person who in
  let@ a := app in
  let@ _ := save_file os (with_identity (key_npub who) true (ap_file a)) in
  let@ _ := start_node os who in
  a_ret (key_npub who).
Definition reveal_key : AppM string :=
  let@ a := app in
  match stage a with
  | Backup =>
      let@ p := person in
      match p with Some k => a_ret (reveal_nsec_for_backup k) | None => a_fail lost end
  | _ => refused "the key is shown only while it is being backed up"
  end.
Definition backed_up (os : Os) : AppM unit :=
  let@ a := app in
  let f := ap_file a in
  let@ _ := save_file os (mkAppFile (af_npub f) true (af_audio_input f) (af_audio_output f) (af_no_echo_cancel f)
                            (af_public_relays f) (af_inbox_off f) (af_hide_groups f)) in
  let@ p := person in
  match p with Some k => start_node os k | None => a_fail lost end.
(** The last [n] bytes. *)
Definition tail_bytes (n : nat) (s : string) : string := str_of_bytes (drop (length (bytes_of s) - n) (bytes_of s)).
Definition confirm_backup (os : Os) (tail : string) : AppM unit :=
  let@ key := reveal_key in
  if bool_decide (trim tail = tail_bytes CONFIRM_CHARS key) then backed_up os
  else refused "those are not the key's last characters".
Definition backup_to_file (os : Os) (path password : string) : AppM unit :=
  if chars_count password <? MIN_PASSWORD
  then refused ("the password needs at least " +:+ show_u MIN_PASSWORD +:+ " characters")
  else
    let@ p := person in
    match p with
    | None => a_fail lost
    | Some k =>
        let@ text := of_key (to_ncryptsec k password) in
        let@ _ := writes os (disk_written path (text +:+ String (ascii_of_Z 10) "")) in
        let@ a := app in
        match stage a with Backup => backed_up os | _ => a_ret tt end
    end.
(** Opening the data directory. *)
Definition opened (keys : K) (net : NetConf) (d : Disk) (f : AppFile) : App :=
  mkApp keys net d f None None (negb (af_hide_groups f)) (negb (af_inbox_off f)) ∅.
Definition open (os : Os) (keys : K) (net : NetConf) (d : Disk) : result AppError App :=
  match dk_file d with
  | Err why => Err (AIo why)
  | Ok f =>
      let a := opened keys net d (opt_get AppFile_default f) in
      let start := match stage a with
                   | Ready => let@ p := person in match p with Some k => start_node os k | None => a_ret tt end
                   | _ => a_ret tt
                   end in
      match start a with (a, Ok _) => Ok a | (_, Err e) => Err e end
  end.
(** The call left, the tasks stopped, the store on disk. *)
Definition shutdown (os : Os) : AppM unit :=
  let@ a := app in
  match ap_running a with
  | None => a_ret tt
  | Some r =>
      let n := if opt_bool (current (ru_voice r)) then (leave (os_env os) (ru_voice r, ru_node r)).1.2 else ru_node r in
      change (fun a => set_running None (set_disk (disk_store (n_store n) (ap_disk a)) a))
  end.
End App.
