(* ===== verification/Views.v ===== *)
(** What the window is shown ([crates/hit-app-core/src/state.rs], [browse.rs],
    [events.rs]): groups with what this person may do in each, members with what
    may be done to them, messages with their reactions and zaps, direct messages,
    and what each stored event tells the window. *)
From S2P Require Import Prelude Text Nostr GroupEvent Replace Perm Zap GroupState Fold.
From S2P Require Import Binding Dm Groups EventStore Proto Person Node NodeOps.

#[local] Open Scope Z_scope.

Record FileView := mkFileView { fv_hash : string; fv_sha256 : string; fv_size : Z; fv_mime : string; fv_name : string }.
Definition file_view (a : Attachment) : FileView := mkFileView (at_hash a) (at_sha256 a) (at_size a) (at_mime a) (at_name a).
Definition attachment (f : FileView) : Attachment := mkAttachment (fv_hash f) (fv_sha256 f) (fv_size f) (fv_mime f) (fv_name f).
Record DmFileView := mkDmFileView { dv_hash : string; dv_size : Z; dv_mime : string; dv_name : string }.
Record ReactionView := mkReactionView {
  rv_id : string; rv_message : string; rv_group : string; rv_channel : string; rv_emoji : string; rv_author : string; rv_mine : bool }.
Record MessageView := mkMessageView {
  mv_id : string; mv_group : string; mv_channel : string; mv_author : string; mv_text : string; mv_at : Timestamp;
  mv_mine : bool; mv_reactions : list ReactionView; mv_files : list FileView; mv_zap_sats : Z; mv_zap_count : Z }.
Record DmView := mkDmView {
  dw_id : string; dw_with : string; dw_mine : bool; dw_text : string; dw_at : Timestamp; dw_file : option DmFileView }.
Record ChannelView := mkChannelView {
  cv_id : string; cv_name : string; cv_kind : string; cv_private : bool; cv_can_send : bool; cv_slowmode : Z; cv_can_moderate : bool }.
Record GroupView := mkGroupView {
  gv_id : string; gv_name : string; gv_channels : list ChannelView; gv_member_count : nat; gv_owner : option string;
  gv_can_invite : bool; gv_public : bool; gv_reading : bool; gv_newcomer_wait : Z; gv_newcomer_wait_set : Z; gv_about : string;
  gv_posts_from : option Timestamp; gv_ready : bool; gv_me_owner : bool; gv_can_rename : bool; gv_can_manage_channels : bool;
  gv_can_ban : bool; gv_can_compact : bool; gv_muted_until : option Timestamp; gv_seq : Z; gv_removed : bool; gv_banned : bool }.
Record RoleView := mkRoleView { ro_id : string; ro_name : string; ro_position : Z; ro_assignable : bool }.
Record BanView := mkBanView { bv_npub : string; bv_name : option string }.
Record MemberView := mkMemberView {
  mb_npub : string; mb_name : option string; mb_roles : list string; mb_role_ids : list string; mb_owner : bool; mb_me : bool;
  mb_can_kick : bool; mb_can_ban : bool; mb_can_mute : bool; mb_can_set_roles : bool; mb_muted_until : option Timestamp;
  mb_anchor : bool }.

Section Views.
Context {N : NostrTypes} {O : NostrOps} {T : DeviceTypes} {P : DeviceOps} {C : DmCrypto}.
Context {Y : WireTypes} {F : ProfileTypes} {NT : NodeTypes}.
#[local] Open Scope string_scope.
#[local] Open Scope Z_scope.
#[local] Open Scope list_scope.

Definition npub (p : PublicKey) : string := opt_get (pk_to_hex p) (pk_to_bech32 p).
(** Twelve bytes of it: bech32 and hex are ASCII. *)
Definition short_npub (p : PublicKey) : string :=
  str_of_bytes (take 12 (bytes_of (npub p))) +:+ str_of_bytes [226; 128; 166].

(** ** Messages *)
Definition dm_view (d : Dm) (me : PublicKey) : DmView :=
  let mine := bool_decide (dm_from d = me) in
  mkDmView (id_to_hex (dm_id d)) (npub (if mine then dm_to d else dm_from d)) mine (dm_text d) (dm_at d)
    (option_map (fun f => mkDmFileView (f_hash f) (f_size f) (f_mime f) (f_name f)) (dm_file d)).
Definition message_view (e : Event) (me : PublicKey) : option MessageView :=
  if negb (ev_kind e =? CHAT_MESSAGE) then None
  else
    let! g := group_of e in
    let! c := channel_of e in
    Some (mkMessageView (id_to_hex (ev_id e)) (npub g) c (npub (ev_pubkey e)) (ev_content e) (ev_created_at e)
            (bool_decide (ev_pubkey e = me)) [] (map file_view (match attachments_of e with Ok l => l | Err _ => [] end)) 0 0).
Definition reaction_view (e : Event) (me : PublicKey) : option ReactionView :=
  if negb (ev_kind e =? REACTION) then None
  else
    let! t := head (targets_of e) in
    let! g := group_of e in
    let! c := channel_of e in
    Some (mkReactionView (id_to_hex (ev_id e)) (id_to_hex t) (npub g) c (ev_content e) (npub (ev_pubkey e))
            (bool_decide (ev_pubkey e = me))).
Definition with_reaction (r : ReactionView) (m : MessageView) : MessageView :=
  mkMessageView (mv_id m) (mv_group m) (mv_channel m) (mv_author m) (mv_text m) (mv_at m) (mv_mine m)
    (mv_reactions m ++ [r]) (mv_files m) (mv_zap_sats m) (mv_zap_count m).
Definition with_zaps (sats count : Z) (m : MessageView) : MessageView :=
  mkMessageView (mv_id m) (mv_group m) (mv_channel m) (mv_author m) (mv_text m) (mv_at m) (mv_mine m)
    (mv_reactions m) (mv_files m) sats count.
(** Where each message stands in the list, the last of an id. *)
Definition places (l : list MessageView) : gmap string nat :=
  foldl (fun m x => <[mv_id x.2 := x.1]> m) ∅ (imap pair l).
Definition at_place (at_ : gmap string nat) (id : string) (f : MessageView -> MessageView) (l : list MessageView) : list MessageView :=
  match at_ !! id with Some i => alter f i l | None => l end.
Definition messages_view (me : PublicKey) (evs : list Event) (zaps : list (EventId * ZapTotal)) : list MessageView :=
  let out := filter_map (fun e => message_view e me) evs in
  let at_ := places out in
  let out := foldl (fun l r => at_place at_ (rv_message r) (with_reaction r) l) out
               (filter_map (fun e => reaction_view e me) evs) in
  foldl (fun l z => at_place at_ (id_to_hex z.1) (with_zaps (zt_msat z.2 / 1000) (zt_count z.2)) l) out zaps.
Definition messages_of (g : PublicKey) (channel : string) : M (list MessageView) :=
  let* n := get in
  let* evs := channel_events g channel [CHAT_MESSAGE; REACTION] in
  let* zaps := zap_totals (map ev_id (List.filter (fun e => ev_kind e =? CHAT_MESSAGE) evs)) in
  ret (messages_view (me n) evs (map_to_list zaps)).
Definition dms_view : M (list DmView) :=
  let* n := get in let* l := dms in ret (map (fun d => dm_view d (me n)) l).

(** ** Groups *)
Definition is_private (s : GroupState) (channel : string) : bool :=
  existsb (fun o => bool_decide (ov_channel o = channel) && bool_decide (ov_role o = DEFAULT_ROLE)
                    && Perm.contains (ov_deny o) Perm.VIEW_CHANNEL) (gs_overrides s).
Definition kind_name (k : ChannelKind) : string := match k with Text => "text" | Voice => "voice" end.
Definition member_channels (s : GroupState) (me : PublicKey) : list ChannelView :=
  map (fun c =>
         let here := effective s me (ch_id c) in
         mkChannelView (ch_id c) (ch_name c) (kind_name (ch_kind c)) (is_private s (ch_id c))
           (Perm.contains here Perm.SEND_MESSAGES) (ch_slowmode c) (Perm.contains here Perm.MANAGE_MESSAGES))
    (List.filter (fun c => Perm.contains (effective s me (ch_id c)) Perm.VIEW_CHANNEL) (gs_channels s)).
Definition reader_channels (s : GroupState) : list ChannelView :=
  map (fun c => mkChannelView (ch_id c) (ch_name c) (kind_name (ch_kind c)) (is_private s (ch_id c)) false (ch_slowmode c) false)
    (gs_channels s).
(** [has_key]: the keychain holds the group's key. *)
Definition group_view (now : Timestamp) (me : PublicKey) (has_key : PublicKey -> bool) (x : PublicKey * option GroupState)
    : GroupView :=
  let '(g, state) := x in
  match state with
  | None => mkGroupView (npub g) "" [] 0 None false false false 0 0 "" None false false false false false false None 0 false false
  | Some s =>
      let owner := option_map npub (gs_owner s) in
      if is_member s me then
        let base := base s me in
        let me_owner := bool_decide (gs_owner s = Some me) in
        mkGroupView (npub g) (gs_name s) (member_channels s me) (size (gs_members s)) owner
          (Perm.contains base Perm.CREATE_INVITE) (gs_public s) false (newcomer_wait s) (gs_newcomer_wait s) (gs_about s)
          (posts_from s me now) true me_owner (Perm.contains base Perm.MANAGE_GROUP) (Perm.contains base Perm.MANAGE_CHANNELS)
          (Perm.contains base Perm.BAN_MEMBERS) (me_owner && has_key g) (muted_until s me now) (gs_seq s) false false
      else
        let reading := gs_public s && negb (is_banned s me) in
        mkGroupView (npub g) (gs_name s) (reader_channels s) (size (gs_members s)) owner false (gs_public s) reading
          (newcomer_wait s) (gs_newcomer_wait s) (gs_about s) None true false false false false false None (gs_seq s)
          (negb reading) (is_banned s me)
  end.
Definition group_view_leb (a b : GroupView) : bool :=
  if bool_decide (gv_name a = gv_name b) then String.leb (gv_id a) (gv_id b) else String.leb (gv_name a) (gv_name b).
Definition groups_view (now : Timestamp) (has_key : PublicKey -> bool) (n : Inner) : list GroupView :=
  isort group_view_leb (map (group_view now (me n) has_key) (group_list n)).

(** ** Members, roles and bans *)
Definition held_roles (s : GroupState) (p : PublicKey) : list string :=
  set_entries String.leb (opt_get ∅ (gs_members s !! p)).
(** Names and positions of the roles held, highest first. *)
Definition named_roles (s : GroupState) (ids : list string) : list (string * Z) :=
  isort (fun a b => b.2 <=? a.2)
    (filter_map (fun id => let! r := gs_roles s !! id in Some (r_name r, r_position r)) ids).
Definition member_view (now : Timestamp) (s : GroupState) (me : PublicKey) (names : gmap PublicKey string)
    (anchors : list PublicKey) (p : PublicKey) : Z * MemberView :=
  let ids := held_roles s p in
  let roles := named_roles s ids in
  let may perm := outranks s me p && Perm.contains (base s me) perm in
  let owner := bool_decide (gs_owner s = Some p) in
  (if owner then I64_MAX else match roles with (_, pos) :: _ => pos | [] => 0 end,
   mkMemberView (npub p) (names !! p) (map fst roles) ids owner (bool_decide (p = me))
     (may Perm.KICK_MEMBERS) (may Perm.BAN_MEMBERS) (may Perm.MUTE_MEMBERS) (may Perm.MANAGE_ROLES)
     (muted_until s p now) (bool_decide (p ∈ anchors))).
(** Highest rank first, then the named, then by name and npub. *)
Definition name_leb (a b : option string) : bool :=
  match a, b with None, _ => true | Some _, None => false | Some x, Some y => String.leb x y end.
Definition member_leb (a b : Z * MemberView) : bool :=
  if negb (a.1 =? b.1) then b.1 <? a.1
  else if negb (Bool.eqb (opt_bool (mb_name a.2)) (opt_bool (mb_name b.2))) then opt_bool (mb_name a.2)
  else if negb (bool_decide (mb_name a.2 = mb_name b.2)) then name_leb (mb_name a.2) (mb_name b.2)
  else String.leb (mb_npub a.2) (mb_npub b.2).
Definition state_of (g : PublicKey) : M GroupState :=
  let* n := get in
  match state (n_groups n) g with Some s => ret s | None => fail NoSuchGroup end.
Definition members_view (now : Timestamp) (g : PublicKey) : M (list MemberView) :=
  let* n := get in
  let* s := state_of g in
  let people := map fst (map_entries pk_leb (gs_members s)) in
  let* ns := names people in
  let* an := anchors g in
  ret (map snd (isort member_leb (map (member_view now s (me n) ns an) people))).
Definition roles_view (g : PublicKey) : M (list RoleView) :=
  let* n := get in
  let* s := state_of g in
  ret (isort (fun a b => ro_position b <=? ro_position a)
         (map (fun r => mkRoleView (r_id r) (r_name r) (r_position r) (may_assign s (me n) (r_id r)))
            (List.filter (fun r => negb (bool_decide (r_id r = DEFAULT_ROLE))) (map snd (map_entries String.leb (gs_roles s)))))).
Definition bans_view (g : PublicKey) : M (list BanView) :=
  let* s := state_of g in
  let people := set_entries pk_leb (gs_bans s) in
  let* ns := names people in
  ret (map (fun p => mkBanView (npub p) (ns !! p)) people).
Definition present_view (env : Env) (n : Inner) (within : Z) : gset string :=
  set_map npub (present env n within ∖ {[me n]}).

(** ** What the window is told (events.rs) *)
Inductive UiEvent :=
| UMessage (m : MessageView) | UReaction (r : ReactionView) | UZap (id : string) | UDm (d : DmView) | UProfile (who : string)
| UGroup (g : string) | UWithdrawn (ids : list string) | UResync.
Definition ui_event (n : Inner) (e : Event) : option UiEvent :=
  match message_view e (me n), reaction_view e (me n) with
  | Some m, _ => Some (UMessage m)
  | None, Some r => Some (UReaction r)
  | None, None =>
      if ev_kind e =? ZAP_CARRIER then option_map (fun t => UZap (id_to_hex t)) (head (targets_of e))
      else if (ev_kind e =? DELETION) || (ev_kind e =? DELETE_EVENT) then None
      else if ev_kind e =? GIFT_WRAP then option_map (fun d => UDm (dm_view d (me n))) (open_dm (n_person n) e)
      else if (ev_kind e =? PRESENCE) || (ev_kind e =? VOICE_PRESENCE) then None
      else if ev_kind e =? PROFILE then Some (UProfile (npub (ev_pubkey e)))
      else option_map (fun g => UGroup (npub g)) (group_of e)
  end.
(** What the node's subscribers hear, as the window is told it. *)
Definition pumped (n : Inner) (told : list Effect) : list UiEvent :=
  filter_map (fun x => match x with
                       | Told e => ui_event n e
                       | ToldRemoved ids => Some (UWithdrawn (map id_to_hex ids))
                       | _ => None
                       end) told.
End Views.
