(* ===== verification/Chat.v ===== *)
(** What the window's buttons do ([crates/hit-app-core/src/state.rs]): moderation,
    channels, direct messages and their inbox, reading and writing, links and
    calls - each an operation of the app over its node, with its own refusals
    first.  The wallet and zaps are [Publish]'s. *)
From S2P Require Import Prelude Text Nostr GroupEvent Replace Perm Zap GroupState Fold.
From S2P Require Import Binding Dm Groups EventStore Proto Person Node NodeOps NodeGroups Session Relay Sync Audio Voice.
From S2P Require Import Lightning Wallet App Views.

#[local] Open Scope Z_scope.

Record Unread := mkUnread { ur_group : string; ur_channel : string; ur_count : nat }.
Record InboxView := mkInboxView { ib_enabled : bool; ib_named : list string; ib_available : list string }.
Record WalletView := mkWalletView {
  wv_connected : bool; wv_relays : list string; wv_address : option string; wv_zappable : bool;
  wv_fee_percent : Z; wv_fee_min_sats : Z; wv_fee_on : bool }.
Record ZapQuoteView := mkZapQuote {
  zq_recipient : string; zq_address : string; zq_amount : Z; zq_fee : Z; zq_total : Z; zq_relays : list string; zq_wallet : bool }.
Record ZapSent := mkZapSent { zs_counted : bool; zs_fee : Z }.
Record InvoiceView := mkInvoiceView { iv_bolt11 : string; iv_sats : Z }.

Section Chat.
Context {N : NostrTypes} {O : NostrOps} {T : DeviceTypes} {P : DeviceOps} {C : DmCrypto}.
Context {Y : WireTypes} {F : ProfileTypes} {NT : NodeTypes} {RT : RelayTypes} {ST : SyncTypes}.
Context {OP : Opus} {VT : VoiceTypes} {LT : LnTypes} {WT : WalletTypes} {AT : AppTypes}.
Context {K : Type} {KS : SecretStore K}.
#[local] Open Scope string_scope.
#[local] Open Scope Z_scope.
#[local] Open Scope list_scope.
Notation AppM := (AppM (K := K)).
Notation "'let@' x ':=' e 'in' k" := (a_bind e (fun x => k)) (at level 200, x pattern, e at level 200, k at level 200, right associativity).

(** ** Over the node *)
Definition not_ready : AppError := ARefused "finish setting up first".
Definition on_running {X} (f : Running -> Running * result AppError X) : AppM X := fun a =>
  match ap_running a with
  | None => (a, Err not_ready)
  | Some r => let '(r, x) := f r in (set_running (Some r) a, x)
  end.
Definition of_node {X} (r : result NodeError X) : result AppError X := match r with Ok x => Ok x | Err e => Err (ANode e) end.
Definition on_node {X} (m : M X) : AppM X :=
  on_running (fun r => let '(n, x) := m (ru_node r) in (mkRunning n (ru_voice r) (ru_publish r), of_node x)).
Definition node : AppM Inner := on_node get.
(** Wakes the publisher. *)
Definition publish_public : AppM unit :=
  change (fun a => match ap_running a with
                   | Some r => set_running (Some (mkRunning (ru_node r) (ru_voice r) (public_relays a))) a
                   | None => a
                   end).
Definition parse_key (s : string) : AppM PublicKey :=
  match (match pk_from_bech32 (trim s) with Some p => Some p | None => pk_parse (trim s) end) with
  | Some p => a_ret p
  | None => refused "not a valid key"
  end.
Definition parse_id (s : string) : AppM EventId :=
  match id_from_hex (trim s) with Some i => a_ret i | None => refused "not a valid event id" end.
(** In a group: once set up, its key read, then done. *)
Definition in_group {X} (group : string) (f : PublicKey -> M X) : AppM X :=
  let@ _ := node in let@ g := parse_key group in on_node (f g).
Definition to_member {X} (group who : string) (f : PublicKey -> PublicKey -> M X) : AppM X :=
  let@ _ := node in let@ g := parse_key group in let@ w := parse_key who in on_node (f g w).
Definition quietly {X} (m : AppM X) : AppM unit := let@ _ := m in a_ret tt.
(** [trim_end], and of one character at the start. *)
Definition trim_right (s : string) : string := concat_str (rev (drop_while is_whitespace (rev (chars s)))).

(** ** Settings *)
Definition set_name (os : Os) (name : string) : AppM unit :=
  if str_is_empty (trim name) then refused "a name cannot be empty"
  else let@ _ := on_node (set_own_name (os_env os) name) in publish_public.
Definition set_list_groups (os : Os) (on : bool) : AppM unit :=
  let@ a := app in
  let@ _ := save_file os (with_choices (af_inbox_off (ap_file a)) (negb on) (ap_file a)) in
  let@ _ := change (fun a => set_listing on (ap_inbox_on a) a) in publish_public.
Fixpoint relay_list (list : list string) (relays : Datatypes.list string) : result AppError (Datatypes.list string) :=
  match relays with
  | [] => Ok list
  | r :: t =>
      let r := trim_end "/"%char (trim r) in
      if str_is_empty r || bool_decide (r ∈ list) then relay_list list t
      else if negb (starts_with "wss://" r || starts_with "ws://" r) || (200 <? str_len r)
      then Err (ARefused (r +:+ " is not a wss:// relay"))
      else relay_list (list ++ [r]) t
  end.
Definition set_public_relays (os : Os) (relays : list string) : AppM (list string) :=
  let@ list := a_lift (relay_list [] relays) in
  if Nat.ltb MAX_PUBLIC_RELAYS (length list)
  then refused ("at most " +:+ show_u (Z.of_nat MAX_PUBLIC_RELAYS) +:+ " relays")
  else
    let@ a := app in
    let@ _ := save_file os (with_relays (if bool_decide (nc_public_relays (ap_net a) = Some list) then None else Some list) (ap_file a)) in
    let@ _ := publish_public in
    let@ a := app in a_ret (public_relays a).
Definition set_audio (os : Os) (input output : option string) (echo_cancel : bool) : AppM unit :=
  let@ a := app in save_file os (with_audio input output (negb echo_cancel) (ap_file a)).
Definition link_addr (a : App (K := K)) : option SocketAddr :=
  match nc_relays (ap_net a) with Disabled => nc_invite_addr (ap_net a) | N0 | Custom _ => None end.

(** ** Groups, and moderation *)
Definition has_key (a : App) (g : PublicKey) : bool :=
  match group_key_load (ap_keys a) (Views.npub g) with Ok (Some _) => true | _ => false end.
Definition groups (os : Os) : AppM (list GroupView) :=
  let@ n := node in let@ a := app in a_ret (groups_view (now (os_env os)) (has_key a) n).
Definition members (os : Os) (group : string) : AppM (list MemberView) := in_group group (members_view (now (os_env os))).
Definition roles (group : string) : AppM (list RoleView) := in_group group roles_view.
Definition bans (group : string) : AppM (list BanView) := in_group group bans_view.
Definition kick (os : Os) (group who : string) : AppM unit := quietly (to_member group who (remove_member (os_env os))).
Definition ban_who (os : Os) (group who : string) : AppM unit := quietly (to_member group who (ban (os_env os))).
Definition unban_who (os : Os) (group who : string) : AppM unit := quietly (to_member group who (unban (os_env os))).
Definition mute_who (os : Os) (group who : string) (minutes : option Z) : AppM unit :=
  let until := option_map (fun m => ts_add (now (os_env os)) (m * 60)) minutes in
  quietly (to_member group who (fun g w => mute (os_env os) g w until)).
Definition set_member_roles (os : Os) (group who : string) (roles : list string) : AppM unit :=
  quietly (to_member group who (fun g w => put (os_env os) g w roles)).
Definition remove_message (os : Os) (group channel id : string) : AppM unit :=
  let@ _ := node in
  let@ g := parse_key group in
  let@ i := parse_id id in
  quietly (on_node (remove_events (os_env os) g channel [i])).
Definition edit_group (os : Os) (group : string) (edits : list Edit) : AppM unit :=
  quietly (in_group group (fun g => edit (os_env os) g edits)).
Definition then_publish (m : AppM unit) : AppM unit := let@ _ := m in publish_public.
Definition rename_group (os : Os) (group name : string) : AppM unit := then_publish (edit_group os group [EName (trim name)]).
Definition set_about (os : Os) (group about : string) : AppM unit := then_publish (edit_group os group [EAbout (trim about)]).
Definition set_public (os : Os) (group : string) (public : bool) : AppM unit := then_publish (edit_group os group [EPublic public]).
Definition set_newcomer_wait (os : Os) (group : string) (secs : Z) : AppM unit := edit_group os group [ENewcomerWait secs].
Definition delete_channel (os : Os) (group id : string) : AppM unit := edit_group os group [EChannelDelete id].

(** [(2..).map(..).find(..)], as many tries as there are names taken and one. *)
Fixpoint free_name (tries : nat) (n : Z) (slug : string) (taken : string -> bool) : option string :=
  match tries with
  | 0%nat => None
  | S tries => let s := slug +:+ "-" +:+ show_u n in if taken s then free_name tries (n + 1) slug taken else Some s
  end.
Definition slug_of (name : string) : string :=
  let dashed := concat_str (map (fun c => if char_alphanumeric c then c else "-") (chars (str_lowercase name))) in
  let words := List.filter (fun w => negb (str_is_empty w)) (split_on "-"%char dashed) in
  let slug := concat_str (take 32 (chars (join_on "-"%char words))) in
  if str_is_empty slug then "channel" else slug.
Definition channel_id (name : string) (taken : list string) : string :=
  let slug := slug_of name in
  if bool_decide (slug ∈ taken) then opt_get slug (free_name (S (length taken)) 2 slug (fun s => bool_decide (s ∈ taken)))
  else slug.
Fixpoint trim_hashes (s : string) : string :=
  match s with String "#" t => trim_hashes t | _ => s end.
Definition save_channel (os : Os) (group : string) (id : option string) (name : string) (slowmode : Z) (voice : bool)
    : AppM string :=
  let@ g := parse_key group in
  let@ s := on_node (state_of g) in
  let name := trim (trim_hashes (trim name)) in
  let id := opt_get (channel_id name (map ch_id (gs_channels s))) id in
  let kind := match List.find (fun c => bool_decide (ch_id c = id)) (gs_channels s) with
              | Some c => ch_kind c
              | None => if voice then GroupEvent.Voice else Text
              end in
  let@ _ := on_node (edit (os_env os) g [EChannel (mkChannel id name kind slowmode)]) in
  a_ret id.
Definition private_edits (s : GroupState) (id : string) (private : bool) : list Edit :=
  map (fun r =>
         let member := bool_decide (r_id r = DEFAULT_ROLE) in
         EOverride (mkOverride id (r_id r) (if private && negb member then Perm.VIEW_CHANNEL else 0)
                      (if private && member then Perm.VIEW_CHANNEL else 0)))
    (map snd (map_entries String.leb (gs_roles s))).
Definition set_channel_private (os : Os) (group id : string) (private : bool) : AppM unit :=
  let@ g := parse_key group in
  let@ s := on_node (state_of g) in
  quietly (on_node (edit (os_env os) g (private_edits s id private))).
Definition compact_group (os : Os) (group : string) : AppM Z :=
  let@ _ := node in let@ g := parse_key group in let@ a := app in on_node (compact (os_env os) (ap_keys a) g).

(** ** Direct messages *)
Definition app_dms : AppM (list DmView) := on_node dms_view.
Definition app_send_dm (os : Os) (to text : string) : AppM DmView :=
  let text := trim_right text in
  if str_is_empty (trim text) then refused "nothing to send"
  else if MAX_DM_CHARS <? chars_count text then refused ("longer than " +:+ show_u MAX_DM_CHARS +:+ " characters")
  else
    let@ n := node in
    let@ p := parse_key to in
    if bool_decide (p = me n) then refused "that is you"
    else let@ d := on_node (send_dm (os_env os) p text) in a_ret (dm_view d.1 (me n)).
Fixpoint anchors_of (l : list (PublicKey * option GroupState)) (who : PublicKey) : M (list PublicKey) :=
  match l with
  | [] => ret []
  | (g, s) :: t =>
      let* here := (if is_some_and s (fun s => is_member s who) then anchors g else ret []) in
      let* more := anchors_of t who in
      ret (here ++ more)
  end.
Definition inbox_view : M InboxView :=
  let* n := get in
  let* named := inbox_of (me n) in
  let* all := anchors_of (group_list n) (me n) in
  let named := map (fun x => Views.npub x.1) named in
  ret (mkInboxView (match named with [] => false | _ => true end) named
         (set_entries String.leb (list_to_set (map Views.npub all)))).
Fixpoint keys_of (l : list string) : list PublicKey :=
  match l with
  | [] => []
  | s :: t => option_list (match pk_from_bech32 (trim s) with Some p => Some p | None => pk_parse (trim s) end) ++ keys_of t
  end.
Definition set_app_inbox (os : Os) (enabled : bool) : AppM InboxView :=
  let@ a := app in
  let@ _ := save_file os (with_choices (negb enabled) (af_hide_groups (ap_file a)) (ap_file a)) in
  let@ _ := change (fun a => set_listing (ap_list_groups a) enabled a) in
  let@ _ := node in
  let@ anchors := (if enabled then let@ view := on_node inbox_view in a_ret (keys_of (ib_available view)) else a_ret []) in
  if enabled && match anchors with [] => true | _ => false end then refused "none of your groups has an anchor to hold them"
  else let@ _ := on_node (set_inbox (os_env os) anchors) in on_node inbox_view.
Definition app_names (people : list string) : AppM (gmap string string) :=
  let@ m := on_node (names (keys_of people)) in
  a_ret (list_to_map (map (fun x => (Views.npub x.1, x.2)) (map_to_list m))).

(** ** Reading *)
Definition app_messages (group channel : string) : AppM (list MessageView) := in_group group (fun g => messages_of g channel).
Definition read_marks : AppM (gmap string Z) :=
  let@ a := app in
  match dk_marks (ap_disk a) with
  | Ok m => a_ret (opt_get ∅ m)
  | Err why => a_fail (AIo why)
  end.
Definition mark_key (group channel : string) : string := group +:+ "/" +:+ channel.
Definition mark_read (os : Os) (group channel : string) (at_ : Z) : AppM unit :=
  let@ marks := read_marks in
  if is_some_and (marks !! mark_key group channel) (fun m => at_ <=? m) then a_ret tt
  else writes os (disk_marks (<[mark_key group channel := at_]> marks)).
Definition mark_of (marks : gmap string Z) (group channel : string) : Z := opt_get 0 (marks !! mark_key group channel).
Definition dm_unread : AppM (gmap string nat) :=
  let@ marks := read_marks in
  let@ l := app_dms in
  a_ret (foldl (fun out d =>
           if negb (dw_mine d) && (mark_of marks "dm" (dw_with d) <? dw_at d)
           then <[dw_with d := S (opt_get 0%nat (out !! dw_with d))]> out else out) ∅ l).
Definition newer (me : PublicKey) (since : Z) (channel : string) (e : Event) : bool :=
  negb (bool_decide (ev_pubkey e = me)) && (since <? ev_created_at e) && bool_decide (channel_of e = Some channel).
Definition unread_in (me : PublicKey) (marks : gmap string Z) (all : list Event) (g : GroupView) : list Unread :=
  flat_map (fun c =>
    let count := length (List.filter (newer me (mark_of marks (gv_id g) (cv_id c)) (cv_id c)) all) in
    if Nat.eqb count 0 then [] else [mkUnread (gv_id g) (cv_id c) count]) (gv_channels g).
Fixpoint unread_each (me : PublicKey) (marks : gmap string Z) (l : list GroupView) : AppM (list Unread) :=
  match l with
  | [] => a_ret []
  | g :: t =>
      let@ key := parse_key (gv_id g) in
      let@ all := on_node (channel_messages key None) in
      let@ more := unread_each me marks t in
      a_ret (unread_in me marks all g ++ more)
  end.
Definition unread (os : Os) : AppM (list Unread) :=
  let@ n := node in
  let@ marks := read_marks in
  let@ l := groups os in
  unread_each (me n) marks (List.filter gv_ready l).

(** ** Writing *)
Definition shown {X} (r : option X) (why : string) : AppM X := match r with Some x => a_ret x | None => a_fail (AIo why) end.
Definition app_send (os : Os) (group channel text : string) (files : list FileView) : AppM MessageView :=
  let text := trim_right text in
  if str_is_empty (trim text) && match files with [] => true | _ => false end then refused "nothing to send"
  else if MAX_ATTACHMENTS <? Z.of_nat (length files)
  then refused ("at most " +:+ show_u MAX_ATTACHMENTS +:+ " files in one message")
  else if MAX_MESSAGE_CHARS <? chars_count text then refused ("longer than " +:+ show_u MAX_MESSAGE_CHARS +:+ " characters")
  else
    let@ n := node in
    let@ g := parse_key group in
    let@ e := on_node (say_with (os_env os) g channel text (map attachment files)) in
    shown (message_view e (me n)) "not a message".
Definition app_react (os : Os) (group channel message emoji : string) : AppM ReactionView :=
  let emoji := trim emoji in
  if str_is_empty emoji || (MAX_REACTION <? chars_count emoji) then refused "not a reaction"
  else
    let@ n := node in
    let@ g := parse_key group in
    let@ i := parse_id message in
    let@ e := on_node (react (os_env os) g channel i emoji) in
    shown (reaction_view e (me n)) "not a reaction".
Definition app_withdraw (os : Os) (group channel id : string) : AppM unit :=
  let@ _ := node in
  let@ g := parse_key group in
  let@ i := parse_id id in
  quietly (on_node (delete_own (os_env os) g channel [i])).

(** ** Groups and links *)
Definition create_app_group (os : Os) (made : Keys) (name : string) (public : bool) : AppM string :=
  let name := trim name in
  if str_is_empty name then refused "a group needs a name"
  else
    let@ _ := node in
    let@ a := app in
    let '(keys, m) := create_group_with (os_env os) (ap_keys a) made name public in
    let@ _ := change (set_keys keys) in
    let@ g := on_node m in
    let@ _ := (if public then publish_public else a_ret tt) in
    a_ret (Views.npub g).
Definition app_invite (os : Os) (code group : string) (hours : option Z) : AppM string :=
  let@ a := app in
  let@ link := in_group group (fun g => invite (os_env os) g code (option_map (fun h => h * 3600) hours) (link_addr a)) in
  a_ret (InviteLink_show link).
Definition app_public_link (os : Os) (group : string) : AppM string :=
  let@ a := app in
  let@ link := in_group group (fun g => public_link (os_env os) g (link_addr a)) in a_ret (InviteLink_show link).
Definition app_contact_link (os : Os) : AppM string :=
  let@ n := node in let@ a := app in a_ret (ContactLink_show (contact_link (os_env os) n (link_addr a))).
Definition link_text (kind : string) (e : LinkError) : string :=
  match e with
  | NotALink => "not a HIT_ENTER " +:+ kind +:+ " link"
  | Missing what => "the " +:+ kind +:+ " link has no " +:+ what
  | LinkMalformed what => "the " +:+ kind +:+ " link's " +:+ what +:+ " is malformed"
  end.
Definition app_add_contact (os : Os) (net : Sync.Net) (link : string) : AppM string :=
  match ContactLink_parse (trim link) with
  | Err e => refused (link_text "contact" e)
  | Ok link => let@ p := on_node (add_contact (os_env os) net link) in a_ret (Views.npub p)
  end.
Definition app_join (os : Os) (net : Sync.Net) (link : string) : AppM string :=
  match InviteLink_parse (trim link) with
  | Err e => refused (link_text "invite" e)
  | Ok link =>
      let id := Views.npub (il_group link) in
      let@ n := node in
      if is_some_and (state (n_groups n) (il_group link)) (fun s => is_member s (me n))
      then refused "you are already in this group"
      else
        match il_code link with
        | None =>
            let@ _ := on_node (follow net link) in
            let@ _ := change (fun a => set_reading (<[id := link]> (ap_reading a)) a) in a_ret id
        | Some _ =>
            let@ _ := on_node (join_group (os_env os) net link) in
            let@ _ := publish_public in a_ret id
        end
  end.
Definition join_reading (os : Os) (net : Sync.Net) (group : string) : AppM unit :=
  let@ _ := node in
  let@ a := app in
  let@ link := (match ap_reading a !! group with
                | Some l => a_ret l
                | None => let@ g := parse_key group in on_node (public_link (os_env os) g None)
                end) in
  let@ _ := on_node (join_group (os_env os) net link) in
  let@ _ := change (fun a => set_reading (delete group (ap_reading a)) a) in
  publish_public.
Definition app_present (os : Os) : AppM (gset string) :=
  let@ n := node in a_ret (present_view (os_env os) n PRESENT_WINDOW).

(** ** Calls *)
Definition voice_text (e : VoiceError) : string :=
  match e with
  | VNode _ => "" | VCodec => "codec" | NotAllowed => "not a voice channel this person can join"
  | Full n => "the channel is full (" +:+ show_u n +:+ " people)" | Busy => "already in a call" | NotInCall => "not in a call"
  | NoDevice => "no device of theirs is known here — a group in common makes them reachable"
  | NotRinging => "nobody is calling"
  end.
Definition of_voice {X} (r : result VoiceError X) : result AppError X :=
  match r with Ok x => Ok x | Err (VNode e) => Err (ANode e) | Err e => Err (ARefused (voice_text e)) end.
Definition on_voice {X} (f : Voice.Voice * Inner -> (Voice.Voice * Inner) * result VoiceError X) : AppM X :=
  on_running (fun r => let '((v, n), x) := f (ru_voice r, ru_node r) in (mkRunning n v (ru_publish r), of_voice x)).
Definition in_call (r : Running) : bool := opt_bool (current (ru_voice r)).
Definition leave_first (os : Os) : AppM unit :=
  let@ on := on_running (fun r => (r, Ok (in_call r))) in
  if on then on_voice (leave (os_env os)) else a_ret tt.
(** The devices opened, or why not. *)
Definition voice_join (os : Os) (audio : result string unit) (group channel : string) : AppM unit :=
  let@ g := parse_key group in
  let@ _ := leave_first os in
  match audio with
  | Err why => refused why
  | Ok _ => on_voice (join_begins Config_default (os_env os) g channel)
  end.
Definition voice_call (os : Os) (audio : result string unit) (who : string) : AppM unit :=
  let@ p := parse_key who in
  let@ _ := leave_first os in
  match audio with
  | Err why => refused why
  | Ok _ => on_voice (fun '(v, n) => let '(v, r) := call_person (os_env os) (os_ms os) p n v in ((v, n), r))
  end.
Definition voice_answer (os : Os) (audio : result string unit) : AppM unit :=
  let@ ringing := on_running (fun r => (r, Ok (opt_bool (incoming (ru_voice r))))) in
  if negb ringing then refused (voice_text NotRinging)
  else
    let@ _ := leave_first os in
    match audio with
    | Err why => refused why
    | Ok _ => on_voice (fun '(v, n) => let '(v, r) := answer (os_ms os) v in ((v, n), r))
    end.
Definition voice_decline : AppM unit := on_voice (fun '(v, n) => let '(v, r) := decline v in ((v, n), r)).
Definition voice_leave (os : Os) : AppM unit := leave_first os.
Definition given {X} (o : option X) (f : X -> Voice.Voice -> Voice.Voice) (v : Voice.Voice) : Voice.Voice :=
  match o with Some x => f x v | None => v end.
Definition voice_set (muted deafened push_to_talk : option bool) : AppM unit :=
  on_voice (fun '(v, n) =>
    ((given push_to_talk set_push_to_talk (given deafened set_deafened (given muted set_muted v)), n), Ok tt)).
Definition voice_talk (down : bool) : AppM unit := on_voice (fun '(v, n) => ((talk down v, n), Ok tt)).
Definition rooms_of (os : Os) (n : Inner) : list (string * list (string * list string)) :=
  flat_map (fun '(g, s) =>
    match s with
    | Some s =>
        if is_member s (me n) then
          let chans := map (fun c => (ch_id c, map Views.npub (set_entries pk_leb (in_room Config_default (os_env os) n g (ch_id c)))))
                         (List.filter (fun c => bool_decide (ch_kind c = GroupEvent.Voice)
                                          && Perm.contains (effective s (me n) (ch_id c)) Perm.VIEW_CHANNEL) (gs_channels s)) in
          match chans with [] => [] | _ => [(Views.npub g, chans)] end
        else []
    | None => []
    end) (group_list n).
Record VoiceView := mkVoiceView {
  vv_rooms : list (string * list (string * list string)); vv_call : option CallState; vv_incoming : option string; vv_ended : option string }.
Definition voice_view (os : Os) : AppM VoiceView :=
  on_running (fun r =>
    (r, Ok (mkVoiceView (rooms_of os (ru_node r)) (call_state Config_default (os_env os) (os_ms os) (ru_node r) (ru_voice r))
              (option_map Views.npub (incoming (ru_voice r))) (ended (os_ms os) (ru_voice r))))).
End Chat.
