(* ===== verification/Publish.v ===== *)
(** Money and the public ([crates/hit-app-core/src/state.rs], [browse.rs]): the
    wallet and zaps of the app, the publisher that keeps a profile and the public
    groups' announcements on public relays, and browsing the communities found
    there. *)
From Stdlib Require Import SpecFloat.
From S2P Require Import Prelude Text Nostr GroupEvent Replace Perm Zap GroupState Fold.
From S2P Require Import Binding Dm Groups EventStore Proto Person Node NodeOps NodeGroups Session Relay Sync Audio Voice.
From S2P Require Import Lightning Wallet App Views Chat.

#[local] Open Scope Z_scope.

(** [f64::ln], [powf] and [total_cmp]. *)
Class FloatOps := { f_ln : f64 -> f64; f_powf : f64 -> f64 -> f64; f_total_leb : f64 -> f64 -> bool }.

Section Publish.
Context {N : NostrTypes} {O : NostrOps} {T : DeviceTypes} {P : DeviceOps} {C : DmCrypto}.
Context {Y : WireTypes} {F : ProfileTypes} {NT : NodeTypes} {RT : RelayTypes} {ST : SyncTypes}.
Context {OP : Opus} {VT : VoiceTypes} {LT : LnTypes} {WT : WalletTypes} {AT : AppTypes} {FO : FloatOps}.
Context {K : Type} {KS : SecretStore K}.
#[local] Open Scope string_scope.
#[local] Open Scope Z_scope.
#[local] Open Scope list_scope.
Notation AppM := (AppM (K := K)).
Notation "'let@' x ':=' e 'in' k" := (a_bind e (fun x => k)) (at level 200, x pattern, e at level 200, k at level 200, right associativity).

(** ** The wallet *)
(** The release build's fee address. *)
Definition fee_address : Zapper :=
  let! a := FEE_ADDRESS in match address_parse a with Ok a => Some a | Err _ => None end.
Definition ln_text (e : LnError) : string :=
  match e with
  | LnAddress what => "not a Lightning address: " +:+ what
  | LnUnreachable host => "could not reach " +:+ host
  | LnServer why => "the Lightning address server said: " +:+ why
  | NotZappable => "this Lightning address does not take zaps (no Nostr support)"
  | LnAmount sats least most => show_u sats +:+ " sats is outside what this address takes (" +:+ show_u least
      +:+ str_of_bytes [226; 128; 147] +:+ show_u most +:+ ")"
  | LnBadInvoice why => "the invoice does not match what was asked: " +:+ why
  | BadConnection => "not a wallet connection string"
  | LnWallet why => "the wallet said: " +:+ why
  | WalletTimeout => "the wallet did not answer in time — the payment may still go through"
  | LnRelay url why => "relay " +:+ url +:+ ": " +:+ why
  | NoReceipt => "no receipt arrived in time"
  end.
Definition of_ln {X} (r : result LnError X) : AppM X :=
  match r with Ok x => a_ret x | Err e => refused (ln_text e) end.
Definition of_secret {X} (r : result SecretError X) : AppM X := of_key (of_store r).
Definition wallet_account : AppM string :=
  let@ a := app in
  match af_npub (ap_file a) with Some npub => a_ret ("nwc:" +:+ npub) | None => refused "no identity yet" end.
Definition wallet : AppM (option NwcUri) :=
  let@ account := wallet_account in
  let@ a := app in
  let@ uri := of_secret (secret_get (ap_keys a) account) in
  a_ret (let! u := uri in match wallet_parse u with Ok w => Some w | Err _ => None end).
Definition wallet_view : AppM WalletView :=
  let@ w := wallet in
  let@ n := node in
  let@ lud := on_node (lud16_of_person (me n)) in
  a_ret (mkWalletView (opt_bool w) (match w with Some w => nwc_relays w | None => [] end) (option_map fst lud)
           (is_some_and lud (fun x => opt_bool x.2)) FEE_PERCENT FEE_MIN_SATS (opt_bool fee_address)).
Definition connect_wallet (connection : string) : AppM WalletView :=
  let@ _ := of_ln (wallet_parse connection) in
  let@ account := wallet_account in
  let@ a := app in
  let@ keys := of_secret (secret_put (ap_keys a) account (trim connection)) in
  let@ _ := change (set_keys keys) in wallet_view.
Definition disconnect_wallet : AppM WalletView :=
  let@ account := wallet_account in
  let@ a := app in
  let@ keys := of_secret (secret_delete (ap_keys a) account) in
  let@ _ := change (set_keys keys) in wallet_view.
Definition set_lightning_address (os : Os) (web : Web) (address : string) : AppM WalletView :=
  let@ _ := node in
  let address := trim address in
  let@ _ := (if str_is_empty address then quietly (on_node (set_own_lud16 (os_env os) None))
             else
               let@ a := of_ln (address_parse address) in
               let@ key := of_ln (provider_of web a) in
               quietly (on_node (set_own_lud16 (os_env os) (Some (address_show a, key))))) in
  let@ _ := publish_public in wallet_view.

(** ** Zaps *)
Definition prepare_zap (web : Web) (group message : string) (amount : Z) : AppM (PublicKey * Quote * list string) :=
  let@ n := node in
  let@ g := parse_key group in
  let@ id := parse_id message in
  let@ held := on_node (lift (by_ids (n_store n) [id])) in
  match head held with
  | None => a_fail (ANode NoSuchEvent)
  | Some target =>
      let to := ev_pubkey target in
      if bool_decide (to = me n) then refused "that is your own message"
      else
        let@ lud := on_node (lud16_of_person to) in
        match lud with
        | None => refused "they have not set a Lightning address"
        | Some (_, None) =>
            refused "their profile does not name their wallet's zap key, so no zap to them could be counted — they can set their address again in HIT_ENTER"
        | Some (address, Some key) =>
            let@ relays := on_node (receipt_relays g) in
            match relays with
            | [] => refused "nobody would see this zap: the group has no anchor with a public wss:// relay to receive its receipt"
            | _ =>
                let@ a := of_ln (address_parse address) in
                let@ q := of_ln (quote fee_address web a amount) in
                if negb (bool_decide (qu_provider q = key))
                then refused "their Lightning address's server signs with a different key than their profile says, so the zap would show nowhere — they can set their address again"
                else a_ret (to, q, relays)
            end
        end
  end.
Definition zap_quote (web : Web) (group message : string) (amount : Z) : AppM ZapQuoteView :=
  let@ z := prepare_zap web group message amount in
  let '(to, q, relays) := z in
  let@ w := wallet in
  a_ret (mkZapQuote (Views.npub to) (address_show (pp_address (qu_params q))) (qu_amount_sats q) (qu_fee_sats q)
           (total_sats q) relays (opt_bool w)).
(** Signed by the person, or by a key made for it. *)
Definition zap_request (os : Os) (throwaway : Keys) (to : PublicKey) (message : string) (q : Quote) (relays : list string)
    (comment : string) (anon : bool) : AppM Event :=
  let@ id := parse_id message in
  let b := Zap.request tag_public_key tag_event to id (Lightning.mul64 (qu_amount_sats q) 1000) relays (pp_lnurl (qu_params q)) (trim comment) anon in
  if anon then match finalize throwaway b with Some e => a_ret e | None => a_fail (AIo "sign") end
  else
    let@ n := node in
    match sign_at (os_env os) (n_person n) b with Some e => a_ret e | None => a_fail (ANode KeyFailed) end.
Definition zap (os : Os) (m : Moments) (throwaway : Keys) (group message : string) (amount : Z) (comment : string) (anon : bool)
    : AppM ZapSent :=
  let@ w := wallet in
  match w with
  | None => refused "connect a wallet first, or pay by QR code"
  | Some w =>
      let@ z := prepare_zap (w_web (mo_zap m)) group message amount in
      let '(to, q, relays) := z in
      let@ rq := zap_request os throwaway to message q relays comment anon in
      let@ paid := of_ln (send_zap fee_address m w q rq).2 in
      let@ counted := (match za_receipt paid with
                       | Some (receipt, _) => fun a => match on_node (carry_zap (os_env os) receipt) a with
                                                       | (a, Ok _) => (a, Ok true)
                                                       | (a, Err _) => (a, Ok false)
                                                       end
                       | None => a_ret false
                       end) in
      let@ _ := (if counted then a_ret tt else change (set_pending (Some (mkPending rq (qu_provider q) 0)))) in
      a_ret (mkZapSent counted (qu_fee_sats q))
  end.
Definition zap_invoice_view (os : Os) (web : Web) (throwaway : Keys) (group message : string) (amount : Z) (comment : string)
    (anon : bool) : AppM InvoiceView :=
  let@ z := prepare_zap web group message amount in
  let '(to, q, relays) := z in
  let@ rq := zap_request os throwaway to message q relays comment anon in
  let@ bolt11 := of_ln (zap_invoice web q rq) in
  let@ _ := change (set_pending (Some (mkPending rq (qu_provider q) (qu_fee_sats q)))) in
  a_ret (mkInvoiceView bolt11 (qu_amount_sats q)).
(** What happens until the two minutes are up: half a second, in which the node
    may have changed, or the watch's end. *)
Inductive Round := HalfSecond (moved : Inner -> Inner) | Watched (receipt : option Event).
Fixpoint zap_polls (os : Os) (target : EventId) (rq : Event) (watching : bool) (rounds : list Round) : AppM bool :=
  let@ zaps := on_node (zaps_of [target]) in
  if existsb (fun z => bool_decide (z_request z = ev_id rq)) zaps then a_ret true
  else
    match rounds with
    | [] => a_ret false
    | HalfSecond moved :: t => let@ _ := on_node (modify moved) in zap_polls os target rq watching t
    | Watched r :: t =>
        match (if watching then r else None) with
        | Some receipt => fun a => match on_node (carry_zap (os_env os) receipt) a with
                                   | (a, Ok _) => (a, Ok true)
                                   | (a, Err _) => (a, Ok false)
                                   end
        | None => zap_polls os target rq false t
        end
    end.
Definition zap_wait (os : Os) (rounds : list Round) : AppM bool :=
  let@ a := app in
  match ap_pending a with
  | None => refused "no zap waiting"
  | Some p =>
      let@ _ := node in
      match head (targets_of (pz_request p)) with
      | None => a_fail (AIo "a zap request without a target")
      | Some target => zap_polls os target (pz_request p) true rounds
      end
  end.
Definition zap_fee_invoice (web : Web) : AppM (option InvoiceView) :=
  let@ a := app in
  let fee := match ap_pending a with Some p => pz_fee_sats p | None => 0 end in
  let@ _ := change (set_pending None) in
  if fee =? 0 then a_ret None
  else let@ bolt11 := of_ln (fee_invoice fee_address web fee) in a_ret (Some (mkInvoiceView bolt11 fee)).
Definition app_zap_totals (messages : list string) : AppM (list (string * (Z * Z))) :=
  let@ totals := on_node (zap_totals (filter_map (fun m => id_from_hex (trim m)) messages)) in
  a_ret (map (fun x => (id_to_hex x.1, (zt_msat x.2 / 1000, zt_count x.2))) (map_to_list totals)).

(** ** The inbox kept *)
Definition keep_inbox (env : Env) : M unit :=
  let* n := get in
  let* all := anchors_of (group_list n) (me n) in
  let* named := inbox_of (me n) in
  let anchors := list_to_set all : gset PublicKey in
  if bool_decide ((list_to_set (map fst named) : gset PublicKey) = anchors) then ret tt
  else let* _ := set_inbox env (set_entries pk_leb anchors) in ret tt.

(** ** The publisher *)
Definition ANNOUNCE_EVERY : Z := 24 * 60 * 60.
(** What relays answer to an event sent to each of a list of them. *)
Definition Answering : Type := Event -> list string -> list bool.
(** What went out, to whom; a round keeps it whether or not it fails. *)
Definition Outbox : Type := list (Event * list string).
Definition PubM (X : Type) : Type := Inner * Outbox -> (Inner * Outbox) * result NodeError X.
Definition p_ret {X} (x : X) : PubM X := fun c => (c, Ok x).
Definition p_bind {X Z} (m : PubM X) (k : X -> PubM Z) : PubM Z :=
  fun c => let '(c, r) := m c in match r with Ok x => k x c | Err e => (c, Err e) end.
Definition p_node {X} (m : M X) : PubM X := fun '(n, out) => let '(n, r) := m n in ((n, out), r).
Definition p_send (e : Event) (l : list string) : PubM unit := fun '(n, out) => ((n, out ++ [(e, l)]), Ok tt).
Notation "'let^' x ':=' e 'in' k" := (p_bind e (fun x => k)) (at level 200, x pattern, e at level 200, k at level 200, right associativity).
(** To the relays of the list that have not yet taken it. *)
Definition send_public (ask : Answering) (key what : string) (e : Event) (list : list string) (done : Published) : PubM Published :=
  let sent := opt_get (mkSent "" [] 0) (done !! key) in
  let sent := if bool_decide (se_what sent = what) then sent else mkSent what [] (ev_created_at e) in
  let todo := List.filter (fun r => negb (bool_decide (r ∈ se_relays sent))) list in
  match todo with
  | [] => p_ret (<[key := sent]> done)
  | _ =>
      let^ _ := p_send e todo in
      let took := map fst (List.filter snd (zip todo (ask e todo))) in
      p_ret (<[key := mkSent (se_what sent) (se_relays sent ++ took) (se_at sent)]> done)
  end.
(** Dated after what was said before. *)
Definition dated (env : Env) (key : string) (done : Published) : Timestamp :=
  match done !! key with Some s => Z.max (now env) ((se_at s + 1) mod (U64_MAX + 1)) | None => now env end.
Fixpoint listed_groups (l : list (PublicKey * option GroupState)) (who : PublicKey) : M (list (PublicKey * option string)) :=
  match l with
  | [] => ret []
  | (g, s) :: t =>
      let* here := (if is_some_and s (fun s => gs_public s && is_member s who)
                    then let* r := receipt_relays g in ret [(g, head r)] else ret []) in
      let* more := listed_groups t who in
      ret (here ++ more)
  end.
Definition said_of (e : Event) : string :=
  match announcement_read e with
  | Some (Public a) => join_on (ascii_of_Z 10) ["public"; a_name a; a_about a; show_u (a_members a); a_link a]
  | _ => "private"
  end.
(** Unchanged a day: said again. *)
Definition refreshed (now : Timestamp) (key : string) (done : Published) : Published :=
  match done !! key with
  | Some s => if negb (bool_decide (se_what s = "private")) && ((se_at s + ANNOUNCE_EVERY) mod (U64_MAX + 1) <? now)
              then <[key := mkSent "" (se_relays s) (se_at s)]> done else done
  | None => done
  end.
Definition announced (env : Env) (ask : Answering) (keys : K) (addr : option SocketAddr) (list : list string)
    (done : Published) (g : PublicKey) : PubM Published :=
  let key := Views.npub g in
  let done := refreshed (now env) key done in
  let^ e := p_node (announcement env keys g addr (dated env key done)) in
  match e with
  | None => p_ret done
  | Some e =>
      let what := said_of e in
      if bool_decide (what = "private") && negb (opt_bool (done !! key)) then p_ret done
      else send_public ask key what e list done
  end.
Fixpoint announce_each (env : Env) (ask : Answering) (keys : K) (addr : option SocketAddr) (list : list string)
    (groups : Datatypes.list PublicKey) (done : Published) : PubM Published :=
  match groups with
  | [] => p_ret done
  | g :: t => let^ done := announced env ask keys addr list done g in announce_each env ask keys addr list t done
  end.
Definition groups_said (mine : list (PublicKey * option string)) : string :=
  "groups" +:+ String (ascii_of_Z 10) (join_on (ascii_of_Z 10) (map (fun x => pk_to_hex x.1) mine)).
Definition publish_groups (env : Env) (ask : Answering) (list_groups : bool) (list : list string) (done : Published)
    : PubM Published :=
  let^ n := p_node get in
  let^ mine := (if list_groups then p_node (listed_groups (group_list n) (me n)) else p_ret []) in
  if match mine with [] => true | _ => false end && negb (opt_bool (done !! "groups")) then p_ret done
  else
    let^ e := p_node (signed (sign_at env (n_person n) (b_at (groups_list mine) (dated env "groups" done)))) in
    send_public ask "groups" (groups_said mine) e list done.
Definition publish_profile (ask : Answering) (list : list string) (done : Published) : PubM Published :=
  let^ profile := p_node own_profile in
  match profile with
  | Some p => send_public ask "profile" (id_to_hex (ev_id p)) p list done
  | None => p_ret done
  end.
(** One round; the notes are written only at its end. *)
Definition publish_once (env : Env) (ask : Answering) (keys : K) (addr : option SocketAddr) (list_groups : bool)
    (list : list string) (done : Published) : PubM Published :=
  let^ done := publish_profile ask list done in
  let^ done := publish_groups env ask list_groups list done in
  let^ n := p_node get in
  announce_each env ask keys addr list (map fst (group_list n)) done.
Definition publish_public_once (os : Os) (ask : Answering) : AppM Outbox :=
  let@ a := app in
  let@ list := on_running (fun r => (r, Ok (ru_publish r))) in
  let@ done := on_node (fun n =>
    let '((n, out), r) := publish_once (os_env os) ask (ap_keys a) (link_addr a) (ap_list_groups a) list (dk_published (ap_disk a)) (n, []) in
    (n, let? done := r in Ok (out, done))) in
  let@ _ := writes os (disk_published done.2) in
  a_ret done.1.

(** ** Browsing *)
Definition BROWSE_SHOWN : nat := 200.
Definition KNOWN_ASKED : nat := 500.
Definition KNOWN_NAMED : nat := 3.
Definition MEMBER_CEILING : Z := 100000.
Definition HALF_LIFE : Z := 7 * 24 * 60 * 60.
Definition STALE_AFTER : Z := 30 * 24 * 60 * 60.
(** How well a search matched: higher is better. *)
Inductive Matched := InAbout | InName | NameWord | Name.
Definition matched_rank (m : Matched) : Z := match m with InAbout => 0 | InName => 1 | NameWord => 2 | Name => 3 end.
(** [str::contains]. *)
Fixpoint contains_str (s w : string) : bool :=
  starts_with w s || match s with String _ t => contains_str t w | EmptyString => false end.
(** [split(|c| !c.is_alphanumeric())]. *)
Definition name_words (s : string) : list string :=
  let fix go (l : list string) (word : string) :=
    match l with
    | [] => [word]
    | c :: t => if char_alphanumeric c then go t (word +:+ c) else word :: go t ""
    end in go (chars s) "".
Definition matches (a : Announcement) (query : string) (words : list string) : option Matched :=
  match words with
  | [] => Some InAbout
  | _ =>
      let name := str_lowercase (a_name a) in
      let about := str_lowercase (a_about a) in
      if negb (forallb (fun w => contains_str name w || contains_str about w) words) then None
      else
        Some (if bool_decide (name = str_lowercase (join_on " "%char (words_of query))) then Name
              else if forallb (fun w => existsb (fun n => starts_with w n) (name_words name)) words then NameWord
              else if forallb (contains_str name) words then InName else InAbout)
  end.
Definition score (a : Announcement) (now : Timestamp) : f64 :=
  let members := of_Z64 (Z.min (a_members a) MEMBER_CEILING) in
  let age := of_Z64 (sat_sub now (a_at a)) in
  Float.mul64 (f_ln (add64 (of_Z64 1) members)) (f_powf (lit64 1 2) (div64 age (of_Z64 HALF_LIFE))).
Record Scored := mkScored { sc_match : Matched; sc_known : nat; sc_score : f64; sc_found : Announcement }.
(** Best first. *)
Definition scored_leb (a b : Scored) : bool :=
  if negb (matched_rank (sc_match a) =? matched_rank (sc_match b)) then matched_rank (sc_match b) <? matched_rank (sc_match a)
  else if negb (Nat.eqb (sc_known a) (sc_known b)) then Nat.ltb (sc_known b) (sc_known a)
  else if negb (f_total_leb (sc_score a) (sc_score b) && f_total_leb (sc_score b) (sc_score a)) then f_total_leb (sc_score b) (sc_score a)
  else if negb (a_at (sc_found a) =? a_at (sc_found b)) then a_at (sc_found b) <? a_at (sc_found a)
  else pk_leb (a_group (sc_found a)) (a_group (sc_found b)).
Definition rank_found (found : list Announcement) (known : gmap PublicKey nat) (query : string) (now : Timestamp)
    : list Announcement :=
  let words := map str_lowercase (words_of query) in
  map sc_found (isort scored_leb
    (filter_map (fun a => let! m := matches a query words in
                          Some (mkScored m (opt_get 0%nat (known !! a_group a)) (score a now) a))
       (List.filter (fun a => sat_sub now (a_at a) <=? STALE_AFTER) found))).

(** Who this person knows, and each group's newest word. *)
Fixpoint known_from (l : list (PublicKey * option GroupState)) (who : PublicKey) : M (gset PublicKey) :=
  match l with
  | [] => ret ∅
  | (g, s) :: t =>
      let* here := (match s with
                    | Some s =>
                        if gs_public s || negb (is_member s who) then ret ∅
                        else let* an := anchors g in ret (dom (gs_members s) ∖ list_to_set an)
                    | None => ret ∅
                    end) in
      let* more := known_from t who in
      ret (here ∪ more)
  end.
Definition people_known : M (gset PublicKey) :=
  let* n := get in
  let* members := known_from (group_list n) (me n) in
  let* l := dms in
  ret ((members ∪ list_to_set (map dm_from l) ∪ list_to_set (map dm_to l)) ∖ {[me n]}).
Record Browsed := mkBrowsed { br_found : list Announcement; br_known : gmap PublicKey (list PublicKey) }.
Definition newest_lists (known : gset PublicKey) (lists : list Event) : gmap PublicKey (Timestamp * list PublicKey) :=
  foldl (fun m e =>
    match read_groups_list e with
    | Some (who, gs) =>
        if bool_decide (who ∈ known) && is_none_or (m !! who) (fun x => x.1 <? ev_created_at e)
        then <[who := (ev_created_at e, gs)]> m else m
    | None => m
    end) ∅ lists.
Definition known_by_group (lists : gmap PublicKey (Timestamp * list PublicKey)) : gmap PublicKey (list PublicKey) :=
  foldl (fun m '(who, (_, gs)) => foldl (fun m g => <[g := opt_get [] (m !! g) ++ [who]]> m) m gs) ∅
    (map_entries pk_leb lists).
(** A tie goes to the withdrawal. *)
Definition later (h n : Heard) : bool :=
  (heard_at n <? heard_at h)
  || ((heard_at n =? heard_at h) && match h with Withdrawn _ _ => true | Public _ => false end).
Definition newest_heard (heard : list Event) : gmap PublicKey Heard :=
  foldl (fun m h => if is_none_or (m !! heard_group h) (later h) then <[heard_group h := h]> m else m) ∅
    (filter_map announcement_read heard).
(** With a public link to that very group. *)
Definition own_link (a : Announcement) : bool :=
  match InviteLink_parse (a_link a) with
  | Ok l => bool_decide (il_group l = a_group a) && negb (opt_bool (il_code l))
  | Err _ => false
  end.
Definition browsed_of (known : gset PublicKey) (heard lists : list Event) : Browsed :=
  mkBrowsed
    (List.filter own_link
       (filter_map (fun x => match x.2 with Public a => Some a | Withdrawn _ _ => None end) (map_entries pk_leb (newest_heard heard))))
    (known_by_group (newest_lists known lists)).
Record CommunityView := mkCommunity {
  cm_group : string; cm_name : string; cm_about : string; cm_members : Z; cm_known : list string; cm_known_count : nat;
  cm_link : string; cm_joined : bool }.
Definition community (n : Inner) (names : gmap PublicKey string) (b : Browsed) (a : Announcement) : CommunityView :=
  let people := opt_get [] (br_known b !! a_group a) in
  mkCommunity (Views.npub (a_group a)) (a_name a) (a_about a) (a_members a)
    (map (fun p => opt_get (short_npub p) (names !! p)) (take KNOWN_NAMED people)) (length people) (a_link a)
    (is_some_and (state (n_groups n) (a_group a)) (fun s => is_member s (me n))).
Definition browse (os : Os) (b : Browsed) (query : string) : AppM (list CommunityView) :=
  let@ n := node in
  let ranked := take BROWSE_SHOWN (rank_found (br_found b) (length <$> br_known b) query (now (os_env os))) in
  let named := flat_map (fun a => take KNOWN_NAMED (opt_get [] (br_known b !! a_group a))) ranked in
  let@ ns := on_node (names named) in
  a_ret (map (community n ns b) ranked).
(** Asked of the relays: the announcements, and the lists of those known. *)
Definition ask_for_communities (heard : list string -> list Event) (lists : list string -> list PublicKey -> list Event)
    : AppM Browsed :=
  let@ a := app in
  match public_relays a with
  | [] => refused "no public relays to look on — set some in You"
  | relays =>
      let@ known := on_node people_known in
      let asked := take KNOWN_ASKED (set_entries pk_leb known) in
      a_ret (browsed_of (list_to_set asked) (heard relays) (match asked with [] => [] | _ => lists relays asked end))
  end.
End Publish.
