(* ===== verification/AppSpec.v ===== *)
(** What the app promises the person: no node before the key is backed up,
    buttons that do what the window says they may, counts that are exact, and
    nothing of a private group on the public relays. *)
From Stdlib Require Import SpecFloat.
From stdpp Require Import relations.
From S2P Require Import Prelude Text Nostr GroupEvent Replace Perm Zap GroupState Fold Authority Safety Escalation.
From S2P Require Import Binding Dm Groups EventStore Proto Person Node NodeOps NodeGroups StoreSpec StoreEffect NodeSpec Session Relay Sync Audio Voice.
From S2P Require Import Lightning Wallet App Views Chat Publish.

#[local] Open Scope Z_scope.

(** ** Onboarding *)
Section Onboarding.
Context {N : NostrTypes} {O : NostrOps} {T : DeviceTypes} {P : DeviceOps} {C : DmCrypto}.
Context {Y : WireTypes} {F : ProfileTypes} {NT : NodeTypes} {RT : RelayTypes} {ST : SyncTypes}.
Context {OP : Opus} {VT : VoiceTypes} {LT : LnTypes} {WT : WalletTypes} {AT : AppTypes}.
Context {K : Type} {KS : SecretStore K} {KL : SecretLaws K}.
Notation App := (App (K := K)).
Notation AppM := (AppM (K := K)).

Definition holds_key (keys : K) (npub : string) : Prop := secret_get keys npub <> Ok None.
(** A running node is the person's of [app.json], backed up and kept. *)
Definition on_duty (a : App) : Prop :=
  forall r, ap_running a = Some r ->
    stage a = Ready /\ af_npub (ap_file a) = Some (key_npub (n_person (ru_node r))) /\
    holds_key (ap_keys a) (key_npub (n_person (ru_node r))).
(** What happens to an app: onboarding, the process ended and begun again,
    other uses of the keychain and of the settings, and the node at work. *)
Inductive onboards : App -> App -> Prop :=
| o_create os made a : onboards a (create_identity os made a).1
| o_import os secret password a : onboards a (import_identity os secret password a).1
| o_confirm os tail a : onboards a (confirm_backup os tail a).1
| o_file os path password a : onboards a (backup_to_file os path password a).1
| o_reveal a : onboards a (reveal_key a).1
| o_shutdown os a : onboards a (shutdown os a).1
| o_opened os net a b : open os (ap_keys a) net (ap_disk a) = Ok b -> onboards a b
| o_keychain keys a : (forall npub, holds_key (ap_keys a) npub -> holds_key keys npub) -> onboards a (set_keys keys a)
| o_settings f a : af_npub f = af_npub (ap_file a) -> af_backed_up f = af_backed_up (ap_file a) -> onboards a (set_file f a)
| o_works r r' a : ap_running a = Some r -> n_person (ru_node r') = n_person (ru_node r) -> onboards a (set_running (Some r') a).

Lemma a_bind_run {X Z} (m : AppM X) (k : X -> AppM Z) (Q : App -> Prop) a :
  (match (m a).2 with Ok x => Q (k x (m a).1).1 | Err _ => Q (m a).1 end) -> Q (a_bind m k a).1.
Proof. unfold a_bind. by destruct (m a) as [b [x|e]]. Qed.
Lemma person_none a : (person a).2 = Ok None -> match af_npub (ap_file a) with Some npub => ~ holds_key (ap_keys a) npub | None => True end.
Proof.
  unfold person, a_bind, app. cbn. destruct (af_npub (ap_file a)) as [npub|]; [|done].
  unfold of_key, person_load, holds_key. destruct (secret_get (ap_keys a) npub) as [[s|]|]; cbn; [|tauto|done].
  destruct (from_nsec s); cbn; [|done]. by destruct (bool_decide _).
Qed.
Lemma person_same a : (person a).1 = a.
Proof.
  unfold person, a_bind, app. cbn. destruct (af_npub _); [|done]. unfold of_key. by destruct (person_load _ _) as [[]|].
Qed.
Lemma person_some a k : (person a).2 = Ok (Some k) ->
  af_npub (ap_file a) = Some (key_npub k) /\ holds_key (ap_keys a) (key_npub k).
Proof.
  unfold person, a_bind, app. cbn. destruct (af_npub (ap_file a)) as [npub|]; [|done].
  unfold of_key, person_load, holds_key. destruct (secret_get (ap_keys a) npub) as [[s|]|] eqn:E; cbn; [|done..].
  destruct (from_nsec s) as [k'|]; cbn; [|done]. destruct (bool_decide _) eqn:Eb; [|done].
  apply bool_decide_eq_true in Eb as <-. intros [= <-]. by rewrite E.
Qed.
Lemma each_person {X} (f : X -> M unit) l n : (forall x n, n_person (f x n).1 = n_person n) -> n_person (for_each f l n).1 = n_person n.
Proof.
  intros Hf. revert n. induction l as [|x l IH]; intros n; [done|]. cbn [for_each]. unfold bind.
  pose proof (Hf x n) as H. destruct (f x n) as [n1 [[]|]]; cbn [fst] in *; [by rewrite IH|done].
Qed.
Lemma started_person env k d s n : NodeOps.start env k d s = Ok n -> n_person n = k.
Proof.
  unfold NodeOps.start. destruct (held _) as [bs|]; [|done]. cbn. destruct (own_binding _ _ _ _ _) as [[[b bk] s']|]; [|done].
  cbn. destruct (held _); [|done]. cbn. destruct (held _); [|done]. cbn. intros [= <-].
  rewrite each_person; [done|]. intros g n0. destruct (group_changed_total n0 env g) as (n' & [] & -> & [W _]). apply W.
Qed.
Lemma start_node_run os who (a : App) : (start_node os who a).1 = a \/ exists r,
  ap_running a = None /\ (start_node os who a).1 = set_running (Some r) a /\ n_person (ru_node r) = who.
Proof.
  unfold start_node, a_bind, app. cbn. destruct (ap_running a); [by left|].
  destruct (NodeOps.start _ _ _ _) as [n|] eqn:E; [|by left]. right. eexists. split; [done|]. split; [reflexivity|].
  cbn. unfold add_peers. rewrite each_person; [by eapply started_person|].
  intros d n0. unfold Sync.add_peer, bind, get. by case_bool_decide.
Qed.
Lemma on_duty_started os k a : on_duty a -> stage a = Ready -> af_npub (ap_file a) = Some (key_npub k) ->
  holds_key (ap_keys a) (key_npub k) -> on_duty (start_node os k a).1.
Proof.
  intros Ha Hs Hn Hk. destruct (start_node_run os k a) as [->|(r & _ & -> & Hr)]; [done|].
  intros r' [= <-]. cbn. by rewrite Hr.
Qed.
Lemma on_duty_idle a : ap_running a = None -> on_duty a.
Proof. intros H r. by rewrite H. Qed.
(** Whoever needs a new identity has no node running. *)
Lemma require_new_idle a : on_duty a -> (require_new a).1 = a /\ ((require_new a).2 = Ok tt -> ap_running a = None).
Proof.
  intros Ha. unfold require_new, a_bind, app. cbn -[person].
  destruct (af_npub (ap_file a)) as [npub|] eqn:En; cbn -[person].
  - pose proof (person_same a) as Hs. pose proof (person_none a) as Hn. rewrite En in Hn.
    destruct (person a) as [b [[k|]|e]]; cbn in Hs, Hn |- *; subst b; [by split| |by split]. split; [done|]. intros _.
    destruct (ap_running a) as [r|] eqn:Er; [|done]. destruct (Ha r Er) as (_ & H & Hk). rewrite En in H.
    injection H as ->. destruct (Hn eq_refl). exact Hk.
  - split; [done|]. intros _. destruct (ap_running a) as [r|] eqn:Er; [|done]. destruct (Ha r Er) as (_ & H & _). congruence.
Qed.
Lemma writes_run os d (a : App) : (writes os d a).1 = (if os_writes os then set_disk (d (ap_disk a)) a else a).
Proof. unfold writes. by destruct (os_writes os). Qed.
Lemma save_file_run os f (a : App) : save_file os f a =
  if os_writes os then (set_file f (set_disk (disk_file f (ap_disk a)) a), Ok tt) else (a, Err (AIo "not written")).
Proof. unfold save_file, a_bind, writes. by destruct (os_writes os). Qed.
Lemma save_person_run k (a : App) : (exists e, save_person k a = (a, Err e)) \/
  exists keys, save_person k a = (set_keys keys a, Ok tt) /\ holds_key keys (key_npub k).
Proof.
  unfold save_person, a_bind, app, of_key. cbn. unfold person_save, of_store.
  destruct (secret_put _ _ _) as [keys|] eqn:E; cbn; [right|left; eauto]. exists keys. split; [done|].
  unfold holds_key. rewrite (get_put _ _ _ _ _ E), bool_decide_true by done. done.
Qed.
Lemma create_on_duty os made a : on_duty a -> on_duty (create_identity os made a).1.
Proof.
  intros Ha. destruct (require_new_idle a Ha) as [Hs Hi]. unfold create_identity. apply a_bind_run. rewrite Hs.
  destruct (require_new a).2 as [[]|]; [|done]. specialize (Hi eq_refl). apply a_bind_run.
  destruct (save_person_run made a) as [[e ->]|(keys & -> & _)]; [done|]. cbn [fst snd].
  unfold a_bind, app. rewrite save_file_run. by destruct (os_writes os); apply on_duty_idle.
Qed.
Lemma import_on_duty os secret password a : on_duty a -> on_duty (import_identity os secret password a).1.
Proof.
  intros Ha. destruct (require_new_idle a Ha) as [Hs Hi]. unfold import_identity. apply a_bind_run. rewrite Hs.
  destruct (require_new a).2 as [[]|]; [|done]. specialize (Hi eq_refl). cbv zeta. apply a_bind_run.
  match goal with |- match (?m a).2 with _ => _ end => assert (Hm : (m a).1 = a); [|destruct (m a) as [a' [k|]]; cbn in Hm |- *; subst a'; [|done]] end.
  { destruct (starts_with _ _); [destruct password; [|done]|]; unfold of_key; [by destruct (from_ncryptsec _ _)|by destruct (from_nsec _)]. }
  apply a_bind_run. destruct (save_person_run k a) as [[e ->]|(keys & -> & Hk)]; [done|]. cbn [fst snd].
  unfold a_bind at 1, app. apply a_bind_run. rewrite save_file_run.
  destruct (os_writes os); cbn [fst snd]; [|by apply on_duty_idle]. apply a_bind_run.
  set (b := set_file _ _). assert (Hb : on_duty (start_node os k b).1) by (apply on_duty_started; [by apply on_duty_idle|done..]).
  by destruct (start_node os k b).2.
Qed.
Lemma backed_up_on_duty os a : on_duty a -> ap_running a = None -> on_duty (backed_up os a).1.
Proof.
  intros Ha Hi. unfold backed_up. unfold a_bind at 1, app. cbv zeta. apply a_bind_run. rewrite save_file_run.
  destruct (os_writes os); cbn [fst snd]; [|done]. set (b := set_file _ _). apply a_bind_run. rewrite person_same.
  destruct (person b).2 as [[k|]|] eqn:E; [|by apply on_duty_idle..]. apply person_some in E as [Hn Hk].
  apply on_duty_started; [by apply on_duty_idle| |done..]. unfold stage. by rewrite Hn.
Qed.
Lemma backup_idle a : on_duty a -> stage a = Backup -> ap_running a = None.
Proof. intros Ha Hs. destruct (ap_running a) as [r|] eqn:E; [|done]. destruct (Ha r E) as [H _]. congruence. Qed.
Lemma reveal_run a : (reveal_key a).1 = a /\ (forall k, (reveal_key a).2 = Ok k -> stage a = Backup /\
  exists who, (person a).2 = Ok (Some who) /\ k = reveal_nsec_for_backup who).
Proof.
  unfold reveal_key. unfold a_bind at 1 3, app. destruct (stage a) eqn:Es; [done| |done]. unfold a_bind. pose proof (person_same a) as Hp.
  destruct (person a) as [b [[k|]|]]; cbn in *; subst b; split; try done. intros k' [= <-]. eauto.
Qed.
Lemma confirm_on_duty os tail a : on_duty a -> on_duty (confirm_backup os tail a).1.
Proof.
  intros Ha. destruct (reveal_run a) as [Hr Hk]. unfold confirm_backup. apply a_bind_run. rewrite Hr.
  destruct (reveal_key a).2 as [k|]; [|done]. destruct (Hk k eq_refl) as [Hs _].
  destruct (bool_decide _); [|done]. apply backed_up_on_duty; [done|by apply backup_idle].
Qed.
Lemma file_on_duty os path password a : on_duty a -> on_duty (backup_to_file os path password a).1.
Proof.
  intros Ha. unfold backup_to_file. destruct (_ <? _); [done|]. apply a_bind_run. rewrite person_same.
  destruct (person a).2 as [[k|]|]; [|done..]. apply a_bind_run.
  assert (forall X (r : result KeyError X) (a : App), (of_key r a).1 = a) as He by (by intros X []). rewrite He.
  destruct (of_key _ a).2 as [text|]; [|done]. apply a_bind_run. rewrite writes_run. unfold writes.
  destruct (os_writes os); cbn [snd change]; [|done]. set (b := set_disk _ _). assert (Hb : on_duty b) by done.
  unfold a_bind, app. destruct (stage b) eqn:Es; [done| |done]. by apply backed_up_on_duty, backup_idle.
Qed.
Lemma opened_on_duty os keys net d b : open os keys net d = Ok b -> on_duty b.
Proof.
  unfold open. destruct (dk_file d) as [f|]; [|done]. set (a := opened _ _ _ _).
  assert (Ha : on_duty a) by by apply on_duty_idle.
  destruct (stage a) eqn:Es; [by intros [= <-]..|]. unfold a_bind. pose proof (person_same a) as Hp.
  destruct (person a) as [a' [[k|]|]] eqn:E; cbn in Hp; subst a'; [|by intros [= <-]|done].
  assert (E' : (person a).2 = Ok (Some k)) by by rewrite E. apply person_some in E' as [Hn Hk].
  pose proof (on_duty_started os k a Ha Es Hn Hk). destruct (start_node os k a) as [b' [|]]; [|done]. by intros [= <-].
Qed.
Lemma onboards_duty a b : on_duty a -> onboards a b -> on_duty b.
Proof.
  intros Ha H. destruct H.
  - by apply create_on_duty.
  - by apply import_on_duty.
  - by apply confirm_on_duty.
  - by apply file_on_duty.
  - by rewrite (proj1 (reveal_run a)).
  - unfold shutdown, a_bind, app. cbn. by destruct (ap_running a); [apply on_duty_idle|].
  - by eapply opened_on_duty.
  - intros r Hr. destruct (Ha r Hr) as (? & ? & ?). split_and!; [done..|]. by apply H.
  - intros r Hr. destruct (Ha r Hr) as (Hs & ? & ?). unfold stage in *. cbn. rewrite H, H0. done.
  - intros r2 [= <-]. cbn. rewrite H0. by apply (Ha r).
Qed.
(** C8. However an app got here - identities made, imported and backed up,
    the process ended and begun again, settings and keychain used - its node
    runs only once the key is backed up, as the person of [app.json] whose key
    the keychain holds; and the key is shown only while no node runs. *)
Theorem runs_only_backed_up os net keys d a b : open os keys net d = Ok a -> rtc onboards a b ->
  (forall r, ap_running b = Some r -> stage b = Ready /\ af_npub (ap_file b) = Some (key_npub (n_person (ru_node r)))) /\
  (forall k, (reveal_key b).2 = Ok k -> stage b = Backup /\ ap_running b = None).
Proof.
  intros Ho Hab. assert (Hb : on_duty b).
  { apply opened_on_duty in Ho. induction Hab as [|a b c Hab _ IH]; [done|]. apply IH. by eapply onboards_duty. }
  split; [intros r Hr; by destruct (Hb r Hr) as (? & ? & _)|]. intros k Hk.
  destruct (reveal_run b) as [_ H]. destruct (H k Hk) as [Hs _]. split; [done|by apply backup_idle].
Qed.
(** With its key gone from the keychain, a running app makes another identity:
    [app.json] names the new person while the node goes on as the old one. *)
Theorem replaced_under_its_node os made a r keys : ap_running a = Some r -> os_writes os = true ->
  is_some_and (af_npub (ap_file a)) (fun npub => match secret_get (ap_keys a) npub with Ok None => true | _ => false end) = true ->
  secret_put (ap_keys a) (key_npub made) (reveal_nsec_for_backup made) = Ok keys ->
  key_npub made <> key_npub (n_person (ru_node r)) ->
  exists b, create_identity os made a = (b, Ok (key_npub made)) /\ stage b = Backup /\ ap_running b = Some r /\
    af_npub (ap_file b) <> Some (key_npub (n_person (ru_node r))).
Proof.
  intros Hr Hw Hl Hp Hne. destruct (af_npub (ap_file a)) as [npub|] eqn:En; [|done]. cbn in Hl.
  destruct (secret_get (ap_keys a) npub) as [[]|] eqn:Eg; try done.
  assert (Hperson : person a = (a, Ok None)).
  { unfold person, a_bind, app, person_load, of_store. rewrite En, Eg. done. }
  assert (Hnew : require_new a = (a, Ok tt)) by by unfold require_new, a_bind, app; rewrite En; cbn -[person]; rewrite Hperson.
  assert (Hsave : save_person made a = (set_keys keys a, Ok tt))
    by by unfold save_person, a_bind, app, person_save, of_store; rewrite Hp.
  eexists. unfold create_identity. unfold a_bind at 1. rewrite Hnew. unfold a_bind at 1. rewrite Hsave.
  unfold a_bind, app. rewrite save_file_run, Hw.
  split; [reflexivity|]. split_and!; cbn; [done|done|congruence].
Qed.
End Onboarding.

(** ** Buttons *)
Section Buttons.
Context {N : NostrTypes} {O : NostrOps} {L : NostrLaws} {Y : WireTypes}.

Lemma require_ok s p needed : (exists u, require s p needed = Ok u) <-> Perm.contains (base s p) needed = true.
Proof. unfold require. destruct (Perm.contains _ _); split; intros H; try done; [by exists tt|by destruct H]. Qed.
Lemma outsider_may_nothing s p needed : wf s -> is_member s p = false -> 0 < needed -> Perm.contains (base s p) needed = false.
Proof.
  intros Hw Hm Hn. destruct (is_owner s p) eqn:Ho.
  - apply is_owner_eq, (wf_owner s Hw) in Ho. unfold is_member in Hm. by rewrite Ho in Hm.
  - rewrite base_outsider; [|done|unfold is_member in Hm; by destruct (gs_members s !! p)].
    unfold Perm.contains, Perm.NONE. rewrite Z.land_0_l. by apply Z.eqb_neq; lia.
Qed.
Lemma outranks_not_owner s a p : outranks s a p = true -> is_owner s p = false.
Proof. unfold outranks. by destruct (is_owner s p). Qed.
(** The one guard behind the kick, ban and mute buttons. *)
Lemma act_guards {X} s me p needed (yes : X) : wf s -> 0 < needed ->
  outranks s me p && Perm.contains (base s me) needed = true <->
  exists x, (let? _ := require_member s me in
             guard negb (is_owner s p) else TheOwner in
             let? _ := require s me needed in
             guard outranks s me p else Outranked in Ok yes) = Ok x.
Proof.
  intros Hw Hn. unfold require_member, require. split.
  - intros [Ho Hc]%andb_true_iff. exists yes. rewrite (outranks_not_owner _ _ _ Ho), Ho, Hc.
    destruct (is_member s me) eqn:Hm; [done|]. by rewrite outsider_may_nothing in Hc.
  - intros [x Hx]. destruct (is_member s me), (is_owner s p), (Perm.contains _ _), (outranks s me p); done.
Qed.

Lemma granted_ok s actor wanted rs : roles_wf (gs_roles s) -> forall acc, is_u64 acc -> Perm.subset acc (base s actor) ->
  (forall r, r ∈ rs -> exists role, gs_roles s !! r = Some role /\ outranks_role s actor role = true /\
     (r ∈ wanted -> Perm.subset (r_perms role) (base s actor))) ->
  exists g, Fold.granted s actor wanted acc rs = Ok g /\ can_grant s actor g = true.
Proof.
  intros Hw. induction rs as [|r rs IH]; intros acc Ha Hb H; cbn [Fold.granted].
  - exists acc. split; [done|]. by apply can_grant_subset.
  - destruct (H r) as (role & Hr & Ho & Hs); [by left|]. rewrite Hr. cbn [ok_or]. rewrite Ho. apply IH.
    + case_bool_decide; [|done]. apply Perm.union_u64; [done|]. by eapply role_sanitized_u64.
    + case_bool_decide; [|done]. apply Perm.union_subset; auto.
    + intros x Hx. apply H. by right.
Qed.
(** What may be ticked: a role one may assign; and unticked: one outranked. *)
Definition may_change (s : GroupState) (me : PublicKey) (held wanted : gset string) : Prop :=
  (forall r, r ∈ wanted ∖ held -> may_assign s me r = true) /\
  (forall r, r ∈ held ∖ wanted -> is_some_and (gs_roles s !! r) (outranks_role s me) = true).
Lemma put_may s me p at_ held wanted : wf s -> gs_members s !! p = Some held -> wanted <> held ->
  (forall r, r ∈ wanted -> r <> DEFAULT_ROLE /\ is_Some (gs_roles s !! r)) ->
  (exists s', apply_put s me at_ p wanted = Ok s') <->
  outranks s me p && Perm.contains (base s me) Perm.MANAGE_ROLES = true /\ may_change s me held wanted.
Proof.
  intros Hw Hp Hne Hk. unfold apply_put.
  assert (Hf : filter (fun r : string => r <> DEFAULT_ROLE) wanted = wanted).
  { apply set_eq. intros r. rewrite elem_of_filter. split; [tauto|]. intros Hr. split; [by apply Hk|done]. }
  rewrite Hf, Hp. cbn [opt_bool negb opt_get].
  assert (He : existsb (fun r => bool_decide (r = OWNER_MARK) || negb (opt_bool (gs_roles s !! r)))
                 (set_entries String.leb wanted) = false).
  { apply not_true_iff_false. rewrite existsb_exists. intros (r & Hr & Hx).
    apply list_elem_of_In, set_entries_elem, Hk in Hr as [_ [role Hr]]. rewrite Hr in Hx. cbn in Hx. rewrite orb_false_r in Hx.
    apply bool_decide_eq_true in Hx as ->. by rewrite (rw_mark _ (wf_roles s Hw)) in Hr. }
  rewrite He. cbn [negb]. rewrite (bool_decide_eq_false_2 (wanted = held)) by done. cbn [negb andb].
  unfold require_member, require. split.
  - intros [s' H]. destruct (is_member s me); [|done]. destruct (is_owner s p); [done|]. cbn [negb] in H.
    destruct (Perm.contains _ _) eqn:Em; [|done]. destruct (outranks s me p); [|done]. cbn [negb] in H. split; [done|].
    destruct (Fold.granted _ _ _ _ _) as [g|] eqn:Eg; [|done]. destruct (can_grant s me g) eqn:Ec; [|done].
    apply granted_spec in Eg as (Hg & _ & Hall); [|apply Hw|done]. apply can_grant_subset in Ec; [|done]. split.
    + intros r Hr. destruct (Hall r) as (role & Hrole & Ho & Hs); [apply set_entries_elem; set_solver|].
      unfold may_assign. rewrite Hrole. cbn. rewrite Ho, Em, bool_decide_eq_false_2 by (apply Hk; set_solver). cbn.
      assert (can_grant s me (r_perms role) = true) as ->; [|done].
      apply can_grant_subset; [eapply role_sanitized_u64; [apply Hw|done]|].
      eapply Perm.subset_trans; [apply Hs; set_solver|done].
    + intros r Hr. destruct (Hall r) as (role & Hrole & Ho & _); [apply set_entries_elem; set_solver|]. by rewrite Hrole.
  - intros [[Ho Hc]%andb_true_iff [Hg Ht]]. rewrite (outranks_not_owner _ _ _ Ho), Ho, Hc. cbn [negb].
    destruct (is_member s me) eqn:Hm; [|by rewrite outsider_may_nothing in Hc].
    destruct (granted_ok s me wanted (set_entries String.leb ((wanted ∖ held) ∪ (held ∖ wanted))) (wf_roles s Hw) Perm.NONE)
      as (g & -> & ->); [done|apply Perm.subset_none| |by eexists].
    intros r Hr. apply set_entries_elem, elem_of_union in Hr as [Hr|Hr].
    + specialize (Hg r Hr). unfold may_assign in Hg. destruct (gs_roles s !! r) as [role|] eqn:Er; [|done]. cbn in Hg.
      bools. exists role. split_and!; [done..|]. intros _. apply can_grant_subset; [|done].
      eapply role_sanitized_u64; [apply Hw|done].
    + specialize (Ht r Hr). destruct (gs_roles s !! r) as [role|]; [|done]. exists role. split_and!; [done..|set_solver].
Qed.
Lemma remove_may s me p at_ (ban : bool) : wf s -> is_member s p = true ->
  outranks s me p && Perm.contains (base s me) (if ban then Perm.BAN_MEMBERS else Perm.KICK_MEMBERS) = true <->
  exists s', apply_remove s me at_ p ban = Ok s'.
Proof. intros Hw Hp. unfold apply_remove. rewrite Hp. cbv zeta. cbn [orb]. apply act_guards; [done|by destruct ban]. Qed.
Lemma mute_may s me p at_ u : wf s -> is_member s p = true -> at_ < u ->
  outranks s me p && Perm.contains (base s me) Perm.MUTE_MEMBERS = true <-> (apply_mute s me at_ p (Some u)).2 = Ok tt.
Proof.
  intros Hw Hp Hu. rewrite (act_guards s me p Perm.MUTE_MEMBERS tt Hw eq_refl). unfold apply_mute, mute_guards. rewrite Hp.
  destruct (require_member s me); cbn; [|split; [by intros []|done]]. destruct (negb _); [|split; [by intros []|done]].
  destruct (require s me _); cbn; [|split; [by intros []|done]]. destruct (outranks s me p); [|split; [by intros []|done]].
  rewrite (proj2 (Z.ltb_lt _ _) Hu). split; [done|by exists tt].
Qed.
(** C9. The window offers to kick, ban, mute or change the roles of a member
    exactly if the group would take the action from this person: no button is
    refused for want of rights, and none that would work is missing.  Roles can
    be given exactly if each is shown as one to give, and taken exactly if its
    holder outranks it. *)
Theorem buttons_honest s me now names anchors p held at_ : wf s -> gs_members s !! p = Some held ->
  let v := (member_view now s me names anchors p).2 in
  (mb_can_kick v = true <-> exists s', apply_remove s me at_ p false = Ok s') /\
  (mb_can_ban v = true <-> exists s', apply_remove s me at_ p true = Ok s') /\
  (forall u, at_ < u -> mb_can_mute v = true <-> (apply_mute s me at_ p (Some u)).2 = Ok tt) /\
  (forall wanted, wanted <> held -> (forall r, r ∈ wanted -> r <> DEFAULT_ROLE /\ is_Some (gs_roles s !! r)) ->
     (exists s', apply_put s me at_ p wanted = Ok s') <-> mb_can_set_roles v = true /\ may_change s me held wanted) /\
  (mb_owner v = true -> mb_can_kick v || mb_can_ban v || mb_can_mute v || mb_can_set_roles v = false) /\
  (forall r, r ∈ mb_role_ids v <-> r ∈ held).
Proof.
  intros Hw Hp v. assert (Hm : is_member s p = true) by by unfold is_member; rewrite Hp.
  split; [exact (remove_may s me p at_ false Hw Hm)|]. split; [exact (remove_may s me p at_ true Hw Hm)|].
  split; [intros u Hu; exact (mute_may s me p at_ u Hw Hm Hu)|].
  split; [intros wanted Hne Hk; exact (put_may s me p at_ held wanted Hw Hp Hne Hk)|]. split.
  - cbn. intros Ho%bool_decide_eq_true. unfold outranks. by rewrite (proj2 (is_owner_eq s p) Ho).
  - intros r. cbn. unfold held_roles. rewrite Hp. apply set_entries_elem.
Qed.
End Buttons.

(** ** Counts *)
Section Counts.
Context {N : NostrTypes} {O : NostrOps} {L : NostrLaws} {J : JsonLaws} {T : DeviceTypes} {P : DeviceOps} {C : DmCrypto}.
Context {Y : WireTypes} {F : ProfileTypes} {NT : NodeTypes} {RT : RelayTypes} {ST : SyncTypes}.
Context {OP : Opus} {VT : VoiceTypes} {LT : LnTypes} {WT : WalletTypes} {AT : AppTypes}.
Context {K : Type} {KS : SecretStore K}.

Lemma messages_spec n g : store_wf (n_store n) -> exists all, channel_messages g None n = (n, Ok all) /\ NoDup all /\
  forall e, e ∈ all <-> holds (n_store n) e /\ ev_kind e = CHAT_MESSAGE /\ tagged e g = true.
Proof.
  intros Hw. destruct (query_untimed (n_store n) (messages_filter g) Hw) as (l & Hq & Hn & Hl); try done.
  { intros nv Hnv. by apply list_elem_of_singleton in Hnv as ->. }
  exists (rev l). unfold channel_messages, bind, get, lift, messages. rewrite Hq. split; [done|].
  rewrite <- (Permutation_rev l). split; [done|]. intros e. rewrite <- (Permutation_rev l), Hl.
  unfold untimed, messages_filter, tagged, kind_in. cbn. rewrite orb_false_r, andb_true_r, andb_true_iff, Z.eqb_eq. tauto.
Qed.
(** A message shows in every group it names in an [h] tag, though the gate asks
    only the first: taken as the first's, it is listed among the messages of
    any other, whose rules nobody applied to it. *)
Theorem crossposted n env src e g n' : node_ok n -> clock_ok env -> accept_event env src e n = (n', Ok (true, ""%string)) ->
  ev_kind e = CHAT_MESSAGE -> tagged e g = true ->
  exists all, channel_messages g None n' = (n', Ok all) /\ e ∈ all.
Proof.
  intros Hok Hc Ha Hk Ht. destruct (accept_total n env src e Hok Hc) as (n1 & v & Hr & Ho). rewrite Ha in Hr. injection Hr as <- <-.
  destruct (messages_spec n' g (k_wf _ _ _ _ (o_ok _ _ _ _ _ Ho))) as (all & Hrun & _ & Hall). exists all. split; [done|].
  apply Hall. split; [|done]. destruct (o_taken _ _ _ _ _ Ho eq_refl) as [_ Hh]. apply Hh; [|by rewrite Hk].
  unfold slot, kind_in. by rewrite Hk.
Qed.
(** C30. What the window counts as unread: in each channel this person may
    see, and no other, the messages held there that someone else wrote after
    the read mark, each once; a channel with none is not listed. *)
Theorem unread_exact n g st marks now has_key : node_ok n -> state (n_groups n) g = Some st -> is_member st (me n) = true ->
  exists all, channel_messages g None n = (n, Ok all) /\
  forall c k, mkUnread (Views.npub g) c k ∈ unread_in (me n) marks all (group_view now (me n) has_key (g, Some st)) <->
    (exists ch, ch ∈ gs_channels st /\ ch_id ch = c) /\ Perm.contains (effective st (me n) c) Perm.VIEW_CHANNEL = true /\
    (0 < k)%nat /\
    exists l, NoDup l /\ length l = k /\ forall e, e ∈ l <->
      holds (n_store n) e /\ ev_kind e = CHAT_MESSAGE /\ tagged e g = true /\ channel_of e = Some c /\
      ev_pubkey e <> me n /\ mark_of marks (Views.npub g) c < ev_created_at e.
Proof.
  intros Hok Hst Hme. destruct (messages_spec n g (k_wf _ _ _ _ Hok)) as (all & Hrun & Hnd & Hall).
  exists all. split; [done|]. intros c k. unfold unread_in, group_view. rewrite Hme. cbn [gv_channels gv_id].
  rewrite flat_map_elem. setoid_rewrite list_elem_of_fmap. setoid_rewrite filter_elem.
  set (counted := List.filter (newer (me n) (mark_of marks (Views.npub g) c) c) all).
  assert (Hl : NoDup counted /\ forall e, e ∈ counted <-> holds (n_store n) e /\ ev_kind e = CHAT_MESSAGE /\ tagged e g = true /\
    channel_of e = Some c /\ ev_pubkey e <> me n /\ mark_of marks (Views.npub g) c < ev_created_at e).
  { split; [by apply nodup_filter|]. intros e. unfold counted. rewrite filter_elem, Hall. unfold newer.
    rewrite !andb_true_iff, negb_true_iff, bool_decide_eq_false, bool_decide_eq_true, Z.ltb_lt. tauto. }
  destruct Hl as [Hcn Hc]. split.
  - intros (cv & (ch & -> & Hch & Hv) & Hu). cbn [cv_id] in Hu. destruct (Nat.eqb _ 0) eqn:E0; [by apply not_elem_of_nil in Hu|].
    apply list_elem_of_singleton in Hu. injection Hu as -> ->. apply Nat.eqb_neq in E0.
    split; [by exists ch|]. split; [done|]. split; [lia|]. by exists counted.
  - intros ((ch & Hch & <-) & Hv & Hk & l & Hnl & <- & Hle). eexists. split; [by exists ch|]. cbn [cv_id].
    assert (Hlen : length l = length counted) by (apply Permutation_length, NoDup_Permutation; [done..|]; intros e; by rewrite Hle, Hc).
    fold counted. rewrite Hlen in Hk |- *. rewrite (proj2 (Nat.eqb_neq _ _)) by lia. by apply list_elem_of_singleton.
Qed.

(** ** Channel ids *)
Lemma append_inj_l s a b : s +:+ a = s +:+ b -> a = b.
Proof. induction s as [|c s IH]; cbn; [done|]. intros [= H]. auto. Qed.
Lemma free_name_none tries : forall n slug taken, free_name tries n slug taken = None ->
  forall i, (i < tries)%nat -> taken (slug +:+ "-" +:+ show_u (n + Z.of_nat i)) = true.
Proof.
  induction tries as [|tries IH]; intros n slug taken H i Hi; [lia|]. cbn [free_name] in H.
  destruct (taken _) eqn:E; [|done]. destruct i as [|i]; [by rewrite Z.add_0_r|].
  replace (n + Z.of_nat (S i)) with (n + 1 + Z.of_nat i) by lia. eapply IH; [exact H|lia].
Qed.
Lemma free_name_some tries : forall n slug taken s, free_name tries n slug taken = Some s -> taken s = false.
Proof.
  induction tries as [|tries IH]; intros n slug taken s; cbn [free_name]; [done|].
  destruct (taken _) eqn:E; [apply IH|]. by intros [= <-].
Qed.
(** A new channel's id is never one the group has, however many there are:
    of one number more than there are channels, one is free. *)
Theorem channel_id_free name taken : Z.of_nat (length taken) < 2147483645 -> channel_id name taken ∉ taken.
Proof.
  intros Hlen. unfold channel_id. case_bool_decide as Hin; [|done].
  destruct (free_name _ 2 (slug_of name) _) as [s|] eqn:E; cbn [opt_get].
  { by apply free_name_some, bool_decide_eq_false in E. }
  exfalso. set (f := fun i => slug_of name +:+ "-" +:+ show_u (2 + Z.of_nat i)).
  assert (Hsub : forall x, x ∈ map f (seq 0 (S (length taken))) -> x ∈ taken).
  { intros x (i & -> & Hi%elem_of_seq)%list_elem_of_fmap. eapply bool_decide_eq_true, (free_name_none _ _ _ _ E). lia. }
  assert (Hnd : NoDup (map f (seq 0 (S (length taken))))).
  { apply NoDup_fmap_2_strong; [|apply NoDup_seq]. intros i j Hi%elem_of_seq Hj%elem_of_seq Hf.
    unfold f in Hf. apply append_inj_l, append_inj_l in Hf. apply (f_equal (parse_u U64_MAX)) in Hf.
    rewrite !parse_show_u in Hf by (unfold U64_MAX in *; lia). injection Hf. lia. }
  pose proof (submseteq_length _ _ (NoDup_submseteq _ _ Hnd Hsub)) as Hl. rewrite length_map, length_seq in Hl. lia.
Qed.
End Counts.
