(* ===== verification/PublishSpec.v ===== *)
(** What the publisher tells the public relays, and what browsing takes from
    them: a group that is private and was never announced is mentioned nowhere,
    and a community shown is one whose own key says so now. *)
From Stdlib Require Import SpecFloat.
From S2P Require Import Prelude Text Nostr GroupEvent Replace Perm Zap GroupState Fold.
From S2P Require Import Binding Dm Groups EventStore StoreSpec Proto Person Node StoreEffect NodeSpec NodeOps Reading NodeGroups.
From S2P Require Import Session Relay Sync Audio Voice Lightning Wallet App Views Chat Publish.

#[local] Open Scope Z_scope.

Section PublishSpec.
Context {N : NostrTypes} {O : NostrOps} {L : NostrLaws} {J : JsonLaws} {T : DeviceTypes} {P : DeviceOps} {C : DmCrypto}.
Context {Y : WireTypes} {W : WireLaws} {F : ProfileTypes} {NT : NodeTypes} {RT : RelayTypes} {ST : SyncTypes}.
Context {OP : Opus} {VT : VoiceTypes} {LT : LnTypes} {WT : WalletTypes} {AT : AppTypes} {FO : FloatOps}.
Context {K : Type} {KS : SecretStore K}.

(** ** What a round sends *)
(** [m] leaves the node, sends only what [V] allows, and answers what [Q] does. *)
Definition utters {A} (n : Inner) (V : Event * list string -> Prop) (m : PubM A) (Q : A -> Prop) : Prop :=
  forall out, exists more r, m (n, out) = ((n, out ++ more), r) /\ Forall V more /\ match r with Ok a => Q a | Err _ => True end.
Lemma utters_ret {A} n V (a : A) (Q : A -> Prop) : Q a -> utters n V (p_ret a) Q.
Proof. intros H out. exists [], (Ok a). by rewrite app_nil_r. Qed.
Lemma utters_bind {A B} n V (m : PubM A) (k : A -> PubM B) Q R :
  utters n V m Q -> (forall a, Q a -> utters n V (k a) R) -> utters n V (p_bind m k) R.
Proof.
  intros Hm Hk out. destruct (Hm out) as (l & [a|e] & E & Hl & Hq); unfold p_bind; rewrite E; cbv beta iota.
  - destruct (Hk a Hq (out ++ l)) as (l' & r & Hrun & Hl' & Hr). exists (l ++ l'), r. rewrite app_assoc.
    split; [exact Hrun|]. split; [by apply Forall_app|done].
  - by exists l, (Err e).
Qed.
Lemma utters_node {A} n V (m : M A) Q : reads n m Q -> utters n V (p_node m) Q.
Proof.
  intros [H1 H2] out. unfold p_node. destruct (m n) as [n' r]. cbn in *. subst n'. exists [], r. by rewrite app_nil_r.
Qed.
Lemma utters_get n V : utters n V (p_node get) (fun x => x = n).
Proof. by apply utters_node. Qed.
Lemma utters_send n (V : Event * list string -> Prop) e l : V (e, l) -> utters n V (p_send e l) (fun _ => True).
Proof. intros H out. exists [(e, l)], (Ok tt). split; [done|]. split; [by constructor|done]. Qed.
Lemma noted_eq (done : Published) k x : <[k := x]> done !! k = Some x.
Proof. apply (lookup_insert_eq (M := gmap string)). Qed.
Lemma noted_ne (done : Published) k k' x : k' <> k -> <[k := x]> done !! k' = done !! k'.
Proof. intros H. apply (lookup_insert_ne (M := gmap string)). congruence. Qed.
(** Said under a key, of relays in the list that had not taken it. *)
Lemma utters_public n V ask key what e list done : (forall l, (forall r, r ∈ l -> r ∈ list) -> V (e, l)) ->
  utters n V (send_public ask key what e list done) (fun done' => forall k, k <> key -> done' !! k = done !! k).
Proof.
  intros HV. unfold send_public. cbv zeta. set (todo := List.filter _ list).
  assert (Htodo : forall r, r ∈ todo -> r ∈ list) by (intros r [H _]%filter_elem; exact H).
  destruct todo as [|t todo].
  - apply utters_ret. intros k Hk. by apply noted_ne.
  - apply (utters_bind _ _ _ _ (fun _ => True)); [by apply utters_send, HV|]. intros [] _.
    apply utters_ret. intros k Hk. by apply noted_ne.
Qed.

(** ** Names of keys *)
Lemma npub_inj p q : Views.npub p = Views.npub q -> p = q.
Proof.
  unfold Views.npub. destruct (pk_to_bech32 p) as [s|] eqn:Ep, (pk_to_bech32 q) as [t|] eqn:Eq; cbn; intros H.
  - subst t. apply bech32_round_trip in Ep, Eq. congruence.
  - apply bech32_round_trip in Ep. rewrite H, hex_not_bech32 in Ep. done.
  - apply bech32_round_trip in Eq. rewrite <- H, hex_not_bech32 in Eq. done.
  - pose proof (pk_hex p) as Hp. rewrite H, pk_hex in Hp. congruence.
Qed.
Lemma group_key_named (keys : K) g k : load_group_key keys g = Ok (Some k) -> keys_public_key k = g.
Proof.
  unfold load_group_key, group_key_load. destruct (of_store _) as [[s|]|]; [|done..]. cbn.
  destruct (ok_or _ _) as [k'|]; [|done]. cbn. destruct (bool_decide _) eqn:E; [|done]. intros [= <-].
  apply bool_decide_eq_true in E. by apply npub_inj.
Qed.

(** ** One round *)
Section Round.
Context (n : Inner) (Hok : node_ok n) (done0 : Published) (list : list string).

(** The profile this person published last. *)
Definition own (e : Event) : Prop := holds (n_store n) e /\ ev_pubkey e = me n /\ ev_kind e = PROFILE.
(** This person's list of groups: every row a public one they are in. *)
Definition names_mine (e : Event) : Prop :=
  ev_pubkey e = me n /\ ev_kind e = GROUPS_LIST /\ ev_content e = "" /\
  forall t, t ∈ ev_tags e -> exists g relay st, t = ["group"; pk_to_hex g; relay] /\
    state (n_groups n) g = Some st /\ gs_public st = true /\ is_member st (me n) = true.
(** What a public group says of itself, with a link for anyone; a private one,
    only that it is not public now, and only if it was announced before. *)
Definition of_group (at_ : Timestamp) (e : Event) : Prop :=
  exists st, state (n_groups n) (ev_pubkey e) = Some st /\
    if gs_public st
    then exists peers, carries (announce_builder (gs_name st) (gs_about st) (Z.of_nat (size (gs_members st)))
           (InviteLink_show (mkInviteLink (ev_pubkey e) None peers)) at_) (ev_pubkey e) e
    else carries (withdraw_builder at_) (ev_pubkey e) e /\ is_Some (done0 !! Views.npub (ev_pubkey e)).
(** What a round may send, to relays of the list: each event one of the three. *)
Definition sayable (lists : bool) (x : Event * Datatypes.list string) : Prop :=
  (forall r, r ∈ x.2 -> r ∈ list) /\
  (own x.1 \/ (names_mine x.1 /\ (lists = false -> ev_tags x.1 = [])) \/ exists at_, of_group at_ x.1).

Lemma profile_reads : reads n own_profile (fun p => forall e, p = Some e -> own e).
Proof.
  unfold own_profile. apply reads_get. eapply reads_bind; [apply (reads_lift _ _ (fun l => forall e, e ∈ l -> own e))|].
  - intros l Hq e He. set (f := latest_filter PROFILE (me n)) in *.
    set (f0 := mkFilter None (Some {[me n]}) (Some [PROFILE]) None None None None []).
    destruct (query_untimed (n_store n) f0 (k_wf _ _ _ _ Hok)) as (all & Ha & _ & Hall); try done.
    { intros nv Hnv. by apply not_elem_of_nil in Hnv. }
    assert (Hsub : l = take 1 all).
    { unfold query, f, f0, latest_filter in Hq, Ha. cbn in Hq, Ha. eapply parse_all_take in Ha.
      change (Z.to_nat (to_i64 1)) with 1%nat in Hq. erewrite Ha in Hq. by injection Hq. }
    subst l. assert (He' : e ∈ all) by (eapply elem_of_sublist; [exact He|apply sublist_take]).
    apply Hall in He' as [Hh Hu]. unfold untimed, f0 in Hu. cbn in Hu. unfold kind_in in Hu. cbn in Hu. bools.
    rewrite orb_false_r in *. bools. split; [exact Hh|]. set_solver.
  - intros l Hl. apply reads_ret. intros e He. apply Hl. destruct l; [done|]. injection He as ->. by left.
Qed.
Lemma listed_reads l : (forall g s, (g, s) ∈ l -> s = state (n_groups n) g) ->
  reads n (listed_groups l (me n)) (fun mine => forall x, x ∈ mine ->
    exists st, state (n_groups n) x.1 = Some st /\ gs_public st = true /\ is_member st (me n) = true).
Proof.
  induction l as [|[g s] l IH]; intros Hl; cbn [listed_groups].
  { apply reads_ret. intros x Hx. by apply not_elem_of_nil in Hx. }
  eapply (reads_bind _ _ _ (fun here => forall x, x ∈ here -> x.1 = g /\ is_some_and s (fun s => gs_public s && is_member s (me n)) = true)).
  - destruct (is_some_and s _) eqn:E; [|apply reads_ret; intros x Hx; by apply not_elem_of_nil in Hx].
    eapply reads_bind; [apply reads_relays|]. intros r _. apply reads_ret. by intros x ->%list_elem_of_singleton.
  - intros here Hh. eapply reads_bind; [apply IH; intros; apply Hl; by right|]. intros more Hm. apply reads_ret.
    intros x [Hx|Hx]%elem_of_app; [|by apply Hm]. destruct (Hh x Hx) as [-> Hs].
    rewrite <- (Hl g s) by left. destruct s as [st|]; [|done]. exists st. cbn in Hs. by bools.
Qed.
Lemma signed_list env mine at_ e : (forall x, x ∈ mine -> exists st, state (n_groups n) x.1 = Some st /\ gs_public st = true /\ is_member st (me n) = true) ->
  sign_at env (n_person n) (b_at (groups_list mine) at_) = Some e -> names_mine e /\ (mine = [] -> ev_tags e = []).
Proof.
  intros Hmine Hs. apply finalize_spec in Hs as [(Hk & Hc & Ht & _ & Hp) _].
  - split; [|by intros ->]. do 3 (split; [done|]). rewrite Ht. cbn.
    intros t ([g' r] & -> & Hin)%list_elem_of_fmap. destruct (Hmine _ Hin) as (st & Hst). exists g', (opt_get "" r), st.
    by rewrite tag_custom_spec.
  - cbn. intros t ([g r] & -> & _)%list_elem_of_fmap. rewrite tag_custom_spec. done.
Qed.
Lemma refreshed_same now key done k : is_Some (refreshed now key done !! k) <-> is_Some (done !! k).
Proof.
  unfold refreshed. destruct (done !! key) as [s|] eqn:E; [|tauto]. destruct (_ && _)%bool; [|tauto].
  destruct (decide (k = key)) as [->|Hne].
  - rewrite E. split; [by eauto|]. intros _. rewrite noted_eq. by eauto.
  - by rewrite noted_ne.
Qed.
(** An announcement is the group's own: of a public group what it is, of
    another that it is not. *)
Definition announces (g : PublicKey) (at_ : Timestamp) (e : Event) : Prop :=
  ev_pubkey e = g /\ exists st, state (n_groups n) g = Some st /\
    if gs_public st
    then exists peers, carries (announce_builder (gs_name st) (gs_about st) (Z.of_nat (size (gs_members st)))
           (InviteLink_show (mkInviteLink g None peers)) at_) g e
    else carries (withdraw_builder at_) g e /\ said_of e = "private"%string.
Lemma announcement_reads env keys g addr at_ :
  reads n (announcement env keys g addr at_) (fun r => forall e, r = Some e -> announces g at_ e).
Proof.
  unfold announcement. apply reads_get. destruct (state (n_groups n) g) as [st|] eqn:Est; [|by apply reads_ret].
  eapply reads_bind; [apply (reads_lift_node _ _ (fun r => forall k, r = Some k -> keys_public_key k = g))|].
  { intros [k|] Hk; [|done]. intros k' [= <-]. by eapply group_key_named. }
  intros [key|] Hkey; [|by apply reads_ret]. specialize (Hkey key eq_refl).
  eapply (reads_bind _ _ _ (announces g at_)); [|intros e He; apply reads_ret; by intros e' [= <-]].
  unfold announces. rewrite Est. destruct (gs_public st) eqn:Ep.
  - eapply (reads_bind _ _ _ (fun l => exists peers, l = mkInviteLink g None peers)).
    + unfold public_link. apply reads_get. destruct (negb _); [apply reads_fail|].
      eapply (reads_bind _ _ _ (fun _ => True)); [by apply reads_lift_node|]. intros peers _. apply reads_ret. by exists peers.
    + intros link [peers ->]. apply reads_lift_node. intros e. destruct (announce _ _ _ _ _ _) as [e'|] eqn:Ea; [|done].
      intros [= <-]. apply signed_carries in Ea as [Hc _].
      * rewrite Hkey in Hc. split; [by apply Hc|]. exists st. rewrite Ep. by eauto.
      * rewrite announce_tags. intros t. destruct (str_is_empty _); rewrite elem_of_app, !elem_of_cons, elem_of_nil; naive_solver.
  - apply reads_lift_node. intros e. destruct (announce_withdraw _ _) as [e'|] eqn:Ea; [|done]. intros [= <-].
    pose proof (withdraw_reads _ _ _ Ea) as Hw. apply signed_carries in Ea as [Hc _].
    + rewrite Hkey in Hc. split; [by apply Hc|]. exists st. rewrite Ep. split; [done|]. split; [exact Hc|].
      unfold said_of. by rewrite Hw.
    + unfold withdraw_builder. cbn [b_tags]. rewrite tag_identifier_spec, tag_custom_spec. intros t.
      rewrite !elem_of_cons, elem_of_nil. naive_solver.
Qed.
Lemma announced_utters lists env ask keys addr done g : (is_Some (done !! Views.npub g) -> is_Some (done0 !! Views.npub g)) ->
  utters n (sayable lists) (announced env ask keys addr list done g) (fun done' =>
    forall k, k <> Views.npub g -> is_Some (done' !! k) -> is_Some (done !! k)).
Proof.
  intros H0. unfold announced. cbv zeta. set (done1 := refreshed _ _ done).
  assert (H1 : forall k, is_Some (done1 !! k) <-> is_Some (done !! k)) by (intros k; apply refreshed_same).
  eapply utters_bind; [apply utters_node, announcement_reads|]. intros [e|] He.
  - destruct (He e eq_refl) as (Hp & st & Hst & Hs). destruct (_ && _)%bool eqn:Eb; [by apply utters_ret; intros k _; apply H1|].
    intros out. destruct (utters_public n (sayable lists) ask (Views.npub g) (said_of e) e list done1) with (out := out) as (m & r & Hr & Hm & Hd).
    { intros l Hl. split; [exact Hl|]. right. right. eexists. exists st. cbn [fst]. rewrite Hp. split; [done|].
      destruct (gs_public st); [exact Hs|]. destruct Hs as [Hc Hs]. split; [exact Hc|].
      apply H0, H1. rewrite bool_decide_true in Eb by done. cbn in Eb. destruct (done1 !! Views.npub g); [by eauto|done]. }
    exists m, r. split; [exact Hr|]. split; [exact Hm|]. destruct r as [done'|]; [|done]. intros k Hk. rewrite Hd by done. by apply H1.
  - apply utters_ret. intros k _. by apply H1.
Qed.
Lemma each_utters lists env ask keys addr groups : NoDup groups -> forall done,
  (forall g, g ∈ groups -> is_Some (done !! Views.npub g) -> is_Some (done0 !! Views.npub g)) ->
  utters n (sayable lists) (announce_each env ask keys addr list groups done) (fun _ => True).
Proof.
  induction 1 as [|g groups Hg _ IH]; intros done Hd; cbn [announce_each]; [by apply utters_ret|].
  eapply utters_bind; [apply announced_utters; apply Hd; by left|]. intros done' Hd'. apply IH. intros g' Hg' Hs.
  apply Hd; [by right|]. apply Hd'; [|done]. intros Heq%npub_inj. congruence.
Qed.
(** C19. Whatever a round of publishing sends, whether it ends or fails, goes to
    relays of the list and is one of three things: the profile this person holds
    of themselves; their list of groups, each row a public group they are in, and
    empty unless they list groups; or an event signed by a group's own key - of a
    public group its name, what it is about, its size and a link for anyone, of a
    private one only that it is not public, and that only if it was announced
    before.  So nothing sent mentions a private group never announced. *)
Theorem private_never_mentioned env ask keys addr list_groups :
  (forall p, Views.npub p <> "profile"%string /\ Views.npub p <> "groups"%string) ->
  exists sent r, publish_once env ask keys addr list_groups list done0 (n, []) = ((n, sent), r) /\
    Forall (sayable list_groups) sent.
Proof.
  intros Hnames. assert (H : utters n (sayable list_groups) (publish_once env ask keys addr list_groups list done0) (fun _ => True)).
  { unfold publish_once. eapply (utters_bind _ _ _ _ (fun d => forall k, k <> "profile"%string -> d !! k = done0 !! k)).
    { unfold publish_profile. eapply utters_bind; [apply utters_node, profile_reads|]. intros [e|] He; [|by apply utters_ret].
      apply utters_public. intros l Hl. split; [exact Hl|]. left. by apply He. }
    intros d1 H1. eapply (utters_bind _ _ _ _ (fun d => forall k, k <> "groups"%string -> d !! k = d1 !! k)).
    { unfold publish_groups. eapply utters_bind; [apply utters_get|]. intros n' ->.
      eapply (utters_bind _ _ _ _ (fun mine => (list_groups = false -> mine = []) /\
        forall x, x ∈ mine -> exists st, state (n_groups n) x.1 = Some st /\ gs_public st = true /\ is_member st (me n) = true)).
      { destruct list_groups.
        - eapply utters_node, reads_weaken; [apply listed_reads; apply group_list_states|]. by split.
        - apply utters_ret. split; [done|]. intros x Hx. by apply not_elem_of_nil in Hx. }
      intros mine [Hempty Hmine]. destruct (_ && _)%bool; [by apply utters_ret|].
      eapply (utters_bind _ _ _ _ (fun e => names_mine e /\ (mine = [] -> ev_tags e = []))).
      { apply utters_node. destruct (sign_at _ _ _) as [e|] eqn:Es; cbn; [|apply reads_fail].
        apply reads_ret. by eapply signed_list. }
      intros e [He Ht]. apply utters_public. intros l Hl. split; [exact Hl|]. right. left. auto. }
    intros d2 H2. eapply utters_bind; [apply utters_get|]. intros n' ->. apply each_utters.
    { unfold group_list, carried_list. rewrite map_map. cbn. rewrite map_id. apply map_entries_nodup. }
    intros g _. rewrite H2, H1; [tauto|apply Hnames..]. }
  destruct (H []) as (sent & r & Hr & Hs & _). by exists sent, r.
Qed.
End Round.

(** Said again in the same words, an event gets a later date than the one
    noted: the note keeps the first. *)
Theorem retry_not_noted env ask key what e list done s out n : done !! key = Some s -> se_what s = what ->
  now env < se_at s + 1 -> 0 <= se_at s < U64_MAX -> ev_created_at e = dated env key done ->
  exists done' s' out', send_public ask key what e list done (n, out) = ((n, out'), Ok done') /\
    done' !! key = Some s' /\ se_at s' < ev_created_at e.
Proof.
  intros Hs <- Hnow Hat He. unfold dated in He. rewrite Hs, Z.mod_small in He by (unfold U64_MAX in *; lia).
  unfold send_public. rewrite Hs. cbv zeta. cbn [opt_get]. rewrite bool_decide_eq_true_2 by done.
  destruct (List.filter _ list); eexists _, _, _; (split; [reflexivity|]); rewrite noted_eq; (split; [reflexivity|]); cbn; lia.
Qed.

(** ** Browsing *)
Definition withdrawn (h : Heard) : bool := match h with Withdrawn _ _ => true | Public _ => false end.
(** [h'] gives way to [h]: it is older, or of the same date and no withdrawal
    where [h] is none. *)
Definition gives_way (h' h : Heard) : Prop :=
  heard_at h' < heard_at h \/ heard_at h' = heard_at h /\ (withdrawn h' = true -> withdrawn h = true).
Lemma later_spec h m : if later h m then gives_way m h else gives_way h m.
Proof.
  unfold later, gives_way. destruct (Z.ltb_spec (heard_at m) (heard_at h)); cbn; [by left|].
  destruct (Z.eqb_spec (heard_at m) (heard_at h)) as [E|E]; cbn; [|by left; lia].
  destruct h as [a|g t]; cbn in *; right; split; done.
Qed.
Lemma gives_way_trans a b c : gives_way a b -> gives_way b c -> gives_way a c.
Proof. unfold gives_way. intros [?|[? ?]] [?|[? ?]]; [left; lia..|right]. split; [lia|auto]. Qed.
Lemma gives_way_refl a : gives_way a a.
Proof. by right. Qed.
Definition newest_of (l : list Heard) (h : Heard) : Prop :=
  h ∈ l /\ forall h', h' ∈ l -> heard_group h' = heard_group h -> gives_way h' h.
(** The map holds the newest word of each group heard, and nothing else. *)
Definition newest_map (l : list Heard) (m : gmap PublicKey Heard) : Prop :=
  (forall g h, m !! g = Some h -> heard_group h = g /\ newest_of l h) /\
  (forall h, h ∈ l -> is_Some (m !! heard_group h)).
Lemma newest_step l m h : newest_map l m ->
  newest_map (l ++ [h]) (if is_none_or (m !! heard_group h) (later h) then <[heard_group h := h]> m else m).
Proof.
  intros [H1 H2].
  assert (Hkeep : forall k, m !! heard_group h = Some k -> gives_way h k -> newest_of (l ++ [h]) k).
  { intros k Hk Hw. destruct (H1 _ _ Hk) as [Hg [Hin Hle]]. split; [apply elem_of_app; by left|].
    intros h' [Hh'| ->%list_elem_of_singleton]%elem_of_app Hg'; [by apply Hle|done]. }
  assert (Hother : forall g k, g <> heard_group h -> m !! g = Some k -> heard_group k = g /\ newest_of (l ++ [h]) k).
  { intros g k Hne Hk. destruct (H1 _ _ Hk) as [Hg [Hin Hle]]. split; [done|]. split; [apply elem_of_app; by left|].
    intros h' [Hh'| ->%list_elem_of_singleton]%elem_of_app Hg'; [by apply Hle|congruence]. }
  destruct (is_none_or _ _) eqn:E; split.
  - intros g k Hk. destruct (decide (g = heard_group h)) as [->|Hne]; [|rewrite lookup_insert_ne in Hk by congruence; by apply Hother].
    rewrite lookup_insert_eq in Hk. injection Hk as <-. split; [done|]. split; [apply elem_of_app; right; by left|].
    intros h' [Hh'| ->%list_elem_of_singleton]%elem_of_app Hg; [|apply gives_way_refl].
    destruct (H2 h' Hh') as [k Hk]. rewrite Hg in Hk. rewrite Hk in E. cbn in E. destruct (H1 _ _ Hk) as [Hkg [_ Hle]].
    pose proof (later_spec h k) as Hl. rewrite E in Hl. eapply gives_way_trans; [apply Hle; [done|congruence]|done].
  - intros h' [Hh'| ->%list_elem_of_singleton]%elem_of_app; [|rewrite lookup_insert_eq; by eauto].
    destruct (decide (heard_group h' = heard_group h)) as [->|]; [rewrite lookup_insert_eq; by eauto|].
    rewrite lookup_insert_ne by congruence. auto.
  - intros g k Hk. destruct (decide (g = heard_group h)) as [->|Hne]; [|by apply Hother].
    split; [by apply (H1 _ _ Hk)|]. apply Hkeep; [done|]. rewrite Hk in E. cbn in E.
    pose proof (later_spec h k) as Hl. by rewrite E in Hl.
  - intros h' [Hh'| ->%list_elem_of_singleton]%elem_of_app; [auto|]. destruct (m !! heard_group h); [by eauto|done].
Qed.
Lemma newest_all l : newest_map l (foldl (fun m h => if is_none_or (m !! heard_group h) (later h) then <[heard_group h := h]> m else m) ∅ l).
Proof.
  induction l as [|h l IH] using rev_ind; [|rewrite foldl_snoc; by apply newest_step].
  split; [intros g h H; cbn in H; by rewrite lookup_empty in H|intros h H; by apply not_elem_of_nil in H].
Qed.
Lemma shown_once (l : list (PublicKey * Heard)) (f : Announcement -> bool) : NoDup l.*1 ->
  (forall g a, (g, Public a) ∈ l -> a_group a = g) ->
  NoDup (map a_group (List.filter f (filter_map (fun x => match x.2 with Public a => Some a | Withdrawn _ _ => None end) l))).
Proof.
  induction l as [|[g h] l IH]; intros Hn Hg; [constructor|]. apply NoDup_cons in Hn as [Hnot Hn].
  assert (IH' := IH Hn (fun g a H => Hg g a (list_elem_of_further _ _ _ H))). cbn.
  destruct h as [a|]; [|exact IH']. cbn. destruct (f a); [|exact IH']. cbn. apply NoDup_cons. split; [|exact IH'].
  intros (a' & Ha & [Hin _]%filter_elem)%list_elem_of_fmap. apply list_elem_of_omap in Hin as ([g' [a2|]] & Hin & [=]). subst a2.
  apply Hnot, list_elem_of_fmap. exists (g', Public a'). split; [|done]. cbn.
  rewrite <- (Hg g a) by left. rewrite Ha. apply Hg. by right.
Qed.
(** A community shown is one whose own key signed the announcement, with a
    public link to that very group, and of everything heard signed by that key
    nothing is newer and no withdrawal as new; each group is shown once; and one
    whose newest word, of any, is such an announcement is shown. *)
Theorem shown_is_current known heard lists : let found := br_found (browsed_of known heard lists) in
  NoDup (map a_group found) /\
  Forall (fun a => own_link a = true /\
    (exists e, e ∈ heard /\ announcement_read e = Some (Public a) /\ ev_verify e = true /\ ev_pubkey e = a_group a) /\
    forall e h, e ∈ heard -> announcement_read e = Some h -> ev_pubkey e = a_group a -> gives_way h (Public a)) found /\
  forall e a, e ∈ heard -> announcement_read e = Some (Public a) -> own_link a = true ->
    (forall e' h, e' ∈ heard -> announcement_read e' = Some h -> ev_pubkey e' = a_group a -> h = Public a \/ ~ gives_way (Public a) h) ->
    a ∈ found.
Proof.
  cbv zeta. unfold browsed_of, br_found, newest_heard.
  set (hs := filter_map announcement_read heard). pose proof (newest_all hs) as [H1 H2]. set (m := foldl _ ∅ hs) in *.
  assert (Hhs : forall h, h ∈ hs <-> exists e, e ∈ heard /\ announcement_read e = Some h).
  { intros h. unfold hs, filter_map. by rewrite list_elem_of_omap. }
  assert (Hfound : forall a, a ∈ filter_map (fun x : PublicKey * Heard => match x.2 with Public a => Some a | Withdrawn _ _ => None end) (map_entries pk_leb m)
      <-> m !! a_group a = Some (Public a)).
  { intros a. unfold filter_map. rewrite list_elem_of_omap. split.
    - intros ([g [a'|]] & Hx & [=]); subst a'. apply map_entries_elem in Hx. by destruct (H1 _ _ Hx) as [<- _].
    - intros Hx. exists (a_group a, Public a). by rewrite map_entries_elem. }
  split; [|split].
  - apply shown_once; [apply map_entries_nodup|]. intros g a Hx%map_entries_elem. by destruct (H1 _ _ Hx) as [<- _].
  - apply Forall_forall. intros a [Ha Hl]%filter_elem. apply Hfound in Ha. destruct (H1 _ _ Ha) as [_ [Hin Hle]].
    split; [done|]. split.
    + apply Hhs in Hin as (e & He & Hr). exists e. pose proof (announcement_sound _ _ Hr) as (Hv & Hg & _). by split_and!.
    + intros e h He Hr Hp. apply Hle; [apply Hhs; by exists e|]. pose proof (announcement_sound _ _ Hr) as (_ & Hg & _). cbn. congruence.
  - intros e a He Hr Hl Hall. apply filter_elem. split; [|done]. apply Hfound.
    assert (Hin : Public a ∈ hs) by (apply Hhs; by exists e). destruct (H2 _ Hin) as [h Hh]. cbn in Hh. rewrite Hh.
    destruct (H1 _ _ Hh) as [Hg [Hhin Hle]]. pose proof (Hle _ Hin (eq_sym Hg)) as Hw.
    apply Hhs in Hhin as (e' & He' & Hr'). pose proof (announcement_sound _ _ Hr') as (_ & Hg' & _).
    destruct (Hall e' h He' Hr' ltac:(congruence)) as [->|Hn]; [done|by destruct Hn].
Qed.
(** A group a person lists twice has them twice among those who know it, so one
    acquaintance outweighs two. *)
Theorem one_person_counts_twice who g at_ : known_by_group {[who := (at_, [g; g])]} !! g = Some [who; who].
Proof.
  unfold known_by_group, map_entries. rewrite map_to_list_singleton. cbn.
  rewrite !lookup_insert_eq, lookup_empty. done.
Qed.
End PublishSpec.
