(* ===== verification/Cli.v ===== *)
(** The command line ([crates/hit-cli/src/main.rs]): a directory of [node.json],
    [device.key] and the store, secrets in the keychain, and one command run on
    them.  A command that only signs works on the store, without a node; the
    others start the node, and leave the store as it does.

    What a command meets - the clock at each reading, keys and codes drawn, how
    writes go, the net - is a [Given]. *)
From S2P Require Import Prelude Text Nostr GroupEvent Replace Perm Zap GroupState Fold.
From S2P Require Import Binding Dm Groups EventStore Proto Person Node NodeOps Doors NodeGroups Session Relay Sync Blobs.

#[local] Open Scope Z_scope.

(** [{:?}] of a name, and how statistics print, milliseconds included. *)
Class CliTypes := { debug_str : string -> string; stats_text : SyncStats -> string }.

Section Cli.
Context {N : NostrTypes} {O : NostrOps} {T : DeviceTypes} {P : DeviceOps} {C : DmCrypto}.
Context {Y : WireTypes} {F : ProfileTypes} {NT : NodeTypes} {RT : RelayTypes} {ST : SyncTypes} {BT : BlobTypes} {CT : CliTypes}.
Context {K : Type} {KS : SecretStore K}.
#[local] Open Scope string_scope.
#[local] Open Scope Z_scope.
#[local] Open Scope list_scope.

(** ** The directory *)
Record PeerEntry := mkPeer { pe_id : string; pe_addr : option SocketAddr }.
Record NodeFile := mkNodeFile { nf_npub : string; nf_peers : list PeerEntry }.
(** [node.json]: none there, there but unreadable or not JSON, or what it says. *)
Inductive NodeJson := NoJson | BadJson (why : string) | HasJson (f : NodeFile).
Record Dir := mkDir { d_json : NodeJson; d_key : KeyFile; d_store : EventStore.Store; d_blobs : BlobStore }.
Record Machine := mkMachine { m_keys : K; m_dir : Dir; m_read : nat; m_out : list string }.
Record Given := mkGiven {
  o_data : string;
  o_service : string;
  o_keychain : result string unit;
  o_clock : nat -> Env;
  o_person : Keys;
  o_group : Keys;
  o_code : option string;
  o_device : DeviceKey;
  o_key_writes : KeyWrite;
  o_json_writes : KeyWrite;
  o_files : Path -> result string string;
  o_saves : Path -> string -> result string unit;
  o_key_of : list Z -> DeviceKey;
  o_key_bytes : DeviceKey -> list Z;
  o_net : nat -> Sync.Net;
  o_order : gset EndpointId -> list EndpointId;
  o_port : option Z;
  o_dials : Dials;
  o_sealed : string * string;
  o_terminal : bool;
  (** What the node does while the command waits: its syncs, its peers'. *)
  o_meanwhile : Blobs * Inner -> Blobs * Inner }.

Inductive CliError :=
| Bail (text : string) | OfNode (e : NodeError) | OfKey (e : KeyError) | OfStore (e : StoreError)
| OfLink (e : LinkError) | Io (why : string)
| Waits.
Definition CliM (X : Type) : Type := Machine -> Machine * result CliError X.
Definition c_ret {X} (x : X) : CliM X := fun m => (m, Ok x).
Definition c_fail {X} (e : CliError) : CliM X := fun m => (m, Err e).
Definition c_bind {X Z} (a : CliM X) (k : X -> CliM Z) : CliM Z :=
  fun m => let '(m, r) := a m in match r with Ok x => k x m | Err e => (m, Err e) end.
Notation "'let$' x ':=' e 'in' k" := (c_bind e (fun x => k)) (at level 200, x pattern, e at level 200, k at level 200, right associativity).
Definition c_lift {X} (r : result CliError X) : CliM X := fun m => (m, r).
Definition node_err {X} (r : result NodeError X) : CliM X := c_lift (match r with Ok x => Ok x | Err e => Err (OfNode e) end).
Definition key_err {X} (r : result KeyError X) : CliM X := c_lift (match r with Ok x => Ok x | Err e => Err (OfKey e) end).
Definition store_err {X} (r : result StoreError X) : CliM X := c_lift (match r with Ok x => Ok x | Err e => Err (OfStore e) end).
Definition io {X} (r : result string X) : CliM X := c_lift (match r with Ok x => Ok x | Err why => Err (Io why) end).
Definition bails {X} (o : option X) (text : string) : CliM X := match o with Some x => c_ret x | None => c_fail (Bail text) end.
Definition machine : CliM Machine := fun m => (m, Ok m).
Definition dir : CliM Dir := let$ m := machine in c_ret (m_dir m).
Definition set_dir (d : Dir) : CliM unit := fun m => (mkMachine (m_keys m) d (m_read m) (m_out m), Ok tt).
Definition set_keychain (k : K) : CliM unit := fun m => (mkMachine k (m_dir m) (m_read m) (m_out m), Ok tt).
Definition open_store : CliM EventStore.Store := let$ d := dir in c_ret (d_store d).
Definition set_stored (s : EventStore.Store) : CliM unit :=
  let$ d := dir in set_dir (mkDir (d_json d) (d_key d) s (d_blobs d)).
Definition print (line : string) : CliM unit :=
  fun m => (mkMachine (m_keys m) (m_dir m) (m_read m) (m_out m ++ [line]), Ok tt).
Fixpoint c_each {X} (f : X -> CliM unit) (l : list X) : CliM unit :=
  match l with [] => c_ret tt | x :: t => let$ _ := f x in c_each f t end.

(** [*] of two [u64] in a release build. *)
Definition wrap64 (n : Z) : Z := n mod (U64_MAX + 1).

Section Given.
Variable w : Given.
(** [Timestamp::now()], later each time. *)
Definition clock_now : CliM Env :=
  fun m => (mkMachine (m_keys m) (m_dir m) (S (m_read m)) (m_out m), Ok (o_clock w (m_read m))).

(** [NodeFile::load], [save] and [peers]. *)
Definition load_file : CliM NodeFile :=
  let$ d := dir in
  match d_json d with
  | NoJson => c_fail (Bail ("no node in " +:+ o_data w +:+ " — run `hit-cli init` first"))
  | BadJson why => c_fail (Io why)
  | HasJson f => c_ret f
  end.
Definition save_json (f : NodeFile) : CliM unit :=
  let$ d := dir in
  let put j := set_dir (mkDir j (d_key d) (d_store d) (d_blobs d)) in
  match o_json_writes w with
  | Written => put (HasJson f)
  | NotMade why => c_fail (Io why)
  | Cut _ why => let$ _ := put (BadJson why) in c_fail (Io why)
  end.
Fixpoint file_peers (l : list PeerEntry) : CliM (list EndpointId) :=
  match l with
  | [] => c_ret []
  | p :: t =>
      let$ d := bails (ep_parse (pe_id p)) ("bad peer id " +:+ pe_id p) in
      let$ rest := file_peers t in c_ret (d :: rest)
  end.

(** [Keychain::new] and [person]. *)
Definition keychain : CliM K :=
  match o_keychain w with
  | Ok _ => let$ m := machine in c_ret (m_keys m)
  | Err why => c_fail (OfKey (SecretFailed (Unavailable why)))
  end.
Definition cli_person (f : NodeFile) : CliM Keys :=
  let$ keys := keychain in
  let$ p := key_err (person_load keys (nf_npub f)) in
  bails p ("the keychain has no key for " +:+ nf_npub f).
Definition npub_or_hex (s : string) : CliM PublicKey :=
  bails (match pk_from_bech32 s with Some p => Some p | None => pk_from_hex s end) ("not an npub: " +:+ s).
Definition cli_npub (p : PublicKey) : string := opt_get (pk_to_hex p) (pk_to_bech32 p).
Definition cli_short (p : PublicKey) : string := concat_str (take 14 (chars (cli_npub p))).
(** [hit_node::device_id]. *)
Definition load_device : CliM DeviceKey :=
  let$ d := dir in
  let '(f, r) := load_or_create (o_key_of w) (o_key_bytes w) (o_device w) (o_key_writes w) (o_data w +:+ "/device.key") (d_key d) in
  let$ _ := set_dir (mkDir (d_json d) f (d_store d) (d_blobs d)) in
  node_err (match r with Ok k => Ok k | Err why => Err (DeviceKeyFailed why) end).

(** A group by npub, or by a name only one carried group has. *)
Definition named_groups (groups : Groups) (name : string) : list PublicKey :=
  List.filter (fun g => is_some_and (state groups g) (fun s => bool_decide (gs_name s = name))) (carried_list groups).
Definition find_group (me : PublicKey) (name : string) : CliM PublicKey :=
  match (match pk_from_bech32 name with Some p => Some p | None => pk_from_hex name end) with
  | Some g => c_ret g
  | None =>
      let$ s := open_store in
      let$ groups := store_err (groups_in s me) in
      match named_groups groups name with
      | [g] => c_ret g
      | [] => c_fail (Bail ("no group called " +:+ debug_str name +:+ " here"))
      | _ => c_fail (Bail ("several groups are called " +:+ debug_str name +:+ "; use its npub"))
      end
  end.

(** ** Without a node *)
Definition offline (me : PublicKey) (e : Event) : CliM unit :=
  let$ s := open_store in
  let$ env := clock_now in
  let$ s := node_err (publish_offline s me e (now env)) in set_stored s.
Definition sign_offline (me : Keys) (b : EventBuilder) : CliM Event :=
  let$ env := clock_now in
  let$ e := key_err (ok_or (sign_at env me b) Sign) in
  let$ _ := offline (keys_public_key me) e in c_ret e.
Definition print_message (e : Event) : CliM unit :=
  if ev_kind e =? CHAT_MESSAGE then
    print (show_u (ev_created_at e) +:+ " #" +:+ opt_get "?" (channel_of e) +:+ " " +:+ cli_short (ev_pubkey e) +:+ "  " +:+ ev_content e)
  else c_ret tt.
(** The person of the directory, and the group a command names. *)
Definition with_group {X} (name : string) (f : Keys -> PublicKey -> CliM X) : CliM X :=
  let$ file := load_file in
  let$ me := cli_person file in
  let$ g := find_group (keys_public_key me) name in f me g.
(** The same, without the key. *)
Definition reading_group {X} (name : string) (f : PublicKey -> PublicKey -> CliM X) : CliM X :=
  let$ file := load_file in
  let$ me := npub_or_hex (nf_npub file) in
  let$ g := find_group me name in f me g.

Definition cmd_init : CliM unit :=
  let$ d := dir in
  match d_json d with
  | NoJson =>
      let person := o_person w in
      let$ keys := keychain in
      let$ keys := key_err (person_save person keys) in
      let$ _ := set_keychain keys in
      let$ _ := save_json (mkNodeFile (key_npub person) []) in
      let$ device := load_device in
      let$ _ := print ("npub    " +:+ key_npub person) in
      let$ _ := print ("device  " +:+ ep_to_string (device_public device)) in
      print ("The secret key is in the OS keychain (" +:+ o_service w +:+ "), not in " +:+ o_data w +:+ ".")
  | _ => c_fail (Bail (o_data w +:+ " already holds a node"))
  end.
Definition cmd_id : CliM unit :=
  let$ f := load_file in
  let$ _ := print ("npub    " +:+ nf_npub f) in
  let$ device := load_device in
  print ("device  " +:+ ep_to_string (device_public device)).
Definition cmd_peer (id : string) (addr : option SocketAddr) : CliM unit :=
  let$ f := load_file in
  let$ _ := bails (ep_parse id) "not a device id" in
  let others := List.filter (fun p => negb (bool_decide (pe_id p = id))) (nf_peers f) in
  let$ _ := save_json (mkNodeFile (nf_npub f) (others ++ [mkPeer id addr])) in
  print ("peer " +:+ id +:+ match addr with Some a => " at " +:+ addr_show a | None => "" end).

Definition cmd_create (name : string) : CliM unit :=
  let$ file := load_file in
  let$ me := cli_person file in
  let key := o_group w in
  let$ keys := keychain in
  let$ keys := key_err (group_key_save key keys) in
  let$ _ := set_keychain keys in
  let$ env := clock_now in
  let$ s := open_store in
  let$ _ := set_stored (carry_group s (keys_public_key key) (now env)) in
  let$ evs := node_err (genesis me key name false (now env)) in
  let$ _ := c_each (offline (keys_public_key me)) evs in
  let$ _ := print ("group   " +:+ key_npub key) in
  print "The group's key is in the OS keychain, like an SSH host key.".
Definition list_line (me : PublicKey) (groups : Groups) (g : PublicKey) : string :=
  match state groups g with
  | Some s => cli_npub g +:+ "  " +:+ debug_str (gs_name s) +:+ "  seq " +:+ show_u (gs_seq s) +:+ "  "
                +:+ show_u (Z.of_nat (size (gs_members s))) +:+ " members"
                +:+ (if is_member s me then "" else "  (not a member)")
  | None => cli_npub g +:+ "  (no state yet — joining?)"
  end.
Definition cmd_list : CliM unit :=
  let$ file := load_file in
  let$ me := npub_or_hex (nf_npub file) in
  let$ s := open_store in
  let$ groups := store_err (groups_in s me) in
  c_each (fun g => print (list_line me groups g)) (carried_list groups).
(** The key of a group, from the keychain. *)
Definition key_of_group (g : PublicKey) : CliM Keys :=
  let$ keys := keychain in
  let$ k := key_err (group_key_load keys (cli_npub g)) in
  bails k "the keychain holds no key for this group".
Definition cmd_export_key (name : string) : CliM unit :=
  if o_terminal w then c_fail (Bail "refusing to print a group key to a terminal; pipe it into systemd-creds")
  else reading_group name (fun _ g =>
    let$ key := key_of_group g in
    let$ mem := key_err (group_key_save (S := MemoryStore) key ∅) in
    let$ text := bails (mem !! cli_npub g) "the key did not round-trip" in print text).
Definition join_words (l : list string) : string :=
  match l with [] => "" | x :: t => x +:+ concat_str (flat_map (fun y => [","; y]) t) end.
Definition member_line (s : GroupState) (p : PublicKey) : string :=
  "  " +:+ cli_npub p +:+ (if bool_decide (Some p = gs_owner s) then " owner" else "") +:+ " "
    +:+ join_words (set_entries String.leb (opt_get ∅ (gs_members s !! p))).
Definition cmd_show (name : string) : CliM unit :=
  reading_group name (fun me g =>
    let$ st := open_store in
    let$ groups := store_err (groups_in st me) in
    let$ s := bails (state groups g) "no state for that group yet" in
    let$ _ := print (debug_str (gs_name s) +:+ "  " +:+ cli_npub g +:+ "  seq " +:+ show_u (gs_seq s)) in
    let$ _ := c_each (fun c => print ("  #" +:+ ch_id c)) (gs_channels s) in
    c_each (fun p => print (member_line s p)) (map fst (map_entries pk_leb (gs_members s)))).

Definition cmd_invite (name : string) (hours : option Z) (addr : option SocketAddr) : CliM unit :=
  with_group name (fun me g =>
    let$ code := key_err (ok_or (o_code w) Sign) in
    let$ expires := (match hours with
                     | Some h => let$ env := clock_now in c_ret (Some (ts_add (now env) (wrap64 (h * 3600))))
                     | None => c_ret None
                     end) in
    let$ _ := sign_offline me (create_invite g code expires) in
    let$ device := load_device in
    let$ s := open_store in
    let$ env := clock_now in
    let$ peers := node_err (invite_peers s (keys_public_key me) g (device_public device) addr (now env)) in
    print (InviteLink_show (mkInviteLink g (Some code) peers))).
Definition cmd_say (name text channel : string) : CliM unit :=
  with_group name (fun me g => let$ e := sign_offline me (message g channel text) in print_message e).
(** Of someone, and what to say when it is done. *)
Definition moderate_one (name who : string) (b : PublicKey -> PublicKey -> EventBuilder) (done : string) : CliM unit :=
  with_group name (fun me g =>
    let$ p := npub_or_hex who in
    let$ _ := sign_offline me (b g p) in print done).
Definition cmd_kick (name who : string) : CliM unit := moderate_one name who remove_user ("removed " +:+ who).
Definition cmd_ban (name who : string) : CliM unit := moderate_one name who ban_user ("banned " +:+ who).
Definition cmd_unban (name who : string) : CliM unit := moderate_one name who unban_user ("unbanned " +:+ who).
Definition cmd_promote (name who : string) (roles : list string) : CliM unit :=
  moderate_one name who (fun g p => put_user g p roles) (who +:+ " now holds: " +:+ join_words roles).
Definition cmd_mute (name who : string) (minutes : Z) : CliM unit :=
  with_group name (fun me g =>
    let$ until := (if 0 <? minutes then let$ env := clock_now in c_ret (Some (ts_add (now env) (wrap64 (minutes * 60)))) else c_ret None) in
    let$ p := npub_or_hex who in
    let$ _ := sign_offline me (mute_user g p until) in
    print (match until with
           | Some _ => "muted " +:+ who +:+ " for " +:+ show_u minutes +:+ " min"
           | None => "unmuted " +:+ who
           end)).
Definition cmd_channel (name id : string) (title : option string) (voice : bool) : CliM unit :=
  with_group name (fun me g =>
    let ch := mkChannel id (opt_get id title) (if voice then GroupEvent.Voice else Text) 0 in
    let$ _ := sign_offline me (edit_metadata g [EChannel ch]) in
    print ("channel " +:+ id +:+ " saved")).
Definition cmd_compact (name : string) : CliM unit :=
  reading_group name (fun me g =>
    let$ key := key_of_group g in
    let$ s := open_store in
    let$ env := clock_now in
    let$ c := node_err (compaction s key me (now env)) in
    let$ _ := c_each (offline me) c.2 in
    print ("compacted to seq " +:+ show_u c.1)).
Definition logged_in (channel : option string) (e : Event) : bool :=
  is_none_or channel (fun c => bool_decide (channel_of e = Some c)).
Definition cmd_log (name : string) (channel : option string) : CliM unit :=
  reading_group name (fun _ g =>
    let$ s := open_store in
    let$ msgs := store_err (messages s g) in
    c_each print_message (List.filter (logged_in channel) msgs)).

(** ** With the node *)
Abbreviation Bl := (Ses Blobs) (only parsing).
Definition cli_start : CliM (Blobs * Inner) :=
  let$ file := load_file in
  let$ me := cli_person file in
  let$ device := load_device in
  let$ s := open_store in
  let$ env := clock_now in
  let$ n := node_err (NodeOps.start env me device s) in
  let$ _ := set_stored (n_store n) in
  let$ peers := file_peers (nf_peers file) in
  let$ d := dir in
  c_ret (mkBlobs (d_blobs d) FilePolicy_default, (for_each add_peer peers n).1).
(** A step of the node, which the directory keeps. *)
Definition at_node {X} (f : Bl X) (c : Blobs * Inner) : CliM ((Blobs * Inner) * result NodeError X) :=
  let '(c, r) := f c in
  let$ d := dir in
  let$ _ := set_dir (mkDir (d_json d) (d_key d) (n_store c.2) (b_store c.1)) in c_ret (c, r).
(** One that never comes back is waited for until the command is stopped. *)
Definition fetching {X} (f : Fetching X) (c : Blobs * Inner) : CliM ((Blobs * Inner) * result NodeError X) :=
  let '(c, r) := f c in
  let$ c := at_node (fun _ => (c, Ok tt)) c in
  match r with Some r => c_ret (c.1, r) | None => c_fail Waits end.
Definition meanwhile (c : Blobs * Inner) : CliM (Blobs * Inner) :=
  let$ r := at_node (fun c => (o_meanwhile w c, Ok tt)) c in c_ret r.1.
Definition failed (what : string) (e : NodeError) : string := what +:+ "FAILED — " +:+ error_text e.

Definition cmd_binding : CliM unit :=
  let$ c := cli_start in print (ev_as_json (n_own_binding c.2)).
Definition cmd_join (link : string) : CliM unit :=
  let$ link := c_lift (match InviteLink_parse link with Ok l => Ok l | Err e => Err (OfLink e) end) in
  let$ c := cli_start in
  let$ env := clock_now in
  let$ r := at_node (inner (join_group env (o_net w 0) link)) c in
  print (match r.2 with
         | Ok stats => "joined " +:+ cli_npub (il_group link) +:+ " — " +:+ stats_text stats
         | Err e => failed "join " e
         end).
Definition cmd_post_file (name : string) (path : Path) (text channel : string) : CliM unit :=
  let$ c := cli_start in
  let$ g := find_group (me c.2) name in
  let$ env := clock_now in
  let$ r := at_node (attach_path env path (o_files w path)) c in
  let$ file := node_err r.2 in
  let$ env := clock_now in
  let$ r := at_node (inner (say_with env g channel text [file])) r.1 in
  let$ _ := node_err r.2 in
  let$ _ := print ("posted " +:+ at_name file +:+ " (" +:+ show_u (at_size file) +:+ " bytes) " +:+ at_hash file) in
  let$ _ := meanwhile r.1 in c_ret tt.
Definition cmd_dm_file (who : string) (path : Path) : CliM unit :=
  let$ c := cli_start in
  let$ p := npub_or_hex who in
  let$ env := clock_now in
  let$ r := at_node (send_dm_file env p path (o_files w path) (o_sealed w).1 (o_sealed w).2) c in
  let$ d := node_err r.2 in
  let$ _ := (match dm_file d.1 with
             | Some f => print ("sent " +:+ f_name f +:+ " (" +:+ show_u (f_size f) +:+ " bytes), encrypted")
             | None => c_ret tt
             end) in
  let$ _ := meanwhile r.1 in c_ret tt.
Definition cmd_get_file (hash : string) (to : Path) : CliM unit :=
  let$ c := cli_start in
  let$ c := meanwhile c in
  let$ env := clock_now in
  let$ r := fetching (fetch_file env (o_dials w) hash) c in
  match r.2 with
  | Ok _ =>
      let$ got := at_node (let^ h := r_lift (parse_hash hash) in blob_bytes h) r.1 in
      let$ bytes := node_err got.2 in
      let$ _ := node_err (blob_err (o_saves w to bytes)) in
      print ("got " +:+ show_u (str_len bytes) +:+ " bytes")
  | Err e => print (failed "get " e)
  end.
Definition cmd_lie (id name text channel : string) (ago : Z) : CliM unit :=
  let$ peer := bails (ep_parse id) "not a device id" in
  let$ c := cli_start in
  let$ g := find_group (me c.2) name in
  let$ env := clock_now in
  let at_ := Z.max 0 (now env - ago) in
  let$ e := node_err (ok_or (finalize (n_person c.2) (b_at (message g channel text) at_)) KeyFailed) in
  let$ r := at_node (inner (dial peer (o_net w 0 0%nat peer) (fun d => deliver d e))) c in
  print (match r.2 with
         | Ok (true, why) => "TAKEN " +:+ why
         | Ok (false, why) => "refused — " +:+ why
         | Err e => failed "" e
         end).
Fixpoint sync_each (present : option Event) (k : nat) (l : list EndpointId) (c : Blobs * Inner) : CliM unit :=
  match l with
  | [] => c_ret tt
  | id :: t =>
      let$ r := at_node (inner (match present with
                                | Some b => sync_presenting (o_net w k) id b
                                | None => sync_with (o_net w k) id
                                end)) c in
      let$ _ := print (match r.2 with
                       | Ok stats => fmt_short id +:+ ": " +:+ stats_text stats
                       | Err e => failed (fmt_short id +:+ ": ") e
                       end) in
      sync_each present (S k) t r.1
  end.
Definition cmd_sync (present : option Path) : CliM unit :=
  let$ c := cli_start in
  let$ present := (match present with
                   | Some path =>
                       let$ text := io (o_files w path) in
                       let$ e := io (ok_or (ev_from_json text) "not an event") in c_ret (Some e)
                   | None => c_ret None
                   end) in
  let$ env := clock_now in
  sync_each present 0 (o_order w (sync_targets env c.2)) c.
(** [{:>5}]. *)
Definition padded (s : string) : string := concat_str (repeat " " (5 - length (chars s))) +:+ s.
Definition req_line (e : Event) : string :=
  "kind " +:+ padded (show_u (ev_kind e)) +:+ "  " +:+ cli_short (ev_pubkey e) +:+ "  " +:+ ev_content e.
Definition h_filter (g : option PublicKey) : Filter :=
  mkFilter None None None None None None None (match g with Some g => [("h", {[pk_to_hex g]})] | None => [] end).
Definition cmd_req (id : string) (group : option string) : CliM unit :=
  let$ peer := bails (ep_parse id) "not a device id" in
  let$ c := cli_start in
  let$ g := (match group with Some g => let$ p := npub_or_hex g in c_ret (Some p) | None => c_ret None end) in
  let$ r := at_node (inner (Sync.fetch (o_net w 0) peer (h_filter g))) c in
  match r.2 with
  | Ok evs =>
      let$ _ := c_each (fun e => print (req_line e)) evs in
      print (show_u (Z.of_nat (length evs)) +:+ " events served")
  | Err e => print (failed "" e)
  end.
(** Until it is stopped: what is told meanwhile is printed. *)
Definition told_since (n n' : Inner) : list Event :=
  filter_map (fun f => match f with Told e => Some e | _ => None end) (drop (length (n_log n)) (n_log n')).
Definition cmd_run : CliM unit :=
  let$ c := cli_start in
  let$ _ := print ("npub    " +:+ key_npub (n_person c.2)) in
  let$ _ := print ("device  " +:+ ep_to_string (my_id c.2)) in
  let$ _ := (match o_port w with Some port => print ("port    " +:+ show_u port) | None => c_ret tt end) in
  let$ c' := meanwhile c in
  c_each print_message (told_since c.2 c'.2).

(** ** Commands *)
Inductive Cmd :=
| CInit | CId | CBinding | CPeer (id : string) (addr : option SocketAddr)
| CGroupCreate (name : string) | CGroupList | CGroupShow (group : string) | CGroupExportKey (group : string)
| CInvite (group : string) (hours : option Z) (addr : option SocketAddr)
| CJoin (link : string)
| CSay (group text channel : string)
| CKick (group npub : string)
| CChannel (group id : string) (name : option string) (voice : bool)
| CPostFile (group : string) (path : Path) (text channel : string)
| CDmFile (npub : string) (path : Path)
| CGetFile (hash : string) (to : Path)
| CBan (group npub : string) | CUnban (group npub : string)
| CMute (group npub : string) (minutes : Z)
| CLie (id group text channel : string) (ago : Z)
| CPromote (group npub : string) (roles : list string)
| CCompact (group : string)
| CLog (group : string) (channel : option string)
| CSync (present_binding : option Path)
| CReq (id : string) (group : option string)
| CRun.
Definition run_cmd (c : Cmd) : CliM unit :=
  match c with
  | CInit => cmd_init | CId => cmd_id | CBinding => cmd_binding
  | CPeer id addr => cmd_peer id addr
  | CGroupCreate name => cmd_create name | CGroupList => cmd_list
  | CGroupShow g => cmd_show g | CGroupExportKey g => cmd_export_key g
  | CInvite g hours addr => cmd_invite g hours addr
  | CJoin link => cmd_join link
  | CSay g text channel => cmd_say g text channel
  | CKick g who => cmd_kick g who
  | CChannel g id name voice => cmd_channel g id name voice
  | CPostFile g path text channel => cmd_post_file g path text channel
  | CDmFile who path => cmd_dm_file who path
  | CGetFile hash to => cmd_get_file hash to
  | CBan g who => cmd_ban g who | CUnban g who => cmd_unban g who
  | CMute g who minutes => cmd_mute g who minutes
  | CLie id g text channel ago => cmd_lie id g text channel ago
  | CPromote g who roles => cmd_promote g who roles
  | CCompact g => cmd_compact g
  | CLog g channel => cmd_log g channel
  | CSync present => cmd_sync present
  | CReq id g => cmd_req id g
  | CRun => cmd_run
  end.
End Given.
End Cli.
