(* ===== verification/CliSpec.v ===== *)
(** What the command line says is done is done: an action it signs without a
    node is one every node that folds its store applies, a command that fails
    leaves the directory as it was, and the store stays right. *)
From S2P Require Import Prelude Text Nostr GroupEvent Replace Perm Zap GroupState Fold FoldOrder.
From S2P Require Import Binding Dm Groups EventStore StoreSpec StoreEffect Proto Person Node NodeSpec NodeOps Doors NodeGroups.
From S2P Require Import Session Relay Sync Blobs Cli.

#[local] Open Scope Z_scope.

Section Published.
Context {N : NostrTypes} {O : NostrOps} {L : NostrLaws} {J : JsonLaws} {T : DeviceTypes} {P : DeviceOps} {C : DmCrypto}.
Context {Y : WireTypes} {F : ProfileTypes} {NT : NodeTypes}.

(** ** Folding a store *)
Lemma fold_groups_spec s G l : store_wf s -> exists G', fold_groups s G l = Ok G' /\
  forall g, (is_Some (g_carried G' !! g) <-> is_Some (g_carried G !! g) \/ g ∈ l) /\
    (g ∈ l -> exists evs, group_events s g = Ok evs /\ state G' g = fold g evs) /\
    (g ∉ l -> g_carried G' !! g = g_carried G !! g).
Proof.
  intros Hw. revert G. induction l as [|x t IH]; intros G; cbn.
  { exists G. split; [done|]. intros g. split; [|split; [by intros ?%not_elem_of_nil|done]].
    rewrite elem_of_nil. tauto. }
  destruct (group_events_spec s x Hw) as (a & b & _ & _ & Hg & _). rewrite Hg.
  destruct (IH (set_state (carry G x) x (fold x (a ++ b)))) as (G' & -> & H). exists G'. split; [done|]. intros g.
  assert (Hx : g_carried (set_state (carry G x) x (fold x (a ++ b))) = <[x := fold x (a ++ b)]> (g_carried G)).
  { unfold set_state, carry. cbn. destruct (g_carried G !! x) eqn:E; cbn; rewrite ?E, ?lookup_insert_eq; cbn; [done|].
    by rewrite insert_insert_eq. }
  destruct (H g) as (H1 & H2 & H3). rewrite Hx in H1, H3. rewrite elem_of_cons. split; [|split].
  - rewrite H1. destruct (decide (g = x)) as [->|Hn]; [rewrite lookup_insert_eq|rewrite lookup_insert_ne by done]; naive_solver.
  - intros [->|Hin]; [|by apply H2]. destruct (decide (x ∈ t)) as [Hin|Hin]; [by apply H2|].
    exists (a ++ b). split; [done|]. unfold state. by rewrite (H3 Hin), lookup_insert_eq.
  - intros Hn. apply Decidable.not_or in Hn as [Hne Hin]. rewrite (H3 Hin). by rewrite lookup_insert_ne.
Qed.
Lemma groups_in_spec s me : store_wf s -> exists G, groups_in s me = Ok G /\
  forall g, (is_Some (g_carried G !! g) <-> g ∈ carried_groups s) /\
    (g ∈ carried_groups s -> exists evs, group_events s g = Ok evs /\ state G g = fold g evs).
Proof.
  intros Hw. destruct (fold_groups_spec s (Groups_new me) (carried_groups s) Hw) as (G & HG & H).
  exists G. split; [done|]. intros g. destruct (H g) as (H1 & H2 & _). split; [|done]. rewrite H1. cbn.
  rewrite lookup_empty. split; [intros [[? ?]|?]; done|by right].
Qed.
Lemma insert_groups s e now s' r : insert s e now = Ok (s', r) -> t_groups s' = t_groups s.
Proof.
  assert (Hm : forall room, make_room s e (row_of e now) = Ok (inl room) -> t_groups room = t_groups s).
  { intros room. unfold make_room. destruct (List.find _ _) as [row|]; [|by intros [= <-]].
    destruct (parse _) as [c|]; [|done]. case_bool_decide; [done|]. destruct (negb _); [done|]. by intros [= <-]. }
  unfold insert. destruct (slot e); try (by intros [= <- _]).
  all: destruct (make_room _ _ _) as [[s1|a]|] eqn:E; [|by intros [= <- _]|done].
  all: destruct (conflicts _ _); intros [= <- _]; [done|cbn; by apply Hm].
Qed.

(** ** An action published *)
Definition to_fold (e : Event) (g : PublicKey) : Prop :=
  group_of e = Some g /\ tagged e g = true /\ kind_in (ev_kind e) ACTION_KINDS = true /\ ev_kind e <> CREATE_INVITE.
Definition unheard (s : EventStore.Store) (e : Event) : Prop := forall x, holds s x -> ev_id x <> ev_id e.
Lemma to_fold_regular e g : to_fold e g -> slot_d e = None /\ fold_event g e = true /\ untimed (fold_filter g) e = true
  /\ slot e <> Ephemeral /\ is_personal (ev_kind e) = false /\ ev_kind e <> GIFT_WRAP /\ kind_in (ev_kind e) STATE_KINDS = false
  /\ ev_kind e <> CREATE_GROUP.
Proof.
  intros (Hg & Ht & Hk & Hi). split; [apply regular_kinds; by rewrite Hk, orb_true_r|]. unfold fold_event. rewrite Hg, Hk.
  split; [by rewrite bool_decide_true, orb_true_r by done|]. split.
  { unfold untimed, fold_filter. cbn -[kind_in FOLD_KINDS]. unfold tagged in Ht. rewrite Ht, andb_true_r.
    unfold FOLD_KINDS, kind_in in *. rewrite !existsb_app, Hk. by rewrite !orb_true_r. }
  unfold kind_in, ACTION_KINDS in Hk. cbn [existsb] in Hk. rewrite !orb_true_iff, !Z.eqb_eq in Hk.
  unfold slot. repeat match type of Hk with _ \/ _ => destruct Hk as [Hk|Hk] end; try done; rewrite Hk in *; done.
Qed.
Lemma inserted_fresh s e now s' r : store_wf s -> unheard s e -> slot_d e = None -> slot e <> Ephemeral ->
  insert s e now = Ok (s', r) -> store_wf s' /\ forall x, holds s' x <-> x = e \/ holds s x.
Proof.
  intros Hw Hf Hs He H. destruct (insert_spec s e now Hw) as (s1 & r1 & H1 & Hw1 & Hc). rewrite H in H1. injection H1 as <- <-.
  split; [done|]. destruct Hc as [[Hr ->]|(_ & _ & Hi)].
  - exfalso. assert (Hc : conflicts s (row_of e now) = false).
    { apply not_true_is_false. rewrite conflicts_spec by done. intros (c & Hc & [Hid|[[d Hd] _]]); [by eapply Hf|congruence]. }
    revert H. unfold insert, make_room.
    assert (Hn : List.find (fun x => same_slot x (row_of e now)) (t_events s) = None).
    { destruct (List.find _ _) as [x|] eqn:E; [|done]. apply find_elem in E as [Hx E]. exfalso.
      apply not_true_iff_false in Hc. apply Hc. unfold conflicts. apply existsb_elem. exists x. by rewrite E, orb_true_r. }
    rewrite Hn, Hc. destruct (slot e); try done; by intros [= _ <-].
  - intros x. rewrite (Hi x). unfold rival. rewrite Hs. split; [tauto|]. intros [->|Hx]; [by left|]. right. split; [done|].
    by intros [[? ?] _].
Qed.
Lemma fold_with_one s s' e g evs evs' : store_wf s -> store_wf s' -> to_fold e g -> unheard s e ->
  (forall x, holds s' x <-> x = e \/ holds s x) -> group_events s g = Ok evs -> group_events s' g = Ok evs' ->
  fold g (evs ++ [e]) = fold g evs'.
Proof.
  intros Hw Hw' He Hf Hh Hg Hg'. destruct (to_fold_regular e g He) as (_ & Hfe & Hu & _ & _ & _ & Hst & _).
  destruct (group_events_spec s g Hw) as (a & b & _ & _ & Heq & Hna & Hnb & Ha & Hb).
  destruct (group_events_spec s' g Hw') as (a' & b' & _ & _ & Heq' & Hna' & Hnb' & Ha' & Hb').
  rewrite Heq in Hg. rewrite Heq' in Hg'. injection Hg as <-. injection Hg' as <-.
  assert (Hub : untimed (state_filter g) e = false).
  { unfold untimed, state_filter. cbn -[kind_in STATE_KINDS]. by rewrite Hst, andb_false_r. }
  assert (Hne : e ∉ a /\ e ∉ b) by (rewrite Ha, Hb; split; intros [Hx _]; by apply (Hf e)).
  assert (Hp : (a ++ b) ++ [e] ≡ₚ a' ++ b').
  { trans ((e :: a) ++ b); [by rewrite <- Permutation_cons_append|]. f_equiv; apply NoDup_Permutation; try done.
    - apply NoDup_cons. by split; [apply Hne|].
    - intros x. rewrite elem_of_cons, Ha, Ha', Hh. naive_solver.
    - intros x. rewrite Hb, Hb', Hh. split; [tauto|]. intros [[->|?] ?]; [congruence|done]. }
  apply fold_perm; [|done]. intros x y Hx Hy.
  assert (Hin : forall z, z ∈ (a ++ b) ++ [e] -> holds s' z).
  { intros z Hz. rewrite Hp in Hz. apply elem_of_app in Hz as [Hz|Hz]; [by apply Ha'|by apply Hb']. }
  by apply (holds_same_id s'); auto.
Qed.
(** The event is held, and the state folded from the store has applied it. *)
Definition applied_in (s : EventStore.Store) (me g : PublicKey) (e : Event) : Prop :=
  holds s e /\ exists G st, groups_in s me = Ok G /\ state G g = Some st /\ ev_id e ∈ gs_applied st.
Lemma published_applied s me e now s' g : store_wf s -> to_fold e g -> unheard s e ->
  publish_offline s me e now = Ok s' -> applied_in s' me g e.
Proof.
  intros Hw He Hf H. unfold publish_offline in H. destruct (Verified_check e) as [e0|] eqn:Ev; [|done].
  unfold Verified_check in Ev. destruct (ev_verify e); [|done]. injection Ev as <-.
  destruct (to_fold_regular e g He) as (Hs & _ & _ & Hne & Hpers & Hwrap & Hst & Hcr). destruct He as (Hg & Ht & Hk & Hi).
  destruct (groups_in_spec s me Hw) as (G & HG & HGs). rewrite HG in H. cbn [held] in H.
  destruct (judge G e now) as [j|] eqn:Ej; [|done]. unfold judge in Ej.
  destruct (kind_in (ev_kind e) CARRIED_KINDS); [|done]. destruct (_ <=? _); [|done].
  rewrite (proj2 (Z.eqb_neq _ _) Hwrap), Hpers, Hg in Ej. cbn [ok_or] in Ej.
  destruct (g_carried G !! g) as [slot|] eqn:Ec; [|done]. cbn [ok_or] in Ej. rewrite Hst in Ej.
  destruct slot as [st|]; [|done]. cbn [ok_or] in Ej. unfold judge_in_group in Ej.
  rewrite (proj2 (Z.eqb_neq _ _) Hcr), (proj2 (Z.eqb_neq _ _) Hi), Hk in Ej. destruct (is_folded st e now); [done|].
  injection Ej as <-. unfold fold_applies in H.
  assert (Hc : g ∈ carried_groups s) by (apply HGs; by rewrite Ec).
  destruct (proj2 (HGs g) Hc) as (evs & Hevs & _). rewrite Hevs in H. cbn [held] in H.
  destruct (fold g (evs ++ [e])) as [st'|] eqn:Ef; [|done]. cbn [is_some_and] in H. case_bool_decide as Ha; [|done].
  destruct (insert s e now) as [[s1 r]|] eqn:Ei; [|done]. cbn in H. injection H as <-.
  destruct (inserted_fresh s e now s1 r) as [Hw1 Hh]; try done. split; [apply Hh; by left|].
  destruct (groups_in_spec s1 me Hw1) as (G1 & HG1 & HGs1). exists G1, st'. split; [done|].
  assert (Hc1 : g ∈ carried_groups s1) by (unfold carried_groups; by rewrite (insert_groups _ _ _ _ _ Ei)).
  destruct (proj2 (HGs1 g) Hc1) as (evs1 & Hevs1 & ->). split; [|done].
  rewrite <- Ef. symmetry. by apply (fold_with_one s s1 e g).
Qed.
(** Whatever is published, the store stays right. *)
Definition store_right (s : EventStore.Store) : Prop := store_wf s /\ dated_ok s /\ forall e, holds s e -> ev_verify e = true.
Lemma published_right s me e now s' : store_right s -> now + MAX_CLOCK_SKEW <= I64_MAX -> 0 <= now ->
  publish_offline s me e now = Ok s' -> store_right s'.
Proof.
  intros (Hw & Hd & Hs) Hc Hn H. unfold publish_offline in H. destruct (Verified_check e) as [e0|] eqn:Ev; [|done].
  unfold Verified_check in Ev. destruct (ev_verify e) eqn:Hv; [|done]. injection Ev as <-.
  destruct (groups_in_spec s me Hw) as (G & HG & _). rewrite HG in H. cbn [held] in H.
  destruct (judge G e now) as [j|] eqn:Ej; [|done].
  assert (Hdate : ev_created_at e <= ts_add now MAX_CLOCK_SKEW) by (apply (judge_dated G e now (Ok j) Ej); eauto).
  assert (exists r, insert s e now = Ok (s', r)) as [r Hi].
  { destruct j; cbn in H.
    - destruct (insert s e now) as [[s1 r]|]; [|done]. cbn in H. injection H as <-. by exists r.
    - destruct (fold_applies s _ e) as [[]|]; cbn in H; try done. destruct (insert s e now) as [[s1 r]|]; [|done]. injection H as <-. by exists r. }
  destruct (insert_spec s e now Hw) as (s1 & r1 & Hi1 & Hw1 & Hcs). rewrite Hi in Hi1. injection Hi1 as <- <-.
  assert (Hin : forall x, holds s' x -> x = e \/ holds s x).
  { intros x Hx. destruct Hcs as [[_ ->]|(_ & _ & Hin)]; [by right|]. apply Hin in Hx. naive_solver. }
  split; [done|]. split.
  - intros x [->|Hx]%Hin; [|by apply Hd]. split; [by apply verified_time|].
    rewrite ts_add_exact in Hdate by (unfold MAX_CLOCK_SKEW, U64_MAX, I64_MAX in *; lia). lia.
  - intros x [->|Hx]%Hin; [done|by apply Hs].
Qed.
End Published.

(** ** The commands *)
Section CliSpec.
Context {N : NostrTypes} {O : NostrOps} {L : NostrLaws} {J : JsonLaws} {T : DeviceTypes} {P : DeviceOps} {C : DmCrypto}.
Context {Y : WireTypes} {F : ProfileTypes} {NT : NodeTypes} {RT : RelayTypes} {ST : SyncTypes} {BT : BlobTypes} {CT : CliTypes}.
Context {K : Type} {KS : SecretStore K}.
Notation Machine := (Machine (K := K)).
Notation CliM := (CliM (K := K)).
Notation "'let$' x ':=' e 'in' k" := (c_bind e (fun x => k)) (at level 200, x pattern, e at level 200, k at level 200, right associativity).

Definition same_disk (m m' : Machine) : Prop := m_dir m' = m_dir m /\ m_keys m' = m_keys m.
Lemma same_refl m : same_disk m m.
Proof. done. Qed.
Lemma same_trans m1 m2 m3 : same_disk m1 m2 -> same_disk m2 m3 -> same_disk m1 m3.
Proof. intros [H1 H2] [H3 H4]. split; congruence. Qed.
(** A run that leaves the disk as it was unless it succeeds, and then [Q]. *)
Definition done_or_not {X} (a : CliM X) (m : Machine) (Q : X -> Machine -> Prop) : Prop :=
  match a m with (m', Ok x) => Q x m' | (m', Err _) => same_disk m m' end.
(** A run that leaves the disk as it was. *)
Definition looks {X} (a : CliM X) : Prop := forall m, same_disk m (a m).1.
Lemma don_bind {X Z} (a : CliM X) (k : X -> CliM Z) m Q : looks a ->
  (forall x m1, a m = (m1, Ok x) -> same_disk m m1 -> done_or_not (k x) m1 Q) -> done_or_not (c_bind a k) m Q.
Proof.
  intros Ha Hk. unfold done_or_not, c_bind. specialize (Ha m). destruct (a m) as [m1 [x|e]] eqn:E; cbn in Ha; [|done].
  specialize (Hk x m1 eq_refl Ha). unfold done_or_not in Hk. destruct (k x m1) as [m2 [z|e]]; [done|]. by eapply same_trans.
Qed.
Lemma looks_bind {X Z} (a : CliM X) (k : X -> CliM Z) : looks a -> (forall x, looks (k x)) -> looks (c_bind a k).
Proof.
  intros Ha Hk m. unfold c_bind. specialize (Ha m). destruct (a m) as [m1 [x|e]]; [|done]. eapply same_trans; [exact Ha|apply Hk].
Qed.
Lemma looks_step {X} (a : CliM X) : (forall m, m_dir (a m).1 = m_dir m /\ m_keys (a m).1 = m_keys m) -> looks a.
Proof. exact id. Qed.
Lemma looks_ret {X} (x : X) : looks (c_ret x).
Proof. by intros m. Qed.
Lemma looks_fail {X} e : looks (c_fail (X := X) e).
Proof. by intros m. Qed.
Lemma looks_lift {X} (r : result CliError X) : looks (c_lift r).
Proof. by intros m. Qed.
Lemma looks_machine : looks machine.
Proof. by intros m. Qed.
Lemma looks_print l : looks (print l).
Proof. by intros m. Qed.
Lemma looks_clock w : looks (clock_now w).
Proof. by intros m. Qed.
Lemma looks_bails {X} (o : option X) t : looks (bails o t).
Proof. destruct o; [apply looks_ret|apply looks_fail]. Qed.
Hint Resolve @looks_ret @looks_fail @looks_lift looks_machine looks_print looks_clock @looks_bails : core.
Ltac reading :=
  repeat match goal with
    | |- looks (c_bind _ _) => apply looks_bind; [|intros ?]
    | |- looks (match _ with _ => _ end) => case_match
    | _ => solve [auto]
    end.
Lemma looks_dir : looks dir.
Proof. unfold dir. reading. Qed.
Hint Resolve looks_dir : core.
Lemma looks_load w : looks (load_file w).
Proof. unfold load_file. reading. Qed.
Lemma looks_keychain w : looks (keychain w).
Proof. unfold keychain. reading. Qed.
Hint Resolve looks_load looks_keychain : core.
Lemma looks_person w f : looks (cli_person w f).
Proof. unfold cli_person, key_err. reading. Qed.
Lemma looks_npub s : looks (npub_or_hex s).
Proof. apply looks_bails. Qed.
Lemma looks_find me name : looks (find_group me name).
Proof. unfold find_group, open_store, store_err. reading. Qed.
Hint Resolve looks_person looks_npub looks_find : core.

(** The store published to. *)
Definition posted (w : Given) (me : Keys) (b : EventBuilder) (m : Machine) (e : Event) (m' : Machine) : Prop :=
  exists env t s', sign_at env me b = Some e /\ publish_offline (d_store (m_dir m)) (keys_public_key me) e t = Ok s' /\
    m_keys m' = m_keys m /\ m_dir m' = mkDir (d_json (m_dir m)) (d_key (m_dir m)) s' (d_blobs (m_dir m)).
Lemma signs_offline w me b m : done_or_not (sign_offline w me b) m (posted w me b m).
Proof.
  unfold sign_offline, offline, key_err, node_err, c_lift, c_bind, open_store, set_stored, set_dir, dir, machine, clock_now, c_ret, done_or_not.
  cbn. destruct (sign_at (o_clock w (m_read m)) me b) as [e|] eqn:Es; cbn; [|done].
  destruct (publish_offline _ _ _ _) as [s'|] eqn:Ep; cbn; [|done].
  by exists (o_clock w (m_read m)), (now (o_clock w (S (m_read m)))), s'.
Qed.
Lemma signs_and_says w me b said m (Q : unit -> Machine -> Prop) :
  (forall e m1 m2, posted w me b m e m1 -> same_disk m1 m2 -> Q tt m2) ->
  done_or_not (let$ _ := sign_offline w me b in print said) m Q.
Proof.
  intros HQ. pose proof (signs_offline w me b m) as H. unfold done_or_not, c_bind in *.
  destruct (sign_offline w me b m) as [m1 [e|e]]; [|done]. cbn. by eapply HQ.
Qed.
(** The person of the directory. *)
Definition person_of (m : Machine) (me : Keys) : Prop :=
  exists f, d_json (m_dir m) = HasJson f /\ person_load (m_keys m) (nf_npub f) = Ok (Some me).
Lemma with_group_don {X} w name (f : Keys -> PublicKey -> CliM X) m Q :
  (forall me g m1, person_of m me -> same_disk m m1 -> done_or_not (f me g) m1 Q) -> done_or_not (with_group w name f) m Q.
Proof.
  intros HQ. unfold with_group. apply don_bind; [done|]. intros file m1 H1 S1. apply don_bind; [done|].
  intros me m2 H2 S2. apply don_bind; [done|]. intros g m3 _ S3. apply HQ; [|by eapply same_trans, same_trans].
  exists file. split.
  - unfold load_file, c_bind, dir, machine, c_ret, c_fail, c_bind in H1. cbn in H1. destruct (d_json (m_dir m)); congruence.
  - destruct S1 as [_ <-]. unfold cli_person, keychain, key_err, bails, c_lift, c_bind, machine, c_ret, c_fail in H2.
    destruct (o_keychain w); [|done]. destruct (person_load _ _) as [[k|]|]; congruence.
Qed.

(** *** What a command asks for *)
Definition moderates (c : Cmd) : option (string * option string) :=
  match c with
  | CKick g who | CBan g who | CUnban g who | CPromote g who _ | CMute g who _ => Some (g, Some who)
  | CChannel g _ _ _ => Some (g, None)
  | _ => None
  end.
Definition means (c : Cmd) (p : PublicKey) (a : Action) : Prop :=
  match c with
  | CKick _ _ => a = Remove p false
  | CBan _ _ => a = Remove p true
  | CUnban _ _ => a = Unban p
  | CPromote _ _ roles => a = Put p (list_to_set roles)
  | CMute _ _ minutes => if 0 <? minutes then exists t, a = Mute p (Some (t + minutes * 60)) else a = Mute p None
  | CChannel _ id title voice => a = AEdit [EChannel (mkChannel id (opt_get id title) (if voice then GroupEvent.Voice else Text) 0)]
  | _ => False
  end.
(** A command about someone is about someone else. *)
Definition who_else (c : Cmd) (p me : PublicKey) : Prop :=
  match moderates c with Some (_, Some _) => p <> me | _ => True end.
(** The end of a mute is a time. *)
Definition timely (w : Given) (c : Cmd) : Prop :=
  match c with
  | CMute _ _ minutes => forall k, 0 <= now (o_clock w k) /\ now (o_clock w k) + minutes * 60 <= U64_MAX
  | _ => True
  end.
Lemma to_fold_of b q e g ts : carries b q e -> b_tags b = h g :: ts -> kind_in (b_kind b) ACTION_KINDS = true ->
  b_kind b <> CREATE_INVITE -> to_fold e g.
Proof.
  intros (Hk & _ & Ht & _) Hb Ha Hi. rewrite Hb in Ht. rewrite <- Hk in Ha, Hi. repeat split; [|  |done|done].
  - eapply group_of_h; [..|exact Ht]; unfold kind_in, ACTION_KINDS, is_group_kind in *; cbn [existsb] in Ha;
      rewrite !orb_true_iff, !Z.eqb_eq in Ha; repeat match type of Ha with _ \/ _ => destruct Ha as [Ha|Ha] end; try done; by rewrite Ha.
  - unfold tagged, names_value. rewrite Ht. unfold h. rewrite tag_custom_spec. cbn. by rewrite !bool_decide_true by set_solver.
Qed.
(** A builder that says what a command asks, and does not name its signer. *)
Definition says (c : Cmd) (me g p : PublicKey) (b : EventBuilder) : Prop :=
  b_created_at b = None /\
  (forall t, t ∈ b_tags b -> t !! 0%nat = Some "p"%string -> t !! 1%nat <> Some (pk_to_hex me)) /\
  forall e, carries b me e -> to_fold e g /\ exists a, parse_action e = Some (g, a) /\ means c p a.
Lemma signed_says env c me g p b e : says c (keys_public_key me) g p b -> sign_at env me b = Some e ->
  ev_pubkey e = keys_public_key me /\ to_fold e g /\ exists a, parse_action e = Some (g, a) /\ means c p a.
Proof.
  intros (Hn & Hp & Hs) He. unfold sign_at in He. rewrite Hn in He. cbn in He.
  destruct (finalize_spec _ _ _ He) as [Hc _]; [done|]. destruct Hc as (Hk & Hct & Ht & _ & Hw).
  split; [done|]. apply Hs. repeat split; try done. by rewrite Hn.
Qed.
(** Of [p] tags, the one that names [p]. *)
Lemma says_of c me g p b ts : p <> me -> b_created_at b = None -> b_tags b = h g :: ts ->
  (forall t, t ∈ ts -> t !! 0%nat = Some "p"%string -> t !! 1%nat = Some (pk_to_hex p)) ->
  kind_in (b_kind b) ACTION_KINDS = true -> b_kind b <> CREATE_INVITE ->
  (forall e, carries b me e -> exists a, parse_action e = Some (g, a) /\ means c p a) -> says c me g p b.
Proof.
  intros Hpm Hn Ht Hp Hk Hi Hm. split; [done|]. split.
  - intros t. rewrite Ht. intros [->|Hin]%elem_of_cons H0; [unfold h in H0; by rewrite tag_custom_spec in H0|].
    rewrite (Hp t Hin H0). intros [= E]. apply Hpm. apply (f_equal pk_from_hex) in E. rewrite !pk_hex in E. by injection E.
  - intros e He. split; [by eapply to_fold_of|by apply Hm].
Qed.
Ltac one_tag := let x := fresh in let Hx := fresh in
  rewrite ?tag_custom_spec; intros x; rewrite ?elem_of_cons, ?elem_of_nil; intros Hx; repeat (destruct Hx as [->|Hx]; [done|]); done.
Lemma kick_says g0 who me g p : p <> me -> says (CKick g0 who) me g p (remove_user g p).
Proof.
  intros Hp. eapply says_of; [done..| |done|done|]; cbn; [one_tag|].
  intros e He. exists (Remove p false). split; [by eapply remove_user_parses|done].
Qed.
Lemma ban_says g0 who me g p : p <> me -> says (CBan g0 who) me g p (ban_user g p).
Proof.
  intros Hp. eapply says_of; [done..| |done|done|]; cbn; [one_tag|].
  intros e He. exists (Remove p true). split; [by eapply ban_user_parses|done].
Qed.
Lemma unban_says g0 who me g p : p <> me -> says (CUnban g0 who) me g p (unban_user g p).
Proof.
  intros Hp. eapply says_of; [done..| |done|done|]; cbn; [one_tag|].
  intros e He. exists (Unban p). split; [by eapply unban_user_parses|done].
Qed.
Lemma promote_says g0 who me g p roles : p <> me -> says (CPromote g0 who roles) me g p (put_user g p roles).
Proof.
  intros Hp. eapply says_of; [done..| |done|done|]; cbn; [one_tag|].
  intros e He. exists (Put p (list_to_set roles)). split; [by eapply put_user_parses|done].
Qed.
Lemma mute_says g0 who me g p minutes t : p <> me -> 0 <= t -> t + minutes * 60 <= U64_MAX ->
  says (CMute g0 who minutes) me g p (mute_user g p (if 0 <? minutes then Some (ts_add t (wrap64 (minutes * 60))) else None)).
Proof.
  intros Hp Ht Hb. eapply says_of; [done..| |done|done|]; cbn; [one_tag|]. intros e He. cbn [means].
  destruct (Z.ltb_spec 0 minutes) as [Hm|Hm].
  - assert (E : ts_add t (wrap64 (minutes * 60)) = t + minutes * 60).
    { unfold wrap64. rewrite Z.mod_small by (unfold U64_MAX in *; lia). apply ts_add_exact; lia. }
    rewrite E in He. eexists. split; [|by exists t]. eapply mute_user_parses; [..|exact He]; cbn; [unfold is_u64; lia|].
    intros [= ?]. lia.
  - eexists. split; [eapply mute_user_parses; [..|exact He]; done|done].
Qed.
Lemma channel_says g0 id title (voice : bool) me g p :
  let ch := mkChannel id (opt_get id title) (if voice then GroupEvent.Voice else Text) 0 in
  says (CChannel g0 id title voice) me g p (edit_metadata g [EChannel ch]).
Proof.
  intros ch. split; [done|]. split.
  - cbn. unfold h, channel_tag. rewrite !tag_custom_spec. intros t. rewrite !elem_of_cons, elem_of_nil. by intros [->|[->|?]].
  - intros e He. split; [by eapply to_fold_of|]. exists (AEdit [EChannel ch]). split; [|done].
    eapply edit_metadata_parses; [|done|exact He]. repeat constructor; cbn; by destruct voice.
Qed.
(** An action of [me], of what the command asks, applied by whoever folds the
    store the command leaves - if it was not there before. *)
Definition done_as_asked (c : Cmd) (me g p : PublicKey) (m m' : Machine) : Prop :=
  m_keys m' = m_keys m /\ d_json (m_dir m') = d_json (m_dir m) /\
  (who_else c p me -> exists e a, ev_pubkey e = me /\ parse_action e = Some (g, a) /\ means c p a /\
     (unheard (d_store (m_dir m)) e -> applied_in (d_store (m_dir m')) me g e)).
Lemma posted_done w c me g p b m e m1 m2 : store_wf (d_store (m_dir m)) ->
  (who_else c p (keys_public_key me) -> says c (keys_public_key me) g p b) ->
  posted w me b m e m1 -> same_disk m1 m2 -> done_as_asked c (keys_public_key me) g p m m2.
Proof.
  intros Hw Hs (env & t & s' & He & Hp & Hk & Hd) [S1 S2]. split; [by rewrite S2|]. split; [by rewrite S1, Hd|].
  intros Hwho. destruct (signed_says env c me g p b e (Hs Hwho) He) as (Hme & Hf & a & Ha & Hm).
  exists e, a. split_and!; [done..|]. intros Hfr. rewrite S1, Hd. cbn. by eapply published_applied.
Qed.
(** What is named: by npub, or by hex. *)
Definition named (who : option string) (p : PublicKey) : Prop :=
  forall s, who = Some s -> pk_from_bech32 s = Some p \/ (pk_from_bech32 s = None /\ pk_from_hex s = Some p).
Lemma npub_named s (m m1 : Machine) p : npub_or_hex s m = (m1, Ok p) -> named (Some s) p.
Proof.
  unfold npub_or_hex, bails, c_ret, c_fail. intros H s' [= <-]. destruct (pk_from_bech32 s) as [q|]; [left; congruence|].
  destruct (pk_from_hex s); [right; split; congruence|done].
Qed.
Definition moderated (c : Cmd) (who : option string) (m : Machine) (_ : unit) (m' : Machine) : Prop :=
  exists me g p, person_of m me /\ named who p /\ done_as_asked c (keys_public_key me) g p m m'.
Lemma signed_don w c who me g p b said m m1 : store_wf (d_store (m_dir m)) -> person_of m me -> named who p -> same_disk m m1 ->
  (who_else c p (keys_public_key me) -> says c (keys_public_key me) g p b) ->
  done_or_not (let$ _ := sign_offline w me b in print said) m1 (moderated c who m).
Proof.
  intros Hw Hme Hp [S1 S2] Hs. apply signs_and_says. intros e m2 m3 Hpost S3. exists me, g, p. split; [done|]. split; [done|].
  assert (Hw1 : store_wf (d_store (m_dir m1))) by (by rewrite S1).
  pose proof (posted_done w c me g p b m1 e m2 m3 Hw1 Hs Hpost S3) as H. unfold done_as_asked in H. by rewrite S1, S2 in H.
Qed.
Lemma moderate_don w c name who (b : PublicKey -> PublicKey -> EventBuilder) said m : moderates c = Some (name, Some who) ->
  store_wf (d_store (m_dir m)) -> (forall me g p, p <> me -> says c me g p (b g p)) ->
  done_or_not (moderate_one w name who b said) m (moderated c (Some who) m).
Proof.
  intros Hc Hw Hs. apply with_group_don. intros me g m1 Hme S1. apply don_bind; [done|]. intros p m2 Hp S2.
  apply (signed_don _ _ _ _ g p); [done|done|by eapply npub_named|by eapply same_trans|]. unfold who_else. rewrite Hc. apply Hs.
Qed.
Lemma mute_don w name who minutes m : timely w (CMute name who minutes) -> store_wf (d_store (m_dir m)) ->
  done_or_not (cmd_mute w name who minutes) m (moderated (CMute name who minutes) (Some who) m).
Proof.
  intros Ht Hw. apply with_group_don. intros me g m1 Hme S1. apply don_bind.
  { destruct (0 <? minutes); reading. }
  intros ends m2 Hu S2. apply don_bind; [done|]. intros p m3 Hp S3.
  apply (signed_don _ _ _ _ g p); [done|done|by eapply npub_named|by eapply same_trans, same_trans|]. cbn. intros Hne.
  assert (ends = if 0 <? minutes then Some (ts_add (now (o_clock w (m_read m1))) (wrap64 (minutes * 60))) else None) as ->.
  { destruct (0 <? minutes); unfold c_bind, clock_now, c_ret in Hu; congruence. }
  apply mute_says; [done|apply Ht..].
Qed.
Lemma channel_don w name id title voice m : store_wf (d_store (m_dir m)) ->
  done_or_not (cmd_channel w name id title voice) m (moderated (CChannel name id title voice) None m).
Proof.
  intros Hw. apply with_group_don. intros me g m1 Hme S1.
  apply (signed_don _ _ _ _ g (keys_public_key me)); [done..|]. intros _. apply channel_says.
Qed.
(** C21. What the command line says is done is done.  A command that moderates -
    kick, ban, unban, mute, promote, channel - and fails leaves the directory and
    the keychain as they were.  One that succeeds signed, as the person of
    [node.json], an action that says what was asked, of the person named, if
    that is someone else; and unless its event was there before, every node of
    this person that folds the store has it among the actions applied. *)
Theorem said_is_done w c name who m : moderates c = Some (name, who) -> timely w c -> store_wf (d_store (m_dir m)) ->
  match run_cmd w c m with
  | (m', Err _) => m_dir m' = m_dir m /\ m_keys m' = m_keys m
  | (m', Ok _) => exists me g p, person_of m me /\ named who p /\ done_as_asked c (keys_public_key me) g p m m'
  end.
Proof.
  intros Hc Ht Hw.
  enough (H : done_or_not (run_cmd w c) m (moderated c who m)).
  { unfold done_or_not in H. by destruct (run_cmd w c m) as [m' [[]|e]]. }
  destruct c; try done; injection Hc as <- <-; cbn [run_cmd].
  - apply moderate_don; [done..|]. intros. by apply kick_says.
  - by apply channel_don.
  - apply moderate_don; [done..|]. intros. by apply ban_says.
  - apply moderate_don; [done..|]. intros. by apply unban_says.
  - by apply mute_don.
  - apply moderate_don; [done..|]. intros. by apply promote_says.
Qed.

(** ** The store of a directory *)
Definition works_offline (c : Cmd) : bool :=
  match c with
  | CInit | CId | CPeer _ _ | CGroupCreate _ | CGroupList | CGroupShow _ | CGroupExportKey _ | CInvite _ _ _ | CSay _ _ _
  | CKick _ _ | CChannel _ _ _ _ | CBan _ _ | CUnban _ _ | CMute _ _ _ | CPromote _ _ _ | CCompact _ | CLog _ _ => true
  | _ => false
  end.
Section Kept.
Context (w : Given) (Hc : forall k, clock_ok (o_clock w k)).
Definition safely {X} (a : CliM X) : Prop := forall m, store_right (d_store (m_dir m)) -> store_right (d_store (m_dir (a m).1)).
Lemma safely_reads {X} (a : CliM X) : looks a -> safely a.
Proof. intros Ha m Hm. destruct (Ha m) as [E _]. by rewrite E. Qed.
Lemma safely_bind {X Z} (a : CliM X) (k : X -> CliM Z) : safely a -> (forall x, safely (k x)) -> safely (c_bind a k).
Proof. intros Ha Hk m Hm. unfold c_bind. specialize (Ha m Hm). destruct (a m) as [m1 [x|e]]; [by apply Hk|done]. Qed.
Lemma safely_each {X} (f : X -> CliM unit) l : (forall x, safely (f x)) -> safely (c_each f l).
Proof. intros Hf. induction l as [|x t IH]; cbn; [by apply safely_reads|]. by apply safely_bind. Qed.
Lemma safely_offline me e : safely (offline w me e).
Proof.
  intros m Hm. unfold offline, node_err, c_lift, c_bind, open_store, set_stored, set_dir, dir, machine, clock_now, c_ret. cbn.
  destruct (publish_offline _ _ _ _) as [s'|] eqn:Ep; cbn; [|done]. destruct (Hc (m_read m)) as [H1 H2]. exact (published_right _ _ _ _ _ Hm H2 H1 Ep).
Qed.
Hint Resolve safely_offline : core.
Lemma safely_sign me b : safely (sign_offline w me b).
Proof.
  unfold sign_offline, key_err. do 3 (apply safely_bind; [auto using safely_reads|intros ?]). auto using safely_reads.
Qed.
Hint Resolve safely_sign : core.
Lemma safely_carried {X} g t (k : CliM X) : safely k -> safely (let$ s := open_store in let$ _ := set_stored (carry_group s g t) in k).
Proof.
  intros Hk m (Hw & Hd & Hs). cbn. apply Hk. cbn. unfold carry_group. destruct (existsb _ _); [done|].
  destruct (tables_quiet (d_store (m_dir m)) (t_groups (d_store (m_dir m)) ++ [(g, as_i64 t)]) (t_blob_use (d_store (m_dir m)))
    (t_blob_grants (d_store (m_dir m))) Hw) as [Hw' Hn _]. split; [exact Hw'|].
  split; intros e [He|(_ & H1 & H2)]%Hn; auto.
Qed.
Lemma safely_device : safely (load_device w).
Proof.
  intros m Hm. unfold load_device, node_err, c_lift, c_bind, set_dir, dir, machine, c_ret. cbn.
  by destruct (load_or_create _ _ _ _ _ _) as [f [k|e]].
Qed.
Lemma safely_save f : safely (save_json w f).
Proof. intros m Hm. unfold save_json, c_bind, set_dir, dir, machine, c_ret, c_fail. cbn. by destruct (o_json_writes w). Qed.
Lemma safely_keys k : safely (set_keychain k).
Proof. by intros m Hm. Qed.
Hint Resolve safely_device safely_save safely_keys : core.
Ltac keeping :=
  repeat match goal with
    | |- safely (c_bind open_store (fun s => c_bind (set_stored (carry_group s _ _)) _)) => apply safely_carried
    | |- safely (c_bind _ _) => apply safely_bind; [|intros ?]
    | |- safely (c_each _ _) => apply safely_each; intros ?
    | |- safely (with_group _ _ _) => unfold with_group
    | |- safely (reading_group _ _ _) => unfold reading_group
    | |- safely (let _ := _ in _) => cbv zeta
    | |- safely (match _ with _ => _ end) => case_match
    | _ => solve [auto | apply safely_reads; auto | apply safely_reads; reading]
    end.
(** A command that works without a node keeps the store right: consistent,
    every event signed and dated. *)
Theorem offline_keeps c m : works_offline c = true -> store_right (d_store (m_dir m)) ->
  store_right (d_store (m_dir (run_cmd w c m).1)).
Proof.
  intros Ho. enough (Hk : safely (run_cmd w c)) by apply Hk. destruct c; try done; cbn [run_cmd].
  all: unfold cmd_init, cmd_id, cmd_peer, cmd_create, cmd_list, cmd_show, cmd_export_key, cmd_invite, cmd_say, cmd_kick, cmd_channel,
    cmd_ban, cmd_unban, cmd_mute, cmd_promote, moderate_one, cmd_compact, cmd_log, key_of_group, print_message, key_err, node_err, store_err.
  all: keeping.
Qed.
End Kept.
End CliSpec.
