(* ===== verification/Anchor.v ===== *)
(** The anchor ([crates/hit-anchor]): the always-on peer.  Its read-only keys
    ([secrets.rs]), what a NIP-29 client reads of a group ([nip29.rs]), the
    [ws://] bridge ([ws.rs]), and its commands and compaction ([main.rs]).

    A client's connection is a session over the node: what it sends, what the
    node's feed brings and what other tasks do to the node meanwhile, one after
    another.  Its socket takes so many messages and then is gone. *)
From S2P Require Import Prelude Text Nostr GroupEvent Replace Perm Zap GroupState Fold.
From S2P Require Import Binding Dm Groups EventStore Proto Person Node NodeOps NodeGroups Session Relay Sync.

#[local] Open Scope string_scope.
#[local] Open Scope Z_scope.
#[local] Open Scope list_scope.

(** ** Keys (secrets.rs)

    systemd's credentials directory: files by name, or why one cannot be read. *)
Definition Credentials : Type := string -> result string (option string).
(** The file a credential is in. *)
Definition credential_path (account : string) : result SecretError string :=
  if str_is_empty account || negb (all_bytes is_alphanumeric account) then Err (Backend "not a credential name")
  else Ok account.
Definition credentials_put (c : Credentials) (account secret : string) : result SecretError Credentials :=
  Err (Backend "systemd credentials are provisioned with systemd-creds, not written by the service").
Definition credentials_get (c : Credentials) (account : string) : result SecretError (option string) :=
  let? path := credential_path account in
  match c path with
  | Ok (Some s) => Ok (Some (trim s))
  | Ok None => Ok None
  | Err e => Err (Backend e)
  end.
Definition credentials_delete (c : Credentials) (account : string) : result SecretError Credentials :=
  Err (Backend "systemd credentials are removed with systemd, not by the service").
#[export] Instance credentials_store : SecretStore Credentials := {|
  secret_put := credentials_put; secret_get := credentials_get; secret_delete := credentials_delete |}.

(** ** NIP-29 (nip29.rs) *)
Definition NIP29_METADATA : Kind := 39000.
Definition NIP29_ADMINS : Kind := 39001.
Definition NIP29_MEMBERS : Kind := 39002.
Definition NIP29_ROLES : Kind := 39003.

Section Nip29.
Context {N : NostrTypes} {O : NostrOps}.
Definition state_roles (s : GroupState) : list RoleDef := map snd (map_entries String.leb (gs_roles s)).
Definition state_members (s : GroupState) : list PublicKey := map fst (map_entries pk_leb (gs_members s)).
Definition group_tag (s : GroupState) : Tag := tag_identifier (pk_to_hex (gs_id s)).
Definition nip29_metadata (s : GroupState) : EventBuilder :=
  let b := b_tag (builder_new NIP29_METADATA "") (group_tag s) in
  let b := b_tag b (tag_custom "name" [gs_name s]) in
  let b := b_tag b (tag_custom "about"
             [if str_is_empty (gs_about s) then "A HIT_ENTER group, read through one of its anchors." else gs_about s]) in
  b_tags_add b (visibility_tags (gs_public s)).
Definition role_rows (s : GroupState) (r : RoleDef) : list Tag :=
  if bool_decide (r_id r = DEFAULT_ROLE) then []
  else map (fun p => tag_custom "p" [pk_to_hex p; r_name r]) (holders_of s (r_id r)).
Definition nip29_admins (s : GroupState) : EventBuilder :=
  let b := b_tag (builder_new NIP29_ADMINS "") (group_tag s) in
  let b := match gs_owner s with
           | Some owner => b_tag b (tag_custom "p" [pk_to_hex owner; "owner"])
           | None => b
           end in
  b_tags_add b (flat_map (role_rows s) (state_roles s)).
Definition nip29_members (s : GroupState) (names : PublicKey -> option string) : EventBuilder :=
  b_tags_add (b_tag (builder_new NIP29_MEMBERS "") (group_tag s))
    (map (fun p => tag_custom "p" (pk_to_hex p :: option_list (names p))) (state_members s)).
Definition nip29_roles (s : GroupState) : EventBuilder :=
  b_tags_add (b_tag (builder_new NIP29_ROLES "") (group_tag s))
    (map (fun r => tag_custom "role" [r_name r]) (state_roles s)).
(** The four, for one group, signed by [relay]. *)
Definition translate (relay : Keys) (s : GroupState) (names : PublicKey -> option string) (at_ : Timestamp)
    : option (list Event) :=
  mapM (fun b => finalize relay (b_at b at_))
    [nip29_metadata s; nip29_admins s; nip29_members s names; nip29_roles s].
End Nip29.

(** ** The bridge (ws.rs) *)
Definition AUTHENTICATION : Kind := 22242.
Definition AUTH_MAX_AGE : Z := 600.
(** [nostr]'s [Filter::match_event]. *)
Class BridgeTypes {N : NostrTypes} := { match_event : Filter -> Event -> bool }.

Section Bridge.
Context {N : NostrTypes} {O : NostrOps} {T : DeviceTypes} {P : DeviceOps} {C : DmCrypto}.
Context {Y : WireTypes} {F : ProfileTypes} {NT : NodeTypes} {RT : RelayTypes} {B : BridgeTypes}.

Record Bridge := mkBridge { b_relay : Keys; b_name : string; b_url : option string }.
Record Client := mkClient {
  c_challenge : string;
  c_reader : option PublicKey;
  c_anon : PublicKey;
  c_subs : gmap string (list Filter);
  c_takes : nat;
  c_sent : list RelayMessage }.
Definition set_reader (p : PublicKey) (c : Client) : Client :=
  mkClient (c_challenge c) (Some p) (c_anon c) (c_subs c) (c_takes c) (c_sent c).
Definition set_subs (m : gmap string (list Filter)) (c : Client) : Client :=
  mkClient (c_challenge c) (c_reader c) (c_anon c) m (c_takes c) (c_sent c).
Definition reader_of (c : Client) : PublicKey := opt_get (c_anon c) (c_reader c).

Definition native_state (e : Event) : bool := kind_in (ev_kind e) STATE_KINDS.
Definition could_ask_for_state (f : Filter) : bool :=
  is_none_or (f_kinds f) (fun ks =>
    existsb (fun k => kind_in k ks) [NIP29_METADATA; NIP29_ADMINS; NIP29_MEMBERS; NIP29_ROLES]).

Definition Br := Ses Client.
(** [false]: the client is gone. *)
Definition send_ws (m : RelayMessage) : Ses Client bool :=
  fun '(c, n) => match c_takes c with
                 | 0%nat => ((c, n), Ok false)
                 | S k => ((mkClient (c_challenge c) (c_reader c) (c_anon c) (c_subs c) k (c_sent c ++ [m]), n), Ok true)
                 end.
(** What may fail on the node and is answered either way. *)
Definition ask_node {A} (m : M A) : Ses Client (result NodeError A) :=
  fun '(c, n) => let '(n, r) := m n in ((c, n), Ok r).

(** *** Who a client is *)
Definition tag_of (name : string) (e : Event) : option string :=
  find_map (fun t => match t with n :: v :: _ => if bool_decide (n = name) then Some v else None | _ => None end) (ev_tags e).
Fixpoint trim_slashes (l : list ascii) : list ascii :=
  match l with "/"%char :: t => trim_slashes t | _ => l end.
Definition norm (s : string) : string :=
  to_ascii_lowercase (String.string_of_list_ascii (rev (trim_slashes (rev (String.list_ascii_of_string s))))).
Definition check_auth (b : Bridge) (at_ : Timestamp) (challenge : string) (e : Event) : result string unit :=
  guard ev_kind e =? AUTHENTICATION else "invalid: not an AUTH event" in
  guard ev_verify e else "invalid: bad signature" in
  guard bool_decide (tag_of "challenge" e = Some challenge) else "invalid: wrong challenge" in
  guard is_none_or (b_url b) (fun url => is_some_and (tag_of "relay" e) (fun r => bool_decide (norm r = norm url)))
    else "invalid: the AUTH names another relay" in
  guard Z.abs (ev_created_at e - at_) <=? AUTH_MAX_AGE else "invalid: AUTH too old or from the future" in
  Ok tt.

(** *** What a client is shown *)
Definition translation (b : Bridge) (env : Env) (reader : PublicKey) (state : option GroupState) : Ses Client (list Event) :=
  match state with
  | Some s =>
      if is_member s reader || gs_public s then
        let^ names := ask_node (names (state_members s)) in
        let names := match names with Ok m => m | Err _ => ∅ end in
        r_ret (opt_get [] (translate (b_relay b) s (fun p => names !! p) (now env)))
      else r_ret []
  | None => r_ret []
  end.
Fixpoint translations_of (b : Bridge) (env : Env) (reader : PublicKey) (l : list (PublicKey * option GroupState))
    : Ses Client (list Event) :=
  match l with
  | [] => r_ret []
  | (_, state) :: t =>
      let^ here := translation b env reader state in
      let^ more := translations_of b env reader t in
      r_ret (here ++ more)
  end.
Definition translations (b : Bridge) (env : Env) (reader : PublicKey) : Ses Client (list Event) :=
  let^ n := inner get in translations_of b env reader (group_list n).
Definition answer_filter (b : Bridge) (env : Env) (reader : PublicKey) (f : Filter) : Ses Client (list Event) :=
  let^ read := ask_node (visible env reader f) in
  let out := match read with Ok evs => List.filter (fun e => negb (native_state e)) evs | Err _ => [] end in
  let^ more := (if could_ask_for_state f then translations b env reader else r_ret []) in
  let out := out ++ List.filter (match_event f) more in
  r_ret (firstn (Z.to_nat match f_limit f with Some l => Z.min l MAX_EVENTS_PER_FILTER | None => MAX_EVENTS_PER_FILTER end) out).
Fixpoint send_events (sub : string) (l : list Event) : Ses Client bool :=
  match l with
  | [] => r_ret true
  | e :: t => let^ sent := send_ws (REvent sub e) in if sent then send_events sub t else r_ret false
  end.
(** Those of [l] not in [seen], once each, and what is seen then. *)
Fixpoint unseen (seen : gset EventId) (l : list Event) : gset EventId * list Event :=
  match l with
  | [] => (seen, [])
  | e :: t =>
      if bool_decide (ev_id e ∈ seen) then unseen seen t
      else let '(seen, r) := unseen ({[ev_id e]} ∪ seen) t in (seen, e :: r)
  end.
Fixpoint answer_each (b : Bridge) (env : Env) (reader : PublicKey) (sub : string) (seen : gset EventId) (fs : list Filter)
    : Ses Client bool :=
  match fs with
  | [] => r_ret true
  | f :: t =>
      let^ out := answer_filter b env reader f in
      let '(seen, out) := unseen seen out in
      let^ sent := send_events sub out in
      if sent then answer_each b env reader sub seen t else r_ret false
  end.

(** *** One client message; [false] ends the session *)
Definition handle_auth (b : Bridge) (env : Env) (e : Event) : Ses Client bool :=
  let^ c := session in
  match check_auth b (now env) (c_challenge c) e with
  | Ok _ => let^ _ := set_session (set_reader (ev_pubkey e) c) in send_ws (ROk (ev_id e) true "")
  | Err why => send_ws (ROk (ev_id e) false why)
  end.
Definition handle_ws_req (b : Bridge) (env : Env) (sub : string) (filters : list Filter) : Ses Client bool :=
  if MAX_FILTERS_PER_REQ <? Z.of_nat (length filters) then send_ws (RClosed sub "invalid: too many filters")
  else
    let^ c := session in
    let^ sent := answer_each b env (reader_of c) sub ∅ filters in
    if sent then
      let^ c := session in
      let^ _ := set_session (set_subs (<[sub := filters]> (c_subs c)) c) in
      send_ws (REose sub)
    else r_ret false.
Definition handle_ws_event (env : Env) (e : Event) : Ses Client bool :=
  let^ c := session in
  if ev_kind e =? ZAP_RECEIPT then
    let^ r := ask_node (carry_zap env e) in
    match r with
    | Ok _ => send_ws (ROk (ev_id e) true "")
    | Err why => send_ws (ROk (ev_id e) false ("blocked: " +:+ error_text why))
    end
  else if negb (opt_bool (c_reader c)) then
    send_ws (ROk (ev_id e) false "auth-required: authenticate (NIP-42) first")
  else if (ev_kind e =? CHAT_MESSAGE) && negb (opt_bool (channel_of e)) then
    send_ws (ROk (ev_id e) false "blocked: this group's messages need a channel tag; post from HIT_ENTER for now")
  else
    let^ v := ask_node (accept_event env Push e) in
    match v with
    | Ok v => send_ws (ROk (ev_id e) v.1 v.2)
    | Err why => send_ws (ROk (ev_id e) false ("error: " +:+ error_text why))
    end.
Definition handle_ws (b : Bridge) (env : Env) (text : string) : Ses Client bool :=
  match client_from_json text with
  | None => send_ws (RNotice "error: not a NIP-01 client message")
  | Some (CAuth e) => handle_auth b env e
  | Some (CReq sub filters) => handle_ws_req b env sub filters
  | Some (CClose sub) =>
      let^ c := session in let^ _ := set_session (set_subs (delete sub (c_subs c)) c) in r_ret true
  | Some (CEvent e) => handle_ws_event env e
  | Some _ => send_ws (RNotice "error: unsupported message")
  end.
(** A live event, to each subscription it matches - in the order of the
    subscriptions' names here, of a [HashMap] there. *)
Fixpoint live_each (e : Event) (l : list (string * list Filter)) : Ses Client bool :=
  match l with
  | [] => r_ret true
  | (sub, fs) :: t =>
      if existsb (fun f => match_event f e) fs then
        let^ sent := send_ws (REvent sub e) in if sent then live_each e t else r_ret false
      else live_each e t
  end.
Definition live (env : Env) (e : Event) : Ses Client bool :=
  let^ c := session in
  let^ n := inner get in
  if native_state e || negb (Groups_may_read (n_groups n) (reader_of c) e (now env)) then r_ret true
  else live_each e (map_entries String.leb (c_subs c)).

(** *** A session *)
Inductive Input :=
| FromClient (text : string) | ClientOther | ClientGone
| FromFeed (e : Event) | FeedLagged | FeedClosed
(** The node, as other tasks left it. *)
| Meanwhile (n : Inner).
Definition input (b : Bridge) (env : Env) (i : Input) : Ses Client bool :=
  match i with
  | FromClient text => handle_ws b env text
  | ClientOther => r_ret true
  | ClientGone | FeedClosed => r_ret false
  | FromFeed e => live env e
  | FeedLagged =>
      let^ _ := send_ws (RNotice "lagged: some live events were skipped; re-subscribe") in r_ret true
  | Meanwhile n => fun '(c, _) => ((c, n), Ok true)
  end.
Fixpoint inputs (b : Bridge) (l : list (Env * Input)) : Ses Client bool :=
  match l with
  | [] => r_ret true
  | (env, i) :: t => let^ on := input b env i in if on then inputs b t else r_ret false
  end.
Definition ws_session (b : Bridge) (challenge : string) (anon : PublicKey) (takes : nat) (l : list (Env * Input)) (n : Inner)
    : Client * Inner :=
  ((let^ hello := send_ws (RAuth challenge) in if hello then inputs b l else r_ret false)
     (mkClient challenge None anon ∅ takes [], n)).1.
End Bridge.

(** ** Commands (main.rs) *)
Section Commands.
Context {N : NostrTypes} {O : NostrOps} {T : DeviceTypes} {P : DeviceOps} {C : DmCrypto}.
Context {Y : WireTypes} {F : ProfileTypes} {NT : NodeTypes} {RT : RelayTypes} {ST : SyncTypes}.

(** [anchor.json]. *)
Record AnchorFile := mkAnchorFile { an_npub : string; an_name : string; an_peers : list (string * option SocketAddr) }.
(** [Init]: the file written, and the key handed to the keychain or a pipe. *)
Definition anchor_init (name : string) (person : Keys) (here : bool) : option AnchorFile :=
  if here then None else Some (mkAnchorFile (key_npub person) name []).
Definition anchor_peer (id : string) (addr : option SocketAddr) (f : AnchorFile) : result string AnchorFile :=
  if opt_bool (ep_parse id) then
    Ok (mkAnchorFile (an_npub f) (an_name f) (List.filter (fun p => negb (bool_decide (p.1 = id))) (an_peers f) ++ [(id, addr)]))
  else Err "not a device id".

(** The node as any command starts it: the key the file names, and the peers it
    lists; and [Pin], which joins a group and says what it is. *)
Inductive AnchorError := ANoKey (npub : string) | AKey (e : KeyError) | ANodeFailed (e : NodeError) | ABadPeer (id : string).
Fixpoint add_file_peers (l : list (string * option SocketAddr)) (n : Inner) : result AnchorError Inner :=
  match l with
  | [] => Ok n
  | (id, _) :: t => let? d := ok_or (ep_parse id) (ABadPeer id) in add_file_peers t (add_peer d n).1
  end.
Definition anchor_start {S} `{SecretStore S} (env : Env) (secrets : S) (f : AnchorFile) (device : DeviceKey) (store : EventStore.Store)
    : result AnchorError Inner :=
  match person_load secrets (an_npub f) with
  | Err e => Err (AKey e)
  | Ok None => Err (ANoKey (an_npub f))
  | Ok (Some person) =>
      match NodeOps.start env person device store with
      | Err e => Err (ANodeFailed e)
      | Ok n => add_file_peers (an_peers f) n
      end
  end.
Definition anchor_pin (env : Env) (net : Net) (f : AnchorFile) (link : InviteLink) : M unit :=
  let* joined := tried (join_group env net link) in
  match joined with
  | Ok _ => let* _ := set_anchor_profile env (an_name f) in ret tt
  | Err _ => ret tt
  end.

(** What [Run] says of itself before it syncs: that it is an anchor under its
    name, and where receipts go. *)
Definition say_anchor (env : Env) (name : string) : M unit :=
  let* current := own_profile in
  if is_none_or current (fun p => negb (is_anchor p) || negb (bool_decide (name_of p = Some name))) then
    let* _ := set_anchor_profile env name in ret tt
  else ret tt.
Definition say_relay (env : Env) (ws : bool) (ws_url : option string) : M unit :=
  let relay := if ws then ws_url else None in
  let* profile := own_profile in
  if bool_decide ((let! p := profile in relay_of p) = relay) then ret tt
  else let* _ := set_anchor_relay env relay in ret tt.
Definition say_itself (env : Env) (name : string) (ws : bool) (ws_url : option string) : M unit :=
  let* _ := say_anchor env name in say_relay env ws ws_url.

(** A round of the compaction loop: what fails is logged, and the next group is
    next. *)
Definition compact_one {S} `{SecretStore S} (env : Env) (secrets : S) (x : PublicKey * option GroupState) : M unit :=
  fun n =>
    match x.2 with
    | Some s =>
        if is_member s (me n) && (0 <? live_actions s) then
          match group_key_load secrets (opt_get "" (pk_to_bech32 x.1)) with
          | Ok (Some _) => ((compact env secrets x.1 n).1, Ok tt)
          | _ => (n, Ok tt)
          end
        else (n, Ok tt)
    | None => (n, Ok tt)
    end.
Definition compact_round {S} `{SecretStore S} (env : Env) (secrets : S) : M unit :=
  let* n := get in for_each (compact_one env secrets) (group_list n).
End Commands.
