(* ===== verification/AnchorSpec.v ===== *)
(** What an anchor's bridge shows and takes: a client reads what the person it
    proved to be may read - a public group's to anyone - and groups' states as
    the anchor translates them; only a proven person's events, and zap
    receipts, reach the node. *)
From S2P Require Import Prelude Text Nostr GroupEvent Replace Perm Zap GroupState Fold Safety.
From S2P Require Import Binding Dm Groups EventStore StoreSpec StoreEffect Proto Person Node NodeSpec NodeOps Reading.
From S2P Require Import NodeGroups Session Relay RelaySpec Sync SyncSpec NodeRight Anchor.

#[local] Open Scope string_scope.
#[local] Open Scope Z_scope.
#[local] Open Scope list_scope.

Section AnchorSpec.
Context {N : NostrTypes} {O : NostrOps} {L : NostrLaws} {J : JsonLaws} {T : DeviceTypes} {P : DeviceOps} {C : DmCrypto}.
Context {Y : WireTypes} {F : ProfileTypes} {NT : NodeTypes} {RT : RelayTypes} {ST : SyncTypes} {B : BridgeTypes}.

(** ** What a piece of a client's session does

    It answers, sends only what [V] allows, and keeps the node right and who the
    two are. *)
Record went_on (V : RelayMessage -> Prop) (x : Client) (n : Inner) (c : Client * Inner) : Prop := {
  wo_sent : exists l, c_sent c.1 = c_sent x ++ l /\ Forall V l;
  wo_challenge : c_challenge c.1 = c_challenge x;
  wo_anon : c_anon c.1 = c_anon x;
  wo_healthy : healthy n -> healthy c.2;
}.
Lemma went_here V x n : went_on V x n (x, n).
Proof. split; try done. exists []. by rewrite app_nil_r. Qed.
Lemma went_further V x n x1 n1 c : went_on V x n (x1, n1) -> went_on V x1 n1 c -> went_on V x n c.
Proof.
  intros [(l1 & H1 & F1) H2 H3 H4] [(l2 & H5 & F2) H6 H7 H8]. cbn [fst snd] in *. split; [|congruence..|auto].
  exists (l1 ++ l2). rewrite H5, H1, app_assoc. split; [done|]. by apply Forall_app.
Qed.
Definition answers_with {A} (V : RelayMessage -> Prop) (m : Ses Client A) (x : Client) (n : Inner)
    (Q : Client -> Inner -> A -> Prop) : Prop :=
  exists c a, m (x, n) = (c, Ok a) /\ went_on V x n c /\ Q c.1 c.2 a.
Lemma aw_ret {A} V (a : A) x n (Q : Client -> Inner -> A -> Prop) : Q x n a -> answers_with V (r_ret a) x n Q.
Proof. intros H. eexists _, a. split; [reflexivity|]. split; [apply went_here|exact H]. Qed.
Lemma aw_bind {A D} V (m : Ses Client A) (k : A -> Ses Client D) x n (Q : Client -> Inner -> A -> Prop) R :
  answers_with V m x n Q -> (forall x' n' a, (healthy n -> healthy n') -> c_anon x' = c_anon x -> c_challenge x' = c_challenge x ->
    Q x' n' a -> answers_with V (k a) x' n' R) -> answers_with V (r_bind m k) x n R.
Proof.
  intros ([x1 n1] & a & Hm & W & HQ) Hk.
  destruct (Hk x1 n1 a (wo_healthy _ _ _ _ W) (wo_anon _ _ _ _ W) (wo_challenge _ _ _ _ W) HQ) as (c & d & Hd & W2 & HR).
  exists c, d. split; [by unfold r_bind; rewrite Hm|]. split; [by eapply went_further|exact HR].
Qed.
Lemma aw_weaken {A} V (m : Ses Client A) x n (Q R : Client -> Inner -> A -> Prop) :
  answers_with V m x n Q -> (forall x' n' a, Q x' n' a -> R x' n' a) -> answers_with V m x n R.
Proof. intros (c & a & H1 & H2 & H3) H. exists c, a. auto. Qed.
Lemma aw_session {A} V (k : Client -> Ses Client A) x n R : answers_with V (k x) x n R -> answers_with V (r_bind session k) x n R.
Proof. intros H. exact H. Qed.
Lemma aw_node {A} V (k : Inner -> Ses Client A) x n R : answers_with V (k n) x n R -> answers_with V (r_bind (inner get) k) x n R.
Proof. intros H. exact H. Qed.
Lemma aw_set V y x n (Q : Client -> Inner -> unit -> Prop) : c_sent y = c_sent x -> c_challenge y = c_challenge x ->
  c_anon y = c_anon x -> Q y n tt -> answers_with V (set_session y) x n Q.
Proof.
  intros H1 H2 H3 H. eexists (y, n), tt. split; [reflexivity|]. split; [|exact H]. split; try done.
  exists []. cbn. by rewrite app_nil_r.
Qed.
(** The socket is told, and only that changes. *)
Definition same_client (x x' : Client) : Prop := c_reader x' = c_reader x /\ c_subs x' = c_subs x.
Lemma aw_send (V : RelayMessage -> Prop) msg x n : V msg ->
  answers_with V (send_ws msg) x n (fun x' n' _ => n' = n /\ same_client x x').
Proof.
  intros H. unfold answers_with, send_ws. destruct (c_takes x) as [|k]; eexists _, _; (split; [reflexivity|]).
  - split; [apply went_here|done].
  - split; [|done]. split; try done. exists [msg]. split; [done|by constructor].
Qed.
Lemma aw_ask {A} V (m : M A) x n : preserves m ->
  answers_with V (ask_node m) x n (fun x' n' r => x' = x /\ n' = (m n).1 /\ r = (m n).2).
Proof.
  intros Hm. unfold answers_with, ask_node. specialize (Hm n). destruct (m n) as [n' r]. eexists _, _. split; [reflexivity|].
  split; [|done]. split; try done. exists []. cbn. by rewrite app_nil_r.
Qed.
Lemma aw_reads {A} V (m : M A) x n Q : reads n m Q ->
  answers_with V (ask_node m) x n (fun x' n' r => x' = x /\ n' = n /\ match r with Ok a => Q a | Err _ => True end).
Proof.
  intros [H1 H2]. unfold answers_with, ask_node. destruct (m n) as [n' r]. cbn in *. subst n'.
  eexists _, _. split; [reflexivity|]. split; [apply went_here|done].
Qed.

(** ** What a client may be shown *)
Definition translated (b : Bridge) (env : Env) (m : Inner) (reader : PublicKey) (e : Event) : Prop :=
  exists g s names evs, state (n_groups m) g = Some s /\ (is_member s reader = true \/ gs_public s = true) /\
    translate (b_relay b) s names (now env) = Some evs /\ e ∈ evs.
(** [e] in answer to [i], by the node [m]: one that reader may read now, held or
    just in, and no state of a group key's; or a state translated. *)
Definition shown_by_right (b : Bridge) (env : Env) (i : Input) (m : Inner) (reader : PublicKey) (e : Event) : Prop :=
  (native_state e = false /\ Groups_may_read (n_groups m) reader e (now env) = true /\
     (holds (n_store m) e \/ i = FromFeed e)) \/
  translated b env m reader e.
Definition rightly (b : Bridge) (env : Env) (i : Input) (m : Inner) (reader : PublicKey) (msg : RelayMessage) : Prop :=
  match msg with REvent _ e => shown_by_right b env i m reader e | _ => True end.

Lemma aw_translations V b env reader l x n : (forall g s, (g, s) ∈ l -> s = state (n_groups n) g) ->
  answers_with V (translations_of b env reader l) x n (fun x' n' out => x' = x /\ n' = n /\
    forall e, e ∈ out -> translated b env n reader e).
Proof.
  induction l as [|[g st] t IH]; intros Hl; cbn [translations_of].
  { apply aw_ret. split_and!; try done. by intros e ?%not_elem_of_nil. }
  eapply (aw_bind _ _ _ _ _ (fun x' n' out => x' = x /\ n' = n /\ forall e, e ∈ out -> translated b env n reader e)).
  - assert (Hnone : answers_with V (r_ret []) x n (fun x' n' out => x' = x /\ n' = n /\ forall e, e ∈ out -> translated b env n reader e)).
    { apply aw_ret. split_and!; try done. by intros e ?%not_elem_of_nil. }
    unfold translation. destruct st as [s|]; [|exact Hnone]. destruct (_ || _) eqn:Em; [|exact Hnone].
    eapply aw_bind; [apply aw_reads, reads_names|]. intros x1 n1 r _ _ _ (-> & -> & _). apply aw_ret. split_and!; try done.
    intros e He. destruct (translate _ _ _ _) as [evs|] eqn:Et; [|by apply not_elem_of_nil in He].
    exists g, s, (fun p => match r with Ok m => m | Err _ => ∅ end !! p), evs. split; [symmetry; apply Hl; left|].
    by apply orb_true_iff in Em.
  - intros x1 n1 here _ _ _ (-> & -> & Hh). eapply aw_bind; [apply IH; intros g' s' Hgs; apply Hl; by right|].
    intros x2 n2 more _ _ _ (-> & -> & Hm). apply aw_ret. split_and!; try done. intros e [?|?]%elem_of_app; auto.
Qed.
Lemma firstn_in {A} k (l : list A) x : x ∈ firstn k l -> x ∈ l.
Proof. rewrite <- (firstn_skipn k l) at 2. intros H. apply elem_of_app. by left. Qed.
Lemma aw_filter V b env i reader f x n : node_ok n ->
  answers_with V (answer_filter b env reader f) x n (fun x' n' out => x' = x /\ n' = n /\
    forall e, e ∈ out -> shown_by_right b env i n reader e).
Proof.
  intros K. unfold answer_filter. eapply aw_bind; [apply aw_reads, (reads_visible _ _ _ _ (k_wf _ _ _ _ K))|].
  intros x1 n1 read _ _ _ (-> & -> & Hr). cbv zeta.
  eapply (aw_bind _ _ _ _ _ (fun x' n' out => x' = x /\ n' = n /\ forall e, e ∈ out -> translated b env n reader e)).
  - destruct (could_ask_for_state f); [|apply aw_ret; split_and!; try done; by intros e ?%not_elem_of_nil].
    unfold translations. apply aw_node, aw_translations, group_list_states.
  - intros x2 n2 more _ _ _ (-> & -> & Hm). apply aw_ret. split_and!; try done.
    intros e [He|He]%firstn_in%elem_of_app.
    + left. destruct read as [evs|]; [|by apply not_elem_of_nil in He].
      apply filter_elem in He as [He Hs%negb_true_iff]. destruct (Hr e He) as [Hh Hrd]. auto.
    + right. apply Hm. by apply filter_elem in He as [He _].
Qed.
Lemma aw_send_events V sub l x n : (forall e, e ∈ l -> V (REvent sub e)) ->
  answers_with V (send_events sub l) x n (fun x' n' _ => n' = n /\ same_client x x').
Proof.
  revert x. induction l as [|e l IH]; intros x Hl; cbn [send_events]; [by apply aw_ret|].
  eapply aw_bind; [apply aw_send, Hl; left|]. intros x1 n1 sent _ _ _ [-> [Hr Hs]]. destruct sent; [|by apply aw_ret].
  eapply aw_weaken; [apply IH; intros y Hy; apply Hl; by right|]. intros x2 n2 a [-> [Hr2 Hs2]]. split; [done|]. split; congruence.
Qed.
Lemma unseen_in seen l seen' out e : unseen seen l = (seen', out) -> e ∈ out -> e ∈ l.
Proof.
  revert seen seen' out. induction l as [|x l IH]; intros seen seen' out; cbn [unseen]; [by intros [= <- <-]|].
  case_bool_decide; [intros Hu He; right; by eapply IH|]. destruct (unseen _ l) as [s r] eqn:Eu. intros [= <- <-] [->|He]%elem_of_cons; [left|].
  right. by eapply IH.
Qed.
Lemma aw_answers b env i reader sub fs seen x n : node_ok n ->
  answers_with (rightly b env i n reader) (answer_each b env reader sub seen fs) x n (fun x' n' _ => n' = n /\ same_client x x').
Proof.
  intros K. revert seen x. induction fs as [|f fs IH]; intros seen x; cbn [answer_each]; [by apply aw_ret|].
  eapply aw_bind; [by apply (aw_filter _ _ _ i)|]. intros x1 n1 out _ _ _ (-> & -> & Ho).
  destruct (unseen seen out) as [seen' out'] eqn:Eu.
  eapply aw_bind; [apply aw_send_events; intros e He; apply Ho; by eapply unseen_in|].
  intros x2 n2 sent _ _ _ [-> [Hr Hs]]. destruct sent; [|by apply aw_ret].
  eapply aw_weaken; [apply IH|]. intros x3 n3 a [-> [Hr2 Hs2]]. split; [done|]. split; congruence.
Qed.

(** ** One input *)
(** The client proved by [i] to be [p]: an [AUTH] signed by [p] for this very
    challenge, this relay if it knows its URL, and these ten minutes. *)
Definition proves (b : Bridge) (env : Env) (i : Input) (challenge : string) (p : PublicKey) : Prop :=
  exists text e, i = FromClient text /\ client_from_json text = Some (CAuth e) /\ ev_pubkey e = p /\
    ev_verify e = true /\ ev_kind e = AUTHENTICATION /\ tag_of "challenge" e = Some challenge /\
    (forall url, b_url b = Some url -> exists r, tag_of "relay" e = Some r /\ norm r = norm url) /\
    Z.abs (ev_created_at e - now env) <= 600.
(** What [i] made of the node. *)
Definition taken_in (env : Env) (i : Input) (x : Client) (n n' : Inner) : Prop :=
  n' = n \/ i = Meanwhile n' \/
  exists text e, i = FromClient text /\ client_from_json text = Some (CEvent e) /\
    ((ev_kind e = ZAP_RECEIPT /\ n' = (carry_zap env e n).1) \/
     (is_Some (c_reader x) /\ (ev_kind e = CHAT_MESSAGE -> is_Some (channel_of e)) /\ n' = (accept_event env Push e n).1)).
Lemma check_auth_ok b env text challenge e : check_auth b (now env) challenge e = Ok tt ->
  client_from_json text = Some (CAuth e) -> proves b env (FromClient text) challenge (ev_pubkey e).
Proof.
  unfold check_auth. destruct (Z.eqb_spec (ev_kind e) AUTHENTICATION); [|done]. destruct (ev_verify e) eqn:Ev; [|done].
  case_bool_decide as Hch; [|done]. destruct (is_none_or _ _) eqn:Eu; [|done]. destruct (Z.leb_spec (Z.abs (ev_created_at e - now env)) AUTH_MAX_AGE); [|done].
  intros _ Ht. exists text, e. split_and!; try done. intros url Hu. rewrite Hu in Eu. cbn in Eu.
  destruct (tag_of "relay" e) as [r|]; [|done]. exists r. split; [done|]. by apply bool_decide_eq_true in Eu.
Qed.
Definition step_of (b : Bridge) (env : Env) (i : Input) (x : Client) (n : Inner) (x' : Client) (n' : Inner) : Prop :=
  (c_reader x' = c_reader x \/ exists p, c_reader x' = Some p /\ proves b env i (c_challenge x) p) /\ taken_in env i x n n'.
Lemma step_quiet b env i x n x' n' : n' = n /\ same_client x x' -> step_of b env i x n x' n'.
Proof. intros [-> [Hr _]]. split; by left. Qed.
Lemma aw_say b env i x n msg : (forall sub e, msg <> REvent sub e) ->
  answers_with (rightly b env i n (reader_of x)) (send_ws msg) x n (fun x' n' _ => step_of b env i x n x' n').
Proof.
  intros Hm. eapply aw_weaken; [apply aw_send; destruct msg; try done; by edestruct Hm|]. intros x' n' a. apply step_quiet.
Qed.
(** The answer to an event taken or not. *)
Lemma aw_told b env i x n n' V msg : (forall m, V m <-> rightly b env i n (reader_of x) m) -> (forall sub e, msg <> REvent sub e) ->
  taken_in env i x n n' -> answers_with V (send_ws msg) x n' (fun x' n'' _ => step_of b env i x n x' n'').
Proof.
  intros HV Hm Ht. eapply aw_weaken; [apply aw_send, HV; destruct msg; try done; by edestruct Hm|].
  intros x' n'' a [-> [Hr _]]. split; [by left|exact Ht].
Qed.
Lemma aw_event b env text e x n : clock_ok env -> client_from_json text = Some (CEvent e) ->
  answers_with (rightly b env (FromClient text) n (reader_of x)) (handle_ws_event env e) x n
    (fun x' n' _ => step_of b env (FromClient text) x n x' n').
Proof.
  intros Hc Ht. unfold handle_ws_event. apply aw_session. destruct (Z.eqb_spec (ev_kind e) ZAP_RECEIPT) as [Hk|Hk].
  - eapply aw_bind; [by apply aw_ask, preserves_carry_zap|]. intros x1 n1 r _ _ _ (-> & -> & ->).
    assert (Htk : taken_in env (FromClient text) x n (carry_zap env e n).1) by (right; right; exists text, e; auto).
    destruct (carry_zap env e n).2; eapply aw_told; done.
  - destruct (c_reader x) as [p|] eqn:Er; cbn [opt_bool negb]; [|by apply aw_say].
    destruct ((ev_kind e =? CHAT_MESSAGE) && _) eqn:Ech; [by apply aw_say|].
    eapply aw_bind; [by apply aw_ask, preserves_accept|]. intros x1 n1 r _ _ _ (-> & -> & ->).
    assert (Htk : taken_in env (FromClient text) x n (accept_event env Push e n).1).
    { right; right. exists text, e. split; [done|]. split; [done|]. right. rewrite Er. split; [by eexists|]. split; [|done].
      intros Hch%Z.eqb_eq. rewrite Hch in Ech. by destruct (channel_of e). }
    destruct (accept_event env Push e n).2; eapply aw_told; done.
Qed.
Lemma aw_input b env i x n : healthy n -> clock_ok env -> match i with Meanwhile m => healthy m | _ => True end ->
  answers_with (rightly b env i n (reader_of x)) (input b env i) x n (fun x' n' _ => step_of b env i x n x' n').
Proof.
  intros Hn Hc Hi. assert (Hsame : step_of b env i x n x n) by (apply step_quiet; done).
  destruct i as [text| | |e| | |m]; cbn [input]; try by apply aw_ret.
  - unfold handle_ws. destruct (client_from_json text) as [[e|sub fs|sub|sub f w|sub w|sub|e|]|] eqn:Et; try by apply aw_say.
    + by apply aw_event.
    + unfold handle_ws_req. destruct (_ <? _); [by apply aw_say|]. apply aw_session.
      eapply aw_bind; [apply aw_answers, Hn|]. intros x1 n1 sent _ _ _ [-> Hs]. destruct sent; [|by apply aw_ret, step_quiet].
      apply aw_session. eapply (aw_bind _ _ _ _ _ (fun x' n' _ => n' = n /\ c_reader x' = c_reader x)).
      * apply aw_set; try done. cbn. split; [done|]. apply Hs.
      * intros x2 n2 a2 _ _ _ [-> Hr]. eapply aw_weaken; [by apply aw_send|]. intros x3 n3 a3 [-> [Hr3 _]].
        split; [left; congruence|by left].
    + apply aw_session. eapply aw_bind; [apply (aw_set _ _ _ _ (fun x' n' _ => n' = n /\ c_reader x' = c_reader x)); done|].
      intros x2 n2 a2 _ _ _ [-> Hr]. apply aw_ret. split; [by left|by left].
    + unfold handle_auth. apply aw_session. destruct (check_auth b (now env) (c_challenge x) e) as [[]|why] eqn:Ea; [|by apply aw_say].
      eapply aw_bind; [apply (aw_set _ _ _ _ (fun x' n' _ => n' = n /\ c_reader x' = Some (ev_pubkey e))); done|].
      intros x2 n2 a2 _ _ _ [-> Hr]. eapply aw_weaken; [by apply aw_send|]. intros x3 n3 a3 [-> [Hr3 _]].
      split; [right|by left]. eexists. split; [by rewrite Hr3|]. by eapply check_auth_ok.
  - unfold live. apply aw_session, aw_node. destruct (native_state e) eqn:En; [by apply aw_ret|].
    destruct (Groups_may_read _ _ _ _) eqn:Er; [|by apply aw_ret]. cbn [negb orb].
    eapply aw_weaken; [|intros x' n' a; apply step_quiet].
    assert (Hv : forall sub, rightly b env (FromFeed e) n (reader_of x) (REvent sub e)) by (intros sub; left; auto).
    generalize (map_entries String.leb (c_subs x)) as l. intros l.
    assert (Hl : forall y, same_client x y -> answers_with (rightly b env (FromFeed e) n (reader_of x)) (live_each e l) y n
      (fun x' n' _ => n' = n /\ same_client x x')); [|by apply Hl].
    induction l as [|[sub fs] l IH]; intros y Hy; cbn [live_each]; [by apply aw_ret|].
    destruct (existsb _ _); [|by apply IH]. eapply aw_bind; [by apply aw_send|].
    intros x1 n1 sent _ _ _ [-> [Hr1 Hs1]]. destruct Hy as [Hy1 Hy2].
    assert (H1 : same_client x x1) by (split; congruence). destruct sent; [by apply IH|by apply aw_ret].
  - eapply aw_bind; [by apply aw_send|]. intros x1 n1 sent _ _ _ H1. by apply aw_ret, step_quiet.
  - eexists (x, m), true. split; [reflexivity|]. split.
    + split; try done. exists []. cbn. by rewrite app_nil_r.
    + split; [by left|]. by right; left.
Qed.

(** ** Sessions *)
Definition calm_input (i : Env * Input) : Prop :=
  clock_ok i.1 /\ match i.2 with Meanwhile m => healthy m | _ => True end.
(** Why a client was sent what it was, at some input of [l]. *)
Definition explained (b : Bridge) (start : Client * Inner) (l : list (Env * Input)) (msg : RelayMessage) : Prop :=
  match msg with
  | REvent _ e => exists before env i after x m, l = before ++ (env, i) :: after /\
      inputs b before start = ((x, m), Ok true) /\ healthy m /\
      (c_reader x = None \/ exists p env' i', c_reader x = Some p /\ (env', i') ∈ before /\ proves b env' i' (c_challenge start.1) p) /\
      shown_by_right b env i m (reader_of x) e
  | _ => True
  end.
Lemma explained_longer b start l x msg : explained b start l msg -> explained b start (l ++ [x]) msg.
Proof.
  destruct msg; try done. intros (before & env & i & after & y & m & -> & H). exists before, env, i, (after ++ [x]), y, m.
  split; [|exact H]. by rewrite <- app_assoc.
Qed.
Lemma inputs_last b l env i c : inputs b (l ++ [(env, i)]) c =
  match inputs b l c with (c, Ok true) => input b env i c | r => r end.
Proof.
  revert c. induction l as [|[env' i'] l IH]; intros c; cbn [app inputs].
  - unfold r_bind, r_ret. by destruct (input b env i c) as [c' [[]|e]].
  - unfold r_bind, r_ret. destruct (input b env' i' c) as [c' [[]|e]]; [apply IH|done..].
Qed.
Record sound (b : Bridge) (start : Client * Inner) (l : list (Env * Input)) (c : Client * Inner) : Prop := {
  so_healthy : healthy c.2;
  so_anon : c_anon c.1 = c_anon start.1 /\ c_challenge c.1 = c_challenge start.1;
  so_reader : c_reader c.1 = None \/ exists p env i, c_reader c.1 = Some p /\ (env, i) ∈ l /\ proves b env i (c_challenge start.1) p;
  so_sent : exists new, c_sent c.1 = c_sent start.1 ++ new /\ Forall (explained b start l) new;
}.
Lemma inputs_sound b l start : healthy start.2 -> c_reader start.1 = None -> Forall calm_input l ->
  exists c on, inputs b l start = (c, Ok on) /\ sound b start l c.
Proof.
  intros Hn Hr. induction l as [|[env i] l IH] using rev_ind; intros Hl.
  { eexists _, _. split; [reflexivity|]. split; try done; [by left|]. exists []. by rewrite app_nil_r. }
  apply Forall_app in Hl as [Hl [[Hc Hi] _]%Forall_cons]. destruct (IH Hl) as ([x m] & on & Hrun & [H1 [H2 H2'] H3 (new & H4 & H5)]).
  assert (Hold : sound b start (l ++ [(env, i)]) (x, m)).
  { split; [done..| |].
    - destruct H3 as [?|(p & env' & i' & ? & ? & ?)]; [by left|right]. exists p, env', i'. split; [done|]. split; [|done]. apply elem_of_app. by left.
    - exists new. split; [done|]. eapply Forall_impl; [exact H5|]. intros msg. apply explained_longer. }
  rewrite inputs_last, Hrun. destruct on; [|by eexists _, _].
  destruct (aw_input b env i x m H1 Hc Hi) as (c' & on & Hin & [(new' & Hs & HF) Hch Han Hh] & [Hread _]).
  exists c', on. split; [done|]. split; [by apply Hh| |..].
  - cbn in *. split; congruence.
  - destruct Hread as [Hsame|(p & Hp & Hpr)].
    + rewrite Hsame. exact (so_reader _ _ _ _ Hold).
    + right. exists p, env, i. split; [done|]. split; [apply elem_of_app; right; left|]. cbn in H2'. by rewrite <- H2'.
  - exists (new ++ new'). cbn in H4, Hs. rewrite Hs, H4, app_assoc. split; [done|]. apply Forall_app. split.
    + eapply Forall_impl; [exact H5|]. intros msg. apply explained_longer.
    + eapply Forall_impl; [exact HF|]. intros [sub e| | | | | | | |] Hm; try done. cbn in Hm |- *.
      exists l, env, i, [], x, m. split; [done|]. split; [done|]. split; [done|]. split; [exact H3|exact Hm].
Qed.

(** C11. Whatever a client of an anchor's bridge sends, and whatever other tasks do to
    the node meanwhile, the node stays right; and each event the client is
    sent is one that its reader may read at that moment - held, or just in,
    and never a group key's own state - or a group's state as the anchor
    translates it, of a public group or one the reader is a member of.  Its
    reader is a key nobody knows until an [AUTH] signed by a person, for the
    challenge of this very session, recent and naming this relay, and that
    person from then on. *)
Theorem bridge_reads b challenge anon takes l n : node_ok n -> book_wf (n_book n) -> Forall calm_input l ->
  let c := ws_session b challenge anon takes l n in
  node_ok c.2 /\
  forall sub e, REvent sub e ∈ c_sent c.1 ->
    exists before env i after x m, l = before ++ (env, i) :: after /\ ws_session b challenge anon takes before n = (x, m) /\
      (reader_of x = anon \/ exists env' i', (env', i') ∈ before /\ proves b env' i' challenge (reader_of x)) /\
      shown_by_right b env i m (reader_of x) e.
Proof.
  intros K Hb Hl. unfold ws_session, r_bind. destruct takes as [|k]; cbn [send_ws c_takes].
  { cbn. split; [done|]. by intros sub e ?%not_elem_of_nil. }
  set (start := (mkClient _ _ _ _ k _, n)). destruct (inputs_sound b l start) as (c & on & Hrun & [H1 [H2 H2'] H3 (new & H4 & H5)]); try done.
  cbv zeta beta iota. rewrite Hrun. cbn [fst]. split; [apply H1|]. intros sub e He. rewrite H4 in He. cbn in He.
  apply elem_of_cons in He as [He|He]; [done|]. rewrite Forall_forall in H5.
  destruct (H5 _ He) as (before & env & i & after & x & m & -> & Hr & Hm & Hp & Hs). exists before, env, i, after, x, m.
  split; [done|]. rewrite Hr. split; [done|]. split; [|exact Hs].
  apply Forall_app in Hl as [Hl _]. destruct (inputs_sound b before start) as (c' & on' & Hrun' & [_ [Ha _] _ _]); try done.
  rewrite Hr in Hrun'. injection Hrun' as <- <-. unfold reader_of. destruct Hp as [Hp|(p & env' & i' & Hp & Hin & Hpr)]; rewrite Hp; cbn.
  - left. exact Ha.
  - right. by exists env', i'.
Qed.
(** C17. Nothing a client sends reaches the node but a zap receipt, carried as
    the node carries any, and an event of a client who has proved who it is,
    through the gate of every event - and never a message without a channel. *)
Theorem bridge_writes b env i x n : node_ok n -> book_wf (n_book n) -> clock_ok env ->
  match i with Meanwhile m => node_ok m /\ book_wf (n_book m) | _ => True end ->
  exists x' n' on, input b env i (x, n) = ((x', n'), Ok on) /\ node_ok n' /\
    (n' = n \/ i = Meanwhile n' \/
     exists text e, i = FromClient text /\ client_from_json text = Some (CEvent e) /\
       ((ev_kind e = ZAP_RECEIPT /\ n' = (carry_zap env e n).1) \/
        (is_Some (c_reader x) /\ (ev_kind e = CHAT_MESSAGE -> is_Some (channel_of e)) /\ n' = (accept_event env Push e n).1))).
Proof.
  intros K Hb Hc Hi. destruct (aw_input b env i x n) as ([x' n'] & on & Hin & W & [_ Ht]); [done..|by destruct i|].
  exists x', n', on. split; [done|]. split; [|exact Ht]. by apply (wo_healthy _ _ _ _ W).
Qed.

(** ** NIP-29 *)
Lemma hex_inj p q : pk_to_hex p = pk_to_hex q -> p = q.
Proof. intros H. apply (f_equal pk_from_hex) in H. rewrite !pk_hex in H. by injection H. Qed.
Lemma members_elem s p : p ∈ state_members s <-> is_member s p = true.
Proof.
  unfold state_members, is_member. rewrite list_elem_of_fmap. split.
  - intros ([q held] & -> & H%map_entries_elem). cbn. by rewrite H.
  - destruct (gs_members s !! p) as [held|] eqn:E; [|done]. intros _. exists (p, held). by rewrite map_entries_elem.
Qed.
Lemma holders_elem s p role : p ∈ holders_of s role <-> exists held, gs_members s !! p = Some held /\ role ∈ held.
Proof.
  unfold holders_of. rewrite list_elem_of_fmap. split.
  - intros ([q held] & -> & [H%map_entries_elem Hr]%filter_elem). exists held. by apply bool_decide_eq_true in Hr.
  - intros (held & H & Hr). exists (p, held). split; [done|]. rewrite filter_elem, map_entries_elem. by rewrite bool_decide_eq_true.
Qed.
Lemma roles_elem s r : r ∈ state_roles s <-> exists id, gs_roles s !! id = Some r.
Proof.
  unfold state_roles. rewrite list_elem_of_fmap. split.
  - intros ([id r'] & -> & H%map_entries_elem). by exists id.
  - intros (id & H). exists (id, r). by rewrite map_entries_elem.
Qed.
Definition d_row (s : GroupState) : Tag := ["d"; pk_to_hex (gs_id s)].
Lemma metadata_tags s : b_tags (nip29_metadata s) =
  [d_row s; ["name"; gs_name s];
   ["about"; if str_is_empty (gs_about s) then "A HIT_ENTER group, read through one of its anchors." else gs_about s]] ++
  (if gs_public s then [["public"]; ["open"]] else [["private"]; ["closed"]]).
Proof.
  unfold nip29_metadata, visibility_tags, group_tag. rewrite b_tags_add_tags. cbn [b_tag builder_new b_tags app].
  rewrite !tag_custom_spec, tag_identifier_spec. by destruct (gs_public s).
Qed.
Lemma members_tags s names : b_tags (nip29_members s names) =
  d_row s :: map (fun p => "p" :: pk_to_hex p :: option_list (names p)) (state_members s).
Proof.
  unfold nip29_members, group_tag. rewrite b_tags_add_tags. cbn [b_tag builder_new b_tags app]. rewrite tag_identifier_spec.
  f_equal. apply map_ext. intros p. by rewrite tag_custom_spec.
Qed.
Lemma roles_tags s : b_tags (nip29_roles s) = d_row s :: map (fun r => ["role"; r_name r]) (state_roles s).
Proof.
  unfold nip29_roles, group_tag. rewrite b_tags_add_tags. cbn [b_tag builder_new b_tags app]. rewrite tag_identifier_spec.
  f_equal. apply map_ext. intros p. by rewrite tag_custom_spec.
Qed.
Lemma admins_elem s t : t ∈ b_tags (nip29_admins s) <-> t = d_row s \/
  (exists p, gs_owner s = Some p /\ t = ["p"; pk_to_hex p; "owner"]) \/
  (exists id r p, gs_roles s !! id = Some r /\ r_id r <> DEFAULT_ROLE /\ p ∈ holders_of s (r_id r) /\ t = ["p"; pk_to_hex p; r_name r]).
Proof.
  unfold nip29_admins, group_tag. rewrite b_tags_add_tags. rewrite elem_of_app.
  assert (Hh : forall b : EventBuilder, b_tags b = [d_row s] -> t ∈ b_tags (match gs_owner s with
    | Some owner => b_tag b (tag_custom "p" [pk_to_hex owner; "owner"]) | None => b end) <->
    t = d_row s \/ exists p, gs_owner s = Some p /\ t = ["p"; pk_to_hex p; "owner"]).
  { intros b Hb. destruct (gs_owner s) as [o|]; cbn; rewrite Hb, ?tag_custom_spec; cbn [app];
      rewrite ?elem_of_cons, elem_of_nil; naive_solver. }
  rewrite Hh by by cbn; rewrite tag_identifier_spec. rewrite flat_map_elem. setoid_rewrite roles_elem.
  assert (Hr : (exists r, (exists id, gs_roles s !! id = Some r) /\ t ∈ role_rows s r) <->
    (exists id r p, gs_roles s !! id = Some r /\ r_id r <> DEFAULT_ROLE /\ p ∈ holders_of s (r_id r) /\ t = ["p"; pk_to_hex p; r_name r])).
  { unfold role_rows. split.
    - intros (r & (id & Hid) & Ht). case_bool_decide; [by apply not_elem_of_nil in Ht|].
      apply list_elem_of_fmap in Ht as (p & -> & Hp). exists id, r, p. by rewrite tag_custom_spec.
    - intros (id & r & p & Hid & Hne & Hp & ->). exists r. split; [by exists id|]. rewrite bool_decide_eq_false_2 by done.
      apply list_elem_of_fmap. exists p. by rewrite tag_custom_spec. }
  rewrite <- Hr. naive_solver.
Qed.
(** A tag of the event [e] is one of [R]; and is, but for the signer's own name. *)
Definition says (me : PublicKey) (e : Event) (R : Tag -> Prop) : Prop :=
  forall t, (t ∈ ev_tags e -> R t) /\ (R t -> t ∈ ev_tags e \/ (t !! 0%nat = Some "p" /\ t !! 1%nat = Some (pk_to_hex me))).
Definition told_by (relay : Keys) (kind : Kind) (at_ : Timestamp) (e : Event) : Prop :=
  ev_verify e = true /\ ev_pubkey e = keys_public_key relay /\ ev_kind e = kind /\ ev_created_at e = at_ /\ ev_content e = "".
Lemma finalize_says relay b at_ e R : finalize relay (b_at b at_) = Some e -> b_content b = "" -> (forall t, t ∈ b_tags b <-> R t) ->
  told_by relay (b_kind b) at_ e /\ says (keys_public_key relay) e R.
Proof.
  intros H Hb HR. apply finalize_tags in H as (Hk & Hc & Hp & Ht & Hv & Htags). unfold told_by. split.
  - split; [done|]. split; [done|]. split; [done|]. split; [by apply Ht|]. by rewrite Hc.
  - intros t. rewrite <- HR. exact (Htags t).
Qed.
Lemma builder_add_tags b l : b_kind (b_tags_add b l) = b_kind b /\ b_content (b_tags_add b l) = b_content b.
Proof. unfold b_tags_add. revert b. induction l as [|t l IH]; intros b; cbn; [done|]. destruct (IH (b_tag b t)) as [-> ->]. done. Qed.
Lemma builders_plain s names :
  (b_kind (nip29_metadata s) = NIP29_METADATA /\ b_content (nip29_metadata s) = "") /\
  (b_kind (nip29_admins s) = NIP29_ADMINS /\ b_content (nip29_admins s) = "") /\
  (b_kind (nip29_members s names) = NIP29_MEMBERS /\ b_content (nip29_members s names) = "") /\
  (b_kind (nip29_roles s) = NIP29_ROLES /\ b_content (nip29_roles s) = "").
Proof.
  unfold nip29_metadata, nip29_admins, nip29_members, nip29_roles. cbv zeta.
  repeat match goal with |- context [b_tags_add ?b ?l] => destruct (builder_add_tags b l) as [-> ->] end.
  by destruct (gs_owner s).
Qed.
(** C18. What a NIP-29 client is told of a group, in the four events served, is
    what the fold says and nothing else: each is signed by the anchor's key at
    that moment, names the group, and has exactly
    - its name, what it is about and its visibility;
    - the owner, and each holder of a role other than everyone's under that
      role's name;
    - its members, with the names the anchor knows;
    - the names of its roles:
    no channel, override, ban or mute.  The one exception is the anchor's own
    key, which signing may leave out of the admins and the members. *)
Theorem nip29_faithful relay s names at_ evs : wf s -> translate relay s names at_ = Some evs ->
  exists metadata admins members roles, evs = [metadata; admins; members; roles] /\
  (told_by relay 39000 at_ metadata /\ told_by relay 39001 at_ admins /\ told_by relay 39002 at_ members /\ told_by relay 39003 at_ roles) /\
  (forall t, t ∈ ev_tags metadata <-> t = d_row s \/ t = ["name"; gs_name s] \/
     t = ["about"; if str_is_empty (gs_about s) then "A HIT_ENTER group, read through one of its anchors." else gs_about s] \/
     (gs_public s = true /\ (t = ["public"] \/ t = ["open"])) \/ (gs_public s = false /\ (t = ["private"] \/ t = ["closed"]))) /\
  says (keys_public_key relay) admins (fun t => t = d_row s \/
     (exists p, gs_owner s = Some p /\ t = ["p"; pk_to_hex p; "owner"]) \/
     (exists r p held, gs_roles s !! r_id r = Some r /\ r_id r <> DEFAULT_ROLE /\ gs_members s !! p = Some held /\
        r_id r ∈ held /\ t = ["p"; pk_to_hex p; r_name r])) /\
  says (keys_public_key relay) members (fun t => t = d_row s \/
     exists p, is_member s p = true /\ t = "p" :: pk_to_hex p :: option_list (names p)) /\
  (forall t, t ∈ ev_tags roles <-> t = d_row s \/ exists r, gs_roles s !! r_id r = Some r /\ t = ["role"; r_name r]).
Proof.
  intros Hw Ht. unfold translate in Ht. destruct (builders_plain s names) as ([K1 C1] & [K2 C2] & [K3 C3] & [K4 C4]).
  apply mapM_Some in Ht. repeat (apply Forall2_cons_inv_l in Ht as (? & ? & ? & Ht & ->)). apply Forall2_nil_inv_l in Ht as ->.
  rename x into metadata, x0 into members, x1 into admins, x2 into roles.
  assert (Hid : forall id r, gs_roles s !! id = Some r -> r_id r = id) by (intros id r; apply (rw_ids _ (wf_roles s Hw))).
  apply (finalize_says _ _ _ _ (fun t => t ∈ b_tags (nip29_metadata s))) in H; [|done|done].
  apply (finalize_says _ _ _ _ (fun t => t ∈ b_tags (nip29_admins s))) in H0; [|done|done].
  apply (finalize_says _ _ _ _ (fun t => t ∈ b_tags (nip29_members s names))) in H1; [|done|done].
  apply (finalize_says _ _ _ _ (fun t => t ∈ b_tags (nip29_roles s))) in H2; [|done|done].
  destruct H as [T1 S1], H0 as [T2 S2], H1 as [T3 S3], H2 as [T4 S4]. rewrite K1 in T1. rewrite K2 in T2. rewrite K3 in T3. rewrite K4 in T4.
  exists metadata, admins, members, roles. split; [done|]. split; [exact (conj T1 (conj T2 (conj T3 T4)))|].
  split; [|split; [|split]].
  - intros t. destruct (S1 t) as [Fwd Bwd]. rewrite metadata_tags in Fwd, Bwd. split.
    + intros H%Fwd. destruct (gs_public s); cbn [app] in H; rewrite !elem_of_cons, elem_of_nil in H; naive_solver.
    + intros H. destruct Bwd as [Bwd|[Bwd _]]; [|done|].
      * destruct (gs_public s); cbn [app]; rewrite !elem_of_cons, elem_of_nil; naive_solver.
      * by naive_solver.
  - intros t. destruct (S2 t) as [Fwd Bwd]. rewrite admins_elem in Fwd, Bwd. split.
    + intros [H|[H|(id & r & p & Hr & Hne & (held & Hm & Hin)%holders_elem & ->)]]%Fwd; [by left|by right; left|].
      right. right. exists r, p, held. by rewrite (Hid _ _ Hr) in *.
    + intros H. apply Bwd. destruct H as [H|[H|(r & p & held & Hr & Hne & Hm & Hin & ->)]]; [by left|by right; left|].
      right. right. exists (r_id r), r, p. rewrite holders_elem. split_and!; try done. by exists held.
  - intros t. destruct (S3 t) as [Fwd Bwd]. rewrite members_tags in Fwd, Bwd. split.
    + intros [H|(p & -> & Hp)%list_elem_of_fmap]%Fwd%elem_of_cons; [by left|]. right. exists p. by rewrite <- members_elem.
    + intros H. apply Bwd, elem_of_cons. destruct H as [H|(p & Hp & ->)]; [by left|]. right. apply list_elem_of_fmap. exists p.
      by rewrite members_elem.
  - intros t. destruct (S4 t) as [Fwd Bwd]. rewrite roles_tags in Fwd, Bwd. split.
    + intros [H|(r & -> & (id & Hr)%roles_elem)%list_elem_of_fmap]%Fwd%elem_of_cons; [by left|]. right. exists r. by rewrite (Hid _ _ Hr).
    + intros H. destruct Bwd as [Bwd|[Bwd _]]; [|done|by destruct H as [->|(r & _ & ->)]].
      apply elem_of_cons. destruct H as [->|(r & Hr & ->)]; [by left|]. right. apply list_elem_of_fmap. exists r.
      rewrite roles_elem. split; [done|]. by exists (r_id r).
Qed.
End AnchorSpec.
