(* ===== verification/Shown.v ===== *)
(** What the window draws from ([crates/hit-desktop/src]): decoded pictures kept
    under a cap ([pictures.rs]), rows patched in place and the words of a row
    ([chat.rs], [chat/zaps.rs]), and the links a second copy hands over
    ([instance.rs]).

    Decoding, pixels and Slint's models are other crates': a picture is its
    bytes of pixels, a model the list of its rows. *)
From S2P Require Import Prelude Text.

#[local] Open Scope string_scope.
#[local] Open Scope Z_scope.
#[local] Open Scope list_scope.

(** ** Pictures (pictures.rs) *)
Definition AUTO_BYTES : Z := 8000000.
Definition CAP_BYTES : Z := Z.shiftl 48 20.
Record Pixels := mkPixels { px_bytes : nat; px_image : string }.
Definition px_size (p : Pixels) : Z := Z.of_nat (px_bytes p).
Record Pictures := mkPictures {
  ps_shown : gmap string Pixels;
  ps_order : list string;
  ps_bytes : Z;
  ps_notes : gmap string string;
  ps_asked : gset string }.
Definition no_pictures : Pictures := mkPictures ∅ [] 0 ∅ ∅.
Definition set_note (key note : string) (p : Pictures) : Pictures :=
  mkPictures (ps_shown p) (ps_order p) (ps_bytes p) (<[key := note]> (ps_notes p)) (ps_asked p).
Definition ask (key : string) (p : Pictures) : Pictures :=
  mkPictures (ps_shown p) (ps_order p) (ps_bytes p) (delete key (ps_notes p)) ({[key]} ∪ ps_asked p).
Definition wants (key : string) (size : Z) (p : Pictures) : bool :=
  ((size <=? AUTO_BYTES) || bool_decide (key ∈ ps_asked p))
  && negb (opt_bool (ps_shown p !! key)) && negb (opt_bool (ps_notes p !! key)).
(** The oldest go while over the cap, those on screen passed over; what is
    left of the order, what was passed over, and the rest. *)
Fixpoint evict (visible : gset string) (order keep : list string) (shown : gmap string Pixels) (bytes : Z)
    : list string * list string * gmap string Pixels * Z :=
  match order with
  | [] => ([], keep, shown, bytes)
  | k :: t =>
      if bytes <=? CAP_BYTES then (order, keep, shown, bytes)
      else if bool_decide (k ∈ visible) then evict visible t (keep ++ [k]) shown bytes
      else match shown !! k with
           | Some p => evict visible t keep (delete k shown) (bytes - px_size p)
           | None => evict visible t keep shown bytes
           end
  end.
Definition insert_picture (key : string) (px : Pixels) (visible : gset string) (p : Pictures) : Pictures :=
  let '(order, keep, shown, bytes) :=
    evict visible (ps_order p ++ [key]) [] (<[key := px]> (ps_shown p)) (ps_bytes p + px_size px) in
  mkPictures shown (keep ++ order) bytes (delete key (ps_notes p)) (ps_asked p).

(** ** Rows (chat.rs) *)
Section Patch.
Context {R : Type} (same : R -> R -> bool).
(** Row by row: one that shows the same stays, another is set, the rest are
    pushed. *)
Fixpoint patch_rows (model rows : list R) : list R :=
  match rows, model with
  | [], _ => []
  | row :: t, old :: m => (if same old row then old else row) :: patch_rows m t
  | row :: t, [] => row :: patch_rows [] t
  end.
Definition patch (model rows : list R) : list R :=
  if Nat.ltb (length rows) (length model) then rows else patch_rows model rows.
End Patch.

(** ** Words *)
Definition is_picture (mime : string) : bool :=
  opt_bool (strip_prefix "image/" mime) && negb (bool_decide (mime = "image/svg+xml")).
Definition ellipsis : string := str_of_bytes [226; 128; 166].
Definition short_key (npub : string) : string :=
  if 20 <? chars_count npub then
    concat_str (take 10 (chars npub)) +:+ ellipsis +:+ concat_str (rev (take 4 (rev (chars npub))))
  else npub.
Definition joined (sep : string) (l : list string) : string :=
  match l with [] => "" | a :: t => foldl (fun acc x => acc +:+ sep +:+ x) a t end.
(** [split_last]. *)
Definition split_last {A} (l : list A) : option (A * list A) :=
  match rev l with [] => None | a :: t => Some (a, rev t) end.
Definition known_line (names : list string) (count : Z) : string :=
  let others := sat_sub count (Z.of_nat (length names)) in
  match split_last names with
  | None => ""
  | Some (last, rest) =>
      if others =? 0 then
        match rest with
        | [] => last +:+ " is here"
        | _ => joined ", " rest +:+ " and " +:+ last +:+ " are here"
        end
      else joined ", " names +:+ " and " +:+ show_u others +:+ " other" +:+ (if others =? 1 then "" else "s") +:+ " you know are here"
  end.
(** [usize] to [i32]. *)
Definition count (n : nat) : Z := Z.min (Z.of_nat n) 2147483647.
(** A comma before each three digits left. *)
Fixpoint thousands (digits : list ascii) : list ascii :=
  match digits with
  | [] => []
  | c :: t =>
      (match t with [] => [c] | _ => if Nat.eqb (length t mod 3) 0 then [c; ","%char] else [c] end) ++ thousands t
  end.
Definition sats (n : Z) : string := String.string_of_list_ascii (thousands (String.list_ascii_of_string (show_u n))).
Definition fee_note (fee : Z) : string :=
  if 0 <? fee then " The " +:+ sats fee +:+ "-sat fee is being paid separately." else "".

(** ** Links from another copy (instance.rs) *)
Definition URL_SCHEME : string := "hit-enter".
Definition scheme_of (a : string) : option string := match split_on ":"%char a with w :: _ :: _ => Some w | _ => None end.
Definition links_in (args : list string) : list string :=
  List.filter (fun a => is_some_and (scheme_of a) (fun s => bool_decide (to_ascii_lowercase s = URL_SCHEME))) args.
