(* ===== verification/ShownSpec.v ===== *)
(** The pictures kept stay under their cap, those on screen stay, and the count
    of their bytes is at least theirs; rows patched show what they should, and those that
    did are not touched. *)
From stdpp Require Import relations.
From S2P Require Import Prelude Text Shown.

#[local] Open Scope Z_scope.

(** ** Pictures *)
(** The bytes of what is held. *)
Definition held_bytes (shown : gmap string Pixels) : Z := map_fold (fun _ px n => px_size px + n) 0 shown.
Lemma held_insert shown k px : shown !! k = None -> held_bytes (<[k := px]> shown) = px_size px + held_bytes shown.
Proof. intros H. unfold held_bytes. rewrite map_fold_insert_L; [done|intros; lia|done]. Qed.
Lemma held_delete shown k px : shown !! k = Some px -> held_bytes (delete k shown) = held_bytes shown - px_size px.
Proof. intros H. unfold held_bytes. rewrite (map_fold_delete_L _ _ k px shown); [lia|intros; lia|done]. Qed.
Lemma held_nonneg shown : 0 <= held_bytes shown.
Proof.
  apply (map_fold_weak_ind (fun n _ => 0 <= n)); [done|]. intros k px m n _ H. unfold px_size. lia.
Qed.
Lemma held_replace shown k px : held_bytes (<[k := px]> shown) <= px_size px + held_bytes shown.
Proof.
  destruct (shown !! k) as [old|] eqn:E; [|by rewrite held_insert].
  rewrite <- insert_delete_eq, held_insert by apply lookup_delete_eq. rewrite (held_delete _ _ old) by done. unfold px_size. lia.
Qed.
(** However used: what is held is in the order, and counted for at least what it is. *)
Record pictures_kept (p : Pictures) : Prop := {
  pk_held k : is_Some (ps_shown p !! k) -> k ∈ ps_order p;
  pk_bytes : held_bytes (ps_shown p) <= ps_bytes p;
}.
(** While nothing held is put in again: counted once, for just what it is. *)
Record pictures_ok (p : Pictures) : Prop := {
  po_once : NoDup (ps_order p);
  po_held k : k ∈ ps_order p <-> is_Some (ps_shown p !! k);
  po_bytes : ps_bytes p = held_bytes (ps_shown p);
}.
(** What eviction leaves, from pictures [keep] passed over and [order] to go
    through. *)
Record evicted (visible : gset string) (shown : gmap string Pixels)
    (order' keep' : list string) (shown' : gmap string Pixels) (bytes' : Z) : Prop := {
  ev_held k : is_Some (shown' !! k) -> k ∈ keep' ++ order';
  ev_bytes : held_bytes shown' <= bytes';
  ev_still k : k ∈ visible -> shown' !! k = shown !! k;
  ev_same k p : shown' !! k = Some p -> shown !! k = Some p;
  ev_cap : bytes' <= CAP_BYTES \/ Forall (fun k => k ∈ visible) (keep' ++ order');
}.
Lemma evict_spec visible order : forall keep shown bytes,
  (forall k, is_Some (shown !! k) -> k ∈ keep ++ order) -> held_bytes shown <= bytes -> Forall (fun k => k ∈ visible) keep ->
  match evict visible order keep shown bytes with
  | (order', keep', shown', bytes') => evicted visible shown order' keep' shown' bytes'
  end.
Proof.
  induction order as [|k t IH]; intros keep shown bytes Hh Hb Hv; cbn [evict].
  { split; try done. right. by rewrite app_nil_r. }
  destruct (Z.leb_spec bytes CAP_BYTES); [split; try done; by left|].
  case_bool_decide as Hk.
  - apply IH; [by intros x Hx; rewrite <- app_assoc; apply Hh|done|]. apply Forall_app. split; [done|by constructor].
  - destruct (shown !! k) as [p|] eqn:Hp.
    + specialize (IH keep (delete k shown) (bytes - px_size p)).
      destruct (evict visible t keep (delete k shown) (bytes - px_size p)) as [[[o' k'] s'] b'].
      destruct IH as [H1 H2 H3 H4 H5]; [|by rewrite (held_delete _ _ p) by done; lia|done|].
      { intros x [Hx1 Hx2]%lookup_delete_is_Some. specialize (Hh x Hx2). rewrite elem_of_app, elem_of_cons in *. naive_solver. }
      split; try done.
      * intros x Hx. rewrite H3 by done. apply lookup_delete_ne. by intros ->.
      * intros x q Hq. by apply H4, lookup_delete_Some in Hq as [_ Hq].
    + apply IH; [|done|done]. intros x Hx. pose proof (Hh x Hx) as Hin. rewrite elem_of_app, elem_of_cons in *.
      destruct Hin as [Hi|[->|Hi]]; [by left| |by right]. rewrite Hp in Hx. by destruct Hx.
Qed.
Lemma evict_exact visible order : forall keep shown bytes,
  NoDup (keep ++ order) -> (forall k, k ∈ keep ++ order <-> is_Some (shown !! k)) -> bytes = held_bytes shown ->
  match evict visible order keep shown bytes with
  | (order', keep', shown', bytes') =>
      NoDup (keep' ++ order') /\ (forall k, k ∈ keep' ++ order' <-> is_Some (shown' !! k)) /\ bytes' = held_bytes shown'
  end.
Proof.
  induction order as [|k t IH]; intros keep shown bytes Hn Hh Hb; cbn [evict]; [done|].
  destruct (Z.leb_spec bytes CAP_BYTES); [done|]. case_bool_decide as Hk.
  - apply IH; [by rewrite <- app_assoc|by intros x; rewrite <- app_assoc|done].
  - destruct (proj1 (Hh k)) as [p Hp]; [apply elem_of_app; right; left|]. rewrite Hp.
    assert (Hperm : keep ++ k :: t ≡ₚ k :: keep ++ t) by by rewrite Permutation_middle.
    rewrite Hperm in Hn. apply NoDup_cons in Hn as [Hnk Hn]. apply IH; [done| |by rewrite (held_delete _ _ p), Hb].
    intros x. rewrite lookup_delete_is_Some, <- Hh, Hperm, elem_of_cons. split; [|naive_solver].
    intros Hx. split; [by intros ->|by right].
Qed.
Lemma insert_evicts p key px visible : pictures_kept p ->
  let p' := insert_picture key px visible p in exists order keep,
  evicted visible (<[key := px]> (ps_shown p)) order keep (ps_shown p') (ps_bytes p') /\ ps_order p' = keep ++ order.
Proof.
  intros [Hh Hb]. cbv zeta. unfold insert_picture.
  pose proof (evict_spec visible (ps_order p ++ [key]) [] (<[key := px]> (ps_shown p)) (ps_bytes p + px_size px)) as H.
  destruct (evict _ _ _ _ _) as [[[o' k'] s'] b']. exists o', k'. split; [|done]. apply H; [|pose proof (held_replace (ps_shown p) key px); lia|done].
  intros x Hx. cbn. apply lookup_insert_is_Some' in Hx. rewrite elem_of_app, list_elem_of_singleton. naive_solver.
Qed.
Lemma insert_exact p key px visible : pictures_ok p -> ps_shown p !! key = None -> pictures_ok (insert_picture key px visible p).
Proof.
  intros [Hn Hh Hb] Hk. unfold insert_picture.
  assert (Hnew : key ∉ ps_order p) by (rewrite Hh, Hk; by intros [? ?]).
  pose proof (evict_exact visible (ps_order p ++ [key]) [] (<[key := px]> (ps_shown p)) (ps_bytes p + px_size px)) as H.
  destruct (evict _ _ _ _ _) as [[[o' k'] s'] b']. destruct H as (H1 & H2 & H3); [| | |by split].
  - cbn. apply NoDup_app. split; [done|]. split; [|apply NoDup_singleton]. by intros x Hx ->%list_elem_of_singleton.
  - intros x. cbn. rewrite elem_of_app, list_elem_of_singleton, Hh, lookup_insert_is_Some'. naive_solver.
  - rewrite held_insert by done. lia.
Qed.
(** What the window does with it, in any order. *)
Inductive touched : Pictures -> Pictures -> Prop :=
| t_insert key px visible p : touched p (insert_picture key px visible p)
| t_note key note p : touched p (set_note key note p)
| t_ask key p : touched p (ask key p).
Lemma kept_always p : rtc touched no_pictures p -> pictures_kept p.
Proof.
  assert (H0 : pictures_kept no_pictures) by (split; [by intros k [? ?]|done]). revert H0. generalize no_pictures.
  intros q Hq H. induction H as [|p p1 p2 Hs _ IH]; [done|]. apply IH. clear IH. destruct Hs; [|by destruct Hq; split..].
  destruct (insert_evicts p key px visible Hq) as (o & k & [H1 H2 _ _ _] & Ho). split; [by rewrite Ho|done].
Qed.
(** C40. However the cache of pictures was used - put in, noted, asked for, in any
    order, even twice - a picture put in leaves the pictures held, counted for at
    least the bytes they are, under 48 MiB, or nothing held but what is on
    screen; nothing on screen was dropped, nothing is held but what was and the
    new one, and it is not wanted again while it is.  The count is exactly the
    bytes held as long as no picture is put in that is held already. *)
Theorem pictures_capped p key px visible : rtc touched no_pictures p ->
  let p' := insert_picture key px visible p in
  0 <= held_bytes (ps_shown p') <= ps_bytes p' /\
  (held_bytes (ps_shown p') <= 50331648 \/ forall k, is_Some (ps_shown p' !! k) -> k ∈ visible) /\
  (forall k, k ∈ visible -> ps_shown p' !! k = (<[key := px]> (ps_shown p)) !! k) /\
  (forall k q, ps_shown p' !! k = Some q -> (<[key := px]> (ps_shown p)) !! k = Some q) /\
  wants key 0 p' = negb (opt_bool (ps_shown p' !! key)) /\
  (pictures_ok p -> ps_shown p !! key = None -> pictures_ok p').
Proof.
  intros H. destruct (insert_evicts p key px visible (kept_always _ H)) as (o & k & [H1 H2 H3 H4 H5] & Ho).
  cbv zeta in *. split; [split; [apply held_nonneg|done]|]. split.
  { destruct H5 as [H5|H5]; [left; change CAP_BYTES with 50331648 in H5; lia|right]. intros x Hx. rewrite Forall_forall in H5. auto. }
  split; [done|]. split; [done|]. split; [|apply insert_exact].
  unfold wants, insert_picture. destruct (evict _ _ _ _ _) as [[[o' k'] s'] b']. cbn. rewrite lookup_delete_eq. cbn. by rewrite andb_true_r.
Qed.
(** A picture decoded twice is counted twice and held once: its bytes are
    counted against the cap for good. *)
Theorem counted_twice p key px visible : pictures_ok p -> ps_shown p !! key = Some px ->
  ps_bytes p + px_size px <= CAP_BYTES -> 0 < px_size px ->
  let p' := insert_picture key px visible p in
  ps_shown p' = ps_shown p /\ ps_bytes p' = ps_bytes p + px_size px /\ ~ pictures_ok p'.
Proof.
  intros [Hn Hh Hb] Hk Hc Hp. cbv zeta. unfold insert_picture.
  assert (E : evict visible (ps_order p ++ [key]) [] (<[key := px]> (ps_shown p)) (ps_bytes p + px_size px) =
    (ps_order p ++ [key], [], <[key := px]> (ps_shown p), ps_bytes p + px_size px)).
  { destruct (ps_order p ++ [key]) as [|k t] eqn:Eo; [done|]. cbn [evict]. by rewrite (proj2 (Z.leb_le _ _) Hc). }
  rewrite E. cbn. rewrite insert_id by done. split; [done|]. split; [done|]. intros [Hn' _ _]. cbn in Hn'.
  apply NoDup_app in Hn' as (_ & Hd & _). apply (Hd key); [by apply Hh; eexists|left].
Qed.

(** ** Rows *)
Section Patch.
Context {R : Type} (same : R -> R -> bool).
Lemma patch_rows_shows rows : forall model, Forall2 (fun r row => r = row \/ same r row = true) (patch_rows same model rows) rows.
Proof.
  induction rows as [|row t IH]; intros model; cbn [patch_rows]; [constructor|].
  destruct model as [|old m]; constructor; try apply IH; [by left|]. destruct (same old row) eqn:E; [by right|by left].
Qed.
(** A model patched shows its rows: as many, each the row itself or one
    that shows the same; and unless the list shrank, a row that showed the same
    is the very row that was there. *)
Theorem patch_shows model rows :
  Forall2 (fun r row => r = row \/ same r row = true) (patch same model rows) rows /\
  (forall i old row, (length model <= length rows)%nat -> model !! i = Some old -> rows !! i = Some row ->
     same old row = true -> patch same model rows !! i = Some old).
Proof.
  unfold patch. split.
  - destruct (Nat.ltb _ _); [|apply patch_rows_shows]. apply Forall2_same_length_lookup. split; [done|].
    intros i x y Hx Hy. left. congruence.
  - intros i old row Hl. rewrite (proj2 (Nat.ltb_ge _ _) Hl). clear Hl. revert model i.
    induction rows as [|row' t IH]; intros [|old' m] [|i]; cbn; try done.
    + intros [= ->] [= ->] E. by rewrite E.
    + apply IH.
Qed.
End Patch.
