(* ===== verification/Core.v ===== *)
(** What the window asks of the app: the interface between [hit-desktop] and
    [hit-app-core], each call with its answer or the error's text, and the app
    as an instance of it - with [status], the one call that is only the
    window's ([crates/hit-app-core/src/state.rs]). *)
From S2P Require Import Prelude Text Nostr GroupEvent Replace Perm Zap GroupState Fold.
From S2P Require Import Binding Dm Groups EventStore Proto Person Node NodeOps NodeGroups Session Relay Sync Audio Voice.
From S2P Require Import Lightning Wallet App Views Chat Publish.

#[local] Open Scope Z_scope.

Record Status := mkStatus {
  su_stage : Stage; su_npub : option string; su_lost : option string; su_device : option string; su_name : option string;
  su_confirm_chars : nat; su_min_password : Z; su_max_message_chars : Z; su_relays : bool }.

(** [A]: the app's state. *)
Class Core (A : Type) := {
  core_status : A -> A * result string Status;
  core_groups : A -> A * result string (list GroupView);
  core_members : string -> A -> A * result string (list MemberView);
  core_roles : string -> A -> A * result string (list RoleView);
  core_bans : string -> A -> A * result string (list BanView);
  core_messages : string -> string -> A -> A * result string (list MessageView);
  core_names : list string -> A -> A * result string (gmap string string);
  core_present : A -> A * result string (gset string);
  core_unread : A -> A * result string (list Unread);
  core_mark_read : string -> string -> Z -> A -> A * result string unit;
  core_send : string -> string -> string -> list FileView -> A -> A * result string MessageView;
  core_react : string -> string -> string -> string -> A -> A * result string ReactionView;
  core_withdraw : string -> string -> string -> A -> A * result string unit;
  core_remove_message : string -> string -> string -> A -> A * result string unit;
  core_create_group : string -> bool -> A -> A * result string string;
  core_join : string -> A -> A * result string string;
  core_join_reading : string -> A -> A * result string unit;
  core_invite : string -> option Z -> A -> A * result string string;
  core_public_link : string -> A -> A * result string string;
  core_dms : A -> A * result string (list DmView);
  core_dm_unread : A -> A * result string (gmap string nat);
  core_send_dm : string -> string -> A -> A * result string DmView;
  core_add_contact : string -> A -> A * result string string;
  core_zap_totals : list string -> A -> A * result string (list (string * (Z * Z)));
  core_set_name : string -> A -> A * result string unit;
  core_voice_view : A -> A * result string VoiceView;
  core_voice_set : option bool -> option bool -> option bool -> A -> A * result string unit;
  core_voice_talk : bool -> A -> A * result string unit;
}.

(** ** The app *)
Section AppCore.
Context {N : NostrTypes} {O : NostrOps} {T : DeviceTypes} {P : DeviceOps} {C : DmCrypto}.
Context {Y : WireTypes} {F : ProfileTypes} {NT : NodeTypes} {RT : RelayTypes} {ST : SyncTypes}.
Context {OP : Opus} {VT : VoiceTypes} {LT : LnTypes} {WT : WalletTypes} {AT : AppTypes}.
Context {K : Type} {KS : SecretStore K}.
#[local] Open Scope string_scope.
#[local] Open Scope Z_scope.
#[local] Open Scope list_scope.
Notation AppM := (AppM (K := K)).
Notation "'let@' x ':=' e 'in' k" := (a_bind e (fun x => k)) (at level 200, x pattern, e at level 200, k at level 200, right associativity).

Definition app_status : AppM Status :=
  let@ a := app in
  let npub := af_npub (ap_file a) in
  let@ lost := (match npub with
                | Some n => let@ p := person in a_ret (match p with None => Some n | Some _ => None end)
                | None => a_ret None
                end) in
  let@ who := (match ap_running a with
               | Some r =>
                   let@ named := on_node (names [me (ru_node r)]) in
                   a_ret (Some (ep_to_string (my_id (ru_node r))), named !! me (ru_node r))
               | None => a_ret (None, None)
               end) in
  a_ret (mkStatus (match lost with Some _ => New | None => stage a end) (match lost with Some _ => None | None => npub end)
           lost who.1 who.2 CONFIRM_CHARS MIN_PASSWORD MAX_MESSAGE_CHARS
           (match nc_relays (ap_net a) with Disabled => false | _ => true end)).

(** [Display] of an error; a key's is its crate's. *)
Variable key_text : KeyError -> string.
Definition app_text (e : AppError) : string :=
  match e with ANode e => error_text e | AKey e => key_text e | AIo why | ARefused why => why end.
Definition told {X} (m : AppM X) (a : App) : App * result string X :=
  match m a with (a, Ok x) => (a, Ok x) | (a, Err e) => (a, Err (app_text e)) end.
(** At one moment: its clock, its peers, and what it draws. *)
Definition app_core (os : Os) (net : Sync.Net) (made : Keys) (code : string) : Core (App (K := K)) := {|
  core_status := told app_status;
  core_groups := told (groups os);
  core_members g := told (members os g);
  core_roles g := told (roles g);
  core_bans g := told (bans g);
  core_messages g c := told (app_messages g c);
  core_names l := told (app_names l);
  core_present := told (app_present os);
  core_unread := told (unread os);
  core_mark_read g c t := told (mark_read os g c t);
  core_send g c text files := told (app_send os g c text files);
  core_react g c m emoji := told (app_react os g c m emoji);
  core_withdraw g c i := told (app_withdraw os g c i);
  core_remove_message g c i := told (remove_message os g c i);
  core_create_group name public := told (create_app_group os made name public);
  core_join link := told (app_join os net link);
  core_join_reading g := told (join_reading os net g);
  core_invite g hours := told (app_invite os code g hours);
  core_public_link g := told (app_public_link os g);
  core_dms := told app_dms;
  core_dm_unread := told dm_unread;
  core_send_dm to text := told (app_send_dm os to text);
  core_add_contact link := told (app_add_contact os net link);
  core_zap_totals l := told (app_zap_totals l);
  core_set_name name := told (set_name os name);
  core_voice_view := told (voice_view os);
  core_voice_set m d p := told (voice_set m d p);
  core_voice_talk down := told (voice_talk down);
|}.
End AppCore.
