(* ===== verification/Window.v ===== *)
(** The window's cache of the app ([crates/hit-desktop/src/chat.rs], [chat/dms.rs],
    [chat/voice.rs], [chat/zaps.rs]): the open group and channel, its messages
    and members, direct messages, unread counts, the call - and what each button
    and each event of the node makes of them.  What is drawn from it is
    [Render]'s.

    An operation runs under the cache's lock, over the app ([Core]); it changes
    both and never fails. *)
From coqutil Require Import Datatypes.RecordSetters.
From S2P Require Import Prelude Text Nostr GroupEvent Node NodeOps Voice App Views Chat Publish Shown Core.
Import DoubleBraceUpdate.

#[local] Open Scope string_scope.
#[local] Open Scope Z_scope.
#[local] Open Scope list_scope.

Record State := mkState {
  w_me : string;
  w_max_chars : Z;
  w_groups : list GroupView;
  w_group : option string;
  w_channel : option string;
  w_messages : list MessageView;
  w_members : list MemberView;
  w_names : gmap string string;
  w_present : gset string;
  w_unread : gmap string nat;
  w_send_error : option string;
  w_message_error : option string;
  w_bans : list BanView;
  w_person : option string;
  w_pending : list FileView;
  w_pics : Pictures;
  w_dms_open : bool;
  w_dms : list DmView;
  w_dm_with : option string;
  w_dm_unread : gmap string nat;
  w_dm_error : option string;
  w_voice : option VoiceView;
  w_voice_error : option string;
  w_call_busy : bool;
  w_talking : bool;
  w_zap_target : option (string * string);
  w_unfocused : bool;
  w_ticking : bool }.
Definition new_window : State :=
  mkState "" 0 [] None None [] [] ∅ ∅ ∅ None None [] None [] no_pictures false [] None ∅ None None None false false None false false.

(** ** Reading the cache *)
Definition group_named (s : State) (id : option string) : option GroupView :=
  List.find (fun g => bool_decide (Some (gv_id g) = id)) (w_groups s).
Definition open_group (s : State) : option GroupView := group_named s (w_group s).
Definition first_text (g : option GroupView) : option string :=
  let! g := g in option_map cv_id (List.find (fun c => bool_decide (cv_kind c = "text")) (gv_channels g)).
Definition newcomer_left (now : Timestamp) (g : option GroupView) : option Z :=
  let! g := g in let! t := gv_posts_from g in if now <? t then Some (t - now) else None.
Definition unread_key (group channel : string) : string := group +:+ "/" +:+ channel.
Definition name_of (s : State) (npub : string) : string := opt_get (short_key npub) (w_names s !! npub).
(** The pictures on screen: key, of a direct message, size. *)
Definition on_screen (s : State) : list (string * bool * Z) :=
  if w_dms_open s then
    filter_map (fun d =>
      let! f := dw_file d in
      if bool_decide (Some (dw_with d) = w_dm_with s) && is_picture (dv_mime f) then Some (dw_id d, true, dv_size f) else None) (w_dms s)
  else
    map (fun f => (fv_hash f, false, fv_size f))
      (List.filter (fun f => is_picture (fv_mime f)) (flat_map mv_files (w_messages s))).

(** ** Changing it *)
Definition bump (key : string) (m : gmap string nat) : gmap string nat := <[key := S (opt_get 0%nat (m !! key))]> m.
Definition with_reactions (f : list ReactionView -> list ReactionView) (m : MessageView) : MessageView :=
  mkMessageView (mv_id m) (mv_group m) (mv_channel m) (mv_author m) (mv_text m) (mv_at m) (mv_mine m)
    (f (mv_reactions m)) (mv_files m) (mv_zap_sats m) (mv_zap_count m).
(** The first message of that id. *)
Fixpoint on_message (id : string) (f : MessageView -> MessageView) (l : list MessageView) : list MessageView :=
  match l with
  | [] => []
  | m :: t => if bool_decide (mv_id m = id) then f m :: t else m :: on_message id f t
  end.
Definition reacted (r : ReactionView) (s : State) : State :=
  s{{ w_messages ::= on_message (rv_message r) (with_reactions (fun l =>
        if existsb (fun x => bool_decide (rv_id x = rv_id r)) l then l else l ++ [r])) }}.
Definition gone (ids : list string) (s : State) : State :=
  s{{ w_messages ::= fun l =>
        map (with_reactions (List.filter (fun r => negb (bool_decide (rv_id r ∈ ids)))))
          (List.filter (fun m => negb (bool_decide (mv_id m ∈ ids))) l) }}.
(** Pushed, and all by time again if it is earlier than the last. *)
Definition put_in_time {V} (at_ : V -> Z) (x : V) (l : list V) : list V :=
  match last l with
  | Some y => if at_ x <? at_ y then isort (fun a b => at_ a <=? at_ b) (l ++ [x]) else l ++ [x]
  | None => l ++ [x]
  end.

(** ** Over the app *)
Section Window.
Context {A : Type} {CO : Core A}.
Definition WinM (X : Type) : Type := State * A -> (State * A) * X.
Definition w_ret {X} (x : X) : WinM X := fun c => (c, x).
Definition w_bind {X X'} (m : WinM X) (k : X -> WinM X') : WinM X' := fun c => let '(c, x) := m c in k x c.
Notation "'let~' x ':=' e 'in' k" := (w_bind e (fun x => k)) (at level 200, x pattern, e at level 200, k at level 200, right associativity).
Definition cache : WinM State := fun '(s, a) => ((s, a), s).
Definition set_cache (f : State -> State) : WinM unit := fun '(s, a) => ((f s, a), tt).
Definition call_app {X} (f : A -> A * result string X) : WinM (result string X) := fun '(s, a) => let '(a, r) := f a in ((s, a), r).
(** [unwrap_or_default]. *)
Definition ask_app {X} (f : A -> A * result string X) (default : X) : WinM X :=
  let~ r := call_app f in w_ret (match r with Ok x => x | Err _ => default end).
Definition error_of {X} (r : result string X) : option string := match r with Ok _ => None | Err why => Some why end.

(** *** Loading *)
Definition learn_names (people : list string) (force : bool) : WinM unit :=
  let~ s := cache in
  match List.filter (fun p => force || negb (opt_bool (w_names s !! p))) people with
  | [] => w_ret tt
  | wanted =>
      let~ got := call_app (core_names wanted) in
      match got with Ok m => set_cache (fun s => s{{ w_names ::= fun l => m ∪ l }}) | Err _ => w_ret tt end
  end.
Definition load_messages : WinM unit :=
  let~ s := cache in
  match w_group s, w_channel s with
  | Some g, Some c =>
      let~ l := ask_app (core_messages g c) [] in
      let~ _ := set_cache (fun s => s{{ w_messages := l }}) in
      learn_names (set_entries String.leb (list_to_set (flat_map (fun m => mv_author m :: map rv_author (mv_reactions m)) l))) false
  | _, _ => set_cache (fun s => s{{ w_messages := [] }})
  end.
Definition load_members : WinM unit :=
  let~ s := cache in
  match w_group s with
  | Some g =>
      if is_some_and (open_group s) gv_ready then
        let~ l := ask_app (core_members g) [] in
        set_cache (fun s => s{{ w_members := l; w_names ::= fun names =>
          foldl (fun names m => match mb_name m with Some n => <[mb_npub m := n]> names | None => names end) names l }})
      else set_cache (fun s => s{{ w_members := [] }})
  | None => set_cache (fun s => s{{ w_members := [] }})
  end.
Definition load_group : WinM unit := let~ _ := load_messages in load_members.
Definition load_bans : WinM unit :=
  let~ s := cache in
  match w_group s with
  | Some g =>
      if is_some_and (open_group s) gv_can_ban then
        let~ l := ask_app (core_bans g) [] in set_cache (fun s => s{{ w_bans := l }})
      else set_cache (fun s => s{{ w_bans := [] }})
  | None => set_cache (fun s => s{{ w_bans := [] }})
  end.
(** The first ready group, else the first. *)
Definition fallback (l : list GroupView) : option GroupView :=
  match List.find gv_ready l with Some g => Some g | None => head l end.
Definition refresh_groups : WinM unit :=
  let~ l := ask_app core_groups [] in
  set_cache (fun s =>
    let s := s{{ w_groups := l }} in
    if opt_bool (open_group s) then s
    else s{{ w_group := option_map gv_id (fallback l); w_channel := first_text (fallback l) }}).
Definition mark_open_read : WinM unit :=
  let~ s := cache in
  match w_group s, w_channel s with
  | Some g, Some c =>
      if w_dms_open s || w_unfocused s then w_ret tt
      else
        let~ _ := set_cache (fun s => s{{ w_unread ::= delete (unread_key g c) }}) in
        match last (w_messages s) with
        | Some m => let~ _ := call_app (core_mark_read g c (mv_at m)) in w_ret tt
        | None => w_ret tt
        end
  | _, _ => w_ret tt
  end.

(** *** Direct messages (dms.rs) *)
Definition mark_dm_read : WinM unit :=
  let~ s := cache in
  match w_dm_with s with
  | Some w =>
      if w_dms_open s && negb (w_unfocused s) then
        let~ _ := set_cache (fun s => s{{ w_dm_unread ::= delete w }}) in
        match last (List.filter (fun d => bool_decide (dw_with d = w)) (w_dms s)) with
        | Some d => let~ _ := call_app (core_mark_read "dm" w (dw_at d)) in w_ret tt
        | None => w_ret tt
        end
      else w_ret tt
  | None => w_ret tt
  end.
Definition load_dms : WinM unit :=
  let~ l := ask_app core_dms [] in
  let~ _ := set_cache (fun s => s{{ w_dms := l }}) in
  let~ u := ask_app core_dm_unread ∅ in
  let~ _ := set_cache (fun s => s{{ w_dm_unread := u }}) in
  learn_names (map dw_with l) false.
Definition dm_arrived (d : DmView) : WinM unit :=
  let~ s := cache in
  if existsb (fun x => bool_decide (dw_id x = dw_id d)) (w_dms s) then w_ret tt
  else
    let~ _ := learn_names [dw_with d] false in
    let~ _ := set_cache (fun s => s{{ w_dms ::= put_in_time dw_at d }}) in
    let~ s := cache in
    if dw_mine d then w_ret tt
    else if w_dms_open s && negb (w_unfocused s) && bool_decide (w_dm_with s = Some (dw_with d)) then mark_dm_read
    else set_cache (fun s => s{{ w_dm_unread ::= bump (dw_with d) }}).

(** *** Zaps and calls *)
Definition zap_totals (ids : option (list string)) : WinM unit :=
  let~ s := cache in
  match opt_get (map mv_id (w_messages s)) ids with
  | [] => w_ret tt
  | want =>
      let~ r := call_app (core_zap_totals want) in
      match r with
      | Err _ => w_ret tt
      | Ok totals =>
          set_cache (fun s => s{{ w_messages ::= map (fun m =>
            if bool_decide (mv_id m ∈ want) then
              let '(sats, count) := opt_get (0, 0) (option_map snd (List.find (fun x => bool_decide (x.1 = mv_id m)) totals)) in
              with_zaps sats count m
            else m) }})
      end
  end.
(** The call ended: the composer takes the keyboard back. *)
Definition voice_changed (v : VoiceView) : WinM bool :=
  let~ s := cache in
  let ended := is_some_and (w_voice s) (fun o => opt_bool (vv_call o)) && negb (opt_bool (vv_call v)) in
  let~ _ := set_cache (fun s => s{{ w_talking ::= andb (opt_bool (vv_call v)); w_voice := Some v }}) in
  let people := flat_map (fun r => flat_map snd r.2) (vv_rooms v) ++ option_list (vv_incoming v)
                ++ option_list (let! c := vv_call v in cs_with c) in
  let~ _ := learn_names people false in
  w_ret ended.

(** *** Drawing's own doing *)
Definition loading : string := "loading" +:+ ellipsis.
(** The pictures that start loading now. *)
Fixpoint start_loading (l : list (string * bool * Z)) (p : Pictures) : Pictures * list (string * bool) :=
  match l with
  | [] => (p, [])
  | (key, dm, size) :: t =>
      if wants key size p then
        let '(p, more) := start_loading t (set_note key loading p) in (p, (key, dm) :: more)
      else start_loading t p
  end.
Definition fetch_pictures : WinM (list (string * bool)) :=
  fun '(s, a) => let '(p, l) := start_loading (on_screen s) (w_pics s) in ((s{{ w_pics := p }}, a), l).
Definition render (now : Timestamp) : WinM (list (string * bool)) :=
  let~ l := fetch_pictures in
  let~ _ := set_cache (fun s =>
    if w_ticking s || negb (opt_bool (newcomer_left now (open_group s))) then s else s{{ w_ticking := true }}) in
  w_ret l.
Definition rendered (now : Timestamp) {X} (x : X) : WinM X := let~ _ := render now in w_ret x.
(** A second later, while a newcomer waits. *)
Definition tick_waiting (now : Timestamp) : WinM bool :=
  let~ s := cache in
  let waiting := opt_bool (newcomer_left now (open_group s)) in
  let~ _ := (if waiting then w_ret tt else set_cache (fun s => s{{ w_ticking := false }})) in
  rendered now waiting.
(** A picture came, decoded, or why not. *)
Definition picture_came (now : Timestamp) (key : string) (px : result string Pixels) : WinM unit :=
  let~ _ := set_cache (fun s => s{{ w_pics ::= fun p =>
    match px with
    | Ok px => insert_picture key px (list_to_set (map (fun x => x.1.1) (on_screen s))) p
    | Err why => set_note key why p
    end }}) in
  rendered now tt.

(** *** A message comes *)
Definition arrived (m : MessageView) : WinM unit :=
  let~ s := cache in
  let shown := bool_decide (Some (mv_group m) = w_group s) && bool_decide (Some (mv_channel m) = w_channel s) in
  let~ _ := (if opt_bool (w_names s !! mv_author m) then w_ret tt else learn_names [mv_author m] false) in
  if shown then
    if existsb (fun x => bool_decide (mv_id x = mv_id m)) (w_messages s) then w_ret tt
    else
      let~ _ := (if (w_dms_open s || w_unfocused s) && negb (mv_mine m)
                 then set_cache (fun s => s{{ w_unread ::= bump (unread_key (mv_group m) (mv_channel m)) }}) else w_ret tt) in
      let~ _ := set_cache (fun s => s{{ w_messages ::= put_in_time mv_at m }}) in
      mark_open_read
  else if mv_mine m then w_ret tt
  else set_cache (fun s => s{{ w_unread ::= bump (unread_key (mv_group m) (mv_channel m)) }}).

(** ** The buttons (chat.rs) *)
Definition refresh (now : Timestamp) : WinM unit :=
  let~ st := call_app core_status in
  let~ _ := (match st with
             | Ok st => set_cache (fun s =>
                 let s := s{{ w_me := opt_get "" (su_npub st); w_max_chars := su_max_message_chars st }} in
                 match su_name st with Some n => s{{ w_names ::= <[w_me s := n]> }} | None => s end)
             | Err _ => w_ret tt
             end) in
  let~ _ := refresh_groups in
  let~ _ := load_group in
  let~ p := ask_app core_present ∅ in
  let~ _ := set_cache (fun s => s{{ w_present := p }}) in
  let~ u := ask_app core_unread [] in
  let~ _ := set_cache (fun s => s{{ w_unread := foldl (fun m x => <[unread_key (ur_group x) (ur_channel x) := ur_count x]> m) ∅ u }}) in
  let~ _ := load_dms in
  let~ v := call_app core_voice_view in
  let~ _ := set_cache (fun s => s{{ w_voice := match v with Ok v => Some v | Err _ => None end }}) in
  let~ _ := mark_open_read in
  rendered now tt.
Definition select_group (now : Timestamp) (id : string) : WinM unit :=
  let~ s := cache in
  if bool_decide (w_group s = Some id) then
    if w_dms_open s then
      let~ _ := set_cache (fun s => s{{ w_dms_open := false }}) in
      let~ _ := mark_open_read in rendered now tt
    else w_ret tt
  else
    let~ _ := set_cache (fun s =>
      s{{ w_dms_open := false; w_channel := first_text (group_named s (Some id)); w_group := Some id; w_message_error := None }}) in
    let~ _ := load_group in
    let~ _ := mark_open_read in
    rendered now tt.
Definition select_channel (now : Timestamp) (id : string) : WinM unit :=
  let~ s := cache in
  if bool_decide (w_channel s = Some id) then w_ret tt
  else
    let~ _ := set_cache (fun s => s{{ w_channel := Some id; w_message_error := None }}) in
    let~ _ := load_messages in
    let~ _ := mark_open_read in
    rendered now tt.
Definition send_text (now : Timestamp) (text : string) : WinM bool :=
  let~ s := cache in
  match w_group s, w_channel s with
  | Some g, Some c =>
      let~ _ := set_cache (fun s => s{{ w_send_error := None }}) in
      let~ r := call_app (core_send g c text (w_pending s)) in
      match r with
      | Ok m =>
          let~ _ := set_cache (fun s => s{{ w_pending := [] }}) in
          let~ _ := arrived m in rendered now true
      | Err why => let~ _ := set_cache (fun s => s{{ w_send_error := Some why }}) in rendered now false
      end
  | _, _ => w_ret false
  end.
Definition opened_group (now : Timestamp) (id : string) : WinM unit :=
  let~ _ := refresh_groups in
  let~ _ := set_cache (fun s => s{{ w_channel := first_text (group_named s (Some id)); w_group := Some id }}) in
  let~ _ := load_group in
  rendered now tt.
(** A call whose answer is a group to open, or the reason for none. *)
Definition then_open (now : Timestamp) (f : A -> A * result string string) : WinM (result string unit) :=
  let~ r := call_app f in
  match r with Ok id => let~ _ := opened_group now id in w_ret (Ok tt) | Err why => w_ret (Err why) end.
Definition create_group (now : Timestamp) (name : string) (public : bool) : WinM (result string unit) :=
  then_open now (core_create_group name public).
Definition join (now : Timestamp) (link : string) : WinM (result string unit) := then_open now (core_join link).
Definition join_open (now : Timestamp) : WinM unit :=
  let~ s := cache in
  match w_group s with
  | None => w_ret tt
  | Some g =>
      let~ r := call_app (core_join_reading g) in
      let~ _ := set_cache (fun s => s{{ w_send_error := error_of r }}) in
      let~ _ := refresh_groups in
      rendered now tt
  end.
Definition invite_open (hours : option Z) : WinM (result string string) :=
  let~ s := cache in
  match w_group s with
  | None => w_ret (Err "no group is open")
  | Some g =>
      if existsb (fun x => bool_decide (gv_id x = g) && gv_public x) (w_groups s) then call_app (core_public_link g)
      else call_app (core_invite g hours)
  end.
Definition react_to (now : Timestamp) (id emoji : string) : WinM unit :=
  let~ s := cache in
  match List.find (fun m => bool_decide (mv_id m = id)) (w_messages s) with
  | None => w_ret tt
  | Some m =>
      let~ why := (match List.find (fun r => rv_mine r && bool_decide (rv_emoji r = emoji)) (mv_reactions m) with
                   | Some r =>
                       let~ o := call_app (core_withdraw (mv_group m) (mv_channel m) (rv_id r)) in
                       let~ _ := set_cache (fun s => match o with Ok _ => gone [rv_id r] s | Err _ => s end) in
                       w_ret (error_of o)
                   | None =>
                       let~ o := call_app (core_react (mv_group m) (mv_channel m) (mv_id m) emoji) in
                       let~ _ := set_cache (fun s => match o with Ok r => reacted r s | Err _ => s end) in
                       w_ret (error_of o)
                   end) in
      let~ _ := set_cache (fun s => s{{ w_message_error := why }}) in
      rendered now tt
  end.
Definition take_back (now : Timestamp) (id : string) (remove : bool) : WinM unit :=
  let~ s := cache in
  match List.find (fun m => bool_decide (mv_id m = id)) (w_messages s) with
  | None => w_ret tt
  | Some m =>
      let~ o := call_app (if remove then core_remove_message (mv_group m) (mv_channel m) (mv_id m)
                          else core_withdraw (mv_group m) (mv_channel m) (mv_id m)) in
      let~ _ := set_cache (fun s => match o with
                                    | Ok _ => (gone [id] s){{ w_message_error := None }}
                                    | Err why => s{{ w_message_error := Some why }}
                                    end) in
      rendered now tt
  end.
Definition open_settings (now : Timestamp) : WinM unit :=
  let~ _ := set_cache (fun s => s{{ w_person := None }}) in
  let~ _ := load_bans in rendered now tt.
(** Each role, whether it may be handed out, and whether it is held. *)
Definition open_member (now : Timestamp) (npub : string) : WinM (list (RoleView * bool)) :=
  let~ s := cache in
  let held := opt_get [] (option_map mb_role_ids (List.find (fun m => bool_decide (mb_npub m = npub)) (w_members s))) in
  let~ _ := set_cache (fun s => s{{ w_person := Some npub }}) in
  let~ _ := render now in
  match w_group s with
  | None => w_ret []
  | Some g => let~ l := ask_app (core_roles g) [] in w_ret (map (fun r => (r, bool_decide (ro_id r ∈ held))) l)
  end.
(** [step]: what is done to the open group, and the member whose dialog is open. *)
Definition moderate (now : Timestamp) (step : string -> option string -> A -> A * result string unit) : WinM (result string unit) :=
  let~ s := cache in
  match w_group s with
  | None => w_ret (Err "no group is open")
  | Some g =>
      let~ outcome := call_app (step g (w_person s)) in
      let~ _ := refresh_groups in
      let~ _ := load_members in
      let~ _ := load_bans in
      let~ s := cache in
      let~ _ := (if is_some_and (open_group s) (fun g => existsb (fun c => bool_decide (Some (cv_id c) = w_channel s)) (gv_channels g))
                 then w_ret tt
                 else let~ _ := set_cache (fun s => s{{ w_channel := first_text (open_group s) }}) in load_messages) in
      rendered now outcome
  end.
Definition window_focused (now : Timestamp) (on : bool) : WinM unit :=
  let~ _ := set_cache (fun s => s{{ w_unfocused := negb on }}) in
  if on then let~ _ := mark_open_read in let~ _ := mark_dm_read in rendered now tt else w_ret tt.
(** Files taken from disk, or why not. *)
Definition attach (now : Timestamp) (files : list (result string FileView)) : WinM unit :=
  let~ _ := set_cache (fun s => foldl (fun s f =>
    match f with
    | Ok f => if existsb (fun x => bool_decide (fv_hash x = fv_hash f)) (w_pending s) then s else s{{ w_pending ::= fun l => l ++ [f] }}
    | Err why => s{{ w_send_error := Some why }}
    end) (s{{ w_send_error := None }}) files) in
  rendered now tt.
Definition unattach (now : Timestamp) (hash : string) : WinM unit :=
  let~ _ := set_cache (fun s => s{{ w_pending ::= List.filter (fun f => negb (bool_decide (fv_hash f = hash))) }}) in rendered now tt.
Definition show_file (now : Timestamp) (key : string) : WinM unit :=
  let~ _ := set_cache (fun s => s{{ w_pics ::= ask key }}) in rendered now tt.
Definition save_noted (now : Timestamp) (key to : string) (saved : result string unit) : WinM unit :=
  let note := match saved with Ok _ => "saved to " +:+ to | Err why => "not saved: " +:+ why end in
  let~ _ := set_cache (fun s => s{{ w_pics ::= set_note key note }}) in rendered now tt.

(** *** Direct messages *)
(** The last of the newest ([max_by_key]). *)
Definition newest_dm (l : list DmView) : option DmView :=
  foldl (fun best d => match best with Some b => if dw_at d <? dw_at b then best else Some d | None => Some d end) None l.
Definition show_dms (now : Timestamp) : WinM unit :=
  let~ _ := set_cache (fun s =>
    let s := s{{ w_dms_open := true }} in
    match w_dm_with s with Some _ => s | None => s{{ w_dm_with := option_map dw_with (newest_dm (w_dms s)) }} end) in
  let~ _ := mark_dm_read in rendered now tt.
Definition open_dm (now : Timestamp) (npub : string) : WinM unit :=
  let~ _ := set_cache (fun s => s{{ w_dms_open := true; w_dm_error := None }}) in
  let~ _ := learn_names [npub] false in
  let~ _ := set_cache (fun s => s{{ w_dm_with := Some npub }}) in
  let~ _ := mark_dm_read in rendered now tt.
Definition send_dm (now : Timestamp) (text : string) : WinM bool :=
  let~ s := cache in
  match w_dm_with s with
  | None => w_ret false
  | Some to =>
      let~ _ := set_cache (fun s => s{{ w_dm_error := None }}) in
      let~ r := call_app (core_send_dm to text) in
      match r with
      | Ok d => let~ _ := dm_arrived d in rendered now true
      | Err why => let~ _ := set_cache (fun s => s{{ w_dm_error := Some why }}) in rendered now false
      end
  end.
(** Files sent one after another, until one is not. *)
Fixpoint dms_sent (l : list (result string DmView)) : WinM unit :=
  match l with
  | [] => w_ret tt
  | Ok d :: t => let~ _ := dm_arrived d in dms_sent t
  | Err why :: _ => set_cache (fun s => s{{ w_dm_error := Some why }})
  end.
Definition send_dm_files (now : Timestamp) (sent : list (result string DmView)) : WinM unit :=
  let~ s := cache in
  match w_dm_with s with
  | None => w_ret tt
  | Some _ =>
      let~ _ := set_cache (fun s => s{{ w_dm_error := None }}) in
      let~ _ := dms_sent sent in rendered now tt
  end.
Definition add_contact (now : Timestamp) (link : string) : WinM (result string unit) :=
  let~ r := call_app (core_add_contact (trim link)) in
  match r with Ok who => let~ _ := open_dm now who in w_ret (Ok tt) | Err why => w_ret (Err why) end.

(** *** Calls *)
(** [step]: what the button asks of the app. *)
Definition voice_step (now later : Timestamp) (step : A -> A * result string unit) : WinM bool :=
  let~ _ := set_cache (fun s => s{{ w_call_busy := true; w_voice_error := None }}) in
  let~ _ := render now in
  let~ outcome := call_app step in
  let~ view := call_app core_voice_view in
  let~ _ := set_cache (fun s => s{{ w_call_busy := false; w_voice_error := error_of outcome }}) in
  let~ refocus := (match view with Ok v => voice_changed v | Err _ => w_ret false end) in
  rendered later refocus.
Inductive Toggle := TMute | TDeafen | TPushToTalk.
Definition toggle (now later : Timestamp) (what : Toggle) : WinM bool :=
  let~ s := cache in
  match (let! v := w_voice s in vv_call v) with
  | None => w_ret false
  | Some c =>
      voice_step now later
        (match what with
         | TMute => core_voice_set (Some (negb (cs_muted c))) None None
         | TDeafen => core_voice_set None (Some (negb (cs_deafened c))) None
         | TPushToTalk => core_voice_set None None (Some (negb (cs_ptt c)))
         end)
  end.
Definition hold (now : Timestamp) (down : bool) : WinM unit :=
  let~ s := cache in
  if Bool.eqb (w_talking s) down then w_ret tt
  else
    let~ _ := set_cache (fun s => s{{ w_talking := down }}) in
    let ptt := is_some_and (let! v := w_voice s in vv_call v) cs_ptt in
    let~ _ := (if ptt || negb down then let~ _ := call_app (core_voice_talk down) in w_ret tt else w_ret tt) in
    rendered now tt.

(** *** Zaps and the profile *)
Definition open_zap (id : string) : WinM (option string) :=
  let~ s := cache in
  match List.find (fun m => bool_decide (mv_id m = id)) (w_messages s) with
  | None => w_ret None
  | Some m =>
      let~ _ := set_cache (fun s => s{{ w_zap_target := Some (mv_group m, id) }}) in
      w_ret (Some (name_of s (mv_author m)))
  end.
Definition zap_target (s : State) : result string (string * string * string) :=
  match w_zap_target s with
  | None => Err "no message to zap"
  | Some (g, id) =>
      Ok (g, id, opt_get "" (option_map (fun m => name_of s (mv_author m)) (List.find (fun m => bool_decide (mv_id m = id)) (w_messages s))))
  end.
Definition set_my_name (now : Timestamp) (name : string) : WinM (result string string) :=
  let~ r := call_app (core_set_name name) in
  match r with
  | Err why => w_ret (Err why)
  | Ok _ =>
      let~ _ := set_cache (fun s => s{{ w_names ::= <[w_me s := trim name]> }}) in
      rendered now (Ok "Name saved. Members see it at their next sync.")
  end.

(** ** An event of the node

    The window is drawn attention to, or the composer takes the keyboard. *)
Inductive Told := Drawn | Refocused | Attention.
Definition group_told (g : string) : WinM unit :=
  let~ _ := refresh_groups in
  let~ s := cache in
  if bool_decide (w_group s = Some g) then
    let still := is_some_and (group_named s (Some g)) (fun x =>
      existsb (fun c => bool_decide (Some (cv_id c) = w_channel s) && bool_decide (cv_kind c = "text")) (gv_channels x)) in
    let~ _ := (if still then w_ret tt
               else let~ _ := set_cache (fun s => s{{ w_channel := first_text (group_named s (Some g)) }}) in load_messages) in
    load_members
  else w_ret tt.
Inductive WindowEvent :=
| FromNode (e : UiEvent) | PresentNow (who : gset string) | VoiceNow (v : VoiceView) | Ringing.
Definition on_event (now : Timestamp) (e : WindowEvent) : WinM Told :=
  match e with
  | FromNode UResync => let~ _ := refresh now in w_ret Drawn
  | Ringing => w_ret Attention
  | VoiceNow v => let~ ended := voice_changed v in rendered now (if ended then Refocused else Drawn)
  | PresentNow who => let~ _ := set_cache (fun s => s{{ w_present := who }}) in rendered now Drawn
  | FromNode e =>
      let~ _ := (match e with
                 | UMessage m => arrived m
                 | UGroup g => group_told g
                 | UProfile p => let~ _ := learn_names [p] true in zap_totals None
                 | UWithdrawn ids => set_cache (gone ids)
                 | UReaction r => set_cache (reacted r)
                 | UDm d => dm_arrived d
                 | UZap id => zap_totals (Some [id])
                 | UResync => w_ret tt
                 end) in
      rendered now Drawn
  end.
End Window.
