(* ===== verification/WindowSpec.v ===== *)
(** What the window keeps of what comes: a message is shown once and counted
    unread exactly when it was not seen; and its lists stay in order of time
    whatever the person does and whatever the node tells, over any app that
    answers in order ([CoreLaws]). *)
From coqutil Require Import Datatypes.RecordSetters.
From stdpp Require Import relations.
From S2P Require Import Prelude Text Nostr GroupEvent Node NodeOps Voice App Views Chat Publish Shown Core Window.
Import DoubleBraceUpdate.

#[local] Open Scope string_scope.
#[local] Open Scope Z_scope.
#[local] Open Scope list_scope.

(** ** Order *)
Section Order.
Context {V : Type} (at_ : V -> Z).
Definition in_time : list V -> Prop := StronglySorted (fun a b => at_ a <= at_ b).
Lemma in_time_isort l : in_time (isort (fun a b => at_ a <=? at_ b) l).
Proof.
  assert (H : StronglySorted (fun a b => Is_true (at_ a <=? at_ b)) (isort (fun a b => at_ a <=? at_ b) l)).
  { apply isort_sorted; [intros x y; destruct (Z.leb_spec (at_ x) (at_ y)); [by left|right; lia]|intros x y z; lia]. }
  unfold in_time. induction H as [|x t _ IH Hx]; constructor; [done|].
  eapply Forall_impl; [exact Hx|]. cbn. intros y Hy%Is_true_true. lia.
Qed.
Lemma in_time_last l y : in_time l -> last l = Some y -> Forall (fun x => at_ x <= at_ y) l.
Proof.
  induction 1 as [|x t _ IH Hx]; [constructor|]. destruct t as [|z t]; cbn [last].
  - intros [= ->]. by repeat constructor.
  - intros Hl. specialize (IH Hl). constructor; [|done]. apply last_Some_elem_of in Hl. rewrite Forall_forall in Hx. auto.
Qed.
Lemma in_time_put x l : in_time l -> in_time (put_in_time at_ x l).
Proof.
  intros Hl. unfold put_in_time. destruct (last l) as [y|] eqn:E.
  - destruct (Z.ltb_spec (at_ x) (at_ y)); [apply in_time_isort|]. pose proof (in_time_last l y Hl E) as Hy.
    clear E. unfold in_time in *. induction Hl as [|z t Ht IH Hz]; [by repeat constructor|].
    apply Forall_cons in Hy as [Hzy Hy]. cbn. constructor; [by apply IH|]. apply Forall_app. split; [done|]. constructor; [lia|done].
  - apply last_None in E as ->. by repeat constructor.
Qed.
Lemma put_perm x l : put_in_time at_ x l ≡ₚ x :: l.
Proof.
  assert (H : l ++ [x] ≡ₚ x :: l) by by rewrite Permutation_app_comm.
  unfold put_in_time. destruct (last l); [|done]. destruct (_ <? _); [|done]. by rewrite isort_perm.
Qed.
Lemma in_time_map (f : V -> V) l : (forall x, at_ (f x) = at_ x) -> in_time l -> in_time (map f l).
Proof.
  intros Hf. induction 1 as [|x t _ IH Hx]; constructor; [done|]. apply Forall_fmap.
  eapply Forall_impl; [exact Hx|]. cbn. intros y. by rewrite !Hf.
Qed.
Lemma in_time_filter p l : in_time l -> in_time (List.filter p l).
Proof.
  induction 1 as [|x t _ IH Hx]; cbn; [constructor|]. destruct (p x); [|done]. constructor; [done|].
  apply Forall_forall. intros y [Hy _]%filter_elem. rewrite Forall_forall in Hx. auto.
Qed.
End Order.
Lemma in_time_on_message id f l : (forall m, mv_at (f m) = mv_at m) -> in_time mv_at l -> in_time mv_at (on_message id f l).
Proof.
  intros Hf. assert (Hall : forall (p : Z -> Prop) l, Forall (fun m => p (mv_at m)) l -> Forall (fun m => p (mv_at m)) (on_message id f l)).
  { intros p. induction l0 as [|m t IH]; [done|]. intros [Hm Ht]%Forall_cons. cbn. case_bool_decide; constructor; rewrite ?Hf; auto. }
  induction 1 as [|m t Ht IH Hm]; cbn; [constructor|]. case_bool_decide; constructor; rewrite ?Hf; try done.
  by apply (Hall (fun z => mv_at m <= z)).
Qed.

(** ** A message comes *)
Section Arrived.
Context {A : Type} {CO : Core A}.
Lemma learn_names_run l force (s : State) (a : A) : exists names a',
  learn_names l force (s, a) = ((s{{ w_names := names }}, a'), tt).
Proof.
  unfold learn_names, w_bind, cache. cbn. destruct (List.filter _ l) as [|p t].
  - exists (w_names s), a. by destruct s.
  - unfold call_app. destruct (core_names _ a) as [a' [m|why]]; cbn; [by eexists _, a'|]. exists (w_names s), a'. by destruct s.
Qed.
(** A message that comes is shown once, in its place in time, if its channel
    is open; and counted unread exactly if it is someone else's and was not
    seen: its channel closed, or covered by the direct messages, or the window
    in the background.  One seen clears its channel's count. *)
Theorem arrived_counts m (s : State) (a : A) :
  let open := bool_decide (Some (mv_group m) = w_group s) && bool_decide (Some (mv_channel m) = w_channel s) in
  let known := open && existsb (fun x => bool_decide (mv_id x = mv_id m)) (w_messages s) in
  let seen := open && negb (w_dms_open s || w_unfocused s) in
  let key := unread_key (mv_group m) (mv_channel m) in
  let s' := (arrived m (s, a)).1.1 in
  w_messages s' = (if open && negb known then put_in_time mv_at m (w_messages s) else w_messages s) /\
  (open && negb known = true -> w_messages s' ≡ₚ m :: w_messages s) /\
  w_unread s' = (if known then w_unread s else if seen then delete key (w_unread s)
                 else if mv_mine m then w_unread s else bump key (w_unread s)) /\
  w_dms s' = w_dms s /\ w_dm_unread s' = w_dm_unread s.
Proof.
  intros open known seen key s'.
  assert (Hs : exists names a', (if opt_bool (w_names s !! mv_author m) then w_ret tt else learn_names [mv_author m] false) (s, a)
    = ((s{{ w_names := names }}, a'), tt)).
  { destruct (opt_bool _); [|apply learn_names_run]. exists (w_names s), a. unfold w_ret. by destruct s. }
  destruct Hs as (names & a' & Hs). subst s'. pose proof (put_perm mv_at m (w_messages s)) as Hperm.
  destruct (arrived m (s, a)) as [[s2 a2] u] eqn:E. cbn [fst]. revert E. unfold arrived. unfold w_bind at 1, cache at 1.
  cbv beta iota zeta. unfold w_bind at 1. rewrite Hs. fold open. subst known seen key. clear Hs. destruct open eqn:Eo; subst open; cbn [andb].
  - apply andb_true_iff in Eo as [Eg%bool_decide_eq_true Ec%bool_decide_eq_true]. destruct s; cbn in Eg, Ec, Hperm |- *. subst.
    destruct (existsb _ _); cbn [negb]; [by intros [= <- _ _]|]. unfold mark_open_read, set_cache, call_app, cache, w_bind, w_ret.
    destruct (_ || _) eqn:Ed; cbn [andb negb].
    + destruct (mv_mine m); cbn; rewrite Ed; by intros [= <- _ _].
    + cbn. rewrite Ed. destruct (last _) as [x|]; [|by intros [= <- _ _]]. intros E. cbn in E. by repeat case_match; simplify_eq.
  - destruct s, (mv_mine m); by intros [= <- _ _].
Qed.
End Arrived.
