(* ===== verification/Timeline.v ===== *)
(** The window's lists stay in order of time, whatever the person clicks and
    whatever the node tells: over any app that answers in order ([CoreLaws]),
    which [AppRight] shows the app to be. *)
From coqutil Require Import Datatypes.RecordSetters.
From stdpp Require Import relations.
From S2P Require Import Prelude Text Nostr GroupEvent Node NodeOps Voice App Views Chat Publish Shown Core Window WindowSpec.
Import DoubleBraceUpdate.

#[local] Open Scope string_scope.
#[local] Open Scope Z_scope.
#[local] Open Scope list_scope.

Definition keeps_right {A X} (right : A -> Prop) (f : A -> A * result string X) : Prop := forall a, right a -> right (f a).1.
(** What the window relies on: each call leaves the app right, and a right app
    answers with lists in order of time. *)
Class CoreLaws (A : Type) {CO : Core A} := {
  cl_right : A -> Prop;
  cl_status : keeps_right cl_right core_status;
  cl_groups : keeps_right cl_right core_groups;
  cl_members g : keeps_right cl_right (core_members g);
  cl_roles g : keeps_right cl_right (core_roles g);
  cl_bans g : keeps_right cl_right (core_bans g);
  cl_messages g c : keeps_right cl_right (core_messages g c);
  cl_names l : keeps_right cl_right (core_names l);
  cl_present : keeps_right cl_right core_present;
  cl_unread : keeps_right cl_right core_unread;
  cl_mark_read g c t : keeps_right cl_right (core_mark_read g c t);
  cl_send g c text files : keeps_right cl_right (core_send g c text files);
  cl_react g c m emoji : keeps_right cl_right (core_react g c m emoji);
  cl_withdraw g c i : keeps_right cl_right (core_withdraw g c i);
  cl_remove_message g c i : keeps_right cl_right (core_remove_message g c i);
  cl_create_group name public : keeps_right cl_right (core_create_group name public);
  cl_join link : keeps_right cl_right (core_join link);
  cl_join_reading g : keeps_right cl_right (core_join_reading g);
  cl_invite g hours : keeps_right cl_right (core_invite g hours);
  cl_public_link g : keeps_right cl_right (core_public_link g);
  cl_dms : keeps_right cl_right core_dms;
  cl_dm_unread : keeps_right cl_right core_dm_unread;
  cl_send_dm to text : keeps_right cl_right (core_send_dm to text);
  cl_add_contact link : keeps_right cl_right (core_add_contact link);
  cl_zap_totals l : keeps_right cl_right (core_zap_totals l);
  cl_set_name name : keeps_right cl_right (core_set_name name);
  cl_voice_view : keeps_right cl_right core_voice_view;
  cl_voice_set m d p : keeps_right cl_right (core_voice_set m d p);
  cl_voice_talk down : keeps_right cl_right (core_voice_talk down);
  cl_messages_in_time g c a l : cl_right a -> (core_messages g c a).2 = Ok l -> in_time mv_at l;
  cl_dms_in_time a l : cl_right a -> (core_dms a).2 = Ok l -> in_time dw_at l;
}.
Create HintDb core_laws.
#[export] Hint Resolve cl_status cl_groups cl_members cl_roles cl_bans cl_messages cl_names cl_present cl_unread cl_mark_read cl_send
  cl_react cl_withdraw cl_remove_message cl_create_group cl_join cl_join_reading cl_invite cl_public_link cl_dms cl_dm_unread
  cl_send_dm cl_add_contact cl_zap_totals cl_set_name cl_voice_view cl_voice_set cl_voice_talk : core_laws.

Section Timeline.
Context {A : Type} {CO : Core A} {CL : CoreLaws A}.
Definition ordered (s : State) : Prop := in_time mv_at (w_messages s) /\ in_time dw_at (w_dms s).
Definition kept {X} (m : WinM (A := A) X) : Prop :=
  forall c, cl_right c.2 -> ordered c.1 -> cl_right (m c).1.2 /\ ordered (m c).1.1.

(** ** Rules *)
Lemma kept_ret {X} (x : X) : kept (w_ret x).
Proof. by intros c. Qed.
Lemma kept_cache : kept cache.
Proof. by intros [s a]. Qed.
Lemma kept_bind {X X'} (m : WinM X) (k : X -> WinM X') : kept m -> (forall x, kept (k x)) -> kept (w_bind m k).
Proof. intros Hm Hk c Hr Ho. unfold w_bind. destruct (Hm c Hr Ho) as [Hr' Ho']. destruct (m c) as [c' x]. by apply Hk. Qed.
Lemma kept_set f : (forall s, ordered s -> ordered (f s)) -> kept (set_cache f).
Proof. intros Hf [s a] Hr Ho. split; [done|by apply Hf]. Qed.
Lemma kept_call {X} (f : A -> A * result string X) : keeps_right cl_right f -> kept (call_app f).
Proof. intros Hf [s a] Hr Ho. unfold call_app. specialize (Hf a Hr). by destruct (f a). Qed.
Lemma kept_ask {X} (f : A -> A * result string X) d : keeps_right cl_right f -> kept (ask_app f d).
Proof. intros Hf. apply kept_bind; [by apply kept_call|intros; apply kept_ret]. Qed.
(** An answer in order may be kept. *)
Lemma kept_answer {X X'} (f : A -> A * result string X) d (Q : X -> Prop) (k : X -> WinM X') : keeps_right cl_right f -> Q d ->
  (forall a x, cl_right a -> (f a).2 = Ok x -> Q x) -> (forall x, Q x -> kept (k x)) -> kept (w_bind (ask_app f d) k).
Proof.
  intros Hf Hd Hq Hk [s a] Hr Ho. unfold ask_app, call_app, w_bind, w_ret. pose proof (Hf a Hr) as Hf'.
  pose proof (fun x => Hq a x Hr) as Hx. destruct (f a) as [a' [x|why]]; apply Hk; cbn in *; auto.
Qed.
Ltac keep :=
  repeat first
    [ solve [auto with core_laws] | apply kept_ret | apply kept_cache | apply kept_bind; [|intros ?]
    | apply kept_ask; [by auto with core_laws] | apply kept_call; [by auto with core_laws]
    | apply kept_set; by intros ? ? | case_match | progress cbv zeta ].

Lemma ordered_unchanged (s s' : State) : w_messages s' = w_messages s -> w_dms s' = w_dms s -> ordered s -> ordered s'.
Proof. unfold ordered. by intros -> ->. Qed.

(** ** Loading *)
Lemma kept_learn l force : kept (learn_names l force).
Proof. unfold learn_names. keep. Qed.
Hint Resolve kept_learn : core.
Lemma kept_load_messages : kept load_messages.
Proof.
  unfold load_messages. apply kept_bind; [apply kept_cache|]. intros s.
  destruct (w_group s); [destruct (w_channel s)|]; [|apply kept_set; intros s' [_ ?]; split; [constructor|done]..].
  apply (kept_answer _ _ (in_time mv_at)); [auto with core_laws|constructor|apply cl_messages_in_time|]. intros l Hl.
  apply kept_bind; [apply kept_set; intros s' [_ ?]; by split|]. intros []. auto.
Qed.
Hint Resolve kept_load_messages : core.
Lemma kept_load_members : kept load_members.
Proof. unfold load_members. keep. Qed.
Lemma kept_load_bans : kept load_bans.
Proof. unfold load_bans. keep. Qed.
Lemma kept_refresh_groups : kept refresh_groups.
Proof. unfold refresh_groups. keep. apply kept_set. intros s Hs. by case_match. Qed.
Lemma kept_mark_open_read : kept mark_open_read.
Proof. unfold mark_open_read. keep. Qed.
Lemma kept_mark_dm_read : kept mark_dm_read.
Proof. unfold mark_dm_read. keep. Qed.
Hint Resolve kept_load_members kept_load_bans kept_refresh_groups kept_mark_open_read kept_mark_dm_read : core.
Lemma kept_load_group : kept load_group.
Proof. unfold load_group. keep. Qed.
Lemma kept_load_dms : kept load_dms.
Proof.
  unfold load_dms. apply (kept_answer _ _ (in_time dw_at)); [auto with core_laws|constructor|apply cl_dms_in_time|]. intros l Hl.
  apply kept_bind; [apply kept_set; intros s' [? _]; by split|]. intros []. keep.
Qed.
Lemma kept_put_dm d : kept (set_cache (fun s => s{{ w_dms ::= put_in_time dw_at d }})).
Proof. apply kept_set. intros s [? ?]. split; [done|by apply in_time_put]. Qed.
Lemma kept_put_message m : kept (set_cache (fun s => s{{ w_messages ::= put_in_time mv_at m }})).
Proof. apply kept_set. intros s [? ?]. split; [by apply in_time_put|done]. Qed.
Hint Resolve kept_load_group kept_load_dms kept_put_dm kept_put_message : core.
Lemma kept_dm_arrived d : kept (dm_arrived d).
Proof. unfold dm_arrived. keep. Qed.
Lemma kept_arrived m : kept (arrived m).
Proof. unfold arrived. keep. Qed.
Lemma kept_zap_totals ids : kept (zap_totals ids).
Proof.
  unfold zap_totals. keep. apply kept_set. intros s' [Hm Hd]. split; [|done]. apply in_time_map; [|done].
  intros m. by repeat case_match.
Qed.
Lemma ordered_gone ids s : ordered s -> ordered (gone ids s).
Proof. intros [Hm Hd]. split; [|done]. apply in_time_map; [done|]. by apply in_time_filter. Qed.
Lemma ordered_reacted r s : ordered s -> ordered (reacted r s).
Proof. intros [Hm Hd]. split; [|done]. by apply in_time_on_message. Qed.
Lemma kept_voice_changed v : kept (voice_changed v).
Proof. unfold voice_changed. keep. Qed.
Hint Resolve kept_dm_arrived kept_arrived kept_zap_totals ordered_gone ordered_reacted kept_voice_changed : core.

(** ** Drawing, and the buttons *)
Lemma kept_render now : kept (render now).
Proof.
  unfold render. apply kept_bind.
  - intros [s a] Hr Ho. unfold fetch_pictures. by destruct (start_loading _ _).
  - intros l. apply kept_bind; [|intros; apply kept_ret]. apply kept_set. intros s Hs. by case_match.
Qed.
Lemma kept_rendered now {X} (x : X) : kept (rendered now x).
Proof. unfold rendered. apply kept_bind; [apply kept_render|intros; apply kept_ret]. Qed.
Hint Resolve kept_render kept_rendered : core.
Lemma kept_refresh now : kept (refresh now).
Proof. unfold refresh. keep. all: apply kept_set; intros s Hs; by repeat case_match. Qed.
Lemma kept_opened now id : kept (opened_group now id).
Proof. unfold opened_group. keep. Qed.
Hint Resolve kept_refresh kept_opened : core.
Lemma kept_then_open now f : keeps_right cl_right f -> kept (then_open now f).
Proof. intros Hf. unfold then_open. apply kept_bind; [by apply kept_call|]. intros r. keep. Qed.
Lemma kept_react now id emoji : kept (react_to now id emoji).
Proof. unfold react_to. keep. all: apply kept_set; auto. Qed.
Lemma kept_take_back now id remove : kept (take_back now id remove).
Proof.
  unfold take_back. keep. all: apply kept_set; intros s Hs.
  all: by apply (ordered_unchanged (gone [id] s)); [..|by apply ordered_gone].
Qed.
Lemma kept_attach now files : kept (attach now files).
Proof.
  unfold attach. keep. apply kept_set. intros s Hs. assert (H0 : ordered (s{{ w_send_error := None }})) by done. revert H0.
  generalize (s{{ w_send_error := None }}). induction files as [|f t IH]; [done|]. intros s0 H0. cbn. apply IH. by repeat case_match.
Qed.
Lemma kept_dms_sent l : kept (dms_sent l).
Proof. induction l as [|[d|why] t IH]; cbn; keep. Qed.
Hint Resolve kept_then_open kept_react kept_take_back kept_attach kept_dms_sent : core.
Lemma kept_open_dm now npub : kept (open_dm now npub).
Proof. unfold open_dm. keep. Qed.
Hint Resolve kept_open_dm : core.
Lemma kept_voice_step now later f : keeps_right cl_right f -> kept (voice_step now later f).
Proof. intros Hf. unfold voice_step. keep. Qed.
Lemma kept_moderate now f : (forall g who, keeps_right cl_right (f g who)) -> kept (moderate now f).
Proof. intros Hf. unfold moderate. keep. Qed.
Lemma kept_group_told g : kept (group_told g).
Proof. unfold group_told. keep. Qed.
Hint Resolve kept_voice_step kept_moderate kept_group_told : core.
Lemma kept_on_event now e : kept (on_event now e).
Proof. unfold on_event. destruct e as [[]| | |]; keep. all: apply kept_set; auto. Qed.

(** What happens to a window: each click, each event, and the app's own doing. *)
Inductive happens : State * A -> State * A -> Prop :=
| h_event now e c : happens c (on_event now e c).1
| h_refresh now c : happens c (refresh now c).1
| h_group now id c : happens c (select_group now id c).1
| h_channel now id c : happens c (select_channel now id c).1
| h_send now text c : happens c (send_text now text c).1
| h_create now name public c : happens c (create_group now name public c).1
| h_join now link c : happens c (join now link c).1
| h_join_open now c : happens c (join_open now c).1
| h_invite hours c : happens c (invite_open hours c).1
| h_react now id emoji c : happens c (react_to now id emoji c).1
| h_take_back now id remove c : happens c (take_back now id remove c).1
| h_settings now c : happens c (open_settings now c).1
| h_member now npub c : happens c (open_member now npub c).1
| h_moderate now f c : (forall g who, keeps_right cl_right (f g who)) -> happens c (moderate now f c).1
| h_focus now on c : happens c (window_focused now on c).1
| h_attach now files c : happens c (attach now files c).1
| h_unattach now hash c : happens c (unattach now hash c).1
| h_show now key c : happens c (show_file now key c).1
| h_saved now key to r c : happens c (save_noted now key to r c).1
| h_dms now c : happens c (show_dms now c).1
| h_dm now npub c : happens c (open_dm now npub c).1
| h_send_dm now text c : happens c (send_dm now text c).1
| h_dm_files now sent c : happens c (send_dm_files now sent c).1
| h_contact now link c : happens c (add_contact now link c).1
| h_call now later f c : keeps_right cl_right f -> happens c (voice_step now later f c).1
| h_toggle now later what c : happens c (toggle now later what c).1
| h_hold now down c : happens c (hold now down c).1
| h_zap id c : happens c (open_zap id c).1
| h_name now name c : happens c (set_my_name now name c).1
| h_tick now c : happens c (tick_waiting now c).1
| h_picture now key px c : happens c (picture_came now key px c).1
| h_app s a a' : (cl_right a -> cl_right a') -> happens (s, a) (s, a').
Lemma happens_kept c c' : happens c c' -> cl_right c.2 -> ordered c.1 -> cl_right c'.2 /\ ordered c'.1.
Proof.
  intros H Hr Ho. destruct H; [apply kept_on_event|apply kept_refresh|..]; try done;
    match goal with |- cl_right (?m ?c).1.2 /\ _ => enough (K : kept m) by exact (K c Hr Ho) | _ => by auto end;
    first [solve [auto with core_laws] | idtac];
    unfold select_group, select_channel, send_text, create_group, join, join_open, invite_open, open_settings, open_member, window_focused,
      unattach, show_file, save_noted, show_dms, send_dm, send_dm_files, add_contact, toggle, hold, open_zap, set_my_name, tick_waiting,
      picture_came; keep.
  all: auto with core_laws.
  all: apply kept_set; intros s' Hs; by repeat case_match.
Qed.
(** Messages and direct messages are listed in order of time, whatever the
    person clicks, the node tells and the app does meanwhile, in any order. *)
Theorem lists_in_time (s : State) (a : A) c : cl_right a -> ordered s -> rtc happens (s, a) c ->
  cl_right c.2 /\ in_time mv_at (w_messages c.1) /\ in_time dw_at (w_dms c.1).
Proof.
  intros Hr Ho H. remember (s, a) as c0 eqn:E. assert (Hr0 : cl_right c0.2) by by subst. assert (Ho0 : ordered c0.1) by by subst.
  clear E Hr Ho. induction H as [|c0 c1 c Hstep _ IH]; [done|]. destruct (happens_kept _ _ Hstep Hr0 Ho0). auto.
Qed.
End Timeline.
