(* ===== verification/Render.v ===== *)
(** What the window draws of its cache: [Chat::render] with its rows
    ([crates/hit-desktop/src/chat.rs]), the conversations and the thread of
    [dm_render] ([chat/dms.rs]) and the call of [voice_render] ([chat/voice.rs]).

    Rows are what Slint is handed.  How a moment is written ([time]) is chrono's,
    by the local clock: a parameter. *)
From Stdlib Require Import SpecFloat.
From S2P Require Import Prelude Text Nostr GroupEvent Node NodeOps Audio Voice Wallet App Views Chat Publish Shown Core Window.

#[local] Open Scope string_scope.
#[local] Open Scope Z_scope.
#[local] Open Scope list_scope.

Definition CONTINUES_SECS : Z := 300.
Record Chip := mkChip { cp_emoji : string; cp_count : nat; cp_mine : bool; cp_who : list string }.
Record FileLine := mkFileLine {
  fl_key : string; fl_dm : bool; fl_name : string; fl_size : string; fl_image : bool; fl_note : string; fl_pixels : option Pixels }.
Record Line := mkLine {
  ln_id : string; ln_name : string; ln_time : string; ln_text : string; ln_mine : bool; ln_head : bool; ln_can_remove : bool;
  ln_chips : list Chip; ln_files : list FileLine; ln_zap_sats : string; ln_zap_note : string }.
Record VoicePerson := mkVoicePerson { vp_name : string; vp_speaking : bool }.
Record ChannelLine := mkChannelLine {
  cl_id : string; cl_name : string; cl_voice : bool; cl_private : bool; cl_slowmode : Z; cl_unread : Z; cl_active : bool;
  cl_here : bool; cl_people : list VoicePerson }.
Record GroupUi := mkGroupUi { gu_id : string; gu_name : string; gu_initials : string; gu_unread : Z; gu_active : bool }.
Record MemberUi := mkMemberUi { mu_npub : string; mu_name : string; mu_here : bool; mu_me : bool; mu_detail : string }.
Record ViewUi := mkViewUi {
  vu_group_name : string; vu_channel_name : string; vu_reach : string; vu_reach_ok : bool; vu_members : Z; vu_can_invite : bool;
  vu_refusal : string; vu_placeholder : string; vu_banner : string; vu_joining : bool; vu_reading : bool; vu_send_error : string;
  vu_slowmode : Z; vu_max_chars : Z; vu_my_name : string; vu_has_groups : bool }.
Record SettingsUi := mkSettingsUi {
  su_gname : string; su_public : bool; su_newcomer_wait_set : Z; su_newcomer_wait : Z; su_about : string; su_me_owner : bool;
  su_can_rename : bool; su_can_manage : bool; su_can_ban : bool; su_can_compact : bool; su_seq : Z; su_has_any : bool }.
Record PersonUi := mkPersonUi {
  pu_npub : string; pu_name : string; pu_rank : string; pu_muted_for : Z; pu_me : bool; pu_can_kick : bool; pu_can_ban : bool;
  pu_can_mute : bool; pu_can_set_roles : bool }.
Record ConvUi := mkConvUi { co_with : string; co_name : string; co_last : string; co_unread : Z; co_active : bool }.
Record DmLine := mkDmLine { dl_id : string; dl_mine : bool; dl_text : string; dl_time : string; dl_file : option FileLine }.
Record DmRender := mkDmRender {
  dr_open : bool; dr_unread : Z; dr_convs : list ConvUi; dr_thread : list DmLine; dr_placeholder : string; dr_error : string;
  dr_max_chars : Z; dr_with : string; dr_with_name : string; dr_with_key : string }.
(** The devices' drops and underruns so far. *)
Record Stats := mkStats { st_mic_dropped : Z; st_mic_short : Z; st_speaker_dropped : Z; st_speaker_underruns : Z }.
Record CallUi := mkCallUi {
  ca_dm : bool; ca_title : string; ca_sub : string; ca_connected : bool; ca_muted : bool; ca_deafened : bool; ca_ptt : bool;
  ca_can_speak : bool; ca_talking : bool; ca_glitches : Z; ca_with : string }.

Definition to_i32 (n : Z) : Z := Z.min n 2147483647.
Definition plural (n : Z) : string := if n =? 1 then "" else "s".

(** [{:.k}] of a float, in units of its last decimal: ties to even. *)
Definition half_even (num den : Z) : Z :=
  let q := num / den in
  match 2 * (num mod den) ?= den with Lt => q | Gt => q + 1 | Eq => if Z.even q then q else q + 1 end.
Definition scaled (k : Z) (f : spec_float) : Z :=
  match f with
  | S754_finite false m e => if 0 <=? e then Zpos m * 10 ^ k * 2 ^ e else half_even (Zpos m * 10 ^ k) (2 ^ (- e))
  | _ => 0
  end.
(** "1.2 MB". *)
Definition human_bytes (n : Z) : string :=
  let over (unit : Z) := div64 (of_Z64 n) (of_Z64 unit) in
  let tenths (v : Z) := show_u (v / 10) +:+ "." +:+ show_u (v mod 10) in
  if n <? 1000 then show_u n +:+ " B"
  else if n <? 1000000 then show_u (scaled 0 (over 1000)) +:+ " kB"
  else if n <? 1000000000 then tenths (scaled 1 (over 1000000)) +:+ " MB"
  else tenths (scaled 1 (over 1000000000)) +:+ " GB".

(** ** Reactions *)
Fixpoint chip_in (name : string) (r : ReactionView) (out : list Chip) : list Chip :=
  match out with
  | [] => [mkChip (rv_emoji r) 1 (rv_mine r) [name]]
  | c :: t =>
      if bool_decide (cp_emoji c = rv_emoji r)
      then mkChip (cp_emoji c) (S (cp_count c)) (cp_mine c || rv_mine r) (cp_who c ++ [name]) :: t
      else c :: chip_in name r t
  end.
(** One per emoji, in first-seen order. *)
Definition chips (s : State) (rs : list ReactionView) : list Chip :=
  foldl (fun out r => chip_in (name_of s (rv_author r)) r out) [] rs.

(** ** Messages *)
Definition file_line (s : State) (key : string) (dm : bool) (name : string) (size : Z) (mime : string) : FileLine :=
  mkFileLine key dm name (human_bytes size) (is_picture mime) (opt_get "" (ps_notes (w_pics s) !! key)) (ps_shown (w_pics s) !! key).
Section Drawn.
Variable time : Timestamp -> string.
(** A message heads its block, after [prev]. *)
Definition heads (prev : option MessageView) (m : MessageView) : bool :=
  match prev with
  | None => true
  | Some p => negb (bool_decide (mv_author p = mv_author m)) || (CONTINUES_SECS <=? sat_sub (mv_at m) (mv_at p))
  end.
Definition line (s : State) (channel : option ChannelView) (prev : option MessageView) (m : MessageView) : Line :=
  mkLine (mv_id m) (name_of s (mv_author m)) (time (mv_at m)) (mv_text m) (mv_mine m) (heads prev m)
    (negb (mv_mine m) && is_some_and channel cv_can_moderate) (chips s (mv_reactions m))
    (map (fun f => file_line s (fv_hash f) false (fv_name f) (fv_size f) (fv_mime f)) (mv_files m))
    (if 0 <? mv_zap_sats m then sats (mv_zap_sats m) else "")
    (show_u (mv_zap_count m) +:+ " zap" +:+ plural (mv_zap_count m) +:+ " — counted from receipts signed by "
       +:+ name_of s (mv_author m) +:+ "'s wallet").
Fixpoint lines (s : State) (channel : option ChannelView) (prev : option MessageView) (l : list MessageView) : list Line :=
  match l with [] => [] | m :: t => line s channel prev m :: lines s channel (Some m) t end.
Definition open_channel (s : State) : option ChannelView :=
  let! g := open_group s in List.find (fun c => bool_decide (Some (cv_id c) = w_channel s)) (gv_channels g).

(** ** Calls (chat/voice.rs) *)
Definition call_of (s : State) : option CallState := let! v := w_voice s in vv_call v.
Definition in_call_room (s : State) (group channel : string) : bool :=
  is_some_and (call_of s) (fun c => bool_decide (cs_group c = Some group) && bool_decide (cs_channel c = Some channel)).
Definition speaking (s : State) (npub : string) : bool :=
  match call_of s with
  | None => false
  | Some c =>
      if bool_decide (npub = w_me s) then cs_me_speaking c && negb (cs_muted c) && cs_can_speak c && (negb (cs_ptt c) || w_talking s)
      else existsb (fun p => bool_decide (pa_npub p = npub) && pa_speaking p) (cs_people c)
  end.
Definition room_people (s : State) (group channel : string) : list VoicePerson :=
  opt_get [] (
    let! v := w_voice s in
    let! r := List.find (fun x => bool_decide (x.1 = group)) (vv_rooms v) in
    let! people := List.find (fun x => bool_decide (x.1 = channel)) r.2 in
    Some (map (fun p => mkVoicePerson (name_of s p) (in_call_room s group channel && speaking s p)) people.2)).
Definition FRAME_SAMPLES : Z := 960.
Definition glitches (a : Stats) : Z :=
  (st_mic_dropped a + st_speaker_dropped a + (FRAME_SAMPLES - 1)) / FRAME_SAMPLES + st_mic_short a + st_speaker_underruns a.
Definition call_title (s : State) (c : CallState) : string * string :=
  let connected := length (List.filter pa_connected (cs_people c)) in
  let waiting := (length (cs_people c) - connected)%nat in
  match cs_with c with
  | Some w =>
      (name_of s w,
       if cs_calling c then "ringing…"
       else if Nat.ltb 0 connected then
         (if is_some_and (head (cs_people c)) pa_speaking then "speaking" else "connected") +:+ " · direct, end to end"
       else "connecting…")
  | None =>
      let g := List.find (fun g => bool_decide (Some (gv_id g) = cs_group c)) (w_groups s) in
      let named := let! g := g in List.find (fun x => bool_decide (Some (cv_id x) = cs_channel c)) (gv_channels g) in
      let who := match cs_people c with
                 | [] => "nobody else here yet"
                 | _ => if Nat.ltb 0 waiting
                        then show_u (Z.of_nat connected) +:+ " connected, " +:+ show_u (Z.of_nat waiting) +:+ " connecting"
                        else show_u (Z.of_nat connected) +:+ " connected"
                 end in
      (match named with Some x => cv_name x | None => opt_get "" (cs_channel c) end,
       opt_get "" (option_map gv_name g) +:+ " · " +:+ who)
  end.
(** The call bar, if a call is on; the busy mark, the error, and who rings. *)
Definition voice_render (s : State) (audio : option Stats) : option CallUi * bool * string * string :=
  (option_map (fun c =>
     let '(title, sub) := call_title s c in
     mkCallUi (opt_bool (cs_with c)) title sub (existsb pa_connected (cs_people c)) (cs_muted c) (cs_deafened c) (cs_ptt c)
       (cs_can_speak c) (w_talking s) (to_i32 (opt_get 0 (option_map glitches audio))) (opt_get "" (cs_with c))) (call_of s),
   w_call_busy s, opt_get "" (w_voice_error s), opt_get "" (option_map (name_of s) (let! v := w_voice s in vv_incoming v))).

(** ** Direct messages (chat/dms.rs) *)
(** The last message of each conversation, the newest first. *)
Definition lasts (l : list DmView) : list DmView :=
  isort (fun a b => dw_at b <=? dw_at a)
    (map snd (map_entries String.leb (foldl (fun m d => <[dw_with d := d]> m) (∅ : gmap string DmView) l))).
Definition conv_row (s : State) (d : DmView) : ConvUi :=
  mkConvUi (dw_with d) (name_of s (dw_with d))
    ((if dw_mine d then "you: " else "") +:+ match dw_file d with Some f => "file: " +:+ dv_name f | None => dw_text d end)
    (count (opt_get 0%nat (w_dm_unread s !! dw_with d))) (bool_decide (Some (dw_with d) = w_dm_with s)).
(** Someone just opened has no messages yet. *)
Definition fresh_conv (s : State) : option ConvUi :=
  let! w := w_dm_with s in
  if existsb (fun d => bool_decide (dw_with d = w)) (w_dms s) then None else Some (mkConvUi w (name_of s w) "" 0 true).
Definition total (m : gmap string nat) : nat := list_sum (map snd (map_to_list m)).
Definition dm_line (s : State) (d : DmView) : DmLine :=
  mkDmLine (dw_id d) (dw_mine d) (dw_text d) (time (dw_at d))
    (option_map (fun f => file_line s (dw_id d) true (dv_name f) (dv_size f) (dv_mime f)) (dw_file d)).
Definition dm_render (s : State) : DmRender :=
  let with_ := opt_get "" (w_dm_with s) in
  let name := if str_is_empty with_ then "" else name_of s with_ in
  mkDmRender (w_dms_open s) (count (total (w_dm_unread s))) (option_list (fresh_conv s) ++ map (conv_row s) (lasts (w_dms s)))
    (map (dm_line s) (List.filter (fun d => bool_decide (dw_with d = with_)) (w_dms s)))
    ("message " +:+ name) (opt_get "" (w_dm_error s)) (to_i32 MAX_DM_CHARS) with_ name
    (if str_is_empty with_ then "" else short_key with_).

(** ** The window *)
Definition shown_name (g : GroupView) : string := if gv_ready g then gv_name g else "joining…".
Definition group_unread (s : State) (g : string) : nat :=
  list_sum (map snd (List.filter (fun x => opt_bool (strip_prefix (g +:+ "/") x.1)) (map_to_list (w_unread s)))).
(** Unicode's, of one character. *)
Variable to_uppercase : string -> string.
Definition initials (name : string) : string :=
  let l := filter_map (fun w => option_map to_uppercase (head (chars w))) (take 2 (words_of name)) in
  if str_is_empty (concat_str l) then "?" else concat_str l.
Definition group_row (s : State) (g : GroupView) : GroupUi :=
  mkGroupUi (gv_id g) (shown_name g) (if gv_ready g then initials (gv_name g) else "…") (count (group_unread s (gv_id g)))
    (bool_decide (Some (gv_id g) = w_group s)).
Definition channel_line (s : State) (g : string) (c : ChannelView) : ChannelLine :=
  mkChannelLine (cv_id c) (cv_name c) (bool_decide (cv_kind c = "voice")) (cv_private c) (to_i32 (cv_slowmode c))
    (count (opt_get 0%nat (w_unread s !! unread_key g (cv_id c)))) (bool_decide (Some (cv_id c) = w_channel s))
    (in_call_room s g (cv_id c)) (room_people s g (cv_id c)).
Definition member_row (s : State) (m : MemberView) : MemberUi :=
  mkMemberUi (mb_npub m) (name_of s (mb_npub m)) (mb_me m || bool_decide (mb_npub m ∈ w_present s)) (mb_me m)
    (joined " · " ((if mb_anchor m then ["anchor"] else [])
                   ++ (if mb_owner m then ["owner"] else match mb_roles m with [] => [] | l => [joined ", " l] end)
                   ++ (if opt_bool (mb_muted_until m) then ["muted"] else []))).
(** Online first (and me), then everyone else. *)
Definition member_rows (s : State) : list MemberUi :=
  isort (fun a b => mu_here a || negb (mu_here b)) (map (member_row s) (w_members s)).
Definition minutes (until now : Z) : Z := (until - now + 59) / 60.
Definition pad2 (n : Z) : string := if n <? 10 then "0" +:+ show_u n else show_u n.
(** Why the composer is closed; empty, it is open. *)
Definition refusal (now : Timestamp) (group : option GroupView) (channel : option ChannelView) : string :=
  let muted_for := let! g := group in let! u := gv_muted_until g in if now <? u then Some (minutes u now) else None in
  match channel with
  | None => "no channel"
  | Some c =>
      if is_some_and group gv_reading then "join to post"
      else match muted_for, newcomer_left now group with
           | Some min, _ => "muted for another " +:+ show_u min +:+ " min"
           | None, Some wait => "new here — you can post in " +:+ show_u (wait / 60) +:+ ":" +:+ pad2 (wait mod 60)
           | None, None => if cv_can_send c then "" else "you cannot post in this channel"
           end
  end.
Definition banner (g : option GroupView) : string :=
  match g with
  | Some g =>
      if gv_removed g then
        (if gv_banned g then "You were banned from this group." else "You are no longer a member of this group.")
        +:+ " Your copy of the conversation up to then is still on this disk; nothing new will reach you."
      else ""
  | None => ""
  end.
Definition reach (s : State) : string * bool :=
  let others := length (List.filter (fun m => negb (mb_me m)) (w_members s)) in
  let here := length (List.filter (fun m => negb (mb_me m) && bool_decide (mb_npub m ∈ w_present s)) (w_members s)) in
  (if Nat.eqb others 0 then "just you so far"
   else if Nat.eqb here 0 then "nobody online — kept here until someone is"
   else show_u (Z.of_nat here) +:+ " of " +:+ show_u (Z.of_nat others) +:+ " online",
   Nat.eqb others 0 || Nat.ltb 0 here).
Definition view_ui (now : Timestamp) (s : State) : ViewUi :=
  let g := open_group s in
  let c := open_channel s in
  mkViewUi (opt_get "" (option_map shown_name g)) (opt_get "" (option_map cv_name c)) (reach s).1 (reach s).2
    (count (length (w_members s))) (is_some_and g (fun g => gv_can_invite g || gv_public g)) (refusal now g c)
    (opt_get "" (option_map (fun c => "message #" +:+ cv_name c) c)) (banner g) (is_some_and g (fun g => negb (gv_ready g)))
    (is_some_and g gv_reading) (opt_get "" (w_send_error s)) (opt_get 0 (option_map (fun c => to_i32 (cv_slowmode c)) c))
    (to_i32 (w_max_chars s)) (name_of s (w_me s)) (negb (Nat.eqb (length (w_groups s)) 0)).
Definition settings_ui (g : GroupView) : SettingsUi :=
  mkSettingsUi (gv_name g) (gv_public g) (to_i32 (gv_newcomer_wait_set g)) (to_i32 (gv_newcomer_wait g)) (gv_about g) (gv_me_owner g)
    (gv_can_rename g) (gv_can_manage_channels g) (gv_can_ban g) (gv_can_compact g) (to_i32 (gv_seq g))
    (gv_ready g && negb (gv_removed g)
     && (gv_me_owner g || gv_can_rename g || gv_can_manage_channels g || gv_can_ban g || gv_can_compact g)).
Definition ban_row (s : State) (b : BanView) : string * string := (bv_npub b, opt_get (name_of s (bv_npub b)) (bv_name b)).
(** The member whose dialog is open, while a member. *)
Definition person_ui (now : Timestamp) (s : State) : option PersonUi :=
  let! p := w_person s in
  let! m := List.find (fun m => bool_decide (mb_npub m = p)) (w_members s) in
  Some (mkPersonUi (mb_npub m) (name_of s (mb_npub m))
          (if mb_owner m then "Owner" else match mb_roles m with [] => "Member" | l => joined ", " l end)
          (match mb_muted_until m with Some u => if now <? u then to_i32 (minutes u now) else 0 | None => 0 end)
          (mb_me m) (mb_can_kick m) (mb_can_ban m) (mb_can_mute m) (mb_can_set_roles m)).
(** The rows' key: of another channel, a new list. *)
Definition rows_key (s : State) : string := opt_get "" (w_group s) +:+ "/" +:+ opt_get "" (w_channel s).

(** ** What is patched *)
Definition files_same (a b : list FileLine) : bool :=
  Nat.eqb (length a) (length b) &&
  forallb (fun x => bool_decide (fl_key x.1 = fl_key x.2) && Bool.eqb (opt_bool (fl_pixels x.1)) (opt_bool (fl_pixels x.2))
                    && bool_decide (fl_note x.1 = fl_note x.2) && bool_decide (fl_size x.1 = fl_size x.2)) (combine a b).
#[export] Instance Chip_eq_dec : EqDecision Chip.
Proof. solve_decision. Defined.
Definition same (a b : Line) : bool :=
  bool_decide (ln_id a = ln_id b) && bool_decide (ln_name a = ln_name b) && bool_decide (ln_time a = ln_time b)
  && bool_decide (ln_text a = ln_text b) && Bool.eqb (ln_mine a) (ln_mine b) && Bool.eqb (ln_head a) (ln_head b)
  && Bool.eqb (ln_can_remove a) (ln_can_remove b) && bool_decide (ln_zap_sats a = ln_zap_sats b)
  && bool_decide (ln_chips a = ln_chips b) && files_same (ln_files a) (ln_files b).
(** The message list, with the channel it is of. *)
Definition drawn_rows (s : State) (old : option (string * list Line)) : string * list Line :=
  let rows := lines s (open_channel s) None (w_messages s) in
  match old with
  | Some (k, model) => if bool_decide (k = rows_key s) then (k, patch same model rows) else (rows_key s, rows)
  | None => (rows_key s, rows)
  end.
End Drawn.
