(* ===== verification/RenderSpec.v ===== *)
(** What is drawn says what is so: the composer is open exactly when the group
    would take a message, a message's chips count its reactions, and a message
    that comes is shown or counted, once. *)
From S2P Require Import Prelude Text Nostr GroupEvent Replace Perm Zap GroupState Fold Authority Safety Invariant Machine Escalation Answers.
From S2P Require Import Binding Dm Groups EventStore Proto Person Node NodeOps NodeGroups Voice App Views Chat Publish Shown Core Window Render.

#[local] Open Scope string_scope.
#[local] Open Scope Z_scope.
#[local] Open Scope list_scope.

(** ** The composer *)
Section Composer.
Context {N : NostrTypes} {O : NostrOps} {T : DeviceTypes} {P : DeviceOps} {C : DmCrypto}.
Context {Y : WireTypes} {F : ProfileTypes} {NT : NodeTypes}.

Lemma judged_message s m ch c : channel_of m = Some ch -> channel s ch = Some c -> (exists l, attachments_of m = Ok l) ->
  judge_message s m = Ok tt <->
  is_member s (ev_pubkey m) = true /\ Perm.contains (effective s (ev_pubkey m) ch) Perm.VIEW_CHANNEL = true /\
  Perm.contains (effective s (ev_pubkey m) ch) Perm.SEND_MESSAGES = true /\
  silence_at s (ev_pubkey m) (ev_created_at m) = None /\ posts_from s (ev_pubkey m) (ev_created_at m) = None.
Proof.
  intros Hch Hc [l Hl]. unfold judge_message. rewrite Hl. cbn [is_ok negb]. rewrite andb_false_r.
  destruct (judge_in_channel s m _) as [[]|e] eqn:E.
  - apply judge_in_channel_ok in E as (ch' & Hch' & _ & Hm & Hp). rewrite Hch in Hch'. injection Hch' as <-.
    rewrite Perm.contains_union, andb_true_iff in Hp. destruct (silence_at _ _ _), (posts_from _ _ _); naive_solver.
  - split; [done|]. intros (Hm & Hv & Hs & _). enough (judge_in_channel s m (Perm.union Perm.VIEW_CHANNEL Perm.SEND_MESSAGES) = Ok tt) by congruence.
    apply judge_in_channel_ok. exists ch. rewrite Perm.contains_union, Hv, Hs. eauto.
Qed.
Lemma posts_later s p now t : posts_from s p now = Some t -> now < t.
Proof.
  unfold posts_from. destruct (_ =? 0); [done|]. cbn. destruct (gs_joined s !! p) as [j|]; [|done]. cbn.
  destruct (Z.ltb_spec now (ts_add j (newcomer_wait s))); [|done]. by intros [= <-].
Qed.
Lemma muted_later s p now t : muted_until s p now = Some t -> now < t.
Proof.
  unfold muted_until. cbn. destruct (gs_mutes s !! p) as [u|]; [|done]. cbn.
  destruct (Z.ltb_spec now u); [|done]. by intros [= <-].
Qed.
Lemma not_empty s1 s2 : s1 <> "" -> s1 +:+ s2 <> "".
Proof. by destruct s1. Qed.
(** For a member, the composer is open exactly if they may send here, no mute is
    on record and no wait is left. *)
Lemma refusal_member s me now has_key g c : is_member s me = true ->
  let v := group_view now me has_key (g, Some s) in
  refusal now (Some v) (Some c) = "" <-> cv_can_send c = true /\ muted_until s me now = None /\ posts_from s me now = None.
Proof.
  intros Hm v. unfold v, group_view, refusal. rewrite Hm. cbn.
  destruct (muted_until s me now) as [u|] eqn:Eu.
  { cbn. rewrite (proj2 (Z.ltb_lt _ _) (muted_later _ _ _ _ Eu)). split; [done|by intros (_ & ? & _)]. }
  cbn. unfold newcomer_left. cbn. destruct (posts_from s me now) as [t|] eqn:Et.
  { cbn. rewrite (proj2 (Z.ltb_lt _ _) (posts_later _ _ _ _ Et)). split; [done|by intros (_ & _ & ?)]. }
  cbn. destruct (cv_can_send c); split; try done. by intros [? _].
Qed.
(** C10. The composer is honest.  Of a channel the window lists, let [m] be a message
    of this person's, dated now, with well-formed files.  If the composer is
    open and no silence is in force, the group takes [m]; if the group takes
    [m] and no mute is on record, the composer is open.  Who only reads, was
    removed, waits as a newcomer or may not send here has it closed. *)
Theorem composer_honest s me now has_key g c m :
  let v := group_view now me has_key (g, Some s) in
  c ∈ gv_channels v -> channel_of m = Some (cv_id c) -> ev_pubkey m = me -> ev_created_at m = now ->
  (exists l, attachments_of m = Ok l) ->
  (refusal now (Some v) (Some c) = "" -> silence_at s me now = None -> judge_message s m = Ok tt) /\
  (judge_message s m = Ok tt -> muted_until s me now = None -> refusal now (Some v) (Some c) = "") /\
  (is_member s me = false -> refusal now (Some v) (Some c) <> "").
Proof.
  intros v Hc Hch <- <- Hf. set (now := ev_created_at m) in *. set (me := ev_pubkey m) in *.
  destruct (is_member s me) eqn:Hm; subst v.
  - pose proof (refusal_member s me now has_key g c Hm) as Hr. cbv zeta in Hr.
    unfold group_view in Hc. rewrite Hm in Hc. cbn in Hc. unfold member_channels in Hc.
    apply list_elem_of_fmap in Hc as (x & -> & [Hx Hv]%filter_elem). cbn in Hr, Hch |- *.
    assert (Hn : exists y, channel s (ch_id x) = Some y).
    { unfold channel. destruct (List.find _ _) eqn:E; [eauto|]. apply (find_none_elem _ _ _ E) in Hx. by rewrite bool_decide_true in Hx. }
    destruct Hn as [y Hy]. rewrite Hr, (judged_message s m (ch_id x) y Hch Hy Hf). fold me now. rewrite Hm, Hv.
    split; [by intros (? & ? & ?) ?|split; [by intros (_ & _ & ? & ? & ?) ?|done]].
  - assert (Hw : refusal now (Some (group_view now me has_key (g, Some s))) (Some c) <> "").
    { unfold group_view in Hc |- *. rewrite Hm in Hc |- *. cbn in Hc |- *. unfold refusal. cbn.
      destruct (gs_public s && _); [done|]. unfold newcomer_left. cbn.
      unfold reader_channels in Hc. by apply list_elem_of_fmap in Hc as (x & -> & _). }
    split; [done|]. split; [|done]. unfold judge_message. intros H. exfalso. destruct (_ && _) in H; [done|].
    destruct (judge_in_channel s m _) as [[]|] eqn:E; [|done]. apply judge_in_channel_ok in E as (_ & _ & _ & Hm' & _).
    fold me in Hm'. congruence.
Qed.
End Composer.

(** ** Reactions *)
Section Chips.
(** The emojis in first-seen order, and the chip one deserves. *)
Definition seen_first (rs : list ReactionView) : list string :=
  foldl (fun out r => if bool_decide (rv_emoji r ∈ out) then out else out ++ [rv_emoji r]) [] rs.
Definition with_emoji (e : string) (rs : list ReactionView) : list ReactionView :=
  List.filter (fun r => bool_decide (rv_emoji r = e)) rs.
Definition chip_of (s : State) (rs : list ReactionView) (e : string) : Chip :=
  mkChip e (length (with_emoji e rs)) (existsb rv_mine (with_emoji e rs)) (map (fun r => name_of s (rv_author r)) (with_emoji e rs)).
Lemma with_emoji_snoc e rs r :
  with_emoji e (rs ++ [r]) = with_emoji e rs ++ (if bool_decide (rv_emoji r = e) then [r] else []).
Proof. unfold with_emoji. rewrite List.filter_app. cbn. by case_bool_decide. Qed.
Lemma chip_of_other s rs r e : rv_emoji r <> e -> chip_of s (rs ++ [r]) e = chip_of s rs e.
Proof. intros H. unfold chip_of. by rewrite with_emoji_snoc, bool_decide_false, app_nil_r. Qed.
Lemma chip_of_same s rs r : chip_of s (rs ++ [r]) (rv_emoji r) =
  let c := chip_of s rs (rv_emoji r) in
  mkChip (rv_emoji r) (S (cp_count c)) (cp_mine c || rv_mine r) (cp_who c ++ [name_of s (rv_author r)]).
Proof.
  unfold chip_of. rewrite with_emoji_snoc, bool_decide_true by done.
  rewrite length_app, existsb_app, map_app, Nat.add_comm. cbn. by rewrite orb_false_r.
Qed.
Lemma chip_in_chips s rs r es : NoDup es ->
  chip_in (name_of s (rv_author r)) r (map (chip_of s rs) es) =
  map (chip_of s (rs ++ [r])) es ++
  (if bool_decide (rv_emoji r ∈ es) then [] else [mkChip (rv_emoji r) 1 (rv_mine r) [name_of s (rv_author r)]]).
Proof.
  induction 1 as [|e es He Hn IH]; [done|]. cbn [map chip_in]. change (cp_emoji (chip_of s rs e)) with e.
  destruct (decide (e = rv_emoji r)) as [E|E].
  - subst e. rewrite (bool_decide_true (_ = _)) by done. rewrite chip_of_same, bool_decide_true by (by left). rewrite app_nil_r. f_equal.
    apply map_ext_in. intros x Hx. symmetry. apply chip_of_other. intros <-. by apply list_elem_of_In in Hx.
  - rewrite (bool_decide_false (_ = _)), IH, chip_of_other by done. cbn. f_equal. f_equal. symmetry.
    by rewrite (bool_decide_ext _ (rv_emoji r ∈ es)) by (rewrite elem_of_cons; naive_solver).
Qed.
Lemma seen_first_snoc rs r : seen_first (rs ++ [r]) =
  if bool_decide (rv_emoji r ∈ seen_first rs) then seen_first rs else seen_first rs ++ [rv_emoji r].
Proof. unfold seen_first. by rewrite foldl_app. Qed.
Lemma seen_first_once rs : NoDup (seen_first rs) /\ forall e, e ∈ seen_first rs <-> exists r, r ∈ rs /\ rv_emoji r = e.
Proof.
  induction rs as [|r rs [Hn He]] using rev_ind; [split; [constructor|]; intros e; cbn; set_solver|].
  rewrite seen_first_snoc. setoid_rewrite elem_of_app. setoid_rewrite list_elem_of_singleton. case_bool_decide as E.
  - split; [done|]. intros e. rewrite He. apply He in E as (r' & ? & ?). naive_solver.
  - split; [apply NoDup_app; split; [done|]; split; [by intros x Hx ->%list_elem_of_singleton|apply NoDup_singleton]|].
    intros e. rewrite elem_of_app, list_elem_of_singleton, He. naive_solver.
Qed.
(** A message shows one chip per emoji, in the order each was first seen,
    with as many as reacted with it, whether this person did, and the names of
    those who did in their order. *)
Theorem chips_exact s rs : chips s rs = map (chip_of s rs) (seen_first rs) /\
  NoDup (map cp_emoji (chips s rs)) /\ (forall e, e ∈ map cp_emoji (chips s rs) <-> exists r, r ∈ rs /\ rv_emoji r = e).
Proof.
  assert (E : chips s rs = map (chip_of s rs) (seen_first rs)).
  { induction rs as [|r rs IH] using rev_ind; [done|]. unfold chips. rewrite foldl_app. cbn. fold (chips s rs).
    rewrite IH, chip_in_chips, seen_first_snoc by apply seen_first_once. case_bool_decide as E; [by rewrite app_nil_r|].
    rewrite map_app. f_equal. cbn. rewrite chip_of_same. unfold chip_of. cbn.
    assert (Hw : with_emoji (rv_emoji r) rs = []).
    { destruct (with_emoji _ rs) as [|x l] eqn:Ew; [done|]. destruct E. apply seen_first_once.
      assert (Hx : x ∈ with_emoji (rv_emoji r) rs) by (rewrite Ew; by left). apply filter_elem in Hx as [? Hx].
      apply bool_decide_eq_true in Hx. by exists x. }
    by rewrite Hw. }
  assert (Em : map cp_emoji (chips s rs) = seen_first rs).
  { rewrite E, map_map. rewrite <- (map_id (seen_first rs)) at 2. by apply map_ext. }
  rewrite Em. split; [exact E|apply seen_first_once].
Qed.
End Chips.
