(* ===== verification/AppRight.v ===== *)
(** Every button of the app keeps its node right ([healthy]), whatever peers
    answer meanwhile; so the app answers its window as [Timeline] relies on:
    with messages and direct messages in order of time. *)
From stdpp Require Import relations.
From S2P Require Import Prelude Text Nostr GroupEvent Replace Perm Zap GroupState Fold FoldOrder.
From S2P Require Import Answers Binding Dm Groups EventStore StoreSpec StoreEffect Proto Person.
From S2P Require Import Node NodeSpec NodeOps NodeGroups Reading Session Relay RelaySpec Sync SyncSpec NodeRight Audio Voice Lightning Wallet.
From S2P Require Import App Views Chat Publish Shown Core Window WindowSpec Timeline.

#[local] Open Scope Z_scope.

Section AppRight.
Context {N : NostrTypes} {O : NostrOps} {L : NostrLaws} {J : JsonLaws}.
Context {T : DeviceTypes} {P : DeviceOps} {C : DmCrypto}.
Context {Y : WireTypes} {F : ProfileTypes} {NT : NodeTypes} {RT : RelayTypes} {ST : SyncTypes}.
Context {OP : Opus} {VT : VoiceTypes} {LT : LnTypes} {WT : WalletTypes} {AT : AppTypes} {NL : NegLaws}.
Context {K : Type} {KS : SecretStore K}.
Notation App := (App (K := K)).
Notation AppM := (AppM (K := K)).

Lemma preserves_state_of g : preserves (state_of g).
Proof. unfold state_of. preserve. Qed.
Hint Resolve preserves_state_of : right.
Lemma preserves_members now g : preserves (members_view now g).
Proof. unfold members_view. preserve. Qed.
Lemma preserves_roles g : preserves (roles_view g).
Proof. unfold roles_view. preserve. Qed.
Lemma preserves_bans g : preserves (bans_view g).
Proof. unfold bans_view. preserve. Qed.
Lemma preserves_messages g c : preserves (messages_of g c).
Proof. unfold messages_of. preserve. Qed.
Lemma preserves_dms_view : preserves dms_view.
Proof. unfold dms_view. preserve. Qed.
Lemma preserves_anchors_of l who : preserves (anchors_of l who).
Proof. induction l as [|[g s] t IH]; cbn; preserve. Qed.
Hint Resolve preserves_members preserves_roles preserves_bans preserves_messages preserves_dms_view preserves_anchors_of : right.
Lemma preserves_inbox_view : preserves inbox_view.
Proof. unfold inbox_view. preserve. Qed.
Hint Resolve preserves_inbox_view : right.

(** ** The app *)
Definition node_right (a : App) : Prop := forall r, ap_running a = Some r -> healthy (ru_node r).
Definition holds_right {X} (m : AppM X) : Prop := forall a, node_right a -> node_right (m a).1.
Lemma holds_ret {X} (x : X) : holds_right (a_ret x).
Proof. by intros a Ha. Qed.
Lemma holds_fail {X} e : holds_right (a_fail (X := X) e).
Proof. by intros a Ha. Qed.
Lemma holds_bind {X Z} (m : AppM X) (k : X -> AppM Z) : holds_right m -> (forall x, holds_right (k x)) -> holds_right (a_bind m k).
Proof. intros Hm Hk a Ha. unfold a_bind. specialize (Hm a Ha). destruct (m a) as [b [x|e]]; [by apply Hk|done]. Qed.
Lemma holds_app : holds_right app.
Proof. by intros a Ha. Qed.
Lemma holds_change f : (forall a, ap_running (f a) = ap_running a) -> holds_right (change f).
Proof. intros Hf a Ha r. cbn. rewrite Hf. apply Ha. Qed.
Lemma holds_running {X} (f : Running -> Running * result AppError X) :
  (forall r, healthy (ru_node r) -> healthy (ru_node (f r).1)) -> holds_right (on_running f).
Proof.
  intros Hf a Ha. unfold on_running. destruct (ap_running a) as [r|] eqn:E; [|exact Ha].
  specialize (Hf r (Ha r E)). destruct (f r) as [r' x]. intros r0 [= <-]. exact Hf.
Qed.
Lemma holds_node {X} (m : M X) : preserves m -> holds_right (on_node m).
Proof. intros Hm. apply holds_running. intros r Hr. specialize (Hm _ Hr). by destruct (m (ru_node r)). Qed.
Lemma holds_voice {X} (f : Voice.Voice * Inner -> (Voice.Voice * Inner) * result VoiceError X) :
  (forall v n, healthy n -> healthy (f (v, n)).1.2) -> holds_right (on_voice f).
Proof. intros Hf. apply holds_running. intros r Hr. specialize (Hf (ru_voice r) _ Hr). by destruct (f _) as [[v n] x]. Qed.
Lemma holds_publish : holds_right publish_public.
Proof.
  intros a Ha r. unfold publish_public, change. cbn. destruct (ap_running a) as [r0|] eqn:E; cbn; [|by rewrite E].
  intros [= <-]. exact (Ha r0 E).
Qed.
Lemma holds_writes os d : holds_right (writes os d).
Proof. intros a Ha. unfold writes. by destruct (os_writes os). Qed.
Lemma holds_key s : holds_right (parse_key s).
Proof. unfold parse_key. case_match; [apply holds_ret|apply holds_fail]. Qed.
Lemma holds_id s : holds_right (parse_id s).
Proof. unfold parse_id. case_match; [apply holds_ret|apply holds_fail]. Qed.
Lemma holds_refused {X} why : holds_right (refused (X := X) why).
Proof. apply holds_fail. Qed.
Lemma holds_shown {X} (o : option X) why : holds_right (shown o why).
Proof. destruct o; [apply holds_ret|apply holds_fail]. Qed.
Lemma holds_ln {X} (r : result LnError X) : holds_right (of_ln r).
Proof. by intros a Ha; destruct r. Qed.
Lemma holds_of_key {X} (r : result KeyError X) : holds_right (of_key r).
Proof. by intros a Ha; destruct r. Qed.
Lemma holds_of_secret {X} (r : result SecretError X) : holds_right (of_secret r).
Proof. apply holds_of_key. Qed.
Lemma holds_lift {X} (r : result AppError X) : holds_right (a_lift r).
Proof. by intros a Ha; destruct r. Qed.
Lemma holds_node_get : holds_right node.
Proof. apply holds_node, preserves_get_alone. Qed.
Hint Resolve holds_ret holds_fail holds_app holds_publish holds_writes holds_key holds_id holds_refused holds_shown holds_ln holds_of_key holds_of_secret holds_lift
  holds_node_get : right.
Lemma holds_quietly {X} (m : AppM X) : holds_right m -> holds_right (quietly m).
Proof. intros Hm. unfold quietly. apply holds_bind; [done|intros; apply holds_ret]. Qed.
Ltac press :=
  repeat match goal with
    | |- holds_right (a_bind _ _) => apply holds_bind; [|intros ?]
    | |- holds_right (quietly _) => apply holds_quietly
    | |- holds_right (on_node _) => apply holds_node; preserve
    | |- holds_right (change _) => apply holds_change; by intros
    | |- holds_right (match _ with _ => _ end) => case_match
    | |- holds_right (let _ := _ in _) => cbv zeta
    | _ => solve [auto with right]
    end.
Lemma holds_save os f : holds_right (save_file os f).
Proof. unfold save_file. press. Qed.
Lemma holds_in_group {X} g (f : PublicKey -> M X) : (forall k, preserves (f k)) -> holds_right (in_group g f).
Proof. intros Hf. unfold in_group. press. Qed.
Lemma holds_to_member {X} g w (f : PublicKey -> PublicKey -> M X) : (forall k p, preserves (f k p)) -> holds_right (to_member g w f).
Proof. intros Hf. unfold to_member. press. Qed.
Lemma holds_then m : holds_right m -> holds_right (then_publish m).
Proof. intros Hm. unfold then_publish. press. Qed.
Hint Resolve holds_quietly holds_save holds_in_group holds_to_member holds_then : right.

Section Pressed.
Context (os : Os) (net : Sync.Net) (Hc : clock_ok (os_env os)) (Hf : fair net).
Hint Resolve Hc Hf : right.
Lemma holds_edit g edits : holds_right (edit_group os g edits).
Proof. unfold edit_group. apply holds_quietly, holds_in_group. intros k. by apply preserves_sign. Qed.
Hint Resolve holds_edit : right.
Lemma holds_leave_first : holds_right (leave_first os).
Proof.
  unfold leave_first. apply holds_bind; [by apply holds_running|]. intros on. destruct on; [|apply holds_ret].
  apply holds_voice. intros v n Hn. unfold leave. destruct (v_current v) as [i|]; [|done].
  destruct (option_map k_room _) as [[g c|p]|]; [|done..].
  pose proof (preserves_announce_voice _ Hc g c false n Hn) as H. by destruct (announce_voice _ _ _ _ _) as [n' [x|e]].
Qed.
Hint Resolve holds_leave_first : right.
Lemma holds_join audio g c : holds_right (voice_join os audio g c).
Proof.
  unfold voice_join. press. apply holds_voice. intros v n Hn. unfold join_begins.
  destruct (opt_bool _); [done|]. destruct (rights _ _ _ _ _); [|done]. destruct (_ <? _); [done|].
  pose proof (preserves_announce_voice _ Hc x c true n Hn) as H'. by destruct (announce_voice _ _ _ _ _) as [n' [y|e]].
Qed.
Lemma holds_call audio who : holds_right (voice_call os audio who).
Proof. unfold voice_call. press. apply holds_voice. intros v n Hn. by destruct (call_person _ _ _ _ _). Qed.
Lemma holds_answer audio : holds_right (voice_answer os audio).
Proof.
  unfold voice_answer. apply holds_bind; [by apply holds_running|]. intros on. press.
  apply holds_voice. intros v n Hn. by destruct (answer _ _).
Qed.
Lemma holds_decline : holds_right (voice_decline).
Proof. apply holds_voice. intros v n Hn. by destruct (decline _). Qed.
Lemma holds_set m d p : holds_right (voice_set m d p).
Proof. by apply holds_voice. Qed.
Lemma holds_talk down : holds_right (voice_talk down).
Proof. by apply holds_voice. Qed.
Hint Resolve holds_join holds_call holds_answer holds_decline holds_set holds_talk : right.
Lemma holds_account : holds_right wallet_account.
Proof. unfold wallet_account. press. Qed.
Hint Resolve holds_account : right.
Lemma holds_wallet_of : holds_right wallet.
Proof. unfold wallet. press. Qed.
Hint Resolve holds_wallet_of : right.
Lemma holds_wallet : holds_right wallet_view.
Proof. unfold wallet_view. press. Qed.
Lemma preserves_lud16_set a : preserves (set_own_lud16 (os_env os) a).
Proof. by apply preserves_set_profile. Qed.
Hint Resolve holds_wallet preserves_lud16_set : right.
Lemma holds_prepare web g m amount : holds_right (prepare_zap web g m amount).
Proof. unfold prepare_zap. press. Qed.
Lemma holds_request throwaway to m q relays comment anon : holds_right (zap_request os throwaway to m q relays comment anon).
Proof. unfold zap_request. press. Qed.
Hint Resolve holds_prepare holds_request : right.
Lemma holds_zap m throwaway g id amount comment anon : holds_right (zap os m throwaway g id amount comment anon).
Proof.
  unfold zap. press. intros a Ha. pose proof (holds_node (carry_zap (os_env os) e) ltac:(auto with right) a Ha) as H'.
  by destruct (on_node _ a) as [b []].
Qed.

(** What the person presses, over an app whose clock and peers' are right, and
    what the window reads; the node moves on its own between, kept right by its
    own theorems. *)
Inductive presses : App -> App -> Prop :=
| p_set_name name a : presses a (set_name os name a).1
| p_kick g w a : presses a (kick os g w a).1
| p_ban g w a : presses a (ban_who os g w a).1
| p_unban g w a : presses a (unban_who os g w a).1
| p_mute g w minutes a : presses a (mute_who os g w minutes a).1
| p_set_roles g w l a : presses a (set_member_roles os g w l a).1
| p_remove g c i a : presses a (remove_message os g c i a).1
| p_rename g name a : presses a (rename_group os g name a).1
| p_about g about a : presses a (Chat.set_about os g about a).1
| p_public g public a : presses a (Chat.set_public os g public a).1
| p_wait g secs a : presses a (Chat.set_newcomer_wait os g secs a).1
| p_channel g id name slowmode voice a : presses a (save_channel os g id name slowmode voice a).1
| p_private g id private a : presses a (set_channel_private os g id private a).1
| p_delete g id a : presses a (delete_channel os g id a).1
| p_compact g a : presses a (compact_group os g a).1
| p_send g c text files a : presses a (app_send os g c text files a).1
| p_react g c m emoji a : presses a (app_react os g c m emoji a).1
| p_withdraw g c i a : presses a (app_withdraw os g c i a).1
| p_read g c t a : presses a (mark_read os g c t a).1
| p_dm to text a : presses a (app_send_dm os to text a).1
| p_inbox on a : presses a (set_app_inbox os on a).1
| p_create made name public a : presses a (create_app_group os made name public a).1
| p_invite code g hours a : presses a (app_invite os code g hours a).1
| p_link g a : presses a (app_public_link os g a).1
| p_contact link a : presses a (app_add_contact os net link a).1
| p_join link a : presses a (app_join os net link a).1
| p_join_reading g a : presses a (join_reading os net g a).1
| p_voice_join audio g c a : presses a (voice_join os audio g c a).1
| p_call audio who a : presses a (voice_call os audio who a).1
| p_answer audio a : presses a (voice_answer os audio a).1
| p_decline a : presses a (voice_decline a).1
| p_leave a : presses a (voice_leave os a).1
| p_voice_set m d p a : presses a (voice_set m d p a).1
| p_talk down a : presses a (voice_talk down a).1
| p_address web address a : presses a (set_lightning_address os web address a).1
| p_wallet connection a : presses a (connect_wallet connection a).1
| p_no_wallet a : presses a (disconnect_wallet a).1
| p_zap m throwaway g id amount comment anon a : presses a (zap os m throwaway g id amount comment anon a).1
| p_list on a : presses a (set_list_groups os on a).1
| p_relays l a : presses a (set_public_relays os l a).1.
Lemma presses_hold a b : presses a b -> node_right a -> node_right b.
Proof.
  intros H Ha. destruct H;
    match goal with |- node_right (?m ?a).1 => enough (Hm : holds_right m) by exact (Hm a Ha) end.
  all: first
    [ solve [auto using holds_zap with right]
    | unfold set_name, kick, ban_who, unban_who, mute_who, set_member_roles, remove_message, rename_group, Chat.set_about,
        Chat.set_public, Chat.set_newcomer_wait, save_channel, set_channel_private, delete_channel, compact_group, app_send, app_react,
        app_withdraw, mark_read, read_marks, app_send_dm, set_app_inbox, app_invite, app_public_link,
        app_add_contact, app_join, join_reading, voice_leave, set_lightning_address, connect_wallet, disconnect_wallet,
        set_list_groups, set_public_relays; cbv zeta; solve [press]
    | idtac].
  unfold create_app_group. press. match goal with H : create_group_with _ ?k _ ?name _ = _ |- _ =>
    pose proof (preserves_create (os_env os) Hc k made name public) as Hm; rewrite H in Hm; exact Hm end.
Qed.
(** C5. Whatever the person presses in the open app, one press after another and
    each run to its end, and whatever the peers dialled answer, the node stays
    right: its tables are consistent, what it holds was signed and is dated in
    range, each group's state is the fold of what it holds, nothing is kept that
    its author withdrew, a moderator removed, or a silence covers whose end an i64
    holds, and its book is well formed.  (Presses whose events overlap others of
    the node keep what [OverlapSpec.overlapping_sound] says.) *)
Theorem presses_keep_node a b : rtc presses a b -> (forall r, ap_running a = Some r -> node_ok (ru_node r) /\ book_wf (n_book (ru_node r))) ->
  forall r, ap_running b = Some r -> node_ok (ru_node r) /\ book_wf (n_book (ru_node r)).
Proof.
  intros H. induction H as [a|a a' b Hstep _ IH]; [done|]. intros Ha. apply IH. exact (presses_hold a a' Hstep Ha).
Qed.
End Pressed.

(** ** What the window reads *)
Lemma holds_person : holds_right person.
Proof. unfold person. press. Qed.
Lemma holds_status : holds_right app_status.
Proof. unfold app_status. pose proof holds_person. press. Qed.
Lemma holds_groups os : holds_right (groups os).
Proof. unfold groups. press. Qed.
Lemma holds_marks : holds_right read_marks.
Proof. unfold read_marks. press. Qed.
Hint Resolve holds_groups holds_marks : right.
Lemma holds_unread_each p m l : holds_right (unread_each p m l).
Proof. induction l as [|g t IH]; cbn; press. Qed.
Hint Resolve holds_unread_each : right.
Lemma holds_unread os : holds_right (unread os).
Proof. unfold unread. press. Qed.
Lemma holds_dms : holds_right app_dms.
Proof. unfold app_dms. press. Qed.
Hint Resolve holds_dms : right.
Lemma holds_dm_unread : holds_right dm_unread.
Proof. unfold dm_unread. press. Qed.
Lemma holds_app_names l : holds_right (app_names l).
Proof. unfold app_names. press. Qed.
Lemma holds_present os : holds_right (app_present os).
Proof. unfold app_present. press. Qed.
Lemma holds_totals l : holds_right (app_zap_totals l).
Proof. unfold app_zap_totals. press. Qed.
Lemma holds_voice_view os : holds_right (voice_view os).
Proof. by apply holds_running. Qed.

(** ** Lists in order *)
Lemma in_time_omap {V W} (f : V -> option W) (at_ : V -> Z) (at' : W -> Z) l : (forall x y, f x = Some y -> at' y = at_ x) ->
  in_time at_ l -> in_time at' (filter_map f l).
Proof.
  intros Hf. unfold filter_map. induction 1 as [|x t _ IH Hx]; cbn; [constructor|]. destruct (f x) as [y|] eqn:E; [|done].
  constructor; [done|]. apply Forall_forall. intros z (w & Hw & Ew)%list_elem_of_omap.
  rewrite Forall_forall in Hx. rewrite (Hf _ _ E), (Hf _ _ Ew). auto.
Qed.
Lemma in_time_rev {V} (at_ : V -> Z) l : StronglySorted (fun a b => at_ b <= at_ a) l -> in_time at_ (rev l).
Proof.
  induction 1 as [|x t _ IH Hx]; cbn; [constructor|]. unfold in_time in *. rewrite Forall_forall in Hx.
  assert (Hx' : Forall (fun y => at_ y <= at_ x) (rev t)) by (apply Forall_forall; intros y Hy; apply Hx; by rewrite (Permutation_rev t)).
  clear Hx. revert IH Hx'. generalize (rev t). induction 1 as [|y t' _ IH Hy]; intros Hx; cbn; [by repeat constructor|].
  apply Forall_cons in Hx as [Hxy Hx]. constructor; [by apply IH|]. apply Forall_app. split; [done|]. by repeat constructor.
Qed.
Lemma in_time_at i (f : MessageView -> MessageView) l : (forall m, mv_at (f m) = mv_at m) -> in_time mv_at l -> in_time mv_at (alter f i l).
Proof.
  intros Hf Hl. assert (Hall : forall (p : Z -> Prop) l i, Forall (fun m => p (mv_at m)) l -> Forall (fun m => p (mv_at m)) (alter f i l)).
  { intros p l0. induction l0 as [|m t IH]; intros [|j]; try done; intros [Hm Ht]%Forall_cons; cbn; constructor; rewrite ?Hf; auto. }
  revert i. induction Hl as [|m t Ht IH Hm]; intros [|i]; cbn; try (by constructor).
  - constructor; [done|]. eapply Forall_impl; [exact Hm|]. cbn. intros y. by rewrite Hf.
  - constructor; [by apply IH|]. by apply (Hall (fun z => mv_at m <= z)).
Qed.
Lemma in_time_fold {X} (at_ : gmap string nat) (id : X -> string) (f : X -> MessageView -> MessageView) xs l :
  (forall x m, mv_at (f x m) = mv_at m) -> in_time mv_at l ->
  in_time mv_at (foldl (fun l x => at_place at_ (id x) (f x) l) l xs).
Proof.
  intros Hf. revert l. induction xs as [|x xs IH]; intros l Hl; [done|]. cbn. apply IH. unfold at_place.
  destruct (at_ !! id x); [|done]. by apply in_time_at.
Qed.
Lemma messages_view_in_time p evs zaps : in_time ev_created_at evs -> in_time mv_at (messages_view p evs zaps).
Proof.
  intros H. unfold messages_view. apply (in_time_fold _ (fun z => id_to_hex z.1) (fun z => with_zaps _ _)); [done|].
  apply (in_time_fold _ rv_message with_reaction); [done|]. eapply in_time_omap; [|exact H].
  intros e m. unfold message_view. destruct (negb _); [done|]. cbn. destruct (group_of e); [|done]. cbn.
  destruct (channel_of e); [|done]. by intros [= <-].
Qed.
Lemma messages_in_time n g c l : healthy n -> (messages_of g c n).2 = Ok l -> in_time mv_at l.
Proof.
  intros [Hn _]. unfold messages_of, channel_events, bind, get, lift. cbv beta iota.
  set (f := tag_filter [CHAT_MESSAGE; REACTION] "h" {[pk_to_hex g]}).
  destruct (query_held (n_store n) f (k_wf _ _ _ _ Hn) (k_dated _ _ _ _ Hn)) as (all & Hq & Hs & _); [|done|].
  { split; [done|]. split; [done|]. intros nv Hnv. by apply list_elem_of_singleton in Hnv as ->. }
  rewrite Hq. cbn [f f_limit limited tag_filter ret]. cbv beta iota. unfold ret. destruct (NodeOps.zap_totals _ n) as [n' [z|e]]; [|done]. intros [= <-]. apply messages_view_in_time, in_time_rev.
  assert (Ht : StronglySorted (fun a b => ev_created_at b <= ev_created_at a) all).
  { clear Hq. induction Hs as [|e t _ IH He]; constructor; [done|]. eapply Forall_impl; [exact He|]. cbn. unfold StoreSpec.newer. intros x. lia. }
  clear Hq Hs. induction Ht as [|e t _ IH He]; cbn; [constructor|]. destruct (bool_decide _); [|done]. constructor; [done|].
  apply Forall_forall. intros x [Hx _]%filter_elem. rewrite Forall_forall in He. auto.
Qed.
Lemma dms_in_time n l : (dms_view n).2 = Ok l -> in_time dw_at l.
Proof.
  unfold dms_view, dms, bind, get, lift. cbv beta iota.
  destruct (query (n_store n) (tag_filter [GIFT_WRAP] "p" {[pk_to_hex (me n)]})) as [ws|]; [|done]. cbn. intros [= <-].
  set (l := first_of _ _ _). assert (H : in_time dm_at (isort dm_leb l)).
  { assert (H : StronglySorted (fun a b => Is_true (dm_leb a b)) (isort dm_leb l)).
    { apply isort_sorted; unfold dm_leb.
      - intros x y. rewrite !orb_true_iff, !andb_true_iff, !Z.ltb_lt, !Z.eqb_eq.
        destruct (Z.lt_total (dm_at x) (dm_at y)) as [?|[?|?]]; [by left; left| |by right; left].
        destruct (id_leb_total (dm_id x) (dm_id y)); [left|right]; right; auto.
      - intros x y z. rewrite !orb_true_iff, !andb_true_iff, !Z.ltb_lt, !Z.eqb_eq.
        intros [?|[? H1]] [?|[? H2]]; [left; lia..|]. right. split; [lia|]. by eapply id_leb_trans. }
    induction H as [|d t _ IH Hd]; constructor; [done|]. eapply Forall_impl; [exact Hd|]. cbn. intros x Hx%Is_true_true.
    unfold dm_leb in Hx. rewrite orb_true_iff, andb_true_iff, Z.ltb_lt, Z.eqb_eq in Hx. lia. }
  revert H. generalize (isort dm_leb l). induction 1 as [|d t _ IH Hd]; cbn; constructor; [done|]. apply Forall_fmap.
  eapply Forall_impl; [exact Hd|]. intros x. unfold dm_view. cbn. by repeat case_match.
Qed.

(** ** The app, as the window relies on it *)
Section Laws.
Context (key_text : KeyError -> string) (os : Os) (net : Sync.Net) (made : Keys) (code : string).
Context (Hc : clock_ok (os_env os)) (Hf : fair net).
Lemma told_run {X} (m : AppM X) a : (told key_text m a).1 = (m a).1 /\ forall x, (told key_text m a).2 = Ok x -> (m a).2 = Ok x.
Proof. unfold told. destruct (m a) as [b [x|e]]; cbn; split; try done. by intros y [= ->]. Qed.
Lemma told_right {X} (m : AppM X) : holds_right m -> keeps_right node_right (told key_text m).
Proof. intros Hm a Ha. rewrite (proj1 (told_run m a)). by apply Hm. Qed.
Lemma told_pressed {X} (m : AppM X) : (forall a, presses os net a (m a).1) -> keeps_right node_right (told key_text m).
Proof. intros Hm. apply told_right. intros a Ha. exact (presses_hold os net Hc Hf a _ (Hm a) Ha). Qed.
Lemma on_node_run {X} (m : M X) (a : App) x : (on_node m a).2 = Ok x ->
  exists r, ap_running a = Some r /\ (m (ru_node r)).2 = Ok x.
Proof.
  unfold on_node, on_running. destruct (ap_running a) as [r|]; [|done]. destruct (m (ru_node r)) as [n [y|e]] eqn:E; cbn; [|done].
  intros [= <-]. exists r. by rewrite E.
Qed.
Lemma app_messages_in_time g c a l : node_right a -> (app_messages g c a).2 = Ok l -> in_time mv_at l.
Proof.
  intros Ha. unfold app_messages, in_group, a_bind. pose proof (holds_node_get a Ha) as H1.
  destruct (node a) as [a1 [n|e]]; [|done]. pose proof (holds_key g a1 H1) as H2. destruct (parse_key g a1) as [a2 [k|e]]; [|done].
  intros (r & Hr & Hm)%on_node_run. by apply (messages_in_time (ru_node r) k c); [apply H2|].
Qed.
Definition app_laws : CoreLaws (CO := app_core key_text os net made code) App.
Proof.
  refine (Build_CoreLaws _ (app_core key_text os net made code) node_right _ _ _ _ _ _ _ _ _ _ _ _ _ _ _ _ _ _ _ _ _ _ _ _ _ _ _ _ _ _); intros.
  all: first [apply told_pressed; by constructor | idtac].
  - apply told_right, holds_status.
  - apply told_right, holds_groups.
  - apply told_right, holds_in_group. intros k. apply preserves_members.
  - apply told_right, holds_in_group. intros k. apply preserves_roles.
  - apply told_right, holds_in_group. intros k. apply preserves_bans.
  - apply told_right, holds_in_group. intros k. apply preserves_messages.
  - apply told_right, holds_app_names.
  - apply told_right, holds_present.
  - apply told_right, holds_unread.
  - apply told_right, holds_dms.
  - apply told_right, holds_dm_unread.
  - apply told_right, holds_totals.
  - apply told_right, holds_voice_view.
  - match goal with H : _ = Ok l |- _ => apply (proj2 (told_run (app_messages g c) a)) in H; by eapply app_messages_in_time end.
  - match goal with H : _ = Ok l |- _ => apply (proj2 (told_run app_dms a)) in H; apply on_node_run in H as (r & _ & H); by eapply dms_in_time end.
Defined.
End Laws.

(** The window over the app: a click or an event at some moment, with that
    moment's clock, peers and draws. *)
Inductive lives : State * App -> State * App -> Prop :=
| l_moment key_text os net made code (Hc : clock_ok (os_env os)) (Hf : fair net) c c' :
    @happens App (app_core key_text os net made code) (app_laws key_text os net made code Hc Hf) c c' -> lives c c'.
(** C16. The window over the app: from a new window on a right node, whatever is
    clicked and told at whatever moments, messages and direct messages are
    listed in order of time, and the node stays right. *)
Theorem window_in_time a s b : node_right a -> rtc lives (new_window, a) (s, b) ->
  in_time mv_at (w_messages s) /\ in_time dw_at (w_dms s) /\
  forall r, ap_running b = Some r -> node_ok (ru_node r) /\ book_wf (n_book (ru_node r)).
Proof.
  intros Ha H. enough (E : node_right (s, b).2 /\ ordered (s, b).1) by (destruct E as [Hb [Hm Hd]]; auto).
  assert (Ho : ordered (new_window, a).1) by (split; constructor). assert (Hr : node_right (new_window, a).2) by exact Ha.
  clear Ha. induction H as [c|c c1 c' Hstep _ IH]; [done|]. destruct Hstep as [key_text os net made code Hc Hf c c1 Hstep].
  destruct (@happens_kept App (app_core key_text os net made code) (app_laws key_text os net made code Hc Hf) c c1 Hstep Hr Ho). auto.
Qed.
End AppRight.
