(* ===== verification/Dialog.v ===== *)
(** The profile and the zap dialogs of the window ([crates/hit-desktop/src]):
    what they ask of the app and say ([chat/zaps.rs]), and the zap dialog on
    screen ([main.rs], [ui/dialogs.slint]) - a form, the tasks its clicks start,
    and what each task puts back when it is done.

    A task is where it stands between two of its awaits; which one goes on next
    is anything.  The profile dialog's fields are set whole and read by nobody,
    so of it only what is asked and said is here. *)
From coqutil Require Import Datatypes.RecordSetters.
From S2P Require Import Prelude Text Nostr GroupEvent Replace Perm Zap GroupState Fold.
From S2P Require Import Binding Dm Groups EventStore Proto Person Node NodeOps NodeGroups Session Relay Sync Audio Voice.
From S2P Require Import Lightning Wallet App Views Chat Publish Shown Core Window.
Import DoubleBraceUpdate.

#[local] Open Scope string_scope.
#[local] Open Scope Z_scope.
#[local] Open Scope list_scope.

(** What the dialogs ask of the app. *)
Class DialogCore (A : Type) := {
  dc_wallet_view : A -> A * result string WalletView;
  dc_inbox : A -> A * result string InboxView;
  dc_contact_link : A -> A * result string string;
  dc_publishes : A -> bool;
  dc_public_relays : A -> list string;
  dc_lists_groups : A -> bool;
  dc_set_lightning_address : string -> A -> A * result string WalletView;
  dc_connect_wallet : string -> A -> A * result string WalletView;
  dc_disconnect_wallet : A -> A * result string WalletView;
  dc_set_inbox : bool -> A -> A * result string InboxView;
  dc_set_public_relays : list string -> A -> A * result string (list string);
  dc_set_list_groups : bool -> A -> A * result string unit;
  dc_backup_to_file : string -> string -> A -> A * result string unit;
  dc_zap_quote : string -> string -> Z -> A -> A * result string ZapQuoteView;
  dc_zap : string -> string -> Z -> string -> bool -> A -> A * result string ZapSent;
  dc_zap_invoice : string -> string -> Z -> string -> bool -> A -> A * result string InvoiceView;
  dc_zap_wait : A -> A * result string bool;
  dc_zap_fee_invoice : A -> A * result string (option InvoiceView);
}.
(** The [qrcode] crate: the modules of a text's code and how many in a row, dark
    or not, row by row; and [str::to_uppercase]. *)
Class QrTypes := { qr_code : string -> result string (nat * list bool); to_uppercase : string -> string }.

(** ** Words *)
Record ProfileUi := mkProfileUi {
  pf_loaded : bool; pf_name : string; pf_npub : string; pf_device : string; pf_relays : bool; pf_contact : string;
  pf_address : string; pf_zappable : bool; pf_connected : bool; pf_wallet_relays : string;
  pf_fee_on : bool; pf_fee_percent : Z; pf_fee_min : Z;
  pf_inbox_loaded : bool; pf_inbox_enabled : bool; pf_inbox_available : Z; pf_min_password : Z;
  pf_publishes : bool; pf_public_relays : string; pf_lists_groups : bool }.
Definition no_profile : ProfileUi :=
  mkProfileUi false "" "" "" false "" "" false false "" false 0 0 false false 0 0 false "" false.
Record QuoteText := mkQuoteText { qt_quote : string; qt_fee_note : string; qt_privacy : string; qt_total : string; qt_wallet : bool }.
Record WalletZap := mkWalletZap { wz_result : string; wz_counted : bool; wz_fee : Z }.
(** Pixels row by row, black or white, and how many in a row. *)
Record Qr := mkQr { im_side : nat; im_dark : list bool }.
Record Invoice := mkInvoice { in_bolt11 : string; in_sats : string; in_qr : Qr }.
(** [i32::try_from(_).unwrap_or(d)]. *)
Definition i32_or (d n : Z) : Z := if 2147483647 <? n then d else n.

Definition quote_line (who : string) (amount fee total : Z) : string :=
  if 0 <? fee then sats amount +:+ " sats to " +:+ who +:+ str_of_bytes [32; 194; 183; 32] +:+ sats fee +:+ " sats HIT_ENTER fee"
                   +:+ str_of_bytes [32; 194; 183; 32] +:+ sats total +:+ " total"
  else sats amount +:+ " sats to " +:+ who.
Definition quote_note (who : string) (amount fee : Z) : string :=
  if 0 <? fee then who +:+ " gets exactly " +:+ sats amount +:+ ". The fee is a separate payment, after the zap; if it fails, the zap stands."
  else "".
Definition privacy_of (q : ZapQuoteView) : string :=
  "A zap is public by nature: " +:+ zq_address q +:+ "'s server sees who you are (unless anonymous), the amount, your comment and which message this is, and your IP address. Its receipt goes to "
    +:+ joined ", " (zq_relays q) +:+ ".".
Definition quote_text (who : string) (q : ZapQuoteView) : QuoteText :=
  mkQuoteText (quote_line who (zq_amount q) (zq_fee q) (zq_total q)) (quote_note who (zq_amount q) (zq_fee q)) (privacy_of q)
    (sats (zq_total q)) (zq_wallet q).
Definition zapped (amount : Z) (who : string) : string := "Zapped " +:+ sats amount +:+ " sats to " +:+ who +:+ ".".
(** [[…]] in UTF-8. *)
Definition dots : string := str_of_bytes [226; 128; 166].

(** ** An invoice's code, as pixels *)
Definition SCALE : nat := 4.
Definition QUIET : nat := 4.
(** [None] is an index out of bounds. *)
Definition module_at (n : nat) (colors : list bool) (x y : nat) : option bool :=
  if Nat.leb QUIET x && Nat.leb QUIET y && Nat.ltb x (n + QUIET) && Nat.ltb y (n + QUIET)
  then colors !! ((y - QUIET) * n + (x - QUIET))%nat else Some false.
Definition pixels_of (n : nat) (colors : list bool) : option (list bool) :=
  let side := ((n + 2 * QUIET) * SCALE)%nat in
  mapM (fun i => module_at n colors (i mod side / SCALE)%nat (i / side / SCALE)%nat) (seq 0 (side * side)).

Section Invoice.
Context {QR : QrTypes}.
Definition invoice (inv : InvoiceView) : option (result string Invoice) :=
  match qr_code ("lightning:" +:+ to_uppercase (iv_bolt11 inv)) with
  | Err why => Some (Err why)
  | Ok (n, colors) =>
      let side := ((n + 2 * QUIET) * SCALE)%nat in
      if U32_MAX <? Z.of_nat side then Some (Err "out of range integral type conversion attempted")
      else let! px := pixels_of n colors in Some (Ok (mkInvoice (iv_bolt11 inv) (sats (iv_sats inv)) (mkQr side px)))
  end.
End Invoice.

(** ** Over the app *)
Section Asked.
Context {QR : QrTypes} {A : Type} {CO : Core A} {DC : DialogCore A}.
Notation WinM := (WinM (A := A)).
Notation "'let~' x ':=' e 'in' k" := (w_bind e (fun x => k)) (at level 200, x pattern, e at level 200, k at level 200, right associativity).
Definition look {X} (f : A -> X) : WinM X := fun '(s, a) => ((s, a), f a).
Definition answer {X} (m : WinM (result string X)) (say : X -> string) : WinM (result string string) :=
  let~ r := m in w_ret (match r with Ok x => Ok (say x) | Err why => Err why end).

Definition profile : WinM ProfileUi :=
  let~ st := call_app core_status in
  let~ wallet := call_app dc_wallet_view in
  let~ inbox := call_app dc_inbox in
  let~ contact := ask_app dc_contact_link "" in
  let~ publishes := look dc_publishes in
  let~ relays := look dc_public_relays in
  let~ lists := look dc_lists_groups in
  let st := match st with Ok st => Some st | Err _ => None end in
  let w := match wallet with Ok w => Some w | Err _ => None end in
  let i := match inbox with Ok i => Some i | Err _ => None end in
  w_ret (mkProfileUi (opt_bool w)
    (opt_get "" (let! st := st in su_name st)) (opt_get "" (let! st := st in su_npub st)) (opt_get "" (let! st := st in su_device st))
    (is_some_and st su_relays) contact
    (opt_get "" (let! w := w in wv_address w)) (is_some_and w wv_zappable) (is_some_and w wv_connected)
    (opt_get "" (option_map (fun w => joined ", " (wv_relays w)) w)) (is_some_and w wv_fee_on)
    (opt_get 0 (option_map (fun w => i32_or 0 (wv_fee_percent w)) w)) (opt_get 0 (option_map (fun w => i32_or 0 (wv_fee_min_sats w)) w))
    (opt_bool i) (is_some_and i ib_enabled) (opt_get 0 (option_map (fun i => i32_or 0 (Z.of_nat (length (ib_available i)))) i))
    (opt_get 0 (option_map (fun st => i32_or 2147483647 (su_min_password st)) st))
    publishes (joined ", " relays) lists).

Definition set_address (address : string) : WinM (result string string) :=
  answer (call_app (dc_set_lightning_address (trim address))) (fun _ =>
    if str_is_empty (trim address) then "Lightning address removed." else "Lightning address saved; members see it at their next sync.").
Definition connect_wallet (connection : string) : WinM (result string string) :=
  answer (call_app (dc_connect_wallet (trim connection))) (fun _ => "Wallet connected. The connection string is in your keychain.").
Definition disconnect_wallet : WinM (result string string) :=
  answer (call_app dc_disconnect_wallet) (fun _ => "Wallet disconnected; revoke it in your wallet too.").
Definition toggle_inbox : WinM (result string string) :=
  let~ on := call_app dc_inbox in
  match on with
  | Err why => w_ret (Err why)
  | Ok on => answer (call_app (dc_set_inbox (negb (ib_enabled on)))) (fun now =>
      if ib_enabled now then "Your groups' anchors will keep your DMs while you are away, for 7 days."
      else "Your DMs now wait only on the sender's device until you are back.")
  end.
Definition set_public_relays (relays : string) : WinM (result string string) :=
  answer (call_app (dc_set_public_relays (flat_map (split_on " "%char) (split_on ","%char relays)))) (fun now =>
    match length now with
    | 0%nat => "Your profile goes to no public relay now."
    | 1%nat => "Your profile goes to 1 public relay."
    | n => "Your profile goes to " +:+ show_u (Z.of_nat n) +:+ " public relays."
    end).
Definition toggle_list_groups : WinM (result string string) :=
  let~ on := look dc_lists_groups in
  answer (call_app (dc_set_list_groups (negb on))) (fun _ =>
    if negb on then "Your public groups are listed for people you know." else "Your public groups are no longer listed.").
Definition backup_again (path password : string) : WinM (result string string) :=
  answer (call_app (dc_backup_to_file path password)) (fun _ => "Backup written.").

Definition target : WinM (result string (string * string * string)) := let~ s := cache in w_ret (zap_target s).
Definition zap_quote (amount : Z) : WinM (result string QuoteText) :=
  let~ t := target in
  match t with
  | Err why => w_ret (Err why)
  | Ok (g, id, who) =>
      let~ r := call_app (dc_zap_quote g id amount) in
      w_ret (match r with Ok q => Ok (quote_text who q) | Err why => Err why end)
  end.
Definition zap_from_wallet (now : Timestamp) (amount : Z) (comment : string) (anon : bool) : WinM (result string WalletZap) :=
  let~ t := target in
  match t with
  | Err why => w_ret (Err why)
  | Ok (g, id, who) =>
      let~ r := call_app (dc_zap g id amount comment anon) in
      match r with
      | Err why => w_ret (Err why)
      | Ok sent =>
          let out := (if zs_counted sent then zapped amount who
                      else "Paid " +:+ sats amount +:+ " sats to " +:+ who +:+ ". Waiting for its receipt to reach the group" +:+ dots)
                     +:+ fee_note (zs_fee sent) in
          let~ _ := (if zs_counted sent then let~ _ := zap_totals (Some [id]) in rendered now tt else w_ret tt) in
          w_ret (Ok (mkWalletZap out (zs_counted sent) (zs_fee sent)))
      end
  end.
(** Once it is waited for: the target is whichever is the target then. *)
Definition wallet_zap_counted (now : Timestamp) (counted : bool) (amount fee : Z) : WinM string :=
  let~ t := target in
  match t with
  | Err _ => w_ret ""
  | Ok (_, id, who) =>
      let~ _ := zap_totals (Some [id]) in
      rendered now ((if counted then zapped amount who
        else "Paid " +:+ sats amount +:+ " sats to " +:+ who
             +:+ ", but no receipt has reached the group in two minutes. The zap went; the total appears if the receipt ever does.")
        +:+ fee_note fee)
  end.
(** [None]: a panic. *)
Definition zap_invoice (amount : Z) (comment : string) (anon : bool) : WinM (option (result string Invoice)) :=
  let~ t := target in
  match t with
  | Err why => w_ret (Some (Err why))
  | Ok (g, id, _) =>
      let~ r := call_app (dc_zap_invoice g id amount comment anon) in
      w_ret (match r with Ok inv => invoice inv | Err why => Some (Err why) end)
  end.
Definition zap_waited (now : Timestamp) (counted : bool) (amount : Z) : WinM string :=
  let~ t := target in
  match t with
  | Err _ => w_ret ""
  | Ok (_, id, who) =>
      let~ _ := zap_totals (Some [id]) in
      rendered now (if counted then zapped amount who
        else "No receipt yet. If you paid, the total appears when the group's anchor gets it.")
  end.
Definition zap_fee_invoice : WinM (option (result string (option Invoice))) :=
  let~ r := call_app dc_zap_fee_invoice in
  w_ret (match r with
         | Err why => Some (Err why)
         | Ok None => Some (Ok None)
         | Ok (Some inv) => option_map (fun r => match r with Ok i => Ok (Some i) | Err why => Err why end) (invoice inv)
         end).
End Asked.

(** ** The zap dialog on screen *)
Record ZapUi := mkZapUi {
  zu_step : string; zu_who : string; zu_quote : string; zu_fee_note : string; zu_privacy : string; zu_has_quote : bool;
  zu_wallet : bool; zu_total : string; zu_invoice : string; zu_qr : Qr; zu_invoice_sats : string; zu_result : string }.
Definition no_zap_ui : ZapUi := mkZapUi "" "" "" "" "" false false "" "" (mkQr 0 []) "" "".
(** [ui_settling]: the amount changed less than a quarter of a second ago. *)
Record Ui := mkUi {
  ui_dialog : string; ui_busy : bool; ui_error : string; ui_zap : ZapUi;
  ui_amount : string; ui_comment : string; ui_anon : bool; ui_settling : bool }.
Definition new_ui : Ui := mkUi "" false "" no_zap_ui "1000" "" false false.

(** The amount typed, if it is a whole number of sats above zero. *)
Definition zap_amount (ui : Ui) : option Z :=
  let! a := parse_u64 (concat_str (List.filter (fun c => negb (bool_decide (c = ","))) (chars (trim (ui_amount ui))))) in
  if 0 <? a then Some a else None.

Inductive Task :=
| TOpen (id : string)
| TOpened (who : string)
| TQuote (amount : Z)
| TQuoted (amount : Z) (q : result string QuoteText)
| TWallet (amount : Z) (comment : string) (anon : bool)
| TSent (sent : result string WalletZap)
| TWait (amount fee : Z) (interim : string)
| TCount (counted : bool) (amount fee : Z) (interim : string)
| TCounted (interim result : string)
| TQr (amount : Z) (comment : string) (anon : bool)
| TNoInvoice (why : string)
| TShow (step : string) (inv : Invoice) (result : option string)
| TQrWait (amount : Z)
| TQrCount (counted : bool) (amount : Z)
| TFee (result : string)
| TDone (result : string).

(** *** What is clicked and typed (ui/dialogs.slint, main.rs) *)
Definition zap_quote_clicked (ui : Ui) : Ui * list Task :=
  let ui := ui{{ ui_zap ::= fun z => z{{ zu_has_quote := false }}; ui_error := "" }} in
  match zap_amount ui with
  | None => (ui{{ ui_error := "a whole number of sats, above zero" }}, [])
  | Some amount => (ui, [TQuote amount])
  end.
Definition zap_open (ui : Ui) : bool := bool_decide (ui_dialog ui = "zap").
(** A dialog that is taken down takes its timer along. *)
Definition show_dialog (name : string) (ui : Ui) : Ui :=
  ui{{ ui_settling := ui_settling ui && zap_open ui && bool_decide (name = "zap"); ui_dialog := name }}.
Definition set_amount (text : string) (ui : Ui) : Ui :=
  ui{{ ui_settling := ui_settling ui || (zap_open ui && negb (bool_decide (ui_amount ui = text))); ui_amount := text }}.
Inductive Click :=
| COpen (id : string)
| CAmount (text : string)
| CSettled
| CComment (text : string)
| CAnon (on : bool)
| CWallet
| CQr
| CFeePaid
| CDialog (name : string)
| CElsewhere (busy : bool) (error : string).
Definition picking (ui : Ui) : bool := zap_open ui && bool_decide (zu_step (ui_zap ui) = "pick").
Definition can_qr (ui : Ui) : bool := picking ui && zu_has_quote (ui_zap ui) && negb (ui_busy ui).
Definition can_wallet (ui : Ui) : bool := can_qr ui && zu_wallet (ui_zap ui).
(** A dialog other than this one is opened, or any closed; another's step is
    busy or says why not. *)
Definition click (k : Click) (ui : Ui) : Ui * list Task :=
  match k with
  | COpen id => (ui, [TOpen id])
  | CAmount text => if picking ui then (set_amount text ui, []) else (ui, [])
  | CSettled => if ui_settling ui then zap_quote_clicked (ui{{ ui_settling := false }}) else (ui, [])
  | CComment text => (if picking ui then ui{{ ui_comment := text }} else ui, [])
  | CAnon on => (if picking ui then ui{{ ui_anon := on }} else ui, [])
  | CWallet =>
      match (if can_wallet ui then zap_amount ui else None) with
      | Some amount => (ui{{ ui_busy := true; ui_error := "" }}, [TWallet amount (ui_comment ui) (ui_anon ui)])
      | None => (ui, [])
      end
  | CQr =>
      match (if can_qr ui then zap_amount ui else None) with
      | Some amount => (ui{{ ui_busy := true; ui_error := "" }}, [TQr amount (ui_comment ui) (ui_anon ui)])
      | None => (ui, [])
      end
  | CFeePaid => (if zap_open ui && bool_decide (zu_step (ui_zap ui) = "fee") then ui{{ ui_zap ::= fun z => z{{ zu_step := "done" }} }} else ui, [])
  | CDialog name => (if bool_decide (name = "zap") then ui else show_dialog name ui, [])
  | CElsewhere busy error => (ui{{ ui_busy := busy; ui_error := error }}, [])
  end.

(** *** What a task puts back *)
Definition opened_for (who : string) (ui : Ui) : Ui * list Task :=
  zap_quote_clicked (show_dialog "zap" (set_amount "1000" ui)
    {{ ui_zap := no_zap_ui{{ zu_step := "pick"; zu_who := who }}; ui_comment := ""; ui_anon := false; ui_error := ""; ui_busy := false }}).
Definition quoted (amount : Z) (q : result string QuoteText) (ui : Ui) : Ui :=
  if negb (bool_decide (zap_amount ui = Some amount)) then ui
  else match q with
       | Ok q => ui{{ ui_zap ::= fun z => z{{ zu_has_quote := true; zu_quote := qt_quote q; zu_fee_note := qt_fee_note q;
                                             zu_privacy := qt_privacy q; zu_total := qt_total q; zu_wallet := qt_wallet q }} }}
       | Err why => ui{{ ui_error := why }}
       end.
Definition done (result : string) (ui : Ui) : Ui := ui{{ ui_zap ::= fun z => z{{ zu_step := "done"; zu_result := result }} }}.
Definition was_sent (sent : result string WalletZap) (ui : Ui) : Ui :=
  let ui := ui{{ ui_busy := false }} in
  match sent with Ok z => done (wz_result z) ui | Err why => ui{{ ui_error := why }} end.
Definition was_counted (interim result : string) (ui : Ui) : Ui :=
  if bool_decide (zu_step (ui_zap ui) = "done") && bool_decide (zu_result (ui_zap ui) = interim)
  then ui{{ ui_zap ::= fun z => z{{ zu_result := result }} }} else ui.
Definition show_invoice (step : string) (inv : Invoice) (result : option string) (ui : Ui) : Ui :=
  ui{{ ui_busy := false;
       ui_zap ::= fun z => z{{ zu_step := step; zu_invoice := in_bolt11 inv; zu_invoice_sats := in_sats inv; zu_qr := in_qr inv;
                               zu_result ::= fun old => opt_get old result }} }}.
Definition no_invoice (why : string) (ui : Ui) : Ui := ui{{ ui_busy := false; ui_error := why }}.

(** *** A task goes on *)
Section Tasks.
Context {QR : QrTypes} {A : Type} {CO : Core A} {DC : DialogCore A}.
Notation "'let~' x ':=' e 'in' k" := (w_bind e (fun x => k)) (at level 200, x pattern, e at level 200, k at level 200, right associativity).
Definition waits (k : bool -> Task) : WinM (A := A) (list Task) :=
  let~ r := call_app dc_zap_wait in w_ret [k (match r with Ok b => b | Err _ => false end)].
(** The part of a task on the app, and what is left of it: of a zap from the
    wallet, of one by an invoice, of any. *)
Definition wallet_work (now : Timestamp) (t : Task) : WinM (A := A) (list Task) :=
  match t with
  | TWallet amount comment anon =>
      let~ sent := zap_from_wallet now amount comment anon in
      w_ret (TSent sent :: match sent with
                           | Ok z => if wz_counted z then [] else [TWait amount (wz_fee z) (wz_result z)]
                           | Err _ => []
                           end)
  | TWait amount fee interim => waits (fun counted => TCount counted amount fee interim)
  | TCount counted amount fee interim =>
      let~ result := wallet_zap_counted now counted amount fee in w_ret [TCounted interim result]
  | _ => w_ret []
  end.
Definition qr_work (now : Timestamp) (t : Task) : WinM (A := A) (list Task) :=
  match t with
  | TQr amount comment anon =>
      let~ inv := zap_invoice amount comment anon in
      w_ret (match inv with
             | None => []
             | Some (Ok inv) => [TShow "qr" inv None; TQrWait amount]
             | Some (Err why) => [TNoInvoice why]
             end)
  | TQrWait amount => waits (fun counted => TQrCount counted amount)
  | TQrCount counted amount => let~ result := zap_waited now counted amount in w_ret [TFee result]
  | TFee result =>
      let~ fee := zap_fee_invoice in
      w_ret (match fee with
             | None => []
             | Some (Ok (Some fee)) => [TShow "fee" fee (Some result)]
             | Some (Ok None) => [TDone result]
             | Some (Err why) => [TDone (result +:+ " The fee could not be asked for: " +:+ why)]
             end)
  | _ => w_ret []
  end.
Definition work (now : Timestamp) (t : Task) : WinM (A := A) (list Task) :=
  match t with
  | TOpen id => let~ who := open_zap id in w_ret (option_list (option_map TOpened who))
  | TQuote amount => let~ q := zap_quote amount in w_ret [TQuoted amount q]
  | TWallet _ _ _ | TWait _ _ _ | TCount _ _ _ _ => wallet_work now t
  | TQr _ _ _ | TQrWait _ | TQrCount _ _ | TFee _ => qr_work now t
  | _ => w_ret []
  end.
(** The part on the window. *)
Definition shown (t : Task) (ui : Ui) : Ui * list Task :=
  match t with
  | TOpened who => opened_for who ui
  | TQuoted amount q => (quoted amount q ui, [])
  | TSent sent => (was_sent sent ui, [])
  | TCounted interim result => (was_counted interim result ui, [])
  | TNoInvoice why => (no_invoice why ui, [])
  | TShow step inv result => (show_invoice step inv result ui, [])
  | TDone result => (done result ui, [])
  | _ => (ui, [])
  end.

(** The window, the chat over the app, and the tasks there are. *)
Record Screen := mkScreen { sc_ui : Ui; sc_chat : State * A; sc_tasks : list Task }.
Definition on_click (k : Click) (y : Screen) : Screen :=
  let '(ui, more) := click k (sc_ui y) in mkScreen ui (sc_chat y) (sc_tasks y ++ more).
Definition on_task (now : Timestamp) (i : nat) (y : Screen) : Screen :=
  match sc_tasks y !! i with
  | None => y
  | Some t =>
      let '(ui, started) := shown t (sc_ui y) in
      let '(chat, rest) := work now t (sc_chat y) in
      mkScreen ui chat (delete i (sc_tasks y) ++ started ++ rest)
  end.
End Tasks.

(** ** The app *)
Section AppDialogs.
Context {N : NostrTypes} {O : NostrOps} {T : DeviceTypes} {P : DeviceOps} {C : DmCrypto}.
Context {Y : WireTypes} {F : ProfileTypes} {NT : NodeTypes} {RT : RelayTypes} {ST : SyncTypes}.
Context {OP : Opus} {VT : VoiceTypes} {LT : LnTypes} {WT : WalletTypes} {AT : AppTypes}.
Context {K : Type} {KS : SecretStore K}.
Notation AppM := (AppM (K := K)).
Notation "'let@' x ':=' e 'in' k" := (a_bind e (fun x => k)) (at level 200, x pattern, e at level 200, k at level 200, right associativity).
Definition app_inbox : AppM InboxView := let@ _ := node in on_node inbox_view.
(** At one moment: its clock, the servers, a key thrown away, and how a wait goes. *)
Definition app_dialogs (key_text : KeyError -> string) (os : Os) (web : Web) (moments : Moments) (throwaway : Keys) (rounds : list Round)
    : DialogCore (App (K := K)) := {|
  dc_wallet_view := told key_text wallet_view;
  dc_inbox := told key_text app_inbox;
  dc_contact_link := told key_text (app_contact_link os);
  dc_publishes := publishes;
  dc_public_relays := public_relays;
  dc_lists_groups := ap_list_groups;
  dc_set_lightning_address a := told key_text (set_lightning_address os web a);
  dc_connect_wallet c := told key_text (Publish.connect_wallet c);
  dc_disconnect_wallet := told key_text Publish.disconnect_wallet;
  dc_set_inbox on := told key_text (set_app_inbox os on);
  dc_set_public_relays l := told key_text (Chat.set_public_relays os l);
  dc_set_list_groups on := told key_text (set_list_groups os on);
  dc_backup_to_file path password := told key_text (backup_to_file os path password);
  dc_zap_quote g id amount := told key_text (Publish.zap_quote web g id amount);
  dc_zap g id amount comment anon := told key_text (zap os moments throwaway g id amount comment anon);
  dc_zap_invoice g id amount comment anon := told key_text (zap_invoice_view os web throwaway g id amount comment anon);
  dc_zap_wait := told key_text (zap_wait os rounds);
  dc_zap_fee_invoice := told key_text (Publish.zap_fee_invoice web);
|}.
End AppDialogs.
