(* ===== verification/DialogSpec.v ===== *)
(** What the zap dialog shows is what a press of its button pays, and for whom
    it is said to be; the pixels of an invoice's code. *)
From coqutil Require Import Datatypes.RecordSetters.
From stdpp Require Import relations.
From S2P Require Import Prelude Text Nostr GroupEvent Replace Perm Zap GroupState Fold.
From S2P Require Import Binding Dm Groups EventStore Proto Person Node NodeOps NodeGroups Session Relay Sync Audio Voice.
From S2P Require Import Lightning Wallet WalletSpec App Views Chat Publish Shown Core Window Dialog.
Import DoubleBraceUpdate.

#[local] Open Scope string_scope.
#[local] Open Scope Z_scope.
#[local] Open Scope list_scope.

(** The fee on so many sats. *)
Definition fee_of (amount : Z) : Z := if opt_bool fee_address then fee_for amount else 0.
(** Both together, as a [u64] adds them. *)
Definition total_of (amount : Z) : Z := add_u64 amount (fee_of amount).
Lemma total_is amount : 0 < amount -> amount + fee_of amount <= U64_MAX -> total_of amount = amount + fee_of amount.
Proof.
  intros Ha Hs. unfold total_of, add_u64. apply Z.mod_small. split; [|lia]. unfold fee_of. destruct (opt_bool fee_address); [|lia].
  destruct (fee_for_bound amount); lia.
Qed.
(** What the dialog relies on of the app: a quote is of what was asked, with the
    fee on top; a zap is charged that fee, an invoice is for that amount. *)
Class DialogLaws (A : Type) {DC : DialogCore A} := {
  dl_quote g id amount a q : (dc_zap_quote g id amount a).2 = Ok q ->
    zq_amount q = amount /\ zq_fee q = fee_of amount /\ zq_total q = total_of amount;
  dl_zap g id amount comment anon a sent : (dc_zap g id amount comment anon a).2 = Ok sent -> zs_fee sent = fee_of amount;
  dl_invoice g id amount comment anon a inv : (dc_zap_invoice g id amount comment anon a).2 = Ok inv -> iv_sats inv = amount }.

(** ** The form *)
Record tells (amount : Z) (quote total : string) : Prop := {
  ts_quote : exists who, quote = quote_line who amount (fee_of amount) (total_of amount);
  ts_total : total = sats (total_of amount) }.
(** A quote on a dialog that is open and settled is for the amount typed. *)
Definition in_step (ui : Ui) : Prop :=
  ui_dialog ui = "zap" -> zu_has_quote (ui_zap ui) = true -> ui_settling ui = false ->
  exists amount, zap_amount ui = Some amount /\ tells amount (zu_quote (ui_zap ui)) (zu_total (ui_zap ui)).
Definition honest (t : Task) : Prop :=
  match t with
  | TQuoted amount (Ok q) => tells amount (qt_quote q) (qt_total q)
  | _ => True
  end.
Lemma zap_amount_pos ui n : zap_amount ui = Some n -> 0 < n.
Proof. unfold zap_amount. destruct (parse_u64 _); cbn; [|done]. destruct (Z.ltb_spec 0 z); [|done]. by intros [= <-]. Qed.
(** Of the form only what the dialog says depends on. *)
Lemma in_step_keeps ui ui' : in_step ui -> ui_dialog ui' = ui_dialog ui -> ui_settling ui' = ui_settling ui -> ui_amount ui' = ui_amount ui ->
  zu_has_quote (ui_zap ui') = zu_has_quote (ui_zap ui) -> zu_quote (ui_zap ui') = zu_quote (ui_zap ui) ->
  zu_total (ui_zap ui') = zu_total (ui_zap ui) -> in_step ui'.
Proof. intros H H1 H2 H3 H4 H5 H6. unfold in_step, zap_amount in *. by rewrite H1, H2, H3, H4, H5, H6. Qed.
Lemma clicked_in_step ui : in_step (zap_quote_clicked ui).1 /\ Forall honest (zap_quote_clicked ui).2.
Proof.
  unfold zap_quote_clicked. cbv zeta. match goal with |- context [zap_amount ?u] => set (ui' := u) end.
  destruct (zap_amount ui') as [n|] eqn:En; cbn [fst snd].
  - split; [intros _ [=]|]. constructor; [|constructor]. cbn. apply zap_amount_pos in En. lia.
  - split; [intros _ [=]|constructor].
Qed.
Lemma click_in_step k ui : in_step ui -> in_step (click k ui).1 /\ Forall honest (click k ui).2.
Proof.
  intros H. destruct k as [id|text| |text|on| | | |name|busy error]; cbn [click].
  - split; [done|]. by constructor.
  - destruct (picking ui) eqn:Ep; [|by split]. split; [|constructor]. unfold set_amount. cbn.
    unfold picking in Ep. apply andb_prop in Ep as [Eo _]. rewrite Eo. cbn [andb].
    intros H1 H2 H3. cbn in H1, H2, H3. apply orb_false_elim in H3 as [H3 H4].
    apply negb_false_iff, bool_decide_eq_true in H4. specialize (H H1 H2 H3). unfold zap_amount in *. cbn in *. by rewrite <- H4.
  - destruct (ui_settling ui); [apply clicked_in_step|by split].
  - split; [|constructor]. destruct (picking ui); [|done]. by eapply in_step_keeps.
  - split; [|constructor]. destruct (picking ui); [|done]. by eapply in_step_keeps.
  - case_match; [|by split]. split; [by eapply in_step_keeps|by constructor].
  - case_match; [|by split]. split; [by eapply in_step_keeps|by constructor].
  - split; [|constructor]. destruct (_ && _); [|done]. by eapply in_step_keeps.
  - split; [|constructor]. cbn. case_bool_decide as En; [done|]. intros H1. cbn in H1. by subst.
  - split; [|constructor]. by eapply in_step_keeps.
Qed.
Lemma shown_in_step t ui : honest t -> in_step ui -> in_step (shown t ui).1 /\ Forall honest (shown t ui).2.
Proof.
  intros Ht H. destruct t; cbn [shown]; try by split.
  - apply clicked_in_step.
  - split; [|constructor]. unfold quoted. cbn. case_bool_decide as Ea; cbn [negb]; [|done].
    destruct q as [q|why]; [|by eapply in_step_keeps]. intros _ _ _. exists amount. split; [exact Ea|exact Ht].
  - split; [|constructor]. unfold was_sent. cbn. destruct sent; by eapply in_step_keeps.
  - split; [|constructor]. unfold was_counted. cbn. destruct (_ && _); [|done]. by eapply in_step_keeps.
Qed.

(** ** Its run *)
Section Run.
Context {QR : QrTypes} {A : Type}.
(** What is clicked; a task that goes on, at some moment, over an app that keeps
    its laws; and whatever else becomes of the chat meanwhile. *)
Inductive dialogs : Screen (A := A) -> Screen (A := A) -> Prop :=
| d_click k y : dialogs y (on_click k y)
| d_task {CO : Core A} {DC : DialogCore A} {DL : DialogLaws A} now i y : dialogs y (on_task now i y)
| d_chat c y : dialogs y (mkScreen (sc_ui y) c (sc_tasks y)).
Definition screen_right (y : Screen (A := A)) : Prop := in_step (sc_ui y) /\ Forall honest (sc_tasks y).
Lemma work_honest {CO : Core A} {DC : DialogCore A} {DL : DialogLaws A} now t c : honest t -> Forall honest (work now t c).2.
Proof.
  intros Ht. assert (Hw : forall k, (forall b, honest (k b)) -> Forall honest (waits k c).2).
  { intros k Hk. unfold waits, w_bind, call_app, w_ret. destruct c as [s a]. destruct (dc_zap_wait a). cbn. by repeat constructor. }
  destruct t; cbn [work wallet_work qr_work]; try apply Hw; try done; unfold w_bind, w_ret; cbn [snd]; try (by constructor).
  - destruct (open_zap id c) as [c' [who|]]; cbn; by repeat constructor.
  - unfold zap_quote, target, w_bind, w_ret, cache. destruct c as [s a]. cbn.
    destruct (zap_target s) as [[[g id] who]|why]; cbn; [|by repeat constructor].
    destruct (dc_zap_quote g id amount a) as [a' [q|why]] eqn:Eq; cbn; [|by repeat constructor].
    destruct (dl_quote g id amount a q ltac:(by rewrite Eq)) as (H1 & H2 & H3).
    constructor; [|constructor]. cbn. unfold quote_text. cbn. rewrite H1, H2, H3. split; [by exists who|done].
  - destruct (zap_from_wallet now amount comment anon c) as [c' [z|why]]; cbn; [destruct (wz_counted z)|]; by repeat constructor.
  - destruct (wallet_zap_counted _ _ _ _ c). by repeat constructor.
  - destruct (zap_invoice amount comment anon c) as [c' [[inv|why]|]]; by repeat constructor.
  - destruct (zap_waited _ _ _ c). by repeat constructor.
  - destruct (zap_fee_invoice c) as [c' [[[inv|]|why]|]]; by repeat constructor.
Qed.
Lemma dialogs_right y y' : dialogs y y' -> screen_right y -> screen_right y'.
Proof.
  intros Hs [Hu Ht]. destruct Hs as [k y|CO DC DL now i y|c y]; [| |done].
  - unfold on_click. pose proof (click_in_step k (sc_ui y) Hu) as [H1 H2]. destruct (click k (sc_ui y)) as [ui more].
    split; [exact H1|]. by apply Forall_app.
  - unfold on_task. destruct (sc_tasks y !! i) as [t|] eqn:Ei; [|done].
    assert (Hh : honest t) by (eapply Forall_lookup_1; [exact Ht|exact Ei]).
    pose proof (shown_in_step t (sc_ui y) Hh Hu) as [H1 H2]. destruct (shown t (sc_ui y)) as [ui started].
    pose proof (work_honest now t (sc_chat y) Hh) as H3. destruct (work now t (sc_chat y)) as [chat rest].
    split; [exact H1|]. repeat (apply Forall_app; split); [by apply Forall_delete|exact H2|exact H3].
Qed.
Lemma then_ret {X Z} (m : WinM (A := A) X) (z : Z) c : (w_bind m (fun _ => w_ret z) c).2 = z.
Proof. unfold w_bind. by destruct (m c). Qed.
Lemma wallet_fee {CO : Core A} {DC : DialogCore A} {DL : DialogLaws A} now amount comment anon c z :
  (zap_from_wallet now amount comment anon c).2 = Ok z -> wz_fee z = fee_of amount.
Proof.
  destruct c as [s a]. unfold zap_from_wallet, target. unfold w_bind at 1 2, cache, w_ret at 1.
  destruct (zap_target s) as [[[g id] who]|why]; [|done]. unfold w_bind at 1, call_app.
  destruct (dc_zap g id amount comment anon a) as [a' [sent|why]] eqn:Ez; [|done].
  rewrite then_ret. intros [= <-]. apply (dl_zap g id amount comment anon a sent). by rewrite Ez.
Qed.
Lemma invoice_sats {CO : Core A} {DC : DialogCore A} {DL : DialogLaws A} amount comment anon c inv :
  (zap_invoice amount comment anon c).2 = Some (Ok inv) -> in_sats inv = sats amount.
Proof.
  destruct c as [s a]. unfold zap_invoice, target, w_bind, w_ret, cache. cbn. destruct (zap_target s) as [[[g id] who]|why]; cbn; [|done].
  destruct (dc_zap_invoice g id amount comment anon a) as [a' [iv|why]] eqn:Ez; cbn; [|done].
  pose proof (dl_invoice g id amount comment anon a iv ltac:(by rewrite Ez)) as Hf. unfold invoice.
  destruct (qr_code _) as [[m colors]|]; [|done]. destruct (_ <? _); [done|]. destruct (pixels_of m colors); cbn; [|done].
  intros [= <-]. cbn. by rewrite Hf.
Qed.
Definition start (c : State * A) : Screen := mkScreen new_ui c [].
Lemma run_right c y : rtc dialogs (start c) y -> screen_right y.
Proof.
  intros H. assert (H0 : screen_right (start c)) by (split; [by intros [=]|constructor]).
  induction H as [|x y z Hs _ IH]; [done|]. eauto using dialogs_right.
Qed.

(** C29. What the button says is what it pays.  From a new window, whatever is
    clicked and typed, however the tasks interleave and the chat changes: on an
    open dialog whose amount was not changed within the last quarter of a second,
    a quote that stands is for the amount typed - so many sats, the fee on them
    and the two as a [u64] adds them, which is both together if they fit one, as
    they do for any amount of sats there are - and pressing the button asks the app for a zap of just
    that amount, of which the app charges just that fee; the invoice of the code
    is for just that amount. *)
Theorem says_what_it_pays c y : rtc dialogs (start c) y ->
  ui_dialog (sc_ui y) = "zap" -> zu_has_quote (ui_zap (sc_ui y)) = true -> ui_settling (sc_ui y) = false ->
  exists amount who, zap_amount (sc_ui y) = Some amount /\ 0 < amount /\
    zu_total (ui_zap (sc_ui y)) = sats (total_of amount) /\
    (amount + fee_of amount <= U64_MAX -> total_of amount = amount + fee_of amount) /\
    zu_quote (ui_zap (sc_ui y)) = quote_line who amount (fee_of amount) (total_of amount) /\
    (can_wallet (sc_ui y) = true ->
       sc_tasks (on_click CWallet y) = sc_tasks y ++ [TWallet amount (ui_comment (sc_ui y)) (ui_anon (sc_ui y))]) /\
    (can_qr (sc_ui y) = true ->
       sc_tasks (on_click CQr y) = sc_tasks y ++ [TQr amount (ui_comment (sc_ui y)) (ui_anon (sc_ui y))]) /\
    forall (CO : Core A) (DC : DialogCore A) (DL : DialogLaws A) now comment anon c',
      (forall z, (zap_from_wallet now amount comment anon c').2 = Ok z -> wz_fee z = fee_of amount) /\
      (forall inv, (zap_invoice amount comment anon c').2 = Some (Ok inv) -> in_sats inv = sats amount).
Proof.
  intros H Ho Hq Hs. destruct (run_right c y H) as [Hu _]. destruct (Hu Ho Hq Hs) as (n & Hn & (who & Hw) & Ht).
  exists n, who. split; [exact Hn|]. split; [by eapply zap_amount_pos|]. split; [exact Ht|].
  split; [apply total_is; by eapply zap_amount_pos|]. split; [exact Hw|].
  split; [|split].
  - intros Hc. unfold on_click. cbn [click]. by rewrite Hc, Hn.
  - intros Hc. unfold on_click. cbn [click]. by rewrite Hc, Hn.
  - intros CO DC DL now comment anon c'. split; [intros z; apply wallet_fee|intros inv; apply invoice_sats].
Qed.
End Run.

(** ** The code *)
(** A code drawn is a square of its modules, each four pixels wide and high,
    with four modules of white all around; no index is out of bounds. *)
Definition dark_at (n : nat) (colors : list bool) (x y : nat) : bool :=
  (QUIET <=? x)%nat && (QUIET <=? y)%nat && (x <? n + QUIET)%nat && (y <? n + QUIET)%nat
  && opt_get false (colors !! ((y - QUIET) * n + (x - QUIET))%nat).
Lemma module_in_bounds n colors x y : length colors = (n * n)%nat -> module_at n colors x y = Some (dark_at n colors x y).
Proof.
  intros Hl. unfold module_at, dark_at. destruct (_ && _) eqn:E; [|done]. cbn [andb].
  rewrite !andb_true_iff, !Nat.leb_le, !Nat.ltb_lt in E. destruct E as [[[H1 H2] H3] H4].
  destruct (lookup_lt_is_Some_2 colors ((y - QUIET) * n + (x - QUIET))) as [b ->]; [|done].
  pose proof (Nat.mul_le_mono_r (S (y - QUIET)) n n ltac:(lia)). lia.
Qed.
Theorem code_drawn n colors : length colors = (n * n)%nat ->
  let side := ((n + 2 * QUIET) * SCALE)%nat in
  exists px, pixels_of n colors = Some px /\ length px = (side * side)%nat /\
    forall x y, (x < side)%nat -> (y < side)%nat -> px !! (y * side + x)%nat = Some (dark_at n colors (x / SCALE) (y / SCALE)).
Proof.
  intros Hl side. unfold pixels_of. fold side.
  exists (map (fun i => dark_at n colors (i mod side / SCALE) (i / side / SCALE)) (seq 0 (side * side))).
  split; [|split].
  - apply mapM_Some_2. induction (seq 0 (side * side)) as [|i t IH]; cbn; constructor; auto using module_in_bounds.
  - by rewrite length_map, length_seq.
  - intros x y Hx Hy. rewrite list_lookup_fmap, lookup_seq_lt by nia. cbn.
    rewrite (Nat.add_comm (y * side)), Nat.Div0.mod_add, (Nat.mod_small x) by lia.
    rewrite Nat.div_add, (Nat.div_small x) by lia. done.
Qed.

(** ** The app keeps the laws *)
Section AppLaws.
Context {N : NostrTypes} {O : NostrOps} {T : DeviceTypes} {P : DeviceOps} {C : DmCrypto}.
Context {Y : WireTypes} {F : ProfileTypes} {NT : NodeTypes} {RT : RelayTypes} {ST : SyncTypes}.
Context {OP : Opus} {VT : VoiceTypes} {LT : LnTypes} {WT : WalletTypes} {AT : AppTypes}.
Context {K : Type} {KS : SecretStore K}.
Notation AppM := (AppM (K := K)).

(** Whatever it answers is [Q]. *)
Definition gives {X} (m : AppM X) (Q : X -> Prop) : Prop := forall a b x, m a = (b, Ok x) -> Q x.
Lemma gives_ret {X} (x : X) Q : Q x -> gives (a_ret x) Q.
Proof. by intros H a b y [= _ <-]. Qed.
Lemma gives_fail {X} e (Q : X -> Prop) : gives (a_fail e) Q.
Proof. by intros a b x [=]. Qed.
Lemma gives_bind {X Z} (m : AppM X) (k : X -> AppM Z) R Q : gives m R -> (forall x, R x -> gives (k x) Q) -> gives (a_bind m k) Q.
Proof.
  intros Hm Hk a b z. unfold a_bind. destruct (m a) as [c [x|e]] eqn:E; [|done]. apply Hk. by eapply Hm.
Qed.
Lemma gives_then {X Z} (m : AppM X) (k : X -> AppM Z) Q : (forall x, gives (k x) Q) -> gives (a_bind m k) Q.
Proof. intros H. by apply (gives_bind m k (fun _ => True)). Qed.
Lemma gives_ln {X} (r : result LnError X) Q : (forall x, r = Ok x -> Q x) -> gives (of_ln r) Q.
Proof. intros H. destruct r; [by apply gives_ret, H|apply gives_fail]. Qed.
Lemma quote_of_amount web a amount q : quote fee_address web a amount = Ok q -> qu_amount_sats q = amount /\ qu_fee_sats q = fee_of amount.
Proof.
  unfold quote. destruct (pay_params web a); [|done]. destruct (ok_or _ _); [|done]. cbn. destruct (negb _); [|done]. by intros [= <-].
Qed.
Definition for_amount (amount : Z) (z : PublicKey * Quote * list string) : Prop :=
  qu_amount_sats z.1.2 = amount /\ qu_fee_sats z.1.2 = fee_of amount.
Lemma gives_prepared web g m amount : gives (prepare_zap web g m amount) (for_amount amount).
Proof.
  unfold prepare_zap. do 4 (apply gives_then; intros ?). case_match; [|apply gives_fail]. cbv zeta. case_bool_decide; [apply gives_fail|].
  apply gives_then. intros lud. case_match; [|apply gives_fail]. case_match. case_match; [|apply gives_fail].
  apply gives_then. intros relays. case_match; [apply gives_fail|]. apply gives_then. intros to.
  eapply gives_bind; [apply gives_ln; intros q Hq; exact (quote_of_amount _ _ _ _ Hq)|].
  intros q Hq. cbn in Hq. case_match; [apply gives_fail|]. by apply gives_ret.
Qed.
Lemma told_gives {X} key_text (m : AppM X) Q a x : gives m Q -> (told key_text m a).2 = Ok x -> Q x.
Proof. intros H. unfold told. destruct (m a) as [b [y|e]] eqn:E; [|done]. intros [= <-]. by eapply H. Qed.
#[export] Instance app_dialog_laws key_text os web moments throwaway rounds :
  DialogLaws (DC := app_dialogs key_text os web moments throwaway rounds) (App (K := K)).
Proof.
  split; cbn.
  - intros g id amount a q.
    apply (told_gives key_text _ (fun q => zq_amount q = amount /\ zq_fee q = fee_of amount /\ zq_total q = total_of amount)).
    unfold Publish.zap_quote.
    eapply gives_bind; [apply gives_prepared|]. intros [[to q'] relays] [Ha Hf]. cbn in Ha, Hf.
    apply gives_then. intros w. apply gives_ret. cbn. unfold total_sats, total_of. by rewrite Ha, Hf.
  - intros g id amount comment anon a sent. apply (told_gives key_text _ (fun sent => zs_fee sent = fee_of amount)). unfold zap.
    apply gives_then. intros [w|]; [|apply gives_fail]. eapply gives_bind; [apply gives_prepared|]. intros [[to q'] relays] [Ha Hf].
    do 4 (apply gives_then; intros ?). by apply gives_ret.
  - intros g id amount comment anon a inv. apply (told_gives key_text _ (fun inv => iv_sats inv = amount)). unfold zap_invoice_view.
    eapply gives_bind; [apply gives_prepared|]. intros [[to q'] relays] [Ha Hf]. do 3 (apply gives_then; intros ?). by apply gives_ret.
Qed.
End AppLaws.
