(* ===== verification/Witnesses.v ===== *)
(** A sample world the theorems are applied in: one group with an owner, a
    moderator, a member and a ban, its events, a device binding, direct
    messages and a zap, on the concrete instances of the interfaces.  Every
    theorem that has hypotheses has a witness here: the theorem applied at
    inputs of this world, its hypotheses discharged by evaluation. *)
From S2P Require Import Prelude Text Nostr GroupEvent Replace Perm Zap GroupState Fold.
From S2P Require Import FoldOrder Authority Safety Invariant Machine Escalation Answers Compaction Binding.
From S2P Require Import Dm Groups ZapSpec EventStore StoreSpec Jitter.

#[local] Existing Instance Sample.types.
#[local] Existing Instance Sample.ops.
#[local] Existing Instance Sample.laws.
#[local] Open Scope Z_scope.

(** ** The group *)
Module World.
#[local] Open Scope string_scope.
#[local] Open Scope Z_scope.

Definition mk (id k : string) (t : Z) (b : EventBuilder) : Event :=
  mkEvent id k t (b_kind b) (b_tags b) (b_content b) "signed".

Definition g : PublicKey := "group"%string.
Definition mod_perms : Z :=
  Perm.union Perm.DEFAULT_MODERATOR (Perm.union Perm.MANAGE_ROLES Perm.BAN_MEMBERS).
Definition snap : Snapshot :=
  mkSnapshot 1 "hit" true 0 "a group"
    [mkChannel "general" "general" Text 0; mkChannel "staff" "staff" Text 0]
    [mkOverride "staff" DEFAULT_ROLE 0 Perm.VIEW_CHANNEL;
     mkOverride "staff" "mod" Perm.VIEW_CHANNEL 0]
    [mkRole DEFAULT_ROLE "member" Perm.DEFAULT_MEMBER 0; mkRole "mod" "moderator" mod_perms 10;
     mkRole "helper" "helper" Perm.MUTE_MEMBERS 5]
    (Some "ann") {["ann" := ∅; "bob" := {["mod"]}; "cat" := ∅]} {["eve"]} {["cat" := 160]}.

Definition created : Event := mk "e0" "ann" 90 (create_group g).
Definition meta : Event := mk "e1" g 100 (meta_builder snap g 100).
Definition admins : Event := mk "e2" g 100 (admins_builder snap g 100).
Definition members : Event := mk "e3" g 100 (members_builder snap g 100).
Definition roles : Event := mk "e4" g 100 (roles_builder snap g 100).
Definition invite : Event := mk "e5" "bob" 110 (create_invite g "c0de" None).
Definition dan_joins : Event := mk "e6" "dan" 130 (join g "c0de").
Definition promote : Event := mk "e7" "bob" 140 (put_user g "cat" ["helper"]).
Definition kick : Event := mk "e8" "bob" 150 (remove_user g "cat").
Definition overreach : Event := mk "e9" "cat" 155 (remove_user g "bob").
Definition coup : Event := mk "ea" "bob" 156 (remove_user g "ann").
Definition eve_joins : Event := mk "eb" "eve" 157 (join_public g).
Definition hello : Event := mk "ec" "cat" 200 (message g "general" "hello").
Definition dan_says : Event := mk "ed" "dan" 430 (message g "general" "hi").

Definition snapshot_events : list Event := [meta; admins; members; roles; created].
Definition events : list Event := snapshot_events ++ [invite; kick; dan_joins; promote].

(** The state the snapshot gives, the one the events give, and the one an
    action leaves. *)
Definition s0 : GroupState := opt_get (empty_state g) (start g (snapshot_events ++ [invite])).
Definition s1 : GroupState := opt_get (empty_state g) (fold g events).
Definition after (s : GroupState) (e : Event) : GroupState :=
  match apply s e with
  | (s', Ok _) => set_applied ({[ev_id e]} ∪ gs_applied s') s'
  | (s', Err _) => s'
  end.

Lemma after_step s e : step s e (after s e).
Proof.
  unfold after. destruct (apply s e) as [s' [[]|err]] eqn:E; [by constructor|by eapply step_refuse].
Qed.
Lemma opt_get_some {A} (d : A) o : opt_bool o = true -> o = Some (opt_get d o).
Proof. by destruct o. Qed.
Lemma start_s0 : start g (snapshot_events ++ [invite]) = Some s0.
Proof. apply opt_get_some. vm_compute. reflexivity. Qed.
Lemma fold_s1 : fold g events = Some s1.
Proof. apply opt_get_some. vm_compute. reflexivity. Qed.
Lemma s0_wf : wf s0.
Proof. eapply start_wf, start_s0. Qed.
Lemma ids_distinct l : NoDup (map ev_id l) -> ids_identify l.
Proof.
  intros Hn a b Ha Hb E. induction l as [|x l IH]; [by apply not_elem_of_nil in Ha|].
  cbn in Hn. apply NoDup_cons in Hn as [Hx Hn].
  apply elem_of_cons in Ha as [->|Ha]; apply elem_of_cons in Hb as [->|Hb]; try done; [| |auto].
  - destruct Hx. rewrite E. by apply list_elem_of_fmap_2.
  - destruct Hx. rewrite <- E. by apply list_elem_of_fmap_2.
Qed.

(** The sample is not vacuous: what the actions do in it. *)
Example s1_members : map fst (map_entries pk_leb (gs_members s1)) = ["ann"; "bob"; "dan"].
Proof. vm_compute. reflexivity. Qed.
Example promoted : base (after s0 promote) "cat" <> base s0 "cat".
Proof. vm_compute. discriminate. Qed.
End World.

(** ** The fold and its machine *)
Module FoldWitnesses.
Import World.
#[local] Open Scope string_scope.
#[local] Open Scope Z_scope.

(** Two later snapshots' metadata, of one [seq], and an older one. *)
Definition meta2 : Event := mk "f1" g 120 (meta_builder (to_snapshot s0) g 120).
Definition meta3 : Event := mk "f2" g 130 (meta_builder (to_snapshot s0) g 130).

Lemma replaces_decides_witness :
  best replaces [meta; meta2; meta3] = best replaces [meta3; meta; meta2] /\
  best replaces [meta; meta2; meta3] = Some meta3.
Proof.
  split; [|vm_compute; reflexivity].
  apply (replaces_decides GROUP_METADATA [meta; meta2; meta3] [meta3; meta; meta2]).
  - apply ids_distinct. apply (bool_decide_unpack _). vm_compute. exact I.
  - intros e He. repeat (apply elem_of_cons in He as [->|He]; [reflexivity|]).
    by apply not_elem_of_nil in He.
  - symmetry. exact (Permutation_cons_append [meta; meta2] meta3).
Defined.

Lemma fold_converges_witness : fold g (rev events) = Some s1.
Proof.
  transitivity (fold g events); [|apply fold_s1]. symmetry.
  apply (fold_converges g events (rev events)).
  - apply ids_distinct. apply (bool_decide_unpack _). vm_compute. exact I.
  - apply Permutation_rev.
Defined.

Lemma apply_second_exhausts_witness :
  let '(s', rest) := apply_loop 3 s0 [overreach; kick] in
  apply_second s0 [overreach; kick] = s' /\
  forall e, e ∈ rest -> e ∈ [overreach; kick] /\ is_ok (snd (apply s' e)) = false.
Proof. apply (apply_second_exhausts s0 [overreach; kick] 3). cbn. lia. Defined.

(** In the staff channel the default role is denied the view and the moderator
    is given it back. *)
Lemma effective_spec_witness :
  Z.testbit (effective s0 "bob" "staff") 0 = true /\ Z.testbit (effective s0 "cat" "staff") 0 = false.
Proof.
  split.
  - rewrite (effective_spec s0 "bob" {["mod"]} "staff" 0); [|vm_compute; reflexivity..|lia].
    vm_compute. reflexivity.
  - rewrite (effective_spec s0 "cat" ∅ "staff" 0); [|vm_compute; reflexivity..|lia].
    vm_compute. reflexivity.
Defined.

Lemma fold_runs_witness :
  exists st es, start g events = Some st /\ steps st es s1 /\ StronglySorted no_later es.
Proof.
  destruct (fold_runs g events s1 fold_s1) as (st & es & H1 & H2 & H3 & _).
  exists st, es. split; [exact H1|]. split; [exact H2|exact H3].
Defined.

Lemma fold_well_formed_witness : wf s1.
Proof. apply (fold_well_formed g events s1). apply fold_s1. Defined.
End FoldWitnesses.

(** ** Authority *)
Module AuthorityWitnesses.
Import World.
#[local] Open Scope string_scope.
#[local] Open Scope Z_scope.

(** The moderator gives the member a role: it takes effect, within bounds. *)
Lemma no_escalation_witness :
  is_ok (snd (apply s0 promote)) = true /\
  Perm.subset (base (after s0 promote) "cat")
    (Perm.union (Perm.union (base s0 "cat") (base s0 "bob")) (base_of s0 ∅)).
Proof.
  split; [vm_compute; reflexivity|].
  apply (no_escalation s0 promote (after s0 promote) "cat").
  - apply s0_wf.
  - vm_compute. reflexivity.
  - apply after_step.
Defined.

Lemma owner_inviolable_witness :
  gs_owner (after s0 coup) = Some "ann" /\ gs_members (after s0 coup) !! "ann" = Some ∅.
Proof.
  destruct (owner_inviolable s0 coup (after s0 coup) "ann") as (H1 & H2 & _).
  - apply s0_wf.
  - vm_compute. reflexivity.
  - apply after_step.
  - split; [exact H1|exact H2].
Defined.

Lemma rank_protects_witness : untouched s0 (after s0 overreach) "cat" "bob".
Proof.
  apply (rank_protects s0 overreach (after s0 overreach) "bob").
  - apply s0_wf.
  - apply after_step.
  - vm_compute. reflexivity.
  - discriminate.
  - vm_compute. reflexivity.
  - vm_compute. reflexivity.
Defined.

Definition two : list Event := [promote; kick].
Lemma two_steps : steps s0 two (after (after s0 promote) kick).
Proof. econstructor; [apply after_step|]. econstructor; [apply after_step|constructor]. Qed.

(** Nobody but the owner may manage the group, and no moderator's action
    changes that. *)
Lemma authority_from_owner_witness :
  Z.testbit (base (after (after s0 promote) kick) "cat") 10 = false /\
  Z.testbit (base (after (after s0 promote) kick) "bob") 10 = false.
Proof.
  assert (H : forall q, is_owner (after (after s0 promote) kick) q = false ->
    Z.testbit (base (after (after s0 promote) kick) q) 10 = false);
    [|split; apply H; vm_compute; reflexivity].
  apply (authority_from_owner s0 two (after (after s0 promote) kick) 10).
  - apply s0_wf.
  - apply two_steps.
  - repeat constructor; vm_compute; reflexivity.
  - lia.
  - vm_compute. reflexivity.
  - assert (H : map_Forall (fun _ held => Z.testbit (base_of s0 held) 10 = false) (gs_members s0)).
    { apply (bool_decide_unpack _). vm_compute. exact I. }
    intros p Hp. unfold base. rewrite Hp. destruct (gs_members s0 !! p) eqn:E; [|reflexivity].
    by eapply H.
Defined.
End AuthorityWitnesses.

(** ** What the state answers *)
Module AnswerWitnesses.
Import World.
#[local] Open Scope string_scope.
#[local] Open Scope Z_scope.

Lemma judge_message_ok_witness :
  judge_message s0 hello = Ok tt /\ is_member s0 (ev_pubkey hello) = true.
Proof.
  assert (H : judge_message s0 hello = Ok tt) by (vm_compute; reflexivity).
  split; [exact H|].
  apply (judge_message_ok s0 hello) in H as (_ & (ch & _ & _ & Hm & _) & _). exact Hm.
Defined.

Definition kicked : GroupState := fst (apply s0 kick).
Lemma removed_stay_silent_witness :
  is_ok (judge_message (after kicked eve_joins) hello) = false /\
  is_ok (judge_reaction (after kicked eve_joins) hello) = false.
Proof.
  apply (removed_stay_silent s0 kick kicked [eve_joins] (after kicked eve_joins) g "cat" false hello).
  - vm_compute. reflexivity.
  - unfold kicked. assert (H : snd (apply s0 kick) = Ok tt) by (vm_compute; reflexivity).
    rewrite <- H. apply surjective_pairing.
  - econstructor; [apply after_step|constructor].
  - reflexivity.
  - cbn. lia.
  - intros e' He. apply list_elem_of_singleton in He as ->. vm_compute. discriminate.
Defined.

Lemma may_read_sound_witness :
  removes hello "cat" = true \/
  (is_folded s0 hello 300 = false /\
   (is_member s0 "cat" = true \/ gs_public s0 = true) /\
   (in_a_channel hello = true -> exists ch, channel_of hello = Some ch /\
      if is_member s0 "cat" then Perm.contains (effective s0 "cat" ch) Perm.VIEW_CHANNEL = true
      else is_Some (channel s0 ch) /\
           Perm.contains (effective_of s0 ∅ ch) Perm.VIEW_CHANNEL = true)).
Proof. apply (may_read_sound s0 "cat" hello 300). vm_compute. reflexivity. Defined.

(** Dan joined at 130 and is heard from 430. *)
Lemma newcomers_wait_witness : 130 + PUBLIC_NEWCOMER_FLOOR <= ev_created_at dan_says.
Proof.
  apply (newcomers_wait s1 dan_says 130).
  - vm_compute. reflexivity.
  - vm_compute. reflexivity.
  - lia.
  - vm_compute. discriminate.
  - vm_compute. reflexivity.
Defined.

Lemma banned_stay_out_witness :
  ("eve" : PublicKey) ∈ gs_bans (after s0 eve_joins) /\ gs_members (after s0 eve_joins) !! ("eve" : PublicKey) = None.
Proof.
  apply (banned_stay_out s0 [eve_joins] (after s0 eve_joins) "eve").
  - apply s0_wf.
  - econstructor; [apply after_step|constructor].
  - apply (bool_decide_unpack _). vm_compute. exact I.
  - vm_compute. reflexivity.
  - repeat constructor; vm_compute; reflexivity.
Defined.

(** A mute that ends before it starts is refused, and still ends the one in
    force: what [refusal_changes] allows does happen. *)
Definition muted : GroupState := after s0 (mk "g1" "bob" 165 (mute_user g "cat" (Some 900))).
Definition backdated : Event := mk "g2" "bob" 170 (mute_user g "cat" (Some 168)).
Lemma refusal_changes_witness :
  snd (apply muted backdated) = Err Malformed /\
  (fst (apply muted backdated) = muted \/
   exists gr t until, parse_action backdated = Some (gr, Mute t until) /\
     mute_guards muted (ev_pubkey backdated) t = Ok tt /\
     fst (apply muted backdated) =
       set_silences (map (end_mute t (ev_created_at backdated)) (gs_silences muted)) muted).
Proof.
  assert (H : snd (apply muted backdated) = Err Malformed) by (vm_compute; reflexivity).
  split; [exact H|].
  apply (refusal_changes muted backdated (fst (apply muted backdated)) Malformed).
  rewrite <- H. apply surjective_pairing.
Defined.

(** The moderator's mute of the member runs to 900; a later mute, refused
    because its end is already past, ends it at 170. *)
Example refused_mute_unmutes :
  is_ok (snd (apply muted backdated)) = false /\
  opt_bool (silence_at muted "cat" 200) = true /\
  opt_bool (silence_at (fst (apply muted backdated)) "cat" 200) = false.
Proof. vm_compute. repeat split. Qed.

(** A moderator who may manage roles but cannot see a channel clears the
    override that hides it, and sees it: an override is checked for what it
    allows, not for the denial it takes away. *)
Definition hidden : GroupState :=
  set_overrides [mkOverride "staff" DEFAULT_ROLE 0 Perm.VIEW_CHANNEL] s0.
Definition clear_override : Event :=
  mk "g3" "bob" 170 (edit_metadata g [EOverride (mkOverride "staff" DEFAULT_ROLE 0 0)]).
Example lifted_denial_shows_channel :
  Perm.contains (effective hidden "bob" "staff") Perm.VIEW_CHANNEL = false /\
  snd (apply hidden clear_override) = Ok tt /\
  Perm.contains (effective (fst (apply hidden clear_override)) "bob" "staff") Perm.VIEW_CHANNEL = true.
Proof. vm_compute. repeat split. Qed.

(** ** Compaction *)
Definition signed (i : nat) : Event :=
  match Snapshot_sign (to_snapshot s0) g 500 with
  | Some (a, b, c, d) => nth i [a; b; c; d] created
  | None => created
  end.
Lemma signed_all :
  Snapshot_sign (to_snapshot s0) g 500 = Some (signed 0, signed 1, signed 2, signed 3).
Proof.
  assert (H : opt_bool (Snapshot_sign (to_snapshot s0) g 500) = true) by (vm_compute; reflexivity).
  unfold signed. cbn [nth]. destruct (Snapshot_sign _ _ _) as [[[[a b] c] d]|]; [reflexivity|discriminate H].
Qed.
Lemma compaction_round_trip_witness :
  fold g [signed 0; signed 1; signed 2; signed 3; created] = Some (compacted s0 500).
Proof.
  apply (compaction_round_trip s0 g 500 "ann" (signed 0) (signed 1) (signed 2) (signed 3) created).
  - apply s0_wf.
  - vm_compute. reflexivity.
  - vm_compute. split; [discriminate|reflexivity].
  - lia.
  - vm_compute. reflexivity.
  - vm_compute. reflexivity.
  - apply signed_all.
  - repeat split. intros t Ht. vm_compute in Ht. discriminate.
Defined.
End AnswerWitnesses.

(** ** Devices *)
Module DeviceWitnesses.
Import World.
#[local] Existing Instance SampleDevice.types.
#[local] Existing Instance SampleDevice.ops.
#[local] Existing Instance SampleDevice.laws.
#[local] Open Scope string_scope.
#[local] Open Scope Z_scope.

Definition phone : EndpointId := "phone"%string.
Definition phone_key : DeviceKey := "phone"%string.
Definition bound (id : string) (t : Z) : Event := mk id "ann" t (binding_builder "ann" phone_key t DEFAULT_TTL).
Definition gone : Event := mk "r1" "ann" 1000 (revocation_builder phone 1000).
Definition empty_book : gmap (PublicKey * string) Event := ∅.
(** The book after [e], and after one presented at a connection. *)
Definition holding (e : Event) : gmap (PublicKey * string) Event := insert_all 2000 empty_book [e].
Definition presented (book : gmap (PublicKey * string) Event) (e : Event) (now : Z) :=
  authenticate book e phone now.

Lemma empty_book_wf : book_wf empty_book.
Proof. apply map_Forall_empty. Qed.

Lemma authenticate_sound_witness :
  ev_pubkey (bound "b1" 500) = "ann" /\ ev_verify (bound "b1" 500) = true.
Proof.
  assert (H : (presented empty_book (bound "b1" 500) 600).2 = Ok ("ann" : PublicKey))
    by (vm_compute; reflexivity).
  destruct (authenticate_sound empty_book (bound "b1" 500) phone 600
    (presented empty_book (bound "b1" 500) 600).1 "ann") as (H1 & H2 & _).
  - apply empty_book_wf.
  - rewrite <- H. apply surjective_pairing.
  - vm_compute. reflexivity.
  - split; [exact H1|exact H2].
Defined.

(** The revoked device comes back with a later binding, and not with an
    earlier one. *)
Lemma revoked_until_renewed_witness :
  is_ok (presented (holding gone) (bound "b1" 1000) 2000).2 = false /\
  exists n, (presented (holding gone) (bound "b2" 1001) 2000).1 !! (("ann" : PublicKey), ep_to_string phone) = Some n /\
    is_revoked n = false /\ ev_pubkey n = "ann" /\ ev_verify n = true /\
    ev_created_at gone < ev_created_at n.
Proof.
  split; [vm_compute; reflexivity|].
  assert (H : (presented (holding gone) (bound "b2" 1001) 2000).2 = Ok ("ann" : PublicKey))
    by (vm_compute; reflexivity).
  apply (revoked_until_renewed (holding gone) gone (holding gone) (bound "b2" 1001) phone 2000
    (presented (holding gone) (bound "b2" 1001) 2000).1 "ann").
  - apply (bool_decide_unpack _). vm_compute. exact I.
  - vm_compute. reflexivity.
  - vm_compute. reflexivity.
  - apply rtc_refl.
  - rewrite <- H. apply surjective_pairing.
Defined.

Lemma book_converges_witness :
  insert_all 2000 empty_book [bound "b1" 900; gone; bound "b2" 1001] =
  insert_all 2000 empty_book [bound "b2" 1001; bound "b1" 900; gone].
Proof.
  apply (book_converges 2000 [bound "b1" 900; gone; bound "b2" 1001]).
  - apply ids_distinct. apply (bool_decide_unpack _). vm_compute. exact I.
  - symmetry. exact (Permutation_cons_append [bound "b1" 900; gone] (bound "b2" 1001)).
Defined.

Lemma sign_then_verify_witness :
  exists e, sign_binding "ann" phone_key 500 DEFAULT_TTL = Some e /\
    verify_binding_at e phone 600 = Ok "ann" /\ verify_binding_at e "tablet" 600 = Err WrongDevice.
Proof.
  eexists. split; [reflexivity|].
  split.
  - refine (eq_trans (sign_then_verify "ann" phone_key 500 DEFAULT_TTL _ 600 phone
      eq_refl _ _ _ _ _ _ _) _); [lia|vm_compute; split; discriminate|vm_compute; discriminate
      |lia|vm_compute; discriminate|vm_compute; discriminate| |vm_compute; reflexivity].
    intros tg Htg Hp. repeat (apply elem_of_cons in Htg as [->|Htg]; [discriminate Hp|]).
    by apply not_elem_of_nil in Htg.
  - vm_compute. reflexivity.
Defined.

(** *** Direct messages *)

(** A wrap that is the rumor and its sender in the open: opened by the keys
    its [p] row names. *)
Definition rumor_event (k : string) (r : Rumor) : Event :=
  mkEvent "rumor" (ru_pubkey r) (ru_created_at r) (ru_kind r) (ru_tags r) (ru_content r) k.
Definition unwrap_gift (k : string) (e : Event) : option (PublicKey * Rumor) :=
  if bool_decide (ev_tags e = [["p"; pk_to_hex (k : PublicKey)]]) then
    let! r := Sample.from_json (ev_content e) in
    Some (ev_sig r, mkRumor _ (ev_pubkey r) (ev_created_at r) (ev_kind r) (ev_tags r) (ev_content r))
  else None.
Definition wrap_gift (k to : string) (r : Rumor) : option Event :=
  Some (mkEvent "wrap" "throwaway" 0 GIFT_WRAP [["p"; pk_to_hex (to : PublicKey)]]
          (Sample.as_json (rumor_event k r)) "signed").
Definition unsigned (b : EventBuilder) (p : PublicKey) : Rumor :=
  mkRumor _ p (opt_get 700 (b_created_at b)) (b_kind b) (b_tags b) (b_content b).

Definition key32 : string := "0123456789abcdef0123456789abcdef".
#[local] Instance crypto : DmCrypto := {|
  tag_public_key p := ["p"; pk_to_hex p];
  rumor_id r := ru_content r;
  finalize_unsigned := unsigned; gift_wrap := wrap_gift; gift_unwrap := unwrap_gift;
  aes_encrypt k n m := Some (k +:+ n +:+ m);
  aes_decrypt k n c := strip_prefix (k +:+ n) c;
  sha256 m := String.substring 0 32 (m +:+ key32);
|}.
Lemma strip_two k n m : strip_prefix (k +:+ n) (k +:+ n +:+ m) = Some m.
Proof.
  induction k as [|c k IH]; [exact (strip_prefix_app n m)|].
  change (strip_prefix (String c (k +:+ n)) (String c (k +:+ n +:+ m)) = Some m).
  cbn. by rewrite bool_decide_true.
Qed.
Lemma public_keys_skip t ts : t !! 0%nat <> Some "p" ->
  Sample.public_keys (t :: ts) = Sample.public_keys ts.
Proof.
  intros Ht. destruct t as [|n [|v r]]; [done..|]. unfold Sample.public_keys, filter_map.
  cbn -[bool_decide]. by rewrite bool_decide_false by (intros ->; by apply Ht).
Qed.
Lemma public_keys_head p ts : Sample.public_keys (["p"; Sample.hex p] :: ts) = p :: Sample.public_keys ts.
Proof.
  unfold Sample.public_keys, filter_map. cbn -[bool_decide Sample.read_hex Sample.hex].
  rewrite (bool_decide_true ("p" = "p")) by done. by rewrite Sample.read_hex_inv.
Qed.
Lemma no_p_rows pre ts : (forall t, t ∈ pre -> t !! 0%nat <> Some "p") ->
  Sample.public_keys (pre ++ ts)%list = Sample.public_keys ts.
Proof.
  intros H. induction pre as [|t pre IH]; [done|]. change ((t :: pre) ++ ts)%list with (t :: (pre ++ ts))%list.
  rewrite public_keys_skip by (apply H; left). apply IH. intros x Hx. apply H. by right.
Qed.
#[local] Instance crypto_laws : DmLaws.
Proof.
  split.
  - done.
  - intros p ts Hts pre Hpre. change (Sample.public_keys (pre ++ ["p"; Sample.hex p] :: ts)%list = [p]).
    rewrite no_p_rows by exact Hpre. rewrite public_keys_head. f_equal.
    rewrite <- (app_nil_r ts), no_p_rows by exact Hts. reflexivity.
  - done.
  - intros k to r e [= <-]. split; [done|]. split; [apply public_keys_head|]. intros k'.
    cbn [gift_unwrap crypto]. unfold unwrap_gift. cbn [ev_tags ev_content].
    case_bool_decide as H1; case_bool_decide as H2; try done.
    + rewrite Sample.json_round_trip. cbn. by destruct r.
    + exfalso. apply H2. apply (f_equal (fun l => head l ≫= fun t => t !! 1%nat ≫= Sample.read_hex)) in H1.
      change (Sample.read_hex (Sample.hex to) = Sample.read_hex (Sample.hex k')) in H1.
      rewrite !Sample.read_hex_inv in H1. by injection H1 as ->.
    + exfalso. apply H1. cbn in H2. subst. reflexivity.
  - intros k n m c [= <-]. cbn [aes_decrypt crypto]. apply strip_two.
Qed.

Definition ann : Keys := "ann"%string.
Definition bob : PublicKey := "bob"%string.
Definition bob_keys : Keys := "bob"%string.
Definition eve_keys : Keys := "eve"%string.
Definition dm : option (Event * Event) := wrap_dm ann bob "hello bob" None.
Definition theirs (o : option (Event * Event)) : Event := opt_get created (fst <$> o).
Definition mine (o : option (Event * Event)) : Event := opt_get created (snd <$> o).

Lemma dm_round_trip_witness :
  (dm_text <$> open_dm bob_keys (theirs dm)) = Some "hello bob" /\ open_dm eve_keys (theirs dm) = None.
Proof.
  split.
  - rewrite (dm_round_trip ann bob "hello bob" None (theirs dm) (mine dm) bob_keys);
      [vm_compute; reflexivity|discriminate|discriminate|reflexivity].
  - rewrite (dm_round_trip ann bob "hello bob" None (theirs dm) (mine dm) eve_keys);
      [vm_compute; reflexivity|discriminate|discriminate|reflexivity].
Defined.

Definition nonce12 : string := "0123456789ab".
Definition photo : string := "the bytes of a photograph, in the clear".
Definition sealed_photo : string := key32 +:+ nonce12 +:+ photo.
Definition photo_file : DmFile :=
  mkDmFile "0000000000000000000000000000000000000000000000000000000000000000"
    (hex_encode (sha256 sealed_photo)) (hex_encode (sha256 photo)) 83 "image/png" "photo.png"
    (hex_encode key32) (hex_encode nonce12).
Definition dmf : option (Event * Event) := wrap_dm_file ann bob photo_file None.

Lemma dm_file_round_trip_witness :
  option_map dm_file (open_dm bob_keys (theirs dmf)) = Some (Some photo_file) /\
  open_file photo_file sealed_photo = Some photo.
Proof.
  apply (dm_file_round_trip ann bob photo_file None (theirs dmf) (mine dmf) bob_keys key32 nonce12).
  - discriminate.
  - vm_compute. split; discriminate.
  - vm_compute. reflexivity.
  - discriminate.
  - apply Sample.read_hex_inv.
  - vm_compute. reflexivity.
  - vm_compute. reflexivity.
  - vm_compute. reflexivity.
  - vm_compute. reflexivity.
Defined.
End DeviceWitnesses.

(** ** The node's groups *)
Module GroupsWitnesses.
Import World.
#[local] Open Scope string_scope.
#[local] Open Scope Z_scope.

Definition zed : PublicKey := "zed"%string.
Definition bob : PublicKey := "bob"%string.
Definition cat : PublicKey := "cat"%string.
Definition node : Groups :=
  mkGroups ("ann"%string : PublicKey) {[ cat := {[ bob ]} ]} {[ g := Some s0 ]}.
Definition wrapped : Event := mkEvent "w1" "throwaway" 150 GIFT_WRAP [["p"; Sample.hex "cat"]] "sealed" "signed".

Lemma node_states gr s : state node gr = Some s -> s = s0.
Proof.
  unfold state, node. cbn [g_carried].
  destruct (decide (gr = g)) as [->|Hn].
  - rewrite lookup_singleton_eq. congruence.
  - rewrite lookup_singleton_ne by congruence. discriminate.
Qed.

Lemma stored_then_readable_witness : Groups_may_read node cat hello 210 = true.
Proof.
  apply (stored_then_readable node hello 210).
  - intros gr s Hs. apply node_states in Hs as ->. apply s0_wf.
  - vm_compute. reflexivity.
  - discriminate.
  - reflexivity.
  - discriminate.
Defined.

Lemma gossip_sound_witness :
  group_of hello = Some g /\
  exists s, state node g = Some s /\
    forall p, is_member s p = true -> is_folded s hello 210 = false ->
      Groups_may_read node p hello 210 = true.
Proof. apply (gossip_sound node hello g 210). vm_compute. reflexivity. Defined.

Lemma dm_readers_witness :
  Groups_may_read node bob wrapped 210 = true /\ Groups_may_read node zed wrapped 210 = false.
Proof.
  split; [|vm_compute; reflexivity].
  apply (dm_readers node bob wrapped 210); [reflexivity|].
  exists cat. split; [reflexivity|]. right.
  exists {[ bob ]}. split; [vm_compute; reflexivity|].
  apply (bool_decide_unpack _). vm_compute. exact I.
Defined.

(** Zed, in no group of this node, reads what a public group shows anyone. *)
Lemma strangers_read_witness :
  ev_kind hello = GIFT_WRAP \/
  (is_personal (ev_kind hello) = true /\ (ev_pubkey hello = zed \/ public_profile node hello = true)) \/
  exists gr s, group_of hello = Some gr /\ state node gr = Some s /\
    (removes hello zed = true \/
     (gs_public s = true /\ (in_a_channel hello = true ->
        is_some_and (channel_of hello) (open_to_readers s) = true))).
Proof.
  apply (strangers_read node zed hello 210).
  - vm_compute. reflexivity.
  - vm_compute. reflexivity.
Defined.
End GroupsWitnesses.

(** ** Zaps *)
Module ZapWitnesses.
Import World.
#[local] Open Scope string_scope.
#[local] Open Scope Z_scope.

Lemma codecs_round_trip_witness :
  Bech32.decode (Bech32.encode "npub" [0; 14; 20; 31]) = Some ("npub", [0; 14; 20; 31]) /\
  to_bytes (to_words [0; 255; 128; 7]) = [0; 255; 128; 7] /\
  lnurl_decode (lnurl_encode "https://hitenter.app/pay") = Some "https://hitenter.app/pay".
Proof.
  apply (codecs_round_trip "npub" [0; 14; 20; 31] [0; 255; 128; 7] "https://hitenter.app/pay").
  - split; [discriminate|]. apply (bool_decide_unpack _). vm_compute. exact I.
  - repeat constructor; discriminate.
  - repeat constructor; discriminate.
  - vm_compute. reflexivity.
Defined.

Lemma amount_round_trip_witness :
  parse_amount (format_amount 250000000) = Some 250000000 /\ parse_amount (format_amount 0) = None.
Proof.
  apply (amount_round_trip 250000000).
  - vm_compute. split; [reflexivity|discriminate].
  - intros _. vm_compute. discriminate.
Defined.

(** A zap of a message, paid by the invoice of BOLT 11's own example. *)
Definition zap_request : Event :=
  mkEvent "q1" "dan" 600 ZAP_REQUEST
    [["relays"; "wss://anchor"]; ["amount"; "250000000"]; ["p"; Sample.hex "cat"]; ["e"; "id:ec"]]
    "thanks" "signed".
Definition zap_receipt : Event :=
  mkEvent "q2" "provider" 601 ZAP_RECEIPT
    [["p"; Sample.hex "cat"]; ["e"; "id:ec"]; ["bolt11"; coffee]; ["description"; Sample.as_json zap_request]]
    "" "signed".
Definition zap_of : Zap :=
  mkZap "q2" "q1" "provider" "cat" "ec" (Some ("dan" : PublicKey)) 250000000 "thanks" 601.
Definition zap_carrier : Event :=
  mkEvent "q3" "dan" 602 ZAP_CARRIER
    [["h"; Sample.hex "group"]; ["channel"; "general"]; ["e"; "id:ec"]; ["p"; Sample.hex "cat"]]
    (Sample.as_json zap_receipt) "signed".

Lemma carried_sound_witness :
  ev_kind zap_carrier = ZAP_CARRIER /\
  exists receipt, ev_from_json (ev_content zap_carrier) = Some receipt /\ ev_verify receipt = true.
Proof.
  destruct (carried_sound zap_carrier zap_of) as (H1 & receipt & _ & _ & _ & H2 & _ & H3 & _).
  - vm_compute. reflexivity.
  - split; [exact H1|]. exists receipt. split; [exact H2|exact H3].
Defined.
End ZapWitnesses.

(** ** The voice path *)
Module VoiceWitnesses.
Import Jitter.Jitter.
#[local] Open Scope Z_scope.

Definition frame (n : Z) : list Z := [n].
Definition arrive (n : Z) : op := Push n (frame n).
(** Three frames, out of order, across the wrap of the sequence number. *)
Definition opening : list op := [arrive 65535; arrive 1; arrive 0; Pop].
Definition playing : Jitter := (run (new 3) opening).2.
Lemma playing_wf : wf 229375 playing.
Proof.
  apply (wf_run opening 131071 (new 3)).
  - apply wf_new. vm_compute. discriminate.
  - lia.
  - vm_compute. discriminate.
  - repeat constructor; discriminate.
Qed.

Lemma packet_round_trip_witness :
  Packet.Packet_decode (Packet.Packet_encode {| Packet.seq := 65535; Packet.speaking := true; Packet.opus := [1; 2; 3] |})
  = Some {| Packet.seq := 65535; Packet.speaking := true; Packet.opus := [1; 2; 3] |}.
Proof.
  apply (Packet.packet_round_trip
    {| Packet.seq := 65535; Packet.speaking := true; Packet.opus := [1; 2; 3] |}).
  - cbn. lia.
  - discriminate.
Defined.

Lemma buffer_bounds_witness : len (held playing) <= MAX_HELD /\ 0 <= dry playing <= MAX_DRY.
Proof.
  destruct (buffer_bounds 3 opening) as (H1 & H2 & _).
  - vm_compute. discriminate.
  - repeat constructor; discriminate.
  - vm_compute. discriminate.
  - split; [exact H1|exact H2].
Defined.

Lemma pop_slots_witness :
  (pop playing).1 = Play (frame 0) /\ held playing !! turn playing 131072 = Some (frame 0).
Proof.
  assert (H : (pop playing).1 = Play (frame 0)) by (vm_compute; reflexivity).
  split; [exact H|].
  pose proof (pop_slots 229375 playing 131072 playing_wf) as Hp. rewrite H in Hp.
  apply Hp; [vm_compute; discriminate|vm_compute; reflexivity].
Defined.

Definition late : list (Z * list Z) := [(131075, frame 3); (131074, frame 2); (131076, frame 4)].
Lemma arrival_order_witness : push_all playing (rev late) = push_all playing late.
Proof.
  apply (arrival_order 131072 playing 131073 late (rev late)).
  - lia.
  - vm_compute. discriminate.
  - vm_compute. reflexivity.
  - vm_compute. reflexivity.
  - apply (bool_decide_unpack _). vm_compute. exact I.
  - intros t Ht. repeat (apply elem_of_cons in Ht as [->|Ht];
      [split; [vm_compute; reflexivity|intros m Hm; vm_compute in Hm; injection Hm as <-; discriminate]|]).
    by apply not_elem_of_nil in Ht.
  - vm_compute. discriminate.
  - symmetry. apply Permutation_rev.
Defined.

Definition more : list op := [arrive 3; Pop; Pop; Pop; Pop].
Lemma played_in_turn_witness :
  plays playing more = [(131072, frame 0); (131073, frame 1); (131075, frame 3)] /\
  StronglySorted Z.lt (plays playing more).*1.
Proof.
  split; [vm_compute; reflexivity|].
  apply (played_in_turn more 229375 playing 131072).
  - apply playing_wf.
  - lia.
  - vm_compute. discriminate.
  - repeat constructor; discriminate.
  - vm_compute. reflexivity.
  - apply (bool_decide_unpack _). vm_compute. exact I.
Defined.
End VoiceWitnesses.

(** ** The event store *)
Module StoreWitnesses.
Import World.
#[local] Open Scope string_scope.
#[local] Open Scope Z_scope.

#[local] Instance json : JsonLaws.
Proof. split. apply Sample.json_round_trip. Qed.

Definition wrap (id : string) (t : Z) : Event :=
  mkEvent id "throwaway" t GIFT_WRAP [["p"; Sample.hex "cat"]] "sealed" "signed".
Definition cat : PublicKey := "cat"%string.
Definition arrivals : list (Event * Z) :=
  [(meta, 200); (hello, 201); (wrap "w1" 150, 202); (FoldWitnesses.meta3, 203); (wrap "w2" 140, 204)].
Definition db : Store :=
  match store_all empty_store arrivals with Ok s => s | Err _ => empty_store end.

Lemma db_reached : rtc store_step empty_store db.
Proof.
  apply (store_all_steps empty_store arrivals). unfold db.
  assert (H : is_ok (store_all empty_store arrivals) = true) by (vm_compute; reflexivity).
  by destruct (store_all empty_store arrivals).
Qed.

Lemma store_converges_witness :
  exists s1 s2, store_all empty_store arrivals = Ok s1 /\ store_all empty_store (rev arrivals) = Ok s2 /\
    forall e, holds s2 e <-> holds s1 e.
Proof.
  destruct (store_converges arrivals (rev arrivals)) as (s1 & s2 & H1 & H2 & H).
  - apply ids_distinct. apply (bool_decide_unpack _). vm_compute. exact I.
  - rewrite map_rev. apply Permutation_rev.
  - exists s1, s2. split; [exact H1|]. split; [exact H2|]. intros e. apply H.
Defined.

Lemma db_dated : dated_ok db.
Proof.
  intros e (r & Hr & He).
  assert (H : forallb (fun r => match event_of r with
                | Some e => (0 <=? ev_created_at e) && (ev_created_at e <=? I64_MAX)
                | None => true end) (t_events db) = true) by (vm_compute; reflexivity).
  rewrite forallb_elem in H. specialize (H r Hr). rewrite He in H.
  apply andb_true_iff in H as [H1 H2]. split; [by apply Z.leb_le|by apply Z.leb_le].
Qed.
(** The later metadata has taken the earlier's place. *)
Definition state_filter : Filter :=
  mkFilter None None (Some [GROUP_METADATA]) None None None (Some 10) [].
Lemma query_answers_witness :
  query db state_filter = Ok [FoldWitnesses.meta3] /\
  exists all, query db state_filter = Ok (limited (Some 10) all) /\
    forall e, e ∈ all <-> holds db e /\ event_matches state_filter e = true.
Proof.
  split; [vm_compute; reflexivity|].
  assert (Hl : single_letters state_filter) by (intros nv Hnv; by apply not_elem_of_nil in Hnv).
  destruct (query_answers db state_filter db_reached Hl) as (all & H1 & _ & _ & H2).
  assert (Hf : filter_ok state_filter) by (split; [intros t H; discriminate H|]; split; [intros t H; discriminate H|exact Hl]).
  destruct (H2 db_dated Hf) as [_ H3]. exists all. split; [exact H1|exact H3].
Defined.
(** A since no clock comes to is below every time there is. *)
Example since_wraps : query db (mkFilter None None (Some [GROUP_METADATA]) None (Some (I64_MAX + 1)) None None []) =
  Ok [FoldWitnesses.meta3].
Proof. vm_compute. reflexivity. Qed.

Lemma cap_wraps_bound_witness :
  snd (cap_wraps db cat 150) = 1 /\
  size_of (List.filter (addressed db cat)
    (t_events (fst (cap_wraps db cat 150)))) <= 150.
Proof.
  split; [vm_compute; reflexivity|].
  assert (Hc : 0 <= 150 < U64_MAX) by (vm_compute; split; [discriminate|reflexivity]).
  pose proof (cap_wraps_bound db cat 150 db_reached Hc) as H. cbv zeta in H. exact (proj1 H).
Defined.
End StoreWitnesses.
