(* ===== verification/NodeWitnesses.v ===== *)
(** The node of the sample world: it hears the group's events, a message, its
    withdrawal and a ban, and the theorems about a node are applied to it. *)
From stdpp Require Import relations.
From S2P Require Import Prelude Text Nostr GroupEvent Replace Perm Zap GroupState Fold FoldOrder.
From S2P Require Import Binding Dm Groups EventStore StoreSpec StoreEffect Proto Node NodeSpec Accept Overlap OverlapSpec Witnesses.

#[local] Existing Instance Sample.types.
#[local] Existing Instance Sample.ops.
#[local] Existing Instance Sample.laws.
#[local] Existing Instance SampleDevice.types.
#[local] Existing Instance SampleDevice.ops.
#[local] Existing Instance SampleDevice.laws.
#[local] Existing Instance DeviceWitnesses.crypto.
#[local] Existing Instance StoreWitnesses.json.

Module NodeWorld.
Import World.
#[local] Open Scope string_scope.
#[local] Open Scope Z_scope.

Definition phone : string := "phone"%string.
Definition tablet : string := "tablet"%string.
(** Ann's node, at some second; every connection up, every topic open. *)
Definition at_ (t : Z) : Env := mkEnv t t (fun _ => true) (fun _ => true).
Definition fresh : Inner :=
  mkInner "ann" phone empty_store ∅ (mkGroups ("ann" : PublicKey) ∅ {[ g := None ]})
    (DeviceWitnesses.bound "b0" 50) ∅ ∅ ∅ ∅ ∅ None ∅ ∅ ∅ [].

Definition second : Event := mk "ee" "cat" 205 (message g "general" "again").
Definition withdrawn : Event := mk "ef" "cat" 220 (deletion g "general" ["ec"]).
Definition ban : Event := mk "f0" "bob" 203 (ban_user g "cat").

Definition ran {A} (m : M A) (n : Inner) : Inner := (m n).1.
(** The group's history up to Cat's two messages, fetched. *)
Definition heard : list Arrival :=
  map (fun e => (at_ 210, Fetch, e)) (snapshot_events ++ [hello; second]).
Definition n1 : Inner := ran (accept_all heard) fresh.
(** Cat withdraws the first. *)
Definition n2 : Inner := ran (accept_event (at_ 225) Push withdrawn) n1.
(** Bob banned Cat before the second, this node hears after it. *)
Definition n3 : Inner := ran (accept_event (at_ 235) Push ban) n2.

Lemma clock t : 0 <= t -> t + MAX_CLOCK_SKEW <= I64_MAX -> clock_ok (at_ t).
Proof. by split. Qed.
Lemma heard_timed : timed heard.
Proof. repeat (constructor; [apply clock; vm_compute; discriminate|]). constructor. Qed.
Lemma empty_keeps G : (forall g, state G g = None) -> keeps empty_store G.
Proof.
  intros HG.
  assert (Hno : forall e, ~ holds empty_store e) by (intros e (r & Hr & _); by apply not_elem_of_nil in Hr).
  split.
  - apply (reachable_wf _ (rtc_refl _ _)).
  - intros e He. by apply Hno in He.
  - intros e He. by apply Hno in He.
  - intros gr st _ H. by rewrite HG in H.
  - intros gr st e x _ H. by rewrite HG in H.
  - intros d e _ H. by apply Hno in H.
  - intros r e _ H. by apply Hno in H.
Qed.
Lemma fresh_ok : node_ok fresh.
Proof.
  apply empty_keeps. intros gr. unfold state. cbn [n_groups fresh g_carried].
  destruct (decide (gr = g)) as [->|Hn]; [by rewrite lookup_singleton_eq|by rewrite lookup_singleton_ne].
Qed.
Lemma ran_ok {A} (m : M A) n Q : total m n Q -> (forall n' a, Q n' a -> node_ok n') -> node_ok (ran m n).
Proof. intros (n' & a & Hm & HQ) H. unfold ran. rewrite Hm. by apply (H n' a). Qed.
Lemma n1_book : book_wf (n_book n1).
Proof. apply (bool_decide_unpack _). vm_compute. exact I. Qed.
Lemma n1_ok : node_ok n1.
Proof.
  eapply ran_ok; [apply (accept_all_total (fun _ => True) _ _ heard_timed fresh_ok I); done|]. by intros n' vs [H _].
Qed.
Lemma accepted_ok n t src e : node_ok n -> clock_ok (at_ t) -> node_ok (ran (accept_event (at_ t) src e) n).
Proof. intros K Hc. eapply ran_ok; [by apply accept_total|]. intros n' v Ho. apply Ho. Qed.
Lemma n2_ok : node_ok n2.
Proof. apply accepted_ok; [apply n1_ok|apply clock; vm_compute; discriminate]. Qed.
Lemma n3_ok : node_ok n3.
Proof. apply accepted_ok; [apply n2_ok|apply clock; vm_compute; discriminate]. Qed.
Lemma runs {A} (m : M A) n r : (m n).2 = r -> m n = (ran m n, r).
Proof. intros <-. apply surjective_pairing. Qed.
End NodeWorld.

Module NodeWitnesses.
Import World NodeWorld.
#[local] Open Scope string_scope.
#[local] Open Scope Z_scope.

Lemma accept_all_keeps_witness :
  exists n' vs, accept_all heard fresh = (n', Ok vs) /\ length vs = 7%nat /\ node_ok n'.
Proof. exact (accept_all_keeps heard fresh heard_timed fresh_ok). Defined.

(** Cat's first message comes back after she withdrew it; the second comes twice. *)
Lemma refused_unchanged_witness :
  ran (accept_event (at_ 235) Push hello) n2 = n2 /\
  n_log (ran (accept_event (at_ 235) Push second) n2) = n_log n2.
Proof.
  assert (H1 : (accept_event (at_ 235) Push hello n2).2 = Ok (false, "blocked: withdrawn by its author"))
    by (vm_compute; reflexivity).
  assert (H2 : (accept_event (at_ 235) Push second n2).2 = Ok (true, "duplicate: already have it"))
    by (vm_compute; reflexivity).
  assert (Hc : clock_ok (at_ 235)) by (apply clock; vm_compute; discriminate).
  revert H1 H2. generalize n2_ok. generalize n2. intros n K H1 H2. split.
  - destruct (refused_unchanged n (at_ 235) Push hello _ _ K Hc (runs _ _ _ H1)) as (v & [= <-] & Hno & _).
    by apply Hno.
  - destruct (refused_unchanged n (at_ 235) Push second _ _ K Hc (runs _ _ _ H2)) as (v & [= <-] & _ & Hold).
    by apply Hold.
Defined.

Lemma taken_withdrawn : (accept_event (at_ 225) Push withdrawn n1).2 = Ok (true, "").
Proof. vm_compute. reflexivity. Qed.
Lemma clock_225 : clock_ok (at_ 225).
Proof. apply clock; vm_compute; discriminate. Qed.
Lemma clock_235 : clock_ok (at_ 235).
Proof. apply clock; vm_compute; discriminate. Qed.
Lemma taken_is_kept_witness : ev_verify withdrawn = true /\ holds (n_store n2) withdrawn.
Proof.
  unfold n2. generalize taken_withdrawn, n1_ok. generalize n1. intros n Ht K.
  destruct (taken_is_kept n (at_ 225) Push withdrawn _ K clock_225 (runs _ _ _ Ht)) as (H1 & _ & _ & H2).
  split; [exact H1|]. apply H2; [vm_compute; discriminate|vm_compute; discriminate].
Defined.

(** Pushed here, the withdrawal goes out by gossip: everyone reads the channel. *)
Lemma broadcast_sound_witness :
  last (n_log n2) = Some (Broadcast g withdrawn) /\
  exists st, state (n_groups n2) g = Some st /\ everyone_can_view st "general" = true.
Proof.
  assert (Hin : last (n_log n2) = Some (Broadcast g withdrawn)) by (vm_compute; reflexivity).
  split; [exact Hin|]. revert Hin.
  assert (Hnot : forallb (fun f => match f with Broadcast _ _ => false | _ => true end) (n_log n1) = true)
    by (vm_compute; reflexivity).
  revert Hnot. unfold n2. generalize taken_withdrawn, n1_ok. generalize n1. intros n Ht K Hnot Hin.
  apply last_Some_elem_of in Hin.
  destruct (broadcast_sound n (at_ 225) Push withdrawn _ _ K clock_225 (runs _ _ _ Ht)) as (l & Hl & Hb).
  rewrite Hl in Hin. apply elem_of_app in Hin as [Hin|Hin].
  - rewrite forallb_elem in Hnot. specialize (Hnot _ Hin). discriminate Hnot.
  - destruct (Hb g withdrawn Hin) as (_ & _ & _ & st & Hst & Hch). exists st. split; [exact Hst|].
    destruct Hch as (c & Hc & Hv); [vm_compute; reflexivity|].
    assert (E : channel_of withdrawn = Some "general") by (vm_compute; reflexivity).
    rewrite E in Hc. by injection Hc as <-.
Defined.

Lemma withdrawn_held : holds (n_store n2) withdrawn.
Proof.
  unfold n2. generalize taken_withdrawn, n1_ok. generalize n1. intros n Ht K.
  destruct (total_run _ _ _ _ _ (accept_total n (at_ 225) Push withdrawn K clock_225) (runs _ _ _ Ht))
    as (v & [= <-] & Ho).
  apply (o_taken _ _ _ _ _ Ho eq_refl); vm_compute; discriminate.
Qed.
Lemma withdraws_hello : takes_down withdrawn hello.
Proof.
  split; [|split; [vm_compute; reflexivity|left; split; vm_compute; reflexivity]].
  exists []. apply (bool_decide_unpack _). vm_compute. exact I.
Qed.
(** The ban, dated before Cat's second message, takes it. *)
Definition cats : Silence := mkSilence ("cat" : PublicKey) 203 None false.
Lemma taken_purges_witness : existsb (fun r => bool_decide (w_id r = ev_id second)) (t_events (n_store n2)) = true /\
  ~ holds (n_store n3) second.
Proof.
  split; [vm_compute; reflexivity|].
  assert (E : is_some_and (state (n_groups n3) g) (fun st => bool_decide (cats ∈ gs_silences st)) = true)
    by (vm_compute; reflexivity).
  assert (Ht : (accept_event (at_ 235) Push ban n2).2 = Ok (true, "")) by (vm_compute; reflexivity).
  revert E Ht. unfold n3. generalize n2_ok. generalize n2. intros n K E Ht.
  destruct (taken_purges n (at_ 235) Push ban _ K clock_235 (runs _ _ _ Ht)) as [_ H].
  destruct (state _ g) as [st|] eqn:Eo; [|discriminate E]. apply bool_decide_eq_true in E.
  apply (H g st cats second Eo E); [by intros u|reflexivity..|vm_compute; reflexivity].
Defined.

(** The ban closes Cat's connection, and leaves Bob's. *)
Definition book_of (l : list Event) : gmap (PublicKey * string) Event := insert_all 300 ∅ l.
Definition bind_ (id p d : string) : Event := mk id p 150 (binding_builder p d 150 DEFAULT_TTL).
Definition cat_conn : Conn := mkConn 1 tablet.
Definition bob_conn : Conn := mkConn 2 "laptop".
Definition n2' : Inner :=
  with_groups (n_groups n3)
    (with_gossip {[ g := [cat_conn; bob_conn] ]}
      (with_book (book_of [bind_ "d1" "cat" tablet; bind_ "d2" "bob" "laptop"]) n2)).
Lemma gate_after_change_witness :
  n_gossip (ran (group_changed (at_ 235) g) n2') !! g = Some [bob_conn] /\
  Closed cat_conn ∈ n_log (ran (group_changed (at_ 235) g) n2').
Proof.
  assert (E : n_gossip (ran (group_changed (at_ 235) g) n2') !! g = Some [bob_conn])
    by (vm_compute; reflexivity).
  split; [exact E|].
  assert (El : n_gossip n2' !! g = Some [cat_conn; bob_conn]) by (vm_compute; reflexivity).
  revert E El. generalize n2'. intros n E El.
  destruct (gate_after_change (at_ 235) g n _ _ (runs _ _ _ eq_refl)) as (_ & _ & _ & _ & _ & _ & _ & H).
  destruct (H _ cat_conn El) as [Hc|(l & Hl & Hin)]; [by apply list_elem_of_here|reflexivity|exact Hc|].
  rewrite E in Hl. injection Hl as <-. apply list_elem_of_singleton in Hin. discriminate Hin.
Defined.
End NodeWitnesses.

(** ** Calls that overlap *)
Module OverlapWitnesses.
Import World NodeWorld NodeWitnesses.
#[local] Open Scope string_scope.
#[local] Open Scope Z_scope.
#[local] Open Scope list_scope.

(** The events there are, and a script of what the calls on them do. *)
Definition there : list Event := snapshot_events ++ [hello; second; withdrawn; ban].
Definition known (e : Event) : Prop := e ∈ there.
Inductive Move := Begins (i : nat) (t : Z) (src : Source) (e : Event) | Goes (i : nat) | Ends (i : nat) | Drops (i : nat).
Definition has_lock (l : Lock) (calls : gmap nat Handling) : bool :=
  forallb (fun h => match l with
    | Writes _ => bool_decide (h_lock h = NoLock)
    | Reads => match h_lock h with Writes _ => false | _ => true end
    | NoLock => true end) (map snd (map_to_list calls)).
Definition play (w : World) (m : Move) : World :=
  match m with
  | Begins i t src e =>
      if negb (opt_bool (w_calls w !! i)) && bool_decide (e ∈ there) && (0 <=? t) && (t <=? 1000) && has_lock (lock_of e) (w_calls w)
      then mkWorld (w_node w) (<[i := mkHandling (lock_of e) (Some e) (accept_co (at_ t) src e)]> (w_calls w)) (w_cut w) else w
  | Goes i =>
      match w_calls w !! i with
      | Some h => match advance (h_rest h) (w_node w) with
                  | (n, Some (Ok c)) => mkWorld n (<[i := mkHandling (h_lock h) (h_event h) c]> (w_calls w)) (w_cut w)
                  | _ => w
                  end
      | None => w
      end
  | Ends i =>
      match w_calls w !! i with
      | Some h => match h_rest h with Is _ => mkWorld (w_node w) (delete i (w_calls w)) (w_cut w) | _ => w end
      | None => w
      end
  | Drops i =>
      match w_calls w !! i with
      | Some h => mkWorld (w_node w) (delete i (w_calls w)) (cut_of (h_lock h) ++ w_cut w)
      | None => w
      end
  end.
Lemma has_lock_free l calls : has_lock l calls = true -> free_for l calls.
Proof.
  intros H i h Hi. unfold has_lock in H. rewrite forallb_elem in H.
  assert (Hin : h ∈ map snd (map_to_list calls)) by (apply list_elem_of_fmap; exists (i, h); split; [done|by apply elem_of_map_to_list]).
  specialize (H h Hin). destruct l; [by apply bool_decide_eq_true in H| |done]. by destruct (h_lock h).
Qed.
Lemma plays w ms : rtc (overlaps known) w (foldl play w ms).
Proof.
  revert w. induction ms as [|m ms IH]; intros w; [done|]. cbn [foldl]. etrans; [|apply IH]. destruct m as [i t src e|i|i|i]; cbn [play].
  - destruct (w_calls w !! i) as [h|] eqn:Ei; [done|]. cbn [opt_bool negb andb]. case_bool_decide as He; [|done]. cbn [andb].
    destruct (Z.leb_spec 0 t); [|done]. destruct (Z.leb_spec t 1000); [|done]. destruct (has_lock _ _) eqn:El; [|done]. cbn [andb].
    apply rtc_once, o_begins; [done| |done|by apply has_lock_free]. apply clock; [done|]. unfold MAX_CLOCK_SKEW, I64_MAX. lia.
  - destruct (w_calls w !! i) as [h|] eqn:Ei; [|done]. destruct (advance _ _) as [n [[c|]|]] eqn:Ea; [|done|done]. by eapply rtc_once, o_goes_on.
  - destruct (w_calls w !! i) as [h|] eqn:Ei; [|done]. destruct (h_rest h) as [v|] eqn:Er; [|done]. by eapply rtc_once, o_ends.
  - destruct (w_calls w !! i) as [h|] eqn:Ei; [|done]. by eapply rtc_once, o_dropped.
Qed.
Definition holds_here (w : World) (e : Event) : bool := existsb (fun r => bool_decide (w_id r = ev_id e)) (t_events (n_store (w_node w))).
Definition begun (n : Inner) : World := mkWorld n ∅ [].
Definition runs_out (i : nat) : list Move := repeat (Goes i) 30 ++ [Ends i].
(** The group, before anyone spoke. *)
Definition quiet_node : Inner := ran (accept_all (map (fun e => (at_ 205, Fetch, e)) snapshot_events)) fresh.
(** Cat's message and her withdrawal of it, each by its own session: the message
    is asked about, the withdrawal stored and applied to nothing, the message
    stored.  Both are held. *)
Example both_held : let w := foldl play (begun quiet_node)
    ([Begins 0 210 Push hello; Goes 0; Goes 0; Goes 0; Begins 1 225 Push withdrawn] ++ runs_out 1 ++ runs_out 0) in
  (holds_here w hello, holds_here w withdrawn, size (w_calls w)) = (true, true, 0%nat).
Proof. vm_compute. reflexivity. Qed.
(** The session that brought the withdrawal is dropped between storing and
    applying it: both are held, and offered again it is a duplicate. *)
Example never_applied : let w := foldl play (begun n1)
    ([Begins 0 225 Fetch withdrawn; Goes 0; Goes 0; Drops 0; Begins 1 235 Fetch withdrawn] ++ runs_out 1) in
  (holds_here w hello, holds_here w withdrawn, size (w_calls w)) = (true, true, 0%nat).
Proof. vm_compute. reflexivity. Qed.
(** A ban and what Cat said after it cannot overlap: the second waits. *)
Example ban_waits : let w := foldl play (begun n1)
    ([Begins 0 235 Push ban; Goes 0; Begins 1 236 Push second] ++ runs_out 0) in
  (holds_here w ban, holds_here w second, size (w_calls w)) = (true, false, 0%nat).
Proof. vm_compute. reflexivity. Qed.
Lemma one_of_each : one_kind known.
Proof.
  intros x y Hx Hy E. assert (Hn : NoDup (map ev_id there)) by (apply (bool_decide_unpack _); vm_compute; exact I).
  by rewrite (ids_distinct there Hn x y Hx Hy E).
Qed.
Definition all_known (n : Inner) : bool :=
  forallb (fun r => match event_of r with Some e => bool_decide (e ∈ there) | None => true end) (t_events (n_store n)).
Lemma begins_known n : node_ok n -> all_known n = true -> begins known n.
Proof.
  intros K H. split; [done|]. intros e (r & Hr & He). unfold all_known in H. rewrite forallb_elem in H. specialize (H r Hr).
  rewrite He in H. by apply bool_decide_eq_true in H.
Qed.
Lemma n1_begins : begins known n1.
Proof. apply begins_known; [apply n1_ok|vm_compute; reflexivity]. Qed.
(** The withdrawal and the message it names overlap; then Bob's ban. *)
Definition script : list Move := [Begins 0 225 Push withdrawn; Goes 0; Begins 1 230 Push hello] ++ runs_out 0 ++ runs_out 1 ++
  [Begins 2 235 Push ban] ++ runs_out 2.
Definition played : World := foldl play (begun n1) script.
Lemma played_reached : rtc (overlaps known) (begun n1) played.
Proof. unfold played. apply plays. Qed.
Lemma overlapping_sound_witness : holds_here (begun n1) second = true /\ ~ holds (n_store (w_node played)) second.
Proof.
  split; [vm_compute; reflexivity|]. pose proof played_reached as Hr.
  assert (Hcut : w_cut played = []) by (vm_compute; reflexivity).
  assert (Hno : size (w_calls played) = 0%nat) by (vm_compute; reflexivity).
  assert (E : is_some_and (state (n_groups (w_node played)) g) (fun st => bool_decide (cats ∈ gs_silences st)) = true)
    by (vm_compute; reflexivity).
  revert Hr Hcut Hno E. generalize n1_begins. generalize n1, played. intros n w Hn Hr Hcut Hno E He.
  destruct (overlapping_sound known n w one_of_each Hn Hr) as (_ & _ & _ & H & _).
  destruct (state _ g) as [st|] eqn:Eo; [|discriminate E]. apply bool_decide_eq_true in E.
  destruct (H g st) as [_ Hs]; [rewrite Hcut; apply not_elem_of_nil| |exact Eo|].
  - intros i h Hi. apply map_size_empty_inv in Hno. rewrite Hno in Hi. by rewrite lookup_empty in Hi.
  - specialize (Hs second cats He). assert (Hc : covers cats (ev_created_at second) = true) by (vm_compute; reflexivity).
    rewrite Hs in Hc; [discriminate Hc|vm_compute; reflexivity..|exact E|by intros u|reflexivity].
Defined.
(** Withdrawn; and handed again by two at once, and by one that is dropped. *)
Definition taken_back : World := foldl play (begun n1) ([Begins 0 225 Push withdrawn] ++ runs_out 0).
Definition again : list Move := [Begins 1 240 Push hello; Begins 2 241 Gossip hello; Goes 1; Goes 2; Goes 2; Drops 2] ++ runs_out 1.
Lemma taken_reached : rtc (overlaps known) (begun n1) taken_back.
Proof. unfold taken_back. apply plays. Qed.
Definition in_store (n : Inner) (e : Event) : bool := existsb (fun r => bool_decide (event_of r = Some e)) (t_events (n_store n)).
Lemma in_store_holds n e : in_store n e = true <-> holds (n_store n) e.
Proof.
  unfold in_store, holds. rewrite existsb_elem. by setoid_rewrite bool_decide_eq_true.
Qed.
Lemma taken_down_stays_down_witness : let w := foldl play taken_back again in
  holds (n_store (w_node w)) withdrawn /\ ~ holds (n_store (w_node w)) hello.
Proof.
  assert (Hd : in_store (w_node taken_back) withdrawn = true) by (vm_compute; reflexivity).
  assert (He : in_store (w_node taken_back) hello = false) by (vm_compute; reflexivity).
  assert (Hsize : size (w_calls taken_back) = 0%nat) by (vm_compute; reflexivity).
  revert Hd He Hsize. generalize n1_begins, taken_reached. generalize n1, taken_back. intros n w Hn Hr Hd He Hsize.
  apply (proj2 (taken_down_stays_down withdrawn hello withdraws_hello) known n w _ one_of_each Hn Hr).
  - by apply in_store_holds.
  - intros Hh. apply in_store_holds in Hh. congruence.
  - intros i h Hi. apply map_size_empty_inv in Hsize. rewrite Hsize in Hi. by rewrite lookup_empty in Hi.
  - apply plays.
Defined.
End OverlapWitnesses.
