(* ===== verification/WireWitnesses.v ===== *)
(** The wire, the profiles and the relay on concrete inputs: instances of the
    crates they take their formats from, each with the laws the theorems rest
    on proved of it, and the theorems applied to the sample group's node. *)
From S2P Require Import Prelude Text Nostr GroupEvent Replace Perm Zap GroupState Fold FoldOrder.
From S2P Require Import Binding Dm Groups EventStore StoreSpec StoreEffect Proto Person Node NodeSpec Accept NodeOps Session Relay RelaySpec.
From S2P Require Import Witnesses NodeWitnesses.

#[local] Existing Instance Sample.types.
#[local] Existing Instance Sample.ops.
#[local] Existing Instance Sample.laws.
#[local] Existing Instance SampleDevice.types.
#[local] Existing Instance SampleDevice.ops.
#[local] Existing Instance SampleDevice.laws.
#[local] Existing Instance DeviceWitnesses.crypto.
#[local] Existing Instance StoreWitnesses.json.

(** ** Formats *)
Module SampleWire.
#[local] Open Scope string_scope.
#[local] Open Scope Z_scope.

(** Hex is made of letters and digits. *)
Lemma hex_byte c : link_byte (Sample.nibble (nat_of_ascii c / 16)) = true /\
  link_byte (Sample.nibble (nat_of_ascii c mod 16)) = true /\
  Sample.nibble (nat_of_ascii c / 16) <> "n"%char.
Proof. by destruct c as [[] [] [] [] [] [] [] []]; vm_compute. Qed.
Lemma hex_link_word b : link_word (Sample.hex b) = true.
Proof.
  unfold link_word. induction b as [|c b IH]; [done|]. cbn [Sample.hex all_bytes].
  destruct (hex_byte c) as (-> & -> & _). exact IH.
Qed.
Lemma hex_strip s b : strip_prefix (String "n" s) (Sample.hex b) = None.
Proof.
  destruct b as [|c b]; [done|]. destruct (hex_byte c) as (_ & _ & Hn).
  cbn [Sample.hex strip_prefix]. by rewrite bool_decide_false by (intros E; by apply Hn).
Qed.
(** Text of bytes that are a string's. *)
Definition text_of (l : list Z) : string := foldr (fun b t => String (ascii_of_nat (Z.to_nat b)) t) "" l.
Lemma text_of_bytes s : text_of (bytes_of s) = s.
Proof.
  induction s as [|c s IH]; [done|]. cbn [bytes_of text_of foldr]. unfold text_of in IH. rewrite IH.
  f_equal. unfold byte_of. destruct c as [[] [] [] [] [] [] [] []]; reflexivity.
Qed.

(** JSON as a list of strings; a string is the list of one. *)
Definition json_of (l : list Z) : option (list string) :=
  match (Sample.read_rows (text_of l)).2 with [row] => Some row | _ => None end.
#[export] Instance wire : WireTypes := {|
  pk_to_bech32 p := Some ("npub1" +:+ Sample.hex p);
  pk_from_bech32 s := let! h := strip_prefix "npub1" s in Sample.read_hex h;
  SocketAddr := string; addr_show := Sample.hex; addr_parse := Sample.read_hex;
  Json := list string; json_from_slice := json_of;
  as_array v := Some (map (fun s => [s]) v);
  as_str v := match v with [s] => Some s | _ => None end;
  event_from_value v := match v with [s] => Sample.from_json s | _ => None end;
  json_pair n e := bytes_of (Sample.write_rows [[n; Sample.as_json e]]);
|}.
#[export] Instance wire_laws : WireLaws.
Proof.
  split; cbn [pk_to_bech32 pk_from_bech32 pk_to_hex pk_from_hex addr_parse addr_show ep_to_string wire
              Sample.types SampleDevice.types json_pair json_from_slice as_array as_str event_from_value].
  - intros p s [= <-]. rewrite (strip_prefix_app "npub1"). apply Sample.read_hex_inv.
  - intros p. by rewrite hex_strip.
  - apply Sample.read_hex_inv.
  - intros p s [= <-]. apply (hex_link_word p).
  - apply hex_link_word.
  - apply hex_link_word.
  - apply hex_link_word.
  - intros n e. exists [n; Sample.as_json e], [n], [Sample.as_json e]. unfold json_of.
    rewrite text_of_bytes, Sample.read_write_rows. split; [done|]. split; [done|]. split; [done|].
    apply Sample.json_round_trip.
Qed.

(** Profiles: the fields, written whole as one number's digits. *)
Definition Meta : Type := option string * option string * option string * gmap string (list string) * string.
Definition own_name (k : string) : bool := bool_decide (k ∈ ["name"; "display_name"; "lud16"]).
Definition unowned (m : gmap string (list string)) : bool :=
  bool_decide (map_Forall (fun k _ => own_name k = false) m).
Definition write_meta (m : Meta) : string := Sample.digits (encode m).
Definition read_meta (s : string) : option Meta := decode (Sample.read_digits s).
#[export] Instance profile : ProfileTypes := {|
  Metadata := Meta; Rest := string; metadata a b c d r := (a, b, c, d, r);
  m_name m := m.1.1.1.1; m_display_name m := m.1.1.1.2; m_lud16 m := m.1.1.2; m_custom m := m.1.2; m_rest m := m.2;
  rest_default := "";
  metadata_of e := let! m := read_meta (ev_content e) in if unowned m.1.2 then Some m else None;
  into_builder m := mkBuilder METADATA (write_meta m) [] None;
  own_field := own_name;
  as_bool j := match j with [s] => if bool_decide (s = "true") then Some true
                                   else if bool_decide (s = "false") then Some false else None | _ => None end;
  json_bool b := [if b then "true" else "false"]; json_str s := [s];
  keys_parse s := let! h := match strip_prefix "nsec1" s with Some h => Some h | None => Some s end in
                  Sample.read_hex h;
  secret_bech32 k := Some ("nsec1" +:+ Sample.hex k); secret_hex k := Sample.hex k;
|}.
Lemma hex_trim s b : link_word s = true -> trim (s +:+ Sample.hex b) = s +:+ Sample.hex b.
Proof. intros Hs. apply trim_graphic, word_graphic. unfold link_word in *. rewrite all_bytes_app, Hs. apply hex_link_word. Qed.
#[export] Instance profile_laws : ProfileLaws.
Proof.
  split; cbn [m_name m_display_name m_lud16 m_custom m_rest metadata metadata_of into_builder own_field as_bool
              json_bool json_str as_str keys_parse secret_bech32 secret_hex profile wire b_kind b_tags b_created_at b_content].
  - done.
  - by intros [[[[a b] c] d] r].
  - intros m e Hm ->. unfold write_meta, read_meta. rewrite Sample.read_digits_inv, decode_encode. cbn.
    assert (unowned m.1.2 = true) as ->; [|done]. apply bool_decide_eq_true. intros k v Hk.
    destruct (own_name k) eqn:E; [|done]. specialize (Hm k E). cbn in Hm. congruence.
  - intros e m k. destruct (read_meta (ev_content e)) as [m'|]; [|done]. cbn.
    destruct (unowned m'.1.2) eqn:E; [|done]. intros [= ->] Hk. apply bool_decide_eq_true in E.
    apply eq_None_not_Some. intros [v Hv]. apply E in Hv. congruence.
  - done.
  - done.
  - by intros [].
  - done.
  - intros k s [= <-]. rewrite (strip_prefix_app "nsec1"). split; [apply Sample.read_hex_inv|].
    by apply (hex_trim "nsec1").
  - intros k. rewrite hex_strip. cbn. split; [apply Sample.read_hex_inv|]. by apply (hex_trim "").
Qed.

#[export] Instance node_types : NodeTypes := {|
  tag_event i := ["e"; id_to_hex i]; Path := string; extension p := None; file_name p := Some p;
|}.
(** Messages as rows; every filter a peer may write asks for everything. *)
Definition read_client (s : string) : option ClientMessage :=
  match (Sample.read_rows s).2 with
  | [["EVENT"; e]] => let! e := Sample.from_json e in Some (CEvent e)
  | [["REQ"; sub]] => Some (CReq sub [no_filter])
  | [["CLOSE"; sub]] => Some (CClose sub)
  | [["NEG-OPEN"; sub; m]] => Some (CNegOpen sub no_filter m)
  | [["NEG-MSG"; sub; m]] => Some (CNegMsg sub m)
  | [["NEG-CLOSE"; sub]] => Some (CNegClose sub)
  | [["AUTH"; e]] => let! e := Sample.from_json e in Some (CAuth e)
  | [[_]] => Some COther
  | _ => None
  end.
Definition write_relay_rows (m : RelayMessage) : list string :=
  match m with
  | REvent sub e => ["EVENT"; sub; Sample.as_json e]
  | ROk id ok why => ["OK"; id; if ok then "true" else "false"; why]
  | REose sub => ["EOSE"; sub]
  | RClosed sub why => ["CLOSED"; sub; why]
  | RNotice why => ["NOTICE"; why]
  | RNegMsg sub m => ["NEG-MSG"; sub; m]
  | RNegErr sub why => ["NEG-ERR"; sub; why]
  | RAuth c => ["AUTH"; c]
  | ROther => []
  end.
Definition read_relay (s : string) : option RelayMessage :=
  match (Sample.read_rows s).2 with
  | [["EVENT"; sub; e]] => let! e := Sample.from_json e in Some (REvent sub e)
  | [["OK"; id; ok; why]] => Some (ROk id (bool_decide (ok = "true")) why)
  | [["EOSE"; sub]] => Some (REose sub)
  | [["CLOSED"; sub; why]] => Some (RClosed sub why)
  | [["NOTICE"; why]] => Some (RNotice why)
  | [["NEG-MSG"; sub; m]] => Some (RNegMsg sub m)
  | [["NEG-ERR"; sub; why]] => Some (RNegErr sub why)
  | [["AUTH"; c]] => Some (RAuth c)
  | [[]] => Some ROther
  | _ => None
  end.
Definition write_client_rows (m : ClientMessage) : list string :=
  match m with
  | CEvent e => ["EVENT"; Sample.as_json e]
  | CReq sub _ => ["REQ"; sub]
  | CClose sub => ["CLOSE"; sub]
  | CNegOpen sub _ m => ["NEG-OPEN"; sub; m]
  | CNegMsg sub m => ["NEG-MSG"; sub; m]
  | CNegClose sub => ["NEG-CLOSE"; sub]
  | CAuth e => ["AUTH"; Sample.as_json e]
  | COther => [""]
  end.
(** Reconciling: a message is the list of ids its sender has. *)
Definition listed (m : string) : list string := concat (Sample.read_rows m).2.
#[export] Instance relay : RelayTypes := {|
  client_from_json := read_client; client_as_json m := Sample.write_rows [write_client_rows m];
  relay_from_json := read_relay; relay_as_json m := Sample.write_rows [write_relay_rows m];
  Neg := list (Timestamp * EventId);
  neg_new l := Some l; neg_initiate n := Some (n, "");
  neg_reconcile n m := (n, Some m);
  neg_reconcile_with_ids n m :=
    Some (n, List.filter (fun i => negb (bool_decide (i ∈ listed m))) (map snd n),
          List.filter (fun i => negb (bool_decide (i ∈ map snd n))) (listed m), None);
  error_text _ := "no";
|}.
End SampleWire.

(** ** The wire *)
Module WireExamples.
Import SampleWire.
#[local] Open Scope string_scope.
#[local] Open Scope Z_scope.

(** Two frames, delivered a byte and then the rest. *)
Definition sent : list Z := [3; 0; 0; 0; 104; 105; 33; 1; 0; 0; 0; 7].
Lemma framing_round_trip_witness :
  exists s, read_all 2 [Bytes [3]; Bytes (drop 1 sent)] = ([Ok [104; 105; 33]; Ok [7]], s) /\
    fst (read_frame s) = Err FrameClosed.
Proof. apply (framing_round_trip [[104; 105; 33]; [7]] sent); reflexivity. Defined.

Definition link : InviteLink := mkInviteLink ("group" : PublicKey) (Some "c0de")
  (replicate 9 ("phone", Some "10.0.0.1") : list (EndpointId * option SocketAddr)).
Definition contact : ContactLink := mkContactLink ("ann" : PublicKey) [("phone", None) : EndpointId * option SocketAddr].
Lemma links_round_trip_witness :
  InviteLink_parse (InviteLink_show link) = Ok (mkInviteLink (il_group link) (Some "c0de") (take 8 (il_peers link))) /\
  ContactLink_parse (ContactLink_show contact) = Ok contact.
Proof.
  destruct links_round_trip as [Hi Hc]. split.
  - apply (Hi link). intros c [= <-]. vm_compute. reflexivity.
  - apply (Hc contact). discriminate.
Defined.

Definition kept : gmap string string := {[ "someone" := "a secret" ]}.
Definition ann_keys : Keys := "ann"%string.
Lemma keys_round_trip_witness :
  person_load (<[key_npub ann_keys := reveal_nsec_for_backup ann_keys]> kept) (key_npub ann_keys) = Ok (Some ann_keys).
Proof.
  assert (Hs : person_save ann_keys kept = Ok (<[key_npub ann_keys := reveal_nsec_for_backup ann_keys]> kept))
    by reflexivity.
  destruct (keys_round_trip kept ann_keys _ Hs) as [H _]. exact H.
Defined.

(** An anchor renamed is an anchor still. *)
Definition signed_of (b : EventBuilder) : Event := World.mk "p1" "ann" 100 b.
Definition anchor : Event := signed_of (as_anchor None "ann's box").
Lemma profile_edits_witness : is_anchor (signed_of (with_name (Some anchor) " box ")) = true.
Proof.
  destruct (profile_edits (Some anchor) (signed_of (with_name (Some anchor) " box "))) as (Hn & _).
  destruct (Hn " box ") as (_ & _ & _ & -> & _); [split; reflexivity|].
  destruct (profile_edits None anchor) as (_ & Ha & _). by destruct (Ha "ann's box") as [H _].
Defined.

Lemma announcement_round_trip_witness :
  (forall e, announce ann_keys " the group" "about  it" 7 "hit-enter:join?g=1" 400 = Ok e ->
     announcement_read e = Some (Public (mkAnnouncement ("ann" : PublicKey) "the group" (spaced "about  it") 7
                                           "hit-enter:join?g=1" 400))).
Proof.
  assert (Hn : spaced " the group" = "the group") by (vm_compute; reflexivity).
  assert (H1 : chars_count (spaced " the group") <= MAX_NAME) by (vm_compute; discriminate).
  assert (H2 : chars_count (spaced "about  it") <= MAX_ABOUT) by (vm_compute; discriminate).
  assert (H3 : str_len "hit-enter:join?g=1" <= MAX_LINK) by (vm_compute; discriminate).
  assert (H0 : spaced " the group" <> "") by (rewrite Hn; discriminate).
  assert (Hm : is_u64 7) by (split; vm_compute; discriminate).
  intros e He. rewrite <- Hn.
  exact (proj1 (announcement_round_trip ann_keys " the group" "about  it" 7 "hit-enter:join?g=1" 400 Hm H0 H1 H2 H3) e He).
Defined.
End WireExamples.

(** ** A session with Bob, and one with a stranger *)
Module RelayWitnesses.
Import World NodeWorld SampleWire.
#[local] Open Scope string_scope.
#[local] Open Scope Z_scope.

Definition laptop : EndpointId := "laptop"%string.
Definition bobs : Event := NodeWitnesses.bind_ "d2" "bob" laptop.
Definition ask (row : list string) : list Z := bytes_of (Sample.write_rows [row]).
Definition bodies : list (Env * list Z) :=
  [(at_ 225, hello_encode bobs); (at_ 226, ask ["REQ"; "s"]); (at_ 227, ask ["NEG-OPEN"; "n"; "00"])].
Definition ended : Env * FrameError := (at_ 230, FrameClosed).
Definition said (s : Sent) : string :=
  match s with
  | Hello _ => "hello" | Says (REvent _ e) => "event " +:+ ev_id e | Says (REose _) => "eose"
  | Says (RNotice _) => "notice" | Says (RNegMsg _ _) => "neg" | Says _ => "other"
  end.
Example session_with_bob : map said (x_out (accept laptop bodies ended n1).1) =
  ["hello"; "event ee"; "event ec"; "event d2"; "event e1"; "event e2"; "event e3"; "event e4"; "event e0"; "eose"; "neg"].
Proof. vm_compute. reflexivity. Qed.
Example session_with_stranger : map said (x_out (accept tablet bodies ended n1).1) = ["notice"].
Proof. vm_compute. reflexivity. Qed.

Definition peer : PublicKey := "bob"%string.
Definition asked : list (Env * list Z) := tail bodies.
Definition served : (Sess * Inner) * result NodeError unit := turns peer asked (mkSess ∅ [], n1).
Lemma served_eq : turns peer asked (mkSess ∅ [], n1) = (served.1, served.2).
Proof. exact (surjective_pairing (turns peer asked (mkSess ∅ [], n1))). Qed.
Definition served_one : (Sess * Inner) * result NodeError unit :=
  turn (at_ 226) peer (ask ["REQ"; "s"]) (mkSess ∅ [], n1).
Lemma served_one_eq : turn (at_ 226) peer (ask ["REQ"; "s"]) (mkSess ∅ [], n1) = (served_one.1, served_one.2).
Proof. exact (surjective_pairing (turn (at_ 226) peer (ask ["REQ"; "s"]) (mkSess ∅ [], n1))). Qed.
Lemma bodies_timed : Forall (fun b => clock_ok b.1) bodies.
Proof. repeat (constructor; [apply clock; vm_compute; discriminate|]). constructor. Qed.
(** Bob is told of Cat's message, having shown his binding for the laptop. *)
Lemma session_safe_witness : exists presented greeted, hello_decode (hello_encode bobs) = Ok presented /\
  served_at (ev_pubkey presented) (tail bodies) greeted (Says (REvent "s" hello)).
Proof.
  assert (Hb : book_wf (n_book n1)) by (apply (bool_decide_unpack _); vm_compute; exact I).
  assert (He : clock_ok ended.1) by (apply clock; vm_compute; discriminate).
  assert (Hin : Says (REvent "s" hello) ∈ x_out (accept laptop bodies ended n1).1).
  { apply (list_elem_of_lookup_2 _ 2). vm_compute. reflexivity. }
  destruct (session_safe laptop bodies ended n1 n1_ok Hb bodies_timed He) as [_ H].
  destruct (H _ Hin I) as (env & first & rest & presented & greeted & Hbs & Hd & _ & _ & Hs).
  injection Hbs as _ <- <-. exists presented, greeted. split; [exact Hd|exact Hs].
Defined.

Lemma served_readable_witness : exists m : Inner, node_ok m /\ holds (n_store m) hello.
Proof.
  assert (Ht : Forall (fun b => clock_ok b.1) asked) by exact (Forall_inv_tail bodies_timed).
  assert (Hin : Says (REvent "s" hello) ∈ x_out served.1.1).
  { apply (list_elem_of_lookup_2 _ 1). vm_compute. reflexivity. }
  destruct (served_readable peer asked n1 served.1 served.2 "s" hello n1_ok Ht served_eq Hin)
    as (before & env & body & after & x & m & _ & _ & K & Hh & _).
  exists m. split; [exact K|exact Hh].
Defined.

Lemma every_request_answered_witness : exists l,
  x_out served_one.1.1 = l /\
  answers (CReq "s" [no_filter]) l.
Proof.
  assert (Hc : clock_ok (at_ 226)) by (apply clock; vm_compute; discriminate).
  assert (Hx : Z.of_nat (size (x_negs (mkSess ∅ []))) <= MAX_NEG_SESSIONS) by (vm_compute; discriminate).
  destruct (every_request_answered (at_ 226) peer (ask ["REQ"; "s"]) (mkSess ∅ []) n1 served_one.1 served_one.2
    n1_ok Hc Hx served_one_eq) as (_ & _ & l & Hl & _ & Hr).
  exists l. split; [exact Hl|].
  assert (E : served_one.2 = Ok tt) by (vm_compute; reflexivity).
  rewrite E in Hr. exact Hr.
Defined.

Lemma reconcilable_spec_witness : exists evs, reconcilable (at_ 225) peer no_filter n1 = (n1, Ok evs) /\
  (hello ∈ evs <-> holds (n_store n1) hello /\ event_matches no_filter hello = true /\
     Groups_may_read (n_groups n1) peer hello (now (at_ 225)) = true /\ (ev_kind hello = DEVICE_BINDING ->
       ev_pubkey hello <> me n1 /\ ev_pubkey hello <> peer /\
       exists exp, tags_expiration (ev_tags hello) = Some exp /\ now (at_ 225) < exp)).
Proof.
  assert (Hf : filter_ok no_filter) by (split; [|split]; [discriminate..|intros nv Hnv; by apply not_elem_of_nil in Hnv]).
  destruct (reconcilable_spec n1 (at_ 225) peer no_filter n1_ok Hf eq_refl eq_refl) as (evs & He & H).
  exists evs. split; [exact He|exact (H hello)].
Defined.
End RelayWitnesses.
