(* ===== verification/SyncWitnesses.v ===== *)
(** Ann's node syncs with Bob's laptop, follows and joins by links, and keeps
    and serves files: the theorems about dialling and files, applied. *)
From stdpp Require Import relations.
From S2P Require Import Prelude Text Nostr GroupEvent Replace Perm Zap GroupState Fold FoldOrder.
From S2P Require Import Binding Dm Groups EventStore StoreSpec StoreEffect Proto Person.
From S2P Require Import Node NodeSpec Accept NodeOps NodeGroups Session Relay RelaySpec Sync SyncSpec Blobs BlobsSpec SyncLoop SyncLoopSpec.
From S2P Require Import Witnesses NodeWitnesses WireWitnesses.

#[local] Existing Instance Sample.types.
#[local] Existing Instance Sample.ops.
#[local] Existing Instance Sample.laws.
#[local] Existing Instance SampleDevice.types.
#[local] Existing Instance SampleDevice.ops.
#[local] Existing Instance SampleDevice.laws.
#[local] Existing Instance DeviceWitnesses.crypto.
#[local] Existing Instance StoreWitnesses.json.

Module SyncWitnesses.
Import World NodeWorld SampleWire RelayWitnesses.
#[local] Open Scope string_scope.
#[local] Open Scope Z_scope.

#[export] Instance dialled : SyncTypes := {| fmt_short d := d |}.
#[export] Instance neg_laws : NegLaws.
Proof.
  refine {| neg_holds := fun (s : Neg) i => i ∈ map snd (s : list (Timestamp * EventId)) |}.
  - by intros l s i [= ->].
  - by intros s s' m i [= -> _].
  - intros s m s' have need out i [= <- <- _ _]. by intros [[? _]%filter_elem|?].
Defined.

Definition say (row : list string) : list Z := bytes_of (Sample.write_rows [row]).
Definition ids (l : list string) : string := hex_encode (Sample.write_rows [l]).
(** Bob has the group's events, not Cat's messages, and a ban of her. *)
Definition frames : list (list Z) :=
  [hello_encode bobs;
   say ["NEG-MSG"; "sync"; ids ["e0"; "e1"; "e2"; "e3"; "e4"; "f0"]];
   say ["EVENT"; "fetch"; Sample.as_json ban]; say ["EOSE"; "fetch"];
   say ["OK"; "ec"; "false"; "blocked"]; say ["OK"; "ee"; "true"; ""]; say ["OK"; "b0"; "true"; ""]].
Definition line : Line := mkLine frames FrameClosed [] (fun k => at_ (240 + Z.of_nat k)) 0.
Definition synced := sync laptop None (line, n1).
Definition shown (a : Asked) : string :=
  match a with
  | Greets _ => "hello" | Asks (CEvent e) => "event " +:+ ev_id e | Asks (CReq _ _) => "req"
  | Asks (CNegOpen _ _ _) => "open" | Asks (CNegClose _) => "close" | Asks _ => "other"
  end.
(** The ban is fetched and taken, and Cat's message it covers is gone before
    it is pushed; the other is pushed, and refused. *)
Example sync_with_bob : synced.2 = Ok (mkStats 1 1 2 1 0 0 1) /\
  map shown (l_out synced.1.1) = ["hello"; "open"; "close"; "req"; "event ec"].
Proof. vm_compute. by split. Qed.

Lemma ticks m : l_clock line m = at_ (240 + Z.of_nat m) /\ (0 <= 240 + Z.of_nat m).
Proof. split; [reflexivity|]. pose proof (Nat2Z.is_nonneg m). lia. Qed.
(** A clock that stops before the end of time. *)
Definition calm_line : Line := mkLine frames FrameClosed [] (fun _ => at_ 240) 0.
Lemma calm k : clock_ok (l_clock calm_line k).
Proof. apply clock; vm_compute; discriminate. Qed.

Lemma sync_ends_witness : exists x' n' r, sync laptop None (calm_line, n1) = ((x', n'), r) /\ node_ok n'.
Proof.
  destruct (sync_ends laptop None calm_line n1 n1_ok n1_book calm) as (x' & n' & r & H & K & _).
  exists x', n', r. split; [exact H|exact K].
Defined.
(** Dan is no member here: what he said waits, and is refused in the end. *)
Lemma fetched_settles_witness : exists x' n' t, take_all [dan_says; ban] (calm_line, n1) = ((x', n'), Ok t) /\
  tk_new t + tk_dup t + Z.of_nat (length (tk_waiting t)) = 2.
Proof.
  destruct (fetched_settles [dan_says; ban] calm_line n1 n1_ok n1_book calm) as (x' & n' & t & H & _ & Hs & _).
  exists x', n', t. split; [exact H|exact Hs].
Defined.
Definition calmly : (Line * Inner) * result NodeError SyncStats := sync laptop None (calm_line, n1).
Lemma calmly_eq : sync laptop None (calm_line, n1) = ((calmly.1.1, calmly.1.2), calmly.2).
Proof. unfold calmly. destruct (sync laptop None (calm_line, n1)) as [[x n] r]. reflexivity. Qed.
Lemma sync_offers_witness : exists (m : Inner) (e : Event), ev_id e = "ec" /\ holds (n_store m) e.
Proof.
  assert (Hin : Asks (CEvent hello) ∈ l_out calmly.1.1).
  { apply (list_elem_of_lookup_2 _ 4). vm_compute. reflexivity. }
  destruct (sync_offers neg_laws laptop None calm_line n1 _ _ _ n1_ok n1_book calm eq_refl calmly_eq)
    as (x1 & m & greeted & Ex & _ & H). destruct greeted as [[person presented]|err].
  - destruct H as (_ & _ & H). destruct (H hello Hin) as (e' & k & Hid & Hh & _). exists m, e'. split; [exact Hid|exact Hh].
  - exfalso. assert (Eo : is_ok (exchange laptop None (calm_line, n1)).2 = true) by (vm_compute; reflexivity).
    rewrite Ex in Eo. discriminate Eo.
Defined.

(** A net whose every device answers as Bob's laptop, and one with nobody. *)
Definition net : Net := fun _ d => mkDial (Ok (mkReached d frames FrameClosed)) (fun _ => at_ 240).
Definition nobody : Net := fun _ _ => mkDial (Err "timed out") (fun _ => at_ 240).
Lemma net_fair : fair net.
Proof. intros k d j. apply clock; vm_compute; discriminate. Qed.
Lemma nobody_fair : fair nobody.
Proof. intros k d j. apply clock; vm_compute; discriminate. Qed.
Definition to_group (h : PublicKey) : InviteLink :=
  mkInviteLink h None [(laptop, None) : EndpointId * option SocketAddr].
Lemma follow_puts_down_witness :
  is_carried (n_groups (follow nobody (to_group "elsewhere") n1).1) ("elsewhere" : PublicKey) = false /\
  exists st, state (n_groups (follow net (to_group g) n1).1) g = Some st /\ gs_public st = true.
Proof.
  split.
  - pose proof (follow_puts_down nobody (to_group "elsewhere") n1 nobody_fair n1_ok n1_book) as [_ H].
    assert (E : is_ok (follow nobody (to_group "elsewhere") n1).2 = false) by (vm_compute; reflexivity).
    destruct (follow nobody (to_group "elsewhere") n1).2 as [a|e]; [discriminate E|]. apply H. vm_compute. reflexivity.
  - pose proof (follow_puts_down net (to_group g) n1 net_fair n1_ok n1_book) as [_ H].
    assert (E : is_ok (follow net (to_group g) n1).2 = true) by (vm_compute; reflexivity).
    destruct (follow net (to_group g) n1).2 as [a|e]; [exact H|discriminate E].
Defined.
Definition of_bob : ContactLink := mkContactLink peer [(laptop, None) : EndpointId * option SocketAddr].
Lemma links_dialled_witness : node_ok (join_group (at_ 240) net (to_group g) n1).1 /\
  ((add_contact (at_ 240) net of_bob n1).2 = Ok peer -> peer <> me n1).
Proof.
  assert (Hc : clock_ok (at_ 240)) by (apply clock; vm_compute; discriminate).
  destruct (links_dialled (at_ 240) net n1 net_fair Hc n1_ok n1_book) as [Hj Ha].
  split; [exact (Hj (to_group g))|]. intros E. destruct (Ha of_bob) as [_ H]. exact (proj2 (H peer E)).
Defined.
Example bob_is_a_contact : (add_contact (at_ 240) net of_bob n1).2 = Ok peer.
Proof. vm_compute. reflexivity. Qed.

(** The loop over her node: Bob added as a contact, his laptop synced with, the
    sync failed, and the next round five seconds on. *)
Definition befriended : Inner := (add_contact (at_ 240) net of_bob n1).1.
Definition turned : Loop * Inner := opt_get (new_loop, n1) (round 5 (at_ 240) elements new_loop befriended).
Definition failed : Loop * Inner := ends (at_ 240) nobody laptop turned.1 turned.2.
(** It waits five seconds more, of the two it could. *)
Example loop_waits : option_map (fun x => (lp_flying x.1, lp_due x.1 !! laptop, lp_wait x.1 !! laptop, bool_decide (laptop ∈ sync_targets (at_ 245) x.2)))
  (round 5 (at_ 245) elements failed.1 failed.2) = Some ([], Some 250, Some 5, true).
Proof. vm_compute. reflexivity. Qed.

Definition again : list Arrival := [(at_ 241, Push, hello); (at_ 242, Gossip, second); (at_ 243, Local, hello)].
Lemma hello_held : holds (n_store n1) hello /\ holds (n_store n1) second.
Proof.
  split.
  - exists (row_of hello 210). split; [apply (list_elem_of_lookup_2 _ 5); vm_compute; reflexivity|vm_compute; reflexivity].
  - exists (row_of second 210). split; [apply (list_elem_of_lookup_2 _ 6); vm_compute; reflexivity|vm_compute; reflexivity].
Qed.
Lemma held_changes_nothing_witness : exists n' vs, accept_all again n1 = (n', Ok vs) /\
  n_store n' = n_store n1 /\ n_groups n' = n_groups n1.
Proof.
  assert (Ht : timed again) by (repeat (constructor; [apply clock; vm_compute; discriminate|]); constructor).
  destruct (held_changes_nothing again n1 Ht n1_ok) as (n' & vs & H & Hs & HG & _).
  - intros a Ha. destruct hello_held as [H1 H2].
    repeat (apply elem_of_cons in Ha as [->|Ha]; [exact H1 || exact H2|]). by apply not_elem_of_nil in Ha.
  - exists n', vs. split; [exact H|]. split; [exact Hs|exact HG].
Defined.
End SyncWitnesses.

Module FileWitnesses.
Import World NodeWorld SampleWire RelayWitnesses.
#[local] Open Scope string_scope.
#[local] Open Scope Z_scope.

(** A blob store that keeps what it is given, a provider that has a store. *)
#[export] Instance blobs : BlobTypes := {|
  Hash := string; hash_to_hex h := h; hash_from_str h := Some h;
  BlobStore := gmap string string;
  blob_add st b := Ok (<[hex_encode (sha256 b) := b]> st, hex_encode (sha256 b));
  blob_whole st h := Ok (bool_decide (is_Some (st !! h)));
  blob_get st h := match st !! h with Some b => Ok b | None => Err "not here" end;
  Provider := gmap string string;
  execute_get c h st := match c !! h with
    | Some "" => (st, None)
    | Some b => (<[h := b]> st, Some (Ok tt))
    | None => (st, Some (Err "refused"))
    end;
|}.
#[export] Instance blob_laws : BlobLaws.
Proof. split; [|done]. intros s _. by exists s. Qed.

(** Bob posts a photo to the staff channel, which Cat cannot see. *)
Definition photo : string := "abababababababababababababababababababababababababababababababab".
Definition file : Attachment := mkAttachment photo photo 83 "image/png" "photo.png".
Definition posted : Event := mk "e5" "bob" 207 (message_with g "staff" "look" [file]).
Definition cats : Event := NodeWitnesses.bind_ "d1" "cat" tablet.
Definition told : list Arrival := map (fun e => (at_ 210, Fetch, e)) (snapshot_events ++ [hello; posted; bobs; cats]).
Definition n4 : Inner := ran (accept_all told) fresh.
Lemma told_timed : timed told.
Proof. repeat (constructor; [apply clock; vm_compute; discriminate|]). constructor. Qed.
Lemma n4_ok : node_ok n4.
Proof.
  eapply ran_ok; [apply (accept_all_total (fun _ => True) _ _ told_timed fresh_ok I); done|]. by intros n' vs [H _].
Qed.
Lemma fresh_files : files_right (n_store fresh).
Proof. split; [intros hash u m H|intros hash p H]; [vm_compute in H; discriminate H|by apply not_elem_of_nil in H]. Qed.

(** Bob's laptop is served; Cat's tablet, and a stranger's phone, are not. *)
Definition asks : list (Inner * Timestamp * ProviderMessage) := [(n4, 240, GetRequest photo)].
Example laptop_served : serve_blobs n4 240 laptop asks = Some [Some (Ok tt)].
Proof. vm_compute. reflexivity. Qed.
Example tablet_refused : serve_blobs n4 240 tablet asks = Some [Some (Err Permission)].
Proof. vm_compute. reflexivity. Qed.
Example stranger_closed : serve_blobs n4 240 phone asks = None.
Proof. vm_compute. reflexivity. Qed.
Lemma files_served_witness : Forall2 (answered_right (persons_of (n_book n4) laptop 240)) asks [Some (Ok tt)].
Proof.
  assert (Hw : Forall (fun ask : Inner * Timestamp * ProviderMessage => store_wf (n_store ask.1.1)) asks).
  { constructor; [|constructor]. apply n4_ok. }
  pose proof (files_served n4 240 laptop asks Hw) as H. rewrite laptop_served in H. exact H.
Defined.

Lemma sweep_spares_witness : exists live, protect (n_store n4) (mkPolicy true 0) 240 ∅ = Some live.
Proof.
  assert (E : accept_all told fresh = (n4, Ok (replicate 9 (true, "")))).
  { unfold n4. apply runs. vm_compute. reflexivity. }
  destruct (sweep_spares told fresh n4 _ (mkPolicy true 0) 240 ∅ told_timed fresh_ok fresh_files E) as (live & H & _).
  exists live. exact H.
Defined.
Lemma cache_bounded_witness : sizes (map (blob_of (n_store n4)) (blobs_to_keep (n_store n4) 100)) <= 100.
Proof.
  assert (Hf : files_right (n_store n4)).
  { split; [intros hash u m H; vm_compute in H; discriminate H|intros hash p H; by eexists]. }
  assert (Hc : 100 < U64_MAX) by (vm_compute; reflexivity).
  destruct (cache_bounded (n_store n4) 100 (k_wf _ _ _ _ n4_ok) Hf Hc) as [H _].
  replace (sizes (List.filter is_ours (blob_rows (n_store n4)))) with 0 in H by (vm_compute; reflexivity). exact H.
Defined.

(** Cat sends Ann a message that names the photo: and her tablet is served. *)
Definition cat_keys : Keys := "cat"%string.
Definition anns : PublicKey := "ann"%string.
Definition catp : PublicKey := "cat"%string.
Definition lure : DmFile := mkDmFile photo photo photo 83 "image/png" "x.png" (hex_encode "k") (hex_encode "n").
Definition wrap : Event := DeviceWitnesses.theirs (wrap_dm_file cat_keys anns lure (Some cats)).
Definition n5 : Inner := ran (accept_event (at_ 240) Push wrap) n4.
Example tablet_served : serve_blobs n5 240 tablet [(n5, 240, GetRequest photo)] = Some [Some (Ok tt)].
Proof. vm_compute. reflexivity. Qed.
Lemma dm_grants_witness : permitted n5 240 [catp] photo = Ok tt.
Proof.
  assert (E : accept_event (at_ 240) Push wrap n4 = (n5, Ok (true, ""))) by (unfold n5; apply runs; vm_compute; reflexivity).
  assert (Hc : clock_ok (at_ 240)) by (apply clock; vm_compute; discriminate).
  assert (Hd : exists d, open_dm (n_person n4) wrap = Some d /\ dm_file d = Some lure /\ dm_from d = catp).
  { eexists. split; [vm_compute; reflexivity|]. split; reflexivity. }
  destruct Hd as (d & Hd & Hf & Hp).
  exact (dm_grants n4 (at_ 240) Push wrap n5 d lure photo 240 catp n4_ok Hc E Hd Hf eq_refl (or_introl (eq_sym Hp))).
Defined.

(** Only the laptop is up, and it has the photo. *)
Definition bobs_files : Provider := ({[ photo := "the bytes" ]} : gmap string string).
Definition dials : Dials := fun from => map (fun d => if bool_decide (d = laptop) then Some bobs_files else None) from.
Definition ours : Blobs := mkBlobs (∅ : gmap string string) FilePolicy_default.
Lemma laptop_comes from : laptop ∈ from ->
  exists before after, dials from = (before ++ Some bobs_files :: after)%list /\ Forall (comes_back photo) before.
Proof.
  induction from as [|d t IH]; intros Hd; [by apply not_elem_of_nil in Hd|]. unfold dials. cbn [map].
  case_bool_decide as El; [by exists [], (dials t)|]. apply elem_of_cons in Hd as [Hd|Hd]; [by symmetry in Hd|].
  destruct (IH Hd) as (before & after & He & Hb). unfold dials in He. rewrite He.
  exists (None :: before), after. split; [reflexivity|]. by constructor.
Qed.
Lemma fetch_finds_witness : (fetch_file (at_ 240) dials photo (ours, n4)).2 = Some (Ok tt).
Proof.
  assert (Ha : askable photo) by (intros st; by eexists).
  pose proof (fetch_finds (at_ 240) dials photo photo ours n4 n4_ok Ha eq_refl) as H.
  destruct (fetch_file (at_ 240) dials photo (ours, n4)) as [[x' n'] r] eqn:E. destruct H as (_ & H & _). apply H.
  exists posted, laptop, bobs_files. split_and!.
  - exists (row_of posted 210). split; [apply (list_elem_of_lookup_2 _ 6); vm_compute; reflexivity|vm_compute; reflexivity].
  - exists "e5", 83. apply (list_elem_of_lookup_2 _ 0). vm_compute. reflexivity.
  - left. apply (list_elem_of_lookup_2 _ 0). vm_compute. reflexivity.
  - vm_compute. discriminate.
  - exact laptop_comes.
  - intros st. cbn [execute_get blobs]. unfold bobs_files. rewrite lookup_singleton_eq. split; [reflexivity|].
    cbn [fst blob_whole blobs]. f_equal. apply bool_decide_eq_true. rewrite lookup_insert_eq. by eexists.
Defined.
(** A tablet that has it but never sends it is up first. *)
Definition stalled : Provider := ({[ photo := "" ]} : gmap string string).
Example laptop_waits : (fetch_file (at_ 240) (fun from => Some stalled :: dials from) photo (ours, n4)).2 = None.
Proof. vm_compute. reflexivity. Qed.
End FileWitnesses.
