(* ===== verification/AppWitnesses.v ===== *)
(** A call at concrete inputs: Ann in the lounge, Bob coming in from his laptop,
    ringing her, and the interleavings that lose him.  Then the app: a zap paid
    from a wallet, Ann setting up her device, her members' buttons, her unread
    messages, and a round of the publisher. *)
From Stdlib Require Import SpecFloat.
From stdpp Require Import relations.
From S2P Require Import Prelude Text Nostr GroupEvent Replace Perm Zap GroupState Fold FoldOrder Authority Safety.
From S2P Require Import Binding Dm Groups EventStore StoreSpec StoreEffect Proto Person Node NodeSpec Accept NodeOps NodeGroups.
From S2P Require Import Session Relay Sync Jitter Audio Voice VoiceSpec Lightning Wallet WalletSpec App Views Chat Publish AppSpec PublishSpec.
From S2P Require Import Witnesses NodeWitnesses WireWitnesses SyncWitnesses.

#[local] Existing Instance Sample.types.
#[local] Existing Instance Sample.ops.
#[local] Existing Instance Sample.laws.
#[local] Existing Instance SampleDevice.types.
#[local] Existing Instance SampleDevice.ops.
#[local] Existing Instance SampleDevice.laws.
#[local] Existing Instance DeviceWitnesses.crypto.
#[local] Existing Instance StoreWitnesses.json.

(** ** A call *)
Module VoiceWitnesses.
Import World NodeWorld SampleWire RelayWitnesses.
#[local] Open Scope string_scope.
#[local] Open Scope Z_scope.
#[local] Open Scope list_scope.

(** A codec of one byte a frame: is it loud? *)
#[export] Instance byte_codec : Opus := {|
  Encoder := unit; Decoder := unit; encoder_new := Some tt; decoder_new := Some tt;
  encode_float e f _ := (e, Some [if SFltb (S754_zero false) (level f) then 1 else 0]);
  decode_float d p _ _ := (d, Some (replicate 960 (if bool_decide (p = [1]) then one32 else S754_zero false)))
|}.
#[export] Instance ordered : VoiceTypes := {| ep_ltb a b := negb (String.leb b a) |}.

Definition lounge : Snapshot :=
  mkSnapshot 1 "hit" true 0 "a group" [mkChannel "general" "general" Text 0; mkChannel "lounge" "lounge" GroupEvent.Voice 0]
    [] [mkRole DEFAULT_ROLE "member" Perm.DEFAULT_MEMBER 0] (Some "ann") {["ann" := ∅; "bob" := ∅; "cat" := ∅]} ∅ ∅.
Definition events : list Event :=
  [mk "g1" g 100 (meta_builder lounge g 100); mk "g2" g 100 (admins_builder lounge g 100);
   mk "g3" g 100 (members_builder lounge g 100); mk "g4" g 100 (roles_builder lounge g 100); created; bobs].
Definition v1 : Inner := ran (accept_all (map (fun e => (at_ 210, Fetch, e)) events)) fresh.
Definition cfg : Config := Config_default.
Definition bob : PublicKey := "bob"%string.
Definition joined : Voice * Inner :=
  acts cfg [(at_ 220, 0, Joins g "lounge"); (at_ 220, 0, Resumes 0 Announced)] (Voice_new, v1).
Example in_the_lounge : map k_room (v_calls joined.1) = [InChannel g "lounge"] /\ v_current joined.1 = Some 0%nat.
Proof. vm_compute. split; reflexivity. Qed.
Example bob_may : rights v1 220 g "lounge" bob = Some true.
Proof. vm_compute. reflexivity. Qed.
(** Bob dials in on connection 7, and is answered. *)
Definition greeting : Voice * Inner := act cfg (at_ 221) 10 (Accepts 7 laptop (Some (JChannel (pk_to_hex g) "lounge"))) joined.
Definition met : Voice * Inner := act cfg (at_ 221) 20 (Resumes 0 (Written true)) greeting.
Example bob_greeted : v_waits greeting.1 = [Greeted 0 bob true 7].
Proof. vm_compute. reflexivity. Qed.

Definition the_call (c : Voice * Inner) : Call := opt_get (Call_new (InDm bob) false tt 0) (v_calls c.1 !! 0%nat).
Lemma met_call : v_calls met.1 !! 0%nat = Some (the_call met).
Proof. apply opt_get_some. vm_compute. reflexivity. Qed.
Definition bobs_peer : Peer := opt_get (mkPeer 0 (Jitter.new 3) tt false None) (k_peers (the_call met) !! bob).
Lemma bobs_peer_eq : k_peers (the_call met) !! bob = Some bobs_peer.
Proof. apply opt_get_some. vm_compute. reflexivity. Qed.
(** Bob said where he is; a second later he has not. *)
Definition talking : Voice * Inner :=
  (met.1, ran (accept_event (at_ 222) Gossip (mk "h1" "bob" 222 (voice_presence g "lounge" true))) met.2).
Lemma heard_by_right_witness : exists v' n', upkeep cfg (at_ 223) 1000 0 talking = (v', n') /\
  exists k', v_calls v' !! 0%nat = Some k' /\ exists x', k_peers k' !! bob = Some x' /\ q_heard x' = true.
Proof.
  assert (Hl : k_loops (the_call met) = true) by (vm_compute; reflexivity).
  assert (Hr : k_room (the_call met) = InChannel g "lounge") by (vm_compute; reflexivity).
  pose proof (heard_by_right cfg (at_ 223) 1000 0 (the_call met) g "lounge" talking.1 talking.2 met_call Hl Hr) as H.
  rewrite <- surjective_pairing in H. destruct (upkeep cfg (at_ 223) 1000 0 talking) as [v' n'] eqn:E.
  exists v', n'. split; [reflexivity|]. destruct H as (k' & A & _ & _ & D & _). exists k'. split; [exact A|].
  assert (Hin : bob ∈ in_room cfg (at_ 223) n' g "lounge").
  { replace n' with (upkeep cfg (at_ 223) 1000 0 talking).2 by (rewrite E; reflexivity).
    apply (bool_decide_unpack _). vm_compute. exact I. }
  assert (Hh : rights n' 223 g "lounge" bob = Some true).
  { replace n' with (upkeep cfg (at_ 223) 1000 0 talking).2 by (rewrite E; reflexivity). vm_compute. reflexivity. }
  exists (with_heard_ (opt_get false (rights n' 223 g "lounge" bob)) bobs_peer). split.
  - apply D. split; [apply in_room_spec; exact Hin|]. exists bobs_peer. split; [exact bobs_peer_eq|reflexivity].
  - rewrite Hh. reflexivity.
Defined.

(** Two samples, one of them loud. *)
Definition frame : list f32 := [one32; S754_zero false].
(** Banned, Bob is heard no more, and is sent what is said until his last word
    of being there is old. *)
Definition banned : Voice * Inner :=
  upkeep cfg (at_ 224) 2000 0 (talking.1, ran (accept_event (at_ 223) Fetch (mk "h2" "ann" 223 (ban_user g "bob"))) talking.2).
Example banned_still_listens :
  is_some_and (state (n_groups banned.2) g) (fun s => is_member s bob) = false /\
  q_heard <$> (k_peers (the_call banned) !! bob) = Some false /\
  existsb (fun o => match o with Datagram 7 _ => true | _ => false end) (v_out (tick cfg 2020 0 (Some frame) banned.1)) = true.
Proof. vm_compute. by split_and!. Qed.
Lemma tick_right_witness : speaks cfg 1020 (the_call met) frame = true /\
  exists sent mix, v_out (tick cfg 1020 0 (Some frame) met.1) = v_out met.1 ++ sent ++ [Plays mix] /\
    Datagram 7 [1; 0; 0; 1; 1] ∈ sent /\ Z.of_nat (length mix) = FRAME.
Proof.
  assert (Hs : speaks cfg 1020 (the_call met) frame = true) by (vm_compute; reflexivity).
  assert (Hl : k_loops (the_call met) = true) by (vm_compute; reflexivity).
  split; [exact Hs|].
  destruct (tick_right cfg 1020 0 (the_call met) (Some frame) met.1 met_call Hl) as (sent & mix & Ho & Hm & Hn & _).
  exists sent, mix. split; [exact Ho|]. split; [|exact Hn]. apply Hm. exists frame, [1], bob, bobs_peer.
  split; [reflexivity|]. split; [exact Hs|]. split; [vm_compute; reflexivity|]. split; [exact bobs_peer_eq|].
  vm_compute. reflexivity.
Defined.

(** Bob dials twice: the second of two connections is lost. *)
Lemma replaced_is_lost_witness :
  let v2 := reader_ends 0 7 (add_peer cfg 0 bob true 8 met.1) in
  v_out v2 = v_out met.1 ++ [Hangs 7 "replaced"] /\ exists k2, v_calls v2 !! 0%nat = Some k2 /\ k_peers k2 !! bob = None.
Proof.
  cbv zeta. assert (Hc : q_conn bobs_peer = 7) by (vm_compute; reflexivity).
  assert (Hr : k_readers (the_call met) !! 7 = Some bob) by (vm_compute; reflexivity).
  assert (Hn : 8 <> 7) by discriminate.
  destruct (replaced_is_lost cfg 0 (the_call met) bob 7 bobs_peer 8 true met.1 tt met_call bobs_peer_eq Hc Hr Hn eq_refl)
    as (_ & (k2 & A & B & _) & Ho).
  split; [exact Ho|]. exists k2. split; [exact A|exact B].
Defined.

(** Ann leaves between the yes she sends Bob and his being let in. *)
Lemma left_behind_witness :
  let v2 := let_in cfg 30 0 bob true 7 true (stop_call 0 "left" greeting.1) in
  tick cfg 40 0 None v2 = v2 /\
  exists k2 x, v_calls v2 !! 0%nat = Some k2 /\ k_loops k2 = false /\ k_peers k2 !! bob = Some x /\ q_conn x = 7.
Proof.
  cbv zeta. assert (Hk : v_calls greeting.1 !! 0%nat = Some (the_call greeting)) by (apply opt_get_some; vm_compute; reflexivity).
  assert (Hw : Greeted 0 bob true 7 ∈ v_waits greeting.1) by (rewrite bob_greeted; left).
  destruct (left_behind cfg (at_ 221) 30 None 0 bob true 7 (the_call greeting) greeting.1 v1 tt Hk Hw eq_refl)
    as (_ & (k2 & x & A & B & _ & D & E) & _ & _ & _).
  destruct (left_behind cfg (at_ 221) 40 None 0 bob true 7 (the_call greeting) greeting.1 v1 tt Hk Hw eq_refl)
    as (_ & _ & _ & _ & T).
  split; [exact T|]. exists k2, x. split; [exact A|]. split; [exact B|]. split; [exact D|exact E].
Defined.
End VoiceWitnesses.

(** ** A zap *)
Module WalletWitnesses.
Import Witnesses.World NodeWorld SampleWire.
Import Witnesses.ZapWitnesses.
#[local] Open Scope string_scope.
#[local] Open Scope Z_scope.
#[local] Open Scope list_scope.

(** A server that takes zaps of a thousand to half a billion millisats, and
    always hands out the same invoice. *)
#[export] Instance lightning : LnTypes := {|
  Url := string; url_parse s := Some s; url_scheme s := if starts_with "wss://" s then "wss" else "https"; url_host s := Some s;
  append_pairs u l := u;
  params_json _ := Some (mkParamsJson (Some "payRequest") (Some "https://pay/cb") (Some 1000) (Some 500000000) (Some "coffee")
                           true (Some (Sample.hex "provider")) 0 None None);
  invoice_json _ := Some (mkInvoiceJson (Some coffee) None None);
|}.
#[export] Instance wallets : WalletTypes := {|
  NwcUri := string; nwc_parse s := if starts_with "nostr+walletconnect://" s then Some s else None;
  nwc_relays _ := ["wss://wallet"]; nwc_public_key _ := "wallet";
  pay_request _ _ b := Some (mkEvent "p1" "dan" 600 23194 [] b "signed");
  read_response _ e _ := Some (None, Some (ev_content e));
|}.
Definition cafe : LightningAddress := opt_get (mkAddress "" "") (match address_parse "cafe@pay.example" with Ok a => Some a | Err _ => None end).
Example cafe_is : cafe = mkAddress "cafe" "pay.example" /\ rsplit_once "@"%char "a@b@c" = Some ("a@b", "c").
Proof. vm_compute. split; reflexivity. Qed.
Definition web : Web := fun _ => [].
Definition tell (m : RelayMessage) : WsIn := WsText (relay_as_json m).
(** The wallet's relay: no note of its ciphers, the request taken, the payment's preimage. *)
Definition net : Wallet.Net := fun url =>
  Ok ([tell (REose "i"); tell (ROk "p1" true ""); tell (REvent "r" (mkEvent "p2" "wallet" 601 23195 [] "preimage" "signed"))], 9%nat).
Definition moment : Wallet.World := mkWorld web net ("i", "r").
Definition moments : Moments := mkMoments moment moment moment (fun k => "s") [(0%nat, tell (REvent "s" zap_receipt))].
Definition quoted : Quote :=
  opt_get (mkQuote (mkPayParams cafe "" 0 0 None 0 "" "") "" 0 0)
    (match quote (Some cafe) web cafe 250000 with Ok q => Some q | Err _ => None end).
Lemma quotes : is_ok (quote (Some cafe) web cafe 250000) = true.
Proof. vm_compute. reflexivity. Qed.
Lemma quoted_is : quote (Some cafe) web cafe 250000 = Ok quoted.
Proof. pose proof quotes as H. unfold quoted. destruct (quote (Some cafe) web cafe 250000); [reflexivity|discriminate H]. Qed.
Definition purse : NwcUri := "nostr+walletconnect://w".
Definition sent := send_zap (Some cafe) moments purse quoted zap_request.
(** It is paid and its receipt comes; the fee's invoice, always the same, is refused. *)
Example sent_is : (qu_fee_sats quoted,
    match sent.2 with
    | Ok z => Some (za_preimage z, option_map snd (za_receipt z), za_fee z)
    | Err _ => None
    end) = (2500, Some ("preimage", Some zap_of, FeeFailed (LnBadInvoice "wrong amount"))).
Proof. vm_compute. reflexivity. Qed.
Lemma paid_as_quoted_witness : exists zap fee, (send_zap (Some cafe) moments purse quoted zap_request).1 = zap ++ fee /\
  (forall c, c ∈ zap -> exists b, priced b 250000000 /\ asked_once purse b c) /\ (length fee <= 2)%nat.
Proof.
  destruct (send_zap (Some cafe) moments purse quoted zap_request) as [cs r] eqn:E.
  pose proof (paid_as_quoted (Some cafe) web cafe 250000 quoted moments purse zap_request cs r ltac:(discriminate)
    ltac:(discriminate) quoted_is) as H.
  specialize (H E). destruct H as (zap & fee & H1 & _ & H3 & H4 & _).
  exists zap, fee. split; [exact H1|]. split; [exact H4|exact H3].
Defined.

(** A message of another subscription is kept; the answer is the next. *)
Definition waiting : Conn :=
  mkConn "wss://wallet" [tell (REvent "r" (mkEvent "p2" "wallet" 601 23195 [] "preimage" "signed"))] 9 []
    [("other", zap_receipt)].
Lemma response_comes_witness : exists c r, await_response 3 purse NIP04 "r" waiting = Some (c, r).
Proof.
  destruct (response_comes 3 purse NIP04 "r" waiting) as (c & r & H & _); [vm_compute; lia|].
  exists c, r. exact H.
Defined.
End WalletWitnesses.

(** ** The app *)
Module AppWitnesses.
Import Witnesses.World NodeWorld SampleWire WalletWitnesses SyncWitnesses VoiceWitnesses.
#[local] Open Scope string_scope.
#[local] Open Scope Z_scope.
#[local] Open Scope list_scope.

Definition alphanumeric (c : string) : bool :=
  match c with
  | String a EmptyString => let n := nat_of_ascii a in
      Nat.leb 48 n && Nat.leb n 57 || Nat.leb 65 n && Nat.leb n 90 || Nat.leb 97 n && Nat.leb n 122
  | _ => false
  end.
#[export] Instance app_types : AppTypes := {|
  from_encrypted s := strip_prefix "ncryptsec1" s; decrypt_with e p := strip_prefix p e; encrypt_with k p := Some ("ncryptsec1" +:+ p +:+ k);
  pk_parse := Sample.read_hex; char_alphanumeric := alphanumeric; str_lowercase s := s;
|}.
#[export] Instance floats : FloatOps := {| f_ln x := x; f_powf x y := x; f_total_leb x y := SFleb x y |}.

(** Ann's first run: an identity made, its last characters copied back. *)
Definition ann : Keys := "ann"%string.
Definition eve : Keys := "eve"%string.
Definition os (t : Z) : Os := mkOs (at_ t) (t * 1000) true.
Definition netconf : NetConf := mkNetConf N0 None [] (Some ["wss://public"]).
Definition disk : Disk := mkDisk (Ok None) (Ok None) ∅ phone empty_store ∅.
Definition opened_app : App (K := MemoryStore) := opened (∅ : MemoryStore) netconf disk AppFile_default.
Lemma opens : open (os 100) (∅ : MemoryStore) netconf disk = Ok opened_app.
Proof. reflexivity. Qed.
Definition made : App (K := MemoryStore) := (create_identity (os 101) ann opened_app).1.
Definition backed : App (K := MemoryStore) := (confirm_backup (os 102) (tail_bytes CONFIRM_CHARS (reveal_nsec_for_backup ann)) made).1.
Definition no_node : Running := mkRunning fresh Voice_new [].
Definition ran_app : Running := opt_get no_node (ap_running backed).
Lemma backed_runs : ap_running backed = Some ran_app.
Proof. apply opt_get_some. vm_compute. reflexivity. Qed.
Lemma runs_only_backed_up_witness : stage backed = Ready /\ af_npub (ap_file backed) = Some (key_npub (n_person (ru_node ran_app))).
Proof.
  apply (runs_only_backed_up (os 100) netconf (∅ : MemoryStore) disk opened_app backed opens).
  - eapply rtc_l; [apply (o_create (os 101) ann)|]. eapply rtc_l; [|apply rtc_refl].
    apply (o_confirm (os 102) (tail_bytes CONFIRM_CHARS (reveal_nsec_for_backup ann))).
  - exact backed_runs.
Defined.
(** Her key lost from the keychain, another identity under the same node. *)
Definition lost_keys : App (K := MemoryStore) := set_keys (∅ : MemoryStore) backed.
Example replaced : let '(a, r) := create_identity (os 103) eve lost_keys in
  r = Ok (key_npub eve) /\ af_npub (ap_file a) = Some (key_npub eve) /\ option_map (fun r => me (ru_node r)) (ap_running a) = Some (ann : PublicKey).
Proof. vm_compute. repeat split. Qed.

(** Bob, a moderator, over Cat. *)
Definition cat : PublicKey := "cat"%string.
Definition cats : gset string := opt_get ∅ (gs_members s0 !! cat).
Lemma cats_eq : gs_members s0 !! cat = Some cats.
Proof. apply opt_get_some. vm_compute. reflexivity. Qed.
Definition bob_sees : MemberView := (member_view 150 s0 bob ∅ [] cat).2.
Lemma bob_may_all : (mb_can_kick bob_sees && mb_can_ban bob_sees && mb_can_mute bob_sees && mb_can_set_roles bob_sees)%bool = true.
Proof. vm_compute. reflexivity. Qed.
Lemma buttons_honest_witness :
  (exists s', apply_remove s0 bob 150 cat false = Ok s') /\
  (apply_mute s0 bob 150 cat (Some 200)).2 = Ok tt.
Proof.
  destruct (buttons_honest s0 bob 150 ∅ [] cat cats 150 s0_wf cats_eq) as (H1 & _ & H3 & _).
  split; [apply H1|apply H3]; vm_compute; reflexivity.
Defined.

(** Two messages of Cat's in the general channel, none read. *)
Definition n1_state : GroupState := opt_get (empty_state g) (state (n_groups n1) g).
Lemma n1_state_eq : state (n_groups n1) g = Some n1_state.
Proof. apply opt_get_some. vm_compute. reflexivity. Qed.
Lemma n1_member : is_member n1_state (me n1) = true.
Proof. vm_compute. reflexivity. Qed.
Lemma unread_exact_witness : exists l : list Event, NoDup l /\ length l = 2%nat /\
  forall e, e ∈ l -> holds (n_store n1) e /\ ev_pubkey e <> me n1.
Proof.
  destruct (unread_exact n1 g n1_state ∅ 300 (fun _ => false) n1_ok n1_state_eq n1_member) as (all & Hall & H).
  assert (Hcount : mkUnread (Views.npub g) "general" 2 ∈
    unread_in (me n1) ∅ (match (channel_messages g None n1).2 with Ok l => l | Err _ => [] end)
      (group_view 300 (me n1) (fun _ => false) (g, Some n1_state))).
  { assert (unread_in (me n1) ∅ (match (channel_messages g None n1).2 with Ok l => l | Err _ => [] end)
      (group_view 300 (me n1) (fun _ => false) (g, Some n1_state)) = [mkUnread (Views.npub g) "general" 2]) as ->
      by (vm_compute; reflexivity). by left. }
  rewrite Hall in Hcount. apply H in Hcount as (_ & _ & _ & l & Hn & Hl & He). exists l.
  split; [exact Hn|]. split; [exact Hl|]. intros e Hin. apply He in Hin as (Hh & _ & _ & _ & Hp & _). by split.
Defined.

(** Cat posts to her group and, with a second tag, to a club she is not in:
    the club's general channel shows it. *)
Definition club : PublicKey := "club"%string.
Definition both : Event := mk "cb" "cat" 220 (b_tag (message g "general" "psst") ["h"; pk_to_hex club]).
Example club_shows : match accept_event (at_ 225) Push both n1 with
  | (n, Ok v) => v = (true, "") /\ group_of both = Some g /\
      match messages_of club "general" n with (_, Ok l) => map mv_text l = ["psst"] | _ => False end
  | _ => False
  end.
Proof. vm_compute. by split_and!. Qed.

Lemma channel_id_free_witness : channel_id "general chat!" ["general-chat"; "general-chat-2"] = "general-chat-3" /\
  channel_id "general chat!" ["general-chat"; "general-chat-2"] ∉ ["general-chat"; "general-chat-2"].
Proof. split; [vm_compute; reflexivity|]. apply (channel_id_free "general chat!"). reflexivity. Defined.

(** The group's key in the keychain, everything goes to one relay. *)
Definition group_key : Keys := "group"%string.
Definition group_keys : MemoryStore := {[ Views.npub g := secret_hex group_key ]}.
Definition agrees : Answering := fun _ l => map (fun _ => true) l.
Definition round := publish_once (at_ 300) agrees group_keys None true ["wss://public"] ∅ (n1, []).
Example round_says : map (fun x => ev_kind x.1) round.1.2 = [GROUPS_LIST; ANNOUNCEMENT] /\ is_ok round.2 = true.
Proof. vm_compute. split; reflexivity. Qed.
(** A second group of Ann's, which is private. *)
Definition secret : PublicKey := "secret"%string.
Definition secret_snap : Snapshot := mkSnapshot 1 "plans" false 0 "" [mkChannel "general" "general" Text 0] []
  [mkRole DEFAULT_ROLE "member" Perm.DEFAULT_MEMBER 0] (Some "ann") {["ann" := ∅]} ∅ ∅.
Definition secret_events : list Event :=
  [mk "s1" secret 100 (meta_builder secret_snap secret 100); mk "s2" secret 100 (admins_builder secret_snap secret 100);
   mk "s3" secret 100 (members_builder secret_snap secret 100); mk "s4" secret 100 (roles_builder secret_snap secret 100)].
Definition two : Inner := with_groups (mkGroups ("ann" : PublicKey) ∅ {[ g := None; secret := None ]}) fresh.
Definition n7 : Inner := ran (accept_all (heard ++ map (fun e => (at_ 210, Fetch, e)) secret_events)) two.
Definition both_keys : MemoryStore := <[Views.npub secret := secret_hex ("secret" : Keys)]> group_keys.
Definition round_of (done : Published) := publish_once (at_ 300) agrees both_keys None true ["wss://public"] done (n7, []).
Definition before : Published := {[ Views.npub secret := mkSent "public" ["wss://public"] 200 ]}.
Definition told (r : (Inner * Outbox) * result NodeError Published) : list (Kind * PublicKey * nat) :=
  map (fun x => (ev_kind x.1, ev_pubkey x.1, length (ev_tags x.1))) r.1.2.
(** Never announced, nothing is said of it; announced before it went private,
    that it is: two tags. *)
Example secret_kept : told (round_of ∅) = [(GROUPS_LIST, "ann", 1%nat); (ANNOUNCEMENT, g, 5%nat)].
Proof. vm_compute. reflexivity. Qed.
Example secret_withdrawn : told (round_of before) = [(GROUPS_LIST, "ann", 1%nat); (ANNOUNCEMENT, g, 5%nat); (ANNOUNCEMENT, secret, 2%nat)].
Proof. vm_compute. reflexivity. Qed.
Lemma two_ok : node_ok two.
Proof.
  apply empty_keeps. intros gr. unfold state. cbn [n_groups two with_groups g_carried].
  destruct (decide (gr = g)) as [->|Hn]; [by rewrite lookup_insert_eq|rewrite lookup_insert_ne by done].
  destruct (decide (gr = secret)) as [->|Hs]; [by rewrite lookup_singleton_eq|by rewrite lookup_singleton_ne].
Qed.
Lemma n7_ok : node_ok n7.
Proof.
  assert (Ht : timed (heard ++ map (fun e => (at_ 210, Fetch, e)) secret_events)).
  { apply Forall_app. split; [apply heard_timed|]. repeat (constructor; [apply clock; vm_compute; discriminate|]). constructor. }
  eapply ran_ok; [apply (accept_all_total (fun _ => True) _ _ Ht two_ok I); done|]. by intros n' vs [H _].
Qed.
Lemma private_never_mentioned_witness : exists sent r,
  publish_once (at_ 300) agrees both_keys None true ["wss://public"] before (n7, []) = ((n7, sent), r) /\
  Forall (sayable n7 before ["wss://public"] true) sent /\
  exists e at_, e ∈ map fst sent /\ carries (withdraw_builder at_) secret e.
Proof.
  destruct (private_never_mentioned n7 n7_ok before ["wss://public"] (at_ 300) agrees both_keys None true) as (sent & r & Hr & Hs).
  { intros p. unfold Views.npub, pk_to_bech32, wire. cbn. split; discriminate. }
  exists sent, r. split; [exact Hr|]. split; [exact Hs|].
  pose proof secret_withdrawn as Hw. unfold round_of in Hw. rewrite Hr in Hw. unfold told in Hw. cbn [fst snd] in Hw.
  destruct sent as [|x0 [|x1 [|x2 [|x3 sent]]]]; try discriminate Hw. injection Hw as _ _ _ _ _ _ Hk Hp Hl.
  apply Forall_cons in Hs as [_ Hs]. apply Forall_cons in Hs as [_ Hs]. apply Forall_cons in Hs as [[_ Hs] _].
  destruct Hs as [(_ & _ & Hk')|[((_ & Hk' & _) & _)|(at1 & st & Hst & H)]]; [rewrite Hk in Hk'; discriminate Hk'..|].
  exists x2.1, at1. split; [apply (list_elem_of_lookup_2 _ 2); reflexivity|]. rewrite Hp in Hst, H.
  assert (Hpub : is_some_and (state (n_groups n7) secret) gs_public = false) by (vm_compute; reflexivity).
  rewrite Hst in Hpub. cbn [is_some_and] in Hpub. rewrite Hpub in H. exact (proj1 H).
Defined.
End AppWitnesses.
