(* ===== verification/AnchorWitnesses.v ===== *)
(** An anchor's bridge at concrete inputs: a client that reads nothing, proves
    to be Bob, and reads what Bob may. *)
From S2P Require Import Prelude Text Nostr GroupEvent Replace Perm Zap GroupState Fold Safety.
From S2P Require Import Binding Dm Groups EventStore StoreSpec Proto Person Node NodeSpec NodeOps.
From S2P Require Import NodeGroups Session Relay RelaySpec Sync SyncSpec Anchor AnchorSpec.
From S2P Require Import Witnesses NodeWitnesses WireWitnesses.

#[local] Existing Instance Sample.types.
#[local] Existing Instance Sample.ops.
#[local] Existing Instance Sample.laws.
#[local] Existing Instance SampleDevice.types.
#[local] Existing Instance SampleDevice.ops.
#[local] Existing Instance SampleDevice.laws.
#[local] Existing Instance DeviceWitnesses.crypto.
#[local] Existing Instance StoreWitnesses.json.

Module AnchorWitnesses.
Import World NodeWorld SampleWire RelayWitnesses.
#[local] Open Scope string_scope.
#[local] Open Scope Z_scope.

#[export] Instance bridge_types : BridgeTypes := {|
  match_event f e := is_none_or (f_kinds f) (fun ks => kind_in (ev_kind e) ks) |}.
Definition bridge : Bridge := mkBridge ("ann" : Keys) "ann's box" (Some "wss://Box.example/").
Definition wants (row : list string) : Input := FromClient (Sample.write_rows [row]).
Definition proof (challenge : string) : Event :=
  mk "au" "bob" 200 (b_tag (b_tag (builder_new AUTHENTICATION "") ["relay"; "wss://box.example"]) ["challenge"; challenge]).
Definition asked_of : list (Env * Input) :=
  [(at_ 225, wants ["REQ"; "s"]); (at_ 226, wants ["AUTH"; Sample.as_json (proof "c0")]);
   (at_ 227, wants ["AUTH"; Sample.as_json (proof "c1")]); (at_ 228, wants ["REQ"; "t"]);
   (at_ 229, FromFeed hello)].
Definition told_of (m : RelayMessage) : string :=
  match m with
  | REvent sub e => sub +:+ " " +:+ ev_id e | REose sub => sub +:+ " eose" | ROk _ true _ => "ok" | ROk _ _ why => why
  | RAuth _ => "auth" | _ => "other"
  end.
Definition stranger : PublicKey := "stranger"%string.
Definition session_of : Client * Inner := ws_session bridge "c1" stranger 40 asked_of n1.
Example session_is : map told_of (c_sent session_of.1) =
  ["auth"; "s ee"; "s ec"; "s e0"; "s signed by ann"; "s eose"; "invalid: wrong challenge"; "ok";
   "t ee"; "t ec"; "t e0"; "t signed by ann"; "t eose"; "s ec"; "t ec"].
Proof. vm_compute. reflexivity. Qed.

Lemma asked_calm : Forall calm_input asked_of.
Proof. repeat (constructor; [split; [apply clock; vm_compute; discriminate|exact I]|]). constructor. Qed.
(** Cat's message reached a reader who could read it. *)
Lemma bridge_reads_witness : exists env i x m,
  shown_by_right bridge env i m (reader_of x) hello /\ node_ok (session_of.2).
Proof.
  assert (Hin : REvent "t" hello ∈ c_sent session_of.1).
  { apply (list_elem_of_lookup_2 _ 9). vm_compute. reflexivity. }
  destruct (bridge_reads bridge "c1" stranger 40 asked_of n1 n1_ok n1_book asked_calm) as [K H].
  destruct (H "t" hello Hin) as (before & env & i & after & x & m & _ & _ & _ & Hs).
  exists env, i, x, m. split; [exact Hs|exact K].
Defined.

(** A word with no channel, from Bob: not taken. *)
Definition nowhere : Event := mk "ew" "bob" 226 (b_tag (builder_new CHAT_MESSAGE "hi") ["h"; pk_to_hex g]).
Definition bob_member : PublicKey := "bob"%string.
Definition bobs_client : Client := set_reader bob_member (mkClient "c1" None stranger ∅ 9 []).
Lemma bridge_writes_witness : exists x' n' on,
  input bridge (at_ 226) (wants ["EVENT"; Sample.as_json nowhere]) (bobs_client, n1) = ((x', n'), Ok on) /\ node_ok n'.
Proof.
  assert (Hc : clock_ok (at_ 226)) by (apply clock; vm_compute; discriminate).
  destruct (bridge_writes bridge (at_ 226) (wants ["EVENT"; Sample.as_json nowhere]) bobs_client n1 n1_ok n1_book Hc I)
    as (x' & n' & on & H & K & _).
  exists x', n', on. split; [exact H|exact K].
Defined.

Definition named (p : PublicKey) : option string := Some p.
Definition ann_key : Keys := "ann"%string.
Definition four : list Event := opt_get [] (translate ann_key s0 named 230).
Example rows_told : map (fun e => (ev_kind e, length (ev_tags e))) four = [(39000, 5%nat); (39001, 3%nat); (39002, 4%nat); (39003, 4%nat)].
Proof. vm_compute. reflexivity. Qed.
Lemma nip29_faithful_witness : exists members, members ∈ four /\ told_by ann_key 39002 230 members /\
  ("p" :: pk_to_hex bob_member :: option_list (named bob_member)) ∈ ev_tags members.
Proof.
  assert (E : translate ann_key s0 named 230 = Some four) by (vm_compute; reflexivity).
  destruct (nip29_faithful ann_key s0 named 230 four s0_wf E) as (m1 & m2 & m3 & m4 & H & (_ & _ & H3 & _) & _ & _ & Hm & _).
  exists m3. split; [rewrite H; right; right; left|]. split; [exact H3|].
  destruct (Hm ("p" :: pk_to_hex bob_member :: option_list (named bob_member))) as [_ [Hin|[_ Hno]]].
  - right. exists bob_member. split; [vm_compute; reflexivity|reflexivity].
  - exact Hin.
  - vm_compute in Hno. discriminate Hno.
Defined.
End AnchorWitnesses.
