(* ===== verification/WindowWitnesses.v ===== *)
(** The window at concrete inputs: Ann's window over her node opens, a message
    is sent, a picture kept, and what the composer says is what her group says.
    Then the zap dialog, over servers that quote whatever is asked: what it says
    is what it pays, and three runs in which it does not say what it should.  Last
    the command line: Ann's directory, and Cat kicked from her group. *)
From Stdlib Require Import SpecFloat.
From stdpp Require Import relations.
From S2P Require Import Prelude Text Nostr GroupEvent Replace Perm Zap GroupState Fold FoldOrder Authority Safety.
From S2P Require Import Binding Dm Groups EventStore StoreSpec StoreEffect Proto Person Node NodeSpec Accept NodeOps Doors NodeGroups.
From S2P Require Import Session Relay RelaySpec Sync SyncSpec Audio Voice Lightning Wallet WalletSpec App Views Chat Publish AppSpec PublishSpec.
From S2P Require Import Shown ShownSpec Core Window WindowSpec Timeline Render RenderSpec AppRight Dialog DialogSpec Blobs Cli CliSpec.
From S2P Require Import Witnesses NodeWitnesses WireWitnesses SyncWitnesses AppWitnesses.

#[local] Existing Instance Sample.types.
#[local] Existing Instance Sample.ops.
#[local] Existing Instance Sample.laws.
#[local] Existing Instance SampleDevice.types.
#[local] Existing Instance SampleDevice.ops.
#[local] Existing Instance SampleDevice.laws.
#[local] Existing Instance DeviceWitnesses.crypto.
#[local] Existing Instance StoreWitnesses.json.

Module WindowWitnesses.
Import Witnesses.World NodeWorld NodeWitnesses SampleWire WalletWitnesses SyncWitnesses AppWitnesses.VoiceWitnesses AppWitnesses.
#[local] Open Scope string_scope.
#[local] Open Scope Z_scope.
#[local] Open Scope list_scope.

(** ** Pictures *)
Definition photo_px : Pixels := mkPixels 4000 "a photo".
Lemma pictures_capped_witness : exists p, p = insert_picture "p" photo_px {["p"]} no_pictures /\ ps_bytes p = 4000 /\
  (held_bytes (ps_shown p) <= 50331648 \/ forall k, is_Some (ps_shown p !! k) -> k ∈ ({["p"]} : gset string)) /\ pictures_ok p.
Proof.
  exists (insert_picture "p" photo_px {["p"]} no_pictures). split; [reflexivity|]. split; [vm_compute; reflexivity|].
  destruct (pictures_capped no_pictures "p" photo_px {["p"]} (rtc_refl _ _)) as (_ & H & _ & _ & _ & Hok).
  split; [exact H|]. apply Hok; [|reflexivity].
  split; [constructor| |reflexivity]. intros k. cbn. split; [intros H1; inversion H1|intros [x H1]; discriminate H1].
Defined.
(** Asked for twice while it loads, it is counted twice. *)
Example twice_counted : ps_bytes (insert_picture "p" photo_px {["p"]} (insert_picture "p" photo_px {["p"]} no_pictures)) = 8000.
Proof. vm_compute. reflexivity. Qed.

(** ** Ann's app, over her node *)
Definition anns_app : App (K := MemoryStore) := set_running (Some (mkRunning n1 Voice_new [])) opened_app.
Lemma anns_right r : ap_running anns_app = Some r -> node_ok (ru_node r) /\ book_wf (n_book (ru_node r)).
Proof. intros [= <-]. split; [exact n1_ok|exact n1_book]. Qed.
Lemma os_clock : clock_ok (os_env (os 240)).
Proof. by vm_compute. Qed.
Definition posted : App (K := MemoryStore) := (app_send (os 240) (Views.npub g) "general" "hi all" [] anns_app).1.
Definition posted_node : Running := opt_get no_node (ap_running posted).
Lemma posted_runs : ap_running posted = Some posted_node.
Proof. apply opt_get_some. vm_compute. reflexivity. Qed.
Lemma presses_keep_node_witness :
  is_ok (app_send (os 240) (Views.npub g) "general" "hi all" [] anns_app).2 = true /\ node_ok (ru_node posted_node).
Proof.
  split; [vm_compute; reflexivity|].
  apply (presses_keep_node (os 240) SyncWitnesses.net os_clock net_fair anns_app posted); [|exact anns_right|exact posted_runs].
  apply rtc_once. apply (p_send (os 240) SyncWitnesses.net (Views.npub g) "general" "hi all" []).
Defined.

(** ** Her window *)
Definition no_text : KeyError -> string := fun _ => "a key".
Definition core : Core (App (K := MemoryStore)) := app_core no_text (os 240) SyncWitnesses.net ann "code".
Definition opened_window : State * App (K := MemoryStore) := (@refresh _ core 240 (new_window, anns_app)).1.
Definition said_window : State * App (K := MemoryStore) := (@send_text _ core 240 "hi all" opened_window).1.
Example window_shows : map mv_text (w_messages said_window.1) = ["hello"; "again"; "hi all"] /\ w_group said_window.1 = Some (Views.npub g)
  /\ w_channel said_window.1 = Some "general" /\ map_to_list (w_unread said_window.1) = [].
Proof. vm_compute. repeat split. Qed.
(** Two messages unread, the window opened, one sent: they stand in time. *)
Lemma window_in_time_witness : in_time mv_at (w_messages said_window.1) /\ length (w_messages said_window.1) = 3%nat.
Proof.
  split; [|vm_compute; reflexivity].
  apply (window_in_time anns_app said_window.1 said_window.2); [exact anns_right|].
  rewrite <- surjective_pairing. apply (rtc_l _ _ opened_window); [|apply rtc_once].
  - apply (l_moment no_text (os 240) SyncWitnesses.net ann "code" os_clock net_fair). apply (@h_refresh _ core).
  - apply (l_moment no_text (os 240) SyncWitnesses.net ann "code" os_clock net_fair). apply (@h_send _ core).
Defined.

(** ** Cat's composer *)
#[local] Notation cat_sees := (group_view 200 cat (fun _ => false) (g, Some s0)).
Definition general : ChannelView := opt_get (mkChannelView "" "" "" false false 0 false) (head (gv_channels cat_sees)).
Lemma general_listed : general ∈ gv_channels cat_sees.
Proof.
  assert (E : gv_channels cat_sees = general :: tail (gv_channels cat_sees)) by (vm_compute; reflexivity).
  rewrite E. apply list_elem_of_here.
Qed.
Lemma no_files : exists l, attachments_of hello = Ok l.
Proof. exists []. vm_compute. reflexivity. Qed.
Lemma unsilenced : silence_at s0 cat 200 = None.
Proof. vm_compute. reflexivity. Qed.
Lemma open_composer : refusal 200 (Some cat_sees) (Some general) = "".
Proof. vm_compute. reflexivity. Qed.
Lemma in_general : channel_of hello = Some (cv_id general).
Proof. vm_compute. reflexivity. Qed.
Lemma composer_honest_witness :
  general ∈ gv_channels cat_sees /\ refusal 200 (Some cat_sees) (Some general) = "" /\ judge_message s0 hello = Ok tt.
Proof.
  split; [exact general_listed|]. split; [exact open_composer|].
  destruct (composer_honest s0 cat 200 (fun _ => false) g general hello general_listed in_general eq_refl eq_refl no_files) as [H _].
  exact (H open_composer unsilenced).
Defined.
End WindowWitnesses.

(** ** The zap dialog *)
Module DialogWitnesses.
Import Witnesses.World NodeWorld NodeWitnesses SampleWire WalletWitnesses SyncWitnesses AppWitnesses.VoiceWitnesses AppWitnesses WindowWitnesses.
#[local] Open Scope string_scope.
#[local] Open Scope Z_scope.
#[local] Open Scope list_scope.

(** A code of one module, and the app but for its servers. *)
#[export] Instance codes : QrTypes := {| qr_code _ := Ok (1%nat, [true]); to_uppercase := to_ascii_uppercase |}.
Definition quoting : DialogCore (App (K := MemoryStore)) := {|
  dc_wallet_view a := (a, Err "no"); dc_inbox a := (a, Err "no"); dc_contact_link a := (a, Err "no");
  dc_publishes := publishes; dc_public_relays := public_relays; dc_lists_groups := ap_list_groups;
  dc_set_lightning_address _ a := (a, Err "no"); dc_connect_wallet _ a := (a, Err "no"); dc_disconnect_wallet a := (a, Err "no");
  dc_set_inbox _ a := (a, Err "no"); dc_set_public_relays l a := (a, Ok l); dc_set_list_groups _ a := (a, Ok tt);
  dc_backup_to_file _ _ a := (a, Ok tt);
  dc_zap_quote g id n a := (a, Ok (mkZapQuote "bob" "bob@pay.example" n (fee_of n) (total_of n) ["wss://r"] true));
  dc_zap g id n _ _ a := (a, Ok (mkZapSent false (fee_of n)));
  dc_zap_invoice g id n _ _ a := (a, Ok (mkInvoiceView "lnbc1" n));
  dc_zap_wait a := (a, Ok true);
  dc_zap_fee_invoice a := (a, Ok None) |}.
#[local] Existing Instance quoting.
#[local] Existing Instance core.
#[export] Instance quoting_laws : DialogLaws (DC := quoting) (App (K := MemoryStore)).
Proof. split; cbn; [by intros g id n a q [= <-]|by intros g id n c o a sent [= <-]|by intros g id n c o a inv [= <-]]. Defined.
(** A run: what is clicked, and the tasks that go on, by their place. *)
Inductive Act := Clicked (k : Click) | Goes (i : nat).
#[local] Notation Scr := (Screen (A := App (K := MemoryStore))).
Definition act (y : Scr) (x : Act) : Scr := match x with Clicked k => on_click k y | Goes i => on_task 240 i y end.
Definition run (l : list Act) (y : Scr) : Scr := foldl act y l.
Lemma acts_run l y : rtc dialogs y (run l y).
Proof.
  revert y. induction l as [|x t IH]; intros y; cbn; [apply rtc_refl|]. eapply rtc_l; [|apply IH].
  destruct x as [k|i]; cbn; [apply d_click|apply (d_task 240 i y)].
Qed.
Definition cats : string := "id:ec".
Definition anns : string := "id:signed by ann".
(** Opened on Cat's message: it asks for a thousand sats by itself. *)
Definition opens : list Act := [Clicked (COpen cats); Goes 0; Goes 0; Goes 0; Goes 0].
Definition types : list Act := [Clicked (CAmount "50,000"); Clicked CSettled; Goes 0; Goes 0].
Definition asked : Scr := run (opens ++ types) (start said_window).
Definition says (y : Scr) : string * string * string := let z := ui_zap (sc_ui y) in (zu_who z, zu_quote z, zu_result z).
Definition midot : string := str_of_bytes [32; 194; 183; 32].
Example asked_says : says asked = ("npub1636174",
  "50,000 sats to npub1636174" +:+ midot +:+ "500 sats HIT_ENTER fee" +:+ midot +:+ "50,500 total", "").
Proof. vm_compute. reflexivity. Qed.
Lemma says_what_it_pays_witness : exists amount, zap_amount (sc_ui asked) = Some amount /\
  zu_total (ui_zap (sc_ui asked)) = sats (amount + fee_of amount) /\
  sc_tasks (on_click CWallet asked) = [TWallet amount "" false].
Proof.
  destruct (says_what_it_pays said_window asked (acts_run _ _)) as (n & who & H1 & _ & H2 & Ht & _ & H3 & _); [vm_compute; reflexivity..|].
  pose proof H1 as Hn. vm_compute in Hn. injection Hn as <-. exists 50000. split; [exact H1|]. split.
  - rewrite <- Ht; [exact H2|vm_compute; discriminate].
  - rewrite H3 by (vm_compute; reflexivity). vm_compute. reflexivity.
Defined.

(** ** When it does not *)
(** Pressed within a quarter of a second of typing, the button pays what is
    typed and says what was. *)
Example pressed_too_soon : let y := run [Clicked (CAmount "500000"); Clicked CWallet] asked in
  zu_total (ui_zap (sc_ui y)) = "50,500" /\ sc_tasks y = [TWallet 500000 "" false].
Proof. vm_compute. split; reflexivity. Qed.
(** A quote asked for Cat's message, answered when the dialog stands on Ann's: the button pays Ann. *)
Definition late : Scr := run [Clicked (COpen cats); Goes 0; Goes 0; Goes 0; Clicked (CDialog ""); Clicked (COpen anns); Goes 1; Goes 1; Goes 0]
  (start said_window).
Example quote_of_another : says late = ("npub1616e6e",
  "1,000 sats to npub1636174" +:+ midot +:+ "10 sats HIT_ENTER fee" +:+ midot +:+ "1,010 total", "") /\ can_wallet (sc_ui late) = true /\
  zap_target (sc_chat late).1 = Ok (Views.npub g, anns, "npub1616e6e").
Proof. vm_compute. repeat split. Qed.
(** Cat's zap by code, over when the dialog stands on Ann's message: it is done,
    and says Ann was zapped. *)
Definition by_code : Scr :=
  run (opens ++ [Clicked CQr; Goes 0; Goes 0; Clicked (CDialog ""); Clicked (COpen anns); Goes 1; Goes 1; Goes 0; Goes 1; Goes 1; Goes 1])
    (start said_window).
Example done_elsewhere : says by_code = ("npub1616e6e", "", "Zapped 1,000 sats to npub1616e6e.") /\ zu_step (ui_zap (sc_ui by_code)) = "done".
Proof. vm_compute. split; reflexivity. Qed.
End DialogWitnesses.

(** ** The command line *)
Module CliWitnesses.
Import Witnesses.World NodeWorld NodeWitnesses SampleWire SyncWitnesses FileWitnesses.
#[local] Open Scope string_scope.
#[local] Open Scope Z_scope.
#[local] Open Scope list_scope.

#[export] Instance cli_types : CliTypes := {| debug_str s := "'" +:+ s +:+ "'"; stats_text _ := "synced" |}.
Definition ann : Keys := "ann"%string.
Definition cat : PublicKey := "cat"%string.
Definition given : Given := mkGiven "hit-data" "hit-enter" (Ok tt) (fun k => at_ (240 + Z.of_nat k)) "eve" "gg" (Some "c0de") phone
  Doors.Written Doors.Written (fun _ => Err "no file") (fun _ _ => Ok tt) (fun _ => phone) (fun _ => []) (fun _ => net) elements None
  (fun _ => []) ("", "") false (fun c => c).
Definition anns : Machine (K := MemoryStore) := mkMachine {[key_npub ann := reveal_nsec_for_backup ann]}
  (mkDir (HasJson (mkNodeFile (key_npub ann) [])) NoKeyFile (carry_group (n_store n1) g 200) (∅ : gmap string string)) 0 [].
Definition kicks : Cmd := CKick (pk_to_hex g) (pk_to_hex cat).
Definition kicked : Machine (K := MemoryStore) := (run_cmd given kicks anns).1.
Example kick_prints : m_out kicked = ["removed 636174"].
Proof. vm_compute. reflexivity. Qed.
Lemma anns_store : store_wf (d_store (m_dir anns)).
Proof.
  cbn [m_dir d_store anns]. unfold carry_group. destruct (existsb _ _); [apply n1_ok|].
  refine (q_wf _ _ (tables_quiet (n_store n1) _ _ _ _)). apply n1_ok.
Qed.
Lemma kick_runs : run_cmd given kicks anns = (kicked, Ok tt).
Proof.
  assert (H : (run_cmd given kicks anns).2 = Ok tt) by (vm_compute; reflexivity).
  unfold kicked. rewrite <- H. apply surjective_pairing.
Qed.
Lemma anns_person me : person_of anns me -> me = ann.
Proof. intros (f & [= <-] & H). vm_compute in H. injection H as <-. reflexivity. Qed.
Lemma cat_named p : named (Some (pk_to_hex cat)) p -> p = cat.
Proof. intros H. destruct (H _ eq_refl) as [E|[_ E]]; vm_compute in E; [discriminate E|injection E as <-; reflexivity]. Qed.
(** Cat's removal, signed by Ann, is among what any node of hers applies. *)
Lemma said_is_done_witness : exists g e, ev_pubkey e = keys_public_key ann /\ parse_action e = Some (g, Remove cat false) /\
  (unheard (d_store (m_dir anns)) e -> applied_in (d_store (m_dir kicked)) (keys_public_key ann) g e).
Proof.
  pose proof (said_is_done given kicks (pk_to_hex g) (Some (pk_to_hex cat)) anns eq_refl I anns_store) as H. rewrite kick_runs in H.
  destruct H as (me & gr & p & Hme%anns_person & Hp%cat_named & _ & _ & H). subst me p.
  destruct H as (e & a & H1 & H2 & H3 & H4); [discriminate|]. cbn in H3. subst a. exists gr, e. split; [exact H1|]. split; [exact H2|exact H4].
Defined.
End CliWitnesses.
